(* ===== verification/_CoqProject ===== *)
-Q . S2P
Prelude.v
GoLib.v
Types.v
VfRange.v
Selector.v
Policy.v
BridgeConfig.v
NeedUpdate.v
Conditions.v
PoolConfig.v
Webhook.v
Json.v
Mutate.v
Effects.v
Kube.v
DrainController.v
DrainSafety.v
DrainProtocol.v
RebootTracker.v
Daemon.v
DaemonSafety.v
RebootLimit.v
GenericPlugin.v
GenericDecision.v
KernelArgs.v
NodePolicy.v
NodePolicySpec.v
Parallel.v
HostSys.v
HostKernel.v
HostNetwork.v
HostDevices.v
Infiniband.v
InfinibandSpec.v
HostStore.v
HostSriov.v
HostMachine.v
HostDrivers.v
HostConverge.v
HostConfig.v
HostOutcome.v
HostSafety.v
Render.v
Networks.v
NetworksSpec.v
NetworkController.v
NetworkControllerSpec.v
Mellanox.v
MellanoxSpec.v
Merge.v
MergeSpec.v
Tls.v
Orchestrator.v
OrchestratorSpec.v
OperatorConfig.v
OperatorConfigSpec.v
Ovs.v
OvsDb.v
OvsSpec.v
OvsRun.v
Systemd.v
SystemdSpec.v
SriovService.v
SriovServiceSpec.v
K8sPlugin.v
K8sPluginSpec.v
VirtualPlugin.v
VirtualPluginSpec.v
PoolController.v
PoolControllerSpec.v
Platform.v
Baremetal.v
Aws.v
Openstack.v
PlatformSpec.v
DaemonStart.v
Events.v
DevicePlugin.v
Commands.v
StatusApply.v
