(* ===== verification/Prelude.v ===== *)
(** * The SR-IOV network operator: verification development

    ** The program

    The operator configures SR-IOV network cards of a Kubernetes cluster.  Its
    parts and how they interact:

    - users write SriovNetworkNodePolicy objects; the _admission webhook_
      (pkg/webhook) fills in defaults and rejects policies that cannot work;
    - the _node policy controller_ (controllers/sriovnetworknodepolicy_controller.go)
      folds all policies, in a canonical order, into one SriovNetworkNodeState
      per node and renders the device plugin's configuration;
    - the _configuration daemon_ (pkg/daemon) on every node watches its node
      state, asks the _plugins_ (pkg/plugins) whether a change needs a drain or a
      reboot, asks for the drain through the desired-state annotation, waits for
      the current-state annotation, applies the plugins and reports;
    - the _drain controller_ (controllers/drain_controller.go, with
      pkg/drain) answers the annotation: it drains at most as many nodes of a
      pool at once as the pool allows and tells the daemon when it may go on;
    - the _reboot tracker_ (pkg/host/internal/reboottracker) keeps a count on
      the host's disk that limits the reboots made for one generation;
    - the _host helpers_ (pkg/host/internal, pkg/host/store) read and change
      the devices: VFs, drivers, eswitch modes, udev rules, GUIDs; the generic
      plugin calls them, sequentially or with one goroutine per device;
    - the _Mellanox plugin_ (pkg/plugins/mellanox, pkg/vendors/mellanox)
      changes the firmware settings of Mellanox NICs;
    - the _network controllers_ (controllers/generic_network_controller.go)
      keep a NetworkAttachmentDefinition for every network object, rendered by
      pkg/render from the templates under bindata;
    - the _operator configuration controller_ and the _pool configuration
      controller_ (controllers/sriovoperatorconfig_controller.go,
      sriovnetworkpoolconfig_controller.go) deploy the webhooks, the daemon, the
      device plugin and machine configurations from rendered manifests, which
      pkg/apply merges into the cluster; pkg/orchestrator hides whether the
      cluster is OpenShift;
    - the _k8s plugin_ and the _systemd services_ (pkg/plugins/k8s,
      cmd/sriov-network-config-daemon/service.go, pkg/host/internal/service and
      systemd) configure the node during boot when the daemon runs in systemd
      mode; the _virtual plugin_ and the _platforms_ (pkg/platform) serve guests
      of a cloud; the _OVS bridges_ (pkg/host/internal/bridge) are managed in
      the database of Open vSwitch;
    - the _device plugin_ waits in an init container
      (cmd/sriov-network-config-daemon/waitforconfig.go) until the daemon
      releases it.

    ** The files

    Foundations:
    - [Prelude] results with errors and panics, 64-bit integers, shared lemmas,
      tactics and the hint databases; [GoLib] the parts of Go's strings,
      strconv, slices and sort the code uses; [Effects] programs that make
      requests, their runs against any world, and the weakest-precondition
      calculus; [Kube] pkg/utils/cluster.go and pkg/status/patcher.go over the
      interface [KubeObject].

    api/v1 (mostly helper.go), pure functions on records:
    - [Types] the custom resources; [VfRange] parseRange, ParseVfRange, the VF
      groups; [Selector] the Selected methods, netFilter and the table of
      supported NICs; [Policy] ByPriority, Apply, mergeConfigs;
      [BridgeConfig] ApplyBridgeConfig; [NeedUpdate] NeedToUpdateSriov;
      [Conditions] the status conditions and pkg/status/transitions.go;
      [PoolConfig] MaxUnavailable, the keep-until annotation.

    The parts with effects and the decisions around them:
    - [Webhook] (pkg/webhook/validate.go) and [Mutate] (mutate.go, and the
      handlers of webhook.go that call both);
    - [DrainController]: one definition per method of DrainReconcile and of the
      drainer; [DrainSafety] and [DrainProtocol] hold its theorems;
    - [RebootTracker]; [Daemon]: one definition per method of NodeReconciler
      that a reconciliation reaches; [DaemonSafety] and [RebootLimit] hold its
      theorems; [DaemonStart]: flags, Init, the watcher of the operator
      configuration, the log level, the table of NICs;
    - [GenericPlugin] (pkg/plugins/generic/generic_plugin.go);
      [GenericDecision] and [KernelArgs] hold its theorems;
    - [NodePolicy]: one definition per method of the node policy reconciler;
      [NodePolicySpec] holds its theorems;
    - [Events] the predicates and event handlers of the controllers over an
      abstract work queue; [StatusApply] the payloads of pkg/status/patcher.go
      and a server that applies them; [DevicePlugin] the init container of the
      device plugin next to the daemon; [Commands] shutdown, the cleanup command,
      the end of main, the event recorder.

    The host:
    - [HostSys] the requests the helpers make (files, commands, netlink, devlink)
      and the package variables they read; [Parallel] goroutines: schedules of
      interleaved programs, and the rely-guarantee rules for them;
    - [HostKernel], [HostNetwork], [HostDevices], [HostStore], [Infiniband],
      [HostSriov]: one definition per function of the package of that name
      (udev and vdpa are in [HostDevices]); [InfinibandSpec] has the theorems on
      GUIDs;
    - [HostMachine] a machine: what the kernel answers and changes for each
      request; [HostDrivers], [HostConverge], [HostConfig] the helpers against
      it, [HostOutcome] and [HostSafety] the theorems;
    - [Ovs] the bridges, [OvsDb] the database server, [OvsSpec] and [OvsRun] the
      theorems;
    - [Mellanox] and [MellanoxSpec], the firmware plugin;
    - [Systemd] unit files and the files of the systemd mode, with [SystemdSpec];
      [SriovService] the two services, with [SriovServiceSpec]; [K8sPlugin],
      [VirtualPlugin] and their [...Spec] files;
    - [Platform], [Baremetal], [Aws], [Openstack] and [PlatformSpec].

    Deploying:
    - [Render] pkg/render/render.go; [Networks] the three kinds of network, their
      templates and data, [NetworksSpec] the text they render to;
      [NetworkController] the generic reconciler, [NetworkControllerSpec] the
      API server it talks to and its theorems;
    - [Json] JSON values and unstructured objects; [Merge] pkg/apply, with
      [MergeSpec]; [Tls] pkg/utils/tls.go; [Orchestrator] the interface as a
      record of operations with its two implementations, with
      [OrchestratorSpec]; [OperatorConfig] the operator configuration controller
      and the feature gates, with [OperatorConfigSpec]; [PoolController] the
      pool configuration controller and machine configurations, with
      [PoolControllerSpec].

    ** How the code is represented

    Structs are records with the source's field names behind a short prefix; a
    nil and an empty slice or map are one value.  Go's [int] and [time.Duration]
    are integers, with the wrap-around at 64 bits written out ([wrap64]) where
    the code's arithmetic can reach it and ranges of inputs as hypotheses
    elsewhere.  A function that returns an error is a function to [result] (or
    to a sum type where it makes requests); an index out of range, a nil
    dereference and a failed one-result type assertion are [Panic].

    A function that talks to the API server, the host, a plugin or kubectl is
    a finite tree of requests ([Effects.prog]); a step of a [World] answers
    each request, any error included, and a theorem about "every run" quantifies
    over all those answers.  [DrainSafety] gives the world of the drain
    controller: an API server with linearizable reads and patches that may fail
    before or after they took effect, and other parties that act between any two
    requests.  [NetworkControllerSpec] adds resource versions, whose history is
    ghost state, and the client's refusal of empty namespaces.  [DaemonSafety],
    [DrainProtocol], [HostSafety] and [OperatorConfigSpec] use the world that
    answers anything and remembers the conversation.  [HostMachine] is the world
    of the host: a request that fails changes nothing, reading the devlink mode
    fails only where there is no devlink, and VF addresses are distinct; a failed
    listing of VFs, which the code only logs, is remembered ([HostOutcome]), and
    the outcome is stated for runs without one.  [KernelArgs] has the boot
    configuration, with the three ways kargs.sh can fare on a host ([Tools]).
    [MellanoxSpec] has the firmware of a kernel that is not locked down: settings
    in force and settings of the next boot, queried and set with mstconfig; [OvsDb] the
    tables of Open_vSwitch with their transactions; [SystemdSpec] a disk, whose
    operations may fail; [PoolControllerSpec] an API server that may refuse any
    request; [StatusApply] server-side apply with its field managers;
    [Commands] a clock, with requests that fail when their context has ended.
    The package variables the webhook's reviews share are read through [others],
    what concurrent reviews make of them ([Webhook]).
    [DevicePlugin] puts two programs side by side: between two requests of the
    init container any step of any run of the daemon may happen.

    A goroutine is a program of its own; a [Schedule] says which one makes the
    next request, and the theorems hold for every schedule.  A path is the list
    of its components.  The witnesses run the same
    programs against executable handlers.

    Logging is left out.  Loops are structural over the lists they range over;
    three that only time bounds have a parameter: the daemon's two-minute polls
    ([pollAttempts]) and the service's wait for devices ([attempts]), for which
    the theorems hold at any value, and the polls of the cleanup command
    ([waitDeleted]), where the theorem says how many are enough.  The polls and
    retries of the host helpers run as often as the source's limits allow
    ([pollUntil], [retry], [backoffLoop]).  Where the code ranges over a map and
    the order matters, it is a parameter ([rangeKargs], [range]), and where a
    sort is not stable its result is any sorted permutation ([sorts]).  Text
    templates are syntax trees, executed by a structural function; the regular
    expression over mstconfig's output is matched from every start position,
    without backtracking, since its neighbouring classes are disjoint.

    Parameters with named hypotheses stand for libraries: JSON, YAML and RFC
    3339 printing and parsing (with their round trips), the
    validity of label selectors, SetControllerReference, the conversion of
    decoded manifests.  The table of supported
    NICs is a parameter as well, since it is read from a config map.

    ** What the theorems show

    - Drains.  [Reconcile_respects_drain_limit]: a node is marked as draining
      only under the mutex and with a free slot in its pool, whatever the other
      parties do, as long as only the mutex holder starts drains and pools and
      node labels stay the same.  [Reconcile_follows_protocol]: the current-state
      annotation only moves along the protocol, each step with its evidence for
      that node.
      [drain_one_worker_per_node]: the work queue keeps two workers off one
      node.  [pool_paused_while_draining]: on OpenShift the machine configuration
      pool stays paused.  [drainErrors_bounded]: the messages kept of a failing
      drain.
    - The daemon.  [Reconcile_configures_only_when_drained],
      [Reconcile_applies_fetched_generation], [Reconcile_never_panics], and
      [reboots_limited], which composes the daemon with the tracker through the
      class [RebootTrackerI] and counts the reboots by what the daemon fetched
      and completed (in systemd mode a result of the services, a failed one
      included, completes a configuration: the code does not tell them apart);
      [IncrementRebootCounter_refines] and
      [RebootCounter_roundtrip] are the tracker's side.
      [device_plugin_starts_configured] composes it with the init container of
      the device plugin, [status_managers_apart] with the drain controller that
      writes the same status; [daemon_follows_config]: what the watcher of the
      operator configuration sets.
    - The plugins.  [OnNodeStateChange_decision] against a declarative reading of
      the node state; [no_reboot_loop], [k8s_no_reboot_loop]: a reboot that was
      asked for is not asked for again (kernel arguments: where kargs.sh works);
      [virtual_Apply_correct];
      [mellanox_firmware_converges]: after a cycle the next boot has the VFs that
      are asked for, and then only a link type can ask for another reboot.
    - The host.  [ConfigSriovInterfaces_outcome]: when it succeeds, every device
      has the VFs, modes and drivers its specification asks for, and devices
      without one are reset, sequentially and in every interleaving;
      [ConfigSriovInterfaces_touches_only_managed]: nothing else is touched, in
      failing runs too; [eswitch_changed_only_unbound];
      [ConfigureBridges_converges] for the bridges.  [ParseGUID_roundtrip],
      [GetVFGUID_allocates].  [virtual_networks_survive_restart]: the networks
      that OpenStack and AWS attached are still known after a restart.
    - The systemd mode.  [WriteConfFile_roundtrip]: the service reads what the
      daemon wrote; [boot_result]: what the result file of a boot means.
    - Networks.  [networks_rendered]: the exact text of every definition;
      [network_Reconcile_respects_owners] under any interference;
      [network_Reconcile_provisions]: the outcome of an undisturbed
      reconciliation.
    - From policies to node states.  [admission_guarantees],
      [staticValidate_exact], [validatePfNames_exact],
      [validateNicModel_agrees_with_Selected], [admitted_policy_applies],
      [ValidateCustomResource_allows] for what the webhook admits;
      [Apply_preserves_partition], [Apply_last_policy_wins],
      [sort_ByPriority_canonical], [ApplyBridgeConfig_spec] for applying one
      policy; [applyPolicies_well_formed], [syncSriovNetworkNodeState_converges],
      [renderDevicePluginConfigData_complete], [handleStaleNodeState_delay] for
      the controller.
    - Deploying.  [operator_Ready_means_deployed],
      [operator_webhooks_deleted_before_finalizer], [MergeObjectForUpdate_spec],
      [tls_settings_roundtrip], [pool_Reconcile_spec].
    - The end.  [Shutdown_spec] and [main_shuts_down_last]: what the operator
      leaves when it stops; [cleanup_terminates].
    - The shared predicates: [NeedToUpdateSriov_exact], the VF range round trips
      and overlap test, selectors, [GetSupportedVfIds_stable], conditions,
      [MaxUnavailable_spec].
    - Behaviour that looks unintended, proved as it is:
      [mellanox_reboot_answer_is_the_last],
      [externally_managed_firmware_changed], [moved_network_never_provisioned],
      [GetVFGUID_wraps], [pool_error_resets_system],
      [reboot_asked_without_tools], [validatePfNames_misses_second_overlap],
      [concurrent_review_admits], [unlisted_VFs_not_configured],
      [countDraining_inherits], [phasePost_without_result],
      [boot_accepts_stale_result], [virtual_Apply_forgets_failure],
      [pool_never_released], [cleared_pool_never_released], [CreateOVSBridge_old_uplink_stays],
      [ApplyObject_updates_every_time], [setAnnotationOnPod_attempts],
      [ApplyCondition_reports_foreign_conditions_removed], and the panic in
      [ParseVfRange_roundtrip].

    ** Not modelled

    What is left is wiring and code of others: the construction of managers,
    clients, caches and host helpers (main.go, the start of the commands,
    pkg/helper), the listening HTTP and TLS servers, the declaration of flags,
    logging, generated code (deep copies, mocks, clientsets), and the thin
    wrappers of the netlink, dputils, ethtool, ghw, sriovnet and OVSDB client
    libraries under pkg/host/internal/lib, which are requests of the helpers that
    call them.  The staleness of the caches of the controller runtime is only
    modelled in [StatusApply] and in the worlds that answer anything.  In [HostMachine] a request that fails
    changes nothing; a write that WriteFileWithTimeout gave up may still take
    effect later, which its theorems do not consider. *)
From stdpp Require Export base gmap strings list fin_maps sorting.
From Stdlib Require Export ZArith Lia Ascii.

#[global] Open Scope string_scope.
#[global] Open Scope list_scope.
#[global] Open Scope Z_scope.

(** ** Results of Go code

    A Go function that returns [(T, error)] is a function to [result E T];
    [Panic] is a run-time panic (an index out of range, a nil dereference),
    which no [err != nil] test sees. *)

Inductive result (E A : Type) : Type :=
| Ok (a : A)
| Err (e : E)
| Panic.
Arguments Ok {E A} a.
Arguments Err {E A} e.
Arguments Panic {E A}.

#[export] Instance result_ret {E} : MRet (result E) := λ A a, Ok a.
#[export] Instance result_bind {E} : MBind (result E) := λ A B f r,
  match r with
  | Ok a => f a
  | Err e => Err e
  | Panic => Panic
  end.
#[export] Instance result_fmap {E} : FMap (result E) := λ A B f r,
  match r with
  | Ok a => Ok (f a)
  | Err e => Err e
  | Panic => Panic
  end.

#[export] Instance result_eq_dec {E A} `{EqDecision E, EqDecision A} :
  EqDecision (result E A).
Proof. solve_decision. Defined.

Definition is_ok {E A} (r : result E A) : bool :=
  match r with Ok _ => true | _ => false end.

Definition is_panic {E A} (r : result E A) : bool :=
  match r with Panic => true | _ => false end.

(** ** Machine integers

    Go's [int] and [int64] are 64-bit two's complement on every platform the
    operator is built for. *)

Definition min_int64 : Z := - 2 ^ 63.
Definition max_int64 : Z := 2 ^ 63 - 1.
Definition max_uint64 : Z := 2 ^ 64 - 1.
Definition in_int64 (n : Z) : Prop := min_int64 ≤ n ≤ max_int64.

(** [wrap64] is what an arithmetic result becomes when stored in an [int]. *)
Definition wrap64 (n : Z) : Z := (n + 2 ^ 63) mod 2 ^ 64 - 2 ^ 63.

Lemma wrap64_small n : in_int64 n → wrap64 n = n.
Proof.
  unfold in_int64, wrap64, min_int64, max_int64. intros.
  rewrite Z.mod_small; lia.
Qed.

Lemma wrap64_range n : in_int64 (wrap64 n).
Proof.
  unfold in_int64, wrap64, min_int64, max_int64.
  pose proof (Z.mod_pos_bound (n + 2 ^ 63) (2 ^ 64)). lia.
Qed.

(** ** Tactics *)

(** Case on the first scrutinee found in the goal, remembering the equation. *)
Ltac case_goal :=
  match goal with
  | |- context [match ?x with _ => _ end] =>
      lazymatch x with
      | context [match _ with _ => _ end] => fail
      | _ => let E := fresh "E" in destruct x eqn:E
      end
  end.

(** The same in a hypothesis. *)
Ltac case_hyp H :=
  match type of H with
  | context [match ?x with _ => _ end] =>
      lazymatch x with
      | context [match _ with _ => _ end] => fail
      | _ => let E := fresh "E" in destruct x eqn:E
      end
  end.

(** Turn boolean tests in the context into propositions. *)
Ltac bool_hyps :=
  repeat match goal with
  | H : (_ && _) = true |- _ => apply andb_true_iff in H as [? ?]
  | H : (_ || _) = false |- _ => apply orb_false_iff in H as [? ?]
  | H : negb _ = true |- _ => apply negb_true_iff in H
  | H : negb _ = false |- _ => apply negb_false_iff in H
  | H : (_ =? _)%Z = true |- _ => apply Z.eqb_eq in H
  | H : (_ =? _)%Z = false |- _ => apply Z.eqb_neq in H
  | H : (_ <? _)%Z = true |- _ => apply Z.ltb_lt in H
  | H : (_ <? _)%Z = false |- _ => apply Z.ltb_ge in H
  | H : (_ <=? _)%Z = true |- _ => apply Z.leb_le in H
  | H : (_ <=? _)%Z = false |- _ => apply Z.leb_gt in H
  | H : (_ =? _)%string = true |- _ => apply String.eqb_eq in H
  | H : (_ =? _)%string = false |- _ => apply String.eqb_neq in H
  | H : bool_decide _ = true |- _ => apply bool_decide_eq_true in H
  | H : bool_decide _ = false |- _ => apply bool_decide_eq_false in H
  end.

(** ** Shared list lemmas *)

Lemma existsb_elem {A} (f : A → bool) (l : list A) :
  existsb f l = true ↔ ∃ x, x ∈ l ∧ f x = true.
Proof. rewrite existsb_exists. by setoid_rewrite list_elem_of_In. Qed.

Lemma existsb_not_elem {A} (f : A → bool) (l : list A) :
  existsb f l = false ↔ ∀ x, x ∈ l → f x = false.
Proof.
  rewrite <- not_true_iff_false, existsb_elem. split.
  - intros H x Hx. apply not_true_iff_false. intros Hf. eauto.
  - intros H (x & Hx & Hf). rewrite H in Hf; done.
Qed.

Lemma forallb_elem {A} (f : A → bool) (l : list A) :
  forallb f l = true ↔ ∀ x, x ∈ l → f x = true.
Proof. rewrite forallb_forall. by setoid_rewrite list_elem_of_In. Qed.

(** ** Names that are not in use *)

Lemma app_assoc_s a b c : (a +:+ b) +:+ c = a +:+ (b +:+ c).
Proof.
  induction a as [|x a IH]; [done|].
  change (String x ((a +:+ b) +:+ c) = String x (a +:+ (b +:+ c))). by rewrite IH.
Qed.

Lemma app_nil_s a : a +:+ "" = a.
Proof. induction a as [|x a IH]; [done|]. change (String x (a +:+ "") = String x a). by rewrite IH. Qed.

Lemma string_length_app a b : String.length (a +:+ b) = (String.length a + String.length b)%nat.
Proof. induction a as [|c a IH]; [done|]. change (S (String.length (a +:+ b)) = S (String.length a + String.length b)). by rewrite IH. Qed.

(** Longer than every string of the list. *)
Definition longer (l : list string) : string := foldr String.append "u" l.

Lemma longer_fresh l : longer l ∉ l.
Proof.
  assert (H : ∀ l k, k ∈ l → (String.length k < String.length (longer l))%nat); [|intros E%H; lia]. clear l.
  intros l k Hk. assert (Hp : ∀ l, (0 < String.length (longer l))%nat).
  { clear. induction l as [|a l IH]; [cbn; lia|]. cbn [longer foldr]. rewrite string_length_app. unfold longer in IH. lia. }
  induction Hk as [k l|k a l _ IH]; cbn [longer foldr]; rewrite string_length_app; [specialize (Hp l)|]; unfold longer in *; lia.
Qed.

Lemma longer_not_a_key {A} (m : gmap string A) l : (map_to_list m).*1 ⊆ l → m !! longer l = None.
Proof.
  intros Hsub. apply eq_None_not_Some. intros [v Hv]. apply (longer_fresh l). apply Hsub.
  apply list_elem_of_fmap. exists (longer l, v). split; [done|]. by apply elem_of_map_to_list.
Qed.

(** ** Hint databases of the development *)

Create HintDb sriov.
#[export] Hint Resolve wrap64_range : sriov.
