(* ===== verification/GoLib.v ===== *)
(** * The parts of Go's standard library the modelled code uses

    [strings], [strconv] and [slices], on byte strings.  Bytes at or above
    0x80 are left alone by [ToLower], [EqualFold] and [Fields]: the code only
    folds case against ASCII constants and strips ASCII blanks. *)
From S2P Require Import Prelude.

(** ** package strings *)

Definition byte_eqb (a b : ascii) : bool := Ascii.eqb a b.

(** [strings.Contains(s, "c")] for a one-byte needle. *)
Fixpoint ContainsByte (c : ascii) (s : string) : bool :=
  match s with
  | EmptyString => false
  | String d r => Ascii.eqb d c || ContainsByte c r
  end.

(** [strings.Contains(s, sub)]. *)
Fixpoint Contains (s sub : string) : bool :=
  String.prefix sub s ||
  match s with
  | EmptyString => false
  | String _ r => Contains r sub
  end.

(** [strings.Split(s, "c")] for a one-byte separator: never empty. *)
Fixpoint Split (s : string) (c : ascii) : list string :=
  match s with
  | EmptyString => [""]
  | String d r =>
      if Ascii.eqb d c then "" :: Split r c
      else match Split r c with
           | h :: t => String d h :: t
           | [] => [String d ""]
           end
  end.

(** [strings.SplitN(s, "c", 2)]. *)
Fixpoint SplitN2 (s : string) (c : ascii) : string * option string :=
  match s with
  | EmptyString => ("", None)
  | String d r =>
      if Ascii.eqb d c then ("", Some r)
      else let '(h, t) := SplitN2 r c in (String d h, t)
  end.

Definition lower_byte (a : ascii) : ascii :=
  let n := N_of_ascii a in
  if (65 <=? n)%N && (n <=? 90)%N then ascii_of_N (n + 32) else a.

Fixpoint ToLower (s : string) : string :=
  match s with
  | EmptyString => ""
  | String a r => String (lower_byte a) (ToLower r)
  end.

Definition EqualFold (s t : string) : bool := String.eqb (ToLower s) (ToLower t).

(** [strings.ReplaceAll(s, "c", "d")] for one-byte strings. *)
Fixpoint ReplaceAll (s : string) (c d : ascii) : string :=
  match s with
  | EmptyString => ""
  | String a r => String (if Ascii.eqb a c then d else a) (ReplaceAll r c d)
  end.

(** [strings.HasSuffix(s, "c")] and [strings.TrimSuffix(s, "c")]. *)
Fixpoint HasSuffixByte (s : string) (c : ascii) : bool :=
  match s with
  | EmptyString => false
  | String a EmptyString => Ascii.eqb a c
  | String _ r => HasSuffixByte r c
  end.

Fixpoint TrimSuffixByte (s : string) (c : ascii) : string :=
  match s with
  | EmptyString => ""
  | String a EmptyString => if Ascii.eqb a c then "" else s
  | String a r => String a (TrimSuffixByte r c)
  end.

Definition is_blank (a : ascii) : bool :=
  let n := N_of_ascii a in
  (n =? 32)%N || ((9 <=? n)%N && (n <=? 13)%N).

Fixpoint TrimLeft (s : string) : string :=
  match s with
  | String a r => if is_blank a then TrimLeft r else s
  | EmptyString => ""
  end.

Fixpoint TrimRight (s : string) : string :=
  match s with
  | EmptyString => ""
  | String a r =>
      match TrimRight r with
      | EmptyString => if is_blank a then "" else String a ""
      | r' => String a r'
      end
  end.

(** [strings.TrimSpace]. *)
Definition TrimSpace (s : string) : string := TrimRight (TrimLeft s).

(** [strings.HasSuffix(s, t)]. *)
Fixpoint HasSuffix (s t : string) : bool :=
  String.eqb s t || match s with EmptyString => false | String _ r => HasSuffix r t end.

(** A double quote, a quoted text, the end of a line. *)
Definition dq : string := String "034" "".
Definition quoted (s : string) : string := dq +:+ s +:+ dq.
Definition newline : string := String "010" "".

(** [strings.Join(strings.Fields(s), "")]: the blanks removed. *)
Fixpoint JoinFields (s : string) : string :=
  match s with
  | EmptyString => ""
  | String a r => if is_blank a then JoinFields r else String a (JoinFields r)
  end.

(** [strings.Join(l, sep)]. *)
Definition Join (l : list string) (sep : string) : string := String.concat sep l.

(** ** package strconv *)

Inductive NumError := ErrSyntax | ErrRange.

#[export] Instance NumError_eq_dec : EqDecision NumError.
Proof. solve_decision. Defined.

Definition digit_of (a : ascii) : option Z :=
  let n := Z.of_N (N_of_ascii a) in
  if (48 <=? n) && (n <=? 57) then Some (n - 48) else None.

Definition byte_of_digit (d : Z) : ascii := ascii_of_N (Z.to_N (48 + d)).

(** [ParseUint]'s loop: the byte that is no digit and the value that leaves 64
    bits stop it where they are met. *)
Fixpoint parse_uint (acc : Z) (s : string) : Z + NumError :=
  match s with
  | EmptyString => inl acc
  | String a r =>
      match digit_of a with
      | None => inr ErrSyntax
      | Some d =>
          let acc' := acc * 10 + d in
          if max_uint64 <? acc' then inr ErrRange else parse_uint acc' r
      end
  end.

Definition split_sign (s : string) : bool * string :=
  match s with
  | String "-" r => (true, r)
  | String "+" r => (false, r)
  | _ => (false, s)
  end.

(** [strconv.Atoi]: the value is meaningful also with an error, 0 for a syntax
    error and the nearest [int] for a value out of range. *)
Definition Atoi (s : string) : Z * option NumError :=
  let '(neg, body) := split_sign s in
  let over := if neg : bool then min_int64 else max_int64 in
  match body with
  | EmptyString => (0, Some ErrSyntax)
  | _ =>
      match parse_uint 0 body with
      | inr ErrSyntax => (0, Some ErrSyntax)
      | inr ErrRange => (over, Some ErrRange)
      | inl v =>
          let n := if neg : bool then - v else v in
          if (min_int64 <=? n) && (n <=? max_int64) then (n, None)
          else (over, Some ErrRange)
      end
  end.

(** The decimal digits of [n], most significant first, before [acc]. *)
Fixpoint itoa_go (fuel : nat) (n : Z) (acc : string) : string :=
  match fuel with
  | O => acc
  | S f =>
      let acc' := String (byte_of_digit (n mod 10)) acc in
      if n <? 10 then acc' else itoa_go f (n / 10) acc'
  end.

(** [strconv.Itoa]; a 64-bit integer has at most 19 digits, so 20 steps do. *)
Definition Itoa (n : Z) : string :=
  if n <? 0 then String "-" (itoa_go 20 (- n) "") else itoa_go 20 n "".

(** ** package slices *)

(** [slices.BinarySearchFunc]; the interval shrinks by one at least on each
    round, so the length is enough fuel. *)
Fixpoint bsearch_go {A} (fuel : nat) (lt : A → bool) (x : list A) (i j : nat) : nat :=
  match fuel with
  | O => i
  | S f =>
      if bool_decide (i < j)%nat then
        let h := ((i + j) / 2)%nat in
        match x !! h with
        | Some a => if lt a then bsearch_go f lt x (S h) j else bsearch_go f lt x i h
        | None => i
        end
      else i
  end.

Definition BinarySearchFunc {A} (x : list A) (cmp : A → comparison) : nat * bool :=
  let lt a := match cmp a with Lt => true | _ => false end in
  let i := bsearch_go (length x) lt x 0 (length x) in
  (i, match x !! i with
      | Some a => match cmp a with Eq => true | _ => false end
      | None => false
      end).

(** [slices.Insert(s, i, v)] for [i <= len(s)]. *)
Definition Insert {A} (s : list A) (i : nat) (v : A) : list A :=
  take i s ++ v :: drop i s.

(** [slices.DeleteFunc] and [slices.ContainsFunc]. *)
Definition DeleteFunc {A} (s : list A) (del : A → bool) : list A :=
  List.filter (λ a, negb (del a)) s.

Definition ContainsFunc {A} (s : list A) (f : A → bool) : bool := existsb f s.

(** ** Lemmas on strings *)

Lemma ContainsByte_app c s t :
  ContainsByte c (s +:+ t) = ContainsByte c s || ContainsByte c t.
Proof. induction s as [|d s IH]; simpl; [done|]. by rewrite IH, orb_assoc. Qed.

Lemma Split_nonempty s c : Split s c ≠ [].
Proof. destruct s; simpl; [done|]. repeat case_goal; done. Qed.

(** A separator-free string is one field. *)
Lemma Split_none s c : ContainsByte c s = false → Split s c = [s].
Proof.
  induction s as [|d s IH]; simpl; [done|]. intros H. bool_hyps.
  rewrite H. by rewrite IH.
Qed.

(** The first field is cut at the first separator. *)
Lemma Split_app s t c :
  ContainsByte c s = false → Split (s +:+ String c t) c = s :: Split t c.
Proof.
  induction s as [|d s IH]; simpl.
  - intros _. by rewrite Ascii.eqb_refl.
  - intros H. bool_hyps. rewrite H. by rewrite IH.
Qed.

(** Joining what [Split] cut gives the string back. *)
Lemma Join_Split s c : Join (Split s c) (String c "") = s.
Proof.
  unfold Join. induction s as [|d s IH]; simpl; [done|].
  destruct (Ascii.eqb_spec d c) as [->|Hne].
  - pose proof (Split_nonempty s c). destruct (Split s c) as [|h t] eqn:E; [done|].
    simpl in *. by rewrite IH.
  - pose proof (Split_nonempty s c). destruct (Split s c) as [|h t] eqn:E; [done|].
    destruct t; simpl in *; by rewrite <- IH.
Qed.

Lemma Split_fields_free s c f : f ∈ Split s c → ContainsByte c f = false.
Proof.
  revert f. induction s as [|d s IH]; simpl; intros f Hf.
  - apply list_elem_of_singleton in Hf as ->. done.
  - destruct (Ascii.eqb_spec d c) as [->|Hne].
    + apply elem_of_cons in Hf as [->|Hf]; [done|auto].
    + destruct (Split s c) as [|h t].
      * apply list_elem_of_singleton in Hf as ->. simpl.
        apply Ascii.eqb_neq in Hne. by rewrite Hne.
      * apply elem_of_cons in Hf as [->|Hf].
        -- simpl. apply Ascii.eqb_neq in Hne. rewrite Hne. apply IH. left.
        -- apply IH. by right.
Qed.

Lemma Split_length_ge2 s c :
  ContainsByte c s = true → (2 <= length (Split s c))%nat.
Proof.
  induction s as [|d s IH]; simpl; [done|].
  destruct (Ascii.eqb_spec d c) as [->|Hne]; simpl.
  - pose proof (Split_nonempty s c). destruct (Split s c); simpl; [done|lia].
  - intros H. specialize (IH H). destruct (Split s c); simpl in *; lia.
Qed.

Lemma SplitN2_app s t c :
  ContainsByte c s = false → SplitN2 (s +:+ String c t) c = (s, Some t).
Proof.
  induction s as [|d s IH]; simpl.
  - intros _. by rewrite Ascii.eqb_refl.
  - intros H. bool_hyps. rewrite H. by rewrite IH.
Qed.

Lemma EqualFold_refl s : EqualFold s s = true.
Proof. apply String.eqb_refl. Qed.

(** ** [Itoa] and [Atoi] *)

Lemma digit_of_byte d : 0 ≤ d < 10 → digit_of (byte_of_digit d) = Some d.
Proof.
  intros. assert (d = 0 ∨ d = 1 ∨ d = 2 ∨ d = 3 ∨ d = 4 ∨ d = 5 ∨ d = 6 ∨
    d = 7 ∨ d = 8 ∨ d = 9) as Hd by lia.
  destruct_or! Hd; subst; reflexivity.
Qed.

Lemma byte_of_digit_ne d c :
  0 ≤ d < 10 → digit_of c = None → Ascii.eqb (byte_of_digit d) c = false.
Proof.
  intros Hd Hc. apply Ascii.eqb_neq. intros <-. rewrite digit_of_byte in Hc; done.
Qed.

(** Reading the digits of [n] back from zero yields [n]. *)
Lemma parse_uint_itoa f n s :
  0 ≤ n < 10 ^ Z.of_nat f → n ≤ max_uint64 →
  parse_uint 0 (itoa_go f n s) = parse_uint n s.
Proof.
  revert n s. induction f as [|f IH]; intros n s Hn Hm.
  - simpl in *. assert (n = 0) as -> by lia. done.
  - cbn [itoa_go]. pose proof (Z.mod_pos_bound n 10 ltac:(lia)).
    pose proof (Z.div_mod n 10 ltac:(lia)).
    destruct (Z.ltb_spec n 10).
    + cbn [parse_uint]. rewrite digit_of_byte by lia.
      rewrite Z.mod_small by lia.
      destruct (Z.ltb_spec max_uint64 (0 * 10 + n)); [lia|]. done.
    + rewrite IH.
      * cbn [parse_uint]. rewrite digit_of_byte by lia.
        replace (n / 10 * 10 + n mod 10) with n by lia.
        destruct (Z.ltb_spec max_uint64 n); [lia|done].
      * rewrite Nat2Z.inj_succ, Z.pow_succ_r in Hn by lia. lia.
      * lia.
Qed.

Lemma itoa_go_free f n s c :
  0 ≤ n → digit_of c = None →
  ContainsByte c (itoa_go f n s) = ContainsByte c s.
Proof.
  revert n s. induction f as [|f IH]; intros n s Hn Hc; [done|].
  cbn [itoa_go]. pose proof (Z.mod_pos_bound n 10 ltac:(lia)).
  assert (0 ≤ n / 10) by (apply Z.div_pos; lia).
  destruct (n <? 10); rewrite ?IH by done; cbn [ContainsByte];
    rewrite byte_of_digit_ne by done; done.
Qed.

(** A non-negative number prints without a sign or a dash. *)
Lemma Itoa_free n c :
  0 ≤ n → digit_of c = None → ContainsByte c (Itoa n) = false.
Proof.
  intros Hn Hc. unfold Itoa. destruct (Z.ltb_spec n 0); [lia|].
  by rewrite itoa_go_free.
Qed.

Lemma itoa_go_nonempty f n s : ∃ a r, itoa_go (S f) n s = String a r.
Proof.
  revert n s. induction f as [|f IH]; intros n s.
  - cbn. case_goal; eauto.
  - change (∃ a r, (let acc' := String (byte_of_digit (n mod 10)) s in
      if n <? 10 then acc' else itoa_go (S f) (n / 10) acc') = String a r).
    cbv zeta. destruct (n <? 10); eauto.
Qed.

Lemma Atoi_unsigned s :
  s ≠ "" → ContainsByte "-" s = false → ContainsByte "+" s = false →
  split_sign s = (false, s).
Proof.
  destruct s as [|a r]; [done|]. intros _ Hm Hp. simpl in *. bool_hyps.
  destruct (Ascii.eqb_spec a "-") as [->|]; [done|].
  destruct (Ascii.eqb_spec a "+") as [->|]; [done|].
  destruct a as [[] [] [] [] [] [] [] []]; done.
Qed.

(** [strconv.Atoi] inverts [strconv.Itoa] on the non-negative [int]s. *)
Lemma Atoi_Itoa n : 0 ≤ n ≤ max_int64 → Atoi (Itoa n) = (n, None).
Proof.
  intros Hn.
  assert (Hf : ∀ c, digit_of c = None → ContainsByte c (Itoa n) = false)
    by (intros; apply Itoa_free; [lia|done]).
  assert (Hne : Itoa n ≠ "").
  { unfold Itoa. destruct (Z.ltb_spec n 0); [lia|].
    destruct (itoa_go_nonempty 19 n "") as (a & r & ->). done. }
  unfold Atoi. rewrite Atoi_unsigned by auto.
  destruct (Itoa n) as [|a r] eqn:E; [done|]. rewrite <- E.
  unfold Itoa. destruct (Z.ltb_spec n 0); [lia|].
  rewrite parse_uint_itoa by (unfold max_int64, max_uint64 in *; lia). simpl.
  unfold max_int64, min_int64 in *.
  destruct (Z.leb_spec (- 2 ^ 63) n), (Z.leb_spec n (2 ^ 63 - 1)); try lia. done.
Qed.

(** What [Atoi] returns is always an [int], error or not. *)
Lemma parse_uint_nonneg acc s v : 0 ≤ acc → parse_uint acc s = inl v → 0 ≤ v.
Proof.
  revert acc. induction s as [|a s IH]; simpl; intros acc Ha H; [by simplify_eq|].
  destruct (digit_of a) as [d|] eqn:Hd; [|done].
  assert (0 ≤ d).
  { unfold digit_of in Hd. case_hyp Hd; simplify_eq. bool_hyps. lia. }
  destruct (max_uint64 <? acc * 10 + d); [done|]. apply IH in H; lia.
Qed.

Lemma Atoi_int64 s : in_int64 (fst (Atoi s)).
Proof.
  unfold Atoi, in_int64, min_int64, max_int64.
  destruct (split_sign s) as [neg body]. repeat case_goal; simpl; bool_hyps; subst;
    unfold min_int64, max_int64 in *; lia.
Qed.

(** ** Binary search *)

Section binary_search.
Context {A : Type} (lt : A → bool) (x : list A).
Hypothesis lt_mono : ∀ i j a b,
  (i < j)%nat → x !! i = Some a → x !! j = Some b → lt b = true → lt a = true.

(** The search returns the boundary between the elements before the target
    and the others. *)
Lemma bsearch_go_spec fuel i j :
  (i ≤ j ≤ length x)%nat → (j - i ≤ fuel)%nat →
  (∀ k a, (k < i)%nat → x !! k = Some a → lt a = true) →
  (∀ k a, (j ≤ k)%nat → x !! k = Some a → lt a = false) →
  let r := bsearch_go fuel lt x i j in
  (r ≤ length x)%nat ∧
  (∀ k a, (k < r)%nat → x !! k = Some a → lt a = true) ∧
  (∀ k a, (r ≤ k)%nat → x !! k = Some a → lt a = false).
Proof.
  revert i j. induction fuel as [|f IH]; intros i j Hij Hf Hlo Hhi; cbn [bsearch_go].
  - assert (i = j) as -> by lia. repeat split; auto; lia.
  - case_bool_decide as Hlt; cycle 1.
    { assert (i = j) as -> by lia. repeat split; auto; lia. }
    set (h := ((i + j) / 2)%nat).
    assert (Hh : (i ≤ h < j)%nat).
    { unfold h. split; [apply Nat.div_le_lower_bound; lia|].
      apply Nat.div_lt_upper_bound; lia. }
    destruct (x !! h) as [c|] eqn:Hc; [|apply lookup_ge_None in Hc; lia].
    destruct (lt c) eqn:Lc; apply IH; try lia; auto.
    + intros k a Hk Ha. destruct (decide (k = h)) as [->|]; [congruence|].
      apply (lt_mono k h a c); auto; lia.
    + intros k a Hk Ha. destruct (decide (k = h)) as [->|]; [congruence|].
      destruct (lt a) eqn:La; [|done].
      rewrite (lt_mono h k c a) in Lc; auto; lia.
Qed.
End binary_search.

Lemma Insert_elem {A} (s : list A) i v y : y ∈ Insert s i v ↔ y = v ∨ y ∈ s.
Proof.
  unfold Insert. rewrite elem_of_app, elem_of_cons.
  rewrite <- (take_drop i s) at 3. rewrite elem_of_app. tauto.
Qed.

Lemma DeleteFunc_elem {A} (s : list A) f y : y ∈ DeleteFunc s f ↔ y ∈ s ∧ f y = false.
Proof.
  unfold DeleteFunc. rewrite !list_elem_of_In, List.filter_In, negb_true_iff. done.
Qed.
