(* ===== verification/Types.v ===== *)
(** * The custom resources of package api/v1 and the Kubernetes objects they use

    One record per Go struct, with the source's field names behind a short
    prefix.  A Go [nil] slice or map and an empty one are the same value here,
    which is also what [equality.Semantic.DeepEqual] says of them; pointers to
    scalars are options.  Of the vendored Kubernetes structs (ObjectMeta, Node,
    Condition) the records keep the fields the operator reads or writes. *)
From S2P Require Import Prelude GoLib.

(** ** metav1 *)

(** A point in time, in seconds; [None] is Go's zero [time.Time]. *)
Definition Time : Type := option Z.

Record ObjectMeta := mkObjectMeta {
  om_Name : string;
  om_Namespace : string;
  om_Generation : Z;
  om_Annotations : gmap string string;
  om_Labels : gmap string string;
  om_OwnerReferences : list string;
}.

Record Condition := mkCondition {
  c_Type : string;
  c_Status : string;
  c_ObservedGeneration : Z;
  c_LastTransitionTime : Time;
  c_Reason : string;
  c_Message : string;
}.

Definition ConditionTrue : string := "True".
Definition ConditionFalse : string := "False".

(** corev1.Node, as far as the operator looks at it. *)
Record Node := mkNode {
  n_meta : ObjectMeta;
  n_ProviderID : string;
  n_Unschedulable : bool;
}.

(** ** sriovnetworknodepolicy_types.go *)

Record SriovNetworkNicSelector := mkNicSelector {
  sel_Vendor : string;
  sel_DeviceID : string;
  sel_RootDevices : list string;
  sel_PfNames : list string;
  sel_NetFilter : string;
}.

Record OVSBridgeConfig := mkOVSBridgeConfig {
  obc_DatapathType : string;
  obc_ExternalIDs : gmap string string;
  obc_OtherConfig : gmap string string;
  obc_FailMode : string;
}.

Record OVSInterfaceConfig := mkOVSInterfaceConfig {
  oic_Type : string;
  oic_Options : gmap string string;
  oic_ExternalIDs : gmap string string;
  oic_OtherConfig : gmap string string;
  oic_MTURequest : option Z;
}.

Record OVSUplinkConfig := mkOVSUplinkConfig { ouc_Interface : OVSInterfaceConfig }.

Record OVSConfig := mkOVSConfig {
  oc_Bridge : OVSBridgeConfig;
  oc_Uplink : OVSUplinkConfig;
}.

Record Bridge := mkBridge { b_OVS : option OVSConfig }.

Definition Bridge_IsEmpty (b : Bridge) : bool :=
  match b_OVS b with None => true | Some _ => false end.

Record SriovNetworkNodePolicySpec := mkPolicySpec {
  ps_ResourceName : string;
  ps_NodeSelector : gmap string string;
  ps_Priority : Z;
  ps_Mtu : Z;
  ps_NumVfs : Z;
  ps_NicSelector : SriovNetworkNicSelector;
  ps_DeviceType : string;
  ps_IsRdma : bool;
  ps_NeedVhostNet : bool;
  ps_LinkType : string;
  ps_EswitchMode : string;
  ps_VdpaType : string;
  ps_ExcludeTopology : bool;
  ps_ExternallyManaged : bool;
  ps_Bridge : Bridge;
}.

Record SriovNetworkNodePolicy := mkPolicy {
  p_meta : ObjectMeta;
  p_Spec : SriovNetworkNodePolicySpec;
}.

Abbreviation p_Name p := (om_Name (p_meta p)).

(** ** sriovnetworknodestate_types.go *)

Record VfGroup := mkVfGroup {
  vg_ResourceName : string;
  vg_DeviceType : string;
  vg_VfRange : string;
  vg_PolicyName : string;
  vg_Mtu : Z;
  vg_IsRdma : bool;
  vg_VdpaType : string;
}.

Record Interface := mkInterface {
  if_PciAddress : string;
  if_NumVfs : Z;
  if_Mtu : Z;
  if_Name : string;
  if_LinkType : string;
  if_EswitchMode : string;
  if_VfGroups : list VfGroup;
  if_ExternallyManaged : bool;
}.

Record VirtualFunction := mkVirtualFunction {
  vf_Name : string;
  vf_Mac : string;
  vf_Assigned : string;
  vf_Driver : string;
  vf_PciAddress : string;
  vf_Vendor : string;
  vf_DeviceID : string;
  vf_Vlan : Z;
  vf_Mtu : Z;
  vf_VfID : Z;
  vf_VdpaType : string;
  vf_RepresentorName : string;
  vf_GUID : string;
}.

Record InterfaceExt := mkInterfaceExt {
  ie_Name : string;
  ie_Mac : string;
  ie_Driver : string;
  ie_PciAddress : string;
  ie_Vendor : string;
  ie_DeviceID : string;
  ie_NetFilter : string;
  ie_Mtu : Z;
  ie_NumVfs : Z;
  ie_LinkSpeed : string;
  ie_LinkType : string;
  ie_LinkAdminState : string;
  ie_EswitchMode : string;
  ie_ExternallyManaged : bool;
  ie_TotalVfs : Z;
  ie_VFs : list VirtualFunction;
  ie_AltNames : list string;
}.

Record OVSUplinkConfigExt := mkOVSUplinkConfigExt {
  oue_PciAddress : string;
  oue_Name : string;
  oue_Interface : OVSInterfaceConfig;
}.

Record OVSConfigExt := mkOVSConfigExt {
  oce_Name : string;
  oce_Bridge : OVSBridgeConfig;
  oce_Uplinks : list OVSUplinkConfigExt;
}.

Record Bridges := mkBridges { br_OVS : list OVSConfigExt }.

Record System := mkSystem {
  sys_RdmaMode : string;
  sys_OvsConfig : gmap string string;
}.

Record SriovNetworkNodeStateSpec := mkNodeStateSpec {
  nss_Interfaces : list Interface;
  nss_Bridges : Bridges;
  nss_System : System;
}.

Record SriovNetworkNodeStateStatus := mkNodeStateStatus {
  nst_Interfaces : list InterfaceExt;
  nst_Bridges : Bridges;
  nst_System : System;
  nst_SyncStatus : string;
  nst_LastSyncError : string;
  nst_Conditions : list Condition;
}.

Record SriovNetworkNodeState := mkNodeState {
  ns_meta : ObjectMeta;
  ns_Spec : SriovNetworkNodeStateSpec;
  ns_Status : SriovNetworkNodeStateStatus;
}.

Abbreviation ns_Name s := (om_Name (ns_meta s)).
Abbreviation ns_Generation s := (om_Generation (ns_meta s)).
Abbreviation ns_Annotations s := (om_Annotations (ns_meta s)).

(** ** sriovnetworkpoolconfig_types.go *)

(** k8s.io/apimachinery/pkg/util/intstr *)
Inductive IntOrString := IntVal (n : Z) | StrVal (s : string).

Record OvsHardwareOffloadConfig := mkOvsHardwareOffloadConfig {
  ovs_Name : string;
  ovs_OvsConfig : gmap string string;
}.

(** A label selector's requirements; [metav1.LabelSelector] keeps the equality
    ones in a map and the others in a list. *)
Inductive LabelSelectorOperator := OpIn | OpNotIn | OpExists | OpDoesNotExist.

Record LabelSelectorRequirement := mkRequirement {
  req_Key : string;
  req_Operator : LabelSelectorOperator;
  req_Values : list string;
}.

Record LabelSelector := mkLabelSelector {
  ls_MatchLabels : gmap string string;
  ls_MatchExpressions : list LabelSelectorRequirement;
}.

Record SriovNetworkPoolConfigSpec := mkPoolConfigSpec {
  pcs_OvsHardwareOffloadConfig : OvsHardwareOffloadConfig;
  pcs_NodeSelector : option LabelSelector;
  pcs_MaxUnavailable : option IntOrString;
  pcs_RdmaMode : string;
}.

Record SriovNetworkPoolConfig := mkPoolConfig {
  pc_meta : ObjectMeta;
  pc_Spec : SriovNetworkPoolConfigSpec;
}.

(** ** sriovoperatorconfig_types.go *)

Record SriovOperatorConfigSpec := mkOperatorConfigSpec {
  ocs_ConfigDaemonNodeSelector : gmap string string;
  ocs_EnableInjector : bool;
  ocs_EnableOperatorWebhook : bool;
  ocs_LogLevel : Z;
  ocs_DisableDrain : bool;
  ocs_EnableOvsOffload : bool;
  ocs_ConfigurationMode : string;
  ocs_UseCDI : bool;
  ocs_DisablePlugins : list string;
  ocs_FeatureGates : gmap string bool;
  ocs_ConfigDaemonEnvVars : gmap string string;
}.

Record SriovOperatorConfig := mkOperatorConfig {
  opc_meta : ObjectMeta;
  opc_Spec : SriovOperatorConfigSpec;
}.

(** ** Decidable equality: what [DeepEqual] computes on these structs *)

#[export] Instance ObjectMeta_eq_dec : EqDecision ObjectMeta.
Proof. solve_decision. Defined.
#[export] Instance Condition_eq_dec : EqDecision Condition.
Proof. solve_decision. Defined.
#[export] Instance VfGroup_eq_dec : EqDecision VfGroup.
Proof. solve_decision. Defined.
#[export] Instance Interface_eq_dec : EqDecision Interface.
Proof. solve_decision. Defined.
#[export] Instance VirtualFunction_eq_dec : EqDecision VirtualFunction.
Proof. solve_decision. Defined.
#[export] Instance InterfaceExt_eq_dec : EqDecision InterfaceExt.
Proof. solve_decision. Defined.
#[export] Instance OVSBridgeConfig_eq_dec : EqDecision OVSBridgeConfig.
Proof. solve_decision. Defined.
#[export] Instance OVSInterfaceConfig_eq_dec : EqDecision OVSInterfaceConfig.
Proof. solve_decision. Defined.
#[export] Instance OVSUplinkConfigExt_eq_dec : EqDecision OVSUplinkConfigExt.
Proof. solve_decision. Defined.
#[export] Instance OVSConfigExt_eq_dec : EqDecision OVSConfigExt.
Proof. solve_decision. Defined.
#[export] Instance Bridges_eq_dec : EqDecision Bridges.
Proof. solve_decision. Defined.
#[export] Instance System_eq_dec : EqDecision System.
Proof. solve_decision. Defined.
#[export] Instance SriovNetworkNodeStateSpec_eq_dec : EqDecision SriovNetworkNodeStateSpec.
Proof. solve_decision. Defined.
#[export] Instance SriovNetworkNodeStateStatus_eq_dec : EqDecision SriovNetworkNodeStateStatus.
Proof. solve_decision. Defined.

(** ** Field updates

    A Go assignment to a field of a struct held by pointer. *)

Definition set_Annotations (a : gmap string string) (m : ObjectMeta) : ObjectMeta :=
  mkObjectMeta (om_Name m) (om_Namespace m) (om_Generation m) a (om_Labels m)
    (om_OwnerReferences m).

Definition set_Labels (l : gmap string string) (m : ObjectMeta) : ObjectMeta :=
  mkObjectMeta (om_Name m) (om_Namespace m) (om_Generation m) (om_Annotations m) l
    (om_OwnerReferences m).

Definition set_OwnerReferences (o : list string) (m : ObjectMeta) : ObjectMeta :=
  mkObjectMeta (om_Name m) (om_Namespace m) (om_Generation m) (om_Annotations m)
    (om_Labels m) o.

Definition ns_set_meta (m : ObjectMeta) (s : SriovNetworkNodeState) : SriovNetworkNodeState :=
  mkNodeState m (ns_Spec s) (ns_Status s).

Definition ns_set_spec (sp : SriovNetworkNodeStateSpec) (s : SriovNetworkNodeState) :=
  mkNodeState (ns_meta s) sp (ns_Status s).

Definition ns_set_status (st : SriovNetworkNodeStateStatus) (s : SriovNetworkNodeState) :=
  mkNodeState (ns_meta s) (ns_Spec s) st.

Definition nss_set_interfaces (l : list Interface) (sp : SriovNetworkNodeStateSpec) :=
  mkNodeStateSpec l (nss_Bridges sp) (nss_System sp).

Definition nss_set_ovs (l : list OVSConfigExt) (sp : SriovNetworkNodeStateSpec) :=
  mkNodeStateSpec (nss_Interfaces sp) (mkBridges l) (nss_System sp).

Definition nst_set_conditions (cs : list Condition) (st : SriovNetworkNodeStateStatus) :=
  mkNodeStateStatus (nst_Interfaces st) (nst_Bridges st) (nst_System st)
    (nst_SyncStatus st) (nst_LastSyncError st) cs.

Definition nst_set_sync (status err : string) (st : SriovNetworkNodeStateStatus) :=
  mkNodeStateStatus (nst_Interfaces st) (nst_Bridges st) (nst_System st)
    status err (nst_Conditions st).

Definition ie_clear_vfs (i : InterfaceExt) : InterfaceExt :=
  mkInterfaceExt (ie_Name i) (ie_Mac i) (ie_Driver i) (ie_PciAddress i) (ie_Vendor i)
    (ie_DeviceID i) (ie_NetFilter i) (ie_Mtu i) (ie_NumVfs i) (ie_LinkSpeed i)
    (ie_LinkType i) (ie_LinkAdminState i) (ie_EswitchMode i) (ie_ExternallyManaged i)
    (ie_TotalVfs i) [] (ie_AltNames i).

(** [SriovNetworkNodeStateStatus.StatusFieldsEqual]: everything but the
    conditions. *)
Definition StatusFieldsEqual (s other : SriovNetworkNodeStateStatus) : bool :=
  String.eqb (nst_SyncStatus s) (nst_SyncStatus other) &&
  String.eqb (nst_LastSyncError s) (nst_LastSyncError other) &&
  bool_decide (nst_Interfaces s = nst_Interfaces other) &&
  bool_decide (nst_Bridges s = nst_Bridges other) &&
  bool_decide (nst_System s = nst_System other).

(** ** pkg/consts *)

Definition ESwithModeLegacy := "legacy".
Definition ESwithModeSwitchDev := "switchdev".
Definition LinkTypeEthernet := "ether".
Definition LinkTypeInfiniband := "infiniband".
Definition LinkTypeIB := "IB".
Definition LinkTypeETH := "ETH".
Definition LinkAdminStateDown := "down".
Definition UninitializedNodeGUID := "0000:0000:0000:0000".
Definition DeviceTypeVfioPci := "vfio-pci".
Definition DeviceTypeNetDevice := "netdevice".
Definition VdpaTypeVirtio := "virtio".
Definition VdpaTypeVhost := "vhost".
Definition DefaultPolicyName := "default".
Definition DefaultConfigName := "default".

Definition NodeDrainAnnotation := "sriovnetwork.openshift.io/state".
Definition NodeStateDrainAnnotation := "sriovnetwork.openshift.io/desired-state".
Definition NodeStateDrainAnnotationCurrent := "sriovnetwork.openshift.io/current-state".
Definition NodeStateExternalDrainerAnnotation := "sriovnetwork.openshift.io/use-external-drainer".
Definition NodeStateKeepUntilAnnotation := "sriovnetwork.openshift.io/keep-state-until".
Definition DrainIdle := "Idle".
Definition DrainRequired := "Drain_Required".
Definition RebootRequired := "Reboot_Required".
Definition Draining := "Draining".
Definition DrainComplete := "DrainComplete".
Definition MaxRebootsPerGeneration := 5.

Definition SyncStatusSucceeded := "Succeeded".
Definition SyncStatusFailed := "Failed".
Definition SyncStatusInProgress := "InProgress".

(** The result file of the systemd service (hosttypes.SriovResult). *)
Record SriovResult := mkSriovResult { sr_SyncStatus : string; sr_LastSyncError : string }.

(** [vars.DpdkDrivers]. *)
Definition DpdkDrivers : list string := ["igb_uio"; "vfio-pci"; "uio_pci_generic"].
