(* ===== verification/VfRange.v ===== *)
(** * VF ranges: [parseRange], [ParseVfRange] and their users in api/v1/helper.go

    A policy's pfNames entry may carry a VF range, ["ens1f0#2-5"].  [parseRange]
    indexes the result of [strings.Split] without looking at its length, so a
    range without a dash is a panic and not an error. *)
From S2P Require Import Prelude GoLib Types.

(** ** Definitions *)

Definition invalidVfIndex : Z := -1.

(** The three named results of [parseRange]: both numbers are set even when an
    error is returned. *)
Definition parseRange_raw (r : string) : option (Z * Z * option NumError) :=
  match Split r "-" with
  | r0 :: rest =>
      match Atoi r0 with
      | (rngSt, Some e) => Some (rngSt, 0, Some e)
      | (rngSt, None) =>
          match rest with
          | r1 :: _ => let '(rngEnd, err) := Atoi r1 in Some (rngSt, rngEnd, err)
          | [] => None
          end
      end
  | [] => None
  end.

Definition parseRange (r : string) : result NumError (Z * Z) :=
  match parseRange_raw r with
  | None => Panic
  | Some (_, _, Some e) => Err e
  | Some (st, en, None) => Ok (st, en)
  end.

Definition IndexInRange (i : Z) (r : string) : result NumError bool :=
  match parseRange r with
  | Panic => Panic
  | Err _ => Ok false
  | Ok (rngSt, rngEnd) => Ok ((i <=? rngEnd) && (rngSt <=? i))
  end.

Definition SplitDeviceFromRange (device : string) : string * string :=
  if ContainsByte "#" device then
    match Split device "#" with
    | f0 :: f1 :: _ => (f0, f1)
    | _ => (device, "")
    end
  else (device, "").

(** [ParseVfRange] with all its named results, for the caller that ignores the
    error; [None] is the panic inside [parseRange]. *)
Definition ParseVfRange_raw (device : string) : option (string * Z * Z * option NumError) :=
  let '(rootDeviceName, splitRange) := SplitDeviceFromRange device in
  if String.eqb splitRange "" then Some (device, invalidVfIndex, invalidVfIndex, None)
  else
    match parseRange_raw splitRange with
    | None => None
    | Some (st, en, err) => Some (rootDeviceName, st, en, err)
    end.

Definition ParseVfRange (device : string) : result NumError (string * Z * Z) :=
  match ParseVfRange_raw device with
  | None => Panic
  | Some (_, _, _, Some e) => Err e
  | Some (name, st, en, None) => Ok (name, st, en)
  end.

(** [VfGroup.isVFRangeOverlapping]. *)
Definition isVFRangeOverlapping (gr group : VfGroup) : result NumError bool :=
  match parseRange (vg_VfRange gr) with
  | Panic => Panic
  | Err _ => Ok false
  | Ok (rngSt, rngEnd) =>
      match parseRange (vg_VfRange group) with
      | Panic => Panic
      | Err _ => Ok false
      | Ok (rngSt2, rngEnd2) =>
          if rngSt <? rngSt2 then
            b ← IndexInRange rngSt2 (vg_VfRange gr);
            if b : bool then Ok true else IndexInRange rngEnd2 (vg_VfRange gr)
          else
            b ← IndexInRange rngSt (vg_VfRange group);
            if b : bool then Ok true else IndexInRange rngEnd (vg_VfRange group)
      end
  end.

(** The range [generatePfNameVfGroup] picks: the loop over [pfNames] stops at
    the first entry for the interface, and at the first entry it cannot parse. *)
Fixpoint pfNameRange (pfNames : list string) (ifaceName : string) (numVfs : Z)
    : result NumError (Z * Z) :=
  match pfNames with
  | [] => Ok (0, wrap64 (numVfs - 1))
  | selector :: rest =>
      '(pfName, rngStart, rngEnd) ← ParseVfRange selector;
      if String.eqb pfName ifaceName then
        if (rngStart =? invalidVfIndex) && (rngEnd =? invalidVfIndex)
        then Ok (0, wrap64 (numVfs - 1))
        else Ok (rngStart, rngEnd)
      else pfNameRange rest ifaceName numVfs
  end.

Definition generatePfNameVfGroup (p : SriovNetworkNodePolicy) (iface : InterfaceExt)
    : result NumError VfGroup :=
  let spec := p_Spec p in
  '(rngStart, rngEnd) ← pfNameRange (sel_PfNames (ps_NicSelector spec)) (ie_Name iface)
                          (ps_NumVfs spec);
  Ok {| vg_ResourceName := ps_ResourceName spec;
        vg_DeviceType := ps_DeviceType spec;
        vg_VfRange := Itoa rngStart +:+ "-" +:+ Itoa rngEnd;
        vg_PolicyName := p_Name p;
        vg_Mtu := ps_Mtu spec;
        vg_IsRdma := ps_IsRdma spec;
        vg_VdpaType := ps_VdpaType spec |}.

(** ** Lemmas *)

(** A range [a-b] in the sense of the code: indices an [int] can hold. *)
Definition rng_str (a b : Z) : string := Itoa a +:+ "-" +:+ Itoa b.

Lemma rng_str_split a b :
  0 ≤ a → 0 ≤ b → Split (rng_str a b) "-" = [Itoa a; Itoa b].
Proof.
  intros Ha Hb. unfold rng_str.
  change ("-" +:+ Itoa b) with (String "-" (Itoa b)).
  rewrite Split_app by (apply Itoa_free; [lia|done]).
  rewrite Split_none by (apply Itoa_free; [lia|done]). done.
Qed.

Lemma parseRange_rng_str a b :
  0 ≤ a ≤ max_int64 → 0 ≤ b ≤ max_int64 → parseRange (rng_str a b) = Ok (a, b).
Proof.
  intros Ha Hb. unfold parseRange, parseRange_raw.
  rewrite rng_str_split by lia. by rewrite !Atoi_Itoa by lia.
Qed.

Lemma IndexInRange_rng_str i a b :
  0 ≤ a ≤ max_int64 → 0 ≤ b ≤ max_int64 →
  IndexInRange i (rng_str a b) = Ok ((i <=? b) && (a <=? i)).
Proof. intros. unfold IndexInRange. by rewrite parseRange_rng_str. Qed.

Lemma ParseVfRange_plain device :
  ContainsByte "#" device = false →
  ParseVfRange device = Ok (device, invalidVfIndex, invalidVfIndex).
Proof.
  intros H. unfold ParseVfRange, ParseVfRange_raw, SplitDeviceFromRange.
  by rewrite H.
Qed.

Lemma SplitDeviceFromRange_app name r :
  ContainsByte "#" name = false → ContainsByte "#" r = false →
  SplitDeviceFromRange (name +:+ String "#" r) = (name, r).
Proof.
  intros Hn Hr. unfold SplitDeviceFromRange.
  rewrite ContainsByte_app; simpl. rewrite orb_true_r.
  by rewrite Split_app, Split_none.
Qed.

Lemma rng_str_free a b c :
  0 ≤ a → 0 ≤ b → digit_of c = None → c ≠ "-"%char →
  ContainsByte c (rng_str a b) = false.
Proof.
  intros Ha Hb Hc Hd. unfold rng_str. rewrite !ContainsByte_app, !Itoa_free by done.
  cbn [ContainsByte]. destruct (Ascii.eqb_spec "-" c); [congruence|done].
Qed.

Lemma rng_str_nonempty a b : rng_str a b ≠ "".
Proof.
  intros H. apply (f_equal (ContainsByte "-")) in H.
  unfold rng_str in H. rewrite !ContainsByte_app in H. simpl in H.
  rewrite orb_true_r in H. done.
Qed.

Lemma ParseVfRange_ranged name a b :
  ContainsByte "#" name = false → 0 ≤ a ≤ max_int64 → 0 ≤ b ≤ max_int64 →
  ParseVfRange (name +:+ String "#" (rng_str a b)) = Ok (name, a, b).
Proof.
  intros Hn Ha Hb. unfold ParseVfRange, ParseVfRange_raw.
  rewrite SplitDeviceFromRange_app; [|done|apply rng_str_free; [lia|lia|done|done]].
  pose proof (rng_str_nonempty a b) as Hne. apply String.eqb_neq in Hne. rewrite Hne.
  unfold parseRange_raw. rewrite rng_str_split by lia.
  by rewrite !Atoi_Itoa by lia.
Qed.

(** The overlap test reads both groups' ranges and compares the later start
    and its end with the earlier range. *)
Lemma isVFRangeOverlapping_ranges gr group a b c d :
  vg_VfRange gr = rng_str a b → vg_VfRange group = rng_str c d →
  0 ≤ a ≤ max_int64 → 0 ≤ b ≤ max_int64 → 0 ≤ c ≤ max_int64 → 0 ≤ d ≤ max_int64 →
  isVFRangeOverlapping gr group =
    Ok (if a <? c then ((c <=? b) && (a <=? c)) || ((d <=? b) && (a <=? d))
        else ((a <=? d) && (c <=? a)) || ((b <=? d) && (c <=? b))).
Proof.
  intros Hg Hg' Ha Hb Hc Hd. unfold isVFRangeOverlapping.
  rewrite Hg, Hg', !parseRange_rng_str, !IndexInRange_rng_str by done.
  destruct (a <? c); simpl; repeat case_goal; done.
Qed.

Lemma isVFRangeOverlapping_iff gr group a b c d :
  vg_VfRange gr = rng_str a b → vg_VfRange group = rng_str c d →
  0 ≤ a ≤ b → b ≤ max_int64 → 0 ≤ c ≤ d → d ≤ max_int64 →
  isVFRangeOverlapping gr group = Ok true ↔
  ∃ i, IndexInRange i (vg_VfRange gr) = Ok true ∧ IndexInRange i (vg_VfRange group) = Ok true.
Proof.
  intros Hg Hg' Hab Hb Hcd Hd.
  rewrite (isVFRangeOverlapping_ranges gr group a b c d) by (done || lia).
  rewrite Hg, Hg'. setoid_rewrite IndexInRange_rng_str; [|lia..].
  split.
  - intros [= H]. destruct (Z.ltb_spec a c).
    + exists c. apply orb_true_iff in H as [H|H]; bool_hyps;
        split; do 2 f_equal; apply andb_true_iff; lia.
    + exists a. apply orb_true_iff in H as [H|H]; bool_hyps;
        split; do 2 f_equal; apply andb_true_iff; lia.
  - intros (i & [= Hi] & [= Hi']). bool_hyps. do 2 f_equal.
    destruct (Z.ltb_spec a c); apply orb_true_iff; left; apply andb_true_iff; lia.
Qed.

(** ** Properties *)

(** the VF range the operator writes into a node state, [start-end], is
    read back as the same two indices by [parseRange], and so by [IndexInRange]
    and the overlap test: printing and parsing a VF range is a round trip. *)
Theorem parseRange_roundtrip (a b : Z) (Ha : 0 ≤ a ≤ max_int64) (Hb : 0 ≤ b ≤ max_int64) :
  parseRange (Itoa a +:+ "-" +:+ Itoa b) = Ok (a, b) ∧
  ∀ i, IndexInRange i (Itoa a +:+ "-" +:+ Itoa b) = Ok true ↔ a ≤ i ≤ b.
Proof.
  split; [by apply parseRange_rng_str|]. intros i.
  fold (rng_str a b). rewrite IndexInRange_rng_str by done. split.
  - intros [= H]. bool_hyps. lia.
  - intros H. do 2 f_equal. destruct (Z.leb_spec i b), (Z.leb_spec a i); simpl; lia || done.
Qed.

Lemma parseRange_roundtrip_witness :
  parseRange "2-5" = Ok (2, 5) ∧
  (IndexInRange 3 "2-5" = Ok true ↔ 2 ≤ 3 ≤ 5).
Proof.
  destruct (parseRange_roundtrip 2 5 ltac:(unfold max_int64; lia)
    ltac:(unfold max_int64; lia)) as [H1 H2].
  split; [exact H1|exact (H2 3)].
Defined.

(** on well-formed ranges the overlap test that decides which VF groups a
    merge keeps is total, symmetric and exact: it answers yes if and only if
    some VF index lies in both ranges. *)
Theorem isVFRangeOverlapping_exact (gr group : VfGroup) (a b c d : Z)
  (Hg : vg_VfRange gr = rng_str a b) (Hg' : vg_VfRange group = rng_str c d)
  (Hab : 0 ≤ a ≤ b) (Hb : b ≤ max_int64) (Hcd : 0 ≤ c ≤ d) (Hd : d ≤ max_int64) :
  is_ok (isVFRangeOverlapping gr group) = true ∧
  isVFRangeOverlapping gr group = isVFRangeOverlapping group gr ∧
  (isVFRangeOverlapping gr group = Ok true ↔
   ∃ i, IndexInRange i (vg_VfRange gr) = Ok true ∧ IndexInRange i (vg_VfRange group) = Ok true).
Proof.
  split; [|split; [|by eapply isVFRangeOverlapping_iff]].
  - by rewrite (isVFRangeOverlapping_ranges gr group a b c d) by (done || lia).
  - rewrite (isVFRangeOverlapping_ranges gr group a b c d),
      (isVFRangeOverlapping_ranges group gr c d a b) by (done || lia).
    f_equal. apply eq_true_iff_eq.
    destruct (Z.ltb_spec a c), (Z.ltb_spec c a); try lia;
      rewrite !orb_true_iff, !andb_true_iff, !Z.leb_le; lia.
Qed.

Definition sample_group (r : string) : VfGroup :=
  {| vg_ResourceName := "res"; vg_DeviceType := "netdevice"; vg_VfRange := r;
     vg_PolicyName := "p"; vg_Mtu := 1500; vg_IsRdma := false; vg_VdpaType := "" |}.

Lemma isVFRangeOverlapping_exact_witness :
  is_ok (isVFRangeOverlapping (sample_group "0-3") (sample_group "2-5")) = true ∧
  isVFRangeOverlapping (sample_group "0-3") (sample_group "2-5") =
    isVFRangeOverlapping (sample_group "2-5") (sample_group "0-3") ∧
  (isVFRangeOverlapping (sample_group "0-3") (sample_group "2-5") = Ok true ↔
   ∃ i, IndexInRange i "0-3" = Ok true ∧ IndexInRange i "2-5" = Ok true).
Proof.
  apply (isVFRangeOverlapping_exact (sample_group "0-3") (sample_group "2-5") 0 3 2 5);
    unfold max_int64; (reflexivity || lia).
Defined.

(** a pfNames entry parses to what it was written from: a bare name has the
    invalid range (-1, -1), ["name#a-b"] has the range [a, b]; and a range
    with no dash in it panics instead of returning an error. *)
Theorem ParseVfRange_roundtrip (name : string) (a b n : Z)
  (Hname : ContainsByte "#" name = false)
  (Ha : 0 ≤ a ≤ max_int64) (Hb : 0 ≤ b ≤ max_int64) (Hn : 0 ≤ n ≤ max_int64) :
  ParseVfRange name = Ok (name, invalidVfIndex, invalidVfIndex) ∧
  ParseVfRange (name +:+ "#" +:+ Itoa a +:+ "-" +:+ Itoa b) = Ok (name, a, b) ∧
  ParseVfRange (name +:+ "#" +:+ Itoa n) = Panic.
Proof.
  split; [by apply ParseVfRange_plain|]. split; [by apply ParseVfRange_ranged|].
  unfold ParseVfRange, ParseVfRange_raw.
  change ("#" +:+ Itoa n) with (String "#" (Itoa n)).
  rewrite SplitDeviceFromRange_app by (done || (apply Itoa_free; [lia|done])).
  destruct (String.eqb_spec (Itoa n) "") as [H|H].
  - unfold Itoa in H. destruct (Z.ltb_spec n 0); [lia|].
    destruct (itoa_go_nonempty 19 n "") as (? & ? & E). rewrite E in H. done.
  - unfold parseRange_raw. rewrite Split_none by (apply Itoa_free; [lia|done]).
    by rewrite Atoi_Itoa by lia.
Qed.

Lemma ParseVfRange_roundtrip_witness :
  ParseVfRange "ens1f0" = Ok ("ens1f0", -1, -1) ∧
  ParseVfRange "ens1f0#2-5" = Ok ("ens1f0", 2, 5) ∧
  ParseVfRange "ens1f0#3" = Panic.
Proof.
  apply (ParseVfRange_roundtrip "ens1f0" 2 5 3); unfold max_int64; (reflexivity || lia).
Defined.
