(* ===== verification/Selector.v ===== *)
(** * NIC and node selection: the predicates of api/v1/helper.go

    The supported-NIC table ([NicIDMap], a global slice of
    "vendor pfDevice vfDevice" strings), name matching with alternative names,
    the netFilter regular expression, and the two [Selected] methods. *)
From S2P Require Import Prelude GoLib Types.

(** ** String slices *)

Definition StringInArray (val : string) (array : list string) : bool :=
  existsb (λ a, String.eqb a val) array.

Definition NameOrAltNameMatchesPfNames (name : string) (altNames pfNames : list string) : bool :=
  if StringInArray name pfNames then true
  else existsb (λ altName, StringInArray altName pfNames) altNames.

(** [RemoveString] returns the filtered slice and whether something was cut. *)
Definition RemoveString (s : string) (slice : list string) : list string * bool :=
  (List.filter (λ item, negb (String.eqb item s)) slice,
   existsb (λ item, String.eqb item s) slice).

Fixpoint UniqueAppend (inSlice strings : list string) : list string :=
  match strings with
  | [] => inSlice
  | s :: rest =>
      UniqueAppend (if StringInArray s inSlice then inSlice else inSlice ++ [s]) rest
  end.

(** ** The table of supported NICs

    An entry is cut at blanks; [ids[1]] and [ids[2]] panic on a short one. *)

Section nic_ids.
Variable NicIDMap : list string.

Definition nic_ids (n : string) : list string := Split n " ".

Definition IsSupportedVendor (vendorID : string) : bool :=
  existsb (λ n, match nic_ids n with
                | id0 :: _ => String.eqb vendorID id0
                | [] => false
                end) NicIDMap.

Fixpoint IsSupportedDevice_go (l : list string) (deviceID : string) : result unit bool :=
  match l with
  | [] => Ok false
  | n :: rest =>
      match nic_ids n with
      | _ :: id1 :: _ =>
          if String.eqb deviceID id1 then Ok true else IsSupportedDevice_go rest deviceID
      | _ => Panic
      end
  end.

Definition IsSupportedDevice (deviceID : string) : result unit bool :=
  IsSupportedDevice_go NicIDMap deviceID.

(** [vendorID == ids[0] && deviceID == ids[k]]: the second index is only
    evaluated when the vendor matches. *)
Fixpoint SupportedModel_go (k : nat) (l : list string) (vendorID deviceID : string)
    : result unit bool :=
  match l with
  | [] => Ok false
  | n :: rest =>
      match nic_ids n with
      | id0 :: ids =>
          if String.eqb vendorID id0 then
            match ids !! k with
            | Some id =>
                if String.eqb deviceID id then Ok true
                else SupportedModel_go k rest vendorID deviceID
            | None => Panic
            end
          else SupportedModel_go k rest vendorID deviceID
      | [] => Panic
      end
  end.

Definition IsSupportedModel (vendorID deviceID : string) : result unit bool :=
  SupportedModel_go 0 NicIDMap vendorID deviceID.

Definition IsVfSupportedModel (vendorID deviceID : string) : result unit bool :=
  SupportedModel_go 1 NicIDMap vendorID deviceID.

Fixpoint GetVfDeviceID_go (l : list string) (deviceID : string) : result unit string :=
  match l with
  | [] => Ok ""
  | n :: rest =>
      match nic_ids n with
      | _ :: id1 :: ids =>
          if String.eqb deviceID id1 then
            match ids with
            | id2 :: _ => Ok id2
            | [] => Panic
            end
          else GetVfDeviceID_go rest deviceID
      | _ => Panic
      end
  end.

Definition GetVfDeviceID (deviceID : string) : result unit string :=
  GetVfDeviceID_go NicIDMap deviceID.
End nic_ids.

Definition InitNicIDMapFromList (NicIDMap idList : list string) : list string :=
  NicIDMap ++ idList.

(** ** netFilter

    The pattern is [(?m)^\s*([^\s]+)\s*:\s*([^\s]+)], matched leftmost-first:
    each repetition is tried with its longest count first. *)

Definition re_space (a : ascii) : bool :=
  let n := N_of_ascii a in
  (n =? 32)%N || (n =? 9)%N || (n =? 10)%N || (n =? 12)%N || (n =? 13)%N.

Fixpoint span_len (p : ascii → bool) (s : list ascii) : nat :=
  match s with
  | a :: r => if p a then S (span_len p r) else 0
  | [] => 0
  end.

(** The counts [n], [n-1], ..., [lo + 1], [lo] in turn. *)
Fixpoint try_down {A} (lo n : nat) (f : nat → option A) : option A :=
  if bool_decide (n < lo)%nat then None
  else match f n with
       | Some a => Some a
       | None => match n with S m => try_down lo m f | O => None end
       end.

Definition re_match_at (s : list ascii) : option (list ascii * list ascii) :=
  try_down 0 (span_len re_space s) (λ k,
    let s1 := drop k s in
    try_down 1 (span_len (λ a, negb (re_space a)) s1) (λ g1,
      let s2 := drop g1 s1 in
      try_down 0 (span_len re_space s2) (λ w,
        match drop w s2 with
        | ":"%char :: s3 =>
            try_down 0 (span_len re_space s3) (λ w2,
              let s4 := drop w2 s3 in
              match span_len (λ a, negb (re_space a)) s4 with
              | O => None
              | g2 => Some (take g1 s1, take g2 s4)
              end)
        | _ => None
        end))).

(** The first match at the leftmost line start that has one. *)
Fixpoint re_find (bol : bool) (s : list ascii) : option (list ascii * list ascii) :=
  match (if bol then re_match_at s else None) with
  | Some m => Some m
  | None =>
      match s with
      | [] => None
      | a :: r => re_find (Ascii.eqb a "010") r
      end
  end.

Definition NetFilterMatch (netFilter netValue : string) : bool :=
  match re_find true (String.list_ascii_of_string netFilter) with
  | None => false
  | Some (k, v) =>
      match re_find true (String.list_ascii_of_string netValue) with
      | None => false
      | Some (k', v') => bool_decide (k = k') && bool_decide (v = v')
      end
  end.

(** ** Selectors *)

Definition NicSelector_IsEmpty (selector : SriovNetworkNicSelector) : bool :=
  String.eqb (sel_Vendor selector) "" &&
  String.eqb (sel_DeviceID selector) "" &&
  bool_decide (sel_RootDevices selector = []) &&
  bool_decide (sel_PfNames selector = []) &&
  String.eqb (sel_NetFilter selector) "".

(** The pfNames with their VF range cut off. *)
Definition pfName_base (p : string) : string :=
  if ContainsByte "#" p then
    match Split p "#" with f0 :: _ => f0 | [] => p end
  else p.

Definition NicSelector_Selected (selector : SriovNetworkNicSelector) (iface : InterfaceExt) : bool :=
  if negb (String.eqb (sel_Vendor selector) "") &&
     negb (String.eqb (sel_Vendor selector) (ie_Vendor iface)) then false
  else if negb (String.eqb (sel_DeviceID selector) "") &&
     negb (String.eqb (sel_DeviceID selector) (ie_DeviceID iface)) then false
  else if bool_decide (sel_RootDevices selector ≠ []) &&
     negb (StringInArray (ie_PciAddress iface) (sel_RootDevices selector)) then false
  else if bool_decide (sel_PfNames selector ≠ []) &&
     negb (NameOrAltNameMatchesPfNames (ie_Name iface) (ie_AltNames iface)
             (pfName_base <$> sel_PfNames selector)) then false
  else if negb (String.eqb (sel_NetFilter selector) "") &&
     negb (NetFilterMatch (sel_NetFilter selector) (ie_NetFilter iface)) then false
  else true.

(** [SriovNetworkNodePolicy.Selected]: every label of the node selector is on
    the node; the map's iteration order does not matter. *)
Definition Policy_Selected (p : SriovNetworkNodePolicy) (node : Node) : bool :=
  forallb (λ '(k, v), bool_decide (om_Labels (n_meta node) !! k = Some v))
    (map_to_list (ps_NodeSelector (p_Spec p))).

(** ** Look-ups in a node state *)

Definition GetInterfaceStateByPciAddress (s : SriovNetworkNodeState) (addr : string)
    : option InterfaceExt :=
  List.find (λ iface, String.eqb addr (ie_PciAddress iface)) (nst_Interfaces (ns_Status s)).

Definition GetDriverByPciAddress (s : SriovNetworkNodeState) (addr : string) : string :=
  match List.find (λ iface, String.eqb addr (ie_PciAddress iface))
          (nst_Interfaces (ns_Status s)) with
  | Some iface => ie_Driver iface
  | None => ""
  end.

Fixpoint ResolveInterfaceName_go (name : string) (l : list InterfaceExt) : string :=
  match l with
  | [] => name
  | iface :: rest =>
      if String.eqb (ie_Name iface) name then name
      else if StringInArray name (ie_AltNames iface) then ie_Name iface
      else ResolveInterfaceName_go name rest
  end.

Definition ResolveInterfaceName (name : string) (nodeState : option SriovNetworkNodeState) : string :=
  match nodeState with
  | None => name
  | Some ns => ResolveInterfaceName_go name (nst_Interfaces (ns_Status ns))
  end.

(** ** Lemmas *)

Lemma StringInArray_spec val array : StringInArray val array = true ↔ val ∈ array.
Proof.
  unfold StringInArray. rewrite existsb_elem. split.
  - intros (x & Hx & E). by apply String.eqb_eq in E as ->.
  - intros H. exists val. split; [done|]. apply String.eqb_refl.
Qed.

Lemma StringInArray_false val array : StringInArray val array = false ↔ val ∉ array.
Proof. rewrite <- not_true_iff_false. by rewrite StringInArray_spec. Qed.

Lemma NameOrAltName_spec name alts pfs :
  NameOrAltNameMatchesPfNames name alts pfs = true ↔
  name ∈ pfs ∨ ∃ a, a ∈ alts ∧ a ∈ pfs.
Proof.
  unfold NameOrAltNameMatchesPfNames.
  destruct (StringInArray name pfs) eqn:E.
  - apply StringInArray_spec in E. tauto.
  - apply StringInArray_false in E. rewrite existsb_elem.
    setoid_rewrite StringInArray_spec. naive_solver.
Qed.

Lemma UniqueAppend_elem l ss x : x ∈ UniqueAppend l ss ↔ x ∈ l ∨ x ∈ ss.
Proof.
  revert l. induction ss as [|s ss IH]; simpl; intros l.
  - set_solver.
  - rewrite IH. destruct (StringInArray s l) eqn:E; [|set_solver].
    apply StringInArray_spec in E. set_solver.
Qed.

Lemma UniqueAppend_prefix l ss : l `prefix_of` UniqueAppend l ss.
Proof.
  revert l. induction ss as [|s ss IH]; simpl; intros l; [done|].
  destruct (StringInArray s l); [apply IH|].
  etransitivity; [|apply IH]. by apply prefix_app_r.
Qed.

Lemma UniqueAppend_NoDup l ss : NoDup l → NoDup (UniqueAppend l ss).
Proof.
  revert l. induction ss as [|s ss IH]; simpl; intros l Hl; [done|].
  apply IH. destruct (StringInArray s l) eqn:E; [done|].
  apply StringInArray_false in E. apply NoDup_app. split_and!; [done| |apply NoDup_singleton].
  set_solver.
Qed.

Lemma Policy_Selected_spec p node :
  Policy_Selected p node = true ↔
  ps_NodeSelector (p_Spec p) ⊆ om_Labels (n_meta node).
Proof.
  unfold Policy_Selected. rewrite forallb_elem, map_subseteq_spec. split.
  - intros H k v Hkv. apply elem_of_map_to_list in Hkv. specialize (H _ Hkv).
    simpl in H. by bool_hyps.
  - intros H [k v] Hkv. apply elem_of_map_to_list in Hkv. apply bool_decide_eq_true. auto.
Qed.

(** Counting down finds the largest count that works. *)
Lemma try_down_Some {A} lo n (f : nat → option A) a :
  try_down lo n f = Some a →
  ∃ k, (lo ≤ k ≤ n)%nat ∧ f k = Some a ∧ ∀ j, (k < j ≤ n)%nat → f j = None.
Proof.
  induction n as [|n IH]; simpl; case_bool_decide; try done.
  - destruct (f 0%nat) eqn:E; [|done]. intros [= ->].
    exists 0%nat. repeat split; try lia; done.
  - destruct (f (S n)) eqn:E.
    + intros [= ->]. exists (S n). repeat split; try lia; done.
    + intros Ht. destruct (IH Ht) as (k & ? & ? & Hj). exists k.
      repeat split; try lia; try done. intros j Hj'.
      destruct (decide (j = S n)) as [->|]; [done|]. apply Hj. lia.
Qed.

Lemma try_down_hit {A} lo n (f : nat → option A) k a :
  (lo ≤ k ≤ n)%nat → f k = Some a → (∀ j, (k < j ≤ n)%nat → f j = None) →
  try_down lo n f = Some a.
Proof.
  induction n as [|n IH]; simpl; intros Hk Hf Hj; case_bool_decide; try lia.
  - assert (k = 0%nat) as -> by lia. by rewrite Hf.
  - destruct (decide (k = S n)) as [->|]; [by rewrite Hf|].
    rewrite (Hj (S n)) by lia. apply IH; [lia|done|]. intros; apply Hj; lia.
Qed.

Lemma try_down_zero {A} (f : nat → option A) : try_down 0 0 f = f 0%nat.
Proof. simpl. by destruct (f 0%nat). Qed.

Lemma span_len_all p s : Forall (λ a, p a = true) s → span_len p s = length s.
Proof. induction 1; simpl; [done|]. by rewrite H, IHForall. Qed.

Lemma span_len_app p s a t :
  Forall (λ a, p a = true) s → p a = false → span_len p (s ++ a :: t) = length s.
Proof. induction 1; simpl; intros Ha; [by rewrite Ha|]. by rewrite H, IHForall. Qed.

(** A filter text [key:value] without blanks and with one colon. *)
Definition plain (s : list ascii) : Prop :=
  Forall (λ a, re_space a = false ∧ a ≠ ":"%char) s.

Lemma plain_nws s : plain s → Forall (λ a, negb (re_space a) = true) s.
Proof. intros H. eapply Forall_impl; [done|]. intros a [-> _]. done. Qed.

Lemma plain_drop n s : plain s → plain (drop n s).
Proof. apply Forall_drop. Qed.

Lemma plain_span_space s : plain s → span_len re_space s = 0%nat.
Proof. destruct s; [done|]. intros [[Hs _] _]%Forall_cons. simpl. by rewrite Hs. Qed.

(** No match of the rest of the pattern starts inside a plain value. *)
Lemma plain_no_colon v : plain v → match v with ":"%char :: _ => False | _ => True end.
Proof.
  destruct v as [|a v]; [done|]. intros [[_ Hc] _]%Forall_cons.
  destruct a as [[] [] [] [] [] [] [] []]; done.
Qed.

Lemma re_match_at_plain k v :
  k ≠ [] → v ≠ [] → plain k → plain v →
  re_match_at (k ++ ":"%char :: v) = Some (k, v).
Proof.
  intros Hk Hv Pk Pv. unfold re_match_at.
  assert (span_len re_space (k ++ ":"%char :: v) = 0%nat) as ->.
  { destruct k; [done|]. simpl. apply Forall_cons in Pk as [[-> _] _]. done. }
  rewrite try_down_zero, drop_0.
  assert (Forall (λ a, negb (re_space a) = true) (k ++ ":"%char :: v)) as Hall.
  { apply Forall_app; split; [by apply plain_nws|].
    constructor; [done|by apply plain_nws]. }
  rewrite (span_len_all _ _ Hall).
  apply (try_down_hit 1 _ _ (length k)).
  - rewrite length_app. destruct k; [done|]. simpl; lia.
  - rewrite drop_app_length.
    replace (span_len re_space (":"%char :: v)) with 0%nat by done.
    rewrite try_down_zero, drop_0, plain_span_space by done.
    rewrite try_down_zero, drop_0, (span_len_all _ v) by (by apply plain_nws).
    rewrite take_app_length. destruct v as [|a v']; [done|].
    cbn [length]. change (S (length v')) with (length (a :: v')). by rewrite firstn_all.
  - intros j Hj. rewrite length_app in Hj. simpl in Hj.
    rewrite drop_app_ge by lia.
    replace (j - length k)%nat with (S (j - length k - 1)) by lia.
    cbn [drop]. pose proof (plain_drop (j - length k - 1) v Pv) as Pd.
    rewrite plain_span_space by done. rewrite try_down_zero, drop_0.
    apply plain_no_colon in Pd. repeat case_goal; done.
Qed.

Lemma re_find_plain k v :
  k ≠ [] → v ≠ [] → plain k → plain v →
  re_find true (k ++ ":"%char :: v) = Some (k, v).
Proof.
  intros. destruct k as [|a k]; [done|]. cbn [re_find app].
  change (a :: k ++ ":"%char :: v) with ((a :: k) ++ ":"%char :: v).
  by rewrite re_match_at_plain.
Qed.

(** A well-formed table entry, as the supported-nic-ids ConfigMap has them. *)
Definition wf_nic_entry (n : string) : Prop :=
  ∃ vendor pf vf rest, nic_ids n = vendor :: pf :: vf :: rest.

Lemma SupportedModel_go_spec k l vendorID deviceID :
  (k ≤ 1)%nat → Forall wf_nic_entry l →
  ∃ b, SupportedModel_go k l vendorID deviceID = Ok b ∧
    (b = true ↔ ∃ n ids, n ∈ l ∧ nic_ids n = vendorID :: ids ∧ ids !! k = Some deviceID).
Proof.
  intros Hk. induction 1 as [|n l (ve & pf & vf & r & E) Hl IH].
  - exists false. split; [done|]. split; [done|]. intros (n & ids & Hn & _).
    by apply elem_of_nil in Hn.
  - simpl. rewrite E. destruct IH as (b & Hb & IH).
    assert (is_Some ((pf :: vf :: r) !! k)) as [id Hid]
      by (apply lookup_lt_is_Some; simpl; lia).
    destruct (String.eqb_spec vendorID ve) as [->|Hv];
      [rewrite Hid; destruct (String.eqb_spec deviceID id) as [->|Hd]|].
    + exists true. split; [done|]. split; [|done]. intros _.
      exists n, (pf :: vf :: r). split; [left|done].
    + exists b. split; [done|]. rewrite IH. split; intros (m & ids & Hm & He & Hi).
      * exists m, ids. split; [by right|done].
      * apply elem_of_cons in Hm as [->|Hm]; [|eauto]. congruence.
    + exists b. split; [done|]. rewrite IH. split; intros (m & ids & Hm & He & Hi).
      * exists m, ids. split; [by right|done].
      * apply elem_of_cons in Hm as [->|Hm]; [|eauto]. congruence.
Qed.

(** What an answer of the checks means, whatever the table. *)
Lemma SupportedModel_go_Ok k l vendorID deviceID b :
  SupportedModel_go k l vendorID deviceID = Ok b →
  b = true ↔ ∃ n ids, n ∈ l ∧ nic_ids n = vendorID :: ids ∧ ids !! k = Some deviceID.
Proof.
  induction l as [|n l IH]; cbn [SupportedModel_go].
  { intros [= <-]. split; [done|]. intros (n & ids & Hn & _). by apply elem_of_nil in Hn. }
  assert (Hskip : nic_ids n = [] ∨ (∀ ids, nic_ids n = vendorID :: ids → ids !! k ≠ Some deviceID) →
    (∃ m ids, m ∈ l ∧ nic_ids m = vendorID :: ids ∧ ids !! k = Some deviceID) ↔
    ∃ m ids, m ∈ n :: l ∧ nic_ids m = vendorID :: ids ∧ ids !! k = Some deviceID).
  { intros Hs. split; intros (m & ids & Hm & He & Hi); exists m, ids; [by split_and!; [right|..]|].
    apply elem_of_cons in Hm as [->|Hm]; [|done]. destruct Hs as [Hs|Hs]; [congruence|by destruct (Hs ids)]. }
  destruct (nic_ids n) as [|id0 ids] eqn:E; [done|].
  destruct (String.eqb_spec vendorID id0) as [->|Hv].
  - destruct (ids !! k) as [id|] eqn:Hid; [|done]. destruct (String.eqb_spec deviceID id) as [->|Hd].
    + intros [= <-]. split; [|done]. intros _. exists n, ids. by split; [left|].
    + intros H%IH. rewrite H. apply Hskip. right. intros ids' [= ->]. congruence.
  - intros H%IH. rewrite H. apply Hskip. right. intros ids' [= Hx _]. by destruct Hv.
Qed.

Lemma IsSupportedDevice_go_Ok l deviceID b :
  IsSupportedDevice_go l deviceID = Ok b →
  b = true ↔ ∃ n v ids, n ∈ l ∧ nic_ids n = v :: deviceID :: ids.
Proof.
  induction l as [|n l IH]; cbn [IsSupportedDevice_go].
  { intros [= <-]. split; [done|]. intros (n & v & ids & Hn & _). by apply elem_of_nil in Hn. }
  destruct (nic_ids n) as [|id0 [|id1 ids]] eqn:E; [done..|].
  destruct (String.eqb_spec deviceID id1) as [->|Hd].
  - intros [= <-]. split; [|done]. intros _. exists n, id0, ids. by split; [left|].
  - intros H%IH. rewrite H. split; intros (m & v & ids' & Hm & He); exists m, v, ids'; [by split; [right|]|].
    apply elem_of_cons in Hm as [->|Hm]; [congruence|done].
Qed.

Lemma IsSupportedDevice_go_wf l deviceID :
  Forall wf_nic_entry l → ∃ b, IsSupportedDevice_go l deviceID = Ok b.
Proof.
  induction 1 as [|n l (v & f & vf & r & E) Hl IH]; cbn; [by eexists|]. rewrite E. case_match; [by eexists|done].
Qed.

Lemma IsSupportedVendor_spec l vendorID :
  IsSupportedVendor l vendorID = true ↔ ∃ n ids, n ∈ l ∧ nic_ids n = vendorID :: ids.
Proof.
  unfold IsSupportedVendor. rewrite existsb_exists. split.
  - intros (n & Hn%list_elem_of_In & H). destruct (nic_ids n) as [|id0 ids] eqn:E; [done|].
    apply String.eqb_eq in H as ->. eauto.
  - intros (n & ids & Hn%list_elem_of_In & E). exists n. split; [done|]. rewrite E. apply String.eqb_refl.
Qed.

Lemma pfName_base_spec pf name : pfName_base pf = name ↔ ∃ fields, Split pf "#" = name :: fields.
Proof.
  unfold pfName_base. destruct (ContainsByte "#" pf) eqn:E.
  - destruct (Split pf "#") as [|f0 fs] eqn:S; [|naive_solver]. by destruct (Split_nonempty pf "#").
  - rewrite Split_none by done. naive_solver.
Qed.

(** ** Properties *)

(** on blank-free filters "key:value" (the documented
    "openstack/NetworkID:..." and "aws/NetworkID:..." forms) the regular
    expression match is equality of the keys and equality of the values, no
    more and no less. *)
Theorem NetFilterMatch_exact (k v k' v' : list ascii)
  (Hk : k ≠ []) (Hv : v ≠ []) (Hk' : k' ≠ []) (Hv' : v' ≠ [])
  (Pk : plain k) (Pv : plain v) (Pk' : plain k') (Pv' : plain v') :
  NetFilterMatch (String.string_of_list_ascii (k ++ ":"%char :: v))
    (String.string_of_list_ascii (k' ++ ":"%char :: v')) = true ↔ k = k' ∧ v = v'.
Proof.
  unfold NetFilterMatch. rewrite !String.list_ascii_of_string_of_list_ascii.
  rewrite !re_find_plain by done. rewrite andb_true_iff, !bool_decide_eq_true. done.
Qed.

Lemma NetFilterMatch_exact_witness :
  NetFilterMatch "aws/NetworkID:sub-1" "aws/NetworkID:sub-2" = true ↔
  String.list_ascii_of_string "aws/NetworkID" = String.list_ascii_of_string "aws/NetworkID" ∧
  String.list_ascii_of_string "sub-1" = String.list_ascii_of_string "sub-2".
Proof.
  apply (NetFilterMatch_exact (String.list_ascii_of_string "aws/NetworkID")
    (String.list_ascii_of_string "sub-1") (String.list_ascii_of_string "aws/NetworkID")
    (String.list_ascii_of_string "sub-2"));
    first [done | repeat constructor; done].
Defined.

(** on a well-formed table the model check never panics, and it accepts a
    vendor and device pair exactly when one table entry lists both; the VF
    check is the same against the entry's third field. *)
Theorem IsSupportedModel_exact (NicIDMap : list string) (vendorID deviceID : string)
  (Hwf : Forall wf_nic_entry NicIDMap) :
  (∃ b, IsSupportedModel NicIDMap vendorID deviceID = Ok b ∧
     (b = true ↔ ∃ n ids, n ∈ NicIDMap ∧ nic_ids n = vendorID :: ids ∧ ids !! 0%nat = Some deviceID)) ∧
  (∃ b, IsVfSupportedModel NicIDMap vendorID deviceID = Ok b ∧
     (b = true ↔ ∃ n ids, n ∈ NicIDMap ∧ nic_ids n = vendorID :: ids ∧ ids !! 1%nat = Some deviceID)).
Proof. split; apply SupportedModel_go_spec; (lia || done). Qed.

Lemma IsSupportedModel_exact_witness :
  (∃ b, IsSupportedModel ["8086 158b 154c"; "15b3 1017 1018"] "15b3" "1017" = Ok b ∧
     (b = true ↔ ∃ n ids, n ∈ ["8086 158b 154c"; "15b3 1017 1018"] ∧
        nic_ids n = "15b3" :: ids ∧ ids !! 0%nat = Some "1017")).
Proof.
  refine (proj1 (IsSupportedModel_exact ["8086 158b 154c"; "15b3 1017 1018"] "15b3" "1017" _)).
  repeat constructor; unfold wf_nic_entry; eexists _, _, _, _; reflexivity.
Defined.
