(* ===== verification/Policy.v ===== *)
(** * Policies applied to a node state: api/v1/helper.go

    [ByPriority], [Apply] with [mergeConfigs], and [ApplyBridgeConfig].  A
    policy is applied to the interfaces a node reports; policies are applied
    one after the other, the later one winning. *)
From S2P Require Import Prelude GoLib Types VfRange Selector.

(** ** The order of policies *)

(** [ByPriority.Less]. *)
Definition ByPriority_Less (a b : SriovNetworkNodePolicy) : bool :=
  if negb (ps_Priority (p_Spec a) =? ps_Priority (p_Spec b))
  then ps_Priority (p_Spec b) <? ps_Priority (p_Spec a)
  else String.ltb (p_Name a) (p_Name b).

(** The order a sort by [Less] establishes between neighbours. *)
Definition policy_le (a b : SriovNetworkNodePolicy) : Prop := ByPriority_Less b a = false.

#[export] Instance policy_le_dec : RelDecision policy_le.
Proof. intros a b. unfold policy_le. apply _. Defined.

(** [sort.Sort(ByPriority(items))]. *)
Definition sort_ByPriority (items : list SriovNetworkNodePolicy) : list SriovNetworkNodePolicy :=
  merge_sort policy_le items.

(** ** Merging the configuration of one interface *)

Definition if_set_groups (gs : list VfGroup) (i : Interface) : Interface :=
  mkInterface (if_PciAddress i) (if_NumVfs i) (if_Mtu i) (if_Name i) (if_LinkType i)
    (if_EswitchMode i) gs (if_ExternallyManaged i).

Definition if_set_nums (mtu numVfs : Z) (i : Interface) : Interface :=
  mkInterface (if_PciAddress i) numVfs mtu (if_Name i) (if_LinkType i)
    (if_EswitchMode i) (if_VfGroups i) (if_ExternallyManaged i).

(** The loop of [mergeConfigs] over the lower-priority groups: [input] is the
    slice [input.VfGroups], whose head it reads each time round, [m] whether a
    group was kept. *)
Fixpoint mergeVfGroups (grs input : list VfGroup) (m : bool)
    : result NumError (list VfGroup * bool) :=
  match grs with
  | [] => Ok (input, m)
  | gr :: rest =>
      match input with
      | [] => Panic
      | g0 :: _ =>
          skip ← (if String.eqb (vg_ResourceName gr) (vg_ResourceName g0) then Ok true
                  else isVFRangeOverlapping gr g0);
          if skip : bool then mergeVfGroups rest input m
          else mergeVfGroups rest (input ++ [gr]) true
      end
  end.

(** [Interface.mergeConfigs]: [iface] is the receiver, passed by value, and the
    result is what [input] points to afterwards. *)
Definition mergeConfigs (iface input : Interface) (equalPriority : bool)
    : result NumError Interface :=
  '(gs, m) ← mergeVfGroups (if_VfGroups iface) (if_VfGroups input) false;
  let input' := if_set_groups gs input in
  if negb equalPriority && negb m then Ok input'
  else Ok (if_set_nums
             (if if_Mtu input' <? if_Mtu iface then if_Mtu iface else if_Mtu input')
             (if if_NumVfs input' <? if_NumVfs iface then if_NumVfs iface else if_NumVfs input')
             input').

(** ** [SriovNetworkNodePolicy.Apply] *)

Definition apply_result (p : SriovNetworkNodePolicy) (iface : InterfaceExt) (group : VfGroup)
    : Interface :=
  {| if_PciAddress := ie_PciAddress iface;
     if_NumVfs := ps_NumVfs (p_Spec p);
     if_Mtu := ps_Mtu (p_Spec p);
     if_Name := ie_Name iface;
     if_LinkType := ps_LinkType (p_Spec p);
     if_EswitchMode := ps_EswitchMode (p_Spec p);
     if_VfGroups := [group];
     if_ExternallyManaged := ps_ExternallyManaged (p_Spec p) |}.

(** The inner loop: the first interface of the spec with the same PCI address
    is merged and replaced; if there is none the new one is appended. *)
Fixpoint placeInterface (res : Interface) (equalPriority : bool) (l : list Interface)
    : result NumError (list Interface) :=
  match l with
  | [] => Ok [res]
  | i :: rest =>
      if String.eqb (if_PciAddress i) (if_PciAddress res) then
        r ← mergeConfigs i res equalPriority; Ok (r :: rest)
      else rest' ← placeInterface res equalPriority rest; Ok (i :: rest')
  end.

Definition applyToInterface (p : SriovNetworkNodePolicy) (equalPriority : bool)
    (iface : InterfaceExt) (l : list Interface) : result NumError (list Interface) :=
  if NicSelector_Selected (ps_NicSelector (p_Spec p)) iface then
    if 0 <? ps_NumVfs (p_Spec p) then
      group ← generatePfNameVfGroup p iface;
      placeInterface (apply_result p iface group) equalPriority l
    else Ok l
  else Ok l.

Fixpoint applyToInterfaces (p : SriovNetworkNodePolicy) (equalPriority : bool)
    (ifaces : list InterfaceExt) (l : list Interface) : result NumError (list Interface) :=
  match ifaces with
  | [] => Ok l
  | iface :: rest =>
      l' ← applyToInterface p equalPriority iface l;
      applyToInterfaces p equalPriority rest l'
  end.

Definition Apply (p : SriovNetworkNodePolicy) (state : SriovNetworkNodeState)
    (equalPriority : bool) : result NumError SriovNetworkNodeState :=
  if NicSelector_IsEmpty (ps_NicSelector (p_Spec p)) then Ok state
  else
    l ← applyToInterfaces p equalPriority (nst_Interfaces (ns_Status state))
          (nss_Interfaces (ns_Spec state));
    Ok (ns_set_spec (nss_set_interfaces l (ns_Spec state)) state).

(** ** Lemmas on the order *)

Lemma ascii_compare_trans a b c :
  Ascii.compare a b = Lt → Ascii.compare b c = Lt → Ascii.compare a c = Lt.
Proof. unfold Ascii.compare. rewrite !N.compare_lt_iff. lia. Qed.

Lemma ascii_compare_refl a : Ascii.compare a a = Eq.
Proof. unfold Ascii.compare. apply N.compare_refl. Qed.

Lemma ascii_compare_eq a b : Ascii.compare a b = Eq → a = b.
Proof.
  unfold Ascii.compare. rewrite N.compare_eq_iff. intros H.
  by rewrite <- (ascii_N_embedding a), <- (ascii_N_embedding b), H.
Qed.

Lemma string_compare_refl s : String.compare s s = Eq.
Proof. induction s; simpl; [done|]. by rewrite ascii_compare_refl. Qed.

Lemma string_compare_trans s t u :
  String.compare s t = Lt → String.compare t u = Lt → String.compare s u = Lt.
Proof.
  revert t u. induction s as [|a s IH]; intros [|b t] [|c u]; simpl; try done.
  destruct (Ascii.compare a b) eqn:Hab; try done.
  - apply ascii_compare_eq in Hab as ->. destruct (Ascii.compare b c); try done. apply IH.
  - destruct (Ascii.compare b c) eqn:Hbc; try done.
    + apply ascii_compare_eq in Hbc as ->. by rewrite Hab.
    + by rewrite (ascii_compare_trans _ _ _ Hab Hbc).
Qed.

Lemma string_ltb_Lt s t : String.ltb s t = true ↔ String.compare s t = Lt.
Proof. unfold String.ltb. by destruct (String.compare s t). Qed.

Lemma string_compare_Gt s t : String.compare s t = Gt ↔ String.compare t s = Lt.
Proof. rewrite (String.compare_antisym s t). by destruct (String.compare t s). Qed.

(** Names compared as [Less] does: [a] not after [b]. *)
Definition name_le (s t : string) : Prop := String.compare s t ≠ Gt.

Lemma name_le_trans s t u : name_le s t → name_le t u → name_le s u.
Proof.
  unfold name_le. destruct (String.compare s t) eqn:A; try done; intros _;
  destruct (String.compare t u) eqn:B; try done; intros _.
  - apply String.compare_eq_iff in A as ->. by rewrite B.
  - apply String.compare_eq_iff in A as ->. by rewrite B.
  - apply String.compare_eq_iff in B as ->. by rewrite A.
  - by rewrite (string_compare_trans _ _ _ A B).
Qed.

Lemma policy_le_spec a b :
  policy_le a b ↔
  ps_Priority (p_Spec b) < ps_Priority (p_Spec a) ∨
  ps_Priority (p_Spec a) = ps_Priority (p_Spec b) ∧ name_le (p_Name a) (p_Name b).
Proof.
  unfold policy_le, ByPriority_Less, name_le.
  destruct (Z.eqb_spec (ps_Priority (p_Spec b)) (ps_Priority (p_Spec a))) as [E|E]; simpl.
  - rewrite <- not_true_iff_false, string_ltb_Lt, <- string_compare_Gt. intuition lia.
  - rewrite Z.ltb_ge. intuition lia.
Qed.

#[export] Instance policy_le_trans : Transitive policy_le.
Proof.
  intros a b c. rewrite !policy_le_spec. intros [?|[E ?]] [?|[E' ?]]; try (left; lia).
  right. split; [lia|]. by eapply name_le_trans.
Qed.

#[export] Instance policy_le_total : Total policy_le.
Proof.
  intros a b. rewrite !policy_le_spec. unfold name_le.
  destruct (Z.lt_total (ps_Priority (p_Spec a)) (ps_Priority (p_Spec b))) as [|[E|]];
    [right; left; lia| |left; left; lia].
  destruct (String.compare (p_Name a) (p_Name b)) eqn:C; [left; right; done..|].
  right. right. split; [done|]. apply string_compare_Gt in C. by rewrite C.
Qed.

Lemma policy_le_same_name a b :
  policy_le a b → policy_le b a → p_Name a = p_Name b.
Proof.
  rewrite !policy_le_spec. unfold name_le. intros [?|[E H]] [?|[E' H']]; try lia.
  destruct (String.compare (p_Name a) (p_Name b)) eqn:C; [|..|done].
  - by apply String.compare_eq_iff.
  - apply string_compare_Gt in C. done.
Qed.

(** ** Well-formed partitions of a PF *)

Definition wf_group (n : Z) (g : VfGroup) : Prop :=
  ∃ a b, vg_VfRange g = rng_str a b ∧ 0 ≤ a ≤ b ∧ b < n.

(** Two groups that may stand side by side on one PF. *)
Definition compatible (g h : VfGroup) : Prop :=
  vg_ResourceName h ≠ vg_ResourceName g ∧
  ¬ ∃ i, IndexInRange i (vg_VfRange h) = Ok true ∧ IndexInRange i (vg_VfRange g) = Ok true.

Definition wf_iface (i : Interface) : Prop :=
  0 < if_NumVfs i ≤ max_int64 ∧
  if_VfGroups i ≠ [] ∧
  Forall (wf_group (if_NumVfs i)) (if_VfGroups i) ∧
  ForallOrdPairs compatible (if_VfGroups i).

(** The interfaces of a node state spec: one entry per PCI address, each
    partitioned well. *)
Definition wf_spec_ifaces (l : list Interface) : Prop :=
  NoDup (if_PciAddress <$> l) ∧ Forall wf_iface l.

(** What the admission webhook establishes of a policy's pfNames. *)
Definition pf_ok (n : Z) (pf : string) : Prop :=
  ∃ name a b, ParseVfRange pf = Ok (name, a, b) ∧
    (a = invalidVfIndex ∧ b = invalidVfIndex ∨ 0 ≤ a ≤ b ∧ b < n).

Definition policy_ok (p : SriovNetworkNodePolicy) : Prop :=
  ps_NumVfs (p_Spec p) ≤ max_int64 ∧
  Forall (pf_ok (ps_NumVfs (p_Spec p))) (sel_PfNames (ps_NicSelector (p_Spec p))).

Lemma wf_group_mono n m g : wf_group n g → n ≤ m → wf_group m g.
Proof. intros (a & b & ? & ? & ?) ?. exists a, b. split_and!; try done; lia. Qed.

Lemma IndexInRange_wf n g i :
  wf_group n g → n ≤ max_int64 → IndexInRange i (vg_VfRange g) = Ok true → 0 ≤ i < n.
Proof.
  intros (a & b & -> & Hab & Hb) Hn. rewrite IndexInRange_rng_str by lia.
  intros [= H]. bool_hyps. lia.
Qed.

(** On well-formed groups the skip test of the merge decides compatibility. *)
Lemma skip_test n g0 gr :
  n ≤ max_int64 → wf_group n g0 → wf_group n gr →
  ∃ b, (if String.eqb (vg_ResourceName gr) (vg_ResourceName g0) then Ok true
        else isVFRangeOverlapping gr g0) = Ok b ∧ (b = false ↔ compatible g0 gr).
Proof.
  intros Hn (c & d & Hg0 & Hcd & Hd) (a & b & Hgr & Hab & Hb). unfold compatible.
  destruct (String.eqb_spec (vg_ResourceName gr) (vg_ResourceName g0)) as [E|E].
  - exists true. split; [done|]. split; [done|]. intros [? _]. done.
  - pose proof (isVFRangeOverlapping_iff gr g0 a b c d Hgr Hg0
      ltac:(lia) ltac:(lia) ltac:(lia) ltac:(lia)) as Hex.
    rewrite (isVFRangeOverlapping_ranges gr g0 a b c d) in Hex |- * by (done || lia).
    eexists. split; [reflexivity|]. rewrite <- Hex, <- not_true_iff_false. split.
    + intros H. split; [done|]. intros [= H']. done.
    + intros [_ H] H'. apply H. by rewrite H'.
Qed.

(** The merge keeps exactly the compatible groups, after the policy's own. *)
Lemma mergeVfGroups_spec n grs g0 inp m :
  n ≤ max_int64 → wf_group n g0 → Forall (wf_group n) grs →
  ∃ kept, mergeVfGroups grs (g0 :: inp) m = Ok (g0 :: inp ++ kept, m || bool_decide (kept ≠ [])) ∧
    kept `sublist_of` grs ∧ Forall (compatible g0) kept ∧
    (∀ g, g ∈ grs → compatible g0 g → g ∈ kept).
Proof.
  intros Hn Hg0 Hgrs. revert inp m. induction Hgrs as [|gr grs Hgr Hgrs IH]; intros inp m.
  - exists []. rewrite app_nil_r, orb_false_r. repeat split; [done..|].
    intros g Hg. by apply elem_of_nil in Hg.
  - cbn [mergeVfGroups]. destruct (skip_test n g0 gr Hn Hg0 Hgr) as (b & -> & Hb). simpl.
    destruct b.
    + destruct (IH inp m) as (kept & -> & Hs & Hc & Hall). exists kept.
      split; [done|]. split; [by apply sublist_cons|]. split; [done|].
      intros g [->|Hg]%elem_of_cons Hcg; [|auto]. by apply Hb in Hcg.
    + destruct (IH (inp ++ [gr]) true) as (kept & -> & Hs & Hc & Hall).
      exists (gr :: kept). rewrite <- app_assoc. cbn [app].
      split; [by rewrite orb_true_r|]. split; [by apply sublist_skip|].
      split; [constructor; [by apply Hb|done]|].
      intros g [->|Hg]%elem_of_cons Hcg; [left|right; auto].
Qed.

Lemma ForallOrdPairs_sublist {A} (R : A → A → Prop) l k :
  k `sublist_of` l → ForallOrdPairs R l → ForallOrdPairs R k.
Proof.
  induction 1 as [|x k l Hs IH|x k l Hs IH]; intros H; [constructor|..];
    inversion H as [|? ? Hx Hl]; subst; auto.
  constructor; [|auto]. rewrite Forall_forall in Hx |- *. eauto using elem_of_sublist.
Qed.

(** Merging a well-formed entry with a policy's single group is total and gives
    a well-formed entry led by that group. *)
Lemma mergeConfigs_wf iface input g eq :
  wf_iface iface → 0 < if_NumVfs input ≤ max_int64 → if_VfGroups input = [g] →
  wf_group (if_NumVfs input) g →
  ∃ r kept, mergeConfigs iface input eq = Ok r ∧ wf_iface r ∧
    if_PciAddress r = if_PciAddress input ∧ if_VfGroups r = g :: kept ∧
    kept `sublist_of` if_VfGroups iface ∧
    (∀ h, h ∈ if_VfGroups iface → compatible g h → h ∈ kept).
Proof.
  intros ([Hn0 Hn] & Hne & Hgs & Hpairs) Hin Hg Hwg. unfold mergeConfigs. rewrite Hg.
  set (n := Z.max (if_NumVfs iface) (if_NumVfs input)).
  assert (Hgn : wf_group n g) by (eapply wf_group_mono; [done|lia]).
  assert (Hgsn : Forall (wf_group n) (if_VfGroups iface)).
  { eapply Forall_impl; [done|]. intros; eapply wf_group_mono; [done|lia]. }
  destruct (mergeVfGroups_spec n (if_VfGroups iface) g [] false ltac:(lia) Hgn Hgsn)
    as (kept & -> & Hs & Hc & Hall).
  assert (Hk : Forall (wf_group n) kept).
  { rewrite Forall_forall in Hgsn |- *. eauto using elem_of_sublist. }
  assert (Hp : ForallOrdPairs compatible (g :: kept)).
  { constructor; [done|].
    by eapply ForallOrdPairs_sublist. }
  cbn [mbind result_bind app]. rewrite orb_false_l.
  destruct (negb eq && negb (bool_decide (kept ≠ []))) eqn:E.
  - eexists _, kept. split; [done|]. bool_hyps.
    assert (kept = []) as -> by (destruct kept; [done|]; exfalso; by apply H0).
    split_and!; try done. unfold wf_iface. cbn. split_and!; try lia; try done.
    by repeat constructor.
  - eexists _, kept. split; [done|]. split_and!; try done. unfold wf_iface. cbn.
    replace (if if_NumVfs input <? if_NumVfs iface then if_NumVfs iface else if_NumVfs input)
      with n by (unfold n; destruct (Z.ltb_spec (if_NumVfs input) (if_NumVfs iface)); lia).
    split_and!; try lia; try done. by constructor.
Qed.

(** The range chosen for a policy's group is inside the policy's VFs. *)
Lemma pfNameRange_ok pfs name n :
  0 < n ≤ max_int64 → Forall (pf_ok n) pfs →
  ∃ a b, pfNameRange pfs name n = Ok (a, b) ∧ 0 ≤ a ≤ b ∧ b < n.
Proof.
  intros Hn. assert (Hd : wrap64 (n - 1) = n - 1).
  { apply wrap64_small. unfold in_int64, min_int64, max_int64 in *. lia. }
  induction 1 as [|pf pfs (nm & a & b & Hpf & Hab) Hpfs IH]; simpl.
  - exists 0, (n - 1). rewrite Hd. split; [done|lia].
  - rewrite Hpf. simpl. destruct (String.eqb_spec nm name) as [->|]; [|done].
    destruct ((a =? invalidVfIndex) && (b =? invalidVfIndex)) eqn:E.
    + exists 0, (n - 1). rewrite Hd. split; [done|lia].
    + destruct Hab as [[-> ->]|Hab]; [done|]. exists a, b. split; [done|lia].
Qed.

Lemma generatePfNameVfGroup_ok p iface :
  policy_ok p → 0 < ps_NumVfs (p_Spec p) →
  ∃ g, generatePfNameVfGroup p iface = Ok g ∧ wf_group (ps_NumVfs (p_Spec p)) g ∧
    vg_ResourceName g = ps_ResourceName (p_Spec p) ∧ vg_PolicyName g = p_Name p.
Proof.
  intros [Hmax Hpf] Hn. unfold generatePfNameVfGroup.
  destruct (pfNameRange_ok _ (ie_Name iface) _ (conj Hn Hmax) Hpf) as (a & b & -> & Hab & Hb).
  simpl. eexists. split; [done|]. split_and!; try done. exists a, b. done.
Qed.

Lemma placeInterface_pci res eq l l' :
  (∀ i r, i ∈ l → mergeConfigs i res eq = Ok r → if_PciAddress r = if_PciAddress res) →
  placeInterface res eq l = Ok l' →
  if_PciAddress <$> l' =
    (if_PciAddress <$> l) ++
    (if bool_decide (if_PciAddress res ∈ if_PciAddress <$> l) then [] else [if_PciAddress res]).
Proof.
  revert l'. induction l as [|i l IH]; simpl; intros l' Hm H.
  - by simplify_eq.
  - destruct (String.eqb_spec (if_PciAddress i) (if_PciAddress res)) as [E|E].
    + destruct (mergeConfigs i res eq) as [r| |] eqn:Em; simplify_eq/=.
      rewrite (Hm i r) by (done || left). rewrite E, bool_decide_eq_true_2 by left.
      by rewrite app_nil_r.
    + destruct (placeInterface res eq l) as [l''| |] eqn:Ep; simplify_eq/=.
      rewrite (IH l''); [|intros; eapply Hm; [by right|done]|done].
      f_equal. f_equal. erewrite bool_decide_ext; [done|]. set_solver.
Qed.

Lemma placeInterface_wf res g eq l :
  wf_spec_ifaces l → 0 < if_NumVfs res ≤ max_int64 → if_VfGroups res = [g] →
  wf_group (if_NumVfs res) g →
  ∃ l', placeInterface res eq l = Ok l' ∧ wf_spec_ifaces l' ∧
    (∃ r, r ∈ l' ∧ if_PciAddress r = if_PciAddress res ∧ head (if_VfGroups r) = Some g) ∧
    (∀ i, if_PciAddress i ≠ if_PciAddress res → i ∈ l' ↔ i ∈ l).
Proof.
  intros [Hnd Hwf] Hn Hg Hwg.
  assert (∃ l', placeInterface res eq l = Ok l' ∧ Forall wf_iface l' ∧
    (∃ r, r ∈ l' ∧ if_PciAddress r = if_PciAddress res ∧ head (if_VfGroups r) = Some g) ∧
    (∀ i, if_PciAddress i ≠ if_PciAddress res → i ∈ l' ↔ i ∈ l)) as (l' & Hp & Hw & Hr & Ho).
  { clear Hnd. induction Hwf as [|i l Hi Hl IH]; simpl.
    - exists [res]. split; [done|]. split.
      + constructor; [|done]. unfold wf_iface. rewrite Hg. split_and!; try lia; try done.
        * by repeat constructor.
        * by repeat constructor.
      + split; [exists res; rewrite Hg; split; [left|done]|].
        intros i Hi. rewrite list_elem_of_singleton. split; [congruence|set_solver].
    - destruct (String.eqb_spec (if_PciAddress i) (if_PciAddress res)) as [E|E].
      + destruct (mergeConfigs_wf i res g eq Hi Hn Hg Hwg)
          as (r & kept & -> & Hr & Hpci & Hgr & _).
        simpl. exists (r :: l). split; [done|]. split; [by constructor|].
        split; [exists r; rewrite Hgr; split; [left|done]|].
        intros j Hj. rewrite !elem_of_cons. split; intros [->|]; auto; congruence.
      + destruct IH as (l' & -> & Hw & (r & Hr & Hrp) & Ho). simpl.
        exists (i :: l'). split; [done|]. split; [by constructor|].
        split; [exists r; split; [by right|done]|].
        intros j Hj. rewrite !elem_of_cons, Ho by done. done. }
  exists l'. split; [done|]. split; [split; [|done]|done].
  rewrite (placeInterface_pci res eq l l'); [..|done].
  - case_bool_decide as Hin; [by rewrite app_nil_r|].
    apply NoDup_app. split_and!; [done| |apply NoDup_singleton]. set_solver.
  - intros i r Hi Hm. rewrite Forall_forall in Hwf.
    destruct (mergeConfigs_wf i res g eq (Hwf _ Hi) Hn Hg Hwg) as (r' & ? & Hr' & _ & ? & _).
    congruence.
Qed.

(** ** [Apply] as a whole *)

Lemma applyToInterface_wf p eq iface l :
  policy_ok p → wf_spec_ifaces l →
  ∃ l', applyToInterface p eq iface l = Ok l' ∧ wf_spec_ifaces l' ∧
    (∀ i, if_PciAddress i ≠ ie_PciAddress iface → i ∈ l' ↔ i ∈ l) ∧
    (NicSelector_Selected (ps_NicSelector (p_Spec p)) iface = false → l' = l) ∧
    (NicSelector_Selected (ps_NicSelector (p_Spec p)) iface = true →
     0 < ps_NumVfs (p_Spec p) →
     ∃ r g, r ∈ l' ∧ if_PciAddress r = ie_PciAddress iface ∧
       generatePfNameVfGroup p iface = Ok g ∧ head (if_VfGroups r) = Some g).
Proof.
  intros Hp Hl. unfold applyToInterface.
  destruct (NicSelector_Selected _ iface) eqn:Hs; [|by exists l].
  destruct (Z.ltb_spec 0 (ps_NumVfs (p_Spec p))) as [Hn|Hn].
  - destruct (generatePfNameVfGroup_ok p iface Hp Hn) as (g & Hg & Hwg & _).
    rewrite Hg. simpl.
    destruct (placeInterface_wf (apply_result p iface g) g eq l Hl) as (l' & -> & Hw & Hr & Ho);
      [destruct Hp; simpl; lia|done|done|].
    exists l'. split_and!; try done. intros _ _. destruct Hr as (r & ? & ? & ?).
    exists r, g. done.
  - exists l. split_and!; try done. lia.
Qed.

(** The policy reaches every interface it selects, and no other. *)
Lemma applyToInterfaces_wf p eq ifaces l :
  policy_ok p → wf_spec_ifaces l → NoDup (ie_PciAddress <$> ifaces) →
  ∃ l', applyToInterfaces p eq ifaces l = Ok l' ∧ wf_spec_ifaces l' ∧
    (∀ i, (∀ iface, iface ∈ ifaces → NicSelector_Selected (ps_NicSelector (p_Spec p)) iface = true →
             ie_PciAddress iface ≠ if_PciAddress i) → i ∈ l' ↔ i ∈ l) ∧
    (∀ iface, iface ∈ ifaces →
       NicSelector_Selected (ps_NicSelector (p_Spec p)) iface = true →
       0 < ps_NumVfs (p_Spec p) →
       ∃ r g, r ∈ l' ∧ if_PciAddress r = ie_PciAddress iface ∧
         generatePfNameVfGroup p iface = Ok g ∧ head (if_VfGroups r) = Some g).
Proof.
  intros Hp. revert l. induction ifaces as [|x ifaces IH]; intros l Hl Hnd.
  - exists l. split_and!; try done. intros iface Hi. by apply elem_of_nil in Hi.
  - rewrite fmap_cons in Hnd. apply NoDup_cons in Hnd as [Hx Hnd].
    destruct (applyToInterface_wf p eq x l Hp Hl) as (l1 & E1 & Hl1 & Ho1 & Hns1 & Hs1).
    destruct (IH l1 Hl1 Hnd) as (l2 & E2 & Hl2 & Ho2 & Hs2).
    exists l2. simpl. rewrite E1. simpl. split; [done|]. split; [done|]. split.
    + intros i Hi. rewrite Ho2 by (intros; apply Hi; [by right|done]).
      destruct (NicSelector_Selected (ps_NicSelector (p_Spec p)) x) eqn:Sx.
      * apply Ho1. symmetry. apply Hi; [left|done].
      * by rewrite Hns1.
    + intros iface [->|Hi]%elem_of_cons Hsel Hn; [|by apply Hs2].
      destruct (Hs1 Hsel Hn) as (r & g & Hr & Hpci & Hg & Hh). exists r, g.
      split_and!; try done. apply Ho2; [|done]. intros y Hy _ Heq. apply Hx.
      rewrite <- Hpci, <- Heq. by apply list_elem_of_fmap_2.
Qed.

Lemma NicSelector_IsEmpty_selected sel iface :
  NicSelector_IsEmpty sel = true → NicSelector_Selected sel iface = true.
Proof.
  unfold NicSelector_IsEmpty, NicSelector_Selected. intros H. bool_hyps.
  rewrite H, H0, H1, H2, H3. done.
Qed.

(** ** Properties *)

(** A node state whose spec is well formed and whose reported interfaces have
    distinct PCI addresses. *)
Definition wf_state (state : SriovNetworkNodeState) : Prop :=
  wf_spec_ifaces (nss_Interfaces (ns_Spec state)) ∧
  NoDup (ie_PciAddress <$> nst_Interfaces (ns_Status state)).

Lemma Apply_spec p state eq :
  policy_ok p → wf_state state →
  ∃ state', Apply p state eq = Ok state' ∧ wf_state state' ∧
    ns_meta state' = ns_meta state ∧ ns_Status state' = ns_Status state ∧
    nss_Bridges (ns_Spec state') = nss_Bridges (ns_Spec state) ∧
    nss_System (ns_Spec state') = nss_System (ns_Spec state) ∧
    (∀ i, (∀ iface, iface ∈ nst_Interfaces (ns_Status state) →
             NicSelector_Selected (ps_NicSelector (p_Spec p)) iface = true →
             ie_PciAddress iface ≠ if_PciAddress i) →
       i ∈ nss_Interfaces (ns_Spec state') ↔ i ∈ nss_Interfaces (ns_Spec state)) ∧
    (NicSelector_IsEmpty (ps_NicSelector (p_Spec p)) = false →
     ∀ iface, iface ∈ nst_Interfaces (ns_Status state) →
       NicSelector_Selected (ps_NicSelector (p_Spec p)) iface = true →
       0 < ps_NumVfs (p_Spec p) →
       ∃ r g, r ∈ nss_Interfaces (ns_Spec state') ∧ if_PciAddress r = ie_PciAddress iface ∧
         generatePfNameVfGroup p iface = Ok g ∧ head (if_VfGroups r) = Some g).
Proof.
  intros Hp [Hl Hnd]. unfold Apply.
  destruct (NicSelector_IsEmpty _) eqn:E; [exists state; by split_and!|].
  destruct (applyToInterfaces_wf p eq _ _ Hp Hl Hnd) as (l & -> & Hw & Ho & Hs).
  simpl. eexists. split; [done|]. by split_and!.
Qed.

(** C31: applying an admitted policy to a well-formed node state always
    succeeds (no error, no panic) and keeps it well formed: one entry per PCI
    address, and on each PF the VF groups have distinct resource names, lie
    inside the PF's VF count and share no VF index.  Metadata, status, bridges
    and every PF the policy does not select stay as they were. *)
Theorem Apply_preserves_partition (p : SriovNetworkNodePolicy) (state : SriovNetworkNodeState)
  (eq : bool) (Hp : policy_ok p) (Hs : wf_state state) :
  ∃ state', Apply p state eq = Ok state' ∧ wf_state state' ∧
    ns_meta state' = ns_meta state ∧ ns_Status state' = ns_Status state ∧
    nss_Bridges (ns_Spec state') = nss_Bridges (ns_Spec state) ∧
    (∀ i, (∀ iface, iface ∈ nst_Interfaces (ns_Status state) →
             NicSelector_Selected (ps_NicSelector (p_Spec p)) iface = true →
             ie_PciAddress iface ≠ if_PciAddress i) →
       i ∈ nss_Interfaces (ns_Spec state') ↔ i ∈ nss_Interfaces (ns_Spec state)).
Proof.
  destruct (Apply_spec p state eq Hp Hs) as (s' & ? & ? & ? & ? & ? & ? & ? & _).
  exists s'. by split_and!.
Qed.

(** the policy applied last wins on its own VFs: for every selected
    interface, a VF index in the range the policy asks for belongs to the
    policy's group and to no other group of that PF. *)
Theorem Apply_last_policy_wins (p : SriovNetworkNodePolicy) (state state' : SriovNetworkNodeState)
  (eq : bool) (iface : InterfaceExt) (Hp : policy_ok p) (Hs : wf_state state)
  (Hne : NicSelector_IsEmpty (ps_NicSelector (p_Spec p)) = false)
  (Hn : 0 < ps_NumVfs (p_Spec p))
  (Hi : iface ∈ nst_Interfaces (ns_Status state))
  (Hsel : NicSelector_Selected (ps_NicSelector (p_Spec p)) iface = true)
  (Ha : Apply p state eq = Ok state') :
  ∃ r g rest, r ∈ nss_Interfaces (ns_Spec state') ∧ if_PciAddress r = ie_PciAddress iface ∧
    if_VfGroups r = g :: rest ∧ generatePfNameVfGroup p iface = Ok g ∧
    ∀ i h, IndexInRange i (vg_VfRange g) = Ok true → h ∈ rest →
      IndexInRange i (vg_VfRange h) ≠ Ok true.
Proof.
  destruct (Apply_spec p state eq Hp Hs) as (s' & Ha' & [[_ Hw] _] & _ & _ & _ & _ & _ & Hr).
  rewrite Ha in Ha'. simplify_eq.
  destruct (Hr Hne iface Hi Hsel Hn) as (r & g & Hin & Hpci & Hg & Hh).
  rewrite Forall_forall in Hw. destruct (Hw _ Hin) as (_ & _ & _ & Hpairs).
  destruct (if_VfGroups r) as [|g' rest] eqn:E; simplify_eq/=.
  exists r, g, rest. split_and!; try done. intros i h Hi' Hh' Hcontra.
  inversion Hpairs as [|? ? Hc _]; subst. rewrite Forall_forall in Hc.
  destruct (Hc h Hh') as [_ Hd]. apply Hd. eauto.
Qed.

(** Lists sorted by the order of the code, of policies with different names. *)
Lemma sorted_strictly (l : list SriovNetworkNodePolicy) :
  NoDup ((λ p, p_Name p) <$> l) → StronglySorted policy_le l →
  StronglySorted (λ a b, ps_Priority (p_Spec b) < ps_Priority (p_Spec a) ∨
    ps_Priority (p_Spec a) = ps_Priority (p_Spec b) ∧ String.compare (p_Name a) (p_Name b) = Lt) l.
Proof.
  intros Hnd. induction 1 as [|a l Hl IH Ha]; [constructor|]. apply NoDup_cons in Hnd as [Hni Hnd].
  constructor; [by apply IH|]. rewrite Forall_forall in *. intros b Hb. specialize (Ha b Hb).
  apply policy_le_spec in Ha as [?|[E Hn]]; [by left|right]. split; [done|]. unfold name_le in Hn.
  destruct (String.compare (p_Name a) (p_Name b)) eqn:C; [|done|done].
  apply String.compare_eq_iff in C. destruct Hni. rewrite C. by apply (list_elem_of_fmap_2 (λ p, p_Name p)).
Qed.

Lemma sorted_unique (items l l' : list SriovNetworkNodePolicy) :
  NoDup ((λ p, p_Name p) <$> items) → l ≡ₚ items → l' ≡ₚ items →
  StronglySorted policy_le l → StronglySorted policy_le l' → l = l'.
Proof.
  intros Hnd Hl Hl' Hs Hs'. apply (StronglySorted_unique_strong policy_le); [|done..|by rewrite Hl, Hl'].
  intros x1 x2 H1 H2 H12 H21. pose proof (policy_le_same_name _ _ H12 H21) as Hn.
  rewrite Hl in H1. rewrite Hl' in H2. apply list_elem_of_lookup in H1 as [i M1], H2 as [j M2].
  assert (i = j) as <-; [|congruence].
  apply (NoDup_lookup _ i j (p_Name x1) Hnd); rewrite list_lookup_fmap, ?M1, ?M2; simpl; congruence.
Qed.

(** C37: [sort.Sort(ByPriority)] leaves the policies a permutation of what was
    listed in which an earlier policy has the larger priority number, or the same
    one and the name that comes first in byte order; and since policy names are
    unique this is the only such list, whatever sorts it, so the outcome does not
    depend on the order the API server listed the policies in. *)
Theorem sort_ByPriority_canonical (items : list SriovNetworkNodePolicy)
  (Hnd : NoDup ((λ p, p_Name p) <$> items)) :
  let before a b := ps_Priority (p_Spec b) < ps_Priority (p_Spec a) ∨
    ps_Priority (p_Spec a) = ps_Priority (p_Spec b) ∧ String.compare (p_Name a) (p_Name b) = Lt in
  sort_ByPriority items ≡ₚ items ∧ StronglySorted before (sort_ByPriority items) ∧
  (∀ l, l ≡ₚ items → StronglySorted before l → l = sort_ByPriority items) ∧
  (∀ items', items' ≡ₚ items → sort_ByPriority items' = sort_ByPriority items).
Proof.
  cbn zeta. set (before := λ a b : SriovNetworkNodePolicy, _).
  assert (Hb : ∀ l, l ≡ₚ items → StronglySorted policy_le l → StronglySorted before l).
  { intros l Hl. apply sorted_strictly. by rewrite Hl. }
  assert (Hle : ∀ l, StronglySorted before l → StronglySorted policy_le l).
  { induction 1 as [|a l Hl IH Ha]; constructor; [done|]. eapply Forall_impl; [exact Ha|].
    intros b. rewrite policy_le_spec. unfold before, name_le. intros [?|[? Hn]]; [by left|right]. by rewrite Hn. }
  assert (Huniq : ∀ l, l ≡ₚ items → StronglySorted policy_le l → l = sort_ByPriority items).
  { intros l Hl Hs. eapply sorted_unique; [exact Hnd|done|apply merge_sort_Permutation|done|apply (StronglySorted_merge_sort policy_le)]. }
  split_and!.
  - apply merge_sort_Permutation.
  - apply Hb; [apply merge_sort_Permutation|apply (StronglySorted_merge_sort policy_le)].
  - eauto.
  - intros items' Hp. apply Huniq; [by unfold sort_ByPriority; rewrite merge_sort_Permutation|apply (StronglySorted_merge_sort policy_le)].
Qed.

(** *** Sample values for the witnesses *)

Definition sample_meta (name : string) : ObjectMeta :=
  {| om_Name := name; om_Namespace := "ns"; om_Generation := 1;
     om_Annotations := ∅; om_Labels := ∅; om_OwnerReferences := [] |}.

Definition sample_policy (name res : string) (prio numVfs : Z) (pfs : list string)
    : SriovNetworkNodePolicy :=
  {| p_meta := sample_meta name;
     p_Spec := {| ps_ResourceName := res; ps_NodeSelector := ∅; ps_Priority := prio;
       ps_Mtu := 1500; ps_NumVfs := numVfs;
       ps_NicSelector := {| sel_Vendor := ""; sel_DeviceID := ""; sel_RootDevices := [];
         sel_PfNames := pfs; sel_NetFilter := "" |};
       ps_DeviceType := "netdevice"; ps_IsRdma := false; ps_NeedVhostNet := false;
       ps_LinkType := ""; ps_EswitchMode := ""; ps_VdpaType := "";
       ps_ExcludeTopology := false; ps_ExternallyManaged := false;
       ps_Bridge := mkBridge None |} |}.

Definition sample_ifext (name pci : string) : InterfaceExt :=
  {| ie_Name := name; ie_Mac := ""; ie_Driver := ""; ie_PciAddress := pci;
     ie_Vendor := "15b3"; ie_DeviceID := "1017"; ie_NetFilter := ""; ie_Mtu := 1500;
     ie_NumVfs := 0; ie_LinkSpeed := ""; ie_LinkType := "ETH"; ie_LinkAdminState := "up";
     ie_EswitchMode := "legacy"; ie_ExternallyManaged := false; ie_TotalVfs := 64;
     ie_VFs := []; ie_AltNames := [] |}.

Definition sample_state (ifs : list Interface) (exts : list InterfaceExt) : SriovNetworkNodeState :=
  {| ns_meta := sample_meta "node1";
     ns_Spec := {| nss_Interfaces := ifs; nss_Bridges := mkBridges [];
       nss_System := mkSystem "" ∅ |};
     ns_Status := {| nst_Interfaces := exts; nst_Bridges := mkBridges [];
       nst_System := mkSystem "" ∅; nst_SyncStatus := ""; nst_LastSyncError := "";
       nst_Conditions := [] |} |}.

Lemma sample_policy_ok :
  policy_ok (sample_policy "p1" "r1" 10 8 ["eth0#0-3"]).
Proof.
  split; [unfold max_int64; simpl; lia|]. constructor; [|constructor].
  exists "eth0", 0, 3. split; [reflexivity|]. right. simpl. lia.
Qed.

Lemma sample_state_wf : wf_state (sample_state [] [sample_ifext "eth0" "0000:01:00.0"]).
Proof. split; [split|]; simpl; repeat constructor; set_solver. Qed.

Lemma Apply_preserves_partition_witness :
  ∃ state', Apply (sample_policy "p1" "r1" 10 8 ["eth0#0-3"])
    (sample_state [] [sample_ifext "eth0" "0000:01:00.0"]) false = Ok state' ∧ wf_state state'.
Proof.
  destruct (Apply_preserves_partition _ _ false sample_policy_ok sample_state_wf)
    as (s & H1 & H2 & _).
  exists s. split; [exact H1|exact H2].
Defined.

Lemma Apply_last_policy_wins_witness :
  ∃ state' r g rest,
    Apply (sample_policy "p1" "r1" 10 8 ["eth0#0-3"])
      (sample_state [] [sample_ifext "eth0" "0000:01:00.0"]) false = Ok state' ∧
    r ∈ nss_Interfaces (ns_Spec state') ∧ if_VfGroups r = g :: rest ∧ vg_VfRange g = "0-3".
Proof.
  destruct (Apply (sample_policy "p1" "r1" 10 8 ["eth0#0-3"])
      (sample_state [] [sample_ifext "eth0" "0000:01:00.0"]) false) as [s'| |] eqn:E;
    [|vm_compute in E; discriminate E..].
  destruct (Apply_last_policy_wins (sample_policy "p1" "r1" 10 8 ["eth0#0-3"])
    (sample_state [] [sample_ifext "eth0" "0000:01:00.0"]) s' false
    (sample_ifext "eth0" "0000:01:00.0") sample_policy_ok sample_state_wf
    ltac:(reflexivity) ltac:(reflexivity) ltac:(left) ltac:(reflexivity) E)
    as (r & g & rest & Hr & _ & Hg & Hgen & _).
  exists s', r, g, rest. split_and!; [reflexivity|exact Hr|exact Hg|].
  vm_compute in Hgen. injection Hgen as <-. reflexivity.
Defined.

Lemma sort_ByPriority_canonical_witness :
  let items := [sample_policy "a" "r" 10 1 []; sample_policy "c" "r" 99 1 []; sample_policy "b" "r" 99 1 []] in
  sort_ByPriority items = [sample_policy "b" "r" 99 1 []; sample_policy "c" "r" 99 1 []; sample_policy "a" "r" 10 1 []].
Proof.
  cbn zeta.
  destruct (sort_ByPriority_canonical
    [sample_policy "a" "r" 10 1 []; sample_policy "c" "r" 99 1 []; sample_policy "b" "r" 99 1 []]) as (_ & _ & Huniq & _).
  - repeat constructor; set_solver.
  - symmetry. apply Huniq.
    + symmetry. apply (Permutation_rev [sample_policy "a" "r" 10 1 []; sample_policy "c" "r" 99 1 []; sample_policy "b" "r" 99 1 []]).
    + repeat constructor; cbn; auto; left; lia.
Defined.
