(* ===== verification/BridgeConfig.v ===== *)
(** * Software bridges in the node state: [ApplyBridgeConfig] of api/v1/helper.go

    One OVS bridge per selected PF, kept in a slice ordered by bridge name that
    a binary search looks up, so that reconciling twice writes the same spec. *)
From S2P Require Import Prelude GoLib Types VfRange Selector Policy.

(** ** Definitions *)

Inductive BridgeError :=
| ErrSwitchdevRequired
| ErrEthRequired
| ErrExternallyManaged.

Definition GenerateBridgeName (iface : InterfaceExt) : string :=
  "br-" +:+ ReplaceAll (ie_PciAddress iface) ":" "_".

Definition oic_set_mtu (m : Z) (c : OVSInterfaceConfig) : OVSInterfaceConfig :=
  mkOVSInterfaceConfig (oic_Type c) (oic_Options c) (oic_ExternalIDs c) (oic_OtherConfig c)
    (Some m).

(** The bridge a policy asks for on one interface. *)
Definition policyBridge (p : SriovNetworkNodePolicy) (conf : OVSConfig) (iface : InterfaceExt)
    : OVSConfigExt :=
  let ifc := ouc_Interface (oc_Uplink conf) in
  {| oce_Name := GenerateBridgeName iface;
     oce_Bridge := oc_Bridge conf;
     oce_Uplinks :=
       [{| oue_PciAddress := ie_PciAddress iface;
           oue_Name := ie_Name iface;
           oue_Interface :=
             if 0 <? ps_Mtu (p_Spec p) then oic_set_mtu (ps_Mtu (p_Spec p)) ifc else ifc |}] |}.

Definition hasUplink (pci : string) (br : OVSConfigExt) : bool :=
  ContainsFunc (oce_Uplinks br) (λ uplink, String.eqb (oue_PciAddress uplink) pci).

(** Insert or replace at the position the binary search finds. *)
Definition upsertBridge (br : OVSConfigExt) (l : list OVSConfigExt) : list OVSConfigExt :=
  let '(pos, found) := BinarySearchFunc l (λ x, String.compare (oce_Name x) (oce_Name br)) in
  if found : bool then <[pos := br]> l else Insert l pos br.

Definition applyBridgeToInterface (p : SriovNetworkNodePolicy) (iface : InterfaceExt)
    (l : list OVSConfigExt) : list OVSConfigExt :=
  if NicSelector_Selected (ps_NicSelector (p_Spec p)) iface then
    match b_OVS (ps_Bridge (p_Spec p)) with
    | None => DeleteFunc l (hasUplink (ie_PciAddress iface))
    | Some conf => upsertBridge (policyBridge p conf iface) l
    end
  else l.

Fixpoint applyBridgeToInterfaces (p : SriovNetworkNodePolicy) (ifaces : list InterfaceExt)
    (l : list OVSConfigExt) : list OVSConfigExt :=
  match ifaces with
  | [] => l
  | iface :: rest => applyBridgeToInterfaces p rest (applyBridgeToInterface p iface l)
  end.

Definition checkBridgePolicy (spec : SriovNetworkNodePolicySpec) : option BridgeError :=
  if Bridge_IsEmpty (ps_Bridge spec) then None
  else if negb (String.eqb (ps_EswitchMode spec) ESwithModeSwitchDev) then Some ErrSwitchdevRequired
  else if negb (String.eqb (ps_LinkType spec) "") && negb (EqualFold (ps_LinkType spec) LinkTypeETH)
  then Some ErrEthRequired
  else if ps_ExternallyManaged spec then Some ErrExternallyManaged
  else None.

Definition ApplyBridgeConfig (p : SriovNetworkNodePolicy) (state : SriovNetworkNodeState)
    : result BridgeError SriovNetworkNodeState :=
  if NicSelector_IsEmpty (ps_NicSelector (p_Spec p)) then Ok state
  else
    match checkBridgePolicy (p_Spec p) with
    | Some e => Err e
    | None =>
        let l := applyBridgeToInterfaces p (nst_Interfaces (ns_Status state))
                   (br_OVS (nss_Bridges (ns_Spec state))) in
        Ok (ns_set_spec (nss_set_ovs l (ns_Spec state)) state)
    end.

(** [NeedToUpdateBridges]. *)
Definition NeedToUpdateBridges (bridgeSpec bridgeStatus : Bridges) : bool :=
  negb (bool_decide (bridgeSpec = bridgeStatus)).

(** ** Lemmas *)

Definition name_lt (x y : OVSConfigExt) : Prop :=
  String.compare (oce_Name x) (oce_Name y) = Lt.

Definition bridges_sorted (l : list OVSConfigExt) : Prop := StronglySorted name_lt l.

Lemma name_lt_trans x y z : name_lt x y → name_lt y z → name_lt x z.
Proof. apply string_compare_trans. Qed.

Lemma bridges_sorted_lookup l i j x y :
  bridges_sorted l → (i < j)%nat → l !! i = Some x → l !! j = Some y → name_lt x y.
Proof.
  intros Hs. revert i j. induction Hs as [|a l Hl IH Ha]; intros [|i] [|j] Hij Hx Hy;
    simplify_eq/=; try lia.
  - rewrite Forall_forall in Ha. apply Ha. by eapply list_elem_of_lookup_2.
  - eapply IH; [|done..]. lia.
Qed.

Lemma bridges_sorted_app l k :
  bridges_sorted (l ++ k) ↔
  bridges_sorted l ∧ bridges_sorted k ∧ ∀ x y, x ∈ l → y ∈ k → name_lt x y.
Proof.
  unfold bridges_sorted. induction l as [|a l IH]; simpl.
  - split; [intros H; split_and!; [constructor|done|set_solver]|tauto].
  - split.
    + intros H. apply StronglySorted_inv in H as [H Ha]. apply IH in H as (? & ? & ?).
      apply Forall_app in Ha as [? Ha]. rewrite Forall_forall in Ha.
      split_and!; [by constructor|done|]. intros x y [->|]%elem_of_cons ?; auto.
    + intros (H & Hk & Hlk). apply StronglySorted_inv in H as [H Ha]. constructor.
      * apply IH. split_and!; [done|done|]. intros; apply Hlk; [by right|done].
      * apply Forall_app. split; [done|]. apply Forall_forall. intros. apply Hlk; [left|done].
Qed.

(** What the search finds in an ordered slice: the bridges before the position
    sort before the name, those from it on do not. *)
Lemma bridge_search br l :
  bridges_sorted l →
  ∃ pos found, BinarySearchFunc l (λ x, String.compare (oce_Name x) (oce_Name br)) = (pos, found) ∧
    (pos ≤ length l)%nat ∧
    (∀ k x, (k < pos)%nat → l !! k = Some x → name_lt x br) ∧
    (∀ k x, (pos ≤ k)%nat → l !! k = Some x → ¬ name_lt x br) ∧
    (found = true ↔ ∃ x, l !! pos = Some x ∧ oce_Name x = oce_Name br).
Proof.
  intros Hs. unfold BinarySearchFunc.
  set (ltb := λ a, match String.compare (oce_Name a) (oce_Name br) with Lt => true | _ => false end).
  assert (Hltb : ∀ a, ltb a = true ↔ name_lt a br).
  { intros a. unfold ltb, name_lt. by destruct (String.compare (oce_Name a) (oce_Name br)). }
  destruct (bsearch_go_spec ltb l) with (fuel := length l) (i := 0%nat) (j := length l)
    as (Hr & Hlo & Hhi); try lia.
  { intros i j a b Hij Ha Hb. rewrite !Hltb. apply name_lt_trans.
    by eapply bridges_sorted_lookup. }
  { intros k a Hk Ha. apply lookup_lt_Some in Ha. lia. }
  eexists _, _. split; [done|]. split_and!.
  - exact Hr.
  - intros k x Hk Hx. apply Hltb. by eapply Hlo.
  - intros k x Hk Hx. rewrite <- Hltb. erewrite Hhi by done. done.
  - destruct (l !! _) as [x|] eqn:E.
    + destruct (String.compare (oce_Name x) (oce_Name br)) eqn:C.
      * apply String.compare_eq_iff in C. naive_solver.
      * split; [done|]. intros (? & [= <-] & Heq). rewrite Heq, string_compare_refl in C. done.
      * split; [done|]. intros (? & [= <-] & Heq). rewrite Heq, string_compare_refl in C. done.
    + naive_solver.
Qed.

Lemma name_not_lt x y : ¬ name_lt x y → oce_Name x ≠ oce_Name y → name_lt y x.
Proof.
  unfold name_lt. intros H Hne. apply string_compare_Gt.
  destruct (String.compare (oce_Name x) (oce_Name y)) eqn:E; try done.
  by apply String.compare_eq_iff in E.
Qed.

Lemma name_lt_irrefl x y : oce_Name x = oce_Name y → ¬ name_lt x y.
Proof. unfold name_lt. intros ->. by rewrite string_compare_refl. Qed.

(** A bridge between the smaller and the larger ones; [mid] is what it
    replaces. *)
Lemma sorted_splice br (l1 mid l2 : list OVSConfigExt) :
  bridges_sorted l1 → bridges_sorted l2 →
  (∀ x, x ∈ l1 → name_lt x br) → (∀ x, x ∈ l2 → name_lt br x) →
  (∀ x z, x ∈ l1 → z ∈ l2 → name_lt x z) → (∀ x, x ∈ mid → oce_Name x = oce_Name br) →
  bridges_sorted (l1 ++ br :: l2) ∧
  ∀ x, x ∈ l1 ++ br :: l2 ↔ x = br ∨ x ∈ l1 ++ mid ++ l2 ∧ oce_Name x ≠ oce_Name br.
Proof.
  intros H1 H2 Hlo Hhi H12 Hmid. split.
  - apply bridges_sorted_app. split_and!; [done| |].
    + constructor; [done|]. by apply Forall_forall.
    + intros x z Hx [->|Hz]%elem_of_cons; auto.
  - intros x. rewrite !elem_of_app, elem_of_cons. split.
    + intros [Hx|[->|Hx]]; [right|by left|right]; (split; [by auto|]); intros E.
      * by apply (name_lt_irrefl x br E), Hlo.
      * by apply (name_lt_irrefl br x (eq_sym E)), Hhi.
    + intros [->|[[Hx|[Hx|Hx]] Hne]]; auto. by destruct Hne; apply Hmid.
Qed.

(** Insert-or-replace keeps the slice ordered and changes one name only. *)
Lemma upsertBridge_spec br l :
  bridges_sorted l →
  bridges_sorted (upsertBridge br l) ∧
  ∀ x, x ∈ upsertBridge br l ↔ x = br ∨ x ∈ l ∧ oce_Name x ≠ oce_Name br.
Proof.
  intros Hs. unfold upsertBridge.
  destruct (bridge_search br l Hs) as (pos & found & -> & Hpos & Hlo & Hhi & Hex).
  destruct found.
  - destruct (proj1 Hex eq_refl) as (y & Hy & Hn).
    rewrite (insert_take_drop l pos br) by (by eapply lookup_lt_Some).
    rewrite <- (take_drop_middle l pos y Hy) in Hs. apply bridges_sorted_app in Hs as (Ht & Hd & Htd).
    unfold bridges_sorted in Hd. apply StronglySorted_inv in Hd as [Hd Hyd].
    rewrite Forall_forall in Hyd.
    pose proof (sorted_splice br (take pos l) [y] (drop (S pos) l)) as H. cbn [app] in H.
    rewrite (take_drop_middle l pos y Hy) in H. apply H; auto.
    + intros x Hx. specialize (Htd x y Hx ltac:(left)). unfold name_lt in *. by rewrite <- Hn.
    + intros x Hx. specialize (Hyd x Hx). unfold name_lt in *. by rewrite <- Hn.
    + intros x z Hx Hz. apply Htd; [done|by right].
    + by intros x ->%list_elem_of_singleton.
  - assert (Hno : ∀ k x, (pos ≤ k)%nat → l !! k = Some x → name_lt br x).
    { intros k x Hk Hx. apply name_not_lt; [by eapply Hhi|]. intros E.
      assert (is_Some (l !! pos)) as [z Hz].
      { apply lookup_lt_is_Some. apply lookup_lt_Some in Hx. lia. }
      destruct (decide (k = pos)) as [->|]; [assert (false = true) by (apply Hex; eauto); done|].
      apply (Hhi pos z); [lia|done|]. unfold name_lt. rewrite <- E.
      eapply bridges_sorted_lookup; [done| |done|done]. lia. }
    pose proof Hs as Hs'. rewrite <- (take_drop pos l) in Hs'.
    apply bridges_sorted_app in Hs' as (Ht & Hd & Htd).
    pose proof (sorted_splice br (take pos l) [] (drop pos l)) as H. cbn [app] in H.
    rewrite (take_drop pos l) in H. apply H; auto.
    + intros x (k & Hk)%list_elem_of_lookup. apply lookup_take_Some in Hk as [Hx Hk]. by eapply Hlo.
    + intros x (k & Hk)%list_elem_of_lookup. rewrite lookup_drop in Hk. eapply Hno; [|done]. lia.
    + by intros x ?%elem_of_nil.
Qed.

Lemma bridges_sorted_NoDup l : bridges_sorted l → NoDup l.
Proof.
  induction 1 as [|a l Hl IH Ha]; constructor; [|done]. intros Hin.
  rewrite Forall_forall in Ha. by apply (name_lt_irrefl a a), Ha.
Qed.

(** An ordered slice is determined by its elements. *)
Lemma bridges_sorted_ext l k :
  bridges_sorted l → bridges_sorted k → (∀ x, x ∈ l ↔ x ∈ k) → l = k.
Proof.
  intros Hl Hk H. apply (StronglySorted_unique_strong name_lt); [|done..|].
  - intros x y _ _ Hxy Hyx. exfalso. eapply name_lt_irrefl; [reflexivity|].
    by eapply name_lt_trans.
  - apply NoDup_Permutation; auto using bridges_sorted_NoDup.
Qed.

Lemma DeleteFunc_sorted f l : bridges_sorted l → bridges_sorted (DeleteFunc l f).
Proof.
  unfold DeleteFunc. induction 1 as [|a l Hl IH Ha]; simpl; [constructor|].
  destruct (negb (f a)); [|done]. constructor; [done|].
  rewrite Forall_forall in Ha |- *. intros x Hx. apply Ha.
  apply (DeleteFunc_elem l f x) in Hx. tauto.
Qed.

Lemma applyBridge_sorted p ifaces l :
  bridges_sorted l → bridges_sorted (applyBridgeToInterfaces p ifaces l).
Proof.
  revert l. induction ifaces as [|x ifaces IH]; simpl; intros l Hl; [done|].
  apply IH. unfold applyBridgeToInterface. repeat case_goal; try done.
  - by apply upsertBridge_spec.
  - by apply DeleteFunc_sorted.
Qed.

(** The interfaces of a node that a policy selects. *)
Definition selected_ifaces (p : SriovNetworkNodePolicy) (ifaces : list InterfaceExt)
    : list InterfaceExt :=
  List.filter (NicSelector_Selected (ps_NicSelector (p_Spec p))) ifaces.

Lemma applyBridge_elem_some p conf ifaces l x :
  b_OVS (ps_Bridge (p_Spec p)) = Some conf → bridges_sorted l →
  NoDup (GenerateBridgeName <$> selected_ifaces p ifaces) →
  x ∈ applyBridgeToInterfaces p ifaces l ↔
  (∃ i, i ∈ selected_ifaces p ifaces ∧ x = policyBridge p conf i) ∨
  (x ∈ l ∧ ∀ i, i ∈ selected_ifaces p ifaces → oce_Name x ≠ GenerateBridgeName i).
Proof.
  intros Hc. revert l. induction ifaces as [|y ifaces IH]; simpl; intros l Hl Hnd.
  - set_solver.
  - unfold applyBridgeToInterface, selected_ifaces in *. simpl in *. rewrite Hc.
    destruct (NicSelector_Selected _ y) eqn:Sy; [|by rewrite IH].
    apply NoDup_cons in Hnd as [Hy Hnd].
    destruct (upsertBridge_spec (policyBridge p conf y) l Hl) as [Hs Hel].
    rewrite IH, Hel by done. setoid_rewrite elem_of_cons. clear IH.
    split.
    + intros [(i & Hi & ->)|([->|[Hx Hn]] & Ho)]; [by left; eauto|left; eauto|].
      right. split; [done|]. intros i [->|Hi]; auto.
    + intros [(i & [->|Hi] & ->)|(Hx & Ho)].
      * right. split; [by left|]. intros i Hi E. apply Hy. simpl in E.
        fold (GenerateBridgeName y) in E. rewrite E. by apply list_elem_of_fmap_2.
      * left. eauto.
      * right. split; [right; split; [done|apply Ho; by left]|auto].
Qed.

Lemma applyBridge_elem_none p ifaces l x :
  b_OVS (ps_Bridge (p_Spec p)) = None →
  x ∈ applyBridgeToInterfaces p ifaces l ↔
  x ∈ l ∧ ∀ i, i ∈ selected_ifaces p ifaces → hasUplink (ie_PciAddress i) x = false.
Proof.
  intros Hc. revert l. induction ifaces as [|y ifaces IH]; simpl; intros l.
  - set_solver.
  - unfold applyBridgeToInterface, selected_ifaces in *. simpl. rewrite Hc.
    destruct (NicSelector_Selected _ y) eqn:Sy; [|by rewrite IH].
    rewrite IH, DeleteFunc_elem. setoid_rewrite elem_of_cons. naive_solver.
Qed.

Lemma applyBridge_idem p ifaces l :
  bridges_sorted l → NoDup (GenerateBridgeName <$> selected_ifaces p ifaces) →
  applyBridgeToInterfaces p ifaces (applyBridgeToInterfaces p ifaces l) =
  applyBridgeToInterfaces p ifaces l.
Proof.
  intros Hl Hnd. apply bridges_sorted_ext; auto using applyBridge_sorted.
  intros x. destruct (b_OVS (ps_Bridge (p_Spec p))) as [conf|] eqn:Hc.
  - rewrite !(applyBridge_elem_some p conf) by auto using applyBridge_sorted. naive_solver.
  - rewrite !applyBridge_elem_none by done. naive_solver.
Qed.

Lemma ReplaceAll_inj c d s t :
  ContainsByte d s = false → ContainsByte d t = false → c ≠ d →
  ReplaceAll s c d = ReplaceAll t c d → s = t.
Proof.
  revert t. induction s as [|a s IH]; intros [|b t] Hs Ht Hcd; simpl in *; try done.
  intros [= Hab Hst]. bool_hyps. f_equal; [|by apply IH].
  destruct (Ascii.eqb_spec a c), (Ascii.eqb_spec b c); subst; try done;
    rewrite Ascii.eqb_refl in *; done.
Qed.

(** ** Properties *)

(** bridge names are predictable and collision free: two PFs whose PCI
    addresses have no underscore get the same bridge name only if they are the
    same PF. *)
Theorem GenerateBridgeName_inj (i j : InterfaceExt)
  (Hi : ContainsByte "_" (ie_PciAddress i) = false)
  (Hj : ContainsByte "_" (ie_PciAddress j) = false)
  (H : GenerateBridgeName i = GenerateBridgeName j) :
  ie_PciAddress i = ie_PciAddress j.
Proof.
  unfold GenerateBridgeName in H. apply (inj (String.app "br-")) in H.
  by apply (ReplaceAll_inj ":" "_").
Qed.

Lemma GenerateBridgeName_inj_witness :
  GenerateBridgeName (sample_ifext "eth0" "0000:00:03.0") = "br-0000_00_03.0" ∧
  ie_PciAddress (sample_ifext "eth0" "0000:00:03.0") = ie_PciAddress (sample_ifext "eth1" "0000:00:03.0").
Proof.
  split; [reflexivity|].
  apply (GenerateBridgeName_inj (sample_ifext "eth0" "0000:00:03.0")
    (sample_ifext "eth1" "0000:00:03.0")); reflexivity.
Defined.

(** applying a policy's bridge configuration succeeds exactly when the
    policy passes its sanity check, keeps the bridges ordered by name, puts the
    policy's bridge on every selected PF (or, for a policy without a bridge,
    removes every bridge with a selected PF as uplink), leaves the others
    alone, and is idempotent: a second application changes nothing. *)
Theorem ApplyBridgeConfig_spec (p : SriovNetworkNodePolicy) (state : SriovNetworkNodeState)
  (Hne : NicSelector_IsEmpty (ps_NicSelector (p_Spec p)) = false)
  (Hs : bridges_sorted (br_OVS (nss_Bridges (ns_Spec state))))
  (Hnd : NoDup (GenerateBridgeName <$> selected_ifaces p (nst_Interfaces (ns_Status state)))) :
  match checkBridgePolicy (p_Spec p) with
  | Some e => ApplyBridgeConfig p state = Err e
  | None =>
      ∃ state', ApplyBridgeConfig p state = Ok state' ∧
        bridges_sorted (br_OVS (nss_Bridges (ns_Spec state'))) ∧
        nss_Interfaces (ns_Spec state') = nss_Interfaces (ns_Spec state) ∧
        ApplyBridgeConfig p state' = Ok state' ∧
        ∀ x, x ∈ br_OVS (nss_Bridges (ns_Spec state')) ↔
          match b_OVS (ps_Bridge (p_Spec p)) with
          | Some conf =>
              (∃ i, i ∈ selected_ifaces p (nst_Interfaces (ns_Status state)) ∧
                 x = policyBridge p conf i) ∨
              (x ∈ br_OVS (nss_Bridges (ns_Spec state)) ∧
               ∀ i, i ∈ selected_ifaces p (nst_Interfaces (ns_Status state)) →
                 oce_Name x ≠ GenerateBridgeName i)
          | None =>
              x ∈ br_OVS (nss_Bridges (ns_Spec state)) ∧
              ∀ i, i ∈ selected_ifaces p (nst_Interfaces (ns_Status state)) →
                hasUplink (ie_PciAddress i) x = false
          end
  end.
Proof.
  unfold ApplyBridgeConfig. rewrite Hne.
  destruct (checkBridgePolicy (p_Spec p)) as [e|]; [done|].
  eexists. split; [done|]. simpl. split_and!.
  - by apply applyBridge_sorted.
  - done.
  - rewrite applyBridge_idem by done. done.
  - intros x. destruct (b_OVS (ps_Bridge (p_Spec p))) as [conf|] eqn:Hc.
    + by apply applyBridge_elem_some.
    + by apply applyBridge_elem_none.
Qed.

Definition sample_ovs : OVSConfig :=
  {| oc_Bridge := mkOVSBridgeConfig "netdev" ∅ ∅ "";
     oc_Uplink := mkOVSUplinkConfig (mkOVSInterfaceConfig "dpdk" ∅ ∅ ∅ None) |}.

Definition sample_bridge_policy : SriovNetworkNodePolicy :=
  {| p_meta := sample_meta "br";
     p_Spec := {| ps_ResourceName := "r"; ps_NodeSelector := ∅; ps_Priority := 1;
       ps_Mtu := 9000; ps_NumVfs := 4;
       ps_NicSelector := {| sel_Vendor := "15b3"; sel_DeviceID := ""; sel_RootDevices := [];
         sel_PfNames := []; sel_NetFilter := "" |};
       ps_DeviceType := "netdevice"; ps_IsRdma := false; ps_NeedVhostNet := false;
       ps_LinkType := "eth"; ps_EswitchMode := "switchdev"; ps_VdpaType := "";
       ps_ExcludeTopology := false; ps_ExternallyManaged := false;
       ps_Bridge := mkBridge (Some sample_ovs) |} |}.

Lemma ApplyBridgeConfig_spec_witness :
  ∃ state', ApplyBridgeConfig sample_bridge_policy
      (sample_state [] [sample_ifext "eth1" "0000:02:00.0"; sample_ifext "eth0" "0000:01:00.0"])
      = Ok state' ∧
    bridges_sorted (br_OVS (nss_Bridges (ns_Spec state'))) ∧
    ApplyBridgeConfig sample_bridge_policy state' = Ok state'.
Proof.
  destruct (ApplyBridgeConfig_spec sample_bridge_policy
    (sample_state [] [sample_ifext "eth1" "0000:02:00.0"; sample_ifext "eth0" "0000:01:00.0"]))
    as (s & H1 & H2 & _ & H3 & _).
  - reflexivity.
  - constructor.
  - apply NoDup_cons. split; [|apply NoDup_singleton]. vm_compute. intros H.
    apply list_elem_of_singleton in H. discriminate H.
  - exists s. split; [exact H1|]. split; [exact H2|exact H3].
Defined.
