(* ===== verification/NeedUpdate.v ===== *)
(** * Does an interface need reconfiguring?  [NeedToUpdateSriov] of api/v1/helper.go

    The decision every consumer shares: the generic plugin's drift check and
    drain decision, and the host configuration code itself. *)
From S2P Require Import Prelude GoLib Types VfRange Selector Policy.

(** ** Definitions *)

Definition ContainsSwitchdevInterface (interfaces : list Interface) : bool :=
  existsb (λ iface, String.eqb (if_EswitchMode iface) ESwithModeSwitchDev) interfaces.

Definition IsSwitchdevModeSpec (spec : SriovNetworkNodeStateSpec) : bool :=
  ContainsSwitchdevInterface (nss_Interfaces spec).

Definition GetEswitchModeFromSpec (ifaceSpec : Interface) : string :=
  if String.eqb (if_EswitchMode ifaceSpec) "" then ESwithModeLegacy else if_EswitchMode ifaceSpec.

Definition GetEswitchModeFromStatus (ifaceStatus : InterfaceExt) : string :=
  if String.eqb (ie_EswitchMode ifaceStatus) "" then ESwithModeLegacy
  else ie_EswitchMode ifaceStatus.

(** The driver, MTU and GUID checks of a VF against the group its index falls
    into: a userspace driver is compared by name, a kernel netdevice further. *)
Definition driverNeedsUpdate (ifaceSpec : Interface) (ifaceStatus : InterfaceExt)
    (vfStatus : VirtualFunction) (groupSpec : VfGroup) : bool :=
  if negb (String.eqb (vg_DeviceType groupSpec) "") &&
     negb (String.eqb (vg_DeviceType groupSpec) DeviceTypeNetDevice) then
    negb (String.eqb (vg_DeviceType groupSpec) (vf_Driver vfStatus))
  else if StringInArray (vf_Driver vfStatus) DpdkDrivers then true
  else if negb (vf_Mtu vfStatus =? 0) && negb (vg_Mtu groupSpec =? 0) &&
          negb (vf_Mtu vfStatus =? vg_Mtu groupSpec) then true
  else if ((EqualFold (ie_LinkType ifaceStatus) LinkTypeETH && vg_IsRdma groupSpec) ||
           EqualFold (ie_LinkType ifaceStatus) LinkTypeIB) &&
          String.eqb (vf_GUID vfStatus) UninitializedNodeGUID then true
  else if_ExternallyManaged ifaceSpec.

Definition vfNeedsUpdate (ifaceSpec : Interface) (ifaceStatus : InterfaceExt)
    (vfStatus : VirtualFunction) (groupSpec : VfGroup) : bool :=
  if String.eqb (vf_Driver vfStatus) "" then true
  else if driverNeedsUpdate ifaceSpec ifaceStatus vfStatus groupSpec then true
  else negb (String.eqb (vg_VdpaType groupSpec) (vf_VdpaType vfStatus)).

(** The inner loop stops at the first group whose range holds the VF. *)
Fixpoint vfGroupsNeedUpdate (ifaceSpec : Interface) (ifaceStatus : InterfaceExt)
    (vfStatus : VirtualFunction) (groups : list VfGroup) : result NumError bool :=
  match groups with
  | [] => Ok false
  | g :: rest =>
      b ← IndexInRange (vf_VfID vfStatus) (vg_VfRange g);
      if b : bool then Ok (vfNeedsUpdate ifaceSpec ifaceStatus vfStatus g)
      else vfGroupsNeedUpdate ifaceSpec ifaceStatus vfStatus rest
  end.

Fixpoint vfsNeedUpdate (ifaceSpec : Interface) (ifaceStatus : InterfaceExt)
    (vfs : list VirtualFunction) : result NumError bool :=
  match vfs with
  | [] => Ok false
  | vf :: rest =>
      b ← vfGroupsNeedUpdate ifaceSpec ifaceStatus vf (if_VfGroups ifaceSpec);
      if b : bool then Ok true else vfsNeedUpdate ifaceSpec ifaceStatus rest
  end.

Definition NeedToUpdateSriov (ifaceSpec : Interface) (ifaceStatus : InterfaceExt)
    : result NumError bool :=
  if (0 <? if_Mtu ifaceSpec) && (ie_Mtu ifaceStatus <? if_Mtu ifaceSpec) then Ok true
  else if negb (String.eqb (GetEswitchModeFromStatus ifaceStatus)
                  (GetEswitchModeFromSpec ifaceSpec)) then Ok true
  else if negb (if_NumVfs ifaceSpec =? ie_NumVfs ifaceStatus) then Ok true
  else if String.eqb (ie_LinkAdminState ifaceStatus) LinkAdminStateDown then Ok true
  else if 0 <? if_NumVfs ifaceSpec then vfsNeedUpdate ifaceSpec ifaceStatus (ie_VFs ifaceStatus)
  else Ok false.

(** ** The contract *)

(** A group holds a VF when its range "a-b" does (numbers are Go ints). *)
Definition holds (g : VfGroup) (id : Z) : Prop :=
  ∃ a b, vg_VfRange g = rng_str a b ∧ 0 ≤ a ∧ b ≤ max_int64 ∧ a ≤ id ≤ b.

(** The group that governs a VF index: the first one that holds it. *)
Definition governs (groups : list VfGroup) (id : Z) (g : VfGroup) : Prop :=
  ∃ pre post, groups = pre ++ g :: post ∧ holds g id ∧ Forall (λ h, ¬ holds h id) pre.

(** Two eSwitch modes are one, the empty one meaning legacy. *)
Definition same_mode (m m' : string) : Prop :=
  m = m' ∨ m = "" ∧ m' = ESwithModeLegacy ∨ m = ESwithModeLegacy ∧ m' = "".

(** What it means for a VF to be configured as its group asks. *)
Record vf_in_sync (ifaceStatus : InterfaceExt) (vf : VirtualFunction) (g : VfGroup) : Prop := {
  sync_has_driver : vf_Driver vf ≠ "";
  sync_vdpa : vg_VdpaType g = vf_VdpaType vf;
  sync_userspace : vg_DeviceType g ≠ "" → vg_DeviceType g ≠ DeviceTypeNetDevice →
    vf_Driver vf = vg_DeviceType g;
  sync_netdev : vg_DeviceType g = "" ∨ vg_DeviceType g = DeviceTypeNetDevice →
    vf_Driver vf ∉ DpdkDrivers ∧
    (vf_Mtu vf = 0 ∨ vg_Mtu g = 0 ∨ vf_Mtu vf = vg_Mtu g) ∧
    (vf_GUID vf = UninitializedNodeGUID →
       EqualFold (ie_LinkType ifaceStatus) LinkTypeIB = false ∧
       (EqualFold (ie_LinkType ifaceStatus) LinkTypeETH = true → vg_IsRdma g = false))
}.

(** A kernel netdevice of a NIC that is managed by others: what its VFs are is
    not looked at, the administrative MAC addresses have to be set anyway. *)
Definition always_updated (ifaceSpec : Interface) (g : VfGroup) : Prop :=
  if_ExternallyManaged ifaceSpec = true ∧ (vg_DeviceType g = "" ∨ vg_DeviceType g = DeviceTypeNetDevice).

(** ** Lemmas *)

Lemma driverNeedsUpdate_userspace spec status vf g :
  vg_DeviceType g ≠ "" → vg_DeviceType g ≠ DeviceTypeNetDevice →
  driverNeedsUpdate spec status vf g = false ↔ vf_Driver vf = vg_DeviceType g.
Proof.
  intros H1 H2. unfold driverNeedsUpdate. apply String.eqb_neq in H1, H2. rewrite H1, H2.
  simpl. rewrite negb_false_iff, String.eqb_eq. done.
Qed.

Lemma driverNeedsUpdate_netdev spec status vf g :
  vg_DeviceType g = "" ∨ vg_DeviceType g = DeviceTypeNetDevice →
  driverNeedsUpdate spec status vf g = false ↔
    vf_Driver vf ∉ DpdkDrivers ∧
    (vf_Mtu vf = 0 ∨ vg_Mtu g = 0 ∨ vf_Mtu vf = vg_Mtu g) ∧
    (vf_GUID vf = UninitializedNodeGUID →
       EqualFold (ie_LinkType status) LinkTypeIB = false ∧
       (EqualFold (ie_LinkType status) LinkTypeETH = true → vg_IsRdma g = false)) ∧
    if_ExternallyManaged spec = false.
Proof.
  intros H. unfold driverNeedsUpdate.
  replace (negb _ && negb _) with false
    by (destruct H as [-> | ->]; [|rewrite andb_comm]; reflexivity).
  rewrite <- StringInArray_false, <- String.eqb_eq.
  destruct (StringInArray (vf_Driver vf) DpdkDrivers); [by split; [|intros []]|].
  destruct (Z.eqb_spec (vf_Mtu vf) 0), (Z.eqb_spec (vg_Mtu g) 0),
    (Z.eqb_spec (vf_Mtu vf) (vg_Mtu g)); simpl; try (split; [done|lia]);
  destruct (EqualFold (ie_LinkType status) LinkTypeETH), (vg_IsRdma g),
    (EqualFold (ie_LinkType status) LinkTypeIB),
    (String.eqb (vf_GUID vf) UninitializedNodeGUID); simpl;
    (split; [intros He; split_and!; try tauto; done|intros (_ & _ & Hg & He)];
     try done; destruct Hg as [? ?]; auto).
Qed.

Lemma vfNeedsUpdate_false spec status vf g :
  vfNeedsUpdate spec status vf g = false ↔ vf_in_sync status vf g ∧ ¬ always_updated spec g.
Proof.
  unfold vfNeedsUpdate, always_updated. destruct (String.eqb_spec (vf_Driver vf) "") as [|Hd].
  { split; [done|]. by intros [[] _]. }
  destruct (driverNeedsUpdate spec status vf g) eqn:E.
  - split; [done|]. intros [[_ _ Hu Hn] Ha]. exfalso.
    destruct (decide (vg_DeviceType g = "" ∨ vg_DeviceType g = DeviceTypeNetDevice)) as [D|D].
    + apply not_false_iff_true in E. apply E, driverNeedsUpdate_netdev; [done|]. specialize (Hn D).
      destruct (if_ExternallyManaged spec); tauto.
    + apply Decidable.not_or in D as [D1 D2].
      apply not_false_iff_true in E. apply E, driverNeedsUpdate_userspace; auto.
  - rewrite negb_false_iff, String.eqb_eq. split; [|by intros [[] _]].
    intros Hv. split; [split; [done|done| |]|].
    + intros D1 D2. by eapply driverNeedsUpdate_userspace.
    + intros D. apply (driverNeedsUpdate_netdev spec status vf g) in E; [tauto|done].
    + intros [Hm D]. apply (driverNeedsUpdate_netdev spec status vf g) in E; [|done].
      destruct E as (_ & _ & _ & E). congruence.
Qed.

Lemma rng_str_inj a b c d :
  0 ≤ a ≤ max_int64 → 0 ≤ b ≤ max_int64 → 0 ≤ c ≤ max_int64 → 0 ≤ d ≤ max_int64 → rng_str a b = rng_str c d → a = c ∧ b = d.
Proof.
  intros Ha Hb Hc Hd H. assert (S : parseRange (rng_str a b) = parseRange (rng_str c d)) by (by rewrite H).
  rewrite !parseRange_rng_str in S by lia. naive_solver.
Qed.

(** The test of the code decides whether a well-formed group holds a VF. *)
Lemma IndexInRange_holds n g i b :
  wf_group n g → n ≤ max_int64 → IndexInRange i (vg_VfRange g) = Ok b → b = true ↔ holds g i.
Proof.
  intros (a & c & E & Ha & Hc) Hn. rewrite E, IndexInRange_rng_str by lia. intros [= <-].
  rewrite andb_true_iff, !Z.leb_le. split.
  - intros [? ?]. exists a, c. split; [done|lia].
  - intros (a' & c' & E' & ? & ? & ?). rewrite E in E'. apply rng_str_inj in E' as [-> ->]; lia.
Qed.

(** The ranges of a well-formed entry never make the loops panic. *)
Lemma IndexInRange_total n g i :
  wf_group n g → n ≤ max_int64 → ∃ b, IndexInRange i (vg_VfRange g) = Ok b.
Proof.
  intros (a & b & -> & ? & ?) ?. rewrite IndexInRange_rng_str by lia. eauto.
Qed.

Lemma vfGroupsNeedUpdate_spec spec status vf n groups :
  n ≤ max_int64 → Forall (wf_group n) groups →
  ∃ b, vfGroupsNeedUpdate spec status vf groups = Ok b ∧
    (b = false ↔ ∀ g, governs groups (vf_VfID vf) g → vf_in_sync status vf g ∧ ¬ always_updated spec g).
Proof.
  intros Hn. induction 1 as [|g gs Hg Hgs IH]; simpl.
  - exists false. split; [done|]. split; [|done]. intros _ g (pre & post & E & _).
    by destruct pre.
  - destruct (IndexInRange_total n g (vf_VfID vf) Hg Hn) as [r E]. pose proof (IndexInRange_holds n g _ _ Hg Hn E) as Hh0.
    rewrite E. destruct r; simpl.
    + eexists. split; [done|]. rewrite vfNeedsUpdate_false. split.
      * intros Hs h (pre & post & Heq & Hh & Hpre). destruct pre as [|x pre]; simplify_eq/=; [done|].
        apply Forall_cons in Hpre as [Hx _]. destruct Hx. by apply Hh0.
      * intros Hs. apply Hs. exists [], gs. split_and!; [done|by apply Hh0|constructor].
    + destruct IH as (b & Hb & IH). exists b. split; [done|]. rewrite IH. split.
      * intros Hs h (pre & post & Heq & Hh & Hpre). destruct pre as [|x pre]; simplify_eq/=;
          [by apply Hh0 in Hh|]. apply Forall_cons in Hpre as [_ Hpre]. apply Hs. exists pre, post. done.
      * intros Hs h (pre & post & -> & Hh & Hpre). apply Hs. exists (g :: pre), post.
        split_and!; [done|done|]. constructor; [|done]. intros Hg'. by apply Hh0 in Hg'.
Qed.

Lemma vfsNeedUpdate_spec spec status vfs :
  wf_iface spec →
  ∃ b, vfsNeedUpdate spec status vfs = Ok b ∧
    (b = false ↔ ∀ vf, vf ∈ vfs → ∀ g, governs (if_VfGroups spec) (vf_VfID vf) g →
       vf_in_sync status vf g ∧ ¬ always_updated spec g).
Proof.
  intros (Hn & _ & Hgs & _). induction vfs as [|vf vfs IH]; simpl.
  - exists false. split; [done|]. set_solver.
  - destruct (vfGroupsNeedUpdate_spec spec status vf _ _ (proj2 Hn) Hgs) as (b & -> & Hb).
    destruct IH as (b' & Hb' & IH). simpl. destruct b.
    + exists true. split; [done|]. split; [done|]. intros H. apply Hb. apply H. left.
    + exists b'. split; [done|]. rewrite IH. setoid_rewrite elem_of_cons. naive_solver.
Qed.

(** ** Properties *)

Lemma eswitch_modes status spec :
  GetEswitchModeFromStatus status = GetEswitchModeFromSpec spec ↔ same_mode (ie_EswitchMode status) (if_EswitchMode spec).
Proof.
  unfold GetEswitchModeFromStatus, GetEswitchModeFromSpec, same_mode.
  destruct (String.eqb_spec (ie_EswitchMode status) "") as [->|], (String.eqb_spec (if_EswitchMode spec) "") as [->|]; naive_solver.
Qed.

(** C34: on a well-formed entry [NeedToUpdateSriov] is total and answers no
    exactly when the interface already is what the spec asks for: MTU at least
    the requested one, same eSwitch mode (the empty one is legacy), same VF count,
    link not down, and every VF that a group governs has the driver, MTU, GUID and
    vDPA type of that group.  A NIC that is managed externally is the exception:
    as soon as it has a VF in a group of kernel netdevices the answer is yes,
    even when nothing differs. *)
Theorem NeedToUpdateSriov_exact (spec : Interface) (status : InterfaceExt) (Hwf : wf_iface spec) :
  ∃ b, NeedToUpdateSriov spec status = Ok b ∧
    (b = false ↔
       (if_Mtu spec ≤ 0 ∨ if_Mtu spec ≤ ie_Mtu status) ∧
       same_mode (ie_EswitchMode status) (if_EswitchMode spec) ∧
       if_NumVfs spec = ie_NumVfs status ∧
       ie_LinkAdminState status ≠ LinkAdminStateDown ∧
       ∀ vf, vf ∈ ie_VFs status → ∀ g, governs (if_VfGroups spec) (vf_VfID vf) g →
         vf_in_sync status vf g ∧ ¬ always_updated spec g).
Proof.
  unfold NeedToUpdateSriov. setoid_rewrite <- eswitch_modes.
  destruct (vfsNeedUpdate_spec spec status (ie_VFs status) Hwf) as (b & Hb & Hspec).
  destruct Hwf as ([Hn _] & _). apply Z.ltb_lt in Hn. rewrite Hn, Hb.
  destruct ((0 <? if_Mtu spec) && (ie_Mtu status <? if_Mtu spec)) eqn:Em.
  { bool_hyps. exists true. split; [done|]. split; [done|]. lia. }
  destruct (String.eqb_spec (GetEswitchModeFromStatus status) (GetEswitchModeFromSpec spec));
    [|exists true; by split; [|split; [|intros (_ & ? & _)]]].
  destruct (Z.eqb_spec (if_NumVfs spec) (ie_NumVfs status));
    [|exists true; by split; [|split; [|intros (_ & _ & ? & _)]]].
  destruct (String.eqb_spec (ie_LinkAdminState status) LinkAdminStateDown);
    [exists true; by split; [|split; [|intros (_ & _ & _ & ? & _)]]|].
  exists b. split; [done|]. rewrite Hspec. apply andb_false_iff in Em.
  rewrite Z.ltb_ge, Z.ltb_ge in Em. tauto.
Qed.

Definition sample_iface : Interface :=
  {| if_PciAddress := "0000:01:00.0"; if_NumVfs := 8; if_Mtu := 1500; if_Name := "eth0";
     if_LinkType := ""; if_EswitchMode := "";
     if_VfGroups := [sample_group "0-3"]; if_ExternallyManaged := false |}.

(** The NIC once VF 0 is set up. *)
Definition sample_configured : InterfaceExt :=
  {| ie_Name := "eth0"; ie_Mac := ""; ie_Driver := ""; ie_PciAddress := "0000:01:00.0";
     ie_Vendor := "15b3"; ie_DeviceID := "1017"; ie_NetFilter := ""; ie_Mtu := 1500;
     ie_NumVfs := 8; ie_LinkSpeed := ""; ie_LinkType := "ETH"; ie_LinkAdminState := "up";
     ie_EswitchMode := "legacy"; ie_ExternallyManaged := false; ie_TotalVfs := 64;
     ie_VFs := [{| vf_Name := ""; vf_Mac := ""; vf_Assigned := ""; vf_Driver := "mlx5_core"; vf_PciAddress := "0000:01:00.2";
       vf_Vendor := ""; vf_DeviceID := ""; vf_Vlan := 0; vf_Mtu := 1500; vf_VfID := 0; vf_VdpaType := "";
       vf_RepresentorName := ""; vf_GUID := "" |}]; ie_AltNames := [] |}.

(** Before it is set up the answer is yes, and no afterwards; then VF 0 is in
    sync. *)
Lemma NeedToUpdateSriov_exact_witness :
  NeedToUpdateSriov sample_iface (sample_ifext "eth0" "0000:01:00.0") = Ok true ∧
  NeedToUpdateSriov sample_iface sample_configured = Ok false ∧
  ∀ vf, vf ∈ ie_VFs sample_configured → ∀ g, governs (if_VfGroups sample_iface) (vf_VfID vf) g →
    vf_in_sync sample_configured vf g.
Proof.
  split; [vm_compute; reflexivity|].
  destruct (NeedToUpdateSriov_exact sample_iface sample_configured) as (b & Hb & Hspec).
  - split; [unfold max_int64; simpl; lia|]. split; [done|]. split.
    + constructor; [|constructor]. exists 0, 3. split; [reflexivity|]. simpl; lia.
    + repeat constructor.
  - assert (b = false) as -> by (vm_compute in Hb; by injection Hb as <-).
    split; [exact Hb|]. intros vf Hvf g Hg. by apply (proj1 Hspec eq_refl).
Defined.
