(* ===== verification/Conditions.v ===== *)
(** * Status conditions

    The conditions of a node state (api/v1/helper.go and conditions.go), the
    vendored [meta.SetStatusCondition] they are written with, and the
    transition detection of pkg/status.  [now] stands for [time.Now()]. *)
From S2P Require Import Prelude GoLib Types.

(** ** Constants of conditions.go *)

Definition ConditionProgressing := "Progressing".
Definition ConditionReady := "Ready".
Definition ConditionDraining := "Draining".

Definition ReasonNodeReady := "NodeConfigurationReady".
Definition ReasonNotReady := "NotReady".
Definition ReasonApplyingConfiguration := "ApplyingConfiguration".
Definition ReasonWaitingForDrain := "WaitingForDrain".
Definition ReasonNotProgressing := "NotProgressing".
Definition ReasonDrainingNode := "DrainingNode".
Definition ReasonDrainCompleted := "DrainCompleted".
Definition ReasonDrainNotNeeded := "DrainNotNeeded".
Definition ReasonDrainPending := "DrainPending".
Definition ReasonDrainFailed := "DrainFailed".

Inductive DrainState :=
| DrainStateIdle
| DrainStatePending
| DrainStateDraining
| DrainStateDrainingWithErrors
| DrainStateComplete.

#[export] Instance DrainState_eq_dec : EqDecision DrainState.
Proof. solve_decision. Defined.

(** ** package meta *)

Definition FindStatusCondition (conditions : list Condition) (conditionType : string)
    : option Condition :=
  List.find (λ c, String.eqb (c_Type c) conditionType) conditions.

(** The update of an existing condition, field by field. *)
Definition updateCondition (now : Z) (old new : Condition) : Condition :=
  {| c_Type := c_Type old;
     c_Status := c_Status new;
     c_ObservedGeneration := c_ObservedGeneration new;
     c_LastTransitionTime :=
       if negb (String.eqb (c_Status old) (c_Status new)) then
         match c_LastTransitionTime new with
         | Some t => Some t
         | None => Some now
         end
       else c_LastTransitionTime old;
     c_Reason := c_Reason new;
     c_Message := c_Message new |}.

Definition stampCondition (now : Z) (c : Condition) : Condition :=
  match c_LastTransitionTime c with
  | Some _ => c
  | None => {| c_Type := c_Type c; c_Status := c_Status c;
               c_ObservedGeneration := c_ObservedGeneration c;
               c_LastTransitionTime := Some now;
               c_Reason := c_Reason c; c_Message := c_Message c |}
  end.

Fixpoint SetStatusCondition (now : Z) (conditions : list Condition) (new : Condition)
    : list Condition :=
  match conditions with
  | [] => [stampCondition now new]
  | c :: rest =>
      if String.eqb (c_Type c) (c_Type new) then updateCondition now c new :: rest
      else c :: SetStatusCondition now rest new
  end.

(** ** Conditions of a node state *)

Definition mkCond (type status reason message : string) (generation : Z) : Condition :=
  {| c_Type := type; c_Status := status; c_ObservedGeneration := generation;
     c_LastTransitionTime := None; c_Reason := reason; c_Message := message |}.

(** The Progressing and Ready conditions for a sync status; none for a value
    outside the three known ones. *)
Definition configurationConditions (generation : Z) (syncStatus failedMessage : string)
    (waitingForDrain : bool) : list Condition :=
  if String.eqb syncStatus SyncStatusInProgress then
    let message :=
      if String.eqb failedMessage "" then
        if waitingForDrain then "Waiting for node drain before applying configuration"
        else "Node configuration is in progress"
      else if waitingForDrain then
        "Waiting for node drain before retrying configuration: " +:+ failedMessage
      else "Retrying after previous failure: " +:+ failedMessage in
    let reason := if waitingForDrain then ReasonWaitingForDrain else ReasonApplyingConfiguration in
    let readyReason := if waitingForDrain then ReasonWaitingForDrain else ReasonNotReady in
    [mkCond ConditionProgressing ConditionTrue reason message generation;
     mkCond ConditionReady ConditionFalse readyReason message generation]
  else if String.eqb syncStatus SyncStatusSucceeded then
    [mkCond ConditionProgressing ConditionFalse ReasonNotProgressing
       "Node configuration completed successfully" generation;
     mkCond ConditionReady ConditionTrue ReasonNodeReady "Node configuration is ready" generation]
  else if String.eqb syncStatus SyncStatusFailed then
    let message :=
      if String.eqb failedMessage "" then "Node configuration failed"
      else "Node configuration failed: " +:+ failedMessage in
    [mkCond ConditionProgressing ConditionFalse ReasonNotProgressing
       "Configuration attempt completed with failure" generation;
     mkCond ConditionReady ConditionFalse ReasonNotReady message generation]
  else [].

Definition SetNodeStateConfigurationConditions (now : Z) (s : SriovNetworkNodeState)
    (syncStatus failedMessage : string) (waitingForDrain : bool) : SriovNetworkNodeState :=
  ns_set_status
    (nst_set_conditions
       (foldl (SetStatusCondition now) (nst_Conditions (ns_Status s))
          (configurationConditions (ns_Generation s) syncStatus failedMessage waitingForDrain))
       (ns_Status s)) s.

Definition drainCondition (generation : Z) (state : DrainState) (errorMessage : string) : Condition :=
  match state with
  | DrainStateIdle =>
      mkCond ConditionDraining ConditionFalse ReasonDrainNotNeeded
        "No drain operation in progress" generation
  | DrainStatePending =>
      mkCond ConditionDraining ConditionTrue ReasonDrainPending
        (if String.eqb errorMessage "" then "Waiting for an available drain slot" else errorMessage)
        generation
  | DrainStateDraining =>
      mkCond ConditionDraining ConditionTrue ReasonDrainingNode "Node drain is in progress" generation
  | DrainStateDrainingWithErrors =>
      mkCond ConditionDraining ConditionTrue ReasonDrainFailed
        (if String.eqb errorMessage "" then "Node drain encountered errors"
         else "Node drain encountered errors: " +:+ errorMessage) generation
  | DrainStateComplete =>
      mkCond ConditionDraining ConditionFalse ReasonDrainCompleted
        "Drain operation completed successfully" generation
  end.

Definition SetNodeStateDrainConditions (now : Z) (s : SriovNetworkNodeState)
    (state : DrainState) (errorMessage : string) : SriovNetworkNodeState :=
  ns_set_status
    (nst_set_conditions
       (SetStatusCondition now (nst_Conditions (ns_Status s))
          (drainCondition (ns_Generation s) state errorMessage))
       (ns_Status s)) s.

(** ** Comparing condition lists *)

(** Equality of two conditions but for the transition time. *)
Definition sameCondition (a b : Condition) : bool :=
  String.eqb (c_Status a) (c_Status b) && String.eqb (c_Reason a) (c_Reason b) &&
  String.eqb (c_Message a) (c_Message b) &&
  (c_ObservedGeneration a =? c_ObservedGeneration b).

(** [m := make(map[string]Condition); for _, c := range l { m[c.Type] = c }]. *)
Definition conditionMap (l : list Condition) : gmap string Condition :=
  foldl (λ m c, <[c_Type c := c]> m) ∅ l.

Definition ConditionsEqual (a b : list Condition) : bool :=
  if negb (bool_decide (length a = length b)) then false
  else forallb (λ bc, match conditionMap a !! c_Type bc with
                      | None => false
                      | Some ac => sameCondition ac bc
                      end) b.

Inductive TransitionType := TransitionAdded | TransitionChanged | TransitionRemoved.

Record Transition := mkTransition {
  t_Type : TransitionType;
  t_ConditionType : string;
  t_OldStatus : string;
  t_NewStatus : string;
  t_Reason : string;
  t_Message : string;
}.

(** The loop over the new conditions: the map shrinks as they are met. *)
Fixpoint detect_go (oldMap : gmap string Condition) (newConditions : list Condition)
    : list Transition * gmap string Condition :=
  match newConditions with
  | [] => ([], oldMap)
  | nc :: rest =>
      let here :=
        match oldMap !! c_Type nc with
        | None => [mkTransition TransitionAdded (c_Type nc) "" (c_Status nc) (c_Reason nc) (c_Message nc)]
        | Some oc =>
            if sameCondition oc nc then []
            else [mkTransition TransitionChanged (c_Type nc) (c_Status oc) (c_Status nc)
                    (c_Reason nc) (c_Message nc)]
        end in
      let '(ts, m) := detect_go (delete (c_Type nc) oldMap) rest in
      (here ++ ts, m)
  end.

(** [DetectTransitions]; the removed conditions come in the map's order, which
    Go leaves open. *)
Definition DetectTransitions (oldConditions newConditions : list Condition) : list Transition :=
  let '(ts, rest) := detect_go (conditionMap oldConditions) newConditions in
  ts ++ ((λ '(_, oc), mkTransition TransitionRemoved (c_Type oc) (c_Status oc) "" "" "")
           <$> map_to_list rest).

Definition HasTransitions (oldConditions newConditions : list Condition) : bool :=
  negb (bool_decide (DetectTransitions oldConditions newConditions = [])).

(** [Transition.EventReason]. *)
Definition EventReason (t : Transition) : string :=
  t_ConditionType t +:+
  match t_Type t with
  | TransitionAdded => "Added"
  | TransitionChanged => "Changed"
  | TransitionRemoved => "Removed"
  end.

(** The condition entries the config daemon owns (pkg/daemon/status.go). *)
Definition configurationOwnedConditions (conditions : list Condition) : list Condition :=
  option_list (FindStatusCondition conditions ConditionProgressing) ++
  option_list (FindStatusCondition conditions ConditionReady).

(** Keep the old transition time of a condition whose status did not change
    (the first loop of [ApplyCondition] and [ApplyStatus]). *)
Definition preserveTransitionTimes (oldConditions conditions : list Condition) : list Condition :=
  (λ c, match conditionMap oldConditions !! c_Type c with
        | Some old =>
            if String.eqb (c_Status old) (c_Status c) then
              {| c_Type := c_Type c; c_Status := c_Status c;
                 c_ObservedGeneration := c_ObservedGeneration c;
                 c_LastTransitionTime := c_LastTransitionTime old;
                 c_Reason := c_Reason c; c_Message := c_Message c |}
            else c
        | None => c
        end) <$> conditions.

(** ** Lemmas *)

Lemma find_set_same now l n :
  FindStatusCondition (SetStatusCondition now l n) (c_Type n) =
  Some (match FindStatusCondition l (c_Type n) with
        | Some old => updateCondition now old n
        | None => stampCondition now n
        end).
Proof.
  unfold FindStatusCondition. induction l as [|c l IH]; simpl.
  - unfold stampCondition. destruct (c_LastTransitionTime n); simpl; by rewrite String.eqb_refl.
  - destruct (String.eqb (c_Type c) (c_Type n)) eqn:E; simpl; rewrite E; [done|]. apply IH.
Qed.

Lemma find_set_other now l n t :
  t ≠ c_Type n →
  FindStatusCondition (SetStatusCondition now l n) t = FindStatusCondition l t.
Proof.
  unfold FindStatusCondition. intros Ht. induction l as [|c l IH]; simpl.
  - unfold stampCondition.
    destruct (c_LastTransitionTime n); simpl;
      destruct (String.eqb_spec (c_Type n) t); congruence.
  - destruct (String.eqb_spec (c_Type c) (c_Type n)) as [E|E]; simpl; [|by rewrite IH].
    destruct (String.eqb_spec (c_Type c) t); congruence.
Qed.

Lemma set_types now l n :
  c_Type <$> SetStatusCondition now l n =
  (c_Type <$> l) ++ (if bool_decide (c_Type n ∈ c_Type <$> l) then [] else [c_Type n]).
Proof.
  induction l as [|c l IH]; cbn [SetStatusCondition].
  - unfold stampCondition. by destruct (c_LastTransitionTime n).
  - destruct (String.eqb_spec (c_Type c) (c_Type n)) as [E|E]; rewrite !fmap_cons.
    + rewrite bool_decide_eq_true_2 by (rewrite E; left). by rewrite app_nil_r.
    + rewrite IH. simpl. f_equal. f_equal. erewrite bool_decide_ext; [done|]. set_solver.
Qed.

Lemma set_NoDup now l n :
  NoDup (c_Type <$> l) → NoDup (c_Type <$> SetStatusCondition now l n).
Proof.
  intros H. rewrite set_types. case_bool_decide; [by rewrite app_nil_r|].
  apply NoDup_app. split_and!; [done|set_solver|apply NoDup_singleton].
Qed.

Lemma find_elem l t c : FindStatusCondition l t = Some c → c ∈ l ∧ c_Type c = t.
Proof.
  intros H. apply List.find_some in H as [H E]. apply String.eqb_eq in E.
  by apply list_elem_of_In in H.
Qed.

Lemma conditionMap_find l t :
  NoDup (c_Type <$> l) → conditionMap l !! t = FindStatusCondition l t.
Proof.
  unfold conditionMap. intros Hnd.
  assert (H : ∀ m : gmap string Condition, foldl (λ m c, <[c_Type c := c]> m) m l !! t =
    match FindStatusCondition l t with Some c => Some c | None => m !! t end).
  { unfold FindStatusCondition. induction l as [|c l IH]; simpl; intros m; [done|].
    apply NoDup_cons in Hnd as [Hc Hnd]. rewrite IH by done.
    destruct (String.eqb_spec (c_Type c) t) as [E|E].
    - destruct (List.find _ l) as [d|] eqn:F; [|by rewrite E, lookup_insert_eq].
      apply find_elem in F as [Hd Ed]. exfalso. apply Hc. rewrite E, <- Ed.
      by apply list_elem_of_fmap_2.
    - destruct (List.find _ l); [done|]. by rewrite lookup_insert_ne. }
  rewrite H, lookup_empty. by destruct (FindStatusCondition l t).
Qed.

Lemma find_some_in l t : is_Some (FindStatusCondition l t) ↔ t ∈ c_Type <$> l.
Proof.
  rewrite list_elem_of_fmap. split.
  - intros [c (H & E)%find_elem]. eauto.
  - intros (c & E & H). destruct (FindStatusCondition l t) eqn:F; [eauto|].
    exfalso. apply list_elem_of_In in H. apply (List.find_none _ _ F) in H.
    subst. by rewrite String.eqb_refl in H.
Qed.

(** The transition loop: silent exactly when every new condition was there
    with the same content, and the leftovers are the types not mentioned. *)
Lemma detect_go_spec m new :
  NoDup (c_Type <$> new) →
  (fst (detect_go m new) = [] ↔
     ∀ nc, nc ∈ new → ∃ oc, m !! c_Type nc = Some oc ∧ sameCondition oc nc = true) ∧
  ∀ t, snd (detect_go m new) !! t = if bool_decide (t ∈ c_Type <$> new) then None else m !! t.
Proof.
  revert m. induction new as [|nc new IH]; intros m Hnd; cbn [detect_go].
  - split; [cbn; set_solver|]. intros t. by rewrite bool_decide_eq_false_2 by set_solver.
  - apply NoDup_cons in Hnd as [Hnc Hnd].
    specialize (IH (delete (c_Type nc) m) Hnd) as [IH1 IH2].
    destruct (detect_go (delete (c_Type nc) m) new) as [ts m'] eqn:E. cbn [fst snd] in *.
    split.
    + assert (Hd : ∀ c, c ∈ new → delete (c_Type nc) m !! c_Type c = m !! c_Type c).
      { intros c Hc. apply lookup_delete_ne. intros Heq. apply Hnc. rewrite Heq.
        by apply list_elem_of_fmap_2. }
      assert (IH1' : ts = [] ↔
        ∀ c, c ∈ new → ∃ oc, m !! c_Type c = Some oc ∧ sameCondition oc c = true).
      { rewrite IH1. split; intros H c Hc; destruct (H c Hc) as (oc & Ho & Hs);
          exists oc; (rewrite Hd in * by done); done. }
      setoid_rewrite elem_of_cons. destruct (m !! c_Type nc) as [oc|] eqn:Hm.
      * destruct (sameCondition oc nc) eqn:Hs; simpl.
        -- rewrite IH1'. naive_solver.
        -- split; [done|]. intros H. destruct (H nc) as (oc' & ? & ?); [by left|]. congruence.
      * simpl. split; [done|]. intros H. destruct (H nc) as (oc' & ? & ?); [by left|]. congruence.
    + intros t. rewrite IH2. destruct (decide (t = c_Type nc)) as [->|Hne].
      * rewrite lookup_delete_eq. case_bool_decide; rewrite bool_decide_eq_true_2 by left; done.
      * rewrite lookup_delete_ne by done. erewrite bool_decide_ext; [done|]. set_solver.
Qed.

Lemma HasTransitions_false old new :
  NoDup (c_Type <$> old) → NoDup (c_Type <$> new) →
  HasTransitions old new = false ↔
    (∀ t, t ∈ c_Type <$> old → t ∈ c_Type <$> new) ∧
    ∀ nc, nc ∈ new → ∃ oc, FindStatusCondition old (c_Type nc) = Some oc ∧
      sameCondition oc nc = true.
Proof.
  intros Ho Hn. unfold HasTransitions, DetectTransitions.
  destruct (detect_go_spec (conditionMap old) new Hn) as [H1 H2].
  destruct (detect_go (conditionMap old) new) as [ts rest]. simpl in *.
  rewrite negb_false_iff, bool_decide_eq_true, app_nil, H1.
  setoid_rewrite (conditionMap_find old); [|done]. setoid_rewrite (conditionMap_find old) in H2; [|done].
  split; intros [Ha Hb].
  - split; [|done]. apply fmap_nil_inv, map_to_list_empty_iff in Hb as ->.
    intros t [c Hc]%find_some_in. specialize (H2 t). rewrite lookup_empty, Hc in H2.
    case_bool_decide; done.
  - split; [done|]. assert (rest = ∅) as ->; [|by rewrite map_to_list_empty].
    apply map_eq. intros t. rewrite H2, lookup_empty.
    case_bool_decide as Hin; [done|]. destruct (FindStatusCondition old t) eqn:F; [|done].
    exfalso. apply Hin, Ha, find_some_in. rewrite F. eauto.
Qed.

Lemma NoDup_subset_length {A} (a b : list A) :
  NoDup a → NoDup b → (∀ x, x ∈ b → x ∈ a) →
  length a = length b ↔ (∀ x, x ∈ a → x ∈ b).
Proof.
  intros Ha Hb Hsub. split.
  - intros Hlen x Hx. assert (Hp : b ⊆+ a) by (by apply NoDup_submseteq).
    apply submseteq_length_Permutation in Hp; [by rewrite Hp|lia].
  - intros Hsub'. apply Nat.le_antisymm; apply submseteq_length; by apply NoDup_submseteq.
Qed.

(** [ConditionsEqual] and [HasTransitions] are two implementations of the
    same test: on condition lists with one entry per type (which every list
    written by [SetStatusCondition] is), the controllers skip a status update
    exactly when no event would have been emitted for it. *)
Theorem ConditionsEqual_no_transitions (a b : list Condition)
    (Ha : NoDup (c_Type <$> a)) (Hb : NoDup (c_Type <$> b)) :
  ConditionsEqual a b = negb (HasTransitions a b).
Proof.
  apply eq_true_iff_eq. rewrite negb_true_iff, HasTransitions_false by done.
  assert (Hall : forallb (λ bc, match conditionMap a !! c_Type bc with
                                | None => false | Some ac => sameCondition ac bc end) b = true ↔
    ∀ nc, nc ∈ b → ∃ oc, FindStatusCondition a (c_Type nc) = Some oc ∧ sameCondition oc nc = true).
  { rewrite forallb_elem. split; intros H nc Hnc; specialize (H nc Hnc);
      rewrite conditionMap_find in * by done;
      destruct (FindStatusCondition a (c_Type nc)) eqn:F; naive_solver. }
  unfold ConditionsEqual.
  rewrite <- Hall. case_bool_decide as Hlen; cbn [negb].
  - split; [intros H; split; [|done]|by intros [_ ?]].
    apply NoDup_subset_length; [done..| |by rewrite !length_fmap].
    pose proof (proj1 Hall H) as H'. intros t (nc & -> & (oc & F & _)%H')%list_elem_of_fmap.
    apply find_some_in. eauto.
  - split; [done|]. intros [Hsub H]. exfalso. apply Hlen.
    rewrite <- (length_fmap c_Type a), <- (length_fmap c_Type b).
    pose proof (proj1 Hall H) as H'. apply NoDup_subset_length; [done..| |done].
    intros t (nc & -> & (oc & F & _)%H')%list_elem_of_fmap.
    apply find_some_in. eauto.
Qed.

Definition sample_conditions : list Condition :=
  configurationConditions 3 SyncStatusInProgress "" false.

Lemma ConditionsEqual_no_transitions_witness :
  NoDup (c_Type <$> sample_conditions) ∧
  ConditionsEqual sample_conditions (configurationConditions 3 SyncStatusSucceeded "" false) =
    negb (HasTransitions sample_conditions (configurationConditions 3 SyncStatusSucceeded "" false)).
Proof.
  assert (H : ∀ l, bool_decide (NoDup (c_Type <$> l)) = true → NoDup (c_Type <$> l)).
  { intros l. apply bool_decide_eq_true. }
  split; [by apply H|]. apply ConditionsEqual_no_transitions; apply H; reflexivity.
Defined.

(** The value of a condition list at a type: status, reason and the
    generation it was observed at. *)
Definition statusOf (cs : list Condition) (t : string) : option string :=
  c_Status <$> FindStatusCondition cs t.

Lemma statusOf_set_same now l n : statusOf (SetStatusCondition now l n) (c_Type n) = Some (c_Status n).
Proof.
  unfold statusOf. rewrite find_set_same. destruct (FindStatusCondition l (c_Type n)); [done|].
  unfold stampCondition. by destruct (c_LastTransitionTime n).
Qed.

Lemma statusOf_set_other now l n t :
  t ≠ c_Type n → statusOf (SetStatusCondition now l n) t = statusOf l t.
Proof. intros. unfold statusOf. by rewrite find_set_other. Qed.

Lemma configurationConditions_shape g st msg w :
  st ∈ [SyncStatusInProgress; SyncStatusSucceeded; SyncStatusFailed] →
  ∃ p r, configurationConditions g st msg w = [p; r] ∧
    c_Type p = ConditionProgressing ∧ c_Type r = ConditionReady ∧
    c_Status p = (if String.eqb st SyncStatusInProgress then ConditionTrue else ConditionFalse) ∧
    c_Status r = (if String.eqb st SyncStatusSucceeded then ConditionTrue else ConditionFalse) ∧
    c_ObservedGeneration p = g ∧ c_ObservedGeneration r = g.
Proof.
  rewrite !elem_of_cons, elem_of_nil.
  intros [->|[->|[->|[]]]]; do 2 eexists; (split; [reflexivity|done]).
Qed.

(** After [SetNodeStateConfigurationConditions] with one of the three sync
    statuses, Progressing is True exactly for InProgress and Ready exactly
    for Succeeded (so they are never both True), no other condition type --
    Draining in particular -- is touched, and types stay unique. *)
Theorem SetNodeStateConfigurationConditions_spec (now : Z) (s : SriovNetworkNodeState)
    (st msg : string) (w : bool)
    (Hst : st ∈ [SyncStatusInProgress; SyncStatusSucceeded; SyncStatusFailed])
    (Hnd : NoDup (c_Type <$> nst_Conditions (ns_Status s))) :
  let cs := nst_Conditions (ns_Status (SetNodeStateConfigurationConditions now s st msg w)) in
  statusOf cs ConditionProgressing =
    Some (if String.eqb st SyncStatusInProgress then ConditionTrue else ConditionFalse) ∧
  statusOf cs ConditionReady =
    Some (if String.eqb st SyncStatusSucceeded then ConditionTrue else ConditionFalse) ∧
  (∀ t, t ≠ ConditionProgressing → t ≠ ConditionReady →
     FindStatusCondition cs t = FindStatusCondition (nst_Conditions (ns_Status s)) t) ∧
  NoDup (c_Type <$> cs).
Proof.
  cbn zeta. unfold SetNodeStateConfigurationConditions. cbn [ns_Status ns_set_status nst_set_conditions nst_Conditions].
  destruct (configurationConditions_shape (ns_Generation s) st msg w Hst)
    as (p & r & -> & Hp & Hr & Hps & Hrs & _ & _). cbn [foldl].
  split_and!.
  - rewrite statusOf_set_other by (by rewrite Hr). by rewrite <- Hp, statusOf_set_same, Hps.
  - by rewrite <- Hr, statusOf_set_same, Hrs.
  - intros t H1 H2. rewrite !find_set_other; congruence.
  - by repeat apply set_NoDup.
Qed.

Definition sample_cond_state : SriovNetworkNodeState :=
  mkNodeState (mkObjectMeta "node-1" "ns" 4 ∅ ∅ [])
    (mkNodeStateSpec [] (mkBridges []) (mkSystem "" ∅))
    (mkNodeStateStatus [] (mkBridges []) (mkSystem "" ∅) SyncStatusInProgress ""
       [drainCondition 3 DrainStateDraining ""]).

Lemma SetNodeStateConfigurationConditions_spec_witness :
  statusOf (nst_Conditions (ns_Status
    (SetNodeStateConfigurationConditions 7 sample_cond_state SyncStatusSucceeded "" false)))
    ConditionReady = Some ConditionTrue.
Proof.
  apply (SetNodeStateConfigurationConditions_spec 7 sample_cond_state SyncStatusSucceeded "" false);
    [set_solver|apply NoDup_singleton].
Defined.

(** [SetNodeStateDrainConditions] writes only the Draining condition: it is
    True exactly while a drain is pending, running or failing, it carries the
    node state's generation, its transition time moves only when its status
    flips, and every other condition is left as it was. *)
Theorem SetNodeStateDrainConditions_spec (now : Z) (s : SriovNetworkNodeState)
    (state : DrainState) (msg : string) :
  let old := nst_Conditions (ns_Status s) in
  let cs := nst_Conditions (ns_Status (SetNodeStateDrainConditions now s state msg)) in
  (∀ t, t ≠ ConditionDraining → FindStatusCondition cs t = FindStatusCondition old t) ∧
  ∃ c, FindStatusCondition cs ConditionDraining = Some c ∧
    c_ObservedGeneration c = ns_Generation s ∧
    (c_Status c = ConditionTrue ↔
       state ∈ [DrainStatePending; DrainStateDraining; DrainStateDrainingWithErrors]) ∧
    ∀ o, FindStatusCondition old ConditionDraining = Some o →
      c_LastTransitionTime c =
        if String.eqb (c_Status o) (c_Status c) then c_LastTransitionTime o else Some now.
Proof.
  cbn zeta. unfold SetNodeStateDrainConditions.
  cbn [ns_Status ns_set_status nst_set_conditions nst_Conditions].
  set (n := drainCondition (ns_Generation s) state msg).
  assert (Hn : c_Type n = ConditionDraining ∧ c_ObservedGeneration n = ns_Generation s ∧
    c_LastTransitionTime n = None ∧
    (c_Status n = ConditionTrue ↔
       state ∈ [DrainStatePending; DrainStateDraining; DrainStateDrainingWithErrors])).
  { subst n. destruct state; (split_and!; [done..|]); rewrite !elem_of_cons, elem_of_nil;
      (split; [naive_solver|]); naive_solver. }
  destruct Hn as (Ht & Hg & Hl & Hs). split.
  - intros t H. apply find_set_other. congruence.
  - eexists. rewrite <- Ht, find_set_same. split; [done|].
    destruct (FindStatusCondition (nst_Conditions (ns_Status s)) (c_Type n)) as [o|]; cbn.
    + split_and!; [done..|]. intros o' [= <-]. rewrite Hl. by destruct (String.eqb _ _).
    + unfold stampCondition. rewrite Hl. cbn. by split_and!.
Qed.
