(* ===== verification/PoolConfig.v ===== *)
(** * Node pools and node state housekeeping (api/v1/helper.go)

    How many nodes of a pool may be drained at once
    ([SriovNetworkPoolConfig.MaxUnavailable]), the keep-until annotation of a
    node state, and the owner reference string. *)
From S2P Require Import Prelude GoLib Types.

(** ** MaxUnavailable *)

Inductive MaxUnavailableError :=
| ErrInvalidValue (s : string) (e : NumError)
| ErrPercentageRange
| ErrNotPercentage
| ErrNegative.

#[export] Instance MaxUnavailableError_eq_dec : EqDecision MaxUnavailableError.
Proof. solve_decision. Defined.

(** [getIntOrPercentValueSafely] of the vendored package intstr: the value and
    whether it is a percentage. *)
Definition getIntOrPercentValueSafely (v : IntOrString)
    : result MaxUnavailableError (Z * bool) :=
  match v with
  | IntVal n => Ok (n, false)
  | StrVal s =>
      if HasSuffixByte s "%" then
        match Atoi (TrimSuffixByte s "%") with
        | (n, None) => Ok (n, true)
        | (_, Some e) => Err (ErrInvalidValue s e)
        end
      else Err ErrNotPercentage
  end.

(** [intstr.GetScaledValueFromIntOrPercent(v, total, false)].  The source
    computes [math.Floor(float64(value) * float64(total) / 100)]; for a
    percentage of at most 100 of fewer than 2^46 nodes the product is exact
    and the quotient's rounding error is below 1/200, so the floor is the
    integer one. *)
Definition GetScaledValueFromIntOrPercent (v : IntOrString) (total : Z)
    : result MaxUnavailableError Z :=
  '(value, isPercent) ← getIntOrPercentValueSafely v;
  Ok (if isPercent : bool then (value * total) / 100 else value).

(** The string checks at the start of [MaxUnavailable]. *)
Definition checkPercentage (v : IntOrString) : result MaxUnavailableError unit :=
  match v with
  | IntVal _ => Ok tt
  | StrVal s =>
      if HasSuffixByte s "%" then
        match Atoi (TrimSuffixByte s "%") with
        | (_, Some e) => Err (ErrInvalidValue s e)
        | (n, None) => if (n >? 100) || (n <? 1) then Err ErrPercentageRange else Ok tt
        end
      else Err ErrNotPercentage
  end.

Definition MaxUnavailable (s : SriovNetworkPoolConfig) (numOfNodes : Z)
    : result MaxUnavailableError Z :=
  match pcs_MaxUnavailable (pc_Spec s) with
  | None => Ok (-1)
  | Some intOrPercent =>
      checkPercentage intOrPercent;;
      maxunavail ← GetScaledValueFromIntOrPercent intOrPercent numOfNodes;
      if maxunavail <? 0 then Err ErrNegative else Ok maxunavail
  end.

(** ** The keep-until annotation

    [Format] and [Parse] stand for [time.Time.Format(time.RFC3339)] and
    [time.Parse(time.RFC3339, _)], whose text depends on the local time zone. *)
Section KeepUntil.
Context (Format : Z → string) (Parse : string → option Z).

Definition SetKeepUntilTime (t : Z) (s : SriovNetworkNodeState) : SriovNetworkNodeState :=
  ns_set_meta (set_Annotations (<[NodeStateKeepUntilAnnotation := Format t]> (ns_Annotations s))
                 (ns_meta s)) s.

(** The zero time when the annotation is missing (the empty string is
    parsed) or ill-formed. *)
Definition GetKeepUntilTime (s : SriovNetworkNodeState) : Time :=
  Parse (default "" (ns_Annotations s !! NodeStateKeepUntilAnnotation)).

Definition ResetKeepUntilTime (s : SriovNetworkNodeState) : SriovNetworkNodeState * bool :=
  match ns_Annotations s !! NodeStateKeepUntilAnnotation with
  | None => (s, false)
  | Some _ =>
      (ns_set_meta (set_Annotations (delete NodeStateKeepUntilAnnotation (ns_Annotations s))
                      (ns_meta s)) s, true)
  end.
End KeepUntil.

(** ** OVS options (pkg/utils/utils.go) *)

Definition is_alnum (a : ascii) : bool :=
  let n := N_of_ascii a in
  ((48 <=? n) && (n <=? 57) || (65 <=? n) && (n <=? 90) || (97 <=? n) && (n <=? 122))%N.

(** The class [[a-zA-Z0-9_-]] of the two regular expressions for names. *)
Definition is_name_byte (a : ascii) : bool :=
  is_alnum a || Ascii.eqb a "_" || Ascii.eqb a "-".

(** [^[a-zA-Z0-9_-]+$] *)
Definition ovsKeyRegexp (s : string) : bool :=
  negb (String.eqb s "") && forallb is_name_byte (String.list_ascii_of_string s).

(** [None] is a nil error; Go ranges over the map in any order, so which of
    several bad entries is reported is open: [map_to_list] picks one order. *)
Definition ValidateOvsConfig (ovsConfig : gmap string string) : option string :=
  fst <$> List.find (λ kv, negb (ovsKeyRegexp kv.1) || ContainsByte "'" kv.2)
            (map_to_list ovsConfig).

(** ** Owner references *)

(** The group and kind of an object; [GroupKind.String] prints [kind.group]. *)
Record GroupVersionKind := mkGVK { gvk_Group : string; gvk_Version : string; gvk_Kind : string }.

Definition gvk_Empty (g : GroupVersionKind) : bool :=
  String.eqb (gvk_Group g) "" && String.eqb (gvk_Version g) "" && String.eqb (gvk_Kind g) "".

Definition GroupKind_String (g : GroupVersionKind) : string :=
  if String.eqb (gvk_Group g) "" then gvk_Kind g
  else gvk_Kind g +:+ "." +:+ gvk_Group g.

Definition OwnerRefToString (cr : option (GroupVersionKind * ObjectMeta)) : string :=
  match cr with
  | None => "owner-object-not-found"
  | Some (g, m) =>
      if gvk_Empty g then "unknown/" +:+ om_Namespace m +:+ "/" +:+ om_Name m
      else GroupKind_String g +:+ "/" +:+ om_Namespace m +:+ "/" +:+ om_Name m
  end.

(** ** Lemmas and properties *)

(** The percentages [MaxUnavailable] accepts, and what it makes of one. *)
Lemma checkPercentage_str s u :
  checkPercentage (StrVal s) = Ok u →
  HasSuffixByte s "%" = true ∧
  ∃ v, Atoi (TrimSuffixByte s "%") = (v, None) ∧ 1 ≤ v ≤ 100.
Proof.
  unfold checkPercentage. intros H. destruct (HasSuffixByte s "%"); [|done].
  destruct (Atoi (TrimSuffixByte s "%")) as [v [e|]]; [done|].
  destruct ((v >? 100) || (v <? 1)) eqn:E; [done|]. split; [done|].
  exists v. split; [done|]. rewrite Z.gtb_ltb in E. bool_hyps. lia.
Qed.

Lemma scaled_bounds v n : 1 ≤ v ≤ 100 → 0 ≤ n → 0 ≤ v * n / 100 ≤ n.
Proof.
  intros. split; [apply Z.div_pos; nia|].
  apply Z.div_le_upper_bound; nia.
Qed.

(** What [MaxUnavailable] answers for a pool of [n] nodes: -1 (no limit)
    when the field is unset; a non-negative integer as it is; a percentage
    between 1 and 100 its share of the pool rounded down, never more than the
    pool, and zero -- no node at all -- exactly when the share is below one
    node.  Everything else is an error. *)
Theorem MaxUnavailable_spec (pc : SriovNetworkPoolConfig) (n m : Z) (Hn : 0 ≤ n) :
  MaxUnavailable pc n = Ok m ↔
  match pcs_MaxUnavailable (pc_Spec pc) with
  | None => m = -1
  | Some (IntVal k) => 0 ≤ k ∧ m = k
  | Some (StrVal s) =>
      HasSuffixByte s "%" = true ∧
      ∃ v, Atoi (TrimSuffixByte s "%") = (v, None) ∧ 1 ≤ v ≤ 100 ∧
        m = v * n / 100 ∧ 0 ≤ m ≤ n ∧ (m = 0 ↔ v * n < 100)
  end.
Proof.
  unfold MaxUnavailable. destruct (pcs_MaxUnavailable (pc_Spec pc)) as [[k|s]|]; [..|naive_solver].
  - cbn. destruct (k <? 0) eqn:E; bool_hyps; (split; [intros [= <-] || done|]); naive_solver lia.
  - split.
    + intros H. destruct (checkPercentage (StrVal s)) as [u|e|] eqn:C; [|done..].
      apply checkPercentage_str in C as (Hs & v & Hv & Hb). split; [done|]. exists v.
      cbn in H. rewrite Hs, Hv in H. cbn in H.
      pose proof (scaled_bounds v n Hb Hn). split_and!; [done|lia..| | | |].
      all: destruct (v * n / 100 <? 0) eqn:E; [done|]; injection H as <-; try lia.
      rewrite Z.div_small_iff by lia. nia.
    + intros (Hs & v & Hv & Hb & -> & Hm & _).
      unfold GetScaledValueFromIntOrPercent, getIntOrPercentValueSafely, checkPercentage.
      rewrite Hs, Hv, Z.gtb_ltb, !(proj2 (Z.ltb_ge _ _)) by lia.
      cbn [mbind result_bind orb]. by rewrite (proj2 (Z.ltb_ge _ _)) by lia.
Qed.

Definition percent_pool (s : string) : SriovNetworkPoolConfig :=
  mkPoolConfig (mkObjectMeta "pool" "ns" 1 ∅ ∅ [])
    (mkPoolConfigSpec (mkOvsHardwareOffloadConfig "" ∅) None (Some (StrVal s)) "").

Lemma MaxUnavailable_spec_witness :
  MaxUnavailable (percent_pool "10%") 9 = Ok 0 ∧
  MaxUnavailable (percent_pool "50%") 9 = Ok 4.
Proof.
  split; apply MaxUnavailable_spec; try lia; (split; [reflexivity|]).
  - exists 10. repeat split; try reflexivity; lia.
  - exists 50. repeat split; try reflexivity; lia.
Defined.

(** The keep-until time survives the annotation: what [SetKeepUntilTime]
    stores [GetKeepUntilTime] reads back, [ResetKeepUntilTime] reports whether
    there was one and leaves none, and the other annotations are untouched;
    provided the RFC 3339 text of that time parses back to it and the empty
    string is not a time. *)
Theorem KeepUntilTime_roundtrip (Format : Z → string) (Parse : string → option Z)
    (t : Z) (s : SriovNetworkNodeState)
    (HFP : Parse (Format t) = Some t) (Hempty : Parse "" = None) :
  let s1 := SetKeepUntilTime Format t s in
  GetKeepUntilTime Parse s1 = Some t ∧
  snd (ResetKeepUntilTime s1) = true ∧
  GetKeepUntilTime Parse (fst (ResetKeepUntilTime s1)) = None ∧
  (snd (ResetKeepUntilTime s) = false → GetKeepUntilTime Parse s = None) ∧
  ∀ k, k ≠ NodeStateKeepUntilAnnotation →
    ns_Annotations (fst (ResetKeepUntilTime s1)) !! k = ns_Annotations s !! k.
Proof.
  cbn zeta. unfold GetKeepUntilTime, ResetKeepUntilTime, SetKeepUntilTime.
  cbn [ns_meta ns_set_meta set_Annotations om_Annotations].
  rewrite lookup_insert_eq. cbn. rewrite lookup_delete_eq. cbn. split_and!; [by rewrite HFP|done..| |].
  - destruct (om_Annotations (ns_meta s) !! _); done.
  - intros k Hk. by rewrite lookup_delete_ne, lookup_insert_ne.
Qed.

Lemma KeepUntilTime_roundtrip_witness :
  GetKeepUntilTime (λ s, match Atoi s with (t, None) => Some t | _ => None end)
    (SetKeepUntilTime Itoa 1700000000
       (mkNodeState (mkObjectMeta "n" "ns" 1 ∅ ∅ []) (mkNodeStateSpec [] (mkBridges []) (mkSystem "" ∅))
          (mkNodeStateStatus [] (mkBridges []) (mkSystem "" ∅) "" "" []))) = Some 1700000000.
Proof.
  refine (proj1 (KeepUntilTime_roundtrip Itoa _ 1700000000 _ _ _)); vm_compute; reflexivity.
Defined.
