(* ===== verification/Webhook.v ===== *)
(** * The admission webhook (pkg/webhook/validate.go, validate_networks.go)

    What the webhook admits: the static checks of a policy, the checks against
    the nodes' states and against the other policies, and the checks of the
    pool and operator configuration.

    The Go functions return [(bool, error)] and answer [false] with every
    error, so they are functions to [result WebhookError bool].  The answers of
    the API server ([Get], [List]) are arguments.

    The flags [nodesSelected] and [interfaceSelected] are package variables,
    which every review resets, sets and, at its end, reads; the server runs
    reviews concurrently.  A review threads its own writes, and [others] is
    what the reviews running at the same time make of the flags before it reads
    them: the identity when there are none. *)
From S2P Require Import Prelude GoLib Types VfRange Selector Policy PoolConfig.

Inductive Operation := Create | Update | Delete | Connect.

#[export] Instance Operation_eq_dec : EqDecision Operation.
Proof. solve_decision. Defined.

(** One constructor per [fmt.Errorf] of the package. *)
Inductive WebhookError :=
| EOnlyDefaultConfig
| EPreviousConfig (name : string)
| EDrainTransitionList (name : string)
| ENodeUpdating (node : string)
| EParallelAndOffload
| EInvalidMaxUnavailable (e : MaxUnavailableError)
| EInvalidOvs (key : string)
| ENetworkNamespace
| EResourceNameEmpty
| EResourceNameLong (name : string)
| EResourceNameInvalid (name : string)
| EEmptySelector (name : string)
| ENetFilterExclusive
| ENetFilterEswitch
| ENetFilterBridge
| ENetFilterLinkType (linkType : string)
| EVendorNotSupported (vendor : string)
| EModelNotSupported (vendor device : string)
| EDeviceNotSupported (device : string)
| EPfSeparator (pf : string)
| EPfRange (pf : string)
| EPfRangeStart (pf : string)
| EPfRangeEnd (pf : string)
| EPfRangeOrder (pf : string)
| EPfRangeExceeds (pf : string)
| ERdmaVfio
| ESwitchdevLink
| EVdpaDeviceType
| EVdpaSwitchdev
| EBridgeSwitchdev
| EBridgeExternal
| EList
| ENoNode (name : string)
| ENoInterface (name : string)
| ENumVfsZero
| ENumVfsIntel (iface : string)
| ENumVfsMellanox (iface : string)
| EExternalNumVfs
| EExternalMtu
| EExternalLinkType
| EVdpaVendor (iface : string)
| EInvalidPf (pf : string)
| EOverlap (pf policy : string)
| ERootDevice (device policy : string)
| EExternallyManaged (policy : string)
| EExcludeTopology (policy : string)
| ESelectorVendor
| ESelectorDevice
| ESelectorRootDevices
| ESelectorPfNames
| ENotSupportedList.

Definition IntelID := "8086".
Definition MellanoxID := "15b3".
Definition MlxMaxVFs : Z := 128.

(** ** Operator configuration, pools and networks *)

(** The answer of [client.Get]. *)
Inductive GetResult A := Found (a : A) | NotFound | GetError.
Arguments Found {A} a.
Arguments NotFound {A}.
Arguments GetError {A}.

Definition validateSriovOperatorConfigDisableDrain (cr : SriovOperatorConfig)
    (previous : GetResult SriovOperatorConfig)
    (nodeStates : option (list SriovNetworkNodeState)) : option WebhookError :=
  let name := om_Name (opc_meta cr) in
  if negb (ocs_DisableDrain (opc_Spec cr)) then None
  else match previous with
  | NotFound => None
  | GetError => Some (EPreviousConfig name)
  | Found previousConfig =>
      if Bool.eqb (ocs_DisableDrain (opc_Spec previousConfig)) (ocs_DisableDrain (opc_Spec cr))
      then None
      else match nodeStates with
      | None => Some (EDrainTransitionList name)
      | Some items =>
          match List.find (λ ns, String.eqb (nst_SyncStatus (ns_Status ns)) "InProgress") items with
          | Some ns => Some (ENodeUpdating (ns_Name ns))
          | None => None
          end
      end
  end.

Definition drainWarning : string :=
  "Node draining is disabled for applying SriovNetworkNodePolicy, it may result in workload interruption.".

Definition validateSriovOperatorConfig (Namespace : string) (cr : SriovOperatorConfig)
    (operation : Operation) (previous : GetResult SriovOperatorConfig)
    (nodeStates : option (list SriovNetworkNodeState)) : list string * result WebhookError bool :=
  if decide (operation = Delete) then ([], Ok true)
  else if negb (String.eqb (om_Name (opc_meta cr)) DefaultConfigName) ||
          negb (String.eqb (om_Namespace (opc_meta cr)) Namespace)
  then ([], Err EOnlyDefaultConfig)
  else
    let warnings := if ocs_DisableDrain (opc_Spec cr) then [drainWarning] else [] in
    match validateSriovOperatorConfigDisableDrain cr previous nodeStates with
    | Some err => (warnings, Err err)
    | None => (warnings, Ok true)
    end.

Definition validateSriovNetworkPoolConfig (cr : SriovNetworkPoolConfig) (operation : Operation)
    : list string * result WebhookError bool :=
  let spec := pc_Spec cr in
  if (bool_decide (is_Some (pcs_MaxUnavailable spec)) || bool_decide (is_Some (pcs_NodeSelector spec))) &&
     negb (String.eqb (ovs_Name (pcs_OvsHardwareOffloadConfig spec)) "")
  then ([], Err EParallelAndOffload)
  else
    match (if bool_decide (is_Some (pcs_MaxUnavailable spec)) then MaxUnavailable cr 0 else Ok 0) with
    | Err e => ([], Err (EInvalidMaxUnavailable e))
    | Panic => ([], Panic)
    | Ok _ =>
        match ValidateOvsConfig (ovs_OvsConfig (pcs_OvsHardwareOffloadConfig spec)) with
        | Some key => ([], Err (EInvalidOvs key))
        | None => ([], Ok true)
        end
    end.

(** [validateNetworkNamespace] on the metadata and [Spec.NetworkNamespace] of a
    network of any of the three kinds; the three validators only call it. *)
Definition validateNetworkNamespace (Namespace : string) (meta : ObjectMeta)
    (networkNamespace : string) : option WebhookError :=
  if negb (String.eqb (om_Namespace meta) Namespace) && negb (String.eqb networkNamespace "")
  then Some ENetworkNamespace else None.

(** ** Static validation of a policy *)

Definition resourceNameMaxLen : nat := 63.

(** [^[a-zA-Z0-9]([a-zA-Z0-9_-]*[a-zA-Z0-9])?$] *)
Definition resourceNameRegexp (name : string) : bool :=
  match String.list_ascii_of_string name with
  | [] => false
  | first :: rest =>
      is_alnum first &&
      match last rest with
      | None => true
      | Some l => is_alnum l && forallb is_name_byte (removelast rest)
      end
  end.

Definition validateResourceName (name : string) : option WebhookError :=
  if String.eqb name "" then Some EResourceNameEmpty
  else if bool_decide (resourceNameMaxLen < String.length name)%nat then Some (EResourceNameLong name)
  else if negb (resourceNameRegexp name) then Some (EResourceNameInvalid name)
  else None.

(** The NetFilter block. *)
Definition validateNetFilter (cr : SriovNetworkNodePolicy) : option WebhookError :=
  let spec := p_Spec cr in
  let sel := ps_NicSelector spec in
  if String.eqb (sel_NetFilter sel) "" then None
  else if negb (String.eqb (sel_Vendor sel) "") || negb (String.eqb (sel_DeviceID sel) "") ||
          bool_decide (sel_PfNames sel ≠ []) || bool_decide (sel_RootDevices sel ≠ [])
  then Some ENetFilterExclusive
  else if negb (String.eqb (ps_EswitchMode spec) "") then Some ENetFilterEswitch
  else if negb (Bridge_IsEmpty (ps_Bridge spec)) then Some ENetFilterBridge
  else if negb (String.eqb (ps_LinkType spec) "") && negb (EqualFold (ps_LinkType spec) LinkTypeETH)
  then Some (ENetFilterLinkType (ps_LinkType spec))
  else None.

(** One entry of pfNames. *)
Definition validatePfName (numVfs : Z) (pf : string) : option WebhookError :=
  if ContainsByte "#" pf then
    match Split pf "#" with
    | [_; f1] =>
        match Split f1 "-" with
        | [r0; r1] =>
            match Atoi r0 with
            | (_, Some _) => Some (EPfRangeStart pf)
            | (rngSt, None) =>
                match Atoi r1 with
                | (_, Some _) => Some (EPfRangeEnd pf)
                | (rngEnd, None) =>
                    if rngEnd <? rngSt then Some (EPfRangeOrder pf)
                    else if negb (rngEnd <? numVfs) then Some (EPfRangeExceeds pf)
                    else None
                end
            end
        | _ => Some (EPfRange pf)
        end
    | _ => Some (EPfSeparator pf)
    end
  else None.

Fixpoint firstError {A} (f : A → option WebhookError) (l : list A) : option WebhookError :=
  match l with
  | [] => None
  | x :: rest => match f x with Some e => Some e | None => firstError f rest end
  end.

Definition isVdpa (spec : SriovNetworkNodePolicySpec) : bool :=
  String.eqb (ps_VdpaType spec) VdpaTypeVirtio || String.eqb (ps_VdpaType spec) VdpaTypeVhost.

(** The device type, link type, vdpa and bridge checks that end the function. *)
Definition validateModes (spec : SriovNetworkNodePolicySpec) : option WebhookError :=
  if String.eqb (ps_DeviceType spec) DeviceTypeVfioPci && ps_IsRdma spec then Some ERdmaVfio
  else if negb (String.eqb (ps_LinkType spec) "") && negb (EqualFold (ps_LinkType spec) LinkTypeETH) &&
          String.eqb (ps_EswitchMode spec) ESwithModeSwitchDev then Some ESwitchdevLink
  else if negb (String.eqb (ps_DeviceType spec) DeviceTypeNetDevice) && isVdpa spec
  then Some EVdpaDeviceType
  else if isVdpa spec && negb (String.eqb (ps_EswitchMode spec) ESwithModeSwitchDev)
  then Some EVdpaSwitchdev
  else if negb (Bridge_IsEmpty (ps_Bridge spec)) &&
          negb (String.eqb (ps_EswitchMode spec) ESwithModeSwitchDev) then Some EBridgeSwitchdev
  else if negb (Bridge_IsEmpty (ps_Bridge spec)) && ps_ExternallyManaged spec
  then Some EBridgeExternal
  else None.

Section webhook.
(** The supported NICs, the operator's namespace and DEV_MODE. *)
Context (NicIDMap : list string) (Namespace : string) (devMode : bool).
(** The other reviews, on the two flags. *)
Context (others : bool * bool → bool * bool).

(** Lift a check of the table, which panics on a malformed entry. *)
Definition supported (r : result unit bool) (e : WebhookError) : result WebhookError unit :=
  match r with
  | Ok true => Ok tt
  | Ok false => Err e
  | _ => Panic
  end.

Definition validateModel (sel : SriovNetworkNicSelector) : result WebhookError unit :=
  if devMode then Ok tt
  else if negb (String.eqb (sel_Vendor sel) "") then
    supported (Ok (IsSupportedVendor NicIDMap (sel_Vendor sel))) (EVendorNotSupported (sel_Vendor sel));;
    if negb (String.eqb (sel_DeviceID sel) "") then
      supported (IsSupportedModel NicIDMap (sel_Vendor sel) (sel_DeviceID sel))
        (EModelNotSupported (sel_Vendor sel) (sel_DeviceID sel))
    else Ok tt
  else if negb (String.eqb (sel_DeviceID sel) "") then
    supported (IsSupportedDevice NicIDMap (sel_DeviceID sel)) (EDeviceNotSupported (sel_DeviceID sel))
  else Ok tt.

Definition check (o : option WebhookError) : result WebhookError unit :=
  match o with None => Ok tt | Some e => Err e end.

Definition staticValidateSriovNetworkNodePolicy (cr : SriovNetworkNodePolicy)
    : result WebhookError bool :=
  let spec := p_Spec cr in
  let sel := ps_NicSelector spec in
  check (validateResourceName (ps_ResourceName spec));;
  check (if NicSelector_IsEmpty sel then Some (EEmptySelector (p_Name cr)) else None);;
  check (validateNetFilter cr);;
  validateModel sel;;
  check (firstError (validatePfName (ps_NumVfs spec)) (sel_PfNames sel));;
  check (validateModes spec);;
  Ok true.

(** ** Validation against a node *)

(** The keys of [vars.PlatformsMap]; the loop calls the same functions for
    each, so its order does not matter. *)
Definition PlatformsMap : list string := ["openstack"; "aws"].

Fixpoint vfModelOnPlatform (keys : list string) (selector : SriovNetworkNicSelector)
    (iface : InterfaceExt) (node : Node) : result WebhookError bool :=
  match keys with
  | [] => Ok false
  | key :: rest =>
      if Contains (ToLower (n_ProviderID node)) (ToLower key) &&
         negb (String.eqb (sel_NetFilter selector) "") &&
         String.eqb (sel_NetFilter selector) (ie_NetFilter iface)
      then match IsVfSupportedModel NicIDMap (ie_Vendor iface) (ie_DeviceID iface) with
           | Ok true => Ok true
           | Ok false => vfModelOnPlatform rest selector iface node
           | _ => Panic
           end
      else vfModelOnPlatform rest selector iface node
  end.

(** [Err e] is the non-nil error; [Panic] a malformed table entry. *)
Definition validateNicModel (selector : SriovNetworkNicSelector) (iface : InterfaceExt) (node : Node)
    : result WebhookError unit :=
  if negb (String.eqb (sel_Vendor selector) "") &&
     negb (String.eqb (sel_Vendor selector) (ie_Vendor iface)) then Err ESelectorVendor
  else if negb (String.eqb (sel_DeviceID selector) "") &&
     negb (String.eqb (sel_DeviceID selector) (ie_DeviceID iface)) then Err ESelectorDevice
  else if bool_decide (sel_RootDevices selector ≠ []) &&
     negb (StringInArray (ie_PciAddress iface) (sel_RootDevices selector)) then Err ESelectorRootDevices
  else if bool_decide (sel_PfNames selector ≠ []) &&
     negb (NameOrAltNameMatchesPfNames (ie_Name iface) (ie_AltNames iface)
             (pfName_base <$> sel_PfNames selector)) then Err ESelectorPfNames
  else match IsSupportedModel NicIDMap (ie_Vendor iface) (ie_DeviceID iface) with
  | Ok true => Ok tt
  | Ok false =>
      b ← vfModelOnPlatform PlatformsMap selector iface node;
      if b : bool then Ok tt else Err ENotSupportedList
  | _ => Panic
  end.

(** The checks of one selected interface. *)
Definition validateSelectedInterface (policy : SriovNetworkNodePolicy) (iface : InterfaceExt)
    : option WebhookError :=
  let spec := p_Spec policy in
  if negb (String.eqb (p_Name policy) DefaultPolicyName) && (ps_NumVfs spec =? 0) then Some ENumVfsZero
  else if (ps_NumVfs spec >? ie_TotalVfs iface) && String.eqb (ie_Vendor iface) IntelID
  then Some (ENumVfsIntel (ie_Name iface))
  else if (ps_NumVfs spec >? MlxMaxVFs) && String.eqb (ie_Vendor iface) MellanoxID
  then Some (ENumVfsMellanox (ie_Name iface))
  else if ps_ExternallyManaged spec && (ps_NumVfs spec >? ie_NumVfs iface) then Some EExternalNumVfs
  else if ps_ExternallyManaged spec &&
          (negb (ps_Mtu spec =? 0) && (ps_Mtu spec >? ie_Mtu iface)) then Some EExternalMtu
  else if ps_ExternallyManaged spec &&
          (negb (String.eqb (ps_LinkType spec) "") &&
           negb (EqualFold (ps_LinkType spec) (ie_LinkType iface))) then Some EExternalLinkType
  else if isVdpa spec && negb (String.eqb (ie_Vendor iface) MellanoxID)
  then Some (EVdpaVendor (ie_Name iface))
  else None.

(** The loop over the interfaces: [sel] is [interfaceSelectedForNode], [log]
    the messages gathered. *)
Fixpoint validateInterfaces (policy : SriovNetworkNodePolicy) (node : Node)
    (ifaces : list InterfaceExt) (sel : bool) (log : list (string * WebhookError))
    : result WebhookError (bool * list (string * WebhookError)) :=
  match ifaces with
  | [] => Ok (sel, log)
  | iface :: rest =>
      match validateNicModel (ps_NicSelector (p_Spec policy)) iface node with
      | Ok _ =>
          match validateSelectedInterface policy iface with
          | Some e => Err e
          | None => validateInterfaces policy node rest true log
          end
      | Err e => validateInterfaces policy node rest sel (log ++ [(ie_Name iface, e)])
      | Panic => Panic
      end
  end.

(** The log when nothing was selected ([None] otherwise), and the new value
    of [interfaceSelected].  A node without interfaces leaves the log nil. *)
Definition validatePolicyForNodeState (policy : SriovNetworkNodePolicy)
    (state : SriovNetworkNodeState) (node : Node) (interfaceSelected : bool)
    : result WebhookError (option (list (string * WebhookError)) * bool) :=
  '(sel, log) ← validateInterfaces policy node (nst_Interfaces (ns_Status state)) false [];
  Ok (if sel : bool then None else Some log, interfaceSelected || sel).

(** ** Validation against another policy *)

Definition validateExternallyManage (current previous : SriovNetworkNodePolicy) : option WebhookError :=
  if Bool.eqb (ps_ExternallyManaged (p_Spec current)) (ps_ExternallyManaged (p_Spec previous))
  then None else Some (EExternallyManaged (p_Name previous)).

(** The inner loop of [validatePfNames] for one [curPf]: [Ok None] when no
    [prePf] names the same interface (the outer loop goes on), [Ok (Some tt)]
    when the function returns nil. *)
Fixpoint comparePfNames (current previous : SriovNetworkNodePolicy)
    (resolve : string → string) (curPf curName : string) (curRngSt curRngEnd : Z)
    (prePfs : list string) : result WebhookError (option unit) :=
  match prePfs with
  | [] => Ok None
  | prePf :: rest =>
      match ParseVfRange_raw prePf with
      | None => Panic
      | Some (preName, preRngSt, preRngEnd, _) =>
          if String.eqb curName (resolve preName) then
            match validateExternallyManage current previous with
            | Some e => Err e
            | None =>
                if (curRngEnd <? preRngSt) || (curRngSt >? preRngEnd) then Ok (Some tt)
                else Err (EOverlap curPf (p_Name previous))
            end
          else comparePfNames current previous resolve curPf curName curRngSt curRngEnd rest
      end
  end.

Fixpoint validatePfNames_go (current previous : SriovNetworkNodePolicy)
    (resolve : string → string) (curPfs : list string) : result WebhookError unit :=
  match curPfs with
  | [] => Ok tt
  | curPf :: rest =>
      match ParseVfRange curPf with
      | Panic => Panic
      | Err _ => Err (EInvalidPf curPf)
      | Ok (curName, curRngSt, curRngEnd) =>
          r ← comparePfNames current previous resolve curPf (resolve curName) curRngSt curRngEnd
                (sel_PfNames (ps_NicSelector (p_Spec previous)));
          match r with
          | Some _ => Ok tt
          | None => validatePfNames_go current previous resolve rest
          end
      end
  end.

Definition validatePfNames (current previous : SriovNetworkNodePolicy)
    (nodeState : option SriovNetworkNodeState) : result WebhookError unit :=
  validatePfNames_go current previous (λ name, ResolveInterfaceName name nodeState)
    (sel_PfNames (ps_NicSelector (p_Spec current))).

Definition validateRootDevices (current previous : SriovNetworkNodePolicy) : option WebhookError :=
  firstError (λ curRootDevice,
    if existsb (String.eqb curRootDevice) (sel_RootDevices (ps_NicSelector (p_Spec previous)))
    then Some (ERootDevice curRootDevice (p_Name previous)) else None)
    (sel_RootDevices (ps_NicSelector (p_Spec current))).

Definition validateExludeTopologyField (current previous : SriovNetworkNodePolicy)
    : option WebhookError :=
  if negb (String.eqb (ps_ResourceName (p_Spec current)) (ps_ResourceName (p_Spec previous))) then None
  else if Bool.eqb (ps_ExcludeTopology (p_Spec current)) (ps_ExcludeTopology (p_Spec previous)) then None
  else Some (EExcludeTopology (p_Name previous)).

Definition validatePolicyForNodePolicy (current previous : SriovNetworkNodePolicy)
    (nodeState : option SriovNetworkNodeState) : result WebhookError unit :=
  if String.eqb (p_Name current) (p_Name previous) then Ok tt
  else
    validatePfNames current previous nodeState;;
    check (validateRootDevices current previous);;
    check (validateExludeTopologyField current previous).

(** ** The whole dynamic validation *)

Fixpoint validateAgainstPolicies (cr : SriovNetworkNodePolicy) (node : Node)
    (nodeState : option SriovNetworkNodeState) (nps : list SriovNetworkNodePolicy)
    : result WebhookError unit :=
  match nps with
  | [] => Ok tt
  | np :: rest =>
      (if negb (String.eqb (p_Name np) (p_Name cr)) && Policy_Selected np node
       then validatePolicyForNodePolicy cr np nodeState else Ok tt);;
      validateAgainstPolicies cr node nodeState rest
  end.

Definition validatePolicyForNodeStateAndPolicy (nsList : list SriovNetworkNodeState)
    (npList : list SriovNetworkNodePolicy) (node : Node) (cr : SriovNetworkNodePolicy)
    (interfaceSelected : bool) (errs : gmap string (list (string * WebhookError)))
    : result WebhookError (bool * gmap string (list (string * WebhookError))) :=
  let currentNodeState := List.find (λ ns, String.eqb (ns_Name ns) (om_Name (n_meta node))) nsList in
  '(interfaceSelected', errs') ←
    match currentNodeState with
    | None => Ok (interfaceSelected, errs)
    | Some ns =>
        '(log, b) ← validatePolicyForNodeState cr ns node interfaceSelected;
        Ok (b, match log with Some ((_ :: _) as m) => <[ns_Name ns := m]> errs | _ => errs end)
    end;
  validateAgainstPolicies cr node currentNodeState npList;;
  Ok (interfaceSelected', errs').

Fixpoint validateNodes (nsList : list SriovNetworkNodeState) (npList : list SriovNetworkNodePolicy)
    (cr : SriovNetworkNodePolicy) (nodes : list Node) (nodesSelected interfaceSelected : bool)
    (errs : gmap string (list (string * WebhookError))) : result WebhookError (bool * bool) :=
  match nodes with
  | [] => Ok (nodesSelected, interfaceSelected)
  | node :: rest =>
      if Policy_Selected cr node then
        '(interfaceSelected', errs') ←
          validatePolicyForNodeStateAndPolicy nsList npList node cr interfaceSelected errs;
        validateNodes nsList npList cr rest true interfaceSelected' errs'
      else validateNodes nsList npList cr rest nodesSelected interfaceSelected errs
  end.

(** The three lists are the API server's answers, [None] a failed call. *)
Definition dynamicValidateSriovNetworkNodePolicy (cr : SriovNetworkNodePolicy)
    (nodeList : option (list Node)) (nsList : option (list SriovNetworkNodeState))
    (npList : option (list SriovNetworkNodePolicy)) : result WebhookError bool :=
  match nodeList, nsList, npList with
  | Some nodes, Some nss, Some nps =>
      written ← validateNodes nss nps cr nodes false false ∅;
      let '(nodesSelected, interfaceSelected) := others written in
      if negb nodesSelected then Err (ENoNode (p_Name cr))
      else if negb interfaceSelected then Err (ENoInterface (p_Name cr))
      else Ok true
  | _, _, _ => Err EList
  end.

Definition validateSriovNetworkNodePolicy (cr : SriovNetworkNodePolicy) (operation : Operation)
    (nodeList : option (list Node)) (nsList : option (list SriovNetworkNodeState))
    (npList : option (list SriovNetworkNodePolicy)) : list string * result WebhookError bool :=
  if String.eqb (p_Name cr) DefaultPolicyName && String.eqb (om_Namespace (p_meta cr)) Namespace
  then ([], Ok true)
  else
    let warnings :=
      if negb (String.eqb (om_Namespace (p_meta cr)) Namespace) then
        [p_Name cr +:+ " is created or updated but not used. Only policy in " +:+ Namespace +:+
           " namespace is respected."]
      else [] in
    if decide (operation = Delete) then (warnings, Ok true)
    else
      (warnings,
       staticValidateSriovNetworkNodePolicy cr;;
       dynamicValidateSriovNetworkNodePolicy cr nodeList nsList npList).
End webhook.

(** ** Lemmas *)

Lemma check_bind {A} o (k : result WebhookError A) a :
  (check o;; k) = Ok a ↔ o = None ∧ k = Ok a.
Proof. destruct o; cbn; naive_solver. Qed.

Lemma bind_Ok {E A B} (m : result E A) (f : A → result E B) b :
  (m ≫= f) = Ok b ↔ ∃ a, m = Ok a ∧ f a = Ok b.
Proof. destruct m; cbn; naive_solver. Qed.

(** A chain of [if b then return err]. *)
Lemma guard_None {A} (b : bool) (e : A) k :
  (if b then Some e else k) = None ↔ b = false ∧ k = None.
Proof. destruct b; naive_solver. Qed.

Lemma firstError_None {A} (f : A → option WebhookError) l :
  firstError f l = None ↔ ∀ x, x ∈ l → f x = None.
Proof.
  induction l as [|x l IH]; cbn; [set_solver|]. setoid_rewrite elem_of_cons.
  destruct (f x) eqn:E; [|naive_solver].
  split; [done|]. intros H. rewrite H in E by auto. done.
Qed.

(** A number without a minus sign is not negative. *)
Lemma split_sign_pos s : ContainsByte "-" s = false → fst (split_sign s) = false.
Proof. destruct s as [|[[] [] [] [] [] [] [] []] s]; done. Qed.

Lemma Atoi_nonneg s v : ContainsByte "-" s = false → Atoi s = (v, None) → 0 ≤ v.
Proof.
  intros Hs%split_sign_pos H. unfold Atoi in H.
  destruct (split_sign s) as [neg body]. cbn in Hs. subst neg.
  destruct body as [|a body]; [done|].
  destruct (parse_uint 0 (String a body)) as [n|[]] eqn:P; [|done..].
  apply parse_uint_nonneg in P; [|done]. by case_hyp H; simplify_eq.
Qed.

(** An entry the webhook accepts parses, to a range inside the VFs if it has
    one. *)
Lemma validatePfName_ok n pf : validatePfName n pf = None → pf_ok n pf.
Proof.
  unfold validatePfName, pf_ok, ParseVfRange, ParseVfRange_raw, SplitDeviceFromRange.
  destruct (ContainsByte "#" pf); [|intros _; do 3 eexists; split; [done|]; by left].
  destruct (Split pf "#") as [|f0 [|f1 [|]]]; [done..| |done].
  intros H. destruct (Split f1 "-") as [|r0 [|r1 [|]]] eqn:S; [done..| |done].
  destruct (Atoi r0) as [a [|]] eqn:A0; [done|]. destruct (Atoi r1) as [b [|]] eqn:A1; [done|].
  destruct (b <? a) eqn:E1; [done|]. destruct (b <? n) eqn:E2; [|done].
  assert (f1 ≠ "") by (by intros ->). rewrite (proj2 (String.eqb_neq f1 "")) by done.
  unfold parseRange_raw. rewrite S, A0, A1. do 3 eexists. split; [done|]. right. bool_hyps.
  split; [|done]. split; [|done].
  apply (Atoi_nonneg r0); [|done]. apply (Split_fields_free f1). rewrite S. left.
Qed.

Lemma static_Ok NicIDMap dev p b :
  staticValidateSriovNetworkNodePolicy NicIDMap dev p = Ok b ↔
  b = true ∧
  validateResourceName (ps_ResourceName (p_Spec p)) = None ∧
  NicSelector_IsEmpty (ps_NicSelector (p_Spec p)) = false ∧
  validateNetFilter p = None ∧
  validateModel NicIDMap dev (ps_NicSelector (p_Spec p)) = Ok tt ∧
  (∀ pf, pf ∈ sel_PfNames (ps_NicSelector (p_Spec p)) →
     validatePfName (ps_NumVfs (p_Spec p)) pf = None) ∧
  validateModes (p_Spec p) = None.
Proof.
  unfold staticValidateSriovNetworkNodePolicy. rewrite !check_bind.
  destruct (validateModel NicIDMap dev _) as [[]|e|];
    cbn [mbind result_bind]; [rewrite !check_bind, firstError_None|naive_solver..].
  destruct (NicSelector_IsEmpty _); naive_solver.
Qed.

Lemma static_policy_ok NicIDMap dev p b :
  staticValidateSriovNetworkNodePolicy NicIDMap dev p = Ok b →
  ps_NumVfs (p_Spec p) ≤ max_int64 → policy_ok p.
Proof.
  intros (_ & _ & _ & _ & _ & Hpf & _)%static_Ok Hn. split; [done|].
  apply Forall_forall. eauto using validatePfName_ok.
Qed.

(** ** Properties *)

(** A policy the static validation admits can always be applied: on every
    well-formed node state [Apply] returns a node state -- it neither fails
    nor panics on the policy's VF ranges -- and that state is well-formed
    again.  (NumVfs is a Go int.) *)
Theorem admitted_policy_applies (NicIDMap : list string) (dev b eqPrio : bool)
    (p : SriovNetworkNodePolicy) (state : SriovNetworkNodeState)
    (Hadm : staticValidateSriovNetworkNodePolicy NicIDMap dev p = Ok b)
    (Hint : ps_NumVfs (p_Spec p) ≤ max_int64) (Hwf : wf_state state) :
  ∃ state', Apply p state eqPrio = Ok state' ∧ wf_state state'.
Proof.
  destruct (Apply_spec p state eqPrio) as (s' & HA & Hs & _); eauto using static_policy_ok.
Qed.

Lemma admitted_policy_applies_witness :
  ∃ state', Apply (sample_policy "p" "res" 99 8 ["eth0#0-3"])
    (sample_state [] [sample_ifext "eth0" "0000:01:00.0"]) false = Ok state' ∧ wf_state state'.
Proof.
  apply (admitted_policy_applies [] true true false);
    [reflexivity|vm_compute; congruence|apply sample_state_wf].
Defined.

(** A letter or a digit of ASCII. *)
Definition alphanumeric (c : ascii) : Prop :=
  (48 ≤ N_of_ascii c ≤ 57 ∨ 65 ≤ N_of_ascii c ≤ 90 ∨ 97 ≤ N_of_ascii c ≤ 122)%N.

(** Letters, digits, hyphens and underscores, the latter two not at the ends. *)
Definition resource_name (name : string) : Prop :=
  let s := String.list_ascii_of_string name in
  (∀ c, c ∈ s → alphanumeric c ∨ c = "-"%char ∨ c = "_"%char) ∧
  (∀ c, head s = Some c ∨ last s = Some c → alphanumeric c).

(** A row of the table of supported NICs: vendor, device of the PF, device of
    its VFs. *)
Definition table_row (NicIDMap : list string) (ids : list string) : Prop :=
  ∃ row, row ∈ NicIDMap ∧ Split row " " = ids.

(** The rules a policy has to obey, as the API documents them. *)
Record static_rules (NicIDMap : list string) (dev : bool) (p : SriovNetworkNodePolicy) : Prop := {
  sr_name_len : (0 < String.length (ps_ResourceName (p_Spec p)) ≤ 63)%nat;
  sr_name : resource_name (ps_ResourceName (p_Spec p));
  sr_selector : ps_NicSelector (p_Spec p) ≠ mkNicSelector "" "" [] [] "";
  sr_netfilter : sel_NetFilter (ps_NicSelector (p_Spec p)) ≠ "" →
    ps_NicSelector (p_Spec p) =
      mkNicSelector "" "" [] [] (sel_NetFilter (ps_NicSelector (p_Spec p))) ∧
    ps_EswitchMode (p_Spec p) = "" ∧ b_OVS (ps_Bridge (p_Spec p)) = None ∧
    (ps_LinkType (p_Spec p) ≠ "" → EqualFold (ps_LinkType (p_Spec p)) LinkTypeETH = true);
  sr_vendor : dev = false → sel_Vendor (ps_NicSelector (p_Spec p)) ≠ "" →
    ∃ ids, table_row NicIDMap (sel_Vendor (ps_NicSelector (p_Spec p)) :: ids);
  sr_model : dev = false → sel_Vendor (ps_NicSelector (p_Spec p)) ≠ "" → sel_DeviceID (ps_NicSelector (p_Spec p)) ≠ "" →
    ∃ ids, table_row NicIDMap (sel_Vendor (ps_NicSelector (p_Spec p)) :: sel_DeviceID (ps_NicSelector (p_Spec p)) :: ids);
  sr_device : dev = false → sel_Vendor (ps_NicSelector (p_Spec p)) = "" → sel_DeviceID (ps_NicSelector (p_Spec p)) ≠ "" →
    ∃ vendor ids, table_row NicIDMap (vendor :: sel_DeviceID (ps_NicSelector (p_Spec p)) :: ids);
  sr_pfs : ∀ pf, pf ∈ sel_PfNames (ps_NicSelector (p_Spec p)) → ContainsByte "#" pf = true →
    ∃ name r0 r1 a b, Split pf "#" = [name; r0 +:+ "-" +:+ r1] ∧
      ContainsByte "-" r0 = false ∧ ContainsByte "-" r1 = false ∧
      Atoi r0 = (a, None) ∧ Atoi r1 = (b, None) ∧ 0 ≤ a ≤ b ∧ b < ps_NumVfs (p_Spec p);
  sr_rdma : ps_DeviceType (p_Spec p) = DeviceTypeVfioPci → ps_IsRdma (p_Spec p) = false;
  sr_switchdev : ps_EswitchMode (p_Spec p) = ESwithModeSwitchDev → ps_LinkType (p_Spec p) ≠ "" →
    EqualFold (ps_LinkType (p_Spec p)) LinkTypeETH = true;
  sr_vdpa : ps_VdpaType (p_Spec p) ∈ [VdpaTypeVirtio; VdpaTypeVhost] →
    ps_DeviceType (p_Spec p) = DeviceTypeNetDevice ∧ ps_EswitchMode (p_Spec p) = ESwithModeSwitchDev;
  sr_bridge : b_OVS (ps_Bridge (p_Spec p)) ≠ None →
    ps_EswitchMode (p_Spec p) = ESwithModeSwitchDev ∧ ps_ExternallyManaged (p_Spec p) = false;
}.

Lemma isVdpa_spec spec : isVdpa spec = true ↔ ps_VdpaType spec ∈ [VdpaTypeVirtio; VdpaTypeVhost].
Proof.
  unfold isVdpa. rewrite orb_true_iff, !String.eqb_eq, !elem_of_cons, elem_of_nil. naive_solver.
Qed.

Lemma Bridge_IsEmpty_spec b : Bridge_IsEmpty b = true ↔ b_OVS b = None.
Proof. unfold Bridge_IsEmpty. by destruct (b_OVS b). Qed.

Lemma NicSelector_IsEmpty_spec s :
  NicSelector_IsEmpty s = true ↔ s = mkNicSelector "" "" [] [] "".
Proof.
  unfold NicSelector_IsEmpty.
  rewrite !andb_true_iff, !bool_decide_eq_true, !String.eqb_eq. destruct s; cbn. naive_solver.
Qed.

Lemma validateModes_spec spec :
  validateModes spec = None ↔
  (ps_DeviceType spec = DeviceTypeVfioPci → ps_IsRdma spec = false) ∧
  (ps_EswitchMode spec = ESwithModeSwitchDev → ps_LinkType spec ≠ "" →
     EqualFold (ps_LinkType spec) LinkTypeETH = true) ∧
  (ps_VdpaType spec ∈ [VdpaTypeVirtio; VdpaTypeVhost] →
     ps_DeviceType spec = DeviceTypeNetDevice ∧ ps_EswitchMode spec = ESwithModeSwitchDev) ∧
  (b_OVS (ps_Bridge spec) ≠ None →
     ps_EswitchMode spec = ESwithModeSwitchDev ∧ ps_ExternallyManaged spec = false).
Proof.
  rewrite <- isVdpa_spec, <- Bridge_IsEmpty_spec. unfold validateModes.
  rewrite !guard_None, !andb_false_iff, !negb_false_iff, !String.eqb_eq, !String.eqb_neq.
  split.
  - intros (H1 & H2 & H3 & H4 & H5 & H6 & _). split_and!; intros H.
    + by destruct H1.
    + intros H'. destruct H2 as [[|]|]; congruence.
    + split; [destruct H3|destruct H4]; congruence.
    + split; [destruct H5|destruct H6]; congruence.
  - intros (H1 & H2 & H3 & H4). split_and!; [..|done].
    + destruct (decide (ps_DeviceType spec = DeviceTypeVfioPci)); auto.
    + destruct (decide (ps_EswitchMode spec = ESwithModeSwitchDev)); [|auto].
      destruct (decide (ps_LinkType spec = "")); auto.
    + destruct (isVdpa spec); [left; by apply H3|auto].
    + destruct (isVdpa spec); [right; by apply H3|auto].
    + destruct (Bridge_IsEmpty (ps_Bridge spec)); [auto|right; by apply H4].
    + destruct (Bridge_IsEmpty (ps_Bridge spec)); [auto|right; by apply H4].
Qed.

Lemma validateNetFilter_spec p :
  validateNetFilter p = None ↔
  (sel_NetFilter (ps_NicSelector (p_Spec p)) ≠ "" →
    ps_NicSelector (p_Spec p) =
      mkNicSelector "" "" [] [] (sel_NetFilter (ps_NicSelector (p_Spec p))) ∧
    ps_EswitchMode (p_Spec p) = "" ∧ b_OVS (ps_Bridge (p_Spec p)) = None ∧
    (ps_LinkType (p_Spec p) ≠ "" → EqualFold (ps_LinkType (p_Spec p)) LinkTypeETH = true)).
Proof.
  rewrite <- Bridge_IsEmpty_spec. unfold validateNetFilter.
  destruct (ps_NicSelector (p_Spec p)) as [v d r f nf]; cbn.
  destruct (String.eqb_spec nf ""), (String.eqb_spec v ""), (String.eqb_spec d ""),
    (bool_decide_reflect (f ≠ [])) as [Hf|Hf], (bool_decide_reflect (r ≠ [])) as [Hr|Hr];
    cbn; try naive_solver.
  apply dec_stable in Hf, Hr. subst.
  destruct (String.eqb_spec (ps_EswitchMode (p_Spec p)) ""), (Bridge_IsEmpty (ps_Bridge (p_Spec p))),
    (String.eqb_spec (ps_LinkType (p_Spec p)) ""), (EqualFold (ps_LinkType (p_Spec p)) LinkTypeETH);
    cbn; naive_solver.
Qed.

Lemma validatePfName_spec n pf :
  validatePfName n pf = None ↔
  (ContainsByte "#" pf = true →
    ∃ name r0 r1 a b, Split pf "#" = [name; r0 +:+ "-" +:+ r1] ∧
      ContainsByte "-" r0 = false ∧ ContainsByte "-" r1 = false ∧
      Atoi r0 = (a, None) ∧ Atoi r1 = (b, None) ∧ 0 ≤ a ≤ b ∧ b < n).
Proof.
  unfold validatePfName. destruct (ContainsByte "#" pf); [|naive_solver]. split.
  - intros H _. destruct (Split pf "#") as [|f0 [|f1 [|]]]; [done..| |done].
    destruct (Split f1 "-") as [|r0 [|r1 [|]]] eqn:S; [done..| |done].
    destruct (Atoi r0) as [a [|]] eqn:A0; [done|]. destruct (Atoi r1) as [b [|]] eqn:A1; [done|].
    destruct (b <? a) eqn:E1; [done|]. destruct (b <? n) eqn:E2; [|done]. bool_hyps.
    assert (F : ∀ f, f ∈ [r0; r1] → ContainsByte "-" f = false).
    { rewrite <- S. apply Split_fields_free. }
    exists f0, r0, r1, a, b. split_and!; try done; [|apply F; set_solver..|].
    + pose proof (Join_Split f1 "-") as J. rewrite S in J. by rewrite <- J.
    + apply (Atoi_nonneg r0); [|done]. apply F. left.
  - intros H. destruct (H eq_refl) as (name & r0 & r1 & a & b & -> & F0 & F1 & A0 & A1 & Hab & Hb).
    change ("-" +:+ r1) with (String "-" r1).
    rewrite Split_app, (Split_none r1) by done. rewrite A0, A1.
    rewrite (proj2 (Z.ltb_ge b a)), (proj2 (Z.ltb_lt b n)) by lia. done.
Qed.

Lemma is_alnum_spec c : is_alnum c = true ↔ alphanumeric c.
Proof. unfold is_alnum, alphanumeric. rewrite !orb_true_iff, !andb_true_iff, !N.leb_le. tauto. Qed.

Lemma is_name_byte_spec c : is_name_byte c = true ↔ alphanumeric c ∨ c = "-"%char ∨ c = "_"%char.
Proof. unfold is_name_byte. rewrite !orb_true_iff, !Ascii.eqb_eq, is_alnum_spec. tauto. Qed.

Lemma resourceNameRegexp_spec name : name ≠ "" → resourceNameRegexp name = true ↔ resource_name name.
Proof.
  intros Hne. unfold resourceNameRegexp, resource_name. destruct name as [|c0 name]; [done|].
  cbn [String.list_ascii_of_string head]. set (s := String.list_ascii_of_string name). clearbody s.
  rewrite andb_true_iff, is_alnum_spec. destruct s as [|c s _] using rev_ind.
  { cbn. setoid_rewrite list_elem_of_singleton. naive_solver. }
  rewrite app_comm_cons, !last_snoc, removelast_last, andb_true_iff, is_alnum_spec, forallb_forall.
  setoid_rewrite is_name_byte_spec. split.
  - intros (H0 & Hc & Hs). split; [|naive_solver]. intros d. rewrite elem_of_app, elem_of_cons, list_elem_of_singleton.
    intros [[->|Hd%list_elem_of_In]| ->]; auto.
  - intros [Hin Hend]. split_and!; [apply Hend; by left|apply Hend; by right|].
    intros d Hd%list_elem_of_In. apply Hin. set_solver.
Qed.

Lemma validateResourceName_spec name :
  validateResourceName name = None ↔
  (0 < String.length name ≤ 63)%nat ∧ resource_name name.
Proof.
  destruct (decide (name = "")) as [->|Hne]; [cbn; split; [done|lia]|]. rewrite <- resourceNameRegexp_spec by done.
  unfold validateResourceName, resourceNameMaxLen. destruct name as [|a s]; [cbn; naive_solver lia|].
  cbn [String.eqb]. case_bool_decide; [naive_solver lia|].
  destruct (resourceNameRegexp (String a s)); cbn [negb]; split; try naive_solver.
  intros _. split; [|done]. cbn. cbn in H. lia.
Qed.

(** The rules on vendor and device, as the record has them. *)
Definition model_rules (NicIDMap : list string) (dev : bool) (sel : SriovNetworkNicSelector) : Prop :=
  (dev = false → sel_Vendor sel ≠ "" → ∃ ids, table_row NicIDMap (sel_Vendor sel :: ids)) ∧
  (dev = false → sel_Vendor sel ≠ "" → sel_DeviceID sel ≠ "" →
     ∃ ids, table_row NicIDMap (sel_Vendor sel :: sel_DeviceID sel :: ids)) ∧
  (dev = false → sel_Vendor sel = "" → sel_DeviceID sel ≠ "" →
     ∃ vendor ids, table_row NicIDMap (vendor :: sel_DeviceID sel :: ids)).

Lemma table_row_model NicIDMap k vendor id :
  (∃ n ids, n ∈ NicIDMap ∧ nic_ids n = vendor :: ids ∧ ids !! k = Some id) ↔
  ∃ ids, table_row NicIDMap (vendor :: ids) ∧ ids !! k = Some id.
Proof. unfold table_row, nic_ids. naive_solver. Qed.

Lemma supported_Ok r e : supported r e = Ok tt ↔ r = Ok true.
Proof. destruct r as [[]| |]; cbn; naive_solver. Qed.

Lemma IsSupportedModel_row NicIDMap vendor device b :
  IsSupportedModel NicIDMap vendor device = Ok b →
  b = true ↔ ∃ ids, table_row NicIDMap (vendor :: device :: ids).
Proof.
  intros H%SupportedModel_go_Ok. rewrite H, table_row_model. split.
  - intros ([|x ids] & Hr & Hx); [done|]. injection Hx as ->. eauto.
  - intros (ids & Hr). eauto.
Qed.

(** A model the check accepts obeys the rules; with a table of complete rows it
    accepts every model that does. *)
Lemma validateModel_spec NicIDMap dev sel :
  (validateModel NicIDMap dev sel = Ok tt → model_rules NicIDMap dev sel) ∧
  (Forall wf_nic_entry NicIDMap → model_rules NicIDMap dev sel → validateModel NicIDMap dev sel = Ok tt).
Proof.
  unfold validateModel, model_rules. destruct dev; [done|].
  assert (Hvendor : IsSupportedVendor NicIDMap (sel_Vendor sel) = true ↔ ∃ ids, table_row NicIDMap (sel_Vendor sel :: ids)).
  { rewrite IsSupportedVendor_spec. unfold table_row, nic_ids. naive_solver. }
  destruct (String.eqb_spec (sel_Vendor sel) "") as [Hv|Hv], (String.eqb_spec (sel_DeviceID sel) "") as [Hd|Hd]; cbn [negb].
  - naive_solver.
  - rewrite supported_Ok. split.
    + intros H%IsSupportedDevice_go_Ok. destruct (proj1 H eq_refl) as (n & v & ids & Hn & He).
      split_and!; [done..|]. intros _ _ _. exists v, ids. by exists n.
    + intros Hwf (_ & _ & H). destruct (H eq_refl Hv Hd) as (v & ids & n & Hn & He).
      destruct (IsSupportedDevice_go_wf NicIDMap (sel_DeviceID sel) Hwf) as [b Hb]. unfold IsSupportedDevice. rewrite Hb. f_equal.
      apply (IsSupportedDevice_go_Ok _ _ _ Hb). by exists n, v, ids.
  - split.
    + intros ([] & [= H]%supported_Ok & _)%bind_Ok. split_and!; [|done..]. intros _ _. by apply Hvendor.
    + intros _ (H & _). apply bind_Ok. exists tt. split; [|done]. apply supported_Ok. f_equal. apply Hvendor. by apply H.
  - split.
    + intros ([] & [= H]%supported_Ok & Hm%supported_Ok)%bind_Ok. split_and!; [intros _ _; by apply Hvendor| |done].
      intros _ _ _. by apply (IsSupportedModel_row _ _ _ _ Hm).
    + intros Hwf (H & Hm & _). apply bind_Ok. exists tt. split; [apply supported_Ok; f_equal; apply Hvendor; by apply H|].
      apply supported_Ok. destruct (SupportedModel_go_spec 0 NicIDMap (sel_Vendor sel) (sel_DeviceID sel)) as (b & Hb & _); [lia|done|].
      unfold IsSupportedModel. rewrite Hb. f_equal. apply (IsSupportedModel_row _ _ _ _ Hb). by apply Hm.
Qed.

Lemma static_rules_iff NicIDMap dev p :
  static_rules NicIDMap dev p ↔
  validateResourceName (ps_ResourceName (p_Spec p)) = None ∧
  NicSelector_IsEmpty (ps_NicSelector (p_Spec p)) = false ∧
  validateNetFilter p = None ∧
  model_rules NicIDMap dev (ps_NicSelector (p_Spec p)) ∧
  (∀ pf, pf ∈ sel_PfNames (ps_NicSelector (p_Spec p)) →
     validatePfName (ps_NumVfs (p_Spec p)) pf = None) ∧
  validateModes (p_Spec p) = None.
Proof.
  rewrite validateResourceName_spec, validateNetFilter_spec, validateModes_spec.
  rewrite <- not_true_iff_false, NicSelector_IsEmpty_spec.
  setoid_rewrite validatePfName_spec. unfold model_rules. split.
  - intros []. split_and!; try done; tauto.
  - intros ([? ?] & ? & ? & (? & ? & ?) & ? & ? & ? & ? & ?). by constructor.
Qed.

Lemma staticValidate_rules NicIDMap dev b p :
  staticValidateSriovNetworkNodePolicy NicIDMap dev p = Ok b → b = true ∧ static_rules NicIDMap dev p.
Proof.
  rewrite static_Ok, static_rules_iff. intros (-> & ? & ? & ? & ? & ? & ?). split_and!; try done.
  by apply validateModel_spec.
Qed.

(** C33: With a table of supported NICs whose rows are complete, the static
    validation is exact: it admits a policy if and only if the policy obeys the
    rules of [static_rules], and never admits with [false].  The rules: a
    resource name of 1 to 63 letters, digits, hyphens and underscores that begins
    and ends with a letter or digit; a non-empty selector; with netFilter nothing
    else in the selector, no eswitch mode, no bridge and at most an Ethernet link
    type; outside of DEV_MODE a vendor, a vendor and device, or a device that a
    row of the table has; VF ranges "name#a-b" with 0 <= a <= b < numVfs; no RDMA
    with vfio-pci; switchdev only over Ethernet; vdpa only for netdevice in
    switchdev mode; a bridge only in switchdev mode and not externally managed. *)
Theorem staticValidate_exact (NicIDMap : list string) (dev b : bool) (p : SriovNetworkNodePolicy)
    (Htable : Forall wf_nic_entry NicIDMap) :
  staticValidateSriovNetworkNodePolicy NicIDMap dev p = Ok b ↔
  b = true ∧ static_rules NicIDMap dev p.
Proof.
  split; [apply staticValidate_rules|]. rewrite static_Ok, static_rules_iff.
  intros (-> & ? & ? & ? & ? & ? & ?). split_and!; try done. by apply validateModel_spec.
Qed.

(** A policy for the NICs of one model. *)
Definition model_policy (vendor device : string) : SriovNetworkNodePolicy :=
  let p := sample_policy "p" "res_1" 99 8 ["eth0#0-3"] in
  mkPolicy (p_meta p)
    (mkPolicySpec "res_1" ∅ 99 1500 8 (mkNicSelector vendor device [] ["eth0#0-3"] "") "netdevice" false false ""
       "" "" false false (mkBridge None)).

(** A policy for a model of the table is admitted; one for another device, and
    one whose range leaves numVfs, are not. *)
Lemma staticValidate_exact_witness :
  static_rules ["15b3 1017 1018"] false (model_policy "15b3" "1017") ∧
  ¬ static_rules ["15b3 1017 1018"] false (model_policy "15b3" "1018") ∧
  ¬ static_rules ["15b3 1017 1018"] false (sample_policy "p" "res" 99 8 ["eth0#0-8"]).
Proof.
  assert (Hwf : Forall wf_nic_entry ["15b3 1017 1018"]) by (repeat constructor; unfold wf_nic_entry; eexists _, _, _, _; reflexivity).
  assert (Hno : ∀ p, staticValidateSriovNetworkNodePolicy ["15b3 1017 1018"] false p ≠ Ok true → ¬ static_rules ["15b3 1017 1018"] false p).
  { intros p Hp Hr. apply Hp. by apply (staticValidate_exact _ _ true _ Hwf). }
  split_and!; [|apply Hno; vm_compute; discriminate..].
  apply (staticValidate_exact _ _ true _ Hwf). vm_compute. reflexivity.
Defined.

(** The selection tests [validateNicModel] and [Selected] share. *)
Lemma validateNicModel_Ok NicIDMap sel iface node :
  sel_NetFilter sel = "" →
  validateNicModel NicIDMap sel iface node = Ok tt ↔
  NicSelector_Selected sel iface = true ∧
  IsSupportedModel NicIDMap (ie_Vendor iface) (ie_DeviceID iface) = Ok true.
Proof.
  intros Hnf. unfold validateNicModel, NicSelector_Selected. rewrite Hnf. cbn [String.eqb negb andb].
  destruct (negb (String.eqb (sel_Vendor sel) "") && _); [naive_solver|].
  destruct (negb (String.eqb (sel_DeviceID sel) "") && _); [naive_solver|].
  destruct (bool_decide (sel_RootDevices sel ≠ []) && _); [naive_solver|].
  destruct (bool_decide (sel_PfNames sel ≠ []) && _); [naive_solver|].
  destruct (IsSupportedModel _ _ _) as [[]| |]; try naive_solver.
  unfold vfModelOnPlatform, PlatformsMap. rewrite Hnf. cbn [String.eqb negb].
  rewrite !andb_false_r. cbn. naive_solver.
Qed.

(** For a selector without netFilter, the webhook counts a NIC as selected
    exactly when the controller will select it ([NicSelector.Selected]) and
    its model is in the supported table: validation and application agree on
    which NICs a policy is about. *)
Theorem validateNicModel_agrees_with_Selected (NicIDMap : list string)
    (sel : SriovNetworkNicSelector) (iface : InterfaceExt) (node : Node)
    (Hnf : sel_NetFilter sel = "") :
  validateNicModel NicIDMap sel iface node = Ok tt ↔
  NicSelector_Selected sel iface = true ∧
  IsSupportedModel NicIDMap (ie_Vendor iface) (ie_DeviceID iface) = Ok true.
Proof. by apply validateNicModel_Ok. Qed.

Lemma validateNicModel_agrees_with_Selected_witness :
  validateNicModel ["15b3 1017 1018"] (mkNicSelector "15b3" "" [] [] "")
    (sample_ifext "eth0" "0000:01:00.0") (mkNode (sample_meta "n") "" false) = Ok tt.
Proof. apply validateNicModel_agrees_with_Selected; [reflexivity|split; reflexivity]. Defined.

(** A NIC of a node is one the policy is about: it is what the selector asks for
    in each of its fields, and of a supported model -- a row of the table has it
    as a PF, or, on a virtual platform, the network filter is the NIC's and a row
    has it as a VF. *)
Definition nic_selected (NicIDMap : list string) (sel : SriovNetworkNicSelector) (iface : InterfaceExt)
    (node : Node) : Prop :=
  (sel_Vendor sel ≠ "" → ie_Vendor iface = sel_Vendor sel) ∧
  (sel_DeviceID sel ≠ "" → ie_DeviceID iface = sel_DeviceID sel) ∧
  (sel_RootDevices sel ≠ [] → ie_PciAddress iface ∈ sel_RootDevices sel) ∧
  (sel_PfNames sel ≠ [] → ∃ pf name fields, pf ∈ sel_PfNames sel ∧ Split pf "#" = name :: fields ∧
     name ∈ ie_Name iface :: ie_AltNames iface) ∧
  ((∃ ids, table_row NicIDMap (ie_Vendor iface :: ie_DeviceID iface :: ids)) ∨
   (Contains (ToLower (n_ProviderID node)) "openstack" = true ∨ Contains (ToLower (n_ProviderID node)) "aws" = true) ∧
   sel_NetFilter sel ≠ "" ∧ ie_NetFilter iface = sel_NetFilter sel ∧
   ∃ device ids, table_row NicIDMap (ie_Vendor iface :: device :: ie_DeviceID iface :: ids)).

(** A test [field != "" && field != value] that does not fire. *)
Lemma unless_eqb (field value : string) (r k : result WebhookError unit) (e : WebhookError) (P : Prop) :
  (if negb (String.eqb field "") && negb (String.eqb field value) then Err e else k) = r →
  (k = r → match r with Ok _ => P | Err _ => ¬ P | Panic => True end) →
  match r with
  | Ok _ => (field ≠ "" → value = field) ∧ P
  | Err _ => ¬ ((field ≠ "" → value = field) ∧ P)
  | Panic => True
  end.
Proof.
  intros H Hk. destruct (String.eqb_spec field ""), (String.eqb_spec field value); cbn in H.
  1-3: apply Hk in H; destruct r; naive_solver.
  subst r. naive_solver.
Qed.

Lemma unless_empty (l : list string) (b : bool) (r k : result WebhookError unit) (e : WebhookError) (Q P : Prop) :
  (if bool_decide (l ≠ []) && negb b then Err e else k) = r → (b = true ↔ Q) →
  (k = r → match r with Ok _ => P | Err _ => ¬ P | Panic => True end) →
  match r with
  | Ok _ => (l ≠ [] → Q) ∧ P
  | Err _ => ¬ ((l ≠ [] → Q) ∧ P)
  | Panic => True
  end.
Proof.
  intros H Hb Hk. destruct (bool_decide_reflect (l ≠ [])), b; cbn in H.
  1,3,4: apply Hk in H; destruct r; naive_solver.
  subst r. intros [HQ _]. apply HQ, Hb in n. done.
Qed.

Lemma IsVfSupportedModel_row NicIDMap vendor device b :
  IsVfSupportedModel NicIDMap vendor device = Ok b →
  b = true ↔ ∃ pf ids, table_row NicIDMap (vendor :: pf :: device :: ids).
Proof.
  intros H%SupportedModel_go_Ok. rewrite H, table_row_model. split.
  - intros ([|x [|y ids]] & Hr & Hx); [done..|]. injection Hx as ->. eauto.
  - intros (x & ids & Hr). eauto.
Qed.

Lemma vfModelOnPlatform_spec NicIDMap keys sel iface node b :
  vfModelOnPlatform NicIDMap keys sel iface node = Ok b →
  b = true ↔ (∃ key, key ∈ keys ∧ Contains (ToLower (n_ProviderID node)) (ToLower key) = true) ∧
    sel_NetFilter sel ≠ "" ∧ ie_NetFilter iface = sel_NetFilter sel ∧
    ∃ device ids, table_row NicIDMap (ie_Vendor iface :: device :: ie_DeviceID iface :: ids).
Proof.
  induction keys as [|key keys IH]; cbn [vfModelOnPlatform].
  { intros [= <-]. split; [done|]. intros ((key & Hk & _) & _). by apply elem_of_nil in Hk. }
  setoid_rewrite elem_of_cons.
  destruct (Contains _ (ToLower key)) eqn:Hc, (String.eqb_spec (sel_NetFilter sel) "") as [Hf|Hf],
    (String.eqb_spec (sel_NetFilter sel) (ie_NetFilter iface)) as [He|He]; cbn [negb andb];
    try (intros H%IH; rewrite H; clear IH H; split; [naive_solver|];
         intros ((key' & [->|Hk] & Hc') & H1 & H2 & H3); [congruence|naive_solver]).
  destruct (IsVfSupportedModel _ _ _) as [[]| |] eqn:Hm; [| |done..].
  - intros [= <-]. split; [|done]. intros _. split; [by exists key; split; [left|]|]. split_and!; [done..|].
    by apply (IsVfSupportedModel_row _ _ _ _ Hm).
  - intros H%IH. rewrite H. apply IsVfSupportedModel_row in Hm. split; [naive_solver|].
    intros (_ & _ & _ & Hr). apply Hm in Hr. done.
Qed.

Lemma vfModelOnPlatform_no_Err NicIDMap keys sel iface node e : vfModelOnPlatform NicIDMap keys sel iface node ≠ Err e.
Proof. induction keys as [|key keys IH]; cbn [vfModelOnPlatform]; [done|]. by repeat case_match. Qed.

(** The test of the code decides it. *)
Lemma validateNicModel_spec NicIDMap sel iface node :
  match validateNicModel NicIDMap sel iface node with
  | Ok _ => nic_selected NicIDMap sel iface node
  | Err _ => ¬ nic_selected NicIDMap sel iface node
  | Panic => True
  end.
Proof.
  destruct (validateNicModel NicIDMap sel iface node) as [u|e|] eqn:H; [..|done]; unfold validateNicModel in H;
    unfold nic_selected.
  all: refine (unless_eqb _ _ _ _ _ _ H _); clear H; intros H; refine (unless_eqb _ _ _ _ _ _ H _); clear H; intros H;
    refine (unless_empty _ _ _ _ _ _ _ H (StringInArray_spec _ _) _); clear H; intros H;
    refine (unless_empty _ _ _ _ _ _ _ H _ _); clear H;
    [rewrite NameOrAltName_spec; setoid_rewrite list_elem_of_fmap; setoid_rewrite elem_of_cons;
     split; [intros [(pf & Hb & Hpf)|(a & Ha & pf & Hb & Hpf)]; symmetry in Hb; apply pfName_base_spec in Hb as [fs Hb]; eauto 10|
             intros (pf & name & fs & Hpf & Hs & Hn); assert (Hb : pfName_base pf = name) by (apply pfName_base_spec; eauto);
             destruct Hn as [->|Hn]; eauto 10]|intros H].
  all: destruct (IsSupportedModel _ _ _) as [[]| |] eqn:Hm; try discriminate H; apply IsSupportedModel_row in Hm.
  - left. by apply Hm.
  - apply bind_Ok in H as (b & Hb & Hr). destruct b; [|done]. apply vfModelOnPlatform_spec in Hb.
    destruct (proj1 Hb eq_refl) as ((key & Hk & Hc) & Hrest). right. split; [|done].
    unfold PlatformsMap in Hk. rewrite !elem_of_cons in Hk. destruct Hk as [->|[->|Hk]]; [by left|by right|by apply elem_of_nil in Hk].
  - destruct (vfModelOnPlatform _ _ _ _ _) as [b|e'|] eqn:Hb; [|by apply vfModelOnPlatform_no_Err in Hb|done].
    cbn in H. destruct b; [done|]. apply vfModelOnPlatform_spec in Hb. intros [Hr|[Hp Hr]]; [by apply Hm in Hr|].
    enough (false = true) by done. apply Hb. split; [|done].
    destruct Hp; [exists "openstack"|exists "aws"]; (split; [|done]); unfold PlatformsMap; set_solver.
Qed.

(** What one admitted interface satisfies. *)
Definition interface_limits (p : SriovNetworkNodePolicy) (iface : InterfaceExt) : Prop :=
  let spec := p_Spec p in
  (p_Name p ≠ DefaultPolicyName → ps_NumVfs spec ≠ 0) ∧
  (ie_Vendor iface = IntelID → ps_NumVfs spec ≤ ie_TotalVfs iface) ∧
  (ie_Vendor iface = MellanoxID → ps_NumVfs spec ≤ MlxMaxVFs) ∧
  (ps_ExternallyManaged spec = true →
     ps_NumVfs spec ≤ ie_NumVfs iface ∧ (ps_Mtu spec ≠ 0 → ps_Mtu spec ≤ ie_Mtu iface) ∧
     (ps_LinkType spec ≠ "" → EqualFold (ps_LinkType spec) (ie_LinkType iface) = true)) ∧
  (ps_VdpaType spec ∈ [VdpaTypeVirtio; VdpaTypeVhost] → ie_Vendor iface = MellanoxID).

Lemma validateSelectedInterface_spec p iface :
  validateSelectedInterface p iface = None ↔ interface_limits p iface.
Proof.
  unfold validateSelectedInterface, interface_limits. cbn zeta. rewrite <- isVdpa_spec.
  rewrite !guard_None, !andb_false_iff, !negb_false_iff, !Z.gtb_ltb, !Z.ltb_ge, !Z.eqb_eq, !Z.eqb_neq,
    !String.eqb_eq, !String.eqb_neq.
  split.
  - intros (H1 & H2 & H3 & H4 & H5 & H6 & H7 & _). split_and!; intros He.
    + by destruct H1.
    + by destruct H2.
    + by destruct H3.
    + rewrite He in *. destruct H4, H5 as [|[]], H6 as [|[]]; naive_solver.
    + rewrite He in *. by destruct H7.
  - intros (H1 & H2 & H3 & H4 & H5). split_and!; [..|done].
    + destruct (decide (p_Name p = DefaultPolicyName)); auto.
    + destruct (decide (ie_Vendor iface = IntelID)); auto.
    + destruct (decide (ie_Vendor iface = MellanoxID)); auto.
    + destruct (ps_ExternallyManaged (p_Spec p)); [|auto]. right. by apply H4.
    + destruct (ps_ExternallyManaged (p_Spec p)); [|auto]. right.
      destruct (decide (ps_Mtu (p_Spec p) = 0)); [auto|]. right. by apply H4.
    + destruct (ps_ExternallyManaged (p_Spec p)); [|auto]. right.
      destruct (decide (ps_LinkType (p_Spec p) = "")); [auto|]. right. by apply H4.
    + destruct (isVdpa (p_Spec p)); auto.
Qed.

Lemma validateInterfaces_Ok NicIDMap p node ifaces sel log sel' log' :
  validateInterfaces NicIDMap p node ifaces sel log = Ok (sel', log') →
  (∀ iface, iface ∈ ifaces →
     nic_selected NicIDMap (ps_NicSelector (p_Spec p)) iface node →
     interface_limits p iface) ∧
  (sel' = true ↔ sel = true ∨ ∃ iface, iface ∈ ifaces ∧
     nic_selected NicIDMap (ps_NicSelector (p_Spec p)) iface node).
Proof.
  revert sel log. induction ifaces as [|x l IH]; intros sel log; cbn [validateInterfaces].
  - intros [= <- <-]. split; [set_solver|]. set_solver.
  - pose proof (validateNicModel_spec NicIDMap (ps_NicSelector (p_Spec p)) x node) as E.
    destruct (validateNicModel NicIDMap _ x node) as [[]|e|]; [|intros H|done].
    + destruct (validateSelectedInterface p x) eqn:V; [done|]. intros H.
      apply IH in H as [H1 H2]. apply validateSelectedInterface_spec in V. split.
      * intros i [->|Hi]%elem_of_cons; auto.
      * rewrite H2. split; [intros _; right; exists x; split; [left|done]|auto].
    + apply IH in H as [H1 H2]. split.
      * intros i [->|Hi]%elem_of_cons; [done|auto].
      * rewrite H2. split; (intros [?|(i & Hi & Hv)]; [by left|right; exists i; split; [|done]]).
        -- by right.
        -- apply elem_of_cons in Hi as [->|Hi]; [done|done].
Qed.

Lemma validateNodes_Ok NicIDMap nss nps p nodes ns0 is0 errs ns' is' :
  validateNodes NicIDMap nss nps p nodes ns0 is0 errs = Ok (ns', is') →
  (ns' = true ↔ ns0 = true ∨ ∃ node, node ∈ nodes ∧ Policy_Selected p node = true) ∧
  (is' = true → is0 = true ∨ ∃ node s iface, node ∈ nodes ∧ Policy_Selected p node = true ∧
     s ∈ nss ∧ ns_Name s = om_Name (n_meta node) ∧ iface ∈ nst_Interfaces (ns_Status s) ∧
     nic_selected NicIDMap (ps_NicSelector (p_Spec p)) iface node) ∧
  (∀ node s, node ∈ nodes → Policy_Selected p node = true →
     List.find (λ ns, String.eqb (ns_Name ns) (om_Name (n_meta node))) nss = Some s →
     ∀ iface, iface ∈ nst_Interfaces (ns_Status s) →
       nic_selected NicIDMap (ps_NicSelector (p_Spec p)) iface node →
       interface_limits p iface) ∧
  (∀ node, node ∈ nodes → Policy_Selected p node = true →
     validateAgainstPolicies p node
       (List.find (λ ns, String.eqb (ns_Name ns) (om_Name (n_meta node))) nss) nps = Ok tt).
Proof.
  revert ns0 is0 errs. induction nodes as [|node nodes IH]; intros ns0 is0 errs; cbn [validateNodes].
  { intros [= <- <-]. split_and!; set_solver. }
  destruct (Policy_Selected p node) eqn:Sel.
  2:{ intros H. apply IH in H as (H1 & H2 & H3 & H4). split_and!.
      - rewrite H1. split; (intros [?|(n0 & Hi & Hv)]; [by left|right; exists n0; split; [|done]]).
        + by right.
        + apply elem_of_cons in Hi as [->|Hi]; [congruence|done].
      - intros [?|(n0 & s & i & ? & ?)]%H2; [by left|right; exists n0, s, i; split; [by right|done]].
      - intros n0 s [->|Hn]%elem_of_cons; [congruence|by apply H3].
      - intros n0 [->|Hn]%elem_of_cons; [congruence|by apply H4]. }
  assert (Hin : ∃ n0, n0 ∈ node :: nodes ∧ Policy_Selected p n0 = true)
    by (exists node; split; [left|done]).
  unfold validatePolicyForNodeStateAndPolicy at 1.
  destruct (List.find _ nss) as [s|] eqn:F; cbn [mbind result_bind].
  2:{ destruct (validateAgainstPolicies p node None nps) as [[]| |] eqn:V; [|done..].
      cbn [mbind result_bind]. intros H. apply IH in H as (H1 & H2 & H3 & H4).
      split_and!.
      - split; [by right|]. intros _. apply H1. by left.
      - intros [?|(n0 & s & i & ? & ?)]%H2; [by left|right; exists n0, s, i; split; [by right|done]].
      - intros n0 s0 [->|Hn]%elem_of_cons; [congruence|by apply H3].
      - intros n0 [->|Hn]%elem_of_cons; [by rewrite F|by apply H4]. }
  unfold validatePolicyForNodeState. cbn [mbind result_bind].
  destruct (validateInterfaces _ p node _ false []) as [[sel log]| |] eqn:VI; [|done..].
  cbn [mbind result_bind]. apply validateInterfaces_Ok in VI as [L1 L2].
  destruct (validateAgainstPolicies p node (Some s) nps) as [[]| |] eqn:V; [|done..].
  cbn [mbind result_bind]. intros H. apply IH in H as (H1 & H2 & H3 & H4).
  pose proof F as F'. apply List.find_some in F' as [Hs Hname].
  apply list_elem_of_In in Hs. apply String.eqb_eq in Hname.
  split_and!.
  - split; [by right|]. intros _. apply H1. by left.
  - intros [Hb|(n0 & s0 & i & ? & ?)]%H2; [|right; exists n0, s0, i; split; [by right|done]].
    apply orb_true_iff in Hb as [?|[?|(i & ? & ?)]%L2]; [by left|done|].
    right. exists node, s, i. split_and!; [left|done..].
  - intros n0 s0 [->|Hn]%elem_of_cons; [|by apply H3].
    intros _. rewrite F. intros [= <-]. exact L1.
  - intros n0 [->|Hn]%elem_of_cons; [by rewrite F|by apply H4].
Qed.

Lemma validateAgainstPolicies_Ok p node s nps :
  validateAgainstPolicies p node s nps = Ok tt ↔
  ∀ np, np ∈ nps → p_Name np ≠ p_Name p → Policy_Selected np node = true →
    validatePolicyForNodePolicy p np s = Ok tt.
Proof.
  induction nps as [|np nps IH]; cbn [validateAgainstPolicies]; [set_solver|].
  setoid_rewrite elem_of_cons.
  destruct (decide (p_Name np ≠ p_Name p ∧ Policy_Selected np node = true)) as [[Hn Hs]|Hc].
  - rewrite (proj2 (String.eqb_neq _ _) Hn), Hs. cbn [negb andb mbind result_bind]. split.
    + intros (u & V & H)%bind_Ok np' [->|Hin]; [by destruct u|]. by apply IH.
    + intros H. rewrite H by auto. apply IH. auto.
  - replace (negb _ && Policy_Selected np node) with false.
    + cbn [mbind result_bind]. rewrite IH. split; [|auto].
      intros H np' [->|Hin] ? ?; [by exfalso; apply Hc|auto].
    + destruct (String.eqb_spec (p_Name np) (p_Name p)), (Policy_Selected np node); cbn; try done.
      by exfalso; apply Hc.
Qed.

(** ** Conflicts between two policies *)

(** Two parsed pfNames entries. *)
Definition parsed (resolve : string → string) (pf : string) (name : string) (a b : Z) : Prop :=
  ∃ n, ParseVfRange pf = Ok (n, a, b) ∧ resolve n = name.

Lemma ParseVfRange_raw_Ok pf n a b :
  ParseVfRange pf = Ok (n, a, b) → ParseVfRange_raw pf = Some (n, a, b, None).
Proof.
  unfold ParseVfRange. destruct (ParseVfRange_raw pf) as [[[[n' a'] b'] [e|]]|]; naive_solver.
Qed.

Section conflicts.
Context (current previous : SriovNetworkNodePolicy) (resolve : string → string).
Context (Hext : ps_ExternallyManaged (p_Spec current) = ps_ExternallyManaged (p_Spec previous)).

(** Scanning the other policy's entries for one name: silent when none has
    it, otherwise decided by the only one that does. *)
Lemma comparePfNames_spec curPf name a b pres :
  (∀ pf, pf ∈ pres → ∃ n c d, parsed resolve pf n c d) →
  (∀ pf pf' c d c' d', pf ∈ pres → pf' ∈ pres →
     parsed resolve pf name c d → parsed resolve pf' name c' d' → c = c' ∧ d = d') →
  (comparePfNames current previous resolve curPf name a b pres = Ok None ∧
     ∀ pf c d, pf ∈ pres → ¬ parsed resolve pf name c d) ∨
  (∃ pf c d, pf ∈ pres ∧ parsed resolve pf name c d ∧
     (comparePfNames current previous resolve curPf name a b pres = Ok (Some tt) ∧ (b < c ∨ d < a) ∨
      comparePfNames current previous resolve curPf name a b pres =
        Err (EOverlap curPf (p_Name previous)) ∧ c ≤ b ∧ a ≤ d)).
Proof using Hext.
  induction pres as [|pf pres IH]; intros Hp Hu; cbn [comparePfNames]; [left; set_solver|].
  destruct (Hp pf) as (n & c & d & n0 & Hpf & Hn); [left|].
  rewrite (ParseVfRange_raw_Ok _ _ _ _ Hpf), Hn.
  destruct (String.eqb_spec name n) as [->|Hne].
  - right. exists pf, c, d. split; [left|]. split; [by exists n0|].
    unfold validateExternallyManage. rewrite Hext, Bool.eqb_reflx, Z.gtb_ltb.
    destruct (Z.ltb_spec b c), (Z.ltb_spec d a); cbn [orb]; (left + right); split; (done || lia).
  - destruct IH as [[H1 H2]|(pf' & c' & d' & H1 & H2 & H3)].
    + intros; apply Hp; by right.
    + intros pf1 pf2 c1 d1 c2 d2 ? ?. apply Hu; by right.
    + left. split; [done|]. intros pf' c' d' [->|Hin]%elem_of_cons; [|by apply H2].
      intros (n' & Hp' & Hn'). congruence.
    + right. exists pf', c', d'. split; [by right|]. done.
Qed.

Lemma validatePfNames_go_spec curs :
  let pres := sel_PfNames (ps_NicSelector (p_Spec previous)) in
  (∀ pf, pf ∈ curs ∨ pf ∈ pres → ∃ n a b, parsed resolve pf n a b) →
  (∀ cur pre n a b c d cur' pre' n' a' b' c' d',
     cur ∈ curs → pre ∈ pres → parsed resolve cur n a b → parsed resolve pre n c d →
     cur' ∈ curs → pre' ∈ pres → parsed resolve cur' n' a' b' → parsed resolve pre' n' c' d' →
     (a, b, c, d) = (a', b', c', d')) →
  validatePfNames_go current previous resolve curs = Ok tt ↔
  ∀ cur pre n a b c d, cur ∈ curs → pre ∈ pres →
    parsed resolve cur n a b → parsed resolve pre n c d → b < c ∨ d < a.
Proof using Hext.
  cbn zeta. set (pres := sel_PfNames _). induction curs as [|cur curs IH]; intros Hp Hu.
  { cbn. set_solver. }
  cbn [validatePfNames_go]. fold pres.
  destruct (Hp cur) as (n & a & b & n0 & Hcur & Hn); [left; left|]. rewrite Hcur, Hn.
  assert (Hc : parsed resolve cur n a b) by (by exists n0).
  destruct (comparePfNames_spec cur n a b pres)
    as [[-> Hno]|(pre & c & d & Hin & Hpre & [[-> Hd]|(-> & Ho1 & Ho2)])].
  - intros; apply Hp; by right.
  - intros pf pf' c d c' d' ? ? P1 P2.
    assert ((a, b, c, d) = (a, b, c', d')); [|naive_solver].
    apply (Hu cur pf n a b c d cur pf' n a b c' d'); (done || left).
  - cbn [mbind result_bind]. rewrite IH.
    + split; intros H cur' pre' n' a' b' c' d' Hi; [|apply H; by right].
      apply elem_of_cons in Hi as [->|Hi]; [|by apply H].
      intros Hi' (m & E & <-) Hp'. assert (m = n0) as -> by congruence.
      exfalso. rewrite Hn in Hp'. by eapply Hno.
    + intros pf [?|?]; apply Hp; [left; by right|by right].
    + intros x y m e f g h x' y' m' e' f' g' h' ? ? ? ? ? ? ? ?.
      apply (Hu x y m e f g h x' y' m' e' f' g' h'); (done || by right).
  - cbn. split; [|done]. intros _ cur' pre' n' a' b' c' d' ? ? ? ?.
    assert ((a, b, c, d) = (a', b', c', d')); [|naive_solver].
    apply (Hu cur pre n a b c d cur' pre' n' a' b' c' d'); (done || left).
  - cbn. split; [done|]. intros H. destruct (H cur pre n a b c d); (done || left || lia).
Qed.
End conflicts.

(** [validatePfNames] decides whether the VF ranges of two policies
    conflict, as long as they have at most one pair of entries for a common
    interface: it then accepts exactly when the ranges of that pair are
    disjoint (an entry without a range counts as -1..-1). *)
Theorem validatePfNames_exact (current previous : SriovNetworkNodePolicy)
    (ns : option SriovNetworkNodeState)
    (Hext : ps_ExternallyManaged (p_Spec current) = ps_ExternallyManaged (p_Spec previous)) :
  let resolve := λ name, ResolveInterfaceName name ns in
  let curs := sel_PfNames (ps_NicSelector (p_Spec current)) in
  let pres := sel_PfNames (ps_NicSelector (p_Spec previous)) in
  (∀ pf, pf ∈ curs ∨ pf ∈ pres → ∃ n a b, parsed resolve pf n a b) →
  (∀ cur pre n a b c d cur' pre' n' a' b' c' d',
     cur ∈ curs → pre ∈ pres → parsed resolve cur n a b → parsed resolve pre n c d →
     cur' ∈ curs → pre' ∈ pres → parsed resolve cur' n' a' b' → parsed resolve pre' n' c' d' →
     (a, b, c, d) = (a', b', c', d')) →
  validatePfNames current previous ns = Ok tt ↔
  ∀ cur pre n a b c d, cur ∈ curs → pre ∈ pres →
    parsed resolve cur n a b → parsed resolve pre n c d → b < c ∨ d < a.
Proof. intros. by apply validatePfNames_go_spec. Qed.

Lemma parsed_inj resolve pf n a b n' a' b' :
  parsed resolve pf n a b → parsed resolve pf n' a' b' → n = n' ∧ a = a' ∧ b = b'.
Proof. intros (m & E & <-) (m' & E' & <-). rewrite E in E'. naive_solver. Qed.

Lemma validatePfNames_exact_witness :
  validatePfNames (sample_policy "p" "r" 9 8 ["eth0#0-3"]) (sample_policy "q" "r" 9 8 ["eth0#4-7"]) None
    = Ok tt.
Proof.
  assert (P1 : parsed (λ n, ResolveInterfaceName n None) "eth0#0-3" "eth0" 0 3) by (by exists "eth0").
  assert (P2 : parsed (λ n, ResolveInterfaceName n None) "eth0#4-7" "eth0" 4 7) by (by exists "eth0").
  apply validatePfNames_exact; cbn -[parsed]; [done|setoid_rewrite list_elem_of_singleton..].
  - intros pf [->| ->]; eauto.
  - intros ? ? ? ? ? ? ? ? ? ? ? ? ? ? -> -> Q1 Q2 -> -> Q3 Q4.
    destruct (parsed_inj _ _ _ _ _ _ _ _ Q1 Q3) as (? & ? & ?).
    destruct (parsed_inj _ _ _ _ _ _ _ _ Q2 Q4) as (? & ? & ?). congruence.
  - intros ? ? ? ? ? ? ? -> -> Q1 Q2.
    destruct (parsed_inj _ _ _ _ _ _ _ _ Q1 P1) as (? & ? & ?).
    destruct (parsed_inj _ _ _ _ _ _ _ _ Q2 P2) as (? & ? & ?). lia.
Defined.

(** With two common interfaces the check is incomplete: the loop returns at
    the first disjoint pair.  There are two admissible policies whose first
    interface is shared without overlap and whose second one is shared with
    overlapping VFs (2 and 3 of eth1 go to both resources), and the conflict
    check accepts them. *)
Theorem validatePfNames_misses_second_overlap :
  ∃ p q : SriovNetworkNodePolicy,
    staticValidateSriovNetworkNodePolicy [] true p = Ok true ∧
    staticValidateSriovNetworkNodePolicy [] true q = Ok true ∧
    validatePolicyForNodePolicy p q None = Ok tt ∧
    ∃ g h, generatePfNameVfGroup p (sample_ifext "eth1" "0000:01:00.1") = Ok g ∧
      generatePfNameVfGroup q (sample_ifext "eth1" "0000:01:00.1") = Ok h ∧
      isVFRangeOverlapping g h = Ok true.
Proof.
  exists (sample_policy "p" "r1" 99 8 ["eth0#0-3"; "eth1#0-3"]).
  exists (sample_policy "q" "r2" 99 8 ["eth0#4-7"; "eth1#2-5"]).
  do 3 (split; [vm_compute; reflexivity|]).
  do 2 eexists. do 2 (split; [vm_compute; reflexivity|]). vm_compute. reflexivity.
Qed.

(** ** What admission guarantees *)

(** An entry of pfNames: a name alone, which counts as the range -1..-1, or
    "name#a-b". *)
Definition pf_entry (pf name : string) (a b : Z) : Prop :=
  ContainsByte "#" pf = false ∧ name = pf ∧ a = -1 ∧ b = -1 ∨
  ∃ r0 r1, Split pf "#" = [name; r0 +:+ "-" +:+ r1] ∧ ContainsByte "-" r0 = false ∧ ContainsByte "-" r1 = false ∧
    Atoi r0 = (a, None) ∧ Atoi r1 = (b, None).

Lemma pf_entry_parsed pf name a b : pf_entry pf name a b → ParseVfRange pf = Ok (name, a, b).
Proof.
  intros [(H & -> & -> & ->)|(r0 & r1 & Hs & H0 & H1 & A0 & A1)]; [by rewrite ParseVfRange_plain|].
  assert (Hc : ContainsByte "#" pf = true).
  { destruct (ContainsByte "#" pf) eqn:E; [done|]. rewrite Split_none in Hs by done. discriminate Hs. }
  unfold ParseVfRange, ParseVfRange_raw, SplitDeviceFromRange, parseRange_raw. rewrite Hc, Hs.
  change ("-" +:+ r1) with (String "-" r1). rewrite Split_app, (Split_none r1), A0, A1 by done.
  destruct r0; done.
Qed.

Lemma pf_entry_inj pf n a b n' a' b' : pf_entry pf n a b → pf_entry pf n' a' b' → n = n' ∧ a = a' ∧ b = b'.
Proof. intros H%pf_entry_parsed H'%pf_entry_parsed. rewrite H in H'. naive_solver. Qed.

Lemma static_rules_entries NicIDMap dev p pf :
  static_rules NicIDMap dev p → pf ∈ sel_PfNames (ps_NicSelector (p_Spec p)) → ∃ n a b, pf_entry pf n a b.
Proof.
  intros Hs Hpf. destruct (ContainsByte "#" pf) eqn:E; [|exists pf, (-1), (-1); by left].
  destruct (sr_pfs _ _ _ Hs pf Hpf E) as (name & r0 & r1 & a & b & ? & ? & ? & ? & ? & _).
  exists name, a, b. right. by exists r0, r1.
Qed.

(** The names are only looked up. *)
Lemma validatePfNames_go_ext current previous f g curs :
  (∀ name, f name = g name) → validatePfNames_go current previous f curs = validatePfNames_go current previous g curs.
Proof.
  intros H. assert (Hcmp : ∀ cur n a b pres, comparePfNames current previous f cur n a b pres = comparePfNames current previous g cur n a b pres).
  { intros cur n a b pres. induction pres as [|pf pres IH]; cbn [comparePfNames]; [done|].
    destruct (ParseVfRange_raw pf) as [[[[m c] d] e]|]; [|done]. by rewrite H, IH. }
  induction curs as [|cur curs IH]; cbn [validatePfNames_go]; [done|].
  destruct (ParseVfRange cur) as [[[n a] b]| |]; [|done..]. by rewrite Hcmp, H, IH.
Qed.

Section conflict_free.
(** The names and alternative names of the node's interfaces. *)
Context (resolve : string → string).

(** Two entries name the same interface. *)
Definition same_interface (pf pf' : string) : Prop :=
  ∃ n a b n' a' b', pf_entry pf n a b ∧ pf_entry pf' n' a' b' ∧ resolve n = resolve n'.

(** What two policies for one node are checked for: they share no root device;
    for one resource they agree on excludeTopology; and of the entries of
    pfNames, the first pair (in the order of the new policy, then of the other
    one) that names one interface is of policies that agree on
    externallyManaged, with disjoint ranges. *)
Record conflict_free (current previous : SriovNetworkNodePolicy) : Prop := {
  co_root : ∀ d, d ∈ sel_RootDevices (ps_NicSelector (p_Spec current)) →
    d ∉ sel_RootDevices (ps_NicSelector (p_Spec previous));
  co_topology : ps_ResourceName (p_Spec current) = ps_ResourceName (p_Spec previous) →
    ps_ExcludeTopology (p_Spec current) = ps_ExcludeTopology (p_Spec previous);
  co_pf :
    let curs := sel_PfNames (ps_NicSelector (p_Spec current)) in
    let pres := sel_PfNames (ps_NicSelector (p_Spec previous)) in
    (∀ pf, pf ∈ pres → ∃ n a b, pf_entry pf n a b) →
    ∀ i j cur pre n a b n' c d, curs !! i = Some cur → pres !! j = Some pre →
      pf_entry cur n a b → pf_entry pre n' c d → resolve n = resolve n' →
      (∀ i' j' cur' pre', (i' < i ∨ i' = i ∧ j' < j)%nat → curs !! i' = Some cur' → pres !! j' = Some pre' →
         ¬ same_interface cur' pre') →
      ps_ExternallyManaged (p_Spec current) = ps_ExternallyManaged (p_Spec previous) ∧ (b < c ∨ d < a);
}.

(** The scan for one entry ends at the first entry for the same interface. *)
Lemma comparePfNames_first current previous cur name a b pres r :
  (∀ pf, pf ∈ pres → ∃ n c d, pf_entry pf n c d) →
  comparePfNames current previous resolve cur name a b pres = Ok r →
  match r with
  | None => ∀ pf n c d, pf ∈ pres → pf_entry pf n c d → resolve n ≠ name
  | Some _ => ∃ j pre n c d, pres !! j = Some pre ∧ pf_entry pre n c d ∧ resolve n = name ∧
      (∀ j' pre' n' c' d', (j' < j)%nat → pres !! j' = Some pre' → pf_entry pre' n' c' d' → resolve n' ≠ name) ∧
      ps_ExternallyManaged (p_Spec current) = ps_ExternallyManaged (p_Spec previous) ∧ (b < c ∨ d < a)
  end.
Proof using Type.
  induction pres as [|pf pres IH]; intros Hwf; cbn [comparePfNames].
  { intros [= <-]. intros pf n c d Hpf. by apply elem_of_nil in Hpf. }
  destruct (Hwf pf) as (n & c & d & Hpf); [left|].
  rewrite (ParseVfRange_raw_Ok _ _ _ _ (pf_entry_parsed _ _ _ _ Hpf)).
  destruct (String.eqb_spec name (resolve n)) as [->|Hne].
  - unfold validateExternallyManage. destruct (Bool.eqb _ _) eqn:He; [|done]. apply eqb_prop in He. rewrite Z.gtb_ltb.
    destruct (Z.ltb_spec b c), (Z.ltb_spec d a); cbn [orb]; try done; intros [= <-];
      exists 0%nat, pf, n, c, d; (split_and!; [done..|intros; lia|done|by auto]).
  - intros H. specialize (IH (λ pf' Hin, Hwf pf' (list_elem_of_further _ _ _ Hin)) H). destruct r as [u|].
    + destruct IH as (j & pre & n' & c' & d' & Hj & He & Hn & Hfirst & Hrest).
      exists (S j), pre, n', c', d'. split_and!; [done..| |apply Hrest|apply Hrest].
      intros [|j'] pre' m e f Hlt Hp Hm; cbn in Hp.
      * simplify_eq. destruct (pf_entry_inj _ _ _ _ _ _ _ Hpf Hm) as (-> & _). congruence.
      * eapply Hfirst; [|done..]. lia.
    + intros pf' m e f [->|Hin]%elem_of_cons Hm; [|by eapply IH].
      destruct (pf_entry_inj _ _ _ _ _ _ _ Hpf Hm) as (-> & _). congruence.
Qed.

(** The scan of the new policy ends with the first pair. *)
Lemma validatePfNames_go_first current previous curs :
  let pres := sel_PfNames (ps_NicSelector (p_Spec previous)) in
  (∀ pf, pf ∈ curs ∨ pf ∈ pres → ∃ n a b, pf_entry pf n a b) →
  validatePfNames_go current previous resolve curs = Ok tt →
  ∀ i j cur pre n a b n' c d, curs !! i = Some cur → pres !! j = Some pre →
    pf_entry cur n a b → pf_entry pre n' c d → resolve n = resolve n' →
    (∀ i' j' cur' pre', (i' < i ∨ i' = i ∧ j' < j)%nat → curs !! i' = Some cur' → pres !! j' = Some pre' →
       ¬ same_interface cur' pre') →
    ps_ExternallyManaged (p_Spec current) = ps_ExternallyManaged (p_Spec previous) ∧ (b < c ∨ d < a).
Proof using Type.
  cbn zeta. set (pres := sel_PfNames _).
  induction curs as [|cur0 curs IH]; intros Hwf Hgo i j cur pre n a b n' c d Hi Hj Hcur Hpre Heq Hfirst; [done|].
  cbn [validatePfNames_go] in Hgo. fold pres in Hgo.
  destruct (Hwf cur0) as (n0 & a0 & b0 & Hcur0); [left; left|]. rewrite (pf_entry_parsed _ _ _ _ Hcur0) in Hgo.
  apply bind_Ok in Hgo as (r & Hr & Hgo). apply comparePfNames_first in Hr; [|by auto]. destruct i as [|i]; cbn in Hi.
  - injection Hi as ->. destruct (pf_entry_inj _ _ _ _ _ _ _ Hcur0 Hcur) as (-> & -> & ->).
    destruct r as [u|]; [|by destruct (Hr pre n' c d); [by eapply list_elem_of_lookup_2|..]].
    destruct Hr as (j1 & pre1 & n1 & c1 & d1 & Hj1 & He1 & Hn1 & Hno & Hext & Hdis).
    destruct (Nat.lt_trichotomy j1 j) as [Hlt|[->|Hlt]].
    + destruct (Hfirst 0%nat j1 cur pre1); [lia|done..|]. by exists n, a, b, n1, c1, d1.
    + rewrite Hj in Hj1. injection Hj1 as ->. destruct (pf_entry_inj _ _ _ _ _ _ _ Hpre He1) as (_ & -> & ->). done.
    + by destruct (Hno j pre n' c d Hlt Hj Hpre).
  - destruct r as [u|].
    + destruct Hr as (j1 & pre1 & n1 & c1 & d1 & Hj1 & He1 & Hn1 & _).
      exfalso. apply (Hfirst 0%nat j1 cur0 pre1); [lia|done..|]. by exists n0, a0, b0, n1, c1, d1.
    + eapply (IH ltac:(intros pf [?|?]; apply Hwf; [left; by right|by right]) Hgo i j); eauto. intros i' j' cur' pre' Hlt Hi'. apply (Hfirst (S i') j'); [lia|done].
Qed.

Lemma validatePolicyForNodePolicy_conflict_free current previous ns :
  (∀ name, resolve name = ResolveInterfaceName name ns) →
  (∀ pf, pf ∈ sel_PfNames (ps_NicSelector (p_Spec current)) → ∃ n a b, pf_entry pf n a b) →
  p_Name previous ≠ p_Name current → validatePolicyForNodePolicy current previous ns = Ok tt → conflict_free current previous.
Proof using Type.
  intros Hres Hwf Hne. unfold validatePolicyForNodePolicy. rewrite (proj2 (String.eqb_neq _ _)) by congruence.
  rewrite bind_Ok. intros ([] & Hpf & Hc). apply check_bind in Hc as [Hroot Htop].
  split.
  - intros d Hd Hd'. apply (proj1 (firstError_None _ _)) with (x := d) in Hroot; [|done]. cbn in Hroot.
    destruct (existsb (String.eqb d) _) eqn:E; [done|]. rewrite <- not_true_iff_false, existsb_exists in E. apply E.
    exists d. split; [by apply list_elem_of_In|apply String.eqb_refl].
  - intros Hr. unfold validateExludeTopologyField in Htop. rewrite (proj2 (String.eqb_eq _ _) Hr) in Htop. cbn [negb] in Htop.
    destruct (Bool.eqb _ _) eqn:E; [by apply eqb_prop in E|done].
  - cbn zeta. intros Hpres. apply validatePfNames_go_first; [intros pf [?|?]; auto|].
    rewrite <- Hpf. apply validatePfNames_go_ext, Hres.
Qed.
End conflict_free.



(** The flags of the package are shared: a review running at the same time that
    sets them lets a policy through that is about no NIC of any node. *)
Theorem concurrent_review_admits :
  ∃ p nodes nss, (validateSriovNetworkNodePolicy ["15b3 1017 1018"] "sriov" false (λ _, (true, true)) p Create
      (Some nodes) (Some nss) (Some [])).2 = Ok true ∧
    (validateSriovNetworkNodePolicy ["15b3 1017 1018"] "sriov" false (λ f, f) p Create
      (Some nodes) (Some nss) (Some [])).2 = Err (ENoInterface (p_Name p)) ∧ nss = [].
Proof.
  exists (sample_policy "p" "res" 99 8 ["eth0#0-3"]), [mkNode (sample_meta "node1") "" false], [].
  split_and!; [vm_compute; reflexivity..|done].
Qed.

(** The operator configuration: apart from deletion, only the object named
    default in the operator's namespace is admitted, and one that turns
    [disableDrain] on (from false, when an object exists) only while no node
    is being updated. *)
Theorem validateSriovOperatorConfig_spec (Namespace : string) (cr prev : SriovOperatorConfig)
    (op : Operation) (items : list SriovNetworkNodeState) (w : list string) (b : bool)
    (Hop : op ≠ Delete) :
  validateSriovOperatorConfig Namespace cr op (Found prev) (Some items) = (w, Ok b) ↔
  b = true ∧ om_Name (opc_meta cr) = DefaultConfigName ∧ om_Namespace (opc_meta cr) = Namespace ∧
  w = (if ocs_DisableDrain (opc_Spec cr) then [drainWarning] else []) ∧
  (ocs_DisableDrain (opc_Spec cr) = true → ocs_DisableDrain (opc_Spec prev) = false →
   ∀ ns, ns ∈ items → nst_SyncStatus (ns_Status ns) ≠ SyncStatusInProgress).
Proof.
  unfold validateSriovOperatorConfig, validateSriovOperatorConfigDisableDrain.
  rewrite decide_False by done.
  destruct (String.eqb_spec (om_Name (opc_meta cr)) DefaultConfigName),
    (String.eqb_spec (om_Namespace (opc_meta cr)) Namespace); cbn; [|split; [done|naive_solver]..].
  destruct (ocs_DisableDrain (opc_Spec cr)), (ocs_DisableDrain (opc_Spec prev)); cbn;
    [split; [intros [= <- <-]|]; naive_solver| |split; [intros [= <- <-]|]; naive_solver..].
  destruct (List.find _ items) as [ns|] eqn:F.
  - apply List.find_some in F as [Hi Hs]. apply list_elem_of_In in Hi. apply String.eqb_eq in Hs.
    split; [done|]. intros (_ & _ & _ & _ & H). by destruct (H eq_refl eq_refl ns Hi).
  - split; [intros [= <- <-]; split_and!; try done|by intros (-> & _ & _ & -> & _)].
    intros _ _ ns Hi Hs. apply list_elem_of_In in Hi. apply (List.find_none _ _ F) in Hi.
    by rewrite Hs in Hi.
Qed.

Lemma validateSriovOperatorConfig_spec_witness :
  let spec d := mkOperatorConfigSpec ∅ true true 0 d false "" false [] ∅ ∅ in
  validateSriovOperatorConfig "sriov" (mkOperatorConfig (mkObjectMeta "default" "sriov" 1 ∅ ∅ []) (spec true))
    Update (Found (mkOperatorConfig (mkObjectMeta "default" "sriov" 1 ∅ ∅ []) (spec false))) (Some [])
  = ([drainWarning], Ok true).
Proof. apply validateSriovOperatorConfig_spec; [done|]. split_and!; try done. intros; set_solver. Defined.
