(* ===== verification/Json.v ===== *)
(** * JSON values and unstructured objects

    A decoded JSON value, and the accessors of apimachinery's package
    unstructured (vendor/k8s.io/apimachinery/pkg/apis/meta/v1/unstructured) that
    the repository uses.  Their slices and maps are copies, so values need no
    identity. *)
From S2P Require Import Prelude GoLib.

(** A decoded JSON value; the keys of an object are distinct. *)
Inductive json :=
| JNull
| JBool (b : bool)
| JNum (n : Z)
| JStr (s : string)
| JArr (l : list json)
| JObj (m : list (string * json)).

Fixpoint jget (m : list (string * json)) (k : string) : option json :=
  match m with
  | [] => None
  | (k', v) :: rest => if String.eqb k' k then Some v else jget rest k
  end.

(** The value of a string member, Go's zero value [""] for anything else. *)
Definition jstring (v : option json) : option string :=
  match v with Some (JStr s) => Some s | _ => None end.

Fixpoint jset (m : list (string * json)) (k : string) (v : json) : list (string * json) :=
  match m with
  | [] => [(k, v)]
  | (k', v') :: rest => if String.eqb k' k then (k', v) :: rest else (k', v') :: jset rest k v
  end.

Abbreviation jobj := (list (string * json)).

Definition jdelete (m : jobj) (k : string) : jobj := List.filter (λ kv, negb (String.eqb kv.1 k)) m.

(** reflect.DeepEqual on such values: the order of the members of an object is
    not observable. *)
Fixpoint jeq (a b : json) : bool :=
  match a, b with
  | JNull, JNull => true
  | JBool x, JBool y => Bool.eqb x y
  | JNum x, JNum y => x =? y
  | JStr x, JStr y => String.eqb x y
  | JArr l, JArr l' =>
      (fix all (l l' : list json) : bool :=
         match l, l' with
         | [], [] => true
         | x :: r, y :: r' => jeq x y && all r r'
         | _, _ => false
         end) l l'
  | JObj m, JObj m' =>
      bool_decide (length m = length m') &&
      (fix all (m : jobj) : bool :=
         match m with
         | [] => true
         | (k, x) :: r => match jget m' k with Some y => jeq x y | None => false end && all r
         end) m
  | _, _ => false
  end.

(** ** Nested fields *)

(** Found, absent, or an error on the way. *)
Inductive Nested (A : Type) := NFound (a : A) | NMissing | NError (msg : string).
Arguments NFound {A} a.
Arguments NMissing {A}.
Arguments NError {A} msg.

Fixpoint NestedField (v : json) (fields : list string) : Nested json :=
  match fields with
  | [] => NFound v
  | f :: rest =>
      match v with
      | JNull => NMissing
      | JObj m => match jget m f with Some w => NestedField w rest | None => NMissing end
      | _ => NError "accessor error: expected map[string]interface{}"
      end
  end.

Definition NestedString (m : jobj) (fields : list string) : Nested string :=
  match NestedField (JObj m) fields with
  | NFound (JStr s) => NFound s
  | NFound _ => NError "accessor error: expected string"
  | NMissing => NMissing
  | NError e => NError e
  end.

Definition NestedSlice (m : jobj) (fields : list string) : Nested (list json) :=
  match NestedField (JObj m) fields with
  | NFound (JArr l) => NFound l
  | NFound _ => NError "accessor error: expected []interface{}"
  | NMissing => NMissing
  | NError e => NError e
  end.

(** [NestedNullCoercingStringMap] as its callers use it: nil for anything but a
    map of strings and nulls. *)
Fixpoint string_members (m : jobj) : option (gmap string string) :=
  match m with
  | [] => Some ∅
  | (k, JStr s) :: rest => <[k := s]> <$> string_members rest
  | (k, JNull) :: rest => <[k := ""]> <$> string_members rest
  | _ => None
  end.

Definition NestedStringMap (m : jobj) (fields : list string) : option (gmap string string) :=
  match NestedField (JObj m) fields with
  | NFound (JObj n) => string_members n
  | _ => None
  end.

(** [None]: a level on the way is not a map. *)
Fixpoint SetNestedField (m : jobj) (value : json) (field : string) (fields : list string) : option jobj :=
  match fields with
  | [] => Some (jset m field value)
  | f :: rest =>
      match jget m field with
      | Some (JObj n) => (λ n', jset m field (JObj n')) <$> SetNestedField n value f rest
      | Some _ => None
      | None => (λ n', jset m field (JObj n')) <$> SetNestedField [] value f rest
      end
  end.

(** The callers that ignore the error. *)
Definition setNestedField (m : jobj) (value : json) (field : string) (fields : list string) : jobj :=
  default m (SetNestedField m value field fields).

Definition RemoveNestedField2 (m : jobj) (f g : string) : jobj :=
  match jget m f with
  | Some (JObj n) => jset m f (JObj (jdelete n g))
  | _ => m
  end.

Definition string_map (m : gmap string string) : json := JObj (prod_map id JStr <$> map_to_list m).

(** ** Unstructured objects *)

Definition getNestedString (m : jobj) (fields : list string) : string :=
  match NestedString m fields with NFound s => s | _ => "" end.

Definition uns_Kind (m : jobj) : string := getNestedString m ["kind"].
Definition uns_Name (m : jobj) : string := getNestedString m ["metadata"; "name"].
Definition uns_Namespace (m : jobj) : string := getNestedString m ["metadata"; "namespace"].
Definition uns_ResourceVersion (m : jobj) : string := getNestedString m ["metadata"; "resourceVersion"].

(** The group of [apiVersion]; none when there is more than one slash. *)
Definition uns_Group (m : jobj) : option string :=
  match Split (getNestedString m ["apiVersion"]) "/" with
  | [_] => Some ""
  | [group; _] => Some group
  | _ => None
  end.

(** [gvk.Group == group && gvk.Kind == kind]; on an error both are empty. *)
Definition uns_is (group kind : string) (m : jobj) : bool :=
  match uns_Group m with
  | Some g => String.eqb g group && String.eqb (uns_Kind m) kind
  | None => String.eqb "" group && String.eqb "" kind
  end.

Definition uns_Annotations (m : jobj) : option (gmap string string) := NestedStringMap m ["metadata"; "annotations"].
Definition uns_Labels (m : jobj) : option (gmap string string) := NestedStringMap m ["metadata"; "labels"].
Definition uns_set_Annotations (a : gmap string string) (m : jobj) : jobj :=
  setNestedField m (string_map a) "metadata" ["annotations"].
Definition uns_set_Labels (a : gmap string string) (m : jobj) : jobj :=
  setNestedField m (string_map a) "metadata" ["labels"].
Definition uns_set_ResourceVersion (v : string) (m : jobj) : jobj :=
  if String.eqb v "" then RemoveNestedField2 m "metadata" "resourceVersion"
  else setNestedField m (JStr v) "metadata" ["resourceVersion"].

(** ** Lemmas *)

Lemma jget_jset_same m k v : jget (jset m k v) k = Some v.
Proof.
  induction m as [|[k' v'] m IH]; cbn; [by rewrite String.eqb_refl|].
  destruct (String.eqb k' k) eqn:E; cbn; rewrite E; [done|exact IH].
Qed.

Lemma jget_jset_other m k k' v : k' ≠ k → jget (jset m k v) k' = jget m k'.
Proof.
  intros Hne. induction m as [|[k0 v0] m IH]; cbn.
  - by rewrite (proj2 (String.eqb_neq k k')) by done.
  - destruct (String.eqb_spec k0 k) as [->|]; cbn; [|by rewrite IH].
    by rewrite (proj2 (String.eqb_neq k k')) by done.
Qed.
