(* ===== verification/Mutate.v ===== *)
(** * The admission handlers (pkg/webhook/webhook.go, mutate.go)

    The mutating handler works on the decoded JSON object, a
    [map[string]interface{}], and answers with a JSON patch.  A failed type
    assertion in its one-result form panics; in its two-result form it gives
    [ok = false].  The validating handler decodes the object of the request and
    hands it to the validator of its kind (Webhook.v). *)
From S2P Require Import Prelude GoLib Types Json Webhook.

Record Patch := mkPatch { pt_op : string; pt_path : string; pt_value : json }.

Definition defaultPriorityPatch := mkPatch "add" "/spec/priority" (JNum 99).
Definition defaultIsRdmaPatch := mkPatch "add" "/spec/isRdma" (JBool false).
Definition InfiniBandIsRdmaPatch := mkPatch "add" "/spec/isRdma" (JBool true).

(** The patches of the (allowed) response; [None] when it carries no patch. *)
Definition mutateSriovNetworkNodePolicy (cr : list (string * json))
    : result unit (option (list Patch)) :=
  match jget cr "metadata" with
  | Some (JObj metadata) =>
      if match jget metadata "name" with
         | Some (JStr name) => String.eqb name DefaultPolicyName
         | _ => false
         end
      then Ok None
      else match jget cr "spec" with
      | Some (JObj specMap) =>
          let patchs :=
            (match jget specMap "priority" with None => [defaultPriorityPatch] | Some _ => [] end) ++
            (match jget specMap "isRdma" with None => [defaultIsRdmaPatch] | Some _ => [] end) ++
            (match jstring (jget specMap "linkType") with
             | Some str =>
                 if EqualFold str LinkTypeIB then
                   let devType := default "" (jstring (jget specMap "deviceType")) in
                   if negb (EqualFold devType DeviceTypeVfioPci) then [InfiniBandIsRdmaPatch] else []
                 else []
             | None => []
             end) in
          Ok (Some patchs)
      | _ => Ok None
      end
  | _ => Panic
  end.

(** ** What the API server makes of the answer

    RFC 6902: [add] at an existing member replaces it, at a new one appends
    it. *)

(** The member of [spec] a path of the three patches names. *)
Definition specMember (p : Patch) : string :=
  if String.eqb (pt_path p) "/spec/priority" then "priority" else "isRdma".

Definition applyPatches (spec : list (string * json)) (ps : list Patch) : list (string * json) :=
  foldl (λ m p, jset m (specMember p) (pt_value p)) spec ps.

Definition wantsIbRdma (spec : list (string * json)) : bool :=
  match jstring (jget spec "linkType") with
  | Some str => EqualFold str LinkTypeIB &&
                negb (EqualFold (default "" (jstring (jget spec "deviceType"))) DeviceTypeVfioPci)
  | None => false
  end.

(** The defaults a policy gets: after the patch its priority is the given
    one or 99 (the lowest), its isRdma is true for an InfiniBand link unless
    the device type is vfio-pci -- whatever it was before -- and otherwise the
    given one or false; no other member of the spec is touched. *)
Theorem mutate_defaults (cr metadata spec : list (string * json)) (name : json)
    (Hm : jget cr "metadata" = Some (JObj metadata))
    (Hn : jget metadata "name" = Some name) (Hd : name ≠ JStr DefaultPolicyName)
    (Hs : jget cr "spec" = Some (JObj spec)) :
  ∃ ps, mutateSriovNetworkNodePolicy cr = Ok (Some ps) ∧
    let spec' := applyPatches spec ps in
    jget spec' "priority" = Some (default (JNum 99) (jget spec "priority")) ∧
    jget spec' "isRdma" =
      (if wantsIbRdma spec then Some (JBool true)
       else Some (default (JBool false) (jget spec "isRdma"))) ∧
    ∀ k, k ≠ "priority" → k ≠ "isRdma" → jget spec' k = jget spec k.
Proof.
  unfold mutateSriovNetworkNodePolicy. rewrite Hm, Hn, Hs.
  replace (match name with JStr n => String.eqb n DefaultPolicyName | _ => false end) with false.
  2:{ destruct name; try done. destruct (String.eqb_spec s DefaultPolicyName); congruence. }
  eexists. split; [done|]. cbn zeta. unfold wantsIbRdma.
  destruct (jget spec "priority") as [vp|] eqn:P, (jget spec "isRdma") as [vr|] eqn:R,
    (jstring (jget spec "linkType")) as [str|]; cbn [app].
  all: try destruct (EqualFold str LinkTypeIB); try destruct (EqualFold _ DeviceTypeVfioPci);
    cbn [app negb andb applyPatches foldl specMember pt_path pt_value defaultPriorityPatch
         defaultIsRdmaPatch InfiniBandIsRdmaPatch String.eqb Ascii.eqb Bool.eqb default].
  all: split_and!; intros; repeat (rewrite jget_jset_same || (rewrite jget_jset_other by done)); auto.
Qed.

Lemma mutate_defaults_witness :
  ∃ ps, mutateSriovNetworkNodePolicy
          [("metadata", JObj [("name", JStr "p")]); ("spec", JObj [("linkType", JStr "ib")])] =
        Ok (Some ps) ∧
    jget (applyPatches [("linkType", JStr "ib")] ps) "isRdma" = Some (JBool true).
Proof.
  destruct (mutate_defaults
    [("metadata", JObj [("name", JStr "p")]); ("spec", JObj [("linkType", JStr "ib")])]
    [("name", JStr "p")] [("linkType", JStr "ib")] (JStr "p")
    eq_refl eq_refl ltac:(done) eq_refl) as (ps & H1 & _ & H2 & _).
  exists ps. split; [exact H1|]. exact H2.
Defined.

(** ** Reviews *)

Record AdmissionRequest := mkAdmissionRequest {
  ar_Kind : string;
  ar_Operation : Operation;
  ar_Object : string;
  ar_OldObject : string;
}.

(** [ad_Message] and [ad_Reason]: of the result's status. *)
Record AdmissionResponse := mkAdmissionResponse {
  ad_Allowed : bool;
  ad_Warnings : list string;
  ad_Patch : option (list Patch);
  ad_Message : string;
  ad_Reason : string;
}.

Definition toV1AdmissionResponse (err : string) : AdmissionResponse := mkAdmissionResponse false [] None err "".

(** What the API server answers to the lists and gets of the validators. *)
Record ClusterView := mkClusterView {
  cv_nodes : option (list Node);
  cv_states : option (list SriovNetworkNodeState);
  cv_policies : option (list SriovNetworkNodePolicy);
  cv_config : GetResult SriovOperatorConfig;
}.

Section reviews.
Context (NicIDMap : list string) (Namespace : string) (devMode : bool).
(** The other reviews, on the flags of the package. *)
Context (others : bool * bool → bool * bool).
(** json.Unmarshal into a map and into the types; of a network the metadata and
    [Spec.NetworkNamespace] are used. *)
Context (UnmarshalMap : string → string + list (string * json)).
Context (UnmarshalPolicy : string → string + SriovNetworkNodePolicy).
Context (UnmarshalConfig : string → string + SriovOperatorConfig).
Context (UnmarshalPool : string → string + SriovNetworkPoolConfig).
Context (UnmarshalNetwork : string → string → string + ObjectMeta * string).
Context (Error : WebhookError → string).

Definition MutateCustomResource (ar : AdmissionRequest) : result unit AdmissionResponse :=
  match UnmarshalMap (ar_Object ar) with
  | inl err => Ok (toV1AdmissionResponse err)
  | inr cr =>
      match mutateSriovNetworkNodePolicy cr with
      | Ok patches => Ok (mkAdmissionResponse true [] patches "" "")
      | Err _ => Ok (toV1AdmissionResponse "failed to marshal")
      | Panic => Panic
      end
  end.

(** The three results of a validator in the response. *)
Definition reviewed (r : list string * result WebhookError bool) : result unit AdmissionResponse :=
  match r.2 with
  | Ok allowed => Ok (mkAdmissionResponse allowed r.1 None "" "")
  | Err e => Ok (mkAdmissionResponse false r.1 None "" (Error e))
  | Panic => Panic
  end.

Definition validateNetwork (n : ObjectMeta * string) : list string * result WebhookError bool :=
  ([], match validateNetworkNamespace Namespace n.1 n.2 with Some e => Err e | None => Ok true end).

Definition networkKinds : list string := ["SriovNetwork"; "SriovIBNetwork"; "OVSNetwork"].

Definition decoded {A} (r : string + A) (validate : A → list string * result WebhookError bool)
    : result unit AdmissionResponse :=
  match r with
  | inl err => Ok (toV1AdmissionResponse err)
  | inr a => reviewed (validate a)
  end.

Definition ValidateCustomResource (view : ClusterView) (ar : AdmissionRequest) : result unit AdmissionResponse :=
  let raw := if decide (ar_Operation ar = Delete) then ar_OldObject ar else ar_Object ar in
  let op := ar_Operation ar in
  if String.eqb (ar_Kind ar) "SriovNetworkNodePolicy" then
    decoded (UnmarshalPolicy raw) (λ policy,
      validateSriovNetworkNodePolicy NicIDMap Namespace devMode others policy op (cv_nodes view) (cv_states view) (cv_policies view))
  else if String.eqb (ar_Kind ar) "SriovOperatorConfig" then
    decoded (UnmarshalConfig raw) (λ config,
      validateSriovOperatorConfig Namespace config op (cv_config view) (cv_states view))
  else if String.eqb (ar_Kind ar) "SriovNetworkPoolConfig" then
    decoded (UnmarshalPool raw) (λ config, validateSriovNetworkPoolConfig config op)
  else if bool_decide (ar_Kind ar ∈ networkKinds) then decoded (UnmarshalNetwork (ar_Kind ar) raw) validateNetwork
  else Ok (mkAdmissionResponse true [] None "" "").

Lemma decoded_allowed {A} (r : string + A) validate resp :
  decoded r validate = Ok resp → ad_Allowed resp = true → ∃ a, r = inr a ∧ (validate a).2 = Ok true.
Proof using Type.
  destruct r as [e|a]; cbn; [by intros [= <-]|]. unfold reviewed. destruct (validate a).2 as [b|e|] eqn:E; cbn; [|by intros [= <-]|done].
  intros [= <-]. cbn. intros ->. eauto.
Qed.

(** Nothing invalid is let through: an allowed request for one of the
    operator's kinds decodes (the old object when it deletes) and its validator
    accepts it; requests for other kinds are always allowed. *)
Theorem ValidateCustomResource_allows (view : ClusterView) (ar : AdmissionRequest) (resp : AdmissionResponse) :
  ValidateCustomResource view ar = Ok resp → ad_Allowed resp = true →
  let raw := if decide (ar_Operation ar = Delete) then ar_OldObject ar else ar_Object ar in
  (ar_Kind ar = "SriovNetworkNodePolicy" → ∃ p, UnmarshalPolicy raw = inr p ∧
     (validateSriovNetworkNodePolicy NicIDMap Namespace devMode others p (ar_Operation ar)
        (cv_nodes view) (cv_states view) (cv_policies view)).2 = Ok true) ∧
  (ar_Kind ar = "SriovOperatorConfig" → ∃ c, UnmarshalConfig raw = inr c ∧
     (validateSriovOperatorConfig Namespace c (ar_Operation ar) (cv_config view) (cv_states view)).2 = Ok true) ∧
  (ar_Kind ar = "SriovNetworkPoolConfig" → ∃ c, UnmarshalPool raw = inr c ∧
     (validateSriovNetworkPoolConfig c (ar_Operation ar)).2 = Ok true) ∧
  (ar_Kind ar ∈ networkKinds → ∃ n, UnmarshalNetwork (ar_Kind ar) raw = inr n ∧
     (om_Namespace n.1 = Namespace ∨ n.2 = "")).
Proof using Type.
  unfold ValidateCustomResource. intros H Ha.
  split_and!; intros Hk; rewrite Hk in H || idtac; cbn [String.eqb Ascii.eqb Bool.eqb] in H; try by eapply decoded_allowed.
  assert (Hd : decoded (UnmarshalNetwork (ar_Kind ar)
                 (if decide (ar_Operation ar = Delete) then ar_OldObject ar else ar_Object ar)) validateNetwork = Ok resp).
  { rewrite bool_decide_true in H by done. unfold networkKinds in Hk. rewrite !elem_of_cons in Hk.
    destruct Hk as [Hk|[Hk|[Hk|Hk]]]; [..|by apply not_elem_of_nil in Hk]; rewrite Hk in *; exact H. }
  destruct (decoded_allowed _ _ _ Hd Ha) as (n & Hn & Hv). exists n. split; [done|].
  unfold validateNetwork, validateNetworkNamespace in Hv. cbn in Hv.
  destruct (String.eqb_spec (om_Namespace n.1) Namespace); [by left|]. destruct (String.eqb_spec n.2 ""); [by right|done].
Qed.
End reviews.
