(* ===== verification/Effects.v ===== *)
(** * Programs that talk to the outside

    The controllers and the daemon are sequences of calls to the API server and
    to the host.  Such a function is a [prog]: a tree that either returns or
    performs a request and goes on with the answer.  A request type [R] and the
    type of the answers, [resp], are given per component; the rest is generic:
    sequencing, a run with a concrete handler (for the witnesses), a step
    relation against a [World] (any answer the world allows, other parties'
    moves included), and the weakest precondition calculus the theorems about
    all runs are proved with. *)
From S2P Require Import Prelude.

Section prog.
Context {R : Type} (resp : R → Type).

Inductive prog (A : Type) : Type :=
| Ret (a : A)
| Vis (r : R) (k : resp r → prog A).
End prog.
Arguments Ret {R resp A} a.
Arguments Vis {R resp A} r k.

Fixpoint prog_bind {R : Type} {resp : R → Type} {A B} (f : A → prog resp B) (p : prog resp A)
    : prog resp B :=
  match p with
  | Ret a => f a
  | Vis r k => Vis r (λ x, prog_bind f (k x))
  end.

#[export] Instance prog_mret {R : Type} {resp : R → Type} : MRet (prog resp) := λ A a, Ret a.
#[export] Instance prog_mbind {R : Type} {resp : R → Type} : MBind (prog resp) :=
  λ A B f p, prog_bind f p.

(** One request. *)
Definition perform {R : Type} {resp : R → Type} (r : R) : prog resp (resp r) := Vis r Ret.

(** A Go function with results [(T, error)] is a [prog resp (E + T)]; its callers'
    [if err != nil { return err }] is [x ⇐ c; k]. *)
Definition prog_try {R : Type} {resp : R → Type} {E A B}
    (c : prog resp (E + A)) (k : A → prog resp (E + B)) : prog resp (E + B) :=
  c ≫= λ r, match r with inl e => Ret (inl e) | inr a => k a end.

Notation "x ⇐ c ; k" := (prog_try c (λ x, k))
  (at level 20, c at level 100, k at level 200, right associativity) : stdpp_scope.
Notation "' x ⇐ c ; k" := (prog_try c (λ x, k))
  (at level 20, x pattern, c at level 100, k at level 200, right associativity) : stdpp_scope.
Notation "c ;;! k" := (prog_try c (λ _, k))
  (at level 100, k at level 200, right associativity) : stdpp_scope.

(** ** Worlds, runs and weakest preconditions *)

(** The states of a world and what it may answer to a request; the next state
    includes whatever other parties did meanwhile. *)
Record World {R : Type} (resp : R → Type) := mkWorld {
  w_state : Type;
  w_step : w_state → ∀ r : R, resp r → w_state → Prop;
}.
Arguments w_state {R resp} w.
Arguments w_step {R resp} w s r x s'.

Section semantics.
Context {R : Type} {resp : R → Type} (W : World resp).

(** A finished run: the requests in order, each with the state it met. *)
Inductive exec {A} : prog resp A → w_state W → list (w_state W * R) → A → w_state W → Prop :=
| exec_ret a s : exec (Ret a) s [] a s
| exec_vis r k s x s1 tr a s2 :
    w_step W s r x s1 → exec (k x) s1 tr a s2 → exec (Vis r k) s ((s, r) :: tr) a s2.

(** [wp G p Q s]: from [s], whatever the world answers, every request [p]
    makes is allowed by [G] in the state it is made in, and [Q] holds of the
    result and the final state.  [p] is a finite tree, so this is total. *)
Fixpoint wp {A} (G : w_state W → R → Prop) (p : prog resp A) (Q : A → w_state W → Prop)
    (s : w_state W) : Prop :=
  match p with
  | Ret a => Q a s
  | Vis r k => G s r ∧ ∀ x s', w_step W s r x s' → wp G (k x) Q s'
  end.

Lemma wp_ret {A} G (a : A) (Q : A → w_state W → Prop) s : Q a s → wp G (Ret a) Q s.
Proof. done. Qed.

Lemma wp_mono {A} G G' (p : prog resp A) (Q Q' : A → w_state W → Prop) s :
  (∀ s r, G s r → G' s r) → (∀ a s, Q a s → Q' a s) → wp G p Q s → wp G' p Q' s.
Proof. intros HG HQ. revert s. induction p as [a|r k IH]; cbn; naive_solver. Qed.

Lemma wp_post {A} G (p : prog resp A) (Q Q' : A → w_state W → Prop) s :
  wp G p Q s → (∀ a s, Q a s → Q' a s) → wp G p Q' s.
Proof. intros Hp HQ. by eapply wp_mono. Qed.

Lemma wp_and {A} G (p : prog resp A) (Q Q' : A → w_state W → Prop) s :
  wp G p Q s → wp G p Q' s → wp G p (λ a s', Q a s' ∧ Q' a s') s.
Proof. revert s. induction p as [a|r k IH]; intros s; cbn; naive_solver. Qed.

(** What is known of a program under one guarantee can be used under another. *)
Lemma wp_transfer {A} G G' (p : prog resp A) (Q Q' : A → w_state W → Prop) s :
  wp G p Q s → wp G' p Q' s → wp G p (λ a s', Q a s' ∧ Q' a s') s.
Proof. revert s. induction p as [a|r k IH]; intros s; cbn; naive_solver. Qed.

Lemma wp_forall {I A} `{!Inhabited I} G (p : prog resp A) (Q : I → A → w_state W → Prop) s :
  (∀ i, wp G p (Q i) s) → wp G p (λ a s', ∀ i, Q i a s') s.
Proof.
  revert s. induction p as [a|r k IH]; intros s H; [exact H|]. split; [exact (proj1 (H inhabitant))|].
  intros x s' Hs. apply IH. intros i. by apply (H i).
Qed.

Lemma wp_bind {A B} G (p : prog resp A) (f : A → prog resp B) Q s :
  wp G (p ≫= f) Q s ↔ wp G p (λ a, wp G (f a) Q) s.
Proof.
  revert s. induction p as [a|r k IH]; intros s; [done|].
  split; (intros [HG H]; split; [done|]); intros x s' Hs; [apply (proj1 (IH x s'))|apply (proj2 (IH x s'))];
    by apply H.
Qed.

Lemma wp_try {E A B} G (c : prog resp (E + A)) (k : A → prog resp (E + B)) Q s :
  wp G c (λ r, match r with inl e => Q (inl e) | inr a => wp G (k a) Q end) s →
  wp G (prog_try c k) Q s.
Proof.
  intros H. unfold prog_try. apply wp_bind. eapply wp_post; [exact H|].
  intros [e|a] s' H'; [done|exact H'].
Qed.

Lemma wp_perform {A} G r (k : resp r → prog resp A) Q s :
  G s r → (∀ x s', w_step W s r x s' → wp G (k x) Q s') → wp G (perform r ≫= k) Q s.
Proof. by split. Qed.

Lemma wp_top {A} (p : prog resp A) (Q : A → w_state W → Prop) s :
  (∀ a s, Q a s) → wp (λ _ _, True) p Q s.
Proof. intros HQ. revert s. induction p as [a|r k IH]; cbn; auto. Qed.

(** The calculus is sound for the runs. *)
Lemma wp_exec {A} G (p : prog resp A) Q s tr a s' :
  wp G p Q s → exec p s tr a s' → Q a s' ∧ Forall (λ sr, G sr.1 sr.2) tr.
Proof.
  intros Hwp Hex. induction Hex as [a s|r k s x s1 tr a s2 Hstep Hex IH]; [by split|].
  destruct Hwp as [HG Hk]. destruct (IH (Hk _ _ Hstep)) as [HQ Htr].
  split; [done|by constructor].
Qed.
End semantics.

Lemma exec_inv {R : Type} {resp : R → Type} (W : World resp) {A} (p : prog resp A) s tr a s' :
  exec W p s tr a s' →
  match p with
  | Ret a' => a' = a ∧ s = s' ∧ tr = []
  | Vis r k => ∃ x s1 tr', w_step W s r x s1 ∧ exec W (k x) s1 tr' a s' ∧ tr = (s, r) :: tr'
  end.
Proof. destruct 1; [done|]. eauto 10. Qed.

Lemma exec_bind {R : Type} {resp : R → Type} (W : World resp) {A B} (p : prog resp A)
    (f : A → prog resp B) s tr b s' :
  exec W (p ≫= f) s tr b s' →
  ∃ a s1 tr1 tr2, exec W p s tr1 a s1 ∧ exec W (f a) s1 tr2 b s' ∧ tr = tr1 ++ tr2.
Proof.
  revert s tr. induction p as [a|r k IH]; intros s tr H.
  - exists a, s, [], tr. split_and!; [constructor|exact H|done].
  - apply exec_inv in H as (x & s1 & tr' & Hs & H & ->).
    destruct (IH _ _ _ H) as (a & s2 & tr1 & tr2 & H1 & H2 & ->).
    exists a, s2, ((s, r) :: tr1), tr2. split_and!; [by econstructor|done|done].
Qed.

(** ** Running a program with a handler *)

Section run.
Context {R : Type} {resp : R → Type} {S : Type}.
Context (handle : S → ∀ r : R, resp r * S).

Fixpoint run {A} (p : prog resp A) (s : S) : A * S :=
  match p with
  | Ret a => (a, s)
  | Vis r k => let '(x, s') := handle s r in run (k x) s'
  end.

(** The requests of the run, in order. *)
Fixpoint requests {A} (p : prog resp A) (s : S) : list R :=
  match p with
  | Ret a => []
  | Vis r k => let '(x, s') := handle s r in r :: requests (k x) s'
  end.

(** The same with the states the requests meet. *)
Fixpoint trace {A} (p : prog resp A) (s : S) : list (S * R) :=
  match p with
  | Ret a => []
  | Vis r k => let '(x, s') := handle s r in (s, r) :: trace (k x) s'
  end.
End run.

(** A run with a handler that answers as the world may is a run in the
    world. *)
Lemma run_exec {R : Type} {resp : R → Type} (W : World resp)
    (handle : w_state W → ∀ r : R, resp r * w_state W) (I : w_state W → Prop) {A} (p : prog resp A) s :
  (∀ s r, I s → w_step W s r (handle s r).1 (handle s r).2 ∧ I (handle s r).2) → I s →
  exec W p s (trace handle p s) (run handle p s).1 (run handle p s).2.
Proof.
  intros H. revert s. induction p as [a|r k IH]; intros s HI; cbn; [constructor|].
  destruct (H s r HI) as [H1 H2]. destruct (handle s r) as [x s'].
  econstructor; [exact H1|]. by apply IH.
Qed.

Lemma run_exec_eq {R : Type} {resp : R → Type} (W : World resp)
    (handle : w_state W → ∀ r : R, resp r * w_state W) {A} (p : prog resp A) s a s' :
  (∀ s r, w_step W s r (handle s r).1 (handle s r).2) → run handle p s = (a, s') →
  exec W p s (trace handle p s) a s'.
Proof.
  intros H E. replace a with (run handle p s).1 by (by rewrite E).
  replace s' with (run handle p s).2 by (by rewrite E).
  apply (run_exec W handle (λ _, True)); [|exact I]. intros s0 r _. split; [apply H|exact I].
Qed.

(** The same for a handler that keeps more than the world does. *)
Lemma run_exec_proj {R : Type} {resp : R → Type} (W : World resp) {T}
    (handle : T → ∀ r : R, resp r * T) (π : T → w_state W) {A} (p : prog resp A) t a t' :
  (∀ t r, w_step W (π t) r (handle t r).1 (π (handle t r).2)) → run handle p t = (a, t') →
  ∃ tr, exec W p (π t) tr a (π t').
Proof.
  intros H. revert t. induction p as [b|r k IH]; intros t E; cbn in E; [simplify_eq; eexists; constructor|].
  pose proof (H t r) as Hs. destruct (handle t r) as [x t1]. destruct (IH _ _ E) as [tr Htr].
  eexists. econstructor; [exact Hs|exact Htr].
Qed.

(** A run in one world is a run in another that can answer the same. *)
Lemma exec_sim {R : Type} {resp : R → Type} (W W' : World resp) (Rel : w_state W → w_state W' → Prop)
    {A} (p : prog resp A) s tr a s1 t :
  (∀ s t r x s1, Rel s t → w_step W s r x s1 → ∃ t1, w_step W' t r x t1 ∧ Rel s1 t1) →
  exec W p s tr a s1 → Rel s t → ∃ tr' t1, exec W' p t tr' a t1 ∧ Rel s1 t1.
Proof.
  intros Hsim Hex. revert t. induction Hex as [a s|r k s x s1 tr a s2 Hstep Hex IH]; intros t Ht.
  { exists [], t. split; [constructor|done]. }
  destruct (Hsim _ _ _ _ _ Ht Hstep) as (t1 & Ht1 & HR). destruct (IH _ HR) as (tr' & t2 & H2 & HR2).
  exists ((t, r) :: tr'), t2. split; [by econstructor|done].
Qed.

(** ** Worlds made of a server and other parties *)

Section rely.
Context {R : Type} {resp : R → Type} {S : Type}.
(** [server]: the effect of a request; [rely]: one move of somebody else. *)
Context (server : S → ∀ r : R, resp r → S → Prop) (rely : S → S → Prop).

(** Others move after every request. *)
Definition shared_world : World resp :=
  {| w_state := S; w_step := λ s r x s', ∃ s1, server s r x s1 ∧ rtc rely s1 s' |}.

(** What every server answer and every foreign move preserves holds at the
    end. *)
Lemma shared_world_invariant (I : S → Prop) s r x s' :
  (∀ a b, I a → rely a b → I b) → (∀ a y b, I a → server a r y b → I b) →
  I s → w_step shared_world s r x s' → I s'.
Proof.
  intros Hr Hs HI (s1 & H1 & H2).
  assert (Hrtc : ∀ a b, rtc rely a b → I a → I b) by (induction 1; naive_solver).
  eauto.
Qed.
End rely.

(** Decompose a [wp] goal along the program's syntax. *)
Ltac wp_step :=
  lazymatch goal with
  | |- wp _ _ (Ret _) _ _ => apply wp_ret
  | |- wp _ _ (prog_try _ _) _ _ => apply wp_try
  | |- wp _ _ (mbind _ (perform _)) _ _ => apply wp_perform; [|intros ? ? ?]
  | |- wp _ _ (mbind _ _) _ _ => apply wp_bind
  | |- wp _ _ (match ?x with _ => _ end) _ _ => let E := fresh "E" in destruct x eqn:E
  end.

(** ** Programs that are harmless in every state *)

(** [steady W G Rel p]: from every state, all requests of [p] are allowed and
    the final state is related to the first one. *)
Definition steady {R : Type} {resp : R → Type} (W : World resp) (G : w_state W → R → Prop)
    (Rel : relation (w_state W)) {A} (p : prog resp A) : Prop :=
  ∀ s, wp W G p (λ _ s', Rel s s') s.

Section steady.
Context {R : Type} {resp : R → Type} (W : World resp) (G : w_state W → R → Prop).
Context (Rel : relation (w_state W)) `{!PreOrder Rel}.

Lemma steady_ret {A} (a : A) : steady W G Rel (Ret a).
Proof using Type*. intros s. cbn. reflexivity. Qed.

Lemma steady_bind {A B} (p : prog resp A) (f : A → prog resp B) :
  steady W G Rel p → (∀ a, steady W G Rel (f a)) → steady W G Rel (p ≫= f).
Proof using Type*.
  intros Hp Hf s. apply wp_bind. eapply wp_post; [apply Hp|]. cbn. intros a s' H.
  eapply wp_post; [apply Hf|]. cbn. intros b s'' H'. by transitivity s'.
Qed.

Lemma steady_try {E A B} (p : prog resp (E + A)) (f : A → prog resp (E + B)) :
  steady W G Rel p → (∀ a, steady W G Rel (f a)) → steady W G Rel (prog_try p f).
Proof using Type*.
  intros Hp Hf. apply steady_bind; [done|]. intros [e|a]; [apply steady_ret|apply Hf].
Qed.

Lemma steady_perform r :
  (∀ s, G s r) → (∀ s x s', w_step W s r x s' → Rel s s') → steady W G Rel (perform r).
Proof using Type*. intros H1 H2 s. split; [apply H1|apply H2]. Qed.

(** A harmless program in front. *)
Lemma wp_steady_bind {A B} (p : prog resp A) (f : A → prog resp B) Q s :
  steady W G Rel p → (∀ a s', Rel s s' → wp W G (f a) Q s') → wp W G (p ≫= f) Q s.
Proof using Type*. intros Hp Hf. apply wp_bind. eapply wp_post; [apply Hp|exact Hf]. Qed.

Lemma wp_steady_try {E A B} (p : prog resp (E + A)) (f : A → prog resp (E + B)) Q s :
  steady W G Rel p → (∀ e s', Rel s s' → Q (inl e) s') →
  (∀ a s', Rel s s' → wp W G (f a) Q s') → wp W G (prog_try p f) Q s.
Proof using Type*.
  intros Hp He Hf. apply wp_steady_bind; [done|]. intros [e|a] s' H; [by apply He|by apply Hf].
Qed.
End steady.

Create HintDb steady.

(** Follow the program; the requests are settled by the database. *)
Ltac steady_step :=
  lazymatch goal with
  | |- steady _ _ _ (Ret _) => refine (steady_ret _ _ _ _)
  | |- steady _ _ _ (mbind _ _) => refine (steady_bind _ _ _ _ _ _ _); [|intros ?]
  | |- steady _ _ _ (prog_try _ _) => refine (steady_try _ _ _ _ _ _ _); [|intros ?]
  | |- steady _ _ _ (match ?x with _ => _ end) => destruct x
  | |- _ => solve [auto with steady]
  end.
Ltac steady := repeat steady_step.

(** ** Programs that make only certain requests *)

(** The world that answers anything. *)
Definition free_world {R : Type} (resp : R → Type) : World resp :=
  {| w_state := unit; w_step := λ _ _ _ _, True |}.

(** Whatever is answered, [p] makes only requests of the kind [P]. *)
Abbreviation only P := (steady (free_world _) (λ _ r, P r = true) (λ _ _, True)).

#[export] Instance always_preorder {A} : PreOrder (λ _ _ : A, True).
Proof. by split. Qed.

Section only.
Context {R : Type} {resp : R → Type}.

Lemma only_perform (P : R → bool) r : P r = true → only P (perform (resp := resp) r).
Proof. intros H. by apply steady_perform. Qed.

Lemma only_mono (P P' : R → bool) {A} (p : prog resp A) :
  (∀ r, P r = true → P' r = true) → only P p → only P' p.
Proof. intros HP H s. eapply wp_mono; [| |apply H]; [|done]. intros s' r. apply HP. Qed.

(** In a world where these requests are harmless, so is [p]. *)
Lemma only_steady (P : R → bool) (W : World resp) (G : w_state W → R → Prop)
    (Rel : relation (w_state W)) `{!PreOrder Rel} {A} (p : prog resp A) :
  (∀ r, P r = true → steady W G Rel (perform r)) → only P p → steady W G Rel p.
Proof.
  intros HP H. specialize (H tt). induction p as [a|r k IH]; [by apply steady_ret|].
  destruct H as [Hr Hk]. intros s. destruct (HP r Hr s) as [HG HR]. split; [done|].
  intros x s1 Hs. eapply wp_post; [by apply (IH x), (Hk x tt)|].
  cbn. intros a s2 H2. etransitivity; [|exact H2]. exact (HR x s1 Hs).
Qed.
End only.

(** One request of the right kind. *)
Ltac only_request := refine (only_perform _ _ _); reflexivity.

(** ** Interrupted programs *)

(** [p] stopped after [n] requests: the process was killed or the node went
    down. *)
Fixpoint cut {R : Type} {resp : R → Type} {A} (n : nat) (p : prog resp A) : prog resp (option A) :=
  match n, p with
  | _, Ret a => Ret (Some a)
  | O, Vis _ _ => Ret None
  | S n', Vis r k => Vis r (λ x, cut n' (k x))
  end.

(** An invariant that holds at every request and at the end holds wherever the
    program stops. *)
Lemma wp_cut {R : Type} {resp : R → Type} (W : World resp) (G : w_state W → R → Prop)
    (I : w_state W → Prop) {A} (p : prog resp A) n (Q : A → w_state W → Prop) s :
  (∀ s r, G s r → I s) → (∀ a s, Q a s → I s) → wp W G p Q s → wp W G (cut n p) (λ _, I) s.
Proof.
  intros HG HQ. revert n s. induction p as [a|r k IH]; intros n s H.
  - destruct n; by eapply HQ.
  - destruct H as [Hr Hk]. destruct n; cbn; [by eapply HG|]. split; [done|]. eauto.
Qed.

(** ** Histories

    The world that answers anything and remembers the conversation. *)
Definition event {R : Type} (resp : R → Type) : Type := { r : R & resp r }.

Definition history_world {R : Type} (resp : R → Type) : World resp :=
  {| w_state := list (event resp); w_step := λ h r x h', h' = h ++ [existT r x] |}.

(** Everything said before is still on record. *)
Definition extends {A} (h h' : list A) : Prop := ∀ e, e ∈ h → e ∈ h'.

#[export] Instance extends_preorder {A} : PreOrder (@extends A).
Proof. split; unfold extends; [auto|]. intros x y z H1 H2 e He. auto. Qed.

Lemma extends_snoc {A} (h : list A) e : extends h (h ++ [e]).
Proof. intros x Hx. set_solver. Qed.
