(* ===== verification/Kube.v ===== *)
(** * Kubernetes objects and clients (pkg/utils/cluster.go, pkg/status/patcher.go)

    The helpers every controller uses to annotate and label objects and to
    apply status conditions.  They work on any object ([KubeObject], Go's
    [client.Object]) and on any client: the calls [Patch], [Apply] and [Eventf]
    are arguments, performed in the caller's request type. *)
From S2P Require Import Prelude GoLib Types Conditions Effects.

(** Errors of the API server, as far as the code tells them apart. *)
Inductive KubeError := ErrNotFound | ErrConflict | ErrAPI (msg : string).

#[export] Instance KubeError_eq_dec : EqDecision KubeError.
Proof. solve_decision. Defined.

Definition IsNotFound (e : KubeError) : bool := bool_decide (e = ErrNotFound).

(** ** client.Object *)

Class KubeObject (A : Type) := {
  obj_meta : A → ObjectMeta;
  obj_set_meta : ObjectMeta → A → A;
  obj_meta_set : ∀ m a, obj_meta (obj_set_meta m a) = m;
  obj_set_id : ∀ a, obj_set_meta (obj_meta a) a = a;
  obj_set_set : ∀ m m' a, obj_set_meta m (obj_set_meta m' a) = obj_set_meta m a;
}.

#[export] Program Instance Node_object : KubeObject Node :=
  {| obj_meta := n_meta;
     obj_set_meta := λ m n, mkNode m (n_ProviderID n) (n_Unschedulable n) |}.
Next Obligation. done. Qed.
Next Obligation. by intros []. Qed.
Next Obligation. done. Qed.

#[export] Program Instance NodeState_object : KubeObject SriovNetworkNodeState :=
  {| obj_meta := ns_meta; obj_set_meta := ns_set_meta |}.
Next Obligation. done. Qed.
Next Obligation. by intros []. Qed.
Next Obligation. done. Qed.

Section objects.
Context {A} `{KubeObject A}.

Definition GetAnnotations (obj : A) : gmap string string := om_Annotations (obj_meta obj).
Definition GetLabels (obj : A) : gmap string string := om_Labels (obj_meta obj).
Definition GetName (obj : A) : string := om_Name (obj_meta obj).

Definition SetAnnotations (m : gmap string string) (obj : A) : A :=
  obj_set_meta (set_Annotations m (obj_meta obj)) obj.
Definition SetLabels (m : gmap string string) (obj : A) : A :=
  obj_set_meta (set_Labels m (obj_meta obj)) obj.

Definition ObjectHasAnnotationKey (obj : A) (annoKey : string) : bool :=
  bool_decide (is_Some (GetAnnotations obj !! annoKey)).

Definition ObjectHasAnnotation (obj : A) (annoKey value : string) : bool :=
  match GetAnnotations obj !! annoKey with
  | Some anno => String.eqb anno value
  | None => false
  end.

Lemma ObjectHasAnnotation_lookup obj k v :
  ObjectHasAnnotation obj k v = true ↔ GetAnnotations obj !! k = Some v.
Proof.
  unfold ObjectHasAnnotation. destruct (_ !! k) as [x|]; [|by split].
  rewrite String.eqb_eq. naive_solver.
Qed.

Lemma GetAnnotations_Set m obj : GetAnnotations (SetAnnotations m obj) = m.
Proof. unfold GetAnnotations, SetAnnotations. by rewrite obj_meta_set. Qed.

Lemma GetName_SetAnnotations m obj : GetName (SetAnnotations m obj) = GetName obj.
Proof. unfold GetName, SetAnnotations. by rewrite obj_meta_set. Qed.

Lemma GetLabels_SetAnnotations m obj : GetLabels (SetAnnotations m obj) = GetLabels obj.
Proof. unfold GetLabels, SetAnnotations. by rewrite obj_meta_set. Qed.
End objects.

(** ** cluster.go *)

Section cluster.
Context {R : Type} {resp : R → Type} {A : Type} `{KubeObject A}.
(** [c.Patch(ctx, obj, client.MergeFrom(original))]: the first argument is
    the original; on success the server's object is decoded into [obj]. *)
Context (Patch : A → A → prog resp (KubeError + A)).
Context (GetNode : string → prog resp (KubeError + A)).

(** The object is changed in place before the patch: the caller sees it
    annotated also when the patch fails. *)
Definition AnnotateObject (obj : A) (key value : string) : prog resp (A * option KubeError) :=
  if String.eqb (default "" (GetAnnotations obj !! key)) value then Ret (obj, None)
  else
    let obj' := SetAnnotations (<[key := value]> (GetAnnotations obj)) obj in
    r ← Patch obj obj';
    match r with
    | inl e => Ret (obj', Some e)
    | inr o => Ret (o, None)
    end.

Definition AnnotateNode (nodeName key value : string) : prog resp (option KubeError) :=
  r ← GetNode nodeName;
  match r with
  | inl e => Ret (Some e)
  | inr node => '(_, err) ← AnnotateObject node key value; Ret err
  end.

Definition labelObject (obj : A) (key value : string) : prog resp (option KubeError) :=
  if String.eqb (default "" (GetLabels obj !! key)) value then Ret None
  else
    r ← Patch obj (SetLabels (<[key := value]> (GetLabels obj)) obj);
    match r with inl e => Ret (Some e) | inr _ => Ret None end.

Definition removeLabelObject (obj : A) (key : string) : prog resp (option KubeError) :=
  match GetLabels obj !! key with
  | None => Ret None
  | Some _ =>
      r ← Patch obj (SetLabels (delete key (GetLabels obj)) obj);
      match r with inl e => Ret (Some e) | inr _ => Ret None end
  end.

Definition LabelNode (nodeName key value : string) : prog resp (option KubeError) :=
  r ← GetNode nodeName;
  match r with
  | inl e => Ret (Some e)
  | inr node => labelObject node key value
  end.

Definition RemoveLabelFromNode (nodeName key : string) : prog resp (option KubeError) :=
  r ← GetNode nodeName;
  match r with
  | inl e => Ret (Some e)
  | inr node => removeLabelObject node key
  end.

Definition RemoveAnnotationFromObject (obj : A) (key : string) : prog resp (option KubeError) :=
  match GetAnnotations obj !! key with
  | None => Ret None
  | Some _ =>
      r ← Patch obj (SetAnnotations (delete key (GetAnnotations obj)) obj);
      match r with inl e => Ret (Some e) | inr _ => Ret None end
  end.
End cluster.

(** ** patcher.go *)

Definition EventTypeNormal := "Normal".
Definition EventTypeWarning := "Warning".

(** [Transition.EventType]. *)
Definition EventType (t : Transition) : string := EventTypeNormal.

Section patcher.
Context {R : Type} {resp : R → Type}.
(** [client.Status().Apply] of a configuration with the object's identity,
    the given status fields (none for [ApplyCondition]) and conditions. *)
Context {F : Type} (StatusApply : ObjectMeta → F → list Condition → prog resp (option KubeError)).
Context (Eventf : ObjectMeta → string → string → string → prog resp unit).
(** Whether a recorder was given. *)
Context (recorder : bool).

Fixpoint recordTransitions (obj : ObjectMeta) (ts : list Transition) : prog resp unit :=
  match ts with
  | [] => Ret tt
  | t :: rest =>
      Eventf obj (EventType t) (EventReason t) (t_Message t) ≫= λ _, recordTransitions obj rest
  end.

Definition ApplyCondition (noFields : F) (obj : ObjectMeta) (oldConditions conditions : list Condition)
    : prog resp (option KubeError) :=
  if bool_decide (conditions = []) then Ret None
  else
    let conditions' := preserveTransitionTimes oldConditions conditions in
    let transitions := DetectTransitions oldConditions conditions' in
    if bool_decide (transitions = []) then Ret None
    else
      err ← StatusApply obj noFields conditions';
      match err with
      | Some e => Ret (Some e)
      | None =>
          (if recorder then recordTransitions obj transitions else Ret tt) ≫= λ _, Ret None
      end.

Definition ApplyStatus (obj : ObjectMeta) (oldConditions : list Condition) (statusFields : F)
    (ownedConditions : list Condition) : prog resp (option KubeError) :=
  let ownedConditions' := preserveTransitionTimes oldConditions ownedConditions in
  let filteredOld :=
    List.filter (λ c, bool_decide (c_Type c ∈ c_Type <$> ownedConditions')) oldConditions in
  let transitions := DetectTransitions filteredOld ownedConditions' in
  err ← StatusApply obj statusFields ownedConditions';
  match err with
  | Some e => Ret (Some e)
  | None => (if recorder then recordTransitions obj transitions else Ret tt) ≫= λ _, Ret None
  end.
End patcher.

(** ** A client that keeps a log, for the witnesses *)

Inductive LogReq :=
| LPatch (before after : ObjectMeta)
| LApply (conditions : list Condition)
| LEvent (reason : string).

Definition LogResp (r : LogReq) : Type :=
  match r with
  | LPatch _ _ => (KubeError + ObjectMeta)%type
  | LApply _ => option KubeError
  | LEvent _ => unit
  end.

(** Every call succeeds. *)
Definition log_handler (s : unit) (r : LogReq) : LogResp r * unit :=
  match r with
  | LPatch _ after => (inr after, tt)
  | LApply _ => (None, tt)
  | LEvent _ => (tt, tt)
  end.

Definition log_ApplyCondition (old new : list Condition) : prog LogResp (option KubeError) :=
  ApplyCondition (F := unit) (λ _ _ cs, perform (LApply cs)) (λ _ _ reason _, perform (LEvent reason)) true
    tt (mkObjectMeta "node-1" "ns" 1 ∅ ∅ []) old new.

(** ** Properties *)

Lemma preserveTransitionTimes_types old l :
  c_Type <$> preserveTransitionTimes old l = c_Type <$> l.
Proof.
  unfold preserveTransitionTimes. rewrite <- list_fmap_compose. apply list_fmap_ext.
  intros i c _. cbn. by repeat case_match.
Qed.

(** [ApplyCondition] is meant to skip the API call when nothing changed and
    to leave the conditions of other field managers alone, but it compares the
    few conditions it is given with all the conditions of the object: whenever
    the object carries a condition of another type, the unchanged condition is
    written again and an event reports the other one as removed. *)
Theorem ApplyCondition_reports_foreign_conditions_removed :
  let progressing := mkCond ConditionProgressing ConditionFalse ReasonNotProgressing "done" 3 in
  let ready := mkCond ConditionReady ConditionTrue ReasonNodeReady "ready" 3 in
  let draining := drainCondition 3 DrainStateIdle "" in
  requests log_handler (log_ApplyCondition [progressing; ready; draining] [draining]) tt =
    [LApply [draining]; LEvent "ReadyRemoved"; LEvent "ProgressingRemoved"] ∧
  requests log_handler (log_ApplyCondition [draining] [draining]) tt = [].
Proof. split; vm_compute; reflexivity. Qed.

(** [ApplyCondition] writes exactly the conditions it was given, with the
    transition time of the old condition where the status is the same, in one
    call; it makes no call at all exactly when there is no transition.  The
    object and its other fields are not part of the request. *)
Theorem ApplyCondition_requests (old new : list Condition) :
  let new' := preserveTransitionTimes old new in
  requests log_handler (log_ApplyCondition old new) tt =
    (if bool_decide (new = []) then []
     else if HasTransitions old new'
     then LApply new' :: ((λ t, LEvent (EventReason t)) <$> DetectTransitions old new') else []) ∧
  c_Type <$> new' = c_Type <$> new.
Proof.
  cbn zeta. split; [|apply preserveTransitionTimes_types].
  unfold log_ApplyCondition, ApplyCondition. case_bool_decide; [done|].
  unfold HasTransitions. case_bool_decide; [done|]. cbn -[DetectTransitions preserveTransitionTimes].
  f_equal. clear.
  induction (DetectTransitions old (preserveTransitionTimes old new)) as [|t ts IH]; [done|].
  rewrite fmap_cons, <- IH. reflexivity.
Qed.

(** ** Patches on the server's side *)

(** A JSON merge patch computed from [original] and [obj]: the entries in
    which they differ. *)
Definition merge_patch (original obj cur : gmap string string) : gmap string string :=
  filter (λ kv, original !! kv.1 = obj !! kv.1) cur ∪
  filter (λ kv, original !! kv.1 ≠ Some kv.2) obj.

Definition patch_object {A} `{KubeObject A} (original obj cur : A) : A :=
  SetLabels (merge_patch (GetLabels original) (GetLabels obj) (GetLabels cur))
    (SetAnnotations (merge_patch (GetAnnotations original) (GetAnnotations obj) (GetAnnotations cur)) cur).

Lemma merge_patch_lookup (orig new cur : gmap string string) k :
  merge_patch orig new cur !! k = if decide (orig !! k = new !! k) then cur !! k else new !! k.
Proof.
  unfold merge_patch. rewrite lookup_union, !map_lookup_filter.
  destruct (cur !! k) eqn:?, (new !! k) eqn:?, (orig !! k) eqn:?; cbn;
    repeat case_guard; repeat case_decide; cbn in *; congruence.
Qed.

Lemma merge_patch_self (orig new : gmap string string) : merge_patch orig new orig = new.
Proof. apply map_eq. intros k. rewrite merge_patch_lookup. by case_decide. Qed.

(** Nobody changed the object since it was read: the patch makes it what was
    sent, as far as annotations and labels go. *)
Lemma patch_object_annotations {A} `{KubeObject A} (m : gmap string string) (o : A) :
  patch_object o (SetAnnotations m o) o = SetAnnotations m o.
Proof.
  unfold patch_object, SetLabels, SetAnnotations, GetAnnotations, GetLabels.
  rewrite !obj_meta_set, !obj_set_set. cbn. rewrite !merge_patch_self.
  by destruct (obj_meta o).
Qed.
