(* ===== verification/DrainController.v ===== *)
(** * The drain controller

    controllers/drain_controller.go, drain_controller_helper.go and the drainer
    they call (pkg/drain/drainer.go).  Every worker of the controller runs
    [Reconcile] for one node at a time; the check for a free drain slot is a
    critical section under [drainCheckMutex]. *)
From S2P Require Import Prelude GoLib Types Conditions PoolConfig Effects Kube.

(** ** The calls the controller makes *)

Inductive DrainReq :=
| GetNode (name : string)
| GetNodeState (name : string)
| ListNodes (selector : option LabelSelector)
| ListPools
| PatchNode (original obj : Node)
| PatchNodeState (original obj : SriovNetworkNodeState)
| ApplyConditions (obj : ObjectMeta) (conditions : list Condition)
| Event (obj : ObjectMeta) (type reason message : string)
| TimeNow
| Lock
| Unlock
| BeforeDrainNode (node : Node)
| AfterCompleteDrainNode (node : Node)
| RunCordonOrUncordon (node : Node) (desired : bool)
| RunNodeDrain (nodeName : string) (fullDrain : bool).

(** [RunNodeDrain] answers with the lines kubectl wrote to ErrOut and its
    error. *)
Definition DrainResp (r : DrainReq) : Type :=
  match r with
  | GetNode _ => KubeError + Node
  | GetNodeState _ => KubeError + SriovNetworkNodeState
  | ListNodes _ => KubeError + list Node
  | ListPools => KubeError + list SriovNetworkPoolConfig
  | PatchNode _ _ => KubeError + Node
  | PatchNodeState _ _ => KubeError + SriovNetworkNodeState
  | ApplyConditions _ _ => option KubeError
  | Event _ _ _ _ => unit
  | TimeNow => Z
  | Lock | Unlock => unit
  | BeforeDrainNode _ | AfterCompleteDrainNode _ => string + bool
  | RunCordonOrUncordon _ _ => option string
  | RunNodeDrain _ _ => list string * option string
  end%type.

Abbreviation drainM := (prog DrainResp).

Inductive DrainError :=
| DEKube (e : KubeError)
| DEFetchState (e : KubeError)
| DEMaxUnavailable (e : MaxUnavailableError)
| DESelector
| DEMultiplePools
| DENoNodeState
| DEUnexpectedAnnotation
| DEDrain (msg : string).

(** ctrl.Result; [RequeueAfter] in seconds. *)
Record Result := mkResult { Requeue : bool; RequeueAfter : Z }.

Definition noRequeue : Result := mkResult false 0.
Definition DrainControllerRequeueTime : Z := 5.

(** ** pkg/drain/drainer.go *)

Fixpoint TrimLeftSpace (s : string) : string :=
  match s with
  | String a r => if is_blank a then TrimLeftSpace r else s
  | EmptyString => ""
  end.

Definition HasPrefix (s prefix : string) : bool := String.prefix prefix s.

Fixpoint RemoveNewlines (s : string) : string :=
  match s with
  | String a r => if Ascii.eqb a "010" then RemoveNewlines r else String a (RemoveNewlines r)
  | EmptyString => ""
  end.

(** The message is empty after [TrimSpace] exactly when it is after trimming
    on the left, and [HasPrefix] only looks at the left end. *)
Definition isIgnoredDrainErrOutMessage (msg : string) : bool :=
  let cleanMsg := TrimLeftSpace (RemoveNewlines msg) in
  String.eqb cleanMsg "" || HasPrefix cleanMsg "WARNING:".

Definition IsInformationalDrainErrOutMessage (msg : string) : bool :=
  if isIgnoredDrainErrOutMessage msg then true
  else Contains (RemoveNewlines msg) "(will retry after".

(** A pod as the drain filter sees it: the resources its containers request. *)
Definition Pod : Type := list (list string).

(** [deleteFunction] of [createDrainHelper]: without a full drain only pods
    with a resource of the operator's prefix are removed. *)
Definition podToDelete (ResourcePrefix : string) (fullDrain : bool) (p : Pod) : bool :=
  if fullDrain then true
  else existsb (λ requests, existsb (λ r, HasPrefix r ResourcePrefix) requests) p.

Section drainer.
(** [onError] and the variables it captures. *)
Context {D : Type} (onError : D → string → drainM D).

(** The ErrOut writer of the drain helper, line by line. *)
Fixpoint errOut (d : D) (lines : list string) : drainM D :=
  match lines with
  | [] => Ret d
  | msg :: rest =>
      let cleanMsg := RemoveNewlines msg in
      if isIgnoredDrainErrOutMessage cleanMsg then errOut d rest
      else onError d cleanMsg ≫= λ d', errOut d' rest
  end.

Definition DrainNode (node : Node) (fullNodeDrain singleNode : bool) (d : D)
    : drainM (D * (string + bool)) :=
  r ← perform (BeforeDrainNode node);
  match r with
  | inl err =>
      let wrapped := "failed to run BeforeDrainNode: " +:+ err in
      onError d wrapped ≫= λ d', Ret (d', inl wrapped)
  | inr false => Ret (d, inr false)
  | inr true =>
      if fullNodeDrain && singleNode then Ret (d, inr true)
      else
        c ← perform (RunCordonOrUncordon node true);
        match c with
        | Some err =>
            let wrapped := "failed to cordon node " +:+ GetName node +:+ ": " +:+ err in
            onError d wrapped ≫= λ d', Ret (d', inl wrapped)
        | None =>
            '(lines, err) ← perform (RunNodeDrain (GetName node) fullNodeDrain);
            d' ← errOut d lines;
            match err with
            | Some e => Ret (d', inl ("failed to drain node " +:+ GetName node +:+ ": " +:+ e))
            | None => Ret (d', inr true)
            end
        end
  end.
End drainer.

Definition CompleteDrainNode (node : Node) : drainM (string + bool) :=
  c ← perform (RunCordonOrUncordon node false);
  match c with
  | Some err => Ret (inl err)
  | None => perform (AfterCompleteDrainNode node)
  end.

(** ** Helpers *)

Definition annotateNodeState (s : SriovNetworkNodeState) (key value : string) :=
  AnnotateObject (resp := DrainResp) (λ original obj, perform (PatchNodeState original obj)) s key value.

Definition annotateNode (n : Node) (key value : string) :=
  AnnotateObject (resp := DrainResp) (λ original obj, perform (PatchNode original obj)) n key value.

Definition warn (s : SriovNetworkNodeState) (reason message : string) : drainM unit :=
  perform (Event (ns_meta s) EventTypeWarning reason message).

(** [DrainReconcile.getObject]: [None] is "not found". *)
Definition getObject {A} (c : drainM (KubeError + A)) : drainM (DrainError + option A) :=
  r ← c;
  match r with
  | inl e => if IsNotFound e then Ret (inr None) else Ret (inl (DEKube e))
  | inr a => Ret (inr (Some a))
  end.

(** The object as left by the helper, the value and whether it was there. *)
Definition ensureAnnotationExists {A} `{KubeObject A}
    (annotate : A → string → string → drainM (A * option KubeError)) (object : A) (key : string)
    : drainM (DrainError + (A * string * bool)) :=
  match GetAnnotations object !! key with
  | Some value => Ret (inr (object, value, true))
  | None =>
      '(object', err) ← annotate object key DrainIdle;
      match err with
      | Some e => Ret (inl (DEKube e))
      | None => Ret (inr (object', DrainIdle, false))
      end
  end.

Definition updateDrainConditions (nodeNetworkState : SriovNetworkNodeState) (state : DrainState)
    (errorMessage : string) : drainM (DrainError + unit) :=
  r ← perform (GetNodeState (ns_Name nodeNetworkState));
  match r with
  | inl e => if IsNotFound e then Ret (inr tt) else Ret (inl (DEFetchState e))
  | inr latestState =>
      now ← perform TimeNow;
      let conditionState := SetNodeStateDrainConditions now latestState state errorMessage in
      match FindStatusCondition (nst_Conditions (ns_Status conditionState)) ConditionDraining with
      | None => Ret (inr tt)
      | Some drainingCondition =>
          err ← ApplyCondition (resp := DrainResp) (F := unit) (λ obj _ cs, perform (ApplyConditions obj cs))
                  (λ obj t reason message, perform (Event obj t reason message)) true tt
                  (ns_meta latestState) (nst_Conditions (ns_Status latestState)) [drainingCondition];
          match err with
          | Some e => Ret (inl (DEKube e))
          | None => Ret (inr tt)
          end
      end
  end.

(** ** Node pools *)

(** [metav1.LabelSelectorAsSelector] followed by [Matches]. *)
Definition requirement_matches (r : LabelSelectorRequirement) (ls : gmap string string) : bool :=
  match req_Operator r, ls !! req_Key r with
  | OpIn, Some v => bool_decide (v ∈ req_Values r)
  | OpIn, None => false
  | OpNotIn, Some v => negb (bool_decide (v ∈ req_Values r))
  | OpNotIn, None => true
  | OpExists, o => bool_decide (is_Some o)
  | OpDoesNotExist, o => negb (bool_decide (is_Some o))
  end.

Definition selector_matches (s : LabelSelector) (ls : gmap string string) : bool :=
  forallb (λ kv, bool_decide (ls !! kv.1 = Some kv.2)) (map_to_list (ls_MatchLabels s)) &&
  forallb (λ r, requirement_matches r ls) (ls_MatchExpressions s).

Definition emptySelector : LabelSelector := mkLabelSelector ∅ [].

Definition defaultPoolConfig : SriovNetworkPoolConfig :=
  mkPoolConfig (mkObjectMeta "" "" 0 ∅ ∅ [])
    (mkPoolConfigSpec (mkOvsHardwareOffloadConfig "" ∅) (Some emptySelector) (Some (IntVal 1)) "").

Section pools.
(** Whether [LabelSelectorAsSelector] accepts the keys, operators and values
    of a selector. *)
Context (selector_valid : LabelSelector → bool).

Definition npcSelector (npc : SriovNetworkPoolConfig) : LabelSelector :=
  default emptySelector (pcs_NodeSelector (pc_Spec npc)).

(** The loop over the pools: the pools of the node and the names of all
    nodes in some pool. *)
Fixpoint scanPools (node : Node) (items selectedNpcl : list SriovNetworkPoolConfig)
    (nodesInPools : gset string)
    : drainM (DrainError + (list SriovNetworkPoolConfig * gset string)) :=
  match items with
  | [] => Ret (inr (selectedNpcl, nodesInPools))
  | npc :: rest =>
      if negb (String.eqb (ovs_Name (pcs_OvsHardwareOffloadConfig (pc_Spec npc))) "")
      then scanPools node rest selectedNpcl nodesInPools
      else if negb (selector_valid (npcSelector npc)) then Ret (inl DESelector)
      else
        let selectedNpcl' :=
          if selector_matches (npcSelector npc) (GetLabels node)
          then selectedNpcl ++ [npc] else selectedNpcl in
        r ← perform (ListNodes (Some (npcSelector npc)));
        match r with
        | inl e => Ret (inl (DEKube e))
        | inr nodes =>
            scanPools node rest selectedNpcl' (nodesInPools ∪ list_to_set (GetName <$> nodes))
        end
  end.

Definition findNodePoolConfig (node : Node)
    : drainM (DrainError + (SriovNetworkPoolConfig * list Node)) :=
  r ← perform ListPools;
  match r with
  | inl e => Ret (inl (DEKube e))
  | inr items =>
      '(selectedNpcl, nodesInPools) ⇐ scanPools node items [] ∅;
      match selectedNpcl with
      | [] =>
          r ← perform (ListNodes None);
          match r with
          | inl e => Ret (inl (DEKube e))
          | inr nodes =>
              Ret (inr (defaultPoolConfig,
                List.filter (λ n, negb (bool_decide (GetName n ∈ nodesInPools))) nodes))
          end
      | [npc] =>
          if negb (selector_valid (npcSelector npc)) then Ret (inl DESelector)
          else
            r ← perform (ListNodes (Some (npcSelector npc)));
            match r with
            | inl e => Ret (inl (DEKube e))
            | inr nodes => Ret (inr (npc, nodes))
            end
      | _ => Ret (inl DEMultiplePools)
      end
  end.

(** ** The drain slot *)

Definition isDraining (s : SriovNetworkNodeState) : bool :=
  ObjectHasAnnotation s NodeStateDrainAnnotationCurrent Draining ||
  ObjectHasAnnotation s NodeStateDrainAnnotationCurrent DrainComplete.

(** [&SriovNetworkNodeState{}] *)
Definition zeroNodeState : SriovNetworkNodeState :=
  mkNodeState (mkObjectMeta "" "" 0 ∅ ∅ []) (mkNodeStateSpec [] (mkBridges []) (mkSystem "" ∅))
    (mkNodeStateStatus [] (mkBridges []) (mkSystem "" ∅) "" "" []).

(** [Get] decodes the answer's JSON into the object it is given, which is not
    cleared: entries of a map that the answer does not have are kept.  (Of the
    object of the loop below only the name and the annotations are read.) *)
Definition decodeInto (into answer : SriovNetworkNodeState) : SriovNetworkNodeState :=
  SetLabels (GetLabels answer ∪ GetLabels into)
    (SetAnnotations (GetAnnotations answer ∪ GetAnnotations into) answer).

(** Count the nodes of the pool that are draining or drained, and keep the
    state of the requested node.  All states are read into the one object
    [snns]. *)
Fixpoint countDraining (node : Node) (nodes : list Node) (snns : SriovNetworkNodeState)
    (current : Z) (currentSnns : option SriovNetworkNodeState)
    : drainM (DrainError + (Z * option SriovNetworkNodeState)) :=
  match nodes with
  | [] => Ret (inr (current, currentSnns))
  | nodeObj :: rest =>
      r ← perform (GetNodeState (GetName nodeObj));
      match r with
      | inl e =>
          if IsNotFound e then countDraining node rest snns current currentSnns
          else Ret (inl (DEKube e))
      | inr answer =>
          let snns := decodeInto snns answer in
          countDraining node rest snns (if isDraining snns then current + 1 else current)
            (if String.eqb (ns_Name snns) (GetName node) then Some snns else currentSnns)
      end
  end.

(** The body of [tryDrainNode] between taking and releasing the mutex.
    [Some] result: re-enqueue. *)
Definition tryDrainNode_locked (node : Node) : drainM (DrainError + option Result) :=
  '(nodePool, nodeList) ⇐ findNodePoolConfig node;
  match MaxUnavailable nodePool (Z.of_nat (length nodeList)) with
  | Ok maxUnv =>
      '(current, currentSnns) ⇐ countDraining node nodeList zeroNodeState 0 None;
      match currentSnns with
      | None => Ret (inl DENoNodeState)
      | Some snns =>
          if isDraining snns then Ret (inr None)
          else if negb (maxUnv =? -1) && (maxUnv <=? current) then
            updateDrainConditions snns DrainStatePending "Waiting for an available drain slot" ;;!
            Ret (inr (Some (mkResult false DrainControllerRequeueTime)))
          else
            '(snns', err) ← annotateNodeState snns NodeStateDrainAnnotationCurrent Draining;
            match err with
            | Some e => Ret (inl (DEKube e))
            | None =>
                updateDrainConditions snns' DrainStateDraining "" ;;!
                Ret (inr None)
            end
      end
  | Err e => Ret (inl (DEMaxUnavailable e))
  | Panic => Ret (inl (DEMaxUnavailable ErrNegative)) (* MaxUnavailable does not panic *)
  end.

Definition tryDrainNode (node : Node) : drainM (DrainError + option Result) :=
  perform Lock ≫= λ _,
  r ← tryDrainNode_locked node;
  perform Unlock ≫= λ _, Ret r.

(** ** The handlers *)

Definition handleNodeIdleNodeStateDrainingOrCompleted (node : Node)
    (nodeNetworkState : SriovNetworkNodeState) : drainM (DrainError + Result) :=
  completed ← CompleteDrainNode node;
  match completed with
  | inl err =>
      warn nodeNetworkState "CompleteDrain" "failed to drain node" ≫= λ _, Ret (inl (DEDrain err))
  | inr false =>
      warn nodeNetworkState "CompleteDrain" "node complete drain was not completed" ≫= λ _,
      Ret (inr (mkResult false DrainControllerRequeueTime))
  | inr true =>
      '(s', err) ← annotateNodeState nodeNetworkState NodeStateDrainAnnotationCurrent DrainIdle;
      match err with
      | Some e => Ret (inl (DEKube e))
      | None =>
          updateDrainConditions s' DrainStateIdle "" ;;!
          (warn s' "CompleteDrain" "node un drain completed" ≫= λ _, Ret (inr noRequeue))
      end
  end.

Definition maxDrainErrorMessages : nat := 10.

(** The variables [onDrainError] captures. *)
Record DrainErrors := mkDrainErrors { seenDrainErrors : gset string; drainErrors : list string }.

(** [None] when the message was already recorded. *)
Definition recordDrainError (d : DrainErrors) (msg : string) : option DrainErrors :=
  if bool_decide (msg ∈ seenDrainErrors d) then None
  else
    let seen := {[ msg ]} ∪ seenDrainErrors d in
    let errs := drainErrors d ++ [msg] in
    if bool_decide (maxDrainErrorMessages < length errs)%nat then
      match errs with
      | e0 :: rest => Some (mkDrainErrors (seen ∖ {[ e0 ]}) rest)
      | [] => Some (mkDrainErrors seen errs)
      end
    else Some (mkDrainErrors seen errs).

Definition onDrainError (nodeNetworkState : SriovNetworkNodeState) (d : DrainErrors) (msg : string)
    : drainM DrainErrors :=
  match recordDrainError d msg with
  | None => Ret d
  | Some d' =>
      _ ← updateDrainConditions nodeNetworkState DrainStateDrainingWithErrors
            (Join (drainErrors d') "; ");
      Ret d'
  end.

(** A single node with a reboot request. *)
Definition checkSingleNode (fullNodeDrain : bool) : drainM (DrainError + bool) :=
  if fullNodeDrain then
    r ← perform (ListNodes None);
    match r with
    | inl e => Ret (inl (DEKube e))
    | inr nodes => Ret (inr (bool_decide (length nodes = 1%nat)))
    end
  else Ret (inr false).

(** The drain itself, from the call of the drainer to the end. *)
Definition drainAndComplete (node : Node) (nodeNetworkState : SriovNetworkNodeState)
    (fullNodeDrain singleNode : bool) : drainM (DrainError + Result) :=
  '(d, drained) ← DrainNode (onDrainError nodeNetworkState) node fullNodeDrain singleNode
                    (mkDrainErrors ∅ []);
  match drained with
  | inl err =>
      warn nodeNetworkState "DrainNode" "failed to drain node" ≫= λ _,
      let errorMessage := Join (drainErrors d) "; " in
      _ ← updateDrainConditions nodeNetworkState DrainStateDrainingWithErrors
            (if String.eqb errorMessage "" then err else errorMessage);
      Ret (inl (DEDrain err))
  | inr false =>
      warn nodeNetworkState "DrainNode" "node drain operation was not completed" ≫= λ _,
      Ret (inr (mkResult false DrainControllerRequeueTime))
  | inr true =>
      updateDrainConditions nodeNetworkState DrainStateComplete "" ;;!
      ('(s', err) ← annotateNodeState nodeNetworkState NodeStateDrainAnnotationCurrent DrainComplete;
       match err with
       | Some e => Ret (inl (DEKube e))
       | None => warn s' "DrainNode" "node drain completed" ≫= λ _, Ret (inr noRequeue)
       end)
  end.

(** The stale annotation: the condition says the drain is over. *)
Definition drainAlreadyCompleted (nodeNetworkState : SriovNetworkNodeState) (current : string) : bool :=
  String.eqb current Draining &&
  match FindStatusCondition (nst_Conditions (ns_Status nodeNetworkState)) ConditionDraining with
  | Some c => String.eqb (c_Status c) ConditionFalse && String.eqb (c_Reason c) ReasonDrainCompleted
  | None => false
  end.

Definition handleNodeDrainOrReboot (node : Node) (nodeNetworkState : SriovNetworkNodeState)
    (nodeDrainAnnotation nodeStateDrainAnnotationCurrent : string) : drainM (DrainError + Result) :=
  if String.eqb nodeStateDrainAnnotationCurrent DrainComplete then Ret (inr noRequeue)
  else
    slot ⇐ (if String.eqb nodeStateDrainAnnotationCurrent DrainIdle then tryDrainNode node
            else Ret (inr None));
    match slot with
    | Some result => Ret (inr result)
    | None =>
        if drainAlreadyCompleted nodeNetworkState nodeStateDrainAnnotationCurrent then
          '(_, err) ← annotateNodeState nodeNetworkState NodeStateDrainAnnotationCurrent DrainComplete;
          match err with
          | Some e => Ret (inl (DEKube e))
          | None => Ret (inr noRequeue)
          end
        else
          let fullNodeDrain := String.eqb nodeDrainAnnotation RebootRequired in
          singleNode ⇐ checkSingleNode fullNodeDrain;
          drainAndComplete node nodeNetworkState fullNodeDrain singleNode
    end.

Definition Reconcile (name : string) : drainM (DrainError + Result) :=
  onode ⇐ getObject (perform (GetNode name));
  match onode with
  | None => Ret (inr noRequeue)
  | Some node =>
      ostate ⇐ getObject (perform (GetNodeState name));
      match ostate with
      | None => Ret (inr noRequeue)
      | Some s0 =>
          if ObjectHasAnnotation s0 NodeStateExternalDrainerAnnotation "true"
          then Ret (inr noRequeue)
          else
            '(s1, current, currentExist) ⇐
               ensureAnnotationExists annotateNodeState s0 NodeStateDrainAnnotationCurrent;
            '(s2, _, desireExist) ⇐
               ensureAnnotationExists annotateNodeState s1 NodeStateDrainAnnotation;
            '(node', nodeAnno, nodeExist) ⇐
               ensureAnnotationExists annotateNode node NodeDrainAnnotation;
            if negb (nodeExist && currentExist && desireExist) then
              updateDrainConditions s2 DrainStateIdle "" ;;!
              Ret (inr (mkResult true 0))
            else if String.eqb nodeAnno DrainIdle && String.eqb current DrainIdle then
              updateDrainConditions s2 DrainStateIdle "" ;;!
              Ret (inr noRequeue)
            else if String.eqb nodeAnno DrainIdle &&
                    (String.eqb current DrainComplete || String.eqb current Draining)
            then handleNodeIdleNodeStateDrainingOrCompleted node' s2
            else if String.eqb nodeAnno DrainRequired || String.eqb nodeAnno RebootRequired
            then handleNodeDrainOrReboot node' s2 nodeAnno current
            else Ret (inl DEUnexpectedAnnotation)
      end
  end.
End pools.
