(* ===== verification/DrainSafety.v ===== *)
(** * The drain controller never exceeds a pool's limit

    A model of the API server the drain controller talks to -- reads are
    linearizable, since the controller's client does not cache nodes and node
    states (main.go, [setupDrainController]), and every call may fail, a patch
    also after it took effect -- and the other parties that act on it between
    two calls of a worker: other workers, the daemons, the users.  The theorem
    is a rely-guarantee statement about one worker. *)
From S2P Require Import Prelude GoLib Types Conditions PoolConfig Effects Kube DrainController.

(** ** The API server *)

Record Cluster := mkCluster {
  cl_nodes : gmap string Node;
  cl_states : gmap string SriovNetworkNodeState;
  cl_pools : list SriovNetworkPoolConfig;
  cl_locked : bool;  (* this worker holds drainCheckMutex *)
}.

(** Objects are stored under their name. *)
Definition cluster_wf (s : Cluster) : Prop :=
  (∀ n o, cl_nodes s !! n = Some o → GetName o = n) ∧
  (∀ n o, cl_states s !! n = Some o → ns_Name o = n).

Definition labels_of (s : Cluster) (n : string) : option (gmap string string) :=
  GetLabels <$> cl_nodes s !! n.

Definition draining (s : Cluster) (n : string) : Prop :=
  ∃ o, cl_states s !! n = Some o ∧ isDraining o = true.

#[export] Instance draining_dec s n : Decision (draining s n).
Proof.
  destruct (cl_states s !! n) as [o|] eqn:E.
  - destruct (isDraining o) eqn:D; [left; by exists o|right].
    intros (o' & E' & D'). congruence.
  - right. intros (o' & E' & _). congruence.
Defined.

(** Server-side apply of conditions: merged by type. *)
Definition apply_conditions (cs : list Condition) (s : SriovNetworkNodeState) : SriovNetworkNodeState :=
  ns_set_status (nst_set_conditions (foldl (SetStatusCondition 0) (nst_Conditions (ns_Status s)) cs)
    (ns_Status s)) s.

Definition set_states (m : gmap string SriovNetworkNodeState) (s : Cluster) : Cluster :=
  mkCluster (cl_nodes s) m (cl_pools s) (cl_locked s).
Definition set_nodes (m : gmap string Node) (s : Cluster) : Cluster :=
  mkCluster m (cl_states s) (cl_pools s) (cl_locked s).
Definition set_locked (b : bool) (s : Cluster) : Cluster :=
  mkCluster (cl_nodes s) (cl_states s) (cl_pools s) b.

Definition get_answer {A} (stored : option A) (x : KubeError + A) : Prop :=
  match x with
  | inl ErrNotFound => stored = None
  | inl _ => True
  | inr a => stored = Some a
  end.

Definition node_matches (sel : option LabelSelector) (l : gmap string string) : bool :=
  match sel with None => true | Some s => selector_matches s l end.

(** The answers of the server and of the drain library. *)
Definition server (s : Cluster) (r : DrainReq) : DrainResp r → Cluster → Prop :=
  match r with
  | GetNode n => λ x s', s' = s ∧ get_answer (cl_nodes s !! n) x
  | GetNodeState n => λ x s', s' = s ∧ get_answer (cl_states s !! n) x
  | ListNodes sel => λ x s', s' = s ∧
      match x with
      | inl _ => True
      | inr l => NoDup (GetName <$> l) ∧
          ∀ o, o ∈ l ↔ cl_nodes s !! GetName o = Some o ∧ node_matches sel (GetLabels o) = true
      end
  | ListPools => λ x s', s' = s ∧ match x with inl _ => True | inr l => l = cl_pools s end
  | PatchNode original obj => λ x s',
      match x with
      | inl _ => s' = s ∨ ∃ cur, cl_nodes s !! GetName obj = Some cur ∧
          s' = set_nodes (<[GetName obj := patch_object original obj cur]> (cl_nodes s)) s
      | inr v => ∃ cur, cl_nodes s !! GetName obj = Some cur ∧ v = patch_object original obj cur ∧
          s' = set_nodes (<[GetName obj := v]> (cl_nodes s)) s
      end
  | PatchNodeState original obj => λ x s',
      match x with
      | inl _ => s' = s ∨ ∃ cur, cl_states s !! ns_Name obj = Some cur ∧
          s' = set_states (<[ns_Name obj := patch_object original obj cur]> (cl_states s)) s
      | inr v => ∃ cur, cl_states s !! ns_Name obj = Some cur ∧ v = patch_object original obj cur ∧
          s' = set_states (<[ns_Name obj := v]> (cl_states s)) s
      end
  | ApplyConditions obj cs => λ x s',
      (is_Some x ∧ s' = s) ∨
      ∃ cur, cl_states s !! om_Name obj = Some cur ∧
        s' = set_states (<[om_Name obj := apply_conditions cs cur]> (cl_states s)) s
  | Lock => λ _ s', s' = set_locked true s
  | Unlock => λ _ s', s' = set_locked false s
  | _ => λ _ s', s' = s
  end.

(** ** The other parties

    They may do anything to the objects, but for the assumptions under which
    the limit can be meaningful at all: pools and node labels stay the same,
    and while this worker holds the mutex nobody else starts a drain. *)
Record rely (s s' : Cluster) : Prop := {
  rely_pools : cl_pools s' = cl_pools s;
  rely_labels : ∀ n, labels_of s' n = labels_of s n;
  rely_locked : cl_locked s' = cl_locked s;
  rely_wf : cluster_wf s → cluster_wf s';
  rely_draining : cl_locked s = true → ∀ n, draining s' n → draining s n;
}.

Lemma rely_refl s : rely s s.
Proof. by split. Qed.

Lemma rely_trans s1 s2 s3 : rely s1 s2 → rely s2 s3 → rely s1 s3.
Proof.
  intros [P1 L1 K1 W1 D1] [P2 L2 K2 W2 D2]. constructor.
  - congruence.
  - intros n. by rewrite L2, L1.
  - congruence.
  - auto.
  - intros Hl n Hn. apply D1; [done|]. apply D2; [by rewrite K1|done].
Qed.

Lemma rely_rtc s s' : rtc rely s s' → rely s s'.
Proof. induction 1; eauto using rely_refl, rely_trans. Qed.

Definition drain_world : World DrainResp := shared_world server rely.

(** ** The specification: pools and their limits *)

Section pools.
Context (selector_valid : LabelSelector → bool).

Definition isDrainPool (npc : SriovNetworkPoolConfig) : bool :=
  String.eqb (ovs_Name (pcs_OvsHardwareOffloadConfig (pc_Spec npc))) "".

(** The pools a set of labels falls into. *)
Definition poolsOf (s : Cluster) (l : gmap string string) : list SriovNetworkPoolConfig :=
  List.filter (λ npc, isDrainPool npc && selector_matches (npcSelector npc) l) (cl_pools s).

(** [names] are the nodes that share the slots of a node with labels [l], and
    [npc] is the configuration that limits them. *)
Definition pool_spec (s : Cluster) (l : gmap string string) (npc : SriovNetworkPoolConfig)
    (names : list string) : Prop :=
  NoDup names ∧
  (poolsOf s l = [npc] ∧
     (∀ n, n ∈ names ↔ ∃ l', labels_of s n = Some l' ∧ selector_matches (npcSelector npc) l' = true) ∨
   poolsOf s l = [] ∧ npc = defaultPoolConfig ∧
     (∀ n, n ∈ names ↔ ∃ l', labels_of s n = Some l' ∧ poolsOf s l' = [])).

Definition count_draining (s : Cluster) (names : list string) : Z :=
  Z.of_nat (length (filter (draining s) names)).

(** There is a free slot for a node with labels [l]. *)
Definition free_slot (s : Cluster) (l : gmap string string) : Prop :=
  ∃ npc names m, pool_spec s l npc names ∧
    MaxUnavailable npc (Z.of_nat (length names)) = Ok m ∧
    (m = -1 ∨ count_draining s names < m).
End pools.

(** ** The guarantee *)

(** A request of the worker is allowed unless it turns a node's current-state
    to Draining without holding the mutex or without a free slot in the node's
    pool at that very moment. *)
Definition allowed (s : Cluster) (r : DrainReq) : Prop :=
  match r with
  | PatchNodeState original obj =>
      GetAnnotations obj !! NodeStateDrainAnnotationCurrent = Some Draining →
      GetAnnotations original !! NodeStateDrainAnnotationCurrent ≠ Some Draining →
      cl_locked s = true ∧ ∃ l, labels_of s (ns_Name obj) = Some l ∧ free_slot s l
  | _ => True
  end.

(** *** Programs that never start a drain

    Most of the controller makes no patch of a node state at all; these parts
    are harmless in any world that allows every other request. *)

Definition patchesState (r : DrainReq) : bool :=
  match r with PatchNodeState _ _ => true | _ => false end.

Section unpatched.
Context (W : World DrainResp) (G : w_state W → DrainReq → Prop) (Rel : relation (w_state W)).
Context `{!PreOrder Rel}.
Context (HG : ∀ s r, patchesState r = false → G s r).
Context (HRel : ∀ s r x s', w_step W s r x s' → Rel s s').

Lemma steady_request r : patchesState r = false → steady W G Rel (perform r).
Proof using Type*. intros Hr. apply steady_perform; eauto. Qed.
#[local] Hint Extern 1 (steady _ _ _ (perform _)) => apply steady_request; reflexivity : steady.

Lemma steady_recordTransitions obj ts :
  steady W G Rel (recordTransitions (resp := DrainResp)
    (λ obj t reason message, perform (Event obj t reason message)) obj ts).
Proof using Type*. induction ts; cbn [recordTransitions]; steady. Qed.
#[local] Hint Resolve steady_recordTransitions : steady.

Lemma steady_updateDrainConditions s st msg : steady W G Rel (updateDrainConditions s st msg).
Proof using Type*. unfold updateDrainConditions, ApplyCondition. steady. Qed.
#[local] Hint Resolve steady_updateDrainConditions : steady.

Lemma steady_warn s a b : steady W G Rel (warn s a b).
Proof using Type*. unfold warn. steady. Qed.

Lemma steady_annotateNode n key value : steady W G Rel (annotateNode n key value).
Proof using Type*. unfold annotateNode, AnnotateObject. steady. Qed.

Lemma steady_onDrainError s d msg : steady W G Rel (onDrainError s d msg).
Proof using Type*. unfold onDrainError. steady. Qed.
#[local] Hint Resolve steady_onDrainError : steady.

Lemma steady_errOut s d lines : steady W G Rel (errOut (onDrainError s) d lines).
Proof using Type*. revert d. induction lines as [|l ls IH]; intros d; cbn [errOut]; steady. Qed.
#[local] Hint Resolve steady_errOut : steady.

Lemma steady_DrainNode s node f b d : steady W G Rel (DrainNode (onDrainError s) node f b d).
Proof using Type*. unfold DrainNode. steady. Qed.

Lemma steady_CompleteDrainNode node : steady W G Rel (CompleteDrainNode node).
Proof using Type*. unfold CompleteDrainNode. steady. Qed.

Lemma steady_checkSingleNode f : steady W G Rel (checkSingleNode f).
Proof using Type*. unfold checkSingleNode. steady. Qed.

Lemma steady_scanPools valid node items sel ins :
  steady W G Rel (scanPools valid node items sel ins).
Proof using Type*.
  revert sel ins. induction items as [|npc items IH]; intros sel ins; cbn [scanPools]; steady.
Qed.
#[local] Hint Resolve steady_scanPools : steady.

Lemma steady_findNodePoolConfig valid node : steady W G Rel (findNodePoolConfig valid node).
Proof using Type*. unfold findNodePoolConfig. steady. Qed.

Lemma steady_countDraining node nodes into c o : steady W G Rel (countDraining node nodes into c o).
Proof using Type*. revert into c o. induction nodes; intros into c o; cbn [countDraining]; steady. Qed.
End unpatched.

(** In the cluster, with nothing to remember. *)
Definition anyhow : relation (w_state drain_world) := λ _ _, True.

#[export] Instance anyhow_preorder : PreOrder anyhow.
Proof. by split. Qed.

Abbreviation quiet := (steady drain_world allowed anyhow).

Lemma allowed_unpatched s r : patchesState r = false → allowed s r.
Proof. by destruct r. Qed.

Lemma quiet_request r : patchesState r = false → quiet (perform r).
Proof. intros H. apply steady_request; [exact _|exact allowed_unpatched|done..]. Qed.

Lemma quiet_updateDrainConditions s st msg : quiet (updateDrainConditions s st msg).
Proof. apply steady_updateDrainConditions; [exact _|exact allowed_unpatched|done]. Qed.

Lemma quiet_warn s a b : quiet (warn s a b).
Proof. apply steady_warn; [exact _|exact allowed_unpatched|done]. Qed.

Lemma quiet_annotateNode n key value : quiet (annotateNode n key value).
Proof. apply steady_annotateNode; [exact _|exact allowed_unpatched|done]. Qed.

Lemma quiet_DrainNode s node f b d : quiet (DrainNode (onDrainError s) node f b d).
Proof. apply steady_DrainNode; [exact _|exact allowed_unpatched|done]. Qed.

Lemma quiet_CompleteDrainNode node : quiet (CompleteDrainNode node).
Proof. apply steady_CompleteDrainNode; [exact _|exact allowed_unpatched|done]. Qed.

Lemma quiet_checkSingleNode f : quiet (checkSingleNode f).
Proof. apply steady_checkSingleNode; [exact _|exact allowed_unpatched|done]. Qed.

#[export] Hint Extern 1 (steady drain_world _ _ (perform _)) => apply quiet_request; reflexivity : steady.
#[export] Hint Resolve quiet_updateDrainConditions quiet_warn quiet_annotateNode
  quiet_DrainNode quiet_CompleteDrainNode quiet_checkSingleNode : steady.

Lemma wp_quiet {A} (p : drainM A) s : quiet p → wp drain_world allowed p (λ _ _, True) s.
Proof. intros H. apply H. Qed.

(** Annotating with anything but Draining. *)
Lemma quiet_annotateNodeState s key value :
  (key = NodeStateDrainAnnotationCurrent → value ≠ Draining) → quiet (annotateNodeState s key value).
Proof.
  intros Hv. unfold annotateNodeState, AnnotateObject. steady.
  apply (steady_perform drain_world allowed anyhow (PatchNodeState _ _)); [|done].
  intros c H1 H2. rewrite GetAnnotations_Set in H1. exfalso.
  destruct (decide (key = NodeStateDrainAnnotationCurrent)) as [->|Hk].
  - rewrite lookup_insert_eq in H1. injection H1 as ->. by apply Hv.
  - rewrite lookup_insert_ne in H1 by done. done.
Qed.

Lemma quiet_annotate_idle s : quiet (annotateNodeState s NodeStateDrainAnnotationCurrent DrainIdle).
Proof. by apply quiet_annotateNodeState. Qed.
Lemma quiet_annotate_complete s : quiet (annotateNodeState s NodeStateDrainAnnotationCurrent DrainComplete).
Proof. by apply quiet_annotateNodeState. Qed.
#[export] Hint Resolve quiet_annotate_idle quiet_annotate_complete : steady.

Lemma quiet_drainAndComplete node s f b : quiet (drainAndComplete node s f b).
Proof. unfold drainAndComplete. steady. Qed.

Lemma quiet_handleIdle node s : quiet (handleNodeIdleNodeStateDrainingOrCompleted node s).
Proof. unfold handleNodeIdleNodeStateDrainingOrCompleted. steady. Qed.
#[export] Hint Resolve quiet_drainAndComplete quiet_handleIdle : steady.

(** *** The critical section *)

(** What is known after reading under the mutex: the state is one the others
    may have reached from [s0]. *)
Definition since (s0 s : Cluster) : Prop :=
  cluster_wf s0 ∧ cl_locked s0 = true ∧ rely s0 s.

Lemma since_wf s0 s : since s0 s → cluster_wf s.
Proof. intros (W & _ & R). by apply (rely_wf _ _ R). Qed.

Lemma since_locked s0 s : since s0 s → cl_locked s = true.
Proof. intros (_ & L & R). by rewrite (rely_locked _ _ R). Qed.

Lemma since_labels s0 s n : since s0 s → labels_of s n = labels_of s0 n.
Proof. intros (_ & _ & R). apply (rely_labels _ _ R). Qed.

Lemma since_step s0 s s' : since s0 s → rtc rely s s' → since s0 s'.
Proof.
  intros (W & L & R) R'%rely_rtc. split_and!; eauto using rely_trans.
Qed.

(** Counting is monotone: under the mutex the others only end drains. *)
Lemma count_draining_le s s' names :
  (∀ n, draining s' n → draining s n) → count_draining s' names ≤ count_draining s names.
Proof.
  intros H. unfold count_draining. apply inj_le.
  induction names as [|n names IH]; [done|]. rewrite !filter_cons.
  repeat case_decide; cbn; try lia. exfalso. eauto.
Qed.

Lemma count_draining_app s l1 l2 :
  count_draining s (l1 ++ l2) = count_draining s l1 + count_draining s l2.
Proof. unfold count_draining. rewrite filter_app, length_app. lia. Qed.

Lemma count_draining_one s n :
  count_draining s [n] = if decide (draining s n) then 1 else 0.
Proof.
  unfold count_draining. rewrite filter_cons, filter_nil. by case_decide.
Qed.

(** The names of a list answered by the server. *)
Lemma listed_names s (l : list Node) sel :
  cluster_wf s →
  (∀ o, o ∈ l ↔ cl_nodes s !! GetName o = Some o ∧ node_matches sel (GetLabels o) = true) →
  ∀ n, n ∈ GetName <$> l ↔ ∃ l', labels_of s n = Some l' ∧ node_matches sel l' = true.
Proof.
  intros [W _] H n. rewrite list_elem_of_fmap. unfold labels_of. split.
  - intros (o & -> & [H1 H2]%H). exists (GetLabels o). by rewrite H1.
  - intros (l' & Hl & Hm). destruct (cl_nodes s !! n) as [o|] eqn:E; [|done]. injection Hl as <-.
    pose proof (W _ _ E) as Hn. exists o. split; [done|]. apply H. by rewrite Hn.
Qed.

Section critical.
Context (selector_valid : LabelSelector → bool).

Lemma wp_scanPools s0 node items sel0 in0 s :
  since s0 s →
  wp drain_world allowed (scanPools selector_valid node items sel0 in0) (λ r s', since s0 s' ∧
    ∀ sel ins, r = inr (sel, ins) →
      sel = sel0 ++ List.filter
        (λ npc, isDrainPool npc && selector_matches (npcSelector npc) (GetLabels node)) items ∧
      ∀ n, n ∈ ins ↔ n ∈ in0 ∨ ∃ l npc, labels_of s0 n = Some l ∧ npc ∈ items ∧
        isDrainPool npc = true ∧ selector_matches (npcSelector npc) l = true) s.
Proof.
  revert sel0 in0 s. induction items as [|npc items IH]; intros sel0 in0 s Hs; cbn [scanPools].
  { cbn. split; [done|]. intros sel ins [= <- <-]. split; [by rewrite app_nil_r|].
    intros n. split; [by left|]. intros [?|(? & ? & _ & H & _)]; [done|by apply elem_of_nil in H]. }
  destruct (negb _) eqn:Hpool.
  - apply negb_true_iff in Hpool. eapply wp_post; [by apply IH|].
    intros r s' [Hs' H]. split; [done|]. intros sel ins Hr. destruct (H sel ins Hr) as [-> Hin].
    cbn [List.filter]. unfold isDrainPool at 2. rewrite Hpool. split; [done|].
    intros n. rewrite Hin. apply or_iff_compat_l. split.
    + intros (l & npc' & ? & ? & ? & ?). exists l, npc'. split_and!; [done|by right|done..].
    + intros (l & npc' & Hl & [->|Hn]%elem_of_cons & Hd & Hm); [|by exists l, npc'].
      unfold isDrainPool in Hd. congruence.
  - apply negb_false_iff in Hpool. destruct (negb (selector_valid _)); [by split|].
    apply wp_perform; [done|]. intros x s1 (s1' & [-> Hx] & R). destruct x as [e|nodes].
    { cbn. split; [by eapply since_step|done]. }
    destruct Hx as [_ Hx]. apply (since_step _ _ _ Hs) in R as Hs1.
    eapply wp_post; [by apply IH|]. intros r s' [Hs' H]. split; [done|]. intros sel ins Hr.
    destruct (H sel ins Hr) as [-> Hin]. cbn [List.filter].
    unfold isDrainPool at 2. rewrite Hpool. cbn [andb]. split.
    + destruct (selector_matches (npcSelector npc) (GetLabels node)); [by rewrite <- app_assoc|done].
    + intros n. rewrite Hin, elem_of_union, elem_of_list_to_set.
      rewrite (listed_names s nodes (Some (npcSelector npc))) by (eauto using since_wf).
      rewrite (since_labels _ _ n Hs). cbn [node_matches]. split.
      * intros [[?|(l & ? & ?)]|(l & npc' & ? & ? & ? & ?)]; [by left|right..].
        -- exists l, npc. split_and!; [done|left|done..].
        -- exists l, npc'. split_and!; [done|by right|done..].
      * intros [?|(l & npc' & Hl & [->|Hn]%elem_of_cons & Hd & Hm)]; [by left; left| |].
        -- left; right. by exists l.
        -- right. by exists l, npc'.
Qed.

Lemma poolsOf_nil s l :
  poolsOf s l = [] ↔ ¬ ∃ npc, npc ∈ cl_pools s ∧ isDrainPool npc = true ∧
                        selector_matches (npcSelector npc) l = true.
Proof.
  unfold poolsOf. split.
  - intros H (npc & Hin & Hd & Hm).
    assert (npc ∈ List.filter (λ npc, isDrainPool npc && selector_matches (npcSelector npc) l)
              (cl_pools s)) as Hf.
    { apply list_elem_of_In, filter_In. split; [by apply list_elem_of_In|]. by rewrite Hd, Hm. }
    rewrite H in Hf. by apply elem_of_nil in Hf.
  - intros H. destruct (List.filter _ _) as [|npc rest] eqn:E; [done|]. exfalso. apply H.
    exists npc. assert (Hin : In npc (npc :: rest)) by (by left). rewrite <- E in Hin.
    apply filter_In in Hin as [Hin Hb]. apply andb_true_iff in Hb. by rewrite list_elem_of_In.
Qed.

Lemma wp_findNodePoolConfig s0 node s :
  since s0 s →
  wp drain_world allowed (findNodePoolConfig selector_valid node) (λ r s', since s0 s' ∧
    ∀ npc nodes, r = inr (npc, nodes) →
      pool_spec s0 (GetLabels node) npc (GetName <$> nodes)) s.
Proof.
  intros Hs. unfold findNodePoolConfig. apply wp_perform; [done|].
  intros x s1 (s1' & [-> Hx] & R). apply (since_step _ _ _ Hs) in R as Hs1.
  destruct x as [e|items]; [by cbn|]. subst items.
  assert (Hp : cl_pools s = cl_pools s0) by (destruct Hs as (_ & _ & []); done).
  apply wp_try. eapply wp_post; [by apply wp_scanPools|].
  intros [e|[sel ins]] s2 [Hs2 H]; [by cbn|]. destruct (H _ _ eq_refl) as [Hsel Hin]. clear H.
  cbn [app] in Hsel. rewrite Hp in Hsel. rewrite Hp in Hin.
  fold (poolsOf s0 (GetLabels node)) in Hsel.
  destruct sel as [|npc [|]]; [| |by cbn].
  - apply wp_perform; [done|]. intros x s3 (s3' & [-> Hx] & R3).
    apply (since_step _ _ _ Hs2) in R3 as Hs3. destruct x as [e|nodes]; [by cbn|].
    cbn. split; [done|]. intros npc l [= <- <-]. destruct Hx as [Hnd Hx]. split.
    + eapply sublist_NoDup; [exact Hnd|]. clear. induction nodes as [|n nodes IH]; [done|]. cbn.
      destruct (negb _); cbn; [by apply sublist_skip|by apply sublist_cons].
    + right. split_and!; [done..|]. intros n.
      pose proof (listed_names s2 nodes None (since_wf _ _ Hs2) Hx n) as Hn.
      rewrite (since_labels _ _ n Hs2) in Hn.
      rewrite list_elem_of_fmap. split.
      * intros (o & -> & Ho). apply list_elem_of_In, filter_In in Ho as [Ho Hb].
        apply list_elem_of_In in Ho. apply negb_true_iff, bool_decide_eq_false in Hb.
        destruct (proj1 Hn) as (l' & Hl' & _); [by apply list_elem_of_fmap_2|].
        exists l'. split; [done|]. apply poolsOf_nil. intros (npc & ? & ? & ?). apply Hb, Hin.
        right. by exists l', npc.
      * intros (l' & Hl' & Hno). pose proof (proj2 Hn (ex_intro _ l' (conj Hl' eq_refl))) as Hm.
        apply list_elem_of_fmap in Hm as (o & -> & Ho).
        exists o. split; [done|]. apply list_elem_of_In, filter_In. split; [by apply list_elem_of_In|].
        apply negb_true_iff, bool_decide_eq_false. rewrite Hin.
        intros [?%not_elem_of_empty|(l & npc & Hl & ? & ? & ?)]; [done|].
        assert (l = l') as -> by congruence. apply (proj1 (poolsOf_nil s0 l')); [done|by exists npc].
  - destruct (negb (selector_valid _)); [by cbn|].
    apply wp_perform; [done|]. intros x s3 (s3' & [-> Hx] & R3).
    apply (since_step _ _ _ Hs2) in R3 as Hs3. destruct x as [e|nodes]; [by cbn|].
    cbn. split; [done|]. intros npc' l [= <- <-]. destruct Hx as [Hnd Hx]. split; [done|].
    left. split; [done|]. intros n.
    rewrite (listed_names s2 nodes (Some (npcSelector npc))) by eauto using since_wf.
    by rewrite (since_labels _ _ n Hs2).
Qed.

(** What is left in the object from earlier reads never hides an annotation. *)
Lemma decodeInto_isDraining into o : isDraining o = true → isDraining (decodeInto into o) = true.
Proof.
  unfold isDraining. rewrite !orb_true_iff, !ObjectHasAnnotation_lookup.
  unfold decodeInto, SetLabels. cbn. intros [H|H]; [left|right]; by apply lookup_union_Some_l.
Qed.

Lemma wp_countDraining s0 node nodes seen into current snns s :
  since s0 s → count_draining s seen ≤ current →
  (∀ o, snns = Some o → ns_Name o = GetName node) →
  wp drain_world allowed (countDraining node nodes into current snns) (λ r s', since s0 s' ∧
    ∀ c o, r = inr (c, o) → count_draining s' (seen ++ (GetName <$> nodes)) ≤ c ∧
      ∀ x, o = Some x → ns_Name x = GetName node) s.
Proof.
  revert seen into current snns s. induction nodes as [|n nodes IH];
    intros seen into current snns s Hs Hc Ho; cbn [countDraining].
  { cbn. split; [done|]. intros c o [= <- <-]. by rewrite app_nil_r. }
  apply wp_perform; [done|]. intros x s1 (s1' & [-> Hx] & R).
  apply (since_step _ _ _ Hs) in R as Hs1.
  assert (Hmono : ∀ l, count_draining s1 l ≤ count_draining s l).
  { intros l. apply count_draining_le. apply rely_rtc in R.
    apply (rely_draining _ _ R). eauto using since_locked. }
  assert (Hone : ∀ d : bool, (draining s (GetName n) → d = true) →
    count_draining s1 (seen ++ [GetName n]) ≤ if d then current + 1 else current).
  { intros d Hd. etrans; [apply Hmono|]. rewrite count_draining_app, count_draining_one.
    case_decide as Hdr; [rewrite Hd by done|destruct d]; lia. }
  replace (seen ++ (GetName <$> n :: nodes)) with ((seen ++ [GetName n]) ++ (GetName <$> nodes))
    by (by rewrite <- app_assoc).
  destruct x as [e|o].
  - destruct (IsNotFound e) eqn:E; [|by cbn]. apply bool_decide_eq_true in E. subst e.
    apply IH; [done| |done]. apply (Hone false). intros (o & Hl & _). cbn in Hx. congruence.
  - apply IH; [done| |].
    + apply (Hone (isDraining (decodeInto into o))). intros (o' & Hl & Hd). cbn in Hx.
      apply decodeInto_isDraining. congruence.
    + intros x. destruct (String.eqb_spec (ns_Name (decodeInto into o)) (GetName node));
        [by intros [= <-]|apply Ho].
Qed.

Lemma pool_spec_rely s s' l npc names :
  rely s s' → pool_spec s l npc names → pool_spec s' l npc names.
Proof.
  intros [P L _ _ _] [Hnd H]. split; [done|]. unfold poolsOf. setoid_rewrite L.
  unfold poolsOf in H. by rewrite P.
Qed.

(** Under the mutex, the body of [tryDrainNode] starts a drain only with a
    free slot. *)
Lemma wp_tryDrainNode_locked node s :
  cluster_wf s → cl_locked s = true → labels_of s (GetName node) = Some (GetLabels node) →
  wp drain_world allowed (tryDrainNode_locked selector_valid node) (λ _ _, True) s.
Proof.
  intros W L Hl. assert (Hs : since s s) by (split_and!; auto using rely_refl).
  unfold tryDrainNode_locked. apply wp_try. eapply wp_post; [by apply wp_findNodePoolConfig|].
  intros [e|[npc nodes]] s1 [Hs1 Hpool]; [by cbn|]. specialize (Hpool _ _ eq_refl).
  destruct (MaxUnavailable npc _) as [m|e|] eqn:Hm; [|by cbn..].
  apply wp_try. eapply wp_post; [by apply (wp_countDraining s node nodes [])|].
  intros [e|[c o]] s2 [Hs2 Hcount]; [by cbn|].
  destruct (Hcount _ _ eq_refl) as [Hc Hname]. clear Hcount. cbn [app] in Hc.
  destruct o as [snns|]; [|by cbn]. specialize (Hname _ eq_refl).
  destruct (isDraining snns); [by cbn|].
  destruct (negb (m =? -1) && (m <=? c)) eqn:Hlim.
  { apply wp_quiet. steady. }
  apply wp_bind. unfold annotateNodeState, AnnotateObject.
  destruct (String.eqb _ Draining); [by apply wp_quiet; steady|].
  apply wp_perform.
  - intros _ _. split; [by eapply since_locked|]. exists (GetLabels node).
    change (ns_Name (SetAnnotations _ snns)) with (ns_Name snns).
    rewrite Hname, (since_labels _ _ _ Hs2). split; [done|].
    exists npc, (GetName <$> nodes), m. rewrite length_fmap. split_and!.
    + eapply pool_spec_rely; [apply Hs2|done].
    + done.
    + apply andb_false_iff in Hlim as [Hlim|Hlim]; bool_hyps; [by left|right; lia].
  - intros x s3 _. destruct x as [e|o]; [by cbn|].
    apply wp_quiet. steady.
Qed.
End critical.

(** *** The whole reconciliation *)

Lemma wp_tryDrainNode valid node s :
  cluster_wf s → labels_of s (GetName node) = Some (GetLabels node) →
  wp drain_world allowed (tryDrainNode valid node) (λ _ _, True) s.
Proof.
  intros W L. unfold tryDrainNode. apply wp_perform; [done|].
  intros [] s1 (s2 & -> & R%rely_rtc). apply wp_bind. eapply wp_post.
  - apply wp_tryDrainNode_locked.
    + by apply (rely_wf _ _ R).
    + by rewrite (rely_locked _ _ R).
    + by rewrite (rely_labels _ _ R).
  - intros r s3 _. by apply wp_perform.
Qed.

Lemma wp_ensure_present {A} `{KubeObject A} ann (o : A) key v s Q :
  GetAnnotations o !! key = Some v → Q (inr (o, v, true)) s →
  wp drain_world allowed (ensureAnnotationExists ann o key) Q s.
Proof. intros Hv HQ. unfold ensureAnnotationExists. by rewrite Hv. Qed.

(** An annotation reported as found was there, and nothing was written. *)
Lemma wp_ensure {A} `{KubeObject A} ann (o : A) key s :
  quiet (ann o key DrainIdle) →
  wp drain_world allowed (ensureAnnotationExists ann o key)
    (λ r _, ∀ o' v e, r = inr (o', v, e) → e = true → o' = o ∧ is_Some (GetAnnotations o !! key)) s.
Proof.
  intros Hq. unfold ensureAnnotationExists. destruct (GetAnnotations o !! key) as [v|].
  - intros o' v' e [= <- <- <-] _. eauto.
  - apply wp_bind. eapply wp_post; [apply Hq|]. intros [o' [e|]] s' _; [by cbn|].
    by intros o'' v e [= <- <- <-].
Qed.

Lemma wp_handleNodeDrainOrReboot valid node s0 a c s :
  cluster_wf s → labels_of s (GetName node) = Some (GetLabels node) →
  wp drain_world allowed (handleNodeDrainOrReboot valid node s0 a c) (λ _ _, True) s.
Proof.
  intros W L. unfold handleNodeDrainOrReboot. destruct (String.eqb c DrainComplete); [by cbn|].
  apply wp_try. eapply (wp_post _ _ _ (λ _ _, True)).
  - destruct (String.eqb c DrainIdle); [by apply wp_tryDrainNode|by cbn].
  - intros [e|[r|]] s' _; [by cbn..|].
    destruct (drainAlreadyCompleted s0 c); apply wp_quiet; steady.
Qed.

Lemma wp_Reconcile valid name s :
  cluster_wf s → wp drain_world allowed (Reconcile valid name) (λ _ _, True) s.
Proof.
  intros W. unfold Reconcile, getObject.
  apply wp_try, wp_perform; [done|]. intros x s1 (s1' & [-> Hx] & R1%rely_rtc).
  destruct x as [e|node]; [by destruct (IsNotFound e)|]. cbn in Hx.
  assert (W1 : cluster_wf s1) by (by apply (rely_wf _ _ R1)).
  assert (L1 : labels_of s1 (GetName node) = Some (GetLabels node)).
  { rewrite (rely_labels _ _ R1). unfold labels_of.
    rewrite (proj1 W _ _ Hx). by rewrite Hx. }
  apply wp_ret, wp_try, wp_perform; [done|]. intros x s2 (s2' & [-> _] & R2%rely_rtc).
  destruct x as [e|s0]; [by destruct (IsNotFound e)|]. apply wp_ret.
  assert (W2 : cluster_wf s2) by (by apply (rely_wf _ _ R2)).
  assert (L2 : labels_of s2 (GetName node) = Some (GetLabels node))
    by (by rewrite (rely_labels _ _ R2)).
  destruct (ObjectHasAnnotation s0 _ _); [by cbn|].
  destruct (decide (is_Some (GetAnnotations s0 !! NodeStateDrainAnnotationCurrent) ∧
    is_Some (GetAnnotations s0 !! NodeStateDrainAnnotation) ∧
    is_Some (GetAnnotations node !! NodeDrainAnnotation))) as [([c Hc] & [d Hd] & [a Ha])|Hmiss].
  - apply wp_try. eapply wp_ensure_present; [done|]. apply wp_try. eapply wp_ensure_present; [done|].
    apply wp_try. eapply wp_ensure_present; [done|]. cbn [negb andb].
    destruct (_ && String.eqb c DrainIdle).
    { apply wp_quiet. steady. }
    destruct (_ && (_ || _)); [apply wp_quiet; steady|].
    destruct (_ || _); [by apply wp_handleNodeDrainOrReboot|by cbn].
  - apply wp_try. eapply wp_post; [apply wp_ensure; by apply quiet_annotate_idle|].
    intros [e|[[o1 c] e1]] s3 H1; [by cbn|]. specialize (H1 _ _ _ eq_refl).
    apply wp_try. eapply wp_post; [apply wp_ensure; by apply quiet_annotateNodeState|].
    intros [e|[[o2 d] e2]] s4 H2; [by cbn|]. specialize (H2 _ _ _ eq_refl).
    apply wp_try. eapply wp_post; [apply wp_ensure; apply quiet_annotateNode|].
    intros [e|[[o3 a] e3]] s5 H3; [by cbn|]. specialize (H3 _ _ _ eq_refl).
    assert (He : e3 && e1 && e2 = false).
    { destruct e1, e2, e3; try done. exfalso. apply Hmiss.
      destruct (H1 eq_refl) as [-> ?], (H2 eq_refl) as [-> ?], (H3 eq_refl). auto. }
    rewrite He. cbn [negb]. apply wp_quiet. steady.
Qed.

(** A patch changes the drain state of one node at most. *)
Lemma patch_draining s original obj x s' n :
  server s (PatchNodeState original obj) x s' → draining s' n → n = ns_Name obj ∨ draining s n.
Proof.
  intros Hs (o & Ho & Hd). destruct (decide (n = ns_Name obj)) as [|Hn]; [by left|right].
  exists o. split; [|done].
  destruct x as [e|v]; [destruct Hs as [->|(cur & _ & ->)]|destruct Hs as (cur & _ & _ & ->)];
    cbn in Ho; try (rewrite lookup_insert_ne in Ho by done); done.
Qed.

Lemma count_draining_patch s s' names m :
  NoDup names → (∀ n, draining s' n → n = m ∨ draining s n) →
  count_draining s' names ≤ count_draining s names + 1.
Proof.
  intros Hnd H. induction Hnd as [|n names Hn Hnd IH]; [by cbn|].
  change (n :: names) with ([n] ++ names). rewrite !count_draining_app, !count_draining_one.
  destruct (decide (n = m)) as [->|Hne].
  - assert (count_draining s' names ≤ count_draining s names); [|repeat case_decide; lia].
    unfold count_draining. apply inj_le. clear IH Hnd.
    induction names as [|k names IH]; [done|]. rewrite !filter_cons. apply not_elem_of_cons in Hn as [Hk Hn].
    specialize (IH Hn). repeat case_decide; cbn; try lia.
    exfalso. destruct (H k); congruence || auto.
  - repeat case_decide; try lia. exfalso. destruct (H n); auto.
Qed.

(** C1: No pool is drained beyond its limit.  In every run of [Reconcile],
    whatever fails and whatever others do meanwhile (as long as pools and node
    labels are stable and drains are only started under the mutex), a patch
    that turns a node's current-state to Draining is sent only while the mutex
    is held, and only if the node's pool -- the one pool config that selects
    it, or the nodes in no pool with a limit of one -- allows unlimited drains
    or, in the state the patch produces, has at most MaxUnavailable draining
    or drained nodes. *)
Theorem Reconcile_respects_drain_limit (valid : LabelSelector → bool) (name : string)
    (s s' : Cluster) (tr : list (Cluster * DrainReq)) (res : DrainError + Result)
    (Hwf : cluster_wf s)
    (Hexec : exec drain_world (Reconcile valid name) s tr res s') :
  ∀ si original obj, (si, PatchNodeState original obj) ∈ tr →
    GetAnnotations obj !! NodeStateDrainAnnotationCurrent = Some Draining →
    GetAnnotations original !! NodeStateDrainAnnotationCurrent ≠ Some Draining →
    cl_locked si = true ∧
    ∃ l npc names m, labels_of si (ns_Name obj) = Some l ∧ pool_spec si l npc names ∧
      MaxUnavailable npc (Z.of_nat (length names)) = Ok m ∧
      (m = -1 ∨ ∀ x si', server si (PatchNodeState original obj) x si' →
                 count_draining si' names ≤ m).
Proof.
  intros si original obj Hin Hnew Hold.
  destruct (wp_exec drain_world _ _ _ _ _ _ _ (wp_Reconcile valid name s Hwf) Hexec) as [_ Htr].
  rewrite Forall_forall in Htr. specialize (Htr _ Hin). cbn [fst snd] in Htr.
  destruct (Htr Hnew Hold) as (Hl & l & Hlab & npc & names & m & Hp & Hm & Hc).
  split; [done|]. exists l, npc, names, m. split_and!; [done..|].
  destruct Hc as [->|Hc]; [by left|right]. intros x si' Hserv.
  pose proof (count_draining_patch si si' names (ns_Name obj) (proj1 Hp)
    (λ n, patch_draining si original obj x si' n Hserv)). lia.
Qed.

(** *** A server that answers every call *)

Definition lookup_answer {A} (o : option A) : KubeError + A :=
  match o with Some a => inr a | None => inl ErrNotFound end.

Definition cluster_handle (s : Cluster) (r : DrainReq) : DrainResp r * Cluster :=
  match r with
  | GetNode n => (lookup_answer (cl_nodes s !! n), s)
  | GetNodeState n => (lookup_answer (cl_states s !! n), s)
  | ListNodes sel =>
      (inr (List.filter (λ o, node_matches sel (GetLabels o)) (snd <$> map_to_list (cl_nodes s))), s)
  | ListPools => (inr (cl_pools s), s)
  | PatchNode original obj =>
      match cl_nodes s !! GetName obj with
      | Some cur => (inr (patch_object original obj cur),
                     set_nodes (<[GetName obj := patch_object original obj cur]> (cl_nodes s)) s)
      | None => (inl ErrNotFound, s)
      end
  | PatchNodeState original obj =>
      match cl_states s !! ns_Name obj with
      | Some cur => (inr (patch_object original obj cur),
                     set_states (<[ns_Name obj := patch_object original obj cur]> (cl_states s)) s)
      | None => (inl ErrNotFound, s)
      end
  | ApplyConditions obj cs =>
      match cl_states s !! om_Name obj with
      | Some cur => (None, set_states (<[om_Name obj := apply_conditions cs cur]> (cl_states s)) s)
      | None => (Some ErrNotFound, s)
      end
  | Event _ _ _ _ => (tt, s)
  | TimeNow => (0, s)
  | Lock => (tt, set_locked true s)
  | Unlock => (tt, set_locked false s)
  | BeforeDrainNode _ | AfterCompleteDrainNode _ => (inr true, s)
  | RunCordonOrUncordon _ _ => (None, s)
  | RunNodeDrain _ _ => (([], None), s)
  end.

Lemma cluster_wf_set_states s n o :
  cluster_wf s → ns_Name o = n → cluster_wf (set_states (<[n := o]> (cl_states s)) s).
Proof.
  intros [W1 W2] Hn. split; [exact W1|]. cbn [set_states cl_states]. intros m o' [[<- <-]|[? ?]]%lookup_insert_Some; [done|auto].
Qed.

Lemma cluster_wf_set_nodes s n o :
  cluster_wf s → GetName o = n → cluster_wf (set_nodes (<[n := o]> (cl_nodes s)) s).
Proof.
  intros [W1 W2] Hn. split; [|exact W2]. cbn [set_nodes cl_nodes]. intros m o' [[<- <-]|[? ?]]%lookup_insert_Some; [done|auto].
Qed.

Lemma listed_spec s sel :
  cluster_wf s →
  let l := List.filter (λ o, node_matches sel (GetLabels o)) (snd <$> map_to_list (cl_nodes s)) in
  NoDup (GetName <$> l) ∧
  ∀ o, o ∈ l ↔ cl_nodes s !! GetName o = Some o ∧ node_matches sel (GetLabels o) = true.
Proof.
  intros [W _]. cbn zeta. split.
  - assert (Hall : GetName <$> (snd <$> map_to_list (cl_nodes s)) = fst <$> map_to_list (cl_nodes s)).
    { rewrite <- list_fmap_compose. apply list_fmap_ext. intros i [k o] Hi. cbn.
      apply W, elem_of_map_to_list. by eapply list_elem_of_lookup_2. }
    eapply sublist_NoDup; [apply (NoDup_fst_map_to_list (cl_nodes s))|]. rewrite <- Hall. clear.
    induction (snd <$> map_to_list (cl_nodes s)) as [|o l IH]; cbn; [done|].
    destruct (node_matches _ _); cbn; [by apply sublist_skip|by apply sublist_cons].
  - intros o. rewrite list_elem_of_In, filter_In, <- list_elem_of_In, list_elem_of_fmap. split.
    + intros [([k o'] & -> & Hk%elem_of_map_to_list) Hm]. cbn in *. by rewrite (W _ _ Hk).
    + intros [Ho Hm]. split; [|done]. exists (GetName o, o). split; [done|].
      by apply elem_of_map_to_list.
Qed.

Lemma cluster_handle_ok s r :
  cluster_wf s → w_step drain_world s r (cluster_handle s r).1 (cluster_handle s r).2 ∧
  cluster_wf (cluster_handle s r).2.
Proof.
  intros W.
  assert (H : server s r (cluster_handle s r).1 (cluster_handle s r).2 ∧
    cluster_wf (cluster_handle s r).2); [|destruct H as [H1 H2]; split; [|done]; eexists;
    split; [exact H1|reflexivity]].
  destruct r as [n|n|sel| |o n|o n|m cs| | | | | | | |]; cbn; try done.
  - split; [split; [done|]|done]. by destruct (cl_nodes s !! n).
  - split; [split; [done|]|done]. by destruct (cl_states s !! n).
  - split; [split; [done|]|done]. by apply listed_spec.
  - destruct (cl_nodes s !! _) as [cur|] eqn:E; cbn; [|by split; [left|]].
    split; [by exists cur|]. apply cluster_wf_set_nodes; [done|]. apply (proj1 W _ _ E).
  - destruct (cl_states s !! _) as [cur|] eqn:E; cbn; [|by split; [left|]].
    split; [by exists cur|]. apply cluster_wf_set_states; [done|]. apply (proj2 W _ _ E).
  - destruct (cl_states s !! _) as [cur|] eqn:E; cbn; [|by split; [left|]].
    split; [right; by exists cur|]. apply cluster_wf_set_states; [done|]. apply (proj2 W _ _ E).
Qed.

(** One node that asks to be drained. *)
Definition sample_node (anno : string) : Node :=
  mkNode (mkObjectMeta "n1" "" 1 {[ NodeDrainAnnotation := anno ]} ∅ []) "" false.

Definition sample_nodestate (current : string) : SriovNetworkNodeState :=
  mkNodeState (mkObjectMeta "n1" "ns" 1
      {[ NodeStateDrainAnnotationCurrent := current; NodeStateDrainAnnotation := DrainRequired ]} ∅ [])
    (mkNodeStateSpec [] (mkBridges []) (mkSystem "" ∅))
    (mkNodeStateStatus [] (mkBridges []) (mkSystem "" ∅) "" "" []).

Definition sample_cluster : Cluster :=
  mkCluster {[ "n1" := sample_node DrainRequired ]} {[ "n1" := sample_nodestate DrainIdle ]} [] false.

Lemma sample_cluster_wf : cluster_wf sample_cluster.
Proof.
  split; unfold sample_cluster; cbn [cl_nodes cl_states];
    intros n o [<- <-]%lookup_singleton_Some; reflexivity.
Qed.

Lemma Reconcile_respects_drain_limit_witness :
  ∃ si original obj,
    (si, PatchNodeState original obj) ∈
      trace cluster_handle (Reconcile (λ _, true) "n1") sample_cluster ∧
    GetAnnotations obj !! NodeStateDrainAnnotationCurrent = Some Draining ∧ cl_locked si = true.
Proof.
  assert (H : trace cluster_handle (Reconcile (λ _, true) "n1") sample_cluster !! 6%nat =
    Some (set_locked true sample_cluster,
          PatchNodeState (sample_nodestate DrainIdle)
            (SetAnnotations {[ NodeStateDrainAnnotationCurrent := Draining;
               NodeStateDrainAnnotation := DrainRequired ]} (sample_nodestate DrainIdle))))
    by (vm_compute; reflexivity).
  apply list_elem_of_lookup_2 in H. do 3 eexists. split; [exact H|]. split; [vm_compute; reflexivity|].
  eapply (Reconcile_respects_drain_limit (λ _, true) "n1" sample_cluster).
  - apply sample_cluster_wf.
  - apply (run_exec drain_world cluster_handle cluster_wf); [apply cluster_handle_ok|].
    apply sample_cluster_wf.
  - exact H.
  - vm_compute; reflexivity.
  - vm_compute; discriminate.
Defined.

(** The object all states are read into makes the count too high: a state
    without the annotation, read after the state of a draining node, counts as
    draining too. *)
Example countDraining_inherits :
  let fresh := mkNodeState (mkObjectMeta "n2" "ns" 1 ∅ ∅ []) (ns_Spec zeroNodeState)
                 (ns_Status zeroNodeState) in
  let n2 := mkNode (mkObjectMeta "n2" "" 1 ∅ ∅ []) "" false in
  let s := mkCluster {[ "n1" := sample_node DrainRequired; "n2" := n2 ]}
             {[ "n1" := sample_nodestate Draining; "n2" := fresh ]} [] true in
  count_draining s ["n1"; "n2"] = 1 ∧
  ∃ o, run cluster_handle (countDraining n2 [sample_node DrainRequired; n2] zeroNodeState 0 None) s
       = (inr (2, Some o), s) ∧ isDraining fresh = false ∧ isDraining o = true.
Proof. cbn zeta. split; [vm_compute; reflexivity|]. eexists. vm_compute. auto. Qed.
