(* ===== verification/DrainProtocol.v ===== *)
(** * The drain protocol

    The current-state annotation of a node state is how the drain controller
    tells the daemon how far a drain is.  In whatever way the API server, the
    orchestrator and kubectl's drain answer, the controller moves it only along
    the steps of [annotation_step]; the conversation with them is the
    evidence. *)
From S2P Require Import Prelude GoLib Types Conditions PoolConfig Effects Kube DrainController DrainSafety.

Abbreviation history := (list (event DrainResp)).
Abbreviation said := (@existT DrainReq DrainResp).
Abbreviation hw := (history_world DrainResp).

Abbreviation current_state s := (GetAnnotations s !! NodeStateDrainAnnotationCurrent).

Section protocol.
(** The request of the reconciliation. *)
Context (name : string).

(** The node with that name, as it was fetched, and what the daemon asks for on
    it. *)
Definition subject (h : history) (node : Node) (anno : string) : Prop :=
  said (GetNode name) (inr node) ∈ h ∧ GetAnnotations node !! NodeDrainAnnotation = Some anno.

Definition asks (anno : string) : Prop := anno = DrainRequired ∨ anno = RebootRequired.

(** The node state with that name, as it was fetched. *)
Definition state_fetched (h : history) (s : SriovNetworkNodeState) : Prop := said (GetNodeState name) (inr s) ∈ h.

(** The node was drained: the orchestrator was ready, the node was cordoned, and
    kubectl's drain of it ended without an error, a full drain if a reboot is
    asked for; or the orchestrator was ready and the cluster has a single node,
    which is not evacuated for a reboot. *)
Definition drained (h : history) (node : Node) (anno : string) : Prop :=
  said (BeforeDrainNode node) (inr true) ∈ h ∧
  ((said (RunCordonOrUncordon node true) None ∈ h ∧
    ∃ lines, said (RunNodeDrain (GetName node) (String.eqb anno RebootRequired)) (lines, None) ∈ h) ∨
   (anno = RebootRequired ∧ ∃ n1, said (ListNodes None) (inr [n1]) ∈ h)).

(** The drain was undone: the node is schedulable and the orchestrator is
    done. *)
Definition undrained (h : history) (node : Node) : Prop :=
  said (RunCordonOrUncordon node false) None ∈ h ∧ said (AfterCompleteDrainNode node) (inr true) ∈ h.

(** The Draining condition records a drain that is over. *)
Definition drain_recorded (s : SriovNetworkNodeState) : Prop :=
  ∃ c, FindStatusCondition (nst_Conditions (ns_Status s)) ConditionDraining = Some c ∧
       c_Status c = ConditionFalse ∧ c_Reason c = ReasonDrainCompleted.

(** The steps of the annotation: from the value on the object to a new one. *)
Inductive annotation_step (h : history) (s : SriovNetworkNodeState) : string → Prop :=
| as_init : state_fetched h s → current_state s = None → annotation_step h s DrainIdle
| as_start node anno : subject h node anno → asks anno → said Lock tt ∈ h → ns_Name s = GetName node →
    isDraining s = false → annotation_step h s Draining
| as_complete node anno : subject h node anno → asks anno → state_fetched h s → drained h node anno →
    current_state s ≠ Some DrainComplete → annotation_step h s DrainComplete
| as_recover node anno : subject h node anno → asks anno → state_fetched h s → drain_recorded s →
    current_state s = Some Draining → annotation_step h s DrainComplete
| as_idle node : subject h node DrainIdle → state_fetched h s → undrained h node → isDraining s = true →
    annotation_step h s DrainIdle.

Definition protocol (h : history) (r : DrainReq) : Prop :=
  match r with
  | PatchNodeState original obj =>
      current_state obj ≠ current_state original →
      ∃ v, current_state obj = Some v ∧ annotation_step h original v
  | _ => True
  end.

Abbreviation orderly := (steady hw protocol extends).

Lemma protocol_unpatched (h : w_state hw) r : patchesState r = false → protocol h r.
Proof. by destruct r. Qed.

Lemma history_extends (h : w_state hw) r x h' : w_step hw h r x h' → extends h h'.
Proof. intros ->. apply extends_snoc. Qed.

#[local] Ltac unpatched l := apply l; [exact _|exact protocol_unpatched|exact history_extends].

Lemma orderly_request r : patchesState r = false → orderly (perform r).
Proof. intros. apply steady_request; [exact _|exact protocol_unpatched|exact history_extends|done]. Qed.
Lemma orderly_updateDrainConditions s st msg : orderly (updateDrainConditions s st msg).
Proof. unpatched steady_updateDrainConditions. Qed.
Lemma orderly_warn s a b : orderly (warn s a b).
Proof. unpatched steady_warn. Qed.
Lemma orderly_annotateNode n key value : orderly (annotateNode n key value).
Proof. unpatched steady_annotateNode. Qed.
Lemma orderly_errOut s d l : orderly (errOut (onDrainError s) d l).
Proof. unpatched steady_errOut. Qed.
Lemma orderly_onDrainError s d msg : orderly (onDrainError s d msg).
Proof. unpatched steady_onDrainError. Qed.
Lemma orderly_findNodePoolConfig v n : orderly (findNodePoolConfig v n).
Proof. unpatched steady_findNodePoolConfig. Qed.
Lemma orderly_countDraining n ns into c o : orderly (countDraining n ns into c o).
Proof. unpatched steady_countDraining. Qed.

#[local] Hint Extern 1 (steady (history_world _) _ _ (perform _)) =>
  apply orderly_request; reflexivity : steady.
#[local] Hint Resolve orderly_updateDrainConditions orderly_warn orderly_annotateNode orderly_errOut
  orderly_onDrainError orderly_findNodePoolConfig orderly_countDraining : steady.

Lemma wp_orderly {A} (p : drainM A) h : orderly p → wp hw protocol p (λ _ _, True) h.
Proof. intros H. by eapply wp_post; [apply H|]. Qed.

(** ** What each part contributes to the record *)

Lemma drained_extends h h' node anno : extends h h' → drained h node anno → drained h' node anno.
Proof. unfold drained, extends. naive_solver. Qed.

Lemma subject_extends h h' node anno : extends h h' → subject h node anno → subject h' node anno.
Proof using Type. unfold subject, extends. naive_solver. Qed.

Lemma already_recorded s c : drainAlreadyCompleted s c = true → c = Draining ∧ drain_recorded s.
Proof.
  unfold drainAlreadyCompleted, drain_recorded. intros [->%String.eqb_eq H]%andb_true_iff. split; [done|].
  destruct (FindStatusCondition _ _) as [d|]; [|done]. apply andb_true_iff in H as [?%String.eqb_eq ?%String.eqb_eq].
  by exists d.
Qed.

(** The state kept by the count is the one of the node. *)
Lemma wp_countDraining_name node nodes into c o (h : w_state hw) :
  (∀ s, o = Some s → ns_Name s = GetName node) →
  wp hw protocol (countDraining node nodes into c o)
    (λ r h', extends h h' ∧ ∀ c' s, r = inr (c', Some s) → ns_Name s = GetName node) h.
Proof using Type.
  revert into c o h. induction nodes as [|n nodes IH]; intros into c o h Ho; cbn [countDraining].
  { apply wp_ret. split; [by intros e He|]. intros c' s [= _ ->]. by apply Ho. }
  apply wp_perform; [done|]. intros x h1 ->.
  assert (E1 : extends h (h ++ [said (GetNodeState (GetName n)) x])) by apply extends_snoc.
  destruct x as [e|a].
  - destruct (IsNotFound e); [|by apply wp_ret]. eapply wp_post; [by apply IH|].
    intros r h2 [E2 H2]. split; [by etransitivity|done].
  - eapply wp_post; [apply IH|intros r h2 [E2 H2]; split; [by etransitivity|done]].
    intros s. destruct (String.eqb_spec (ns_Name (decodeInto into a)) (GetName node)); [by intros [= <-]|apply Ho].
Qed.

(** A change of the annotation that is a step of the protocol. *)
Lemma wp_annotate (s : SriovNetworkNodeState) v (h : w_state hw) :
  (current_state s ≠ Some v → annotation_step h s v) → v ≠ "" →
  wp hw protocol (annotateNodeState s NodeStateDrainAnnotationCurrent v) (λ _ h', extends h h') h.
Proof.
  intros Hstep Hv. unfold annotateNodeState, AnnotateObject.
  destruct (String.eqb_spec (default "" (current_state s)) v) as [E|E]; [by cbn; intros ? ?|].
  apply wp_perform.
  - unfold protocol. rewrite GetAnnotations_Set, lookup_insert_eq. intros Hne. exists v.
    split; [done|]. apply Hstep. congruence.
  - intros x h' ->. destruct x; apply extends_snoc.
Qed.

(** Annotations other than current-state are free. *)
Lemma orderly_annotateNodeState s key v :
  key ≠ NodeStateDrainAnnotationCurrent → orderly (annotateNodeState s key v).
Proof.
  intros Hk. unfold annotateNodeState, AnnotateObject. steady.
  apply (steady_perform hw protocol extends (PatchNodeState _ _)); [|exact (λ h, history_extends h _)].
  intros h. unfold protocol. rewrite GetAnnotations_Set, lookup_insert_ne by done. done.
Qed.

Lemma wp_DrainNode s node anno single d (h : w_state hw) :
  let full := String.eqb anno RebootRequired in
  (full && single = true → ∃ n1, said (ListNodes None) (inr [n1]) ∈ h) →
  wp hw protocol (DrainNode (onDrainError s) node full single d)
    (λ r h', extends h h' ∧ (r.2 = inr true → drained h' node anno)) h.
Proof using Type.
  intros full Hsingle. unfold DrainNode. apply wp_perform; [done|]. intros x h1 ->.
  pose proof (extends_snoc h (said (BeforeDrainNode node) x)) as E1.
  destruct x as [err|[]]; [| |by cbn].
  { eapply (wp_steady_bind hw protocol extends); [apply orderly_onDrainError|]. intros d' h' E. cbn.
    split; [by transitivity (h ++ [said (BeforeDrainNode node) (inl err)])|done]. }
  destruct (full && single) eqn:Hfs.
  { cbn. split; [done|]. intros _. apply andb_true_iff in Hfs as [Hfull%String.eqb_eq _].
    destruct (Hsingle eq_refl) as [n1 H1]. split; [set_solver|]. right. split; [done|]. exists n1. set_solver. }
  apply wp_perform; [done|]. intros x h2 ->.
  set (h1 := h ++ [said (BeforeDrainNode node) (inr true)]) in *.
  set (h2 := h1 ++ [said (RunCordonOrUncordon node true) x]).
  assert (E2 : extends h h2) by (transitivity h1; [done|apply extends_snoc]).
  destruct x as [err|].
  { eapply (wp_steady_bind hw protocol extends); [apply orderly_onDrainError|]. intros d' h' E. cbn.
    split; [by transitivity h2|done]. }
  apply wp_perform; [done|]. intros [lines err] h3 ->.
  set (e3 := said (RunNodeDrain (GetName node) full) (lines, err)).
  eapply (wp_steady_bind hw protocol extends); [apply orderly_errOut|]. intros d' h' E.
  assert (E3 : extends h h').
  { transitivity h2; [done|]. transitivity (h2 ++ [e3]); [apply extends_snoc|done]. }
  destruct err; cbn; (split; [done|]); [done|]. intros _. split; [apply E; set_solver|].
  left. split; [apply E; set_solver|]. exists lines. apply E. set_solver.
Qed.

Lemma wp_CompleteDrainNode node (h : w_state hw) :
  wp hw protocol (CompleteDrainNode node)
    (λ r h', extends h h' ∧ (r = inr true → undrained h' node)) h.
Proof using Type.
  unfold CompleteDrainNode. apply wp_perform; [done|]. intros x h1 ->.
  destruct x as [e|]; [cbn; split; [apply extends_snoc|done]|].
  split; [done|]. intros x h2 ->. cbn. split.
  - etransitivity; apply extends_snoc.
  - intros ->. split; set_solver.
Qed.

Lemma wp_checkSingleNode full (h : w_state hw) :
  wp hw protocol (checkSingleNode full)
    (λ r h', extends h h' ∧ (r = inr true → ∃ n1, said (ListNodes None) (inr [n1]) ∈ h')) h.
Proof.
  unfold checkSingleNode. destruct full; [|done]. apply wp_perform; [done|]. intros x h1 ->.
  destruct x as [e|nodes]; cbn; (split; [apply extends_snoc|]); [done|].
  intros [= Hl]. apply bool_decide_eq_true in Hl. destruct nodes as [|n1 [|]]; try done.
  exists n1. set_solver.
Qed.

(** ** The handlers *)

Lemma wp_drainAndComplete node s anno single (h : w_state hw) :
  let full := String.eqb anno RebootRequired in
  subject h node anno → asks anno → state_fetched h s →
  (full && single = true → ∃ n1, said (ListNodes None) (inr [n1]) ∈ h) →
  wp hw protocol (drainAndComplete node s full single) (λ _ _, True) h.
Proof using Type.
  intros full Hn Ha Hs Hsingle. unfold drainAndComplete. apply wp_bind.
  eapply wp_post; [by apply (wp_DrainNode s node anno)|]. intros [d r] h1 [E1 Hd]. cbn in Hd.
  destruct r as [err|[]].
  - apply wp_orderly. steady.
  - apply wp_try. eapply wp_post; [apply orderly_updateDrainConditions|].
    intros [e|[]] h2 E; [done|]. cbn in E. assert (E2 : extends h h2) by (by transitivity h1).
    apply wp_bind. eapply wp_post.
    + apply wp_annotate; [|done]. intros Hne.
      apply (as_complete _ _ node anno); [by eapply subject_extends|done|by apply E2| |done].
      eapply drained_extends; [exact E|]. by apply Hd.
    + intros [s' [e|]] h3 _; [done|].
      apply wp_orderly. steady.
  - apply wp_orderly. steady.
Qed.

Lemma wp_handleIdle node s (h : w_state hw) :
  subject h node DrainIdle → state_fetched h s → isDraining s = true →
  wp hw protocol (handleNodeIdleNodeStateDrainingOrCompleted node s) (λ _ _, True) h.
Proof using Type.
  intros Hn Hf Hs. unfold handleNodeIdleNodeStateDrainingOrCompleted. apply wp_bind.
  eapply wp_post; [apply wp_CompleteDrainNode|]. intros r h1 [E1 Hu].
  destruct r as [err|[]].
  - apply wp_orderly. steady.
  - apply wp_bind. eapply wp_post.
    + apply wp_annotate; [|done]. intros _.
      apply (as_idle _ _ node); [by eapply subject_extends|by apply E1|by apply Hu|done].
    + intros [s' [e|]] h2 _; [done|].
      apply wp_orderly. steady.
  - apply wp_orderly. steady.
Qed.

Lemma wp_tryDrainNode_mutex valid node anno (h : w_state hw) :
  subject h node anno → asks anno →
  wp hw protocol (tryDrainNode valid node) (λ _ h', extends h h') h.
Proof using Type.
  intros Hn Ha. unfold tryDrainNode. apply wp_perform; [done|]. intros [] h1 ->.
  set (h1 := h ++ [said Lock tt]). assert (HL : said Lock tt ∈ h1) by set_solver.
  assert (E1 : extends h h1) by apply extends_snoc. apply wp_bind.
  apply (wp_post hw _ _ (λ _ h', extends h1 h')).
  2:{ intros r h2 E. split; [done|]. intros [] h3 ->. cbn. transitivity h1; [done|].
      transitivity h2; [done|apply extends_snoc]. }
  unfold tryDrainNode_locked. apply wp_try.
  eapply wp_post; [apply orderly_findNodePoolConfig|].
  intros [e|[npc nodes]] h2 E2; [done|]. destruct (MaxUnavailable _ _); [|done..].
  apply wp_try. eapply wp_post; [by apply wp_countDraining_name|].
  intros [e|[c o]] h3 [E3 Hname]; [cbn; by transitivity h2|].
  assert (E13 : extends h1 h3) by (by transitivity h2).
  destruct o as [snns|]; [|done]. destruct (isDraining snns) eqn:Hd; [done|].
  destruct (negb _ && _).
  - eapply (wp_post hw _ _ (λ _ h', extends h3 h')); [|intros; by transitivity h3].
    apply (steady_try hw protocol extends); [steady|intros; steady].
  - apply wp_bind. eapply wp_post.
    + apply wp_annotate; [|done]. intros _.
      apply (as_start _ _ node anno); [|done|by apply E13|by eapply Hname|done].
      by apply (subject_extends h); [transitivity h1|].
    + intros [s' [e|]] h4 E4; [cbn; by transitivity h3|]. cbn in E4.
      eapply (wp_post hw _ _ (λ _ h', extends h4 h')).
      * apply (steady_try hw protocol extends); [steady|intros; steady].
      * intros _ h5 E5. transitivity h3; [done|]. by transitivity h4.
Qed.

Lemma wp_handleNodeDrain valid node s anno current (h : w_state hw) :
  subject h node anno → asks anno → state_fetched h s → current_state s = Some current →
  wp hw protocol (handleNodeDrainOrReboot valid node s anno current) (λ _ _, True) h.
Proof using Type.
  intros Hn Ha Hs Hc. unfold handleNodeDrainOrReboot.
  destruct (String.eqb_spec current DrainComplete) as [|Hne]; [done|].
  apply wp_try. eapply (wp_post hw _ _ (λ _ h', extends h h')).
  { destruct (String.eqb current DrainIdle); [by eapply wp_tryDrainNode_mutex|by cbn; intros ? ?]. }
  intros [e|[r|]] h1 E1; [done..|]. apply (subject_extends _ _ _ _ E1) in Hn. apply E1 in Hs.
  destruct (drainAlreadyCompleted s current) eqn:Hr.
  - apply already_recorded in Hr as [-> Hr].
    apply wp_bind. eapply wp_post; [apply wp_annotate; [|done]|].
    + intros _. by apply (as_recover _ _ node anno).
    + by intros [s' [e|]] h2 _.
  - apply wp_try. eapply wp_post; [apply wp_checkSingleNode|].
    intros [e|single] h2 [E2 Hsi]; [done|]. apply wp_drainAndComplete; [by eapply subject_extends|done|by apply E2|].
    intros [_ ->]%andb_true_iff. by apply Hsi.
Qed.

Lemma wp_ensureState s key (h : w_state hw) :
  (key = NodeStateDrainAnnotationCurrent → state_fetched h s) →
  wp hw protocol (ensureAnnotationExists annotateNodeState s key)
    (λ r h', extends h h' ∧ ∀ s' v e, r = inr (s', v, e) → e = true →
       s' = s ∧ GetAnnotations s !! key = Some v) h.
Proof using Type.
  intros Hf. unfold ensureAnnotationExists. destruct (GetAnnotations s !! key) as [v|] eqn:E.
  { split; [by intros ? ?|]. intros s' v' e [= <- <- <-] _. done. }
  apply wp_bind. eapply (wp_post hw _ _ (λ _ h', extends h h')).
  - destruct (decide (key = NodeStateDrainAnnotationCurrent)) as [->|Hk].
    + apply wp_annotate; [|done]. intros _. by apply as_init; [apply Hf|].
    + by apply orderly_annotateNodeState.
  - intros [s' [e|]] h' E'; [done|]. split; [done|]. by intros s'' v e [= <- <- <-].
Qed.

Lemma wp_Reconcile_protocol valid : wp hw protocol (Reconcile valid name) (λ _ _, True) [].
Proof using Type.
  unfold Reconcile, getObject. apply wp_try, wp_perform; [done|]. intros x h1 ->.
  destruct x as [e|node]; [by destruct (IsNotFound e)|].
  apply wp_ret, wp_try, wp_perform; [done|]. intros x h2 ->.
  destruct x as [e|s]; [by destruct (IsNotFound e)|]. apply wp_ret.
  destruct (ObjectHasAnnotation s _ _); [done|]. set (h2 := (_ ++ _) ++ _).
  assert (Hn : said (GetNode name) (inr node) ∈ h2) by set_solver.
  assert (Hs : state_fetched h2 s) by (unfold state_fetched; set_solver). clearbody h2.
  apply wp_try. eapply wp_post; [by apply wp_ensureState|].
  intros [e|[[s1 c] e1]] h3 [E3 H1]; [done|]. specialize (H1 _ _ _ eq_refl).
  apply wp_try. eapply wp_post; [by apply wp_ensureState|].
  intros [e|[[s2 d] e2]] h4 [E4 H2]; [done|]. specialize (H2 _ _ _ eq_refl).
  apply wp_try. eapply (wp_post hw _ _ (λ r h', extends h4 h' ∧ ∀ n a e, r = inr (n, a, e) → e = true →
    n = node ∧ GetAnnotations node !! NodeDrainAnnotation = Some a)).
  { unfold ensureAnnotationExists. destruct (GetAnnotations node !! _) as [a|].
    { apply wp_ret. split; [by intros ? ?|]. by intros n a' e [= <- <- <-]. }
    eapply (wp_steady_bind hw protocol extends); [apply orderly_annotateNode|].
    intros [n [e|]] h5 E5; apply wp_ret; (split; [done|]); [done|]. by intros n' a e [= <- <- <-]. }
  intros [e|[[node' a] e3]] h5 [E5 H3]; [done|]. specialize (H3 _ _ _ eq_refl).
  destruct (negb (e3 && e1 && e2)) eqn:Ex; [apply wp_orderly; steady|].
  apply negb_false_iff, andb_true_iff in Ex as [[-> ->]%andb_true_iff ->].
  destruct (H1 eq_refl) as [-> Hc]. destruct (H2 eq_refl) as [-> _]. destruct (H3 eq_refl) as [-> Ha].
  assert (Hsub : subject h5 node a) by (split; [by apply E5, E4, E3|done]).
  assert (Hf : state_fetched h5 s) by (by apply E5, E4, E3).
  destruct (_ && String.eqb c DrainIdle); [apply wp_orderly; steady|].
  destruct (String.eqb a DrainIdle && (String.eqb c DrainComplete || String.eqb c Draining)) eqn:Ei.
  { apply andb_true_iff in Ei as [->%String.eqb_eq Ei]. apply wp_handleIdle; [done..|].
    unfold isDraining, ObjectHasAnnotation. rewrite Hc. rewrite orb_comm. exact Ei. }
  destruct (String.eqb a DrainRequired || String.eqb a RebootRequired) eqn:Hask; [|done].
  apply wp_handleNodeDrain; [done| |done..].
  apply orb_true_iff in Hask as [?%String.eqb_eq|?%String.eqb_eq]; [by left|by right].
Qed.
End protocol.

(** C9: The drain protocol: in every run of [Reconcile], with every possible
    answer of the API server, the orchestrator and kubectl, a patch changes
    the current-state annotation only along [annotation_step]: it is created
    as Idle; it becomes Draining from a non-draining value, for a node that asks
    for a drain or a reboot, after the mutex was taken; DrainComplete only once
    that same node was cordoned and drained, fully if it asks for a reboot (or
    is the cluster's only node), or when the Draining condition already records
    a completed drain; and goes back to Idle, from Draining or DrainComplete,
    only if the node says Idle, was uncordoned, and the orchestrator has finished
    with it. *)
Theorem Reconcile_follows_protocol (valid : LabelSelector → bool) (name : string)
    (tr : list (history * DrainReq)) (res : DrainError + Result) (h' : history)
    (Hexec : exec hw (Reconcile valid name) [] tr res h') :
  ∀ h original obj, (h, PatchNodeState original obj) ∈ tr →
    current_state obj ≠ current_state original →
    ∃ v, current_state obj = Some v ∧ annotation_step name h original v.
Proof.
  intros h original obj Hin Hne.
  destruct (wp_exec hw _ _ _ _ _ _ _ (wp_Reconcile_protocol name valid) Hexec) as [_ Htr].
  rewrite Forall_forall in Htr. exact (Htr _ Hin Hne).
Qed.

(** The answers of a fixed cluster, put on record. *)
Definition recorded (h : history) (r : DrainReq) : DrainResp r * history :=
  let x := (cluster_handle sample_cluster r).1 in (x, h ++ [said r x]).

Lemma Reconcile_follows_protocol_witness :
  ∃ h original obj,
    (h, PatchNodeState original obj) ∈ trace recorded (Reconcile (λ _, true) "n1") [] ∧
    ∃ v, current_state obj = Some v ∧ annotation_step "n1" h original v.
Proof.
  set (s := SetAnnotations {[ NodeStateDrainAnnotationCurrent := Draining;
               NodeStateDrainAnnotation := DrainRequired ]} (sample_nodestate DrainIdle)).
  assert (H : ((λ hr, (length hr.1, hr.2)) <$> trace recorded (Reconcile (λ _, true) "n1") []) !! 6%nat =
    Some (6%nat, PatchNodeState (sample_nodestate DrainIdle) s)) by (vm_compute; reflexivity).
  rewrite list_lookup_fmap in H. destruct (trace _ _ _ !! 6%nat) as [[h r]|] eqn:E; [|discriminate H].
  injection H as _ ->. apply list_elem_of_lookup_2 in E.
  exists h, (sample_nodestate DrainIdle), s. split; [exact E|].
  eapply (Reconcile_follows_protocol (λ _, true) "n1" _ _ _
    (run_exec hw recorded (λ _, True) _ [] ltac:(intros; split; [reflexivity|exact I]) I) h).
  - exact E.
  - vm_compute. discriminate.
Defined.

(** ** The messages of a failing drain *)

Definition recordDrainErrors (msgs : list string) : DrainErrors :=
  foldl (λ d m, default d (recordDrainError d m)) (mkDrainErrors ∅ []) msgs.

(** The variables [onDrainError] keeps: the set of messages seen is the set of
    the messages listed, without repetition, and at most ten. *)
Definition errors_wf (d : DrainErrors) : Prop :=
  seenDrainErrors d = list_to_set (drainErrors d) ∧ NoDup (drainErrors d) ∧
  (length (drainErrors d) ≤ maxDrainErrorMessages)%nat.

Lemma recordDrainError_wf d msg :
  errors_wf d →
  match recordDrainError d msg with
  | None => msg ∈ drainErrors d
  | Some d' => errors_wf d' ∧ msg ∉ drainErrors d ∧
      drainErrors d' = drop (length (drainErrors d) - 9) (drainErrors d) ++ [msg]
  end.
Proof.
  intros (Hseen & Hnd & Hlen). unfold recordDrainError. rewrite Hseen.
  case_bool_decide as Hin; [by apply elem_of_list_to_set in Hin|].
  rewrite elem_of_list_to_set in Hin. unfold maxDrainErrorMessages in *.
  rewrite length_app. cbn [length]. case_bool_decide as Hl.
  - destruct (drainErrors d) as [|e0 rest] eqn:E; [cbn in Hl; lia|]. cbn [app length] in *.
    apply NoDup_cons in Hnd as [He0 Hnd]. apply not_elem_of_cons in Hin as [Hne Hin].
    replace (S (length rest) - 9)%nat with 1%nat by lia. cbn [drop]. split; [|split; [set_solver|done]].
    split_and!; cbn [seenDrainErrors drainErrors].
    + rewrite list_to_set_app_L. set_solver.
    + apply NoDup_app. split_and!; [done|set_solver|apply NoDup_singleton].
    + unfold maxDrainErrorMessages. rewrite length_app. cbn. lia.
  - replace (length (drainErrors d) - 9)%nat with 0%nat by lia. split; [|done].
    split_and!; cbn [seenDrainErrors drainErrors].
    + rewrite list_to_set_app_L. set_solver.
    + apply NoDup_app. split_and!; [done|set_solver|apply NoDup_singleton].
    + unfold maxDrainErrorMessages. rewrite length_app. cbn. lia.
Qed.

(** However many messages a drain reports, the Draining condition names at
    most ten, without repetition and the newest of them last; and when they
    are all different these are exactly the last ten. *)
Theorem drainErrors_bounded (msgs : list string) :
  let errs := drainErrors (recordDrainErrors msgs) in
  (length errs ≤ 10)%nat ∧ NoDup errs ∧ (∀ m, m ∈ errs → m ∈ msgs) ∧
  (∀ m, last msgs = Some m → m ∈ errs) ∧
  (NoDup msgs → errs = drop (length msgs - 10) msgs).
Proof.
  cbn zeta. assert (H : errors_wf (recordDrainErrors msgs) ∧
    (∀ m, m ∈ drainErrors (recordDrainErrors msgs) → m ∈ msgs) ∧
    (∀ m, last msgs = Some m → m ∈ drainErrors (recordDrainErrors msgs)) ∧
    (NoDup msgs → drainErrors (recordDrainErrors msgs) = drop (length msgs - 10) msgs)).
  2:{ destruct H as ((_ & H1 & H2) & H3 & H4 & H5). done. }
  unfold recordDrainErrors. induction msgs as [|m msgs (IHw & IHin & _ & IHnd)] using rev_ind.
  { split_and!; [repeat split; [by constructor|cbn; lia]|set_solver|done|done]. }
  rewrite foldl_snoc. set (d := foldl _ _ msgs) in *.
  pose proof (recordDrainError_wf d m IHw) as Hr. rewrite last_snoc, length_app. cbn [length].
  destruct (recordDrainError d m) as [d'|]; cbn [from_option id].
  - destruct Hr as (Hw & Hm & He). split_and!; [done| | |].
    + intros k. rewrite He, elem_of_app, list_elem_of_singleton.
      intros [Hk%subseteq_drop| ->]; set_solver.
    + intros k [= <-]. rewrite He. set_solver.
    + intros (Hnd & _ & _)%NoDup_app. rewrite He, IHnd by done.
      rewrite length_drop, drop_drop, drop_app_le by lia. f_equal. f_equal. lia.
  - split_and!; [done|set_solver|by intros k [= <-]|].
    intros (_ & Hd & _)%NoDup_app. exfalso. apply (Hd m); [by apply IHin|set_solver].
Qed.
