(* ===== verification/RebootTracker.v ===== *)
(** * The reboot tracker (pkg/host/internal/reboottracker)

    A small file on the host that counts the reboots made for one generation of
    the node state.  It is replaced by writing a temporary file and renaming
    it. *)
From S2P Require Import Prelude GoLib Effects.

Record RebootTrackerFile := mkTracker { rt_Generation : Z; rt_RebootCount : Z }.

#[export] Instance RebootTrackerFile_eq_dec : EqDecision RebootTrackerFile.
Proof. solve_decision. Defined.

(** ** The file system calls *)

Inductive FsReq :=
| ReadFile                      (* os.ReadFile(path) *)
| MkdirAll                      (* os.MkdirAll(dir, 0o755) *)
| WriteTmp (content : string)   (* os.WriteFile(path + ".tmp", ...) *)
| RenameTmp.                    (* os.Rename(tmp, path) *)

(** [ReadFile]: the error, or [None] for a file that does not exist. *)
Definition FsResp (r : FsReq) : Type :=
  match r with
  | ReadFile => string + option string
  | MkdirAll | WriteTmp _ | RenameTmp => option string
  end%type.

Section tracker.
(** yaml.v3 on the struct. *)
Context (Marshal : RebootTrackerFile → string) (Unmarshal : string → string + RebootTrackerFile).

Definition readTrackerFile : prog FsResp (string + option RebootTrackerFile) :=
  r ← perform ReadFile;
  match r with
  | inl e => Ret (inl e)
  | inr None => Ret (inr None)
  | inr (Some rawData) =>
      match Unmarshal rawData with
      | inl e => Ret (inl e)
      | inr tracker => Ret (inr (Some tracker))
      end
  end.

Definition writeTrackerFile (tracker : RebootTrackerFile) : prog FsResp (option string) :=
  e ← perform MkdirAll;
  match e with
  | Some e => Ret (Some e)
  | None =>
      e ← perform (WriteTmp (Marshal tracker));
      match e with
      | Some e => Ret (Some e)
      | None => perform RenameTmp
      end
  end.

(** [tracker == nil || tracker.Generation != generation] *)
Definition trackerFor (generation : Z) (tracker : option RebootTrackerFile) : option RebootTrackerFile :=
  match tracker with
  | Some t => if rt_Generation t =? generation then Some t else None
  | None => None
  end.

Definition GetRebootCount (generation : Z) : prog FsResp (string + Z) :=
  tracker ⇐ readTrackerFile;
  match trackerFor generation tracker with
  | None => Ret (inr 0)
  | Some t => Ret (inr (rt_RebootCount t))
  end.

Definition IncrementRebootCounter (generation : Z) : prog FsResp (option string) :=
  r ← readTrackerFile;
  match r with
  | inl e => Ret (Some e)
  | inr tracker =>
      let t := default (mkTracker generation 0) (trackerFor generation tracker) in
      writeTrackerFile (mkTracker (rt_Generation t) (wrap64 (rt_RebootCount t + 1)))
  end.

Definition ResetRebootCounter (generation : Z) : prog FsResp (option string) :=
  writeTrackerFile (mkTracker generation 0).
End tracker.

(** ** The files *)

Record Fs := mkFs { fs_main : option string; fs_tmp : option string }.

(** Every call may fail; a failed write leaves anything in the temporary file;
    a rename replaces the file at once. *)
Definition fs_step (s : Fs) (r : FsReq) : FsResp r → Fs → Prop :=
  match r with
  | ReadFile => λ x s', s' = s ∧ match x with inl _ => True | inr o => o = fs_main s end
  | MkdirAll => λ x s', s' = s
  | WriteTmp c => λ x s', fs_main s' = fs_main s ∧
      match x with None => fs_tmp s' = Some c | Some _ => True end
  | RenameTmp => λ x s',
      match x with
      | None => s' = mkFs (fs_tmp s) None ∧ is_Some (fs_tmp s)
      | Some _ => s' = s
      end
  end.

Definition fs_world : World FsResp := {| w_state := Fs; w_step := fs_step |}.

(** ** Specification: the count of a generation *)

Definition tracker_count (generation : Z) (t : option RebootTrackerFile) : Z :=
  match trackerFor generation t with Some t => rt_RebootCount t | None => 0 end.

Definition tracker_incr (generation : Z) (t : option RebootTrackerFile) : option RebootTrackerFile :=
  Some (mkTracker generation (wrap64 (tracker_count generation t + 1))).

Definition tracker_reset (generation : Z) : option RebootTrackerFile := Some (mkTracker generation 0).

Section refinement.
Context (Marshal : RebootTrackerFile → string) (Unmarshal : string → string + RebootTrackerFile).
Context (Hyaml : ∀ t, Unmarshal (Marshal t) = inr t).

(** The files hold the tracker [t]. *)
Definition holds (t : option RebootTrackerFile) (s : Fs) : Prop := fs_main s = Marshal <$> t.

(** While [t] is being replaced by [t'], every request meets one of them. *)
Definition old_or_new (t t' : option RebootTrackerFile) (s : Fs) (_ : FsReq) : Prop :=
  holds t s ∨ holds t' s.

Lemma wp_read t G s :
  (∀ s r, holds t s → G s r) → holds t s →
  wp fs_world G (readTrackerFile Unmarshal)
    (λ r s', holds t s' ∧ match r with inl _ => True | inr o => o = t end) s.
Proof using Hyaml.
  intros HG Ht. apply wp_perform; [by apply HG|]. intros [e|o] s' [-> Ho]; [done|].
  subst o. rewrite Ht. destruct t as [t|]; cbn; [by rewrite Hyaml|done].
Qed.

Lemma wp_write t t' s :
  holds t s →
  wp fs_world (old_or_new t (Some t')) (writeTrackerFile Marshal t')
    (λ r s', match r with None => holds (Some t') s' | Some _ => holds t s' end) s.
Proof.
  intros Ht. apply wp_perform; [by left|]. intros [e|] s1 ->; [done|].
  apply wp_perform; [by left|]. intros [e|] s2 [Hm Htmp]; [cbn; unfold holds in *; congruence|].
  split; [left; unfold holds in *; congruence|]. intros [e|] s3 H3.
  - cbn in H3. subst. cbn. unfold holds in *. congruence.
  - destruct H3 as [-> _]. unfold holds. cbn. by rewrite Htmp.
Qed.

Lemma trackerFor_default g t :
  default (mkTracker g 0) (trackerFor g t) = mkTracker g (tracker_count g t).
Proof.
  unfold tracker_count, trackerFor. destruct t as [[g' c]|]; [|done]. cbn.
  destruct (Z.eqb_spec g' g) as [->|]; done.
Qed.

Lemma wp_increment g t s :
  holds t s →
  wp fs_world (old_or_new t (tracker_incr g t)) (IncrementRebootCounter Marshal Unmarshal g)
    (λ r s', match r with None => holds (tracker_incr g t) s' | Some _ => holds t s' end) s.
Proof using Hyaml.
  intros Ht. apply wp_bind. eapply wp_post.
  - apply (wp_read t); [|done]. intros s' r H. by left.
  - intros [e|o] s1 [Ht1 Ho]; [done|]. subst o. rewrite trackerFor_default. by apply wp_write.
Qed.
End refinement.

(** C35: The tracker file is a faithful and crash-safe counter, if YAML decodes
    what it encoded: from a file with the tracker [t] (or none),
    [IncrementRebootCounter] ends with the count of the generation one higher
    when it reports success and with the old file when it reports an error,
    whichever file operation fails; and at every step in between the file on
    disk is the old or the new one, never a partial write. *)
Theorem IncrementRebootCounter_refines (Marshal : RebootTrackerFile → string)
    (Unmarshal : string → string + RebootTrackerFile)
    (g : Z) (t : option RebootTrackerFile) (s s' : Fs) (tr : list (Fs * FsReq)) (r : option string)
    (Hyaml : ∀ t, Unmarshal (Marshal t) = inr t) (Hs : holds Marshal t s)
    (Hexec : exec fs_world (IncrementRebootCounter Marshal Unmarshal g) s tr r s') :
  holds Marshal (match r with None => tracker_incr g t | Some _ => t end) s' ∧
  Forall (λ sr, holds Marshal t sr.1 ∨ holds Marshal (tracker_incr g t) sr.1) tr.
Proof.
  destruct (wp_exec fs_world _ _ _ _ _ _ _ (wp_increment Marshal Unmarshal Hyaml g t s Hs) Hexec)
    as [HQ HG]. split; [by destruct r|exact HG].
Qed.

(** A codec for the witness: the pair's binary code. *)
Fixpoint bits_of (p : positive) : string :=
  match p with xH => "" | xO p => String "0" (bits_of p) | xI p => String "1" (bits_of p) end.

Fixpoint of_bits (s : string) : positive :=
  match s with
  | EmptyString => xH
  | String a r => if Ascii.eqb a "0" then xO (of_bits r) else xI (of_bits r)
  end.

Lemma of_bits_of p : of_bits (bits_of p) = p.
Proof. induction p; cbn; congruence. Qed.

Definition sample_marshal (t : RebootTrackerFile) : string :=
  bits_of (encode (rt_Generation t, rt_RebootCount t)).

Definition sample_unmarshal (s : string) : string + RebootTrackerFile :=
  match decode (A := Z * Z) (of_bits s) with
  | Some (g, c) => inr (mkTracker g c)
  | None => inl "yaml"
  end.

Lemma sample_yaml t : sample_unmarshal (sample_marshal t) = inr t.
Proof. unfold sample_unmarshal, sample_marshal. rewrite of_bits_of, decode_encode. by destruct t. Qed.

(** Every file operation succeeds. *)
Definition fs_handle (s : Fs) (r : FsReq) : FsResp r * Fs :=
  match r with
  | ReadFile => (inr (fs_main s), s)
  | MkdirAll => (None, s)
  | WriteTmp c => (None, mkFs (fs_main s) (Some c))
  | RenameTmp => match fs_tmp s with
                 | Some _ => (None, mkFs (fs_tmp s) None)
                 | None => (Some "no such file", s)
                 end
  end.

Lemma fs_handle_ok s r : True → w_step fs_world s r (fs_handle s r).1 (fs_handle s r).2 ∧ True.
Proof.
  intros _. split; [|done]. destruct r; cbn; try done. by destruct (fs_tmp s) eqn:E; cbn.
Qed.

Lemma IncrementRebootCounter_refines_witness :
  holds sample_marshal (Some (mkTracker 7 1))
    (run fs_handle (IncrementRebootCounter sample_marshal sample_unmarshal 7) (mkFs None None)).2.
Proof.
  destruct (IncrementRebootCounter_refines sample_marshal sample_unmarshal 7 None (mkFs None None)
    _ _ _ sample_yaml eq_refl
    (run_exec fs_world fs_handle (λ _, True) _ (mkFs None None) fs_handle_ok I)) as [H _].
  exact H.
Defined.

Lemma tracker_count_incr g g' t :
  0 ≤ tracker_count g t < max_int64 →
  tracker_count g' (tracker_incr g t) = if g' =? g then tracker_count g t + 1 else 0.
Proof.
  intros Ht. unfold tracker_incr. rewrite wrap64_small.
  - unfold tracker_count at 1. unfold trackerFor. cbn. rewrite (Z.eqb_sym g g').
    by destruct (g' =? g).
  - unfold in_int64, min_int64, max_int64 in *. lia.
Qed.

Lemma wp_get Marshal Unmarshal (Hyaml : ∀ t, Unmarshal (Marshal t) = inr t) g t s :
  holds Marshal t s →
  wp fs_world (λ _ _, True) (GetRebootCount Unmarshal g)
    (λ r s', holds Marshal t s' ∧ match r with inl _ => True | inr c => c = tracker_count g t end) s.
Proof.
  intros Hs. apply wp_try. eapply wp_post; [by apply (wp_read Marshal Unmarshal Hyaml t)|].
  intros [e|o] s' [Hs' Ho]; [done|]. subst o. unfold tracker_count. by destruct (trackerFor g t).
Qed.

(** Reading back: after a successful increment for generation [g],
    [GetRebootCount] of [g] answers one more than before and of any other
    generation zero -- the count restarts with every new generation. *)
Theorem RebootCounter_roundtrip (Marshal : RebootTrackerFile → string)
    (Unmarshal : string → string + RebootTrackerFile) (g g' : Z) (t : option RebootTrackerFile)
    (s s' : Fs) (tr : list (Fs * FsReq)) (c : Z)
    (Hyaml : ∀ t, Unmarshal (Marshal t) = inr t) (Hs : holds Marshal t s)
    (Ht : 0 ≤ tracker_count g t < max_int64)
    (Hexec : exec fs_world
       (e ← IncrementRebootCounter Marshal Unmarshal g;
        c ← GetRebootCount Unmarshal g'; Ret (e, c)) s tr (None, inr c) s') :
  c = if g' =? g then tracker_count g t + 1 else 0.
Proof.
  assert (Hwp : wp fs_world (λ _ _, True)
    (e ← IncrementRebootCounter Marshal Unmarshal g; c ← GetRebootCount Unmarshal g'; Ret (e, c))
    (λ r _, ∀ c, r = (None, inr c) → c = if g' =? g then tracker_count g t + 1 else 0) s).
  { apply wp_bind. eapply wp_mono; [| |by apply (wp_increment Marshal Unmarshal Hyaml)]; [done|].
    intros e s1 He. apply wp_bind. destruct e as [e|].
    - eapply wp_post; [by apply (wp_get Marshal Unmarshal Hyaml g' t)|]. by intros r s2 _ c' [=].
    - eapply wp_post; [by apply (wp_get Marshal Unmarshal Hyaml g' (tracker_incr g t))|].
      intros r s2 [_ Hr] c' [= ->]. by rewrite Hr, tracker_count_incr. }
  destruct (wp_exec fs_world _ _ _ _ _ _ _ Hwp Hexec) as [H _]. by apply H.
Qed.

Lemma RebootCounter_roundtrip_witness : 1 = if 3 =? 3 then tracker_count 3 (Some (mkTracker 2 4)) + 1 else 0.
Proof.
  pose (p := e ← IncrementRebootCounter sample_marshal sample_unmarshal 3;
             c ← GetRebootCount sample_unmarshal 3; Ret (e, c)).
  pose (s := mkFs (Some (sample_marshal (mkTracker 2 4))) None).
  refine (RebootCounter_roundtrip sample_marshal sample_unmarshal 3 3 (Some (mkTracker 2 4))
    s (run fs_handle p s).2 (trace fs_handle p s) 1 sample_yaml eq_refl _ _).
  - vm_compute. split; congruence.
  - exact (run_exec fs_world fs_handle (λ _, True) p s fs_handle_ok I).
Defined.
