(* ===== verification/Daemon.v ===== *)
(** * The configuration daemon (pkg/daemon/daemon.go, status.go, plugin.go)

    The reconciler that runs on every node: it watches the node's
    SriovNetworkNodeState, asks the vendor plugins what a change needs, has the
    node drained, applies the plugins and reports the state.  The plugins, the
    host and the API server are requests; the package variables that configure
    the daemon are the record [Vars], fixed during one reconciliation. *)
From S2P Require Import Prelude GoLib Types Conditions Effects Kube.

(** ** The calls the daemon makes *)

Record Pod := mkPod { pod_meta : ObjectMeta; pod_UID : string }.

#[export] Program Instance Pod_object : KubeObject Pod :=
  {| obj_meta := pod_meta; obj_set_meta := λ m p, mkPod m (pod_UID p) |}.
Next Obligation. done. Qed.
Next Obligation. by intros []. Qed.
Next Obligation. done. Qed.

(** The status fields of [updateSyncState]'s payload; no bridges when there is
    none. *)
Record StatusFields := mkStatusFields {
  sf_syncStatus : string;
  sf_lastSyncError : string;
  sf_interfaces : list InterfaceExt;
  sf_system : System;
  sf_bridges : option Bridges;
}.

Inductive DaemonReq :=
| GetNodeState (name : string)
| GetNode (name : string)
| PatchNode (original obj : Node)
| PatchNodeState (original obj : SriovNetworkNodeState)
| StatusApply (obj : ObjectMeta) (fields : StatusFields) (conditions : list Condition)
| Eventf (obj : ObjectMeta) (type reason message : string)
| SendEvent (reason message : string)
| TimeNow
| ListPods
| DeletePod (pod : Pod)
| GetPod (name : string)
| PatchPod (original obj : Pod)
| DiscoverSriovDevices
| DiscoverBridges
| DiscoverRDMASubsystem
| IsServiceEnabled (path : string)
| ReadSriovResult
| WriteConfFile (s : SriovNetworkNodeState)
| RemoveSriovResult
| WriteSriovSupportedNics
| ClearPCIAddressFolder
| OnNodeStateChange (plugin : string) (s : SriovNetworkNodeState)
| CheckStatusChanges (plugin : string) (s : SriovNetworkNodeState)
| PluginApply (plugin : string)
| GetRebootCount (generation : Z)
| IncrementRebootCounter (generation : Z)
| ResetRebootCounter (generation : Z)
| Chroot
| ExitChroot
| RunReboot.

Definition DaemonResp (r : DaemonReq) : Type :=
  match r with
  | GetNodeState _ | PatchNodeState _ _ => KubeError + SriovNetworkNodeState
  | GetNode _ | PatchNode _ _ => KubeError + Node
  | StatusApply _ _ _ => option KubeError
  | Eventf _ _ _ _ | SendEvent _ _ => unit
  | TimeNow => Z
  | ListPods => KubeError + list Pod
  | DeletePod _ => option KubeError
  | GetPod _ | PatchPod _ _ => KubeError + Pod
  | DiscoverSriovDevices => string + list InterfaceExt
  | DiscoverBridges => string + Bridges
  | DiscoverRDMASubsystem => string + string
  | IsServiceEnabled _ => string + bool
  | ReadSriovResult => string + option SriovResult
  | WriteConfFile _ => string + bool
  | RemoveSriovResult | WriteSriovSupportedNics | ClearPCIAddressFolder => option string
  | OnNodeStateChange _ _ => string + (bool * bool)  (* drain, reboot *)
  | CheckStatusChanges _ _ => string + bool
  | PluginApply _ => option string
  | GetRebootCount _ => string + Z
  | IncrementRebootCounter _ | ResetRebootCounter _ => option string
  | Chroot | RunReboot => option string
  | ExitChroot => unit
  end%type.

Abbreviation daemonM := (prog DaemonResp).

Inductive DaemonError :=
| NKube (e : KubeError)
| NHost (e : string)
| NPodTimeout (name uid : string).

(** ctrl.Result; [RequeueAfter] in seconds. *)
Record Result := mkResult { RequeueAfter : Z }.
Definition done_ : Result := mkResult 0.
Definition DaemonRequeueTime : Z := 30.

Record Vars := mkVars {
  UsingSystemdMode : bool;
  DisableDrain : bool;
  ManageSoftwareBridges : bool;
  UseExternalDrainer : bool;
  BlockDevicePluginUntilConfigured : bool;
}.

(** The reconciler's own fields. *)
Record NodeReconciler := mkNodeReconciler {
  mainPlugin : string;
  additionalPlugins : list string;
  lastAppliedGeneration : Z;
}.

Definition SriovServicePath := "/etc/systemd/system/sriov-config.service".
Definition SriovPostNetworkServicePath := "/etc/systemd/system/sriov-config-post-network.service".
Definition DevicePluginWaitConfigAnnotation := "sriovnetwork.openshift.io/device-plugin-wait-config".

(** The error of a host call. *)
Definition host {A} (c : daemonM (string + A)) : daemonM (DaemonError + A) :=
  r ← c; Ret (match r with inl e => inl (NHost e) | inr a => inr a end).

Definition hostE (c : daemonM (option string)) : daemonM (DaemonError + unit) :=
  r ← c; Ret (match r with Some e => inl (NHost e) | None => inr tt end).

Definition kube {A} (c : daemonM (KubeError + A)) : daemonM (DaemonError + A) :=
  r ← c; Ret (match r with inl e => inl (NKube e) | inr a => inr a end).

Definition kubeE (c : daemonM (option KubeError)) : daemonM (DaemonError + unit) :=
  r ← c; Ret (match r with Some e => inl (NKube e) | None => inr tt end).

(** ** status.go *)

Definition Unknown := "Unknown".

Definition recordStatusChangeEvent (oldStatus newStatus lastError : string) : daemonM unit :=
  if String.eqb oldStatus newStatus then Ret tt
  else
    let o := if String.eqb oldStatus "" then Unknown else oldStatus in
    let n := if String.eqb newStatus "" then Unknown else newStatus in
    let msg := "Status changed from: " +:+ o +:+ " to: " +:+ n in
    perform (SendEvent "SyncStatusChanged"
      (if String.eqb lastError "" then msg else msg +:+ ". Last Error: " +:+ lastError)).

(** [syncDesiredObjectMeta]. *)
Definition syncDesiredObjectMeta (desired live : SriovNetworkNodeState) : SriovNetworkNodeState :=
  ns_set_meta (ns_meta live) desired.

Definition statusFieldsOf (st : SriovNetworkNodeStateStatus) : StatusFields :=
  {| sf_syncStatus := nst_SyncStatus st; sf_lastSyncError := nst_LastSyncError st;
     sf_interfaces := nst_Interfaces st; sf_system := nst_System st;
     sf_bridges := if bool_decide (br_OVS (nst_Bridges st) = []) then None else Some (nst_Bridges st) |}.

(** The caller's object is changed also when an error is returned, so it is
    part of the result. *)
Definition updateSyncState (desired0 : SriovNetworkNodeState) (syncStatus failedMessage : string)
    (waitingForDrain : bool) : daemonM (SriovNetworkNodeState * option DaemonError) :=
  let desired := ns_set_status (nst_set_sync syncStatus failedMessage (ns_Status desired0)) desired0 in
  r ← perform (GetNodeState (ns_Name desired));
  match r with
  | inl e => Ret (desired, Some (NKube e))
  | inr currentNodeState =>
      let desired1 := syncDesiredObjectMeta desired currentNodeState in
      let statusFieldsChanged :=
        negb (StatusFieldsEqual (ns_Status currentNodeState) (ns_Status desired1)) in
      now ← perform TimeNow;
      let conditionState := SetNodeStateConfigurationConditions now currentNodeState
                              syncStatus failedMessage waitingForDrain in
      let configConditions := configurationOwnedConditions (nst_Conditions (ns_Status conditionState)) in
      let currentOwnedConditions :=
        configurationOwnedConditions (nst_Conditions (ns_Status currentNodeState)) in
      let conditionsChanged := HasTransitions currentOwnedConditions configConditions in
      if negb statusFieldsChanged && negb conditionsChanged then Ret (desired1, None)
      else
        err ← ApplyStatus (resp := DaemonResp) (λ o f cs, perform (StatusApply o f cs))
                (λ o t reason message, perform (Eventf o t reason message)) true
                (ns_meta currentNodeState) (nst_Conditions (ns_Status currentNodeState))
                (statusFieldsOf (ns_Status desired1)) configConditions;
        match err with
        | Some e => Ret (desired1, Some (NKube e))
        | None =>
            recordStatusChangeEvent (nst_SyncStatus (ns_Status currentNodeState)) syncStatus failedMessage
              ≫= λ _,
            r ← perform (GetNodeState (ns_Name desired1));
            match r with
            | inl e => Ret (desired1, Some (NKube e))
            | inr live => Ret (syncDesiredObjectMeta desired1 live, None)
            end
        end
  end.

(** The interfaces pairwise, VFs aside; the lists have the same length. *)
Fixpoint ifacesDiffer (c d : list InterfaceExt) : bool :=
  match c, d with
  | ci :: c', di :: d' =>
      if negb (String.eqb (ie_PciAddress di) (ie_PciAddress ci)) then true
      else if negb (bool_decide (ie_clear_vfs di = ie_clear_vfs ci)) then true
      else ifacesDiffer c' d'
  | _, _ => false
  end.

Definition shouldUpdateStatus (current desired : SriovNetworkNodeState) : bool :=
  let c := ns_Status current in
  let d := ns_Status desired in
  if negb (bool_decide (length (nst_Interfaces c) = length (nst_Interfaces d))) then true
  else if negb (bool_decide (nst_Bridges c = nst_Bridges d)) then true
  else if negb (bool_decide (nst_System c = nst_System d)) then true
  else ifacesDiffer (nst_Interfaces c) (nst_Interfaces d).

Definition nst_set_host (ifaces : list InterfaceExt) (b : Bridges) (rdma : string)
    (st : SriovNetworkNodeStateStatus) : SriovNetworkNodeStateStatus :=
  mkNodeStateStatus ifaces b (mkSystem rdma (sys_OvsConfig (nst_System st)))
    (nst_SyncStatus st) (nst_LastSyncError st) (nst_Conditions st).

Section daemon.
Context (vars : Vars).
(** How many times a poll tries (once a second for two minutes). *)
Context (pollAttempts : nat).

Definition updateStatusFromHost (s : SriovNetworkNodeState)
    : daemonM (DaemonError + SriovNetworkNodeState) :=
  ifaces ⇐ host (perform DiscoverSriovDevices);
  bridges ⇐ (if ManageSoftwareBridges vars then host (perform DiscoverBridges)
             else Ret (inr (mkBridges [])));
  rdma ⇐ host (perform DiscoverRDMASubsystem);
  Ret (inr (ns_set_status (nst_set_host ifaces bridges rdma (ns_Status s)) s)).

(** ** Plugins *)

Fixpoint checkAdditional (plugins : list string) (s : SriovNetworkNodeState)
    (reqReboot reqDrain : bool) : daemonM (DaemonError + (bool * bool)) :=
  match plugins with
  | [] => Ret (inr (reqReboot, reqDrain))
  | p :: rest =>
      '(d, r) ⇐ host (perform (OnNodeStateChange p s));
      checkAdditional rest s (reqReboot || r) (reqDrain || d)
  end.

Definition checkOnNodeStateChange (dn : NodeReconciler) (s : SriovNetworkNodeState)
    : daemonM (DaemonError + (bool * bool)) :=
  '(reqDrain, reqReboot) ⇐ host (perform (OnNodeStateChange (mainPlugin dn) s));
  checkAdditional (additionalPlugins dn) s reqReboot reqDrain.

(** ** systemd mode *)

(** The verb %t. *)
Definition format_bool (b : bool) : string := if b then "true" else "false".

Definition CheckSystemdStatus : daemonM (DaemonError + (option SriovResult * bool)) :=
  if negb (UsingSystemdMode vars) then Ret (inr (None, false))
  else
    serviceEnabled ⇐ host (perform (IsServiceEnabled SriovServicePath));
    postNetworkServiceEnabled ⇐ host (perform (IsServiceEnabled SriovPostNetworkServicePath));
    if serviceEnabled && postNetworkServiceEnabled then
      sriovResult ⇐ host (perform ReadSriovResult);
      Ret (inr (sriovResult, bool_decide (is_Some sriovResult)))
    else
      Ret (inr (Some (mkSriovResult SyncStatusFailed
        ("some sriov systemd services are not available on node: sriov-config available:" +:+
         format_bool serviceEnabled +:+ ", sriov-config-post-network available:" +:+
         format_bool postNetworkServiceEnabled)), false)).

Definition writeSystemdConfigFile (s : SriovNetworkNodeState) : daemonM (DaemonError + bool) :=
  modified ⇐ host (perform (WriteConfFile s));
  (if modified : bool then hostE (perform RemoveSriovResult) else Ret (inr tt)) ;;!
  hostE (perform WriteSriovSupportedNics) ;;!
  Ret (inr modified).

(** ** Annotations *)

Definition annotateState (s : SriovNetworkNodeState) (key value : string) :=
  AnnotateObject (resp := DaemonResp) (λ original obj, perform (PatchNodeState original obj)) s key value.

Definition annotate (desired : SriovNetworkNodeState) (annotationState : string)
    : daemonM (SriovNetworkNodeState * option DaemonError) :=
  err ← AnnotateNode (resp := DaemonResp) (λ original obj, perform (PatchNode original obj))
          (λ n, perform (GetNode n)) (ns_Name desired) NodeDrainAnnotation annotationState;
  match err with
  | Some e => Ret (desired, Some (NKube e))
  | None =>
      '(desired', err) ← annotateState desired NodeStateDrainAnnotation annotationState;
      Ret (desired', match err with Some e => Some (NKube e) | None => None end)
  end.

Definition hasCurrent (s : SriovNetworkNodeState) (v : string) : bool :=
  ObjectHasAnnotation s NodeStateDrainAnnotationCurrent v.
Definition hasDesired (s : SriovNetworkNodeState) (v : string) : bool :=
  ObjectHasAnnotation s NodeStateDrainAnnotation v.

Definition addRemoveExternalDrainerAnnotation (desired : SriovNetworkNodeState)
    : daemonM (DaemonError + bool) :=
  let neitherExists :=
    negb (ObjectHasAnnotationKey desired NodeStateDrainAnnotationCurrent) &&
    negb (ObjectHasAnnotationKey desired NodeStateDrainAnnotation) in
  let bothIdle := hasCurrent desired DrainIdle && hasDesired desired DrainIdle in
  if negb bothIdle && negb neitherExists then Ret (inr false)
  else
    let exists_ := ObjectHasAnnotationKey desired NodeStateExternalDrainerAnnotation in
    if negb (UseExternalDrainer vars) then
      if exists_ then
        kube (perform (PatchNodeState desired
          (SetAnnotations (delete NodeStateExternalDrainerAnnotation (GetAnnotations desired)) desired))) ;;!
        Ret (inr true)
      else Ret (inr false)
    else if exists_ then Ret (inr false)
    else
      '(_, err) ← annotateState desired NodeStateExternalDrainerAnnotation "true";
      match err with
      | Some e => Ret (inl (NKube e))
      | None => Ret (inr true)
      end.

(** ** Draining *)

(** The object, and whether the loop has to wait for a new one. *)
Definition handleDrain (desired : SriovNetworkNodeState) (reqReboot : bool)
    : daemonM (SriovNetworkNodeState * (DaemonError + bool)) :=
  let annotateAndWait a :=
    '(desired', err) ← annotate desired a;
    Ret (desired', match err with Some e => inl e | None => inr true end) in
  if hasCurrent desired DrainComplete then
    if reqReboot && negb (hasDesired desired RebootRequired) then
      if hasDesired desired DrainIdle then Ret (desired, inr true)
      else annotateAndWait DrainIdle
    else Ret (desired, inr false)
  else if hasCurrent desired Draining then
    if reqReboot && negb (hasDesired desired RebootRequired) then
      if hasDesired desired DrainIdle then Ret (desired, inr true)
      else annotateAndWait DrainIdle
    else Ret (desired, inr true)
  else if DisableDrain vars then Ret (desired, inr false)
  else annotateAndWait (if reqReboot then RebootRequired else DrainRequired).

Definition isDrainCompleted (reqDrain : bool) (desired : SriovNetworkNodeState) : bool :=
  if DisableDrain vars then true
  else if reqDrain then hasCurrent desired DrainComplete
  else if negb (hasDesired desired DrainIdle) then hasCurrent desired DrainComplete
  else true.

(** ** The device plugin *)

(** [wait.PollUntilContextTimeout(ctx, time.Second, 2*time.Minute, true, ...)]:
    [None] when the time is over. *)
Fixpoint poll {A} (n : nat) (condition : daemonM (DaemonError + option A))
    : daemonM (DaemonError + option A) :=
  match n with
  | O => Ret (inr None)
  | S n' =>
      r ⇐ condition;
      match r with
      | Some a => Ret (inr (Some a))
      | None => poll n' condition
      end
  end.

Definition getDevicePluginPodsForNode : daemonM (DaemonError + list Pod) := kube (perform ListPods).

(** The condition of the restart's poll. *)
Definition podExited (pod : Pod) : daemonM (DaemonError + option unit) :=
  r ← perform (GetPod (GetName pod));
  match r with
  | inl e => if IsNotFound e then Ret (inr (Some tt)) else Ret (inl (NKube e))
  | inr newPod =>
      if negb (String.eqb (pod_UID newPod) (pod_UID pod)) then Ret (inr (Some tt)) else Ret (inr None)
  end.

Fixpoint restartPods (pods : list Pod) : daemonM (DaemonError + unit) :=
  match pods with
  | [] => Ret (inr tt)
  | pod :: rest =>
      err ← perform (DeletePod pod);
      match err with
      | Some e => if IsNotFound e then restartPods rest else Ret (inl (NKube e))
      | None =>
          r ⇐ poll pollAttempts (podExited pod);
          match r with
          | Some _ => restartPods rest
          | None => Ret (inl (NPodTimeout (GetName pod) (pod_UID pod)))
          end
      end
  end.

Definition restartDevicePluginPod : daemonM (DaemonError + unit) :=
  pods ⇐ getDevicePluginPodsForNode; restartPods pods.

Fixpoint unblockPods (pods : list Pod) : daemonM (DaemonError + unit) :=
  match pods with
  | [] => Ret (inr tt)
  | pod :: rest =>
      kubeE (RemoveAnnotationFromObject (resp := DaemonResp)
        (λ original obj, perform (PatchPod original obj)) pod DevicePluginWaitConfigAnnotation) ;;!
      unblockPods rest
  end.

Definition tryUnblockDevicePlugin (desired : SriovNetworkNodeState) (pods : list Pod)
    : daemonM (DaemonError + unit) :=
  if bool_decide (nss_Interfaces (ns_Spec desired) = []) then Ret (inr tt) else unblockPods pods.

(** The condition: the pods, once one of them waits for the configuration. *)
Definition podWaiting : daemonM (DaemonError + option (list Pod)) :=
  pods ⇐ getDevicePluginPodsForNode;
  Ret (inr (if existsb (λ p, ObjectHasAnnotationKey p DevicePluginWaitConfigAnnotation) pods
            then Some pods else None)).

Definition waitForDevicePluginPodAndTryUnblock (desired : SriovNetworkNodeState)
    : daemonM (DaemonError + unit) :=
  r ⇐ poll pollAttempts podWaiting;
  match r with
  | None => Ret (inr tt)
  | Some pods => tryUnblockDevicePlugin desired pods
  end.

(** ** Drift *)

Fixpoint checkPlugins (plugins : list string) (s : SriovNetworkNodeState)
    : daemonM (DaemonError + bool) :=
  match plugins with
  | [] => Ret (inr false)
  | p :: rest =>
      changed ⇐ host (perform (CheckStatusChanges p s));
      if changed : bool then Ret (inr true) else checkPlugins rest s
  end.

(** The object is part of the result: [updateSyncState] changes it. *)
Definition checkHostStateDrift (dn : NodeReconciler) (desired : SriovNetworkNodeState)
    : daemonM (SriovNetworkNodeState * (DaemonError + bool)) :=
  if (ns_Generation desired =? 1) && bool_decide (nss_Interfaces (ns_Spec desired) = []) then
    e ← perform ClearPCIAddressFolder;
    match e with
    | Some e => Ret (desired, inl (NHost e))
    | None =>
        if negb (String.eqb (nst_SyncStatus (ns_Status desired)) SyncStatusSucceeded) ||
           negb (String.eqb (nst_LastSyncError (ns_Status desired)) "")
        then
          '(desired', err) ← updateSyncState desired SyncStatusSucceeded "" false;
          Ret (desired', match err with Some e => inl e | None => inr false end)
        else Ret (desired, inr false)
    end
  else
    r ← checkPlugins (mainPlugin dn :: additionalPlugins dn) desired;
    Ret (desired, r).

(** ** Apply *)

Fixpoint applyPlugins (plugins : list string) : daemonM (DaemonError + unit) :=
  match plugins with
  | [] => Ret (inr tt)
  | p :: rest => hostE (perform (PluginApply p)) ;;! applyPlugins rest
  end.

(** [defer exit()] runs on every return after the chroot. *)
Definition rebootNode : daemonM (DaemonError + unit) :=
  hostE (perform Chroot) ;;!
  (r ← hostE (perform RunReboot); perform ExitChroot ≫= λ _, Ret r).

Definition rebootLimitMessage : string :=
  "reached maximum number of allowed reboots (5) while trying to configure node".

Definition applyReboot (desired : SriovNetworkNodeState) : daemonM (DaemonError + Result) :=
  rebootsCount ⇐ host (perform (GetRebootCount (ns_Generation desired)));
  if MaxRebootsPerGeneration <=? rebootsCount then
    perform (SendEvent "RebootLimitReached" rebootLimitMessage) ≫= λ _,
    '(_, err) ← updateSyncState desired SyncStatusFailed rebootLimitMessage false;
    Ret (match err with Some e => inl e | None => inr done_ end)
  else
    hostE (perform (IncrementRebootCounter (ns_Generation desired))) ;;!
    (perform (SendEvent "RebootNode" "Reboot node has been initiated") ≫= λ _,
     rebootNode ;;! Ret (inr done_)).

(** The steps after the plugins when no reboot is needed.  A [nil] result
    that is dereferenced is a panic. *)
Definition finishApply (dn : NodeReconciler) (desired : SriovNetworkNodeState)
    (sriovResult : option SriovResult) (appliedGeneration : Z)
    : daemonM (NodeReconciler * result DaemonError Result) :=
  let fail e := Ret (dn, Err e) in
  r ← (if BlockDevicePluginUntilConfigured vars then
         if bool_decide (nss_Interfaces (ns_Spec desired) = []) then Ret (inr tt)
         else waitForDevicePluginPodAndTryUnblock desired
       else restartDevicePluginPod);
  match r with
  | inl e => fail e
  | inr _ =>
      '(desired1, err) ← annotate desired DrainIdle;
      match err with
      | Some e => fail e
      | None =>
          match (if UsingSystemdMode vars
                 then (λ r, (sr_SyncStatus r, sr_LastSyncError r)) <$> sriovResult
                 else Some (SyncStatusSucceeded, "")) with
          | None => Ret (dn, Panic)
          | Some (syncStatus, lastSyncError) =>
              r ← updateStatusFromHost desired1;
              match r with
              | inl e => fail e
              | inr desired2 =>
                  '(_, err) ← updateSyncState desired2 syncStatus lastSyncError false;
                  match err with
                  | Some e => fail e
                  | None =>
                      e ← perform (ResetRebootCounter appliedGeneration);
                      match e with
                      | Some e => fail (NHost e)
                      | None =>
                          Ret (mkNodeReconciler (mainPlugin dn) (additionalPlugins dn) appliedGeneration,
                               Ok (mkResult DaemonRequeueTime))
                      end
                  end
              end
          end
      end
  end.

Definition apply_ (dn : NodeReconciler) (desired : SriovNetworkNodeState) (reqReboot : bool)
    (sriovResult : option SriovResult) (appliedGeneration : Z)
    : daemonM (NodeReconciler * result DaemonError Result) :=
  r ← ((if BlockDevicePluginUntilConfigured vars then restartDevicePluginPod else Ret (inr tt)) ;;!
       applyPlugins (additionalPlugins dn) ;;!
       (if negb reqReboot && negb (UsingSystemdMode vars)
        then hostE (perform (PluginApply (mainPlugin dn))) else Ret (inr tt)));
  match r with
  | inl e => Ret (dn, Err e)
  | inr _ =>
      if reqReboot then r ← applyReboot desired; Ret (dn, match r with inl e => Err e | inr a => Ok a end)
      else finishApply dn desired sriovResult appliedGeneration
  end.

(** ** Reconcile *)

(** The periodic refresh when the generation was already applied: [None] when
    the host drifted and the node has to be configured again. *)
Definition refresh (dn : NodeReconciler) (current desired : SriovNetworkNodeState)
    : daemonM (SriovNetworkNodeState * (DaemonError + option Result)) :=
  '(desired1, drifted) ← checkHostStateDrift dn desired;
  match drifted with
  | inl e => Ret (desired1, inl e)
  | inr true => Ret (desired1, inr None)
  | inr false =>
      '(desired2, err) ←
        (if shouldUpdateStatus current desired1 then
           updateSyncState desired1 (nst_SyncStatus (ns_Status desired1))
             (nst_LastSyncError (ns_Status desired1)) false
         else Ret (desired1, None));
      match err with
      | Some e => Ret (desired2, inl e)
      | None =>
          r ← (if BlockDevicePluginUntilConfigured vars &&
                  negb (bool_decide (nss_Interfaces (ns_Spec desired2) = [])) then
                 pods ⇐ getDevicePluginPodsForNode;
                 tryUnblockDevicePlugin desired2 pods
               else Ret (inr tt));
          Ret (desired2, match r with
                         | inl e => inl e
                         | inr _ => inr (Some (mkResult DaemonRequeueTime))
                         end)
      end
  end.

(** From the requirements of the plugins to the end. *)
Definition drainAndApply (dn : NodeReconciler) (desired : SriovNetworkNodeState)
    (reqReboot reqDrain : bool) (sriovResult : option SriovResult) (latest : Z)
    : daemonM (NodeReconciler * result DaemonError Result) :=
  '(desired1, inProcess) ←
    (if reqDrain || negb (hasCurrent desired DrainIdle) then handleDrain desired reqReboot
     else Ret (desired, inr false));
  match inProcess with
  | inl e => Ret (dn, Err e)
  | inr true =>
      '(_, err) ← updateSyncState desired1 SyncStatusInProgress
                    (nst_LastSyncError (ns_Status desired1)) true;
      Ret (dn, match err with Some e => Err e | None => Ok (mkResult DaemonRequeueTime) end)
  | inr false =>
      if isDrainCompleted reqDrain desired1
      then apply_ dn desired1 reqReboot sriovResult latest
      else Ret (dn, Ok done_)
  end.

(** Configure the node for the fetched spec. *)
Definition configure (dn : NodeReconciler) (desired : SriovNetworkNodeState)
    (sriovResult : option SriovResult) (sriovResultExists : bool) (latest : Z)
    : daemonM (NodeReconciler * result DaemonError Result) :=
  '(desired1, err) ← updateSyncState desired SyncStatusInProgress
                       (nst_LastSyncError (ns_Status desired)) false;
  match err with
  | Some e => Ret (dn, Err e)
  | None =>
      if negb (ns_Generation desired1 =? latest) then Ret (dn, Ok (mkResult 5))
      else
        r ← checkOnNodeStateChange dn desired1;
        match r with
        | inl e => Ret (dn, Err e)
        | inr (reqReboot, reqDrain) =>
            if UsingSystemdMode vars then
              r ← writeSystemdConfigFile desired1;
              match r with
              | inl e => Ret (dn, Err e)
              | inr systemdConfModified =>
                  let reqDrain' := reqDrain || systemdConfModified || negb sriovResultExists in
                  drainAndApply dn desired1 (reqReboot || reqDrain') reqDrain' sriovResult latest
              end
            else drainAndApply dn desired1 reqReboot reqDrain sriovResult latest
        end
  end.

Definition Reconcile (dn : NodeReconciler) (name : string)
    : daemonM (NodeReconciler * result DaemonError Result) :=
  r ← perform (GetNodeState name);
  match r with
  | inl e => Ret (dn, if IsNotFound e then Ok done_ else Err (NKube e))
  | inr fetched =>
      r ← addRemoveExternalDrainerAnnotation fetched;
      match r with
      | inl e => Ret (dn, Err e)
      | inr true => Ret (dn, Ok done_)
      | inr false =>
          if negb (ObjectHasAnnotationKey fetched NodeStateDrainAnnotationCurrent) ||
             negb (ObjectHasAnnotationKey fetched NodeStateDrainAnnotation)
          then Ret (dn, Ok done_)
          else
            let latest := ns_Generation fetched in
            r ← updateStatusFromHost fetched;
            match r with
            | inl e => Ret (dn, Err e)
            | inr desired =>
                r ← CheckSystemdStatus;
                match r with
                | inl _ =>
                    '(_, err) ← updateSyncState desired SyncStatusFailed "unexpected error" false;
                    Ret (dn, match err with Some e => Err e | None => Ok done_ end)
                | inr (sriovResult, sriovResultExists) =>
                    if lastAppliedGeneration dn =? latest then
                      '(desired1, r) ← refresh dn fetched desired;
                      match r with
                      | inl e => Ret (dn, Err e)
                      | inr (Some result) => Ret (dn, Ok result)
                      | inr None => configure dn desired1 sriovResult sriovResultExists latest
                      end
                    else configure dn desired sriovResult sriovResultExists latest
                end
            end
      end
  end.
End daemon.

(** ** plugin.go *)

Definition isPluginDisabled (pluginName : string) (disabledPlugins : list string) : bool :=
  existsb (λ p, String.eqb p pluginName) disabledPlugins.

(** On the answer of [GetVendorPlugins]; [None] is the error for a disabled
    main plugin. *)
Definition loadPlugins (dn : NodeReconciler) (main : string) (additional disabledPlugins : list string)
    : option NodeReconciler :=
  if isPluginDisabled main disabledPlugins then None
  else Some (mkNodeReconciler main
    (additionalPlugins dn ++ List.filter (λ p, negb (isPluginDisabled p disabledPlugins)) additional)
    (lastAppliedGeneration dn)).
