(* ===== verification/DaemonSafety.v ===== *)
(** * What the daemon guarantees

    First a classification of the requests of [Daemon]: most helpers only talk to
    the API server and the host about things no guarantee depends on.  Then
    theorems about every run of the daemon's [Reconcile], whatever the API
    server, the plugins and the host answer: it configures and reboots the node
    only when the drain protocol allows it, it applies the specification it
    fetched and records the right generation, and it never dereferences the
    missing systemd result. *)
From S2P Require Import Prelude GoLib Types Conditions Effects Kube Daemon.

(** ** What the parts of the daemon ask for *)

(** Requests about the reboot tracker, and the reboot. *)
Definition tracking (r : DaemonReq) : bool :=
  match r with
  | GetRebootCount _ | IncrementRebootCounter _ | ResetRebootCounter _ | RunReboot => true
  | _ => false
  end.

(** Requests that show the node state. *)
Definition shows (r : DaemonReq) : bool :=
  match r with GetNodeState _ | PatchNodeState _ _ => true | _ => false end.

(** Requests to the plugins and the systemd service. *)
Definition consults (r : DaemonReq) : bool :=
  match r with
  | OnNodeStateChange _ _ | WriteConfFile _ | IsServiceEnabled _ | ReadSriovResult | PluginApply _ => true
  | _ => false
  end.

(** The rest. *)
Definition talks (r : DaemonReq) : bool := negb (tracking r) && negb (shows r) && negb (consults r).
Definition talks_or_shows (r : DaemonReq) : bool := talks r || shows r.
Definition untracked (r : DaemonReq) : bool := negb (tracking r).

Section requests.
Context (vars : Vars) (attempts : nat).

#[local] Hint Extern 1 (steady _ _ _ _) => only_request : steady.

Lemma talks_recordTransitions obj ts :
  only talks (recordTransitions (resp := DaemonResp)
    (λ o t reason message, perform (Eventf o t reason message)) obj ts).
Proof. induction ts; cbn [recordTransitions]; steady. Qed.
#[local] Hint Resolve talks_recordTransitions : steady.

Lemma talks_ApplyStatus m cs f owned :
  only talks (ApplyStatus (resp := DaemonResp) (λ o f cs, perform (StatusApply o f cs))
    (λ o t reason message, perform (Eventf o t reason message)) true m cs f owned).
Proof. unfold ApplyStatus. steady. Qed.

Lemma talks_recordStatusChangeEvent a b c : only talks (recordStatusChangeEvent a b c).
Proof. unfold recordStatusChangeEvent. steady. Qed.

Lemma talks_updateStatusFromHost s : only talks (updateStatusFromHost vars s).
Proof. unfold updateStatusFromHost, host. steady. Qed.

Lemma talks_poll {A} n (c : daemonM (DaemonError + option A)) : only talks c → only talks (poll n c).
Proof. intros Hc. induction n; cbn [poll]; steady. Qed.
#[local] Hint Resolve talks_poll : steady.

Lemma talks_podExited pod : only talks (podExited pod).
Proof. unfold podExited. steady. Qed.
#[local] Hint Resolve talks_podExited : steady.

Lemma talks_restartPods pods : only talks (restartPods attempts pods).
Proof. induction pods as [|pod pods IH]; cbn [restartPods]; steady. Qed.
#[local] Hint Resolve talks_restartPods : steady.

Lemma talks_restartDevicePluginPod : only talks (restartDevicePluginPod attempts).
Proof. unfold restartDevicePluginPod, getDevicePluginPodsForNode, kube. steady. Qed.

Lemma talks_unblockPods pods : only talks (unblockPods pods).
Proof.
  induction pods as [|pod pods IH]; cbn [unblockPods]; unfold kubeE, RemoveAnnotationFromObject; steady.
Qed.
#[local] Hint Resolve talks_unblockPods : steady.

Lemma talks_tryUnblock s pods : only talks (tryUnblockDevicePlugin s pods).
Proof. unfold tryUnblockDevicePlugin. steady. Qed.
#[local] Hint Resolve talks_tryUnblock : steady.

Lemma talks_podWaiting : only talks podWaiting.
Proof. unfold podWaiting, getDevicePluginPodsForNode, kube. steady. Qed.
#[local] Hint Resolve talks_podWaiting : steady.

Lemma talks_waitForDevicePlugin s : only talks (waitForDevicePluginPodAndTryUnblock attempts s).
Proof. unfold waitForDevicePluginPodAndTryUnblock. steady. Qed.

Lemma talks_checkPlugins ps s : only talks (checkPlugins ps s).
Proof. induction ps as [|p ps IH]; cbn [checkPlugins]; unfold host; steady. Qed.

Lemma shows_annotateState s k v : only talks_or_shows (annotateState s k v).
Proof. unfold annotateState, AnnotateObject. steady. Qed.
#[local] Hint Resolve shows_annotateState : steady.

Lemma shows_annotate s v : only talks_or_shows (annotate s v).
Proof. unfold annotate, AnnotateNode, AnnotateObject. steady. Qed.

Lemma shows_addRemove s : only talks_or_shows (addRemoveExternalDrainerAnnotation vars s).
Proof. unfold addRemoveExternalDrainerAnnotation, kube. steady. Qed.


Lemma shows_updateSyncState s st msg w : only talks_or_shows (updateSyncState s st msg w).
Proof.
  unfold updateSyncState. steady; apply (only_mono talks); try (by intros []).
  - apply talks_ApplyStatus.
  - apply talks_recordStatusChangeEvent.
Qed.

(** Everything but [applyReboot] and the end of [finishApply] leaves the
    tracker alone. *)
Lemma talks_untracked {A} (p : daemonM A) : only talks p → only untracked p.
Proof. apply only_mono. by intros []. Qed.

Lemma shows_untracked {A} (p : daemonM A) : only talks_or_shows p → only untracked p.
Proof. apply only_mono. by intros []. Qed.

Lemma untracked_updateSyncState s st msg w : only untracked (updateSyncState s st msg w).
Proof. apply shows_untracked, shows_updateSyncState. Qed.
#[local] Hint Resolve untracked_updateSyncState : steady.

Lemma untracked_annotate s a : only untracked (annotate s a).
Proof. apply shows_untracked, shows_annotate. Qed.
#[local] Hint Resolve untracked_annotate : steady.

Lemma untracked_checkAdditional ps s r d : only untracked (checkAdditional ps s r d).
Proof. revert r d. induction ps as [|p ps IH]; intros r d; cbn [checkAdditional]; unfold host; steady. Qed.
#[local] Hint Resolve untracked_checkAdditional : steady.

Lemma untracked_checkOnNodeStateChange dn s : only untracked (checkOnNodeStateChange dn s).
Proof. unfold checkOnNodeStateChange, host. steady. Qed.

Lemma untracked_CheckSystemdStatus : only untracked (CheckSystemdStatus vars).
Proof. unfold CheckSystemdStatus, host. steady. Qed.

Lemma untracked_writeSystemdConfigFile s : only untracked (writeSystemdConfigFile s).
Proof. unfold writeSystemdConfigFile, host, hostE. steady. Qed.

Lemma untracked_handleDrain s r : only untracked (handleDrain vars s r).
Proof. unfold handleDrain. steady. Qed.

Lemma untracked_applyPlugins ps : only untracked (applyPlugins ps).
Proof. induction ps as [|p ps IH]; cbn [applyPlugins]; unfold hostE; steady. Qed.

Lemma untracked_checkHostStateDrift dn s : only untracked (checkHostStateDrift dn s).
Proof.
  unfold checkHostStateDrift. steady. apply talks_untracked, talks_checkPlugins.
Qed.
#[local] Hint Resolve untracked_checkHostStateDrift : steady.

Lemma untracked_refresh dn c s : only untracked (refresh vars dn c s).
Proof.
  unfold refresh, getDevicePluginPodsForNode, kube. steady; apply talks_untracked, talks_tryUnblock.
Qed.
End requests.

(** ** Runs *)

Abbreviation dhistory := (list (event DaemonResp)).
Abbreviation dw := (history_world DaemonResp).

(** ** Reading a conversation *)

(** The metadata an answer shows of the node state. *)
Definition seen_meta (e : event DaemonResp) : option ObjectMeta :=
  let 'existT r x := e in
  match r return DaemonResp r → option ObjectMeta with
  | GetNodeState _ | PatchNodeState _ _ => λ x,
      match x with inr s => Some (ns_meta s) | inl _ => None end
  | _ => λ _, None
  end x.

(** The node state's metadata as last seen. *)
Definition last_meta (h : dhistory) : option ObjectMeta :=
  foldl (λ acc e, match seen_meta e with Some m => Some m | None => acc end) None h.

(** A plugin was applied without an error. *)
Definition applied (p : string) : event DaemonResp := existT (PluginApply p) None.

(** Somebody needs the node to be drained: a plugin, a changed systemd
    configuration, or a missing result of the systemd service. *)
Definition asks_drain (e : event DaemonResp) : bool :=
  let 'existT r x := e in
  match r return DaemonResp r → bool with
  | OnNodeStateChange _ _ => λ x, match x with inr (d, _) => d | inl _ => false end
  | WriteConfFile _ => λ x, match x with inr m => m | inl _ => false end
  | IsServiceEnabled _ => λ x, match x with inr b => negb b | inl _ => false end
  | ReadSriovResult => λ x, match x with inr None => true | _ => false end
  | _ => λ _, false
  end x.

(** The node state the reconciliation started from. *)
Definition fetched_state (e : event DaemonResp) : option SriovNetworkNodeState :=
  let 'existT r x := e in
  match r return DaemonResp r → option SriovNetworkNodeState with
  | GetNodeState _ => λ x, match x with inr s => Some s | inl _ => None end
  | _ => λ _, None
  end x.

Definition first_fetched (h : dhistory) : option SriovNetworkNodeState := head h ≫= fetched_state.

Definition no_drain_asked (h : dhistory) : Prop := ∀ e, e ∈ h → asks_drain e = false.

Definition currentOf (m : ObjectMeta) : option string := om_Annotations m !! NodeStateDrainAnnotationCurrent.
Definition desiredOf (m : ObjectMeta) : option string := om_Annotations m !! NodeStateDrainAnnotation.

(** ** The guarantee *)

Section guarantee.
Context (vars : Vars).

(** Idle, and nobody asked for a drain in this reconciliation. *)
Definition undisturbed (h : dhistory) (m : ObjectMeta) : Prop :=
  currentOf m = Some DrainIdle ∧ desiredOf m = Some DrainIdle ∧ no_drain_asked h.

(** With draining disabled, the node is at least not being drained. *)
Definition undrained (m : ObjectMeta) : Prop :=
  DisableDrain vars = true ∧ currentOf m ≠ Some Draining.

(** The systemd services do the work of the main plugin: their configuration
    file already held the specification that was fetched, and they have left a
    result (which may be a failure). *)
Definition service_current (h : dhistory) : Prop :=
  (∃ s f, first_fetched h = Some f ∧ ns_Spec s = ns_Spec f ∧ existT (WriteConfFile s) (inr false) ∈ h) ∧
  (∃ r, existT ReadSriovResult (inr (Some r)) ∈ h).

(** The vendor plugins have been applied, and so has the main plugin; in systemd
    mode its services are up to date instead. *)
Definition all_applied (dn : NodeReconciler) (h : dhistory) : Prop :=
  (∀ p, p ∈ additionalPlugins dn → applied p ∈ h) ∧
  if UsingSystemdMode vars then service_current h else applied (mainPlugin dn) ∈ h.

Definition for_fetched (h : dhistory) (g : Z) : Prop := ∃ f, first_fetched h = Some f ∧ g = ns_Generation f.

Definition daemon_allowed (dn : NodeReconciler) (h : dhistory) (r : DaemonReq) : Prop :=
  match r with
  | PluginApply _ =>
      ∃ m, last_meta h = Some m ∧ (currentOf m = Some DrainComplete ∨ undisturbed h m ∨ undrained m)
  | RunReboot =>
      ∃ m, last_meta h = Some m ∧
        (currentOf m = Some DrainComplete ∧ desiredOf m = Some RebootRequired ∨ undisturbed h m ∨ undrained m)
  | OnNodeStateChange _ s =>
      ∃ f, first_fetched h = Some f ∧ ns_Spec s = ns_Spec f ∧ ns_Generation s = ns_Generation f
  | GetRebootCount g | IncrementRebootCounter g => for_fetched h g
  | ResetRebootCounter g => for_fetched h g ∧ all_applied dn h
  | _ => True
  end.

(** What holds of the reconciler and the answer at the end. *)
Definition daemon_result (dn : NodeReconciler) (res : NodeReconciler * result DaemonError Result)
    (h : dhistory) : Prop :=
  res.2 ≠ Panic ∧
  mainPlugin res.1 = mainPlugin dn ∧ additionalPlugins res.1 = additionalPlugins dn ∧
  (res.1 = dn ∨
   (∃ f, first_fetched h = Some f ∧ lastAppliedGeneration res.1 = ns_Generation f) ∧
   all_applied dn h).

(** ** Harmless parts

    [unasking]: nothing in it asks for a drain, and the first answer stays
    the first; [unmoved]: nor is the node state's metadata seen again. *)
Definition unasking (h h' : dhistory) : Prop :=
  ∃ t, h' = h ++ t ∧ ∀ e, e ∈ t → asks_drain e = false.
Definition unmoved (h h' : dhistory) : Prop :=
  ∃ t, h' = h ++ t ∧ ∀ e, e ∈ t → asks_drain e = false ∧ seen_meta e = None.

#[export] Instance unasking_preorder : PreOrder unasking.
Proof.
  split.
  - intros h. exists []. split; [by rewrite app_nil_r|set_solver].
  - intros h1 h2 h3 (t & -> & Ht) (t' & -> & Ht'). exists (t ++ t'). rewrite app_assoc. set_solver.
Qed.

#[export] Instance unmoved_preorder : PreOrder unmoved.
Proof.
  split.
  - intros h. exists []. split; [by rewrite app_nil_r|set_solver].
  - intros h1 h2 h3 (t & -> & Ht) (t' & -> & Ht'). exists (t ++ t'). rewrite app_assoc. set_solver.
Qed.

Lemma unmoved_unasking h h' : unmoved h h' → unasking h h'.
Proof. intros (t & -> & Ht). exists t. split; [done|]. intros e He. by apply Ht. Qed.

Lemma unasking_no_drain h h' : unasking h h' → no_drain_asked h → no_drain_asked h'.
Proof. intros (t & -> & Ht) H e [?|?]%elem_of_app; auto. Qed.

Lemma last_meta_snoc h e :
  last_meta (h ++ [e]) = match seen_meta e with Some m => Some m | None => last_meta h end.
Proof. unfold last_meta. by rewrite foldl_snoc. Qed.

Lemma unmoved_last_meta h h' : unmoved h h' → last_meta h' = last_meta h.
Proof.
  intros (t & -> & Ht). unfold last_meta. rewrite foldl_app.
  induction t as [|e t IH] using rev_ind; [done|]. rewrite foldl_snoc.
  rewrite (proj2 (Ht e ltac:(set_solver))). apply IH. intros e' He'. apply Ht. set_solver.
Qed.

Lemma first_fetched_app h t f : first_fetched h = Some f → first_fetched (h ++ t) = Some f.
Proof. unfold first_fetched. by destruct h. Qed.

Lemma unasking_first h h' f : unasking h h' → first_fetched h = Some f → first_fetched h' = Some f.
Proof. intros (t & -> & _). apply first_fetched_app. Qed.

Lemma unasking_prefix h h' : unasking h h' → h `prefix_of` h'.
Proof. intros (t & -> & _). by exists t. Qed.

Lemma first_fetched_prefix h h' f : h `prefix_of` h' → first_fetched h = Some f → first_fetched h' = Some f.
Proof. intros [t ->]. apply first_fetched_app. Qed.

Lemma for_fetched_prefix h h' g : h `prefix_of` h' → for_fetched h g → for_fetched h' g.
Proof. intros Hp (f & Hf & ->). exists f. split; [by eapply first_fetched_prefix|done]. Qed.

Lemma prefix_elem {A} (h h' : list A) e : h `prefix_of` h' → e ∈ h → e ∈ h'.
Proof. intros [t ->] He. apply elem_of_app. by left. Qed.

Lemma service_current_prefix h h' : h `prefix_of` h' → service_current h → service_current h'.
Proof.
  intros Hp [(s & f & Hf & Hs & Hw) [r Hr]]. split.
  - exists s, f. split_and!; [by eapply first_fetched_prefix|done|by eapply prefix_elem].
  - exists r. by eapply prefix_elem.
Qed.

Lemma all_applied_prefix dn h h' : h `prefix_of` h' → all_applied dn h → all_applied dn h'.
Proof.
  intros Hp [H1 H2]. split; [intros q Hq; eapply prefix_elem; eauto|].
  destruct (UsingSystemdMode vars); [by eapply service_current_prefix|by eapply prefix_elem].
Qed.
End guarantee.

(** ** Harmless requests *)

Section harmless.
Context (vars : Vars) (attempts : nat) (dn : NodeReconciler).
Abbreviation G := (daemon_allowed vars dn).
Abbreviation still := (steady dw G unmoved).
Abbreviation mild := (steady dw G unasking).

(** No answer asks for a drain or shows the node state, and it is always
    allowed. *)
Definition plain (r : DaemonReq) : bool :=
  negb (shows r) && negb (consults r) && negb (tracking r).

Lemma still_request r : plain r = true → still (perform r).
Proof.
  intros Hr. apply (steady_perform dw G unmoved r); [by destruct r|].
  intros h x h' ->. exists [existT r x]. split; [done|]. intros e ->%list_elem_of_singleton.
  by destruct r.
Qed.

Lemma mild_request r : plain r || shows r = true → mild (perform r).
Proof.
  intros Hr. apply (steady_perform dw G unasking r); [by destruct r|].
  intros h x h' ->. exists [existT r x]. split; [done|]. intros e ->%list_elem_of_singleton.
  by destruct r.
Qed.

Lemma still_of {A} (p : daemonM A) : only talks p → still p.
Proof. apply only_steady; [apply _|]. intros r Hr. apply still_request. by destruct r. Qed.

Lemma mild_of {A} (p : daemonM A) : only talks_or_shows p → mild p.
Proof. apply only_steady; [apply _|]. intros r Hr. apply mild_request. by destruct r. Qed.

(** After [updateSyncState] without an error the object has the live
    metadata; its spec is never touched. *)
Lemma wp_updateSyncState s st msg w (h : w_state dw) :
  wp dw G (updateSyncState s st msg w)
    (λ r h', unasking h h' ∧ ns_Spec r.1 = ns_Spec s ∧
             (r.2 = None → last_meta h' = Some (ns_meta r.1))) h.
Proof.
  unfold updateSyncState. apply wp_perform; [done|]. intros x h1 ->.
  assert (E1 : unasking h (h ++ [existT _ x])).
  { eexists. split; [reflexivity|]. by intros e ->%list_elem_of_singleton. }
  destruct x as [e|live]; [done|].
  set (h1 := h ++ _) in *.
  assert (M1 : last_meta h1 = Some (ns_meta live)) by (unfold h1; by rewrite last_meta_snoc).
  clearbody h1. eapply (wp_steady_bind dw G unmoved); [apply still_request; reflexivity|].
  intros now h2 E2. apply unmoved_last_meta in E2 as M2. apply unmoved_unasking in E2.
  assert (E02 : unasking h h2) by (by transitivity h1). clear E1 E2.
  destruct (_ && _).
  { cbn. split_and!; [done..|]. intros _. by rewrite M2, M1. }
  eapply (wp_steady_bind dw G unmoved); [apply still_of, talks_ApplyStatus|].
  intros err h3 E3. apply unmoved_unasking in E3. assert (E03 : unasking h h3) by (by transitivity h2).
  destruct err as [e|]; [by cbn|].
  eapply (wp_steady_bind dw G unmoved); [apply still_of, talks_recordStatusChangeEvent|].
  intros [] h4 E4. apply unmoved_unasking in E4. assert (E04 : unasking h h4) by (by transitivity h3).
  apply wp_perform; [done|]. intros x h5 ->.
  assert (E05 : unasking h (h4 ++ [existT _ x])).
  { transitivity h4; [done|]. eexists. split; [reflexivity|]. by intros e ->%list_elem_of_singleton. }
  destruct x as [e|live']; [by cbn|]. cbn. split_and!; [done..|].
  intros _. by rewrite last_meta_snoc.
Qed.

Lemma mild_updateSyncState s st msg w : mild (updateSyncState s st msg w).
Proof. intros h. eapply wp_post; [apply wp_updateSyncState|]. by intros r h' (? & _). Qed.
End harmless.

(** ** Applying *)

Section applying.
Context (vars : Vars) (attempts : nat) (dn : NodeReconciler).
Abbreviation G := (daemon_allowed vars dn).

Definition apply_ok (h : dhistory) : Prop := G h (PluginApply "").
Definition reboot_ok (h : dhistory) : Prop := G h RunReboot.

Lemma undisturbed_unmoved h h' m : unmoved h h' → undisturbed h m → undisturbed h' m.
Proof.
  intros E%unmoved_unasking (? & ? & ?). split_and!; [done..|]. by eapply unasking_no_drain.
Qed.

Lemma apply_ok_unmoved h h' : unmoved h h' → apply_ok h → apply_ok h'.
Proof.
  intros E (m & Hm & H). exists m. rewrite (unmoved_last_meta _ _ E). split; [done|].
  destruct H as [?|[?|?]]; [by left|right; left; by eapply undisturbed_unmoved|by do 2 right].
Qed.

Lemma reboot_ok_unmoved h h' : unmoved h h' → reboot_ok h → reboot_ok h'.
Proof.
  intros E (m & Hm & H). exists m. rewrite (unmoved_last_meta _ _ E). split; [done|].
  destruct H as [?|[?|?]]; [by left|right; left; by eapply undisturbed_unmoved|by do 2 right].
Qed.

Lemma unasking_extends h h' : unasking h h' → extends h h'.
Proof. intros (t & -> & _) e He. set_solver. Qed.

Lemma all_applied_unasking h h' : unasking h h' → all_applied vars dn h → all_applied vars dn h'.
Proof. intros E%unasking_prefix. by apply all_applied_prefix. Qed.

Lemma unmoved_prefix h h' : unmoved h h' → h `prefix_of` h'.
Proof. intros E%unmoved_unasking. by apply unasking_prefix. Qed.

(** Applying a plugin once it is allowed. *)
Lemma wp_PluginApply p (h : w_state dw) :
  apply_ok h →
  wp dw G (hostE (perform (PluginApply p))) (λ r h', unmoved h h' ∧ (r = inr tt → applied p ∈ h')) h.
Proof.
  intros Hok. unfold hostE. apply wp_perform; [exact Hok|]. intros x h' ->. apply wp_ret. split.
  - eexists. split; [reflexivity|]. by intros e ->%list_elem_of_singleton.
  - destruct x as [e|]; [done|]. intros _. apply elem_of_app. right. by apply list_elem_of_singleton.
Qed.

Lemma wp_applyPlugins ps (h : w_state dw) :
  apply_ok h →
  wp dw G (applyPlugins ps)
    (λ r h', unmoved h h' ∧ (r = inr tt → ∀ p, p ∈ ps → applied p ∈ h')) h.
Proof.
  revert h. induction ps as [|p ps IH]; intros h Hok; cbn [applyPlugins].
  { apply wp_ret. split; [reflexivity|set_solver]. }
  apply wp_try. eapply wp_post; [by apply wp_PluginApply|].
  intros [e|[]] h1 [E1 A1]; [done|]. eapply wp_post; [by apply IH; eapply apply_ok_unmoved|].
  intros r h2 [E2 A2]. split; [by transitivity h1|]. intros -> q [->|Hq]%elem_of_cons; [|by apply A2].
  apply (unasking_extends h1); [by apply unmoved_unasking|by apply A1].
Qed.

Lemma wp_applyReboot s (h : w_state dw) :
  reboot_ok h → for_fetched h (ns_Generation s) → wp dw G (applyReboot s) (λ _ _, True) h.
Proof.
  intros Hok Hg. unfold applyReboot. apply wp_try. unfold host at 1. apply wp_perform; [exact Hg|].
  intros x h1 ->. set (h1 := h ++ _). assert (E1 : unmoved h h1).
  { eexists. split; [reflexivity|]. by intros e ->%list_elem_of_singleton. }
  clearbody h1. apply wp_ret. destruct x as [e|c]; [done|]. destruct (MaxRebootsPerGeneration <=? c).
  { apply (wp_steady_bind dw G unmoved); [by apply still_request|]. intros [] h2 E2.
    apply (wp_steady_bind dw G unasking); [apply mild_updateSyncState|]. by intros [s' [e|]] h3 _. }
  apply wp_try. unfold hostE at 1. apply wp_perform.
  { by apply (for_fetched_prefix h); [apply unmoved_prefix|]. }
  intros x h2 ->. set (h2 := h1 ++ _). assert (E2 : unmoved h1 h2).
  { eexists. split; [reflexivity|]. by intros e ->%list_elem_of_singleton. }
  clearbody h2. apply wp_ret. destruct x as [e|]; [done|].
  apply (wp_steady_bind dw G unmoved); [by apply still_request|]. intros [] h3 E3.
  apply wp_try, (wp_steady_try dw G unmoved); [|done|].
  { unfold hostE. steady. by apply still_request. }
  intros [] h4 E4. apply wp_bind, wp_perform.
  - apply (reboot_ok_unmoved h); [|done]. by do 3 (etransitivity; [eassumption|]).
  - intros x h5 _. apply wp_ret, (wp_steady_bind dw G unmoved); [by apply still_request|].
    intros [] h6 _. by destruct x.
Qed.

Lemma daemon_result_same r h : r ≠ Panic → daemon_result vars dn (dn, r) h.
Proof. intros H. split_and!; [done..|by left]. Qed.

Lemma wp_finishApply s res g f (h : w_state dw) :
  (UsingSystemdMode vars = true → is_Some res) →
  first_fetched h = Some f → g = ns_Generation f → all_applied vars dn h →
  wp dw G (finishApply vars attempts dn s res g) (daemon_result vars dn) h.
Proof.
  intros Hres Hf Hg Happ. unfold finishApply.
  assert (Hfail : ∀ e h', daemon_result vars dn (dn, Err e) h') by (intros; apply daemon_result_same; done).
  eapply (wp_steady_bind dw G unmoved).
  { destruct (BlockDevicePluginUntilConfigured vars); [|apply still_of, talks_restartDevicePluginPod].
    destruct (bool_decide _); [steady|apply still_of, talks_waitForDevicePlugin]. }
  intros [e|[]] h1 E1%unmoved_unasking; [apply Hfail|]. apply (unasking_first _ _ _ E1) in Hf.
  apply (all_applied_unasking _ _ E1) in Happ.
  eapply (wp_steady_bind dw G unasking); [apply mild_of, shows_annotate|].
  intros [s1 [e|]] h2 E2; [apply Hfail|]. apply (unasking_first _ _ _ E2) in Hf.
  apply (all_applied_unasking _ _ E2) in Happ.
  assert (∃ st le, (if UsingSystemdMode vars
     then (λ r, (sr_SyncStatus r, sr_LastSyncError r)) <$> res else Some (SyncStatusSucceeded, "")) =
     Some (st, le)) as (st & le & ->).
  { destruct (UsingSystemdMode vars); [|eauto]. destruct (Hres eq_refl) as [r ->]. cbn. eauto. }
  eapply (wp_steady_bind dw G unmoved); [apply still_of, talks_updateStatusFromHost|].
  intros [e|s2] h3 E3%unmoved_unasking; [apply Hfail|]. apply (unasking_first _ _ _ E3) in Hf.
  apply (all_applied_unasking _ _ E3) in Happ.
  eapply (wp_steady_bind dw G unasking); [apply mild_updateSyncState|].
  intros [s3 [e|]] h4 E4; [apply Hfail|]. apply (unasking_first _ _ _ E4) in Hf.
  apply (all_applied_unasking _ _ E4) in Happ.
  apply wp_perform; [by split; [exists f|]|]. intros x h5 ->.
  assert (E5 : unasking h4 (h4 ++ [existT (ResetRebootCounter g) x])).
  { eexists. split; [reflexivity|]. by intros e ->%list_elem_of_singleton. }
  destruct x as [e|]; [apply Hfail|]. apply (unasking_first _ _ _ E5) in Hf.
  apply (all_applied_unasking _ _ E5) in Happ.
  cbn -[first_fetched]. split_and!; [done..|]. right. split; [|done]. exists f. by split.
Qed.

Lemma wp_apply s reboot res g f (h : w_state dw) :
  apply_ok h → (reboot = true → reboot_ok h) →
  (UsingSystemdMode vars = true → reboot = false → is_Some res ∧ service_current h) →
  first_fetched h = Some f → g = ns_Generation f → ns_Generation s = ns_Generation f →
  wp dw G (apply_ vars attempts dn s reboot res g) (daemon_result vars dn) h.
Proof.
  intros Hok Hreboot Hres Hf Hg Hgs. unfold apply_. apply wp_bind.
  eapply (wp_post dw G _ (λ r h', unmoved h h' ∧ (r = inr tt → reboot = false → all_applied vars dn h'))).
  - apply wp_try. eapply (wp_post dw G _ (λ _ h', unmoved h h')).
    { destruct (BlockDevicePluginUntilConfigured vars); [apply still_of, talks_restartDevicePluginPod|].
      by cbn; reflexivity. }
    intros [e|[]] h1 E1; [done|]. apply (apply_ok_unmoved _ _ E1) in Hok.
    apply wp_try. eapply wp_post; [by apply wp_applyPlugins|].
    intros [e|[]] h2 [E2 A2]; [split; [by transitivity h1|done]|]. apply (apply_ok_unmoved _ _ E2) in Hok.
    assert (E02 : unmoved h h2) by (by transitivity h1). specialize (A2 eq_refl).
    destruct (negb reboot && _) eqn:Hmain.
    + eapply wp_post; [by apply wp_PluginApply|]. intros r h3 [E3 A3].
      split; [by transitivity h2|]. intros -> _. split.
      { intros p Hp%A2. by apply (unasking_extends h2), Hp; apply unmoved_unasking. }
      destruct (UsingSystemdMode vars); [by destruct reboot|auto].
    + apply wp_ret. split; [done|]. intros _ ->. split; [done|].
      destruct (UsingSystemdMode vars); [|discriminate Hmain].
      apply (service_current_prefix h); [by apply unmoved_prefix|]. by apply Hres.
  - intros [e|[]] h1 [E1 A1]; [by apply daemon_result_same|].
    pose proof (unmoved_unasking _ _ E1) as U1. apply (unasking_first _ _ _ U1) in Hf.
    destruct reboot.
    + apply wp_bind. eapply wp_post; [apply wp_applyReboot; [by apply (reboot_ok_unmoved h); auto|by exists f]|].
      by intros [e|r] h2 _; apply daemon_result_same.
    + apply wp_finishApply with f; auto. by intros Hm; apply Hres.
Qed.
End applying.

(** ** Asking the plugins and the systemd service *)

Section asking.
Context (vars : Vars) (attempts : nat) (dn : NodeReconciler).
Abbreviation G := (daemon_allowed vars dn).

(** The node state's metadata is not seen again. *)
Definition unseen (h h' : dhistory) : Prop :=
  ∃ t, h' = h ++ t ∧ ∀ e, e ∈ t → seen_meta e = None.

#[export] Instance unseen_preorder : PreOrder unseen.
Proof.
  split.
  - intros h. exists []. split; [by rewrite app_nil_r|set_solver].
  - intros h1 h2 h3 (t & -> & Ht) (t' & -> & Ht'). exists (t ++ t'). rewrite app_assoc. set_solver.
Qed.

Lemma unseen_last_meta h h' : unseen h h' → last_meta h' = last_meta h.
Proof.
  intros (t & -> & Ht). unfold last_meta. rewrite foldl_app.
  induction t as [|e t IH] using rev_ind; [done|]. rewrite foldl_snoc.
  rewrite (Ht e ltac:(set_solver)). apply IH. intros e' He'. apply Ht. set_solver.
Qed.

Lemma unseen_first h h' f : unseen h h' → first_fetched h = Some f → first_fetched h' = Some f.
Proof. intros (t & -> & _). apply first_fetched_app. Qed.

Lemma unseen_prefix h h' : unseen h h' → h `prefix_of` h'.
Proof. intros (t & -> & _). by exists t. Qed.

Lemma unmoved_unseen h h' : unmoved h h' → unseen h h'.
Proof. intros (t & -> & Ht). exists t. split; [done|]. intros e He. by apply Ht. Qed.

Lemma unseen_snoc h e : seen_meta e = None → unseen h (h ++ [e]).
Proof. intros H. exists [e]. split; [done|]. by intros e' ->%list_elem_of_singleton. Qed.

Lemma no_drain_snoc h e : asks_drain e = false → no_drain_asked h → no_drain_asked (h ++ [e]).
Proof. intros He H e' [?| ->%list_elem_of_singleton]%elem_of_app; auto. Qed.

(** The specification and generation handed to the plugins. *)
Definition as_fetched (h : dhistory) (s : SriovNetworkNodeState) : Prop :=
  ∃ f, first_fetched h = Some f ∧ ns_Spec s = ns_Spec f ∧ ns_Generation s = ns_Generation f.

Lemma as_fetched_unseen h h' s : unseen h h' → as_fetched h s → as_fetched h' s.
Proof. intros E (f & Hf & ?). exists f. split; [by eapply unseen_first|done]. Qed.

(** One plugin: what it says of a drain is what the history says. *)
Lemma wp_OnNodeStateChange p s (h : w_state dw) :
  as_fetched h s →
  wp dw G (host (perform (OnNodeStateChange p s)))
    (λ r h', unseen h h' ∧
             ∀ reboot, r = inr (false, reboot) → no_drain_asked h → no_drain_asked h') h.
Proof.
  intros Hf. unfold host. apply wp_perform; [exact Hf|]. intros x h' ->. apply wp_ret.
  split; [by apply unseen_snoc|]. intros reboot Hr. apply no_drain_snoc. by destruct x; simplify_eq/=.
Qed.

Lemma wp_checkAdditional ps s reboot drain (h : w_state dw) :
  as_fetched h s →
  wp dw G (checkAdditional ps s reboot drain)
    (λ r h', unseen h h' ∧
             ∀ reboot', r = inr (reboot', false) →
               drain = false ∧ (no_drain_asked h → no_drain_asked h')) h.
Proof.
  revert h reboot drain. induction ps as [|p ps IH]; intros h reboot drain Hf; cbn [checkAdditional].
  { apply wp_ret. split; [reflexivity|]. by intros reboot' [= <- <-]. }
  apply wp_try. eapply wp_post; [by apply wp_OnNodeStateChange|].
  intros [e|[d r]] h1 [E1 D1]; [split; [done|discriminate]|].
  eapply wp_post; [apply IH; by eapply as_fetched_unseen|].
  intros res h2 [E2 D2]. split; [by transitivity h1|]. intros reboot' ->.
  destruct (D2 _ eq_refl) as [[-> ->]%orb_false_elim D2']. naive_solver.
Qed.

Lemma wp_checkOnNodeStateChange s (h : w_state dw) :
  as_fetched h s →
  wp dw G (checkOnNodeStateChange dn s)
    (λ r h', unseen h h' ∧
             ∀ reboot, r = inr (reboot, false) → no_drain_asked h → no_drain_asked h') h.
Proof.
  intros Hf. apply wp_try. eapply wp_post; [by apply wp_OnNodeStateChange|].
  intros [e|[d r]] h1 [E1 D1]; [split; [done|discriminate]|].
  eapply wp_post; [apply wp_checkAdditional; by eapply as_fetched_unseen|].
  intros res h2 [E2 D2]. split; [by transitivity h1|]. intros reboot ->.
  destruct (D2 _ eq_refl) as [-> D2']. naive_solver.
Qed.

Lemma unmoved_no_drain h h' : unmoved h h' → no_drain_asked h → no_drain_asked h'.
Proof. intros E%unmoved_unasking. by apply unasking_no_drain. Qed.

Lemma wp_writeSystemdConfigFile s (h : w_state dw) :
  wp dw G (writeSystemdConfigFile s)
    (λ r h', unseen h h' ∧ (r = inr false → no_drain_asked h → no_drain_asked h') ∧
             (r = inr false → existT (WriteConfFile s) (inr false) ∈ h')) h.
Proof.
  unfold writeSystemdConfigFile. apply wp_try. unfold host at 1. apply wp_perform; [done|].
  intros x h1 ->. apply wp_ret. destruct x as [e|m]; [split; [by apply unseen_snoc|by split]|].
  eapply wp_post.
  { instantiate (1 := λ r h', unmoved (h ++ [existT (WriteConfFile s) (inr m)]) h' ∧
                             (∀ b, r = inr b → b = m)).
    apply (wp_steady_try dw G unmoved); [|by intros e h' E|].
    { destruct m; unfold hostE; steady. by apply still_request. }
    intros [] h2 E2. apply (wp_steady_try dw G unmoved).
    - unfold hostE. steady. by apply still_request.
    - intros e h3 E3. split; [by transitivity h2|discriminate].
    - intros [] h3 E3. apply wp_ret. split; [by transitivity h2|]. by intros b [= ->]. }
  intros r h' [E Hm]. split_and!.
  - etransitivity; [|by apply unmoved_unseen, E]. by apply unseen_snoc.
  - intros -> Hno. apply (unmoved_no_drain _ _ E), no_drain_snoc; [|done]. cbn. symmetry. by apply Hm.
  - intros ->. rewrite <- (Hm false eq_refl) in E. destruct E as (t & -> & _). set_solver.
Qed.

(** The services have left a result. *)
Definition result_read (h : dhistory) : Prop := ∃ r, existT ReadSriovResult (inr (Some r)) ∈ h.

Lemma wp_CheckSystemdStatus (h : w_state dw) :
  wp dw G (CheckSystemdStatus vars)
    (λ r h', unseen h h' ∧ ∀ res ex, r = inr (res, ex) →
       (ex = true ∨ UsingSystemdMode vars = false → no_drain_asked h → no_drain_asked h') ∧
       (ex = true → is_Some res ∧ result_read h')) h.
Proof.
  unfold CheckSystemdStatus. destruct (UsingSystemdMode vars); cbn [negb].
  2:{ apply wp_ret. split; [reflexivity|]. by intros res ex [= <- <-]. }
  apply wp_try. unfold host at 1. apply wp_perform; [done|]. intros x h1 ->. apply wp_ret.
  destruct x as [e|b1]; [split; [by apply unseen_snoc|discriminate]|].
  apply wp_try. unfold host at 1. apply wp_perform; [done|]. intros x h2 ->. apply wp_ret.
  assert (E2 : unseen h ((h ++ [existT (IsServiceEnabled SriovServicePath) (inr b1)])
                 ++ [existT (IsServiceEnabled SriovPostNetworkServicePath) x])).
  { etransitivity; by apply unseen_snoc. }
  destruct x as [e|b2]; [split; [done|discriminate]|].
  destruct b1, b2; cbn [andb];
    try (apply wp_ret; split; [done|]; intros res ex [= <- <-]; split; [by intros [?|?]|done]).
  apply wp_try. unfold host at 1. apply wp_perform; [done|]. intros x h3 ->. apply wp_ret.
  assert (E3 : unseen h _) by (etransitivity; [exact E2|by apply (unseen_snoc _ (existT ReadSriovResult x))]).
  destruct x as [e|o]; [split; [done|discriminate]|]. apply wp_ret. split; [done|].
  intros res ex [= <- <-]. split.
  2:{ intros Ho%bool_decide_eq_true. split; [done|]. destruct Ho as [r ->]. exists r. set_solver. }
  intros [Ho%bool_decide_eq_true|?] Hno; [|done]. repeat apply no_drain_snoc; try done.
  by destruct Ho as [? ->].
Qed.
End asking.

(** ** The whole reconciliation *)

Section reconciling.
Context (vars : Vars) (attempts : nat) (dn : NodeReconciler).
Abbreviation G := (daemon_allowed vars dn).

Lemma hasCurrent_spec s v : hasCurrent s v = true → currentOf (ns_meta s) = Some v.
Proof. unfold hasCurrent, currentOf. by intros ?%ObjectHasAnnotation_lookup. Qed.

Lemma hasDesired_spec s v : hasDesired s v = true → desiredOf (ns_meta s) = Some v.
Proof. unfold hasDesired, desiredOf. by intros ?%ObjectHasAnnotation_lookup. Qed.

Lemma hasCurrent_not s v : hasCurrent s v = false → currentOf (ns_meta s) ≠ Some v.
Proof.
  unfold hasCurrent, currentOf, ObjectHasAnnotation, GetAnnotations. intros H E.
  change (obj_meta s) with (ns_meta s) in H. rewrite E in H. by rewrite String.eqb_refl in H.
Qed.

(** Going on after [handleDrain] is allowed by the annotations. *)
Lemma wp_handleDrain s reboot (h : w_state dw) :
  last_meta h = Some (ns_meta s) →
  wp dw G (handleDrain vars s reboot)
    (λ r h', unasking h h' ∧
       (r.2 = inr false → r.1 = s ∧ apply_ok vars dn h' ∧ (reboot = true → reboot_ok vars dn h'))) h.
Proof.
  intros Hm. unfold handleDrain.
  assert (Hann : ∀ a, wp dw G ('(s', err) ← annotate s a;
             Ret (s', match err with Some e => inl e | None => inr true end))
             (λ r h', unasking h h' ∧
                (r.2 = inr false → r.1 = s ∧ apply_ok vars dn h' ∧ (reboot = true → reboot_ok vars dn h'))) h).
  { intros a. apply (wp_steady_bind dw G unasking); [apply mild_of, shows_annotate|].
    by intros [s' [e|]] h' E. }
  assert (Hwait : unasking h h) by reflexivity.
  destruct (hasCurrent s DrainComplete) eqn:Hc.
  - apply hasCurrent_spec in Hc.
    destruct (reboot && negb (hasDesired s RebootRequired)) eqn:Hr.
    { destruct (hasDesired s DrainIdle); [done|apply Hann]. }
    apply wp_ret. split; [done|]. intros _. split_and!; [done|by exists (ns_meta s); eauto|].
    intros ->. exists (ns_meta s). split; [done|]. left. split; [done|].
    apply hasDesired_spec. by destruct (hasDesired s RebootRequired).
  - destruct (hasCurrent s Draining) eqn:Hdr.
    { destruct (reboot && negb (hasDesired s RebootRequired)); [|done].
      destruct (hasDesired s DrainIdle); [done|apply Hann]. }
    destruct (DisableDrain vars) eqn:Hd; [|apply Hann].
    assert (undrained vars (ns_meta s)) by (split; [done|by apply hasCurrent_not]).
    apply wp_ret. split; [done|]. intros _. split_and!; [done|by exists (ns_meta s); eauto|].
    intros _. exists (ns_meta s); eauto.
Qed.

Lemma wp_drainAndApply s reboot drain res g f (h : w_state dw) :
  last_meta h = Some (ns_meta s) → (drain = false → no_drain_asked h) →
  (UsingSystemdMode vars = true → reboot = false → is_Some res ∧ service_current h) →
  first_fetched h = Some f → g = ns_Generation f → ns_Generation s = ns_Generation f →
  wp dw G (drainAndApply vars attempts dn s reboot drain res g) (daemon_result vars dn) h.
Proof.
  intros Hm Hdrain Hres Hf Hg Hgs. unfold drainAndApply. apply wp_bind.
  eapply (wp_post dw G _ (λ r h', unasking h h' ∧
    (r.2 = inr false → isDrainCompleted vars drain r.1 = true →
     r.1 = s ∧ apply_ok vars dn h' ∧ (reboot = true → reboot_ok vars dn h')))).
  { destruct (drain || negb (hasCurrent s DrainIdle)) eqn:Hc.
    { eapply wp_post; [by apply wp_handleDrain|]. intros r h' [? H]. split; auto. }
    apply wp_ret. split; [reflexivity|]. cbn [fst snd].
    apply orb_false_elim in Hc as [-> Hc%negb_false_iff%hasCurrent_spec]. intros _.
    unfold isDrainCompleted. destruct (DisableDrain vars) eqn:Hd.
    { intros _. assert (undrained vars (ns_meta s)) by (split; [done|by rewrite Hc]).
      split_and!; [done|by exists (ns_meta s); eauto|]. intros _. exists (ns_meta s); eauto. }
    destruct (hasDesired s DrainIdle) eqn:Hi; cbn [negb].
    - intros _. apply hasDesired_spec in Hi. assert (undisturbed h (ns_meta s)) by (split_and!; auto).
      split_and!; [done| |intros _]; exists (ns_meta s); eauto.
    - intros Hc'%hasCurrent_spec. rewrite Hc in Hc'. vm_compute in Hc'. discriminate. }
  intros [s1 [e|[]]] h1 [E1 H]; [by apply daemon_result_same| |].
  - apply (wp_steady_bind dw G unasking); [apply mild_updateSyncState|].
    by intros [s2 [e|]] h2 _; apply daemon_result_same.
  - destruct (isDrainCompleted vars drain s1) eqn:Hc; [|by apply daemon_result_same].
    destruct (H eq_refl Hc) as (E & Ha & Hr). cbn in E. subst s1. apply wp_apply with f; auto.
    + intros H1 H2. destruct (Hres H1 H2). split; [done|].
      apply (service_current_prefix h); [by apply unasking_prefix|done].
    + by eapply unasking_first.
Qed.

Lemma wp_configure s res ex g f (h : w_state dw) :
  first_fetched h = Some f → g = ns_Generation f → ns_Spec s = ns_Spec f →
  (ex = true ∨ UsingSystemdMode vars = false → no_drain_asked h) →
  (ex = true → is_Some res ∧ result_read h) →
  wp dw G (configure vars attempts dn s res ex g) (daemon_result vars dn) h.
Proof.
  intros Hf Hg Hspec Hno Hres. unfold configure. apply wp_bind.
  eapply wp_post; [apply wp_updateSyncState|]. intros [s1 [e|]] h1 (E1 & Hs1 & Hm1);
    [by apply daemon_result_same|].
  destruct (ns_Generation s1 =? g) eqn:Hgen; [|by apply daemon_result_same]. apply Z.eqb_eq in Hgen.
  apply (unasking_first _ _ _ E1) in Hf. specialize (Hm1 eq_refl). cbn [fst snd] in *.
  apply wp_bind. eapply wp_post.
  { apply wp_checkOnNodeStateChange. exists f. split_and!; [done|congruence..]. }
  intros [e|[reboot drain]] h2 [E2 D2]; [by apply daemon_result_same|].
  apply (unseen_first _ _ _ E2) in Hf. rewrite <- (unseen_last_meta _ _ E2) in Hm1.
  assert (Hno2 : ex = true ∨ UsingSystemdMode vars = false → drain = false → no_drain_asked h2).
  { intros Hex ->. apply (D2 reboot eq_refl). apply (unasking_no_drain _ _ E1). auto. }
  clear D2. destruct (UsingSystemdMode vars) eqn:Hmode.
  2:{ apply wp_drainAndApply with f; auto; congruence. }
  apply wp_bind. eapply wp_post; [apply wp_writeSystemdConfigFile|].
  intros [e|m] h3 (E3 & D3 & W3); [by apply daemon_result_same|].
  apply (unseen_first _ _ _ E3) in Hf as Hf3.
  apply wp_drainAndApply with f; auto; [..|congruence].
  - by rewrite (unseen_last_meta _ _ E3).
  - intros [[-> ->]%orb_false_elim Hex%negb_false_iff]%orb_false_elim. apply D3; auto.
  - intros _ [_ [[_ ->]%orb_false_elim Hex%negb_false_iff]%orb_false_elim]%orb_false_elim.
    destruct (Hres Hex) as [? [r Hr]]. split; [done|]. split.
    + exists s1, f. split_and!; [done|congruence|by apply W3].
    + exists r. eapply prefix_elem, Hr. etransitivity; [by apply unasking_prefix, E1|].
      etransitivity; [apply (unseen_prefix _ _ E2)|apply (unseen_prefix _ _ E3)].
Qed.

Lemma wp_checkHostStateDrift s (h : w_state dw) :
  wp dw G (checkHostStateDrift dn s) (λ r h', unasking h h' ∧ ns_Spec r.1 = ns_Spec s) h.
Proof.
  unfold checkHostStateDrift. destruct (_ && _).
  - apply (wp_steady_bind dw G unmoved); [by apply still_request|].
    intros [e|] h1 E1%unmoved_unasking; [done|]. destruct (_ || _); [|done].
    apply wp_bind. eapply wp_post; [apply wp_updateSyncState|].
    intros [s1 err] h2 (E2 & Hs & _). apply wp_ret. split; [by transitivity h1|done].
  - apply (wp_steady_bind dw G unmoved); [apply still_of, talks_checkPlugins|].
    intros r h1 E1%unmoved_unasking. done.
Qed.

Lemma wp_refresh c s (h : w_state dw) :
  wp dw G (refresh vars dn c s) (λ r h', unasking h h' ∧ ns_Spec r.1 = ns_Spec s) h.
Proof.
  unfold refresh. apply wp_bind. eapply wp_post; [apply wp_checkHostStateDrift|].
  intros [s1 [e|[]]] h1 [E1 Hs1]; [done..|]. cbn [fst snd] in *. apply wp_bind.
  eapply (wp_post dw G _ (λ r h', unasking h h' ∧ ns_Spec r.1 = ns_Spec s)).
  { destruct (shouldUpdateStatus c s1); [|done]. eapply wp_post; [apply wp_updateSyncState|].
    intros r h2 (E2 & Hs2 & _). split; [by transitivity h1|congruence]. }
  intros [s2 [e|]] h2 [E2 Hs2]; [done|]. apply (wp_steady_bind dw G unmoved).
  { destruct (_ && _); [|steady]. unfold getDevicePluginPodsForNode, kube. steady.
    - by apply still_request.
    - apply still_of, talks_tryUnblock. }
  intros r h3 E3%unmoved_unasking. apply wp_ret. split; [by transitivity h2|done].
Qed.

Lemma wp_updateStatusFromHost s (h : w_state dw) :
  wp dw G (updateStatusFromHost vars s)
    (λ r h', unasking h h' ∧ ∀ s', r = inr s' → ns_Spec s' = ns_Spec s) h.
Proof.
  unfold updateStatusFromHost.
  apply (wp_steady_try dw G unmoved); [unfold host; steady; by apply still_request| |].
  { intros e h' E%unmoved_unasking. by split. }
  intros ifaces h1 E1%unmoved_unasking. apply (wp_steady_try dw G unmoved).
  - destruct (ManageSoftwareBridges vars); unfold host; steady. by apply still_request.
  - intros e h' E%unmoved_unasking. split; [by transitivity h1|done].
  - intros b h2 E2%unmoved_unasking. apply (wp_steady_try dw G unmoved).
    + unfold host; steady; by apply still_request.
    + intros e h' E%unmoved_unasking. split; [by transitivity h1; [|transitivity h2]|done].
    + intros rdma h3 E3%unmoved_unasking. apply wp_ret. split.
      * by transitivity h1; [|transitivity h2].
      * by intros s' [= <-].
Qed.

Lemma wp_Reconcile_daemon name :
  wp dw G (Reconcile vars attempts dn name) (daemon_result vars dn) [].
Proof.
  unfold Reconcile. apply wp_perform; [done|]. intros x h1 ->. destruct x as [e|f].
  { apply wp_ret, daemon_result_same. by destruct (IsNotFound e). }
  set (h1 := [] ++ _).
  assert (Hf : first_fetched h1 = Some f) by done.
  assert (Hno : no_drain_asked h1) by (by intros e ->%list_elem_of_singleton). clearbody h1.
  apply (wp_steady_bind dw G unasking); [apply mild_of, shows_addRemove|].
  intros [e|[]] h2 E2; [by apply daemon_result_same..|].
  destruct (_ || _); [by apply daemon_result_same|].
  apply (unasking_first _ _ _ E2) in Hf. apply (unasking_no_drain _ _ E2) in Hno.
  apply wp_bind. eapply wp_post; [apply (wp_updateStatusFromHost f)|]. cbn beta.
  intros [e|s] h3 [E3 Hs]; [by apply daemon_result_same|]. specialize (Hs s eq_refl).
  apply (unasking_first _ _ _ E3) in Hf. apply (unasking_no_drain _ _ E3) in Hno.
  apply wp_bind. eapply wp_post; [apply wp_CheckSystemdStatus|].
  intros [e|[res ex]] h4 [E4 H4].
  { apply (wp_steady_bind dw G unasking); [apply mild_updateSyncState|].
    by intros [s1 [e'|]] h5 _; apply daemon_result_same. }
  destruct (H4 _ _ eq_refl) as [Hno4 Hres]. clear H4. apply (unseen_first _ _ _ E4) in Hf.
  destruct (lastAppliedGeneration dn =? ns_Generation f).
  2:{ apply wp_configure with f; auto. }
  apply wp_bind. eapply wp_post; [apply wp_refresh|].
  intros [s1 [e|[r|]]] h5 [E5 Hs5]; [by apply daemon_result_same..|].
  apply wp_configure with f; auto.
  - by eapply unasking_first.
  - cbn in *. congruence.
  - intros Hex. apply (unasking_no_drain _ _ E5). auto.
  - intros Hex. destruct (Hres Hex) as [? [r Hr]]. split; [done|]. exists r.
    eapply prefix_elem, Hr. by apply unasking_prefix.
Qed.
End reconciling.

(** ** The guarantees, on the runs *)

(** C2: The daemon touches the node only when it may: in every run of
    [Reconcile], whatever the API server, the plugins and the host answer, a
    plugin is applied or the node rebooted only if the node state as last seen
    says DrainComplete (and, for a reboot, that a reboot was requested), or it
    says Idle twice and nothing in this reconciliation asked for a drain, or
    draining is disabled in the operator configuration and the node is not in
    the middle of a drain. *)
Theorem Reconcile_configures_only_when_drained (vars : Vars) (attempts : nat) (dn : NodeReconciler)
    (name : string) (tr : list (dhistory * DaemonReq)) (res : NodeReconciler * result DaemonError Result)
    (h' : dhistory) (Hexec : exec dw (Reconcile vars attempts dn name) [] tr res h') :
  (∀ h p, (h, PluginApply p) ∈ tr →
    ∃ m, last_meta h = Some m ∧ (currentOf m = Some DrainComplete ∨ undisturbed h m ∨ undrained vars m)) ∧
  (∀ h, (h, RunReboot) ∈ tr →
    ∃ m, last_meta h = Some m ∧
      (currentOf m = Some DrainComplete ∧ desiredOf m = Some RebootRequired ∨ undisturbed h m ∨ undrained vars m)).
Proof.
  destruct (wp_exec dw _ _ _ _ _ _ _ (wp_Reconcile_daemon vars attempts dn name) Hexec) as [_ Htr].
  rewrite Forall_forall in Htr. split; [intros h p Hin|intros h Hin]; exact (Htr _ Hin).
Qed.

(** C22: The daemon applies what it fetched: every plugin is asked about the
    specification and the generation of the node state the reconciliation
    started from, even if the object changed meanwhile; and the reconciler
    records a generation as applied only if it is that one and in this
    reconciliation every vendor plugin was applied without an error, and so was
    the main plugin; in systemd mode, where the services do its work, instead
    the file they read already had the specification that was fetched, and they
    had left a result (a failed one counts too: only the status shows it). *)
Theorem Reconcile_applies_fetched_generation (vars : Vars) (attempts : nat) (dn : NodeReconciler)
    (name : string) (tr : list (dhistory * DaemonReq)) (res : NodeReconciler * result DaemonError Result)
    (h' : dhistory) (Hexec : exec dw (Reconcile vars attempts dn name) [] tr res h') :
  (∀ h p s, (h, OnNodeStateChange p s) ∈ tr →
     ∃ f, first_fetched h = Some f ∧ ns_Spec s = ns_Spec f ∧ ns_Generation s = ns_Generation f) ∧
  (res.1 = dn ∨
   (∃ f, first_fetched h' = Some f ∧ lastAppliedGeneration res.1 = ns_Generation f) ∧
   all_applied vars dn h').
Proof.
  destruct (wp_exec dw _ _ _ _ _ _ _ (wp_Reconcile_daemon vars attempts dn name) Hexec) as [(_ & _ & _ & H) Htr].
  rewrite Forall_forall in Htr. split; [|exact H]. intros h p s Hin. exact (Htr _ Hin).
Qed.

(** No run of [Reconcile] dereferences the missing result of the systemd
    service: when the result file does not exist a reboot is required, and the
    code that reads it is not reached. *)
Theorem Reconcile_never_panics (vars : Vars) (attempts : nat) (dn : NodeReconciler) (name : string)
    (tr : list (dhistory * DaemonReq)) (res : NodeReconciler * result DaemonError Result) (h' : dhistory)
    (Hexec : exec dw (Reconcile vars attempts dn name) [] tr res h') : res.2 ≠ Panic.
Proof.
  destruct (wp_exec dw _ _ _ _ _ _ _ (wp_Reconcile_daemon vars attempts dn name) Hexec) as [(H & _) _]. exact H.
Qed.

(** *** A node on which the guarantees are exercised *)

Definition sample_state (current desired : string) : SriovNetworkNodeState :=
  mkNodeState (mkObjectMeta "n1" "ns" 3
      {[ NodeStateDrainAnnotationCurrent := current; NodeStateDrainAnnotation := desired ]} ∅ [])
    (mkNodeStateSpec [] (mkBridges []) (mkSystem "" ∅))
    (mkNodeStateStatus [] (mkBridges []) (mkSystem "" ∅) "" "" []).

(** A host where everything succeeds; the plugins answer [needs]. *)
Definition answer (s : SriovNetworkNodeState) (needs : bool * bool) (r : DaemonReq) : DaemonResp r :=
  match r with
  | GetNodeState _ => inr s
  | PatchNodeState _ obj => inr obj
  | GetNode n => inr (mkNode (mkObjectMeta n "" 1 ∅ ∅ []) "" false)
  | PatchNode _ obj => inr obj
  | StatusApply _ _ _ => None
  | Eventf _ _ _ _ | SendEvent _ _ => tt
  | TimeNow => 100
  | ListPods => inr []
  | DeletePod _ => None
  | GetPod n => inl ErrNotFound
  | PatchPod _ obj => inr obj
  | DiscoverSriovDevices => inr []
  | DiscoverBridges => inr (mkBridges [])
  | DiscoverRDMASubsystem => inr ""
  | IsServiceEnabled _ => inr true
  | ReadSriovResult => inr None
  | WriteConfFile _ => inr false
  | RemoveSriovResult | WriteSriovSupportedNics | ClearPCIAddressFolder => None
  | OnNodeStateChange _ _ => inr needs
  | CheckStatusChanges _ _ => inr false
  | PluginApply _ => None
  | GetRebootCount _ => inr 0
  | IncrementRebootCounter _ | ResetRebootCounter _ => None
  | Chroot | RunReboot => None
  | ExitChroot => tt
  end.

Definition answered (s : SriovNetworkNodeState) (needs : bool * bool) (h : dhistory) (r : DaemonReq)
    : DaemonResp r * dhistory := (answer s needs r, h ++ [existT r (answer s needs r)]).

Lemma answered_exec {A} s needs (p : daemonM A) :
  exec dw p [] (trace (answered s needs) p []) (run (answered s needs) p []).1
    (run (answered s needs) p []).2.
Proof. apply (run_exec dw (answered s needs) (λ _, True)); [done|exact I]. Qed.

Definition sample_daemon : NodeReconciler := mkNodeReconciler "generic" ["mellanox"] 2.
Definition baremetal : Vars := mkVars false false false false false.
Definition systemd : Vars := mkVars true false false false false.

(** The requests of a run, with the length of the conversation so far. *)
Definition numbered (tr : list (dhistory * DaemonReq)) : list (nat * DaemonReq) :=
  (λ hr, (length hr.1, hr.2)) <$> tr.

Lemma Reconcile_configures_only_when_drained_witness :
  ∃ h p, (h, PluginApply p) ∈ trace (answered (sample_state DrainComplete RebootRequired) (true, true))
             (Reconcile baremetal 3 sample_daemon "n1") [] ∧
    ∃ m, last_meta h = Some m ∧
      (currentOf m = Some DrainComplete ∨ undisturbed h m ∨ undrained baremetal m).
Proof.
  assert (H : numbered (trace (answered (sample_state DrainComplete RebootRequired) (true, true))
      (Reconcile baremetal 3 sample_daemon "n1") []) !! 12%nat = Some (12%nat, PluginApply "mellanox"))
    by (vm_compute; reflexivity).
  unfold numbered in H. rewrite list_lookup_fmap in H.
  destruct (trace _ _ _ !! 12%nat) as [[h r]|] eqn:E; [|discriminate H].
  injection H as _ ->. apply list_elem_of_lookup_2 in E. exists h, "mellanox". split; [exact E|].
  eapply (Reconcile_configures_only_when_drained baremetal 3 sample_daemon "n1" _ _ _
    (answered_exec _ _ _)). exact E.
Defined.

Lemma Reconcile_applies_fetched_generation_witness :
  all_applied baremetal sample_daemon
    (run (answered (sample_state DrainIdle DrainIdle) (false, false))
       (Reconcile baremetal 3 sample_daemon "n1") []).2.
Proof.
  destruct (Reconcile_applies_fetched_generation baremetal 3 sample_daemon "n1" _ _ _
    (answered_exec (sample_state DrainIdle DrainIdle) (false, false) _)) as [_ [H|[_ H]]].
  - vm_compute in H. discriminate H.
  - exact H.
Defined.

Lemma Reconcile_never_panics_witness :
  (run (answered (sample_state DrainComplete RebootRequired) (false, false))
     (Reconcile systemd 3 sample_daemon "n1") []).1.2 ≠ Panic.
Proof.
  exact (Reconcile_never_panics systemd 3 sample_daemon "n1" _ _ _
    (answered_exec (sample_state DrainComplete RebootRequired) (false, false) _)).
Defined.
