(* ===== verification/RebootLimit.v ===== *)
(** * The reboot limit (pkg/daemon with pkg/host/internal/reboottracker)

    The daemon reboots the node at most [MaxRebootsPerGeneration] times for one
    generation of the node state before a configuration is completed, however
    often it is restarted and wherever it is interrupted.  The daemon is a client of
    the interface [RebootTrackerI]; the file of [RebootTracker] implements it. *)
From S2P Require Import Prelude GoLib Types Conditions Effects Kube RebootTracker.
From S2P Require Import Daemon DaemonSafety.

(** ** The interface *)

(** The operations as relations between states (an operation may fail in many
    ways), and what the daemon relies on: [tracked s t] says the store [s]
    holds the tracker [t]. *)
Class RebootTrackerI (S : Type) := {
  getCount : Z → S → string + Z → S → Prop;
  increment : Z → S → option string → S → Prop;
  reset : Z → S → option string → S → Prop;
  tracked : S → option RebootTrackerFile → Prop;
  getCount_ok : ∀ g s x s' t, tracked s t → getCount g s x s' →
    tracked s' t ∧ match x with inl _ => True | inr c => c = tracker_count g t end;
  increment_ok : ∀ g s x s' t, tracked s t → increment g s x s' →
    tracked s' (match x with None => tracker_incr g t | Some _ => t end);
  reset_ok : ∀ g s x s' t, tracked s t → reset g s x s' →
    tracked s' (match x with None => tracker_reset g | Some _ => t end);
}.

(** The tracker file implements it. *)
Section file.
Context (Marshal : RebootTrackerFile → string) (Unmarshal : string → string + RebootTrackerFile).
Context (Hyaml : ∀ t, Unmarshal (Marshal t) = inr t).

#[export] Program Instance file_tracker : RebootTrackerI Fs :=
  {| getCount g s x s' := ∃ tr, exec fs_world (RebootTracker.GetRebootCount Unmarshal g) s tr x s';
     increment g s x s' :=
       ∃ tr, exec fs_world (RebootTracker.IncrementRebootCounter Marshal Unmarshal g) s tr x s';
     reset g s x s' := ∃ tr, exec fs_world (RebootTracker.ResetRebootCounter Marshal g) s tr x s';
     tracked s t := holds Marshal t s |}.
Next Obligation.
  intros g s x s' t Ht [tr Hex].
  apply (wp_exec _ _ _ _ _ _ _ _ (RebootTracker.wp_get Marshal Unmarshal Hyaml g t s Ht) Hex).
Qed.
Next Obligation.
  intros g s x s' t Ht [tr Hex].
  destruct (wp_exec _ _ _ _ _ _ _ _
    (RebootTracker.wp_increment Marshal Unmarshal Hyaml g t s Ht) Hex) as [H _]. by destruct x.
Qed.
Next Obligation.
  intros g s x s' t Ht [tr Hex].
  destruct (wp_exec _ _ _ _ _ _ _ _ (RebootTracker.wp_write Marshal t _ s Ht) Hex) as [H _].
  by destruct x.
Qed.
End file.

(** ** A node with a tracker *)

Section limit.
Context {S : Type} `{RebootTrackerI S}.

(** The tracker's store; for the generation whose reboots are being counted,
    the reboots since the count started: at the first reboot for this
    generation, or at the last completed configuration. *)
Record Host := mkHost { h_store : S; h_generation : Z; h_reboots : Z }.

(** The bookkeeping the daemon does: the count follows the requests to the
    tracker.  What the requests have to do with configurations is added below
    ([node_step]). *)
Definition host_step (s : Host) (r : DaemonReq) : DaemonResp r → Host → Prop :=
  match r with
  | GetRebootCount g => λ x s', getCount g (h_store s) x (h_store s') ∧
      h_generation s' = h_generation s ∧ h_reboots s' = h_reboots s
  | IncrementRebootCounter g => λ x s', increment g (h_store s) x (h_store s') ∧
      match x with
      | None => h_generation s' = g ∧ h_reboots s' = if g =? h_generation s then h_reboots s else 0
      | Some _ => h_generation s' = h_generation s ∧ h_reboots s' = h_reboots s
      end
  | ResetRebootCounter g => λ x s', reset g (h_store s) x (h_store s') ∧
      match x with
      | None => h_generation s' = g ∧ h_reboots s' = 0
      | Some _ => h_generation s' = h_generation s ∧ h_reboots s' = h_reboots s
      end
  | RunReboot => λ _ s', s' = mkHost (h_store s) (h_generation s) (h_reboots s + 1)
  | _ => λ _ s', s' = s
  end.

Definition host_world : World DaemonResp := {| w_state := Host; w_step := host_step |}.

Definition stored_count (t : option RebootTrackerFile) : Z := from_option rt_RebootCount 0 t.

(** No reboot is forgotten by the tracker, which never exceeds the limit. *)
Definition counted (s : Host) : Prop :=
  ∃ t, tracked (h_store s) t ∧ 0 ≤ h_reboots s ≤ stored_count t ∧
    stored_count t ≤ MaxRebootsPerGeneration ∧
    (∀ t', t = Some t' → rt_Generation t' = h_generation s).

(** The next reboot is already on file. *)
Definition armed (s : Host) : Prop :=
  ∃ t, tracked (h_store s) t ∧ 0 ≤ h_reboots s < stored_count t ∧
    stored_count t ≤ MaxRebootsPerGeneration ∧
    (∀ t', t = Some t' → rt_Generation t' = h_generation s).

(** The guarantee: the invariant at every request, and below the limit at a
    reboot. *)
Definition limited (s : Host) (r : DaemonReq) : Prop :=
  counted s ∧ (r = RunReboot → h_reboots s < MaxRebootsPerGeneration).

Lemma armed_counted s : armed s → counted s.
Proof. intros (t & ? & ? & ? & ?). exists t. split_and!; [done|lia..|done]. Qed.

Lemma armed_limit s : armed s → h_reboots s < MaxRebootsPerGeneration.
Proof. intros (t & _ & ? & ? & _). lia. Qed.

Lemma untracked_step (s : w_state host_world) r x (s' : w_state host_world) :
  untracked r = true → w_step host_world s r x s' → s' = s.
Proof. destruct r; done. Qed.

(** A program without tracker requests, in a counted state. *)
Lemma wp_untracked {A} (p : daemonM A) (s : w_state host_world) :
  only untracked p → counted s → wp host_world limited p (λ _ s', s' = s) s.
Proof.
  intros Hp Hs. specialize (Hp tt). induction p as [a|r k IH]; [done|].
  destruct Hp as [Hr Hk]. split; [split; [done|by intros ->]|].
  intros x s' Hx. apply untracked_step in Hx as ->; [|done]. by apply IH, (Hk x tt).
Qed.

Lemma wp_untracked_bind {A B} (p : daemonM A) (f : A → daemonM B) Q (s : w_state host_world) :
  only untracked p → counted s → (∀ a, wp host_world limited (f a) Q s) →
  wp host_world limited (p ≫= f) Q s.
Proof.
  intros Hp Hs Hf. apply wp_bind. eapply wp_post; [by apply wp_untracked|]. intros a s' ->. apply Hf.
Qed.

Lemma wp_untracked_end {A} (p : daemonM A) (s : w_state host_world) :
  only untracked p → counted s → wp host_world limited p (λ _, counted) s.
Proof. intros Hp Hs. eapply wp_post; [by apply wp_untracked|]. by intros a s' ->. Qed.

(** ** The daemon on such a node *)

Context (vars : Vars) (attempts : nat).

Lemma tracker_count_stored g t :
  tracker_count g t = stored_count t ∨
  tracker_count g t = 0 ∧ ∃ t', t = Some t' ∧ rt_Generation t' ≠ g.
Proof.
  unfold tracker_count, trackerFor, stored_count. destruct t as [[g' c]|]; [|by left]. cbn.
  destruct (Z.eqb_spec g' g); [by left|right; naive_solver].
Qed.

(** Counting a reboot below the limit. *)
Lemma increment_armed g (s s1 s2 : Host) c x :
  counted s → host_step s (GetRebootCount g) (inr c) s1 → c < MaxRebootsPerGeneration →
  host_step s1 (IncrementRebootCounter g) x s2 →
  match x with None => armed s2 | Some _ => counted s2 end.
Proof.
  intros (t & Ht & Hr & Hm & Hg) (Hget & Eg1 & Er1) Hc (Hinc & Hx).
  destruct (getCount_ok _ _ _ _ _ Ht Hget) as [Ht1 ->].
  pose proof (increment_ok _ _ _ _ _ Ht1 Hinc) as Ht2. destruct x as [e|].
  { exists t. destruct Hx as [-> ->]. rewrite Er1, Eg1. done. }
  destruct Hx as [Eg2 Er2]. exists (tracker_incr g t). split; [done|].
  unfold tracker_incr, stored_count. cbn [from_option]. unfold MaxRebootsPerGeneration in *.
  rewrite Er2, Eg1, Er1. destruct (tracker_count_stored g t) as [E|(E & t' & -> & Hne)].
  - rewrite E in *. cbn [rt_RebootCount]. rewrite wrap64_small
      by (unfold in_int64, min_int64, max_int64; lia).
    split_and!; [destruct (g =? h_generation s); lia..|]. by intros t' [= <-].
  - rewrite E. cbn [rt_RebootCount]. change (wrap64 (0 + 1)) with 1. specialize (Hg _ eq_refl).
    destruct (Z.eqb_spec g (h_generation s)); [congruence|].
    split_and!; [lia..|]. by intros t'' [= <-].
Qed.

Lemma wp_applyReboot_limited s (w : w_state host_world) :
  counted w → wp host_world limited (applyReboot s) (λ _, counted) w.
Proof.
  intros Hw. unfold applyReboot. apply wp_try. unfold host.
  apply wp_perform; [by split|]. intros x w1 H1. apply wp_ret.
  assert (Hw1 : counted w1).
  { destruct Hw as (t & Ht & Hr & Hm & Hg), H1 as (Hget & Eg & Er). exists t.
    rewrite Eg, Er. by destruct (getCount_ok _ _ _ _ _ Ht Hget). }
  destruct x as [e|c]; [done|]. destruct (Z.leb_spec MaxRebootsPerGeneration c) as [|Hc].
  { apply wp_untracked_end; [|done]. steady; [only_request|apply untracked_updateSyncState]. }
  apply wp_try. unfold hostE at 1. apply wp_perform; [by split|]. intros x w2 H2. apply wp_ret.
  pose proof (increment_armed _ _ _ _ _ _ Hw H1 Hc H2) as Hw2. destruct x as [e|]; [done|].
  apply armed_counted in Hw2 as Hw2'.
  apply wp_untracked_bind; [only_request|done|]. intros [].
  apply wp_try. unfold rebootNode. apply wp_try, wp_untracked_bind; [only_request|done|].
  intros [e|]; [done|]. apply wp_ret, wp_bind. unfold hostE.
  apply wp_perform; [split; [done|]; intros _; by apply armed_limit|].
  intros x w3 H3. assert (Hw3 : counted w3).
  { cbn in H3. subst w3. destruct Hw2 as (t & ? & ? & ? & ?). exists t. cbn. split_and!; [done|lia..|done]. }
  apply wp_ret, wp_untracked_bind; [only_request|done|]. intros []. by destruct x.
Qed.

Lemma wp_finishApply_limited dn s res g (w : w_state host_world) :
  counted w → wp host_world limited (finishApply vars attempts dn s res g) (λ _, counted) w.
Proof.
  intros Hw. unfold finishApply. apply wp_untracked_bind; [|done|].
  { apply talks_untracked. destruct (BlockDevicePluginUntilConfigured vars); steady.
    - apply talks_waitForDevicePlugin.
    - apply talks_restartDevicePluginPod. }
  intros [e|[]]; [done|]. apply wp_untracked_bind; [apply untracked_annotate|done|].
  intros [s1 [e|]]; [done|]. destruct (if UsingSystemdMode vars then _ else _) as [[st le]|]; [|done].
  apply wp_untracked_bind; [apply talks_untracked, talks_updateStatusFromHost|done|].
  intros [e|s2]; [done|]. apply wp_untracked_bind; [apply untracked_updateSyncState|done|].
  intros [s3 [e|]]; [done|]. apply wp_perform; [by split|].
  intros x w1 [Hres Hx]. assert (counted w1) by (destruct Hw as (t & Ht & Hr & Hm & Hg);
    pose proof (reset_ok _ _ _ _ _ Ht Hres) as Ht1; destruct x as [e|], Hx as [Eg Er];
    [exists t; rewrite Eg, Er; done|];
    exists (tracker_reset g); rewrite Er; split_and!; [done|done..|by intros t' [= <-]]).
  by destruct x.
Qed.

Lemma wp_drainAndApply_limited dn s reboot drain res g (w : w_state host_world) :
  counted w → wp host_world limited (drainAndApply vars attempts dn s reboot drain res g) (λ _, counted) w.
Proof.
  intros Hw. unfold drainAndApply. apply wp_untracked_bind; [|done|].
  { destruct (_ || _); [apply untracked_handleDrain|steady]. }
  intros [s1 [e|[]]]; [done| |].
  { apply wp_untracked_end; [|done]. steady. apply untracked_updateSyncState. }
  destruct (isDrainCompleted _ _ _); [|done]. apply wp_untracked_bind; [|done|].
  { unfold hostE. steady.
    - apply talks_untracked, talks_restartDevicePluginPod.
    - apply untracked_applyPlugins.
    - only_request. }
  intros [e|[]]; [done|]. destruct reboot; [|by apply wp_finishApply_limited].
  apply wp_bind. eapply wp_post; [by apply wp_applyReboot_limited|]. by intros [e|r] w1 Hw1.
Qed.

Lemma wp_configure_limited dn s res ex g (w : w_state host_world) :
  counted w → wp host_world limited (configure vars attempts dn s res ex g) (λ _, counted) w.
Proof.
  intros Hw. unfold configure. apply wp_untracked_bind; [apply untracked_updateSyncState|done|].
  intros [s1 [e|]]; [done|]. destruct (negb _); [done|].
  apply wp_untracked_bind; [apply untracked_checkOnNodeStateChange|done|].
  intros [e|[r d]]; [done|]. destruct (UsingSystemdMode vars); [|by apply wp_drainAndApply_limited].
  apply wp_untracked_bind; [apply untracked_writeSystemdConfigFile|done|].
  intros [e|m]; [done|]. by apply wp_drainAndApply_limited.
Qed.

Lemma wp_Reconcile_limited dn name (w : w_state host_world) :
  counted w → wp host_world limited (Reconcile vars attempts dn name) (λ _, counted) w.
Proof.
  intros Hw. unfold Reconcile. apply wp_untracked_bind; [only_request|done|].
  intros [e|f]; [done|]. apply wp_untracked_bind; [apply shows_untracked, shows_addRemove|done|].
  intros [e|[]]; [done..|]. destruct (_ || _); [done|].
  apply wp_untracked_bind; [apply talks_untracked, talks_updateStatusFromHost|done|].
  intros [e|s]; [done|]. apply wp_untracked_bind; [apply untracked_CheckSystemdStatus|done|].
  intros [e|[res ex]].
  { apply wp_untracked_end; [|done]. steady. apply untracked_updateSyncState. }
  destruct (_ =? _); [|by apply wp_configure_limited].
  apply wp_untracked_bind; [apply untracked_refresh|done|].
  intros [s1 [e|[r|]]]; [done..|]. by apply wp_configure_limited.
Qed.
End limit.

(** ** The node *)

Section node.
Context {S : Type} `{RebootTrackerI S} (vars : Vars) (dn : NodeReconciler).

(** The generation this reconciliation was started for. *)
Definition fetchedGeneration (h : dhistory) : Z := from_option (λ f, ns_Generation f) 0 (first_fetched h).

(** The node, with the conversation of this reconciliation.  The reboots are
    counted by what was fetched and done, not by what the tracker is told: a new
    count starts when a reboot for another fetched generation is put on file,
    and when the tracker is reset after a completed configuration
    ([all_applied]); a reset at any other moment forgets nothing. *)
Definition node_step (s : Host * dhistory) (r : DaemonReq) (x : DaemonResp r) (s' : Host * dhistory) : Prop :=
  s'.2 = s.2 ++ [existT r x] ∧
  let same := h_generation s'.1 = h_generation s.1 ∧ h_reboots s'.1 = h_reboots s.1 in
  let g0 := fetchedGeneration s.2 in
  match r return DaemonResp r → Prop with
  | GetRebootCount g => λ x, getCount g (h_store s.1) x (h_store s'.1) ∧ same
  | IncrementRebootCounter g => λ x, increment g (h_store s.1) x (h_store s'.1) ∧
      match x with
      | None => h_generation s'.1 = g0 ∧ h_reboots s'.1 = if g0 =? h_generation s.1 then h_reboots s.1 else 0
      | Some _ => same
      end
  | ResetRebootCounter g => λ x, reset g (h_store s.1) x (h_store s'.1) ∧
      match x with
      | None => (all_applied vars dn s.2 → h_generation s'.1 = g0 ∧ h_reboots s'.1 = 0) ∧
                (¬ all_applied vars dn s.2 → same)
      | Some _ => same
      end
  | RunReboot => λ _, s'.1 = mkHost (h_store s.1) (h_generation s.1) (h_reboots s.1 + 1)
  | _ => λ _, s'.1 = s.1
  end x.

Definition node_world : World DaemonResp := {| w_state := Host * dhistory; w_step := node_step |}.

(** A request the daemon is allowed to make has the effect of the bookkeeping. *)
Lemma node_step_host s r x s' :
  node_step s r x s' → daemon_allowed vars dn s.2 r → host_step s.1 r x s'.1.
Proof using Type.
  intros [_ Hs] Ha.
  assert (Hg : ∀ g, for_fetched s.2 g → fetchedGeneration s.2 = g).
  { intros g (f & Hf & ->). unfold fetchedGeneration. by rewrite Hf. }
  destruct r; try done; cbn in *.
  - rewrite (Hg _ Ha) in Hs. by destruct x.
  - destruct Ha as [Hf Happ]. rewrite (Hg _ Hf) in Hs. destruct Hs as [Hr Hx]. split; [done|].
    destruct x; [done|]. by apply (proj1 Hx).
Qed.

(** So a run of the daemon on the node is one of its bookkeeping. *)
Lemma node_exec_host {A} (p : daemonM A) Q s tr a s' :
  wp dw (daemon_allowed vars dn) p Q s.2 → exec node_world p s tr a s' →
  exec host_world p s.1 ((λ sr, (sr.1.1, sr.2)) <$> tr) a s'.1.
Proof using Type.
  intros Hwp Hex. induction Hex as [a s|r k s x s1 tr a s2 Hstep Hex IH]; [constructor|].
  destruct Hwp as [HG Hk]. cbn [fmap list_fmap]. econstructor; [by apply node_step_host|].
  apply IH, Hk. exact (proj1 Hstep).
Qed.

Lemma cut_Reconcile_limited attempts name n (s : Host) tr a s' :
  counted s → exec node_world (cut n (Reconcile vars attempts dn name)) (s, []) tr a s' →
  Forall (λ sr, limited sr.1 sr.2) ((λ sr, (sr.1.1, sr.2)) <$> tr) ∧ counted s'.1.
Proof using Type.
  intros Hs Hex. eapply node_exec_host in Hex.
  2:{ apply (wp_cut dw _ (λ _, True) _ n (daemon_result vars dn)); [done..|apply wp_Reconcile_daemon]. }
  assert (Hwp : wp host_world limited (cut n (Reconcile vars attempts dn name)) (λ _, counted) s).
  { eapply (wp_cut host_world limited counted); [by intros ? ? [? _]| |by apply wp_Reconcile_limited].
    by intros ? ? ?. }
  by destruct (wp_exec host_world _ _ _ _ _ _ _ Hwp Hex).
Qed.
End node.

(** ** The life of a node *)

(** One start of the daemon's reconciliation, in any state of the process,
    stopped after [se_requests] requests (the reboot takes the daemon down). *)
Record Session := mkSession {
  se_vars : Vars;
  se_attempts : nat;
  se_daemon : NodeReconciler;
  se_name : string;
  se_requests : nat;
}.

Definition session (se : Session) : daemonM (option (NodeReconciler * result DaemonError Result)) :=
  cut (se_requests se) (Reconcile (se_vars se) (se_attempts se) (se_daemon se) (se_name se)).

(** One session after the other, each with a conversation of its own; the
    requests of all of them with the state of the host they meet. *)
Section life.
Context {S : Type} `{RebootTrackerI S}.

Inductive lives : list Session → Host (S := S) → list (Host (S := S) * DaemonReq) → Host (S := S) → Prop :=
| lives_end s : lives [] s [] s
| lives_session se l s tr a s1 h1 tr' s2 :
    exec (node_world (se_vars se) (se_daemon se)) (session se) (s, []) tr a (s1, h1) →
    lives l s1 tr' s2 →
    lives (se :: l) s (((λ sr, (sr.1.1, sr.2)) <$> tr) ++ tr') s2.
End life.

(** C3: The reboot limit: on a node with any implementation of the tracker's
    interface, through any number of reconciliations, each of them possibly
    interrupted anywhere (by the reboot itself, a crash, a restart of the
    daemon), with any answers of the API server, the plugins and the host,
    the daemon starts a reboot only if fewer than five were started for the
    generation it fetched since its last completed configuration; so there are
    never more than five.  A configuration is completed when all plugins were
    applied; in systemd mode when the vendor plugins were, the file of the
    services is up to date and they have left a result, a failed one included. *)
Theorem reboots_limited {S : Type} `{RebootTrackerI S} (l : list Session) (s s' : Host)
    (tr : list (Host * DaemonReq)) (Hs : counted s) (Hlives : lives l s tr s') :
  (∀ w, (w, RunReboot) ∈ tr → h_reboots w < MaxRebootsPerGeneration) ∧
  h_reboots s' ≤ MaxRebootsPerGeneration.
Proof.
  assert (Forall (λ sr, limited sr.1 sr.2) tr ∧ counted s') as [Htr (t & _ & ? & ? & _)].
  { induction Hlives as [s|se l s tr a s1 h1 tr' s2 Hex Hl IH]; [by split|].
    destruct (cut_Reconcile_limited _ _ _ _ _ _ _ _ _ Hs Hex) as [H1 H2].
    destruct (IH H2) as [H3 H4]. split; [by apply Forall_app|done]. }
  rewrite Forall_forall in Htr. split; [|lia]. intros w Hin. by apply (Htr _ Hin).
Qed.

(** *** A node that keeps asking for reboots, with a tracker file *)

#[local] Instance sample_tracker : RebootTrackerI Fs :=
  file_tracker sample_marshal sample_unmarshal sample_yaml.

(** A disk that is too full for a reset. *)
Definition full_handle (s : Fs) (r : FsReq) : FsResp r * Fs :=
  match r with MkdirAll => (Some "no space left on device", s) | r => fs_handle s r end.

Definition tracked_node (s : Host * dhistory) (r : DaemonReq) : DaemonResp r * (Host * dhistory) :=
  let said (x : DaemonResp r) (w : Host) := (x, (w, s.2 ++ [existT r x])) in
  match r return (DaemonResp r → Host → DaemonResp r * (Host * dhistory)) → DaemonResp r * (Host * dhistory) with
  | GetRebootCount g => λ said,
      let '(x, fs) := run fs_handle (RebootTracker.GetRebootCount sample_unmarshal g) (h_store s.1) in
      said x (mkHost fs (h_generation s.1) (h_reboots s.1))
  | IncrementRebootCounter g => λ said,
      let '(x, fs) := run fs_handle (RebootTracker.IncrementRebootCounter sample_marshal
                        sample_unmarshal g) (h_store s.1) in
      said x (match x with
              | None => let g0 := fetchedGeneration s.2 in
                        mkHost fs g0 (if g0 =? h_generation s.1 then h_reboots s.1 else 0)
              | Some _ => mkHost fs (h_generation s.1) (h_reboots s.1)
              end)
  | ResetRebootCounter g => λ said,
      let '(x, fs) := run full_handle (RebootTracker.ResetRebootCounter sample_marshal g) (h_store s.1) in
      said x (mkHost fs (h_generation s.1) (h_reboots s.1))
  | RunReboot => λ said, said None (mkHost (h_store s.1) (h_generation s.1) (h_reboots s.1 + 1))
  | r => λ said, said (answer (sample_state DrainComplete RebootRequired) (true, true) r) s.1
  end said.

Lemma fs_run {A} (p : prog FsResp A) fs x fs' :
  run fs_handle p fs = (x, fs') → ∃ tr, exec fs_world p fs tr x fs'.
Proof.
  intros E. exists (trace fs_handle p fs). apply (run_exec_eq fs_world); [|exact E].
  intros s r. by apply fs_handle_ok.
Qed.

Lemma full_reset g fs :
  ∃ e tr, exec fs_world (RebootTracker.ResetRebootCounter sample_marshal g) fs tr (Some e) fs ∧
    run full_handle (RebootTracker.ResetRebootCounter sample_marshal g) fs = (Some e, fs).
Proof.
  do 2 eexists. split; [|reflexivity].
  eapply (exec_vis fs_world MkdirAll _ _ (Some "no space left on device")); [done|]. constructor.
Qed.

Lemma tracked_node_ok vars dn s r :
  True → w_step (node_world vars dn) s r (tracked_node s r).1 (tracked_node s r).2 ∧ True.
Proof.
  intros _. split; [|done]. destruct r; try done; cbn -[run RebootTracker.ResetRebootCounter].
  - destruct (run _ _ _) as [x fs] eqn:E. split; [done|]. by apply fs_run in E.
  - destruct (run _ _ _) as [x fs] eqn:E. split; [done|]. apply fs_run in E. by destruct x.
  - destruct (full_reset generation (h_store s.1)) as (e & tr & Hex & ->). split; [done|].
    split; [by exists tr|done].
Qed.

(** A life in which the sessions follow each other on that node. *)
Fixpoint live (l : list Session) (s : Host) : Host :=
  match l with
  | [] => s
  | se :: rest => live rest (run tracked_node (session se) (s, [])).2.1
  end.

Lemma live_lives l s : ∃ tr, lives l s tr (live l s).
Proof.
  revert s. induction l as [|se l IH]; intros s; [eexists; constructor|]. cbn [live].
  destruct (IH (run tracked_node (session se) (s, [])).2.1) as [tr Htr].
  eexists. eapply lives_session; [|exact Htr]. rewrite <- surjective_pairing.
  apply (run_exec (node_world (se_vars se) (se_daemon se)) tracked_node (λ _, True)); [apply tracked_node_ok|exact I].
Qed.

Definition sample_session : Session := mkSession baremetal 3 sample_daemon "n1" 100.
Definition fresh_node : Host := mkHost (mkFs None None) 0 0.

(** Seven reconciliations that all want a reboot: five reboots. *)
Lemma reboots_limited_witness :
  h_reboots (live (replicate 7 sample_session) fresh_node) = 5 ∧
  h_reboots (live (replicate 7 sample_session) fresh_node) ≤ MaxRebootsPerGeneration.
Proof.
  split; [vm_compute; reflexivity|]. destruct (live_lives (replicate 7 sample_session) fresh_node) as [tr Htr].
  eapply (reboots_limited (replicate 7 sample_session) fresh_node); [|exact Htr].
  exists None. split_and!; try done.
Defined.
