(* ===== verification/GenericPlugin.v ===== *)
(** * The generic plugin (pkg/plugins/generic/generic_plugin.go)

    The daemon's main plugin: it decides whether a change of the node state
    needs a drain or a reboot (kernel arguments), and applies it.  The host
    helpers are requests; Go's iteration order over a map is a parameter. *)
From S2P Require Import Prelude GoLib Types VfRange Policy BridgeConfig NeedUpdate Effects.

(** ** The calls of the plugin *)

Inductive CPUVendor := CPUVendorIntel | CPUVendorAMD | CPUVendorARM | CPUVendorS390X.

#[export] Instance CPUVendor_eq_dec : EqDecision CPUVendor.
Proof. solve_decision. Defined.

(** The error of a command: exit status 127 ([IsCommandNotFound]) or another. *)
Inductive CmdError := CmdNotFound | CmdFailed (msg : string).

(** The error of [ConfigSriovInterfaces]: [ENOMEM] or another. *)
Inductive ConfigError := ENOMEM | ConfigFailed (msg : string).

Inductive GenReq :=
| GetCurrentKernelArgs
| RunKargs (mode karg : string)
| LoadPfsStatus (pciAddress : string)
| GetCPUVendor
| SetRDMASubsystem (mode : string)
| LoadKernelModule (name : string)
| GenChroot
| GenExitChroot
| ConfigSriovInterfaces (interfaces : list Interface) (ifaceStatuses : list InterfaceExt) (skipVFConfiguration : bool)
| ConfigureBridges (bridgesSpec bridgesStatus : Bridges).

Definition GenResp (r : GenReq) : Type :=
  match r with
  | GetCurrentKernelArgs => string + string
  | RunKargs _ _ => option CmdError
  | LoadPfsStatus _ => string + option Interface
  | GetCPUVendor => string + CPUVendor
  | SetRDMASubsystem _ | LoadKernelModule _ | GenChroot | ConfigureBridges _ _ => option string
  | GenExitChroot => unit
  | ConfigSriovInterfaces _ _ _ => option ConfigError
  end%type.

Abbreviation genM := (prog GenResp).

(** [GPanic] is a run-time panic: like an error nobody handles, it unwinds
    through every caller. *)
Inductive GenError :=
| GHost (msg : string)
| GCmd (e : CmdError)
| GConfig (e : ConfigError)
| GRdmaMode (mode : string)
| GPanic.

Definition failing (c : genM (option string)) : genM (GenError + unit) :=
  r ← c; Ret (match r with Some e => inl (GHost e) | None => inr tt end).

Definition getting {A} (c : genM (string + A)) : genM (GenError + A) :=
  r ← c; Ret (match r with inl e => inl (GHost e) | inr a => inr a end).

(** ** State *)

Definition KernelArgPciRealloc := "pci=realloc".
Definition KernelArgIntelIommu := "intel_iommu=on".
Definition KernelArgIommuPt := "iommu=pt".
Definition KernelArgRdmaShared := "ib_core.netns_mode=1".
Definition KernelArgRdmaExclusive := "ib_core.netns_mode=0".

(** The driver ids. *)
Definition Vfio : N := 0.
Definition VirtioVdpa : N := 1.
Definition VhostVdpa : N := 2.

(** The two functions stored in [NeedDriverFunc]. *)
Inductive needDriver := needDriverCheckDeviceType | needDriverCheckVdpaType.

Record DriverState := mkDriverState {
  DriverName : string;
  DeviceType : string;
  VdpaType : string;
  NeedDriverFunc : needDriver;
  DriverLoaded : bool;
}.

Record GenericPlugin := mkGenericPlugin {
  DesireState : option SriovNetworkNodeState;
  DriverStateMap : gmap N DriverState;
  DesiredKernelArgs : gmap string bool;
  skipVFConfiguration : bool;
  skipBridgeConfiguration : bool;
}.

Definition set_DesireState (s : SriovNetworkNodeState) (p : GenericPlugin) : GenericPlugin :=
  mkGenericPlugin (Some s) (DriverStateMap p) (DesiredKernelArgs p) (skipVFConfiguration p)
    (skipBridgeConfiguration p).
Definition set_KernelArg (karg : string) (b : bool) (p : GenericPlugin) : GenericPlugin :=
  mkGenericPlugin (DesireState p) (DriverStateMap p) (<[karg := b]> (DesiredKernelArgs p))
    (skipVFConfiguration p) (skipBridgeConfiguration p).
Definition set_Driver (id : N) (d : DriverState) (p : GenericPlugin) : GenericPlugin :=
  mkGenericPlugin (DesireState p) (<[id := d]> (DriverStateMap p)) (DesiredKernelArgs p)
    (skipVFConfiguration p) (skipBridgeConfiguration p).

(** ** Kernel arguments *)

(** strings.Fields on ASCII text; [cur] is the field being read. *)
Fixpoint Fields_go (s cur : string) : list string :=
  match s with
  | EmptyString => if String.eqb cur "" then [] else [cur]
  | String a r =>
      if is_blank a then (if String.eqb cur "" then [] else [cur]) ++ Fields_go r ""
      else Fields_go r (cur +:+ String a "")
  end.
Definition Fields (s : string) : list string := Fields_go s "".

Definition IsKernelArgsSet (cmdLine karg : string) : bool :=
  existsb (λ element, String.eqb element karg) (Fields cmdLine).

(** The arguments the plugin manages, as found on a running system. *)
Definition initialKernelArgs (kargs : string) : gmap string bool :=
  {[ KernelArgPciRealloc := IsKernelArgsSet kargs KernelArgPciRealloc;
     KernelArgIntelIommu := IsKernelArgsSet kargs KernelArgIntelIommu;
     KernelArgIommuPt := IsKernelArgsSet kargs KernelArgIommuPt;
     KernelArgRdmaShared := false;
     KernelArgRdmaExclusive := false ]}.

Definition initialDrivers : gmap N DriverState :=
  {[ Vfio := mkDriverState "vfio_pci" DeviceTypeVfioPci "" needDriverCheckDeviceType false;
     VirtioVdpa := mkDriverState "virtio_vdpa" DeviceTypeNetDevice VdpaTypeVirtio
                     needDriverCheckVdpaType false;
     VhostVdpa := mkDriverState "vhost_vdpa" DeviceTypeNetDevice VdpaTypeVhost
                    needDriverCheckVdpaType false ]}.

Definition NewGenericPlugin (skipVF skipBridge : bool) : genM (GenError + GenericPlugin) :=
  kargs ⇐ getting (perform GetCurrentKernelArgs);
  Ret (inr (mkGenericPlugin None initialDrivers (initialKernelArgs kargs) skipVF skipBridge)).

Definition enableDesiredKernelArgs (karg : string) (p : GenericPlugin) : GenericPlugin :=
  set_KernelArg karg true p.
Definition disableDesiredKernelArgs (karg : string) (p : GenericPlugin) : GenericPlugin :=
  set_KernelArg karg false p.

Definition editKernelArg (mode karg : string) : genM (GenError + unit) :=
  err ← perform (RunKargs mode karg);
  Ret (match err with
       | None | Some CmdNotFound => inr tt
       | Some e => inl (GCmd e)
       end).

(** ** Does a driver have to be loaded? *)

Definition needDriver_call (f : needDriver) (state : SriovNetworkNodeState) (d : DriverState) : bool :=
  existsb (λ iface, existsb (λ g,
      match f with
      | needDriverCheckDeviceType => String.eqb (vg_DeviceType g) (DeviceType d)
      | needDriverCheckVdpaType => String.eqb (vg_VdpaType g) (VdpaType d)
      end) (if_VfGroups iface)) (nss_Interfaces (ns_Spec state)).

Definition needsLoading (state : SriovNetworkNodeState) (d : DriverState) : bool :=
  negb (DriverLoaded d) && needDriver_call (NeedDriverFunc d) state d.

(** ** RDMA *)

Definition rdmaModeNeedsUpdate (state : SriovNetworkNodeState) : bool :=
  if String.eqb (sys_RdmaMode (nss_System (ns_Spec state))) "" then false
  else negb (String.eqb (sys_RdmaMode (nss_System (ns_Spec state)))
               (sys_RdmaMode (nst_System (ns_Status state)))).

Section plugin.
(** vars.UsingSystemdMode and vars.ManageSoftwareBridges. *)
Context (UsingSystemdMode ManageSoftwareBridges : bool).
(** The order in which a [range] visits a map. *)
Context (rangeKargs : gmap string bool → list (string * bool))
        (rangeDrivers : gmap N DriverState → list (N * DriverState)).

Definition shouldConfigureBridges (p : GenericPlugin) : bool :=
  ManageSoftwareBridges && negb (skipBridgeConfiguration p).

Definition kargDiffers (kargs : string) (kb : string * bool) : bool :=
  negb (Bool.eqb kb.2 (IsKernelArgsSet kargs kb.1)).

Definition shouldUpdateKernelArgs (p : GenericPlugin) : genM (GenError + bool) :=
  kargs ⇐ getting (perform GetCurrentKernelArgs);
  Ret (inr (existsb (kargDiffers kargs) (rangeKargs (DesiredKernelArgs p)))).

Fixpoint syncKargs (kargs : string) (l : list (string * bool)) (needReboot : bool)
    : genM (GenError + bool) :=
  match l with
  | [] => Ret (inr needReboot)
  | (karg, kargState) :: rest =>
      editKernelArg (if kargState : bool then "add" else "remove") karg ;;!
      syncKargs kargs rest (if kargDiffers kargs (karg, kargState) then true else needReboot)
  end.

Definition syncDesiredKernelArgs (p : GenericPlugin) : genM (GenError + bool) :=
  kargs ⇐ getting (perform GetCurrentKernelArgs);
  syncKargs kargs (rangeKargs (DesiredKernelArgs p)) false.

Definition addVfioDesiredKernelArg (state : SriovNetworkNodeState) (p : GenericPlugin)
    : genM GenericPlugin :=
  match DriverStateMap p !! Vfio with
  | Some d =>
      if needsLoading state d then
        r ← perform GetCPUVendor;
        Ret (match (match r with inl _ => CPUVendorIntel | inr v => v end) with
             | CPUVendorIntel => enableDesiredKernelArgs KernelArgIommuPt
                                   (enableDesiredKernelArgs KernelArgIntelIommu p)
             | CPUVendorAMD => enableDesiredKernelArgs KernelArgIommuPt p
             | _ => p
             end)
      else Ret p
  | None => Ret p
  end.

(** The desired arguments are changed also when [SetRDMASubsystem] fails. *)
Definition configRdmaKernelArg (state : SriovNetworkNodeState) (p : GenericPlugin)
    : genM (GenericPlugin * (GenError + unit)) :=
  let mode := sys_RdmaMode (nss_System (ns_Spec state)) in
  let set p' := r ← failing (perform (SetRDMASubsystem mode)); Ret (p', r) in
  if String.eqb mode "" then
    set (disableDesiredKernelArgs KernelArgRdmaShared (disableDesiredKernelArgs KernelArgRdmaExclusive p))
  else if String.eqb mode "shared" then
    set (disableDesiredKernelArgs KernelArgRdmaExclusive (enableDesiredKernelArgs KernelArgRdmaShared p))
  else if String.eqb mode "exclusive" then
    set (disableDesiredKernelArgs KernelArgRdmaShared (enableDesiredKernelArgs KernelArgRdmaExclusive p))
  else Ret (p, inl (GRdmaMode mode)).

Definition needRebootNode (state : SriovNetworkNodeState) (p : GenericPlugin)
    : genM (GenericPlugin * (GenError + bool)) :=
  p1 ← addVfioDesiredKernelArg state p;
  '(p2, r) ← configRdmaKernelArg state p1;
  match r with
  | inl e => Ret (p2, inl e)
  | inr _ => r ← syncDesiredKernelArgs p2; Ret (p2, r)
  end.

(** ** Drain decision *)

(** The bool, or the panic of a malformed VF range. *)
Definition needUpdate (iface : Interface) (st : InterfaceExt) : GenError + bool :=
  match NeedToUpdateSriov iface st with Ok b => inr b | _ => inl GPanic end.

(** The inner loop over the spec: whether the interface is configured, and
    whether it needs an update (which returns at once). *)
Fixpoint scanSpec (st : InterfaceExt) (l : list Interface) (configured : bool)
    : GenError + (bool * bool) :=
  match l with
  | [] => inr (configured, false)
  | iface :: rest =>
      if String.eqb (if_PciAddress iface) (ie_PciAddress st) then
        if ie_NumVfs st =? 0 then inr (true, false)
        else
          match needUpdate iface st with
          | inl e => inl e
          | inr true => inr (true, true)
          | inr false => scanSpec st rest true
          end
      else scanSpec st rest configured
  end.

Fixpoint needToUpdateVFs (desired : list Interface) (current : list InterfaceExt)
    : genM (GenError + bool) :=
  match current with
  | [] => Ret (inr false)
  | st :: rest =>
      match scanSpec st desired false with
      | inl e => Ret (inl e)
      | inr (_, true) => Ret (inr true)
      | inr (configured, false) =>
          if negb configured && (0 <? ie_NumVfs st) then
            r ← perform (LoadPfsStatus (ie_PciAddress st));
            match r with
            | inl _ | inr None => needToUpdateVFs desired rest
            | inr (Some pfStatus) =>
                if if_ExternallyManaged pfStatus then needToUpdateVFs desired rest
                else Ret (inr true)
            end
          else needToUpdateVFs desired rest
      end
  end.

Definition needDrainNode (p : GenericPlugin) (desired : SriovNetworkNodeStateSpec)
    (current : SriovNetworkNodeStateStatus) : genM (GenError + bool) :=
  vfs ⇐ needToUpdateVFs (nss_Interfaces desired) (nst_Interfaces current);
  if vfs : bool then Ret (inr true)
  else Ret (inr (shouldConfigureBridges p && NeedToUpdateBridges (nss_Bridges desired) (nst_Bridges current))).

(** ** The plugin's interface *)

Definition OnNodeStateChange (p : GenericPlugin) (new : SriovNetworkNodeState)
    : genM (GenericPlugin * (GenError + (bool * bool))) :=
  let p0 := set_DesireState new p in
  r ← needDrainNode p0 (ns_Spec new) (ns_Status new);
  match r with
  | inl e => Ret (p0, inl e)
  | inr needDrain =>
      '(p1, r) ← needRebootNode new p0;
      Ret (p1, match r with
               | inl e => inl e
               | inr needReboot => inr (if needReboot : bool then true else needDrain, needReboot)
               end)
  end.

(** The inner loop of [CheckStatusChanges]: the first status of the PF. *)
Fixpoint statusChanged (iface : Interface) (l : list InterfaceExt) : GenError + bool :=
  match l with
  | [] => inr false
  | st :: rest =>
      if String.eqb (if_PciAddress iface) (ie_PciAddress st) && negb (if_ExternallyManaged iface)
      then needUpdate iface st
      else statusChanged iface rest
  end.

Fixpoint interfacesChanged (spec : list Interface) (statuses : list InterfaceExt) : GenError + bool :=
  match spec with
  | [] => inr false
  | iface :: rest =>
      match statusChanged iface statuses with
      | inl e => inl e
      | inr true => inr true
      | inr false => interfacesChanged rest statuses
      end
  end.

Definition CheckStatusChanges (p : GenericPlugin) (current : SriovNetworkNodeState)
    : genM (GenError + bool) :=
  match interfacesChanged (nss_Interfaces (ns_Spec current)) (nst_Interfaces (ns_Status current)) with
  | inl e => Ret (inl e)
  | inr true => Ret (inr true)
  | inr false =>
      if shouldConfigureBridges p &&
         NeedToUpdateBridges (nss_Bridges (ns_Spec current)) (nst_Bridges (ns_Status current))
      then Ret (inr true)
      else if rdmaModeNeedsUpdate current then Ret (inr true)
      else shouldUpdateKernelArgs p
  end.

(** The flags of the drivers loaded before an error stay set. *)
Fixpoint syncDrivers (state : SriovNetworkNodeState) (l : list (N * DriverState)) (p : GenericPlugin)
    : genM (GenericPlugin * (GenError + unit)) :=
  match l with
  | [] => Ret (p, inr tt)
  | (id, d) :: rest =>
      if needsLoading state d then
        r ← failing (perform (LoadKernelModule (DriverName d)));
        match r with
        | inl e => Ret (p, inl e)
        | inr _ =>
            syncDrivers state rest
              (set_Driver id (mkDriverState (DriverName d) (DeviceType d) (VdpaType d)
                                (NeedDriverFunc d) true) p)
        end
      else syncDrivers state rest p
  end.

Definition syncDriverState (state : SriovNetworkNodeState) (p : GenericPlugin)
    : genM (GenericPlugin * (GenError + unit)) :=
  syncDrivers state (rangeDrivers (DriverStateMap p)) p.

Definition configureHost (state : SriovNetworkNodeState) (p : GenericPlugin)
    : genM (GenericPlugin * (GenError + unit)) :=
  err ← perform (ConfigSriovInterfaces (nss_Interfaces (ns_Spec state))
                   (nst_Interfaces (ns_Status state)) (skipVFConfiguration p));
  match err with
  | Some ENOMEM => Ret (enableDesiredKernelArgs KernelArgPciRealloc p, inl (GConfig ENOMEM))
  | Some e => Ret (p, inl (GConfig e))
  | None =>
      if shouldConfigureBridges p then
        r ← failing (perform (ConfigureBridges (nss_Bridges (ns_Spec state)) (nst_Bridges (ns_Status state))));
        Ret (p, r)
      else Ret (p, inr tt)
  end.

(** Without a desired state the first line dereferences nil. *)
Definition PluginApply (p : GenericPlugin) : genM (GenericPlugin * (GenError + unit)) :=
  match DesireState p with
  | None => Ret (p, inl GPanic)
  | Some state =>
      '(p1, r) ← syncDriverState state p;
      match r with
      | inl e => Ret (p1, inl e)
      | inr _ =>
          if UsingSystemdMode then configureHost state p1
          else
            r ← failing (perform GenChroot);
            match r with
            | inl e => Ret (p1, inl e)
            | inr _ =>
                res ← configureHost state p1;
                perform GenExitChroot ≫= λ _, Ret res
            end
      end
  end.
End plugin.
