(* ===== verification/GenericDecision.v ===== *)
(** * What the generic plugin decides

    The drain and reboot decision of [OnNodeStateChange] against a declarative
    reading of the node state, and why a reboot for kernel arguments is not
    asked for twice. *)
From S2P Require Import Prelude GoLib Types VfRange Policy BridgeConfig NeedUpdate Effects GenericPlugin.

(** ** A host that answers consistently *)

(** What the plugin reads of the host; every call may also fail, except the
    two whose errors it swallows and which are then part of the view. *)
Record HostView := mkHostView {
  hv_cmdline : string;
  hv_pf : string → string + option Interface;
  hv_cpu : string + CPUVendor;
}.

Definition view_step (hv : HostView) (s : unit) (r : GenReq) : GenResp r → unit → Prop :=
  match r with
  | GetCurrentKernelArgs => λ x _, match x with inl _ => True | inr c => c = hv_cmdline hv end
  | LoadPfsStatus pci => λ x _, x = hv_pf hv pci
  | GetCPUVendor => λ x _, x = hv_cpu hv
  | _ => λ _ _, True
  end.

Definition view_world (hv : HostView) : World GenResp := {| w_state := unit; w_step := view_step hv |}.

(** ** The specification *)

(** An interface with VFs has to be touched: its configuration differs, or it
    is to be reset and the operator made its VFs. *)
Definition iface_needs_drain (hv : HostView) (spec : list Interface) (st : InterfaceExt) : Prop :=
  ie_NumVfs st ≠ 0 ∧
  ((∃ iface, iface ∈ spec ∧ if_PciAddress iface = ie_PciAddress st ∧
      NeedToUpdateSriov iface st = Ok true) ∨
   (∀ iface, iface ∈ spec → if_PciAddress iface ≠ ie_PciAddress st) ∧ 0 < ie_NumVfs st ∧
   ∃ pf, hv_pf hv (ie_PciAddress st) = inr (Some pf) ∧ if_ExternallyManaged pf = false).

(** Intel is assumed when the vendor is unknown. *)
Definition cpu_of (hv : HostView) : CPUVendor :=
  match hv_cpu hv with inl _ => CPUVendorIntel | inr v => v end.

Definition vfio_wanted (p : GenericPlugin) (state : SriovNetworkNodeState) : bool :=
  from_option (needsLoading state) false (DriverStateMap p !! Vfio).

(** The arguments desired after the call. *)
Definition wanted (hv : HostView) (p : GenericPlugin) (state : SriovNetworkNodeState) : gmap string bool :=
  let mode := sys_RdmaMode (nss_System (ns_Spec state)) in
  let vfio := vfio_wanted p state in
  let m := DesiredKernelArgs p in
  let m1 := if vfio && bool_decide (cpu_of hv = CPUVendorIntel) then <[KernelArgIntelIommu := true]> m else m in
  let m2 := if vfio && bool_decide (cpu_of hv = CPUVendorIntel ∨ cpu_of hv = CPUVendorAMD)
            then <[KernelArgIommuPt := true]> m1 else m1 in
  <[KernelArgRdmaShared := String.eqb mode "shared"]>
    (<[KernelArgRdmaExclusive := String.eqb mode "exclusive"]> m2).

(** A desired argument is not what the running kernel has. *)
Definition kargs_differ (cmdline : string) (m : gmap string bool) : Prop :=
  ∃ k b, m !! k = Some b ∧ IsKernelArgsSet cmdline k ≠ b.

(** ** Lemmas *)

Section decision.
Context (ManageSoftwareBridges : bool).
Context (rangeKargs : gmap string bool → list (string * bool)).
Context (hv : HostView).
Abbreviation vw := (view_world hv).
Abbreviation anything := (λ _ _, True).

Lemma scanSpec_go st l c b d :
  scanSpec st l c = inr (b, d) →
  (d = true ↔ ie_NumVfs st ≠ 0 ∧
     Exists (λ iface, if_PciAddress iface = ie_PciAddress st ∧ NeedToUpdateSriov iface st = Ok true) l) ∧
  (b = false ↔ c = false ∧ Forall (λ iface, if_PciAddress iface ≠ ie_PciAddress st) l).
Proof.
  revert c b d. induction l as [|iface l IH]; intros c b d; cbn [scanSpec].
  { intros [= <- <-]. rewrite Exists_nil, Forall_nil. split; [split; [done|by intros []]|tauto]. }
  rewrite Exists_cons, Forall_cons.
  destruct (String.eqb_spec (if_PciAddress iface) (ie_PciAddress st)) as [E|E].
  - destruct (Z.eqb_spec (ie_NumVfs st) 0) as [E0|E0].
    { intros [= <- <-]. split; [split; [done|tauto]|split; [done|tauto]]. }
    unfold needUpdate. destruct (NeedToUpdateSriov iface st) as [[]| |] eqn:En; [|intros H|done..].
    + intros [= <- <-]. split; [tauto|split; [done|tauto]].
    + apply IH in H as [H1 H2]. rewrite H1, H2. split; [|split; [by intros []|tauto]].
      split; [tauto|]. intros [? [[_ ?]|?]]; [done|tauto].
  - intros H. apply IH in H as [H1 H2]. rewrite H1, H2. tauto.
Qed.

Lemma scanSpec_spec st l b d :
  scanSpec st l false = inr (b, d) →
  (d = true ↔ ie_NumVfs st ≠ 0 ∧
     ∃ iface, iface ∈ l ∧ if_PciAddress iface = ie_PciAddress st ∧ NeedToUpdateSriov iface st = Ok true) ∧
  (b = false ↔ ∀ iface, iface ∈ l → if_PciAddress iface ≠ ie_PciAddress st).
Proof.
  intros H. apply scanSpec_go in H as [-> ->]. rewrite Exists_exists, Forall_forall. tauto.
Qed.

Lemma wp_needToUpdateVFs spec sts (s : w_state vw) :
  wp vw anything (needToUpdateVFs spec sts)
    (λ r _, ∀ b, r = inr b → (b = true ↔ ∃ st, st ∈ sts ∧ iface_needs_drain hv spec st)) s.
Proof.
  revert s. induction sts as [|st sts IH]; intros s; cbn [needToUpdateVFs].
  { intros b [= <-]. set_solver. }
  destruct (scanSpec st spec false) as [e|[c d]] eqn:Es; [done|].
  apply scanSpec_spec in Es as [Hd Hc]. destruct d.
  { intros b [= <-]. split; [|done]. intros _. exists st. split; [set_solver|].
    destruct (proj1 Hd eq_refl). split; [done|by left]. }
  assert (Hrest : ∀ s, ¬ iface_needs_drain hv spec st →
    wp vw anything (needToUpdateVFs spec sts)
      (λ r _, ∀ b, r = inr b → (b = true ↔ ∃ st', st' ∈ st :: sts ∧ iface_needs_drain hv spec st')) s).
  { intros s' Hn. eapply wp_post; [apply IH|]. intros r s'' H b Hb. rewrite (H b Hb). set_solver. }
  assert (Hnd : ¬ (ie_NumVfs st ≠ 0 ∧ ∃ iface, iface ∈ spec ∧ if_PciAddress iface = ie_PciAddress st ∧
                     NeedToUpdateSriov iface st = Ok true)) by (intros H; apply Hd in H; discriminate).
  destruct (negb c && (0 <? ie_NumVfs st)) eqn:Ec.
  - apply andb_true_iff in Ec as [->%negb_true_iff Hn%Z.ltb_lt].
    pose proof (proj1 Hc eq_refl) as Hu.
    apply wp_perform; [done|]. intros x s' Hx. cbn in Hx. subst x.
    destruct (hv_pf hv (ie_PciAddress st)) as [e|[pf|]] eqn:Epf.
    + apply Hrest. intros [? [?|(_ & _ & pf & ? & _)]]; [by apply Hnd|congruence].
    + destruct (if_ExternallyManaged pf) eqn:Em.
      * apply Hrest. intros [? [?|(_ & _ & pf' & ? & ?)]]; [by apply Hnd|congruence].
      * intros b [= <-]. split; [|done]. intros _. exists st. split; [set_solver|].
        split; [lia|]. right. eauto.
    + apply Hrest. intros [? [?|(_ & _ & pf & ? & _)]]; [by apply Hnd|congruence].
  - apply Hrest. intros [? [?|(Hu & Hn & _)]]; [by apply Hnd|].
    rewrite (proj2 Hc Hu) in Ec. apply Z.ltb_lt in Hn. by rewrite Hn in Ec.
Qed.

Lemma kargDiffers_spec c k b : kargDiffers c (k, b) = true ↔ IsKernelArgsSet c k ≠ b.
Proof. unfold kargDiffers. cbn. by destruct b, (IsKernelArgsSet c k). Qed.

Lemma kargs_differ_range c m (Hrange : ∀ m, rangeKargs m ≡ₚ map_to_list m) :
  existsb (kargDiffers c) (rangeKargs m) = true ↔ kargs_differ c m.
Proof.
  rewrite existsb_exists. unfold kargs_differ. split.
  - intros ([k b] & Hin & Hd%kargDiffers_spec). exists k, b. split; [|done].
    apply elem_of_map_to_list. rewrite <- Hrange. by apply list_elem_of_In.
  - intros (k & b & Hk & Hd). exists (k, b). split; [|by apply kargDiffers_spec].
    apply list_elem_of_In. rewrite Hrange. by apply elem_of_map_to_list.
Qed.

Lemma wp_syncKargs c l reboot (s : w_state vw) :
  wp vw anything (syncKargs c l reboot)
    (λ r _, ∀ b, r = inr b → b = reboot || existsb (kargDiffers c) l) s.
Proof.
  revert reboot s. induction l as [|[k v] l IH]; intros reboot s; cbn [syncKargs existsb].
  { intros b [= <-]. by rewrite orb_false_r. }
  apply wp_try. unfold editKernelArg. apply wp_perform; [done|]. intros x s' _. apply wp_ret.
  assert (Hgo : wp vw anything (syncKargs c l (if kargDiffers c (k, v) then true else reboot))
      (λ r _, ∀ b, r = inr b → b = reboot || (kargDiffers c (k, v) || existsb (kargDiffers c) l)) s').
  { eapply wp_post; [apply IH|]. intros r s'' H b Hb. rewrite (H b Hb).
    destruct (kargDiffers c (k, v)), reboot; done. }
  destruct x as [[|e]|]; [exact Hgo|done|exact Hgo].
Qed.

Lemma wp_syncDesiredKernelArgs (Hrange : ∀ m, rangeKargs m ≡ₚ map_to_list m) p (s : w_state vw) :
  wp vw anything (syncDesiredKernelArgs rangeKargs p)
    (λ r _, ∀ b, r = inr b → (b = true ↔ kargs_differ (hv_cmdline hv) (DesiredKernelArgs p))) s.
Proof.
  unfold syncDesiredKernelArgs. apply wp_try. unfold getting. apply wp_perform; [done|].
  intros x s' Hx. apply wp_ret. destruct x as [e|c]; [done|]. cbn in Hx. subst c.
  eapply wp_post; [apply wp_syncKargs|]. intros r s'' H b Hb. rewrite (H b Hb), orb_false_l.
  by apply kargs_differ_range.
Qed.

(** The rest of the plugin is left alone. *)
Definition same_but_kargs (p p' : GenericPlugin) : Prop :=
  DesireState p' = DesireState p ∧ DriverStateMap p' = DriverStateMap p ∧
  skipVFConfiguration p' = skipVFConfiguration p ∧ skipBridgeConfiguration p' = skipBridgeConfiguration p.

(** The vfio part of [wanted]. *)
Definition wanted_vfio (p : GenericPlugin) (state : SriovNetworkNodeState) : gmap string bool :=
  let m := DesiredKernelArgs p in
  let m1 := if vfio_wanted p state && bool_decide (cpu_of hv = CPUVendorIntel)
            then <[KernelArgIntelIommu := true]> m else m in
  if vfio_wanted p state && bool_decide (cpu_of hv = CPUVendorIntel ∨ cpu_of hv = CPUVendorAMD)
  then <[KernelArgIommuPt := true]> m1 else m1.

Lemma wp_addVfio state p (s : w_state vw) :
  wp vw anything (addVfioDesiredKernelArg state p)
    (λ p' _, same_but_kargs p p' ∧ DesiredKernelArgs p' = wanted_vfio p state) s.
Proof.
  unfold addVfioDesiredKernelArg, wanted_vfio, vfio_wanted.
  destruct (DriverStateMap p !! Vfio) as [d|]; cbn [from_option]; [|done].
  destruct (needsLoading state d); [|done]. cbn [andb].
  apply wp_perform; [done|]. intros x s' Hx. apply wp_ret. cbn in Hx. subst x.
  unfold cpu_of. by destruct (hv_cpu hv) as [e|[]].
Qed.

Lemma wp_configRdma state p (s : w_state vw) :
  wp vw anything (configRdmaKernelArg state p)
    (λ r _, same_but_kargs p r.1 ∧ (r.2 = inr tt → DesiredKernelArgs r.1 =
       <[KernelArgRdmaShared := String.eqb (sys_RdmaMode (nss_System (ns_Spec state))) "shared"]>
         (<[KernelArgRdmaExclusive := String.eqb (sys_RdmaMode (nss_System (ns_Spec state))) "exclusive"]>
            (DesiredKernelArgs p)))) s.
Proof.
  unfold configRdmaKernelArg. set (mode := sys_RdmaMode _). set (m := <[KernelArgRdmaShared := _]> _).
  assert (Hset : ∀ p', same_but_kargs p p' → DesiredKernelArgs p' = m →
    wp vw anything (r ← failing (perform (SetRDMASubsystem mode)); Ret (p', r))
      (λ r _, same_but_kargs p r.1 ∧ (r.2 = inr tt → DesiredKernelArgs r.1 = m)) s).
  { intros p' Hs Hm. unfold failing. apply wp_bind, wp_perform; [done|]. intros x s' _. by apply wp_ret. }
  destruct (String.eqb_spec mode "") as [E|].
  { apply Hset; [done|]. unfold m. by rewrite E. }
  destruct (String.eqb_spec mode "shared") as [E|Es].
  { apply Hset; [done|]. unfold m. rewrite ?E. cbn. by rewrite insert_insert_ne. }
  destruct (String.eqb_spec mode "exclusive") as [E|]; [|done].
  apply Hset; [done|]. unfold m. by rewrite ?E.
Qed.

Lemma wp_needRebootNode (Hrange : ∀ m, rangeKargs m ≡ₚ map_to_list m) state p (s : w_state vw) :
  wp vw anything (needRebootNode rangeKargs state p)
    (λ r _, same_but_kargs p r.1 ∧ ∀ b, r.2 = inr b →
       DesiredKernelArgs r.1 = wanted hv p state ∧
       (b = true ↔ kargs_differ (hv_cmdline hv) (DesiredKernelArgs r.1))) s.
Proof.
  unfold needRebootNode. apply wp_bind. eapply wp_post; [apply wp_addVfio|].
  intros p1 s1 [(? & ? & ? & ?) K1]. apply wp_bind. eapply wp_post; [apply wp_configRdma|].
  intros [p2 r] s2 [(? & ? & ? & ?) K2]. cbn [fst snd] in *.
  assert (Hs : same_but_kargs p p2) by (split_and!; congruence).
  destruct r as [e|[]]; [done|]. specialize (K2 eq_refl). rewrite K1 in K2.
  apply wp_bind. eapply wp_post; [by apply wp_syncDesiredKernelArgs|].
  intros r s3 Hr. apply wp_ret. cbn [fst snd]. split; [done|]. intros b Hb.
  split; [exact K2|by apply Hr].
Qed.

(** The outcome of [OnNodeStateChange]: [V] and [B] say that the VFs and the
    bridges need a drain. *)
Definition decided (p : GenericPlugin) (state : SriovNetworkNodeState) (V B : Prop)
    (r : GenericPlugin * (GenError + (bool * bool))) : Prop :=
  same_but_kargs (set_DesireState state p) r.1 ∧
  ∀ drain reboot, r.2 = inr (drain, reboot) →
    DesiredKernelArgs r.1 = wanted hv p state ∧
    (reboot = true ↔ kargs_differ (hv_cmdline hv) (DesiredKernelArgs r.1)) ∧
    (drain = true ↔ reboot = true ∨ V ∨ B).

(** After the drain decision [d]. *)
Lemma wp_decided (Hrange : ∀ m, rangeKargs m ≡ₚ map_to_list m) p state (d : bool) (V B : Prop)
    (s : w_state vw) :
  (d = true ↔ V ∨ B) →
  wp vw anything ('(p1, r) ← needRebootNode rangeKargs state (set_DesireState state p);
     Ret (p1, match r with
              | inl e => inl e
              | inr needReboot => inr (if needReboot : bool then true else d, needReboot)
              end))
    (λ r _, decided p state V B r) s.
Proof.
  intros Hd. apply wp_bind. eapply wp_post; [by apply wp_needRebootNode|].
  intros [p1 r] s2 [Hs H]. apply wp_ret. cbn [fst snd] in *. split; [exact Hs|].
  destruct r as [e|b]; [done|]. intros drain reboot [= <- <-]. destruct (H _ eq_refl) as [K R].
  split_and!; [exact K|exact R|]. destruct b; [tauto|]. rewrite Hd. split; [tauto|]. by intros [?|?].
Qed.

Lemma wp_OnNodeStateChange_decided (Hrange : ∀ m, rangeKargs m ≡ₚ map_to_list m) p state (s : w_state vw) :
  wp vw anything (OnNodeStateChange ManageSoftwareBridges rangeKargs p state)
    (λ r _, decided p state
       (∃ st, st ∈ nst_Interfaces (ns_Status state) ∧
              iface_needs_drain hv (nss_Interfaces (ns_Spec state)) st)
       (ManageSoftwareBridges = true ∧ skipBridgeConfiguration p = false ∧
        nss_Bridges (ns_Spec state) ≠ nst_Bridges (ns_Status state)) r) s.
Proof.
  unfold OnNodeStateChange. apply wp_bind. unfold needDrainNode. apply wp_try.
  eapply wp_post; [apply wp_needToUpdateVFs|]. intros [e|vfs] s1 H1; [done|].
  specialize (H1 _ eq_refl).
  destruct vfs; cbn [wp]; apply wp_decided; try done.
  - split; [|done]. intros _. left. by apply H1.
  - unfold shouldConfigureBridges, NeedToUpdateBridges. rewrite !andb_true_iff, !negb_true_iff,
      bool_decide_eq_false. cbn. split; [tauto|]. intros [?%H1|?]; [done|tauto].
Qed.
End decision.

(** C26: The generic plugin's decision, on a host that answers consistently and
    for every iteration order of its maps: when [OnNodeStateChange] succeeds,
    the desired kernel arguments are those [wanted] (IOMMU arguments if a
    group needs vfio, by CPU vendor; the RDMA argument of the requested mode;
    the rest as before); a reboot is needed exactly when one of them is not
    what the running kernel has; a drain exactly when a reboot is needed, or
    an interface with VFs has to be reconfigured or reset (unless its VFs are
    not the operator's), or the managed bridges differ. *)
Theorem OnNodeStateChange_decision (ManageSoftwareBridges : bool)
    (rangeKargs : gmap string bool → list (string * bool)) (hv : HostView)
    (p p' : GenericPlugin) (state : SriovNetworkNodeState) (drain reboot : bool)
    (tr : list (unit * GenReq)) (s' : unit)
    (Hrange : ∀ m, rangeKargs m ≡ₚ map_to_list m)
    (Hexec : exec (view_world hv) (OnNodeStateChange ManageSoftwareBridges rangeKargs p state)
               tt tr (p', inr (drain, reboot)) s') :
  DesireState p' = Some state ∧
  DesiredKernelArgs p' = wanted hv p state ∧
  (reboot = true ↔ kargs_differ (hv_cmdline hv) (wanted hv p state)) ∧
  (drain = true ↔ reboot = true ∨
     (∃ st, st ∈ nst_Interfaces (ns_Status state) ∧
            iface_needs_drain hv (nss_Interfaces (ns_Spec state)) st) ∨
     (ManageSoftwareBridges = true ∧ skipBridgeConfiguration p = false ∧
      nss_Bridges (ns_Spec state) ≠ nst_Bridges (ns_Status state))).
Proof.
  destruct (wp_exec _ _ _ _ _ _ _ _
    (wp_OnNodeStateChange_decided ManageSoftwareBridges rangeKargs hv Hrange p state tt) Hexec)
    as [[(Hd & _) H] _]. destruct (H _ _ eq_refl) as (K & R & D).
  rewrite <- K. split_and!; [exact Hd|done|exact R|exact D].
Qed.

(** *** A vfio group on an Intel node that was booted without the IOMMU *)

Definition sample_view : HostView :=
  mkHostView "quiet splash" (λ _, inr None) (inr CPUVendorIntel).

Definition vfio_state : SriovNetworkNodeState :=
  mkNodeState (mkObjectMeta "n1" "ns" 1 ∅ ∅ [])
    (mkNodeStateSpec
       [mkInterface "0000:01:00.0" 4 1500 "eth0" "" "" [mkVfGroup "res" "vfio-pci" "0-3" "p" 1500 false ""] false]
       (mkBridges []) (mkSystem "" ∅))
    (mkNodeStateStatus [] (mkBridges []) (mkSystem "" ∅) "" "" []).

Definition view_handle (hv : HostView) (_ : unit) (r : GenReq) : GenResp r * unit :=
  (match r return GenResp r with
   | GetCurrentKernelArgs => inr (hv_cmdline hv)
   | RunKargs _ _ => None
   | LoadPfsStatus pci => hv_pf hv pci
   | GetCPUVendor => hv_cpu hv
   | SetRDMASubsystem _ | LoadKernelModule _ | GenChroot | ConfigureBridges _ _ => None
   | GenExitChroot => tt
   | ConfigSriovInterfaces _ _ _ => None
   end, tt).

Lemma view_handle_ok hv s r :
  w_step (view_world hv) s r (view_handle hv s r).1 (view_handle hv s r).2.
Proof. by destruct r. Qed.

Definition fresh_plugin (cmdline : string) : GenericPlugin :=
  mkGenericPlugin None initialDrivers (initialKernelArgs cmdline) false false.

Lemma OnNodeStateChange_decision_witness :
  kargs_differ "quiet splash" (wanted sample_view (fresh_plugin "quiet splash") vfio_state).
Proof.
  pose (q := OnNodeStateChange false map_to_list (fresh_plugin "quiet splash") vfio_state).
  assert (E : run (view_handle sample_view) q tt =
    (((run (view_handle sample_view) q tt).1.1, inr (true, true)), tt)) by (vm_compute; reflexivity).
  destruct (OnNodeStateChange_decision false map_to_list sample_view (fresh_plugin "quiet splash") _
    vfio_state true true _ _ (λ m, Permutation_refl _)
    (run_exec_eq (view_world sample_view) (view_handle sample_view) q tt _ _ (view_handle_ok _) E))
    as (_ & _ & Hr & _).
  by apply Hr.
Defined.
