(* ===== verification/KernelArgs.v ===== *)
(** * No reboot loop for kernel arguments

    A node whose boot configuration is edited by bindata/scripts/kargs.sh: the
    generic plugin, started again after the reboot it asked for, does not ask
    for another one for the same node state; where the script cannot edit
    anything it does. *)
From S2P Require Import Prelude GoLib Types Policy BridgeConfig NeedUpdate Effects GenericPlugin GenericDecision.

(** ** A host with a boot configuration *)

(** The running command line and the arguments of the next boot. *)
Record BootHost := mkBootHost { bh_cmdline : string; bh_next : gset string }.

(** What a successful kargs.sh does: an argument is added unless the running
    command line already contains its text, and removed if it does. *)
Definition run_kargs (mode karg : string) (s : BootHost) : BootHost :=
  mkBootHost (bh_cmdline s)
    (if String.eqb mode "add" then
       if Contains (bh_cmdline s) karg then bh_next s else {[ karg ]} ∪ bh_next s
     else if Contains (bh_cmdline s) karg then bh_next s ∖ {[ karg ]} else bh_next s).

(** Whether the script works on the host: the host has rpm-ostree or grubby;
    it has neither, and the script exits with 127; or it is Ubuntu, where the
    script exits with 0 and does nothing. *)
Inductive Tools := ToolsWork | ToolsMissing | ToolsUnsupported.

#[export] Instance Tools_eq_dec : EqDecision Tools.
Proof. solve_decision. Defined.

Section boot.
(** The rest of the host is fixed: the tools, the CPU and the PF files. *)
Context (tools : Tools) (pf : string → string + option Interface) (cpu : string + CPUVendor).

Definition boot_step (s : BootHost) (r : GenReq) : GenResp r → BootHost → Prop :=
  match r with
  | GetCurrentKernelArgs => λ x s', s' = s ∧ match x with inl _ => True | inr c => c = bh_cmdline s end
  | LoadPfsStatus pci => λ x s', s' = s ∧ x = pf pci
  | GetCPUVendor => λ x s', s' = s ∧ x = cpu
  | RunKargs mode karg => λ x s',
      match tools, x with
      | ToolsWork, None => s' = run_kargs mode karg s
      | ToolsMissing, None | ToolsWork, Some CmdNotFound | ToolsUnsupported, Some CmdNotFound => False
      | _, _ => s' = s
      end
  | _ => λ _ s', s' = s
  end.

Definition boot_world : World GenResp := {| w_state := BootHost; w_step := boot_step |}.
Abbreviation bw := boot_world.
Abbreviation anything := (λ _ _, True).

(** The next boot would use what is running. *)
Definition settled (s : BootHost) : Prop :=
  ∀ k, k ∈ bh_next s ↔ IsKernelArgsSet (bh_cmdline s) k = true.

Definition managed : gset string :=
  {[ KernelArgPciRealloc; KernelArgIntelIommu; KernelArgIommuPt; KernelArgRdmaShared;
     KernelArgRdmaExclusive ]}.

(** No other argument contains the text of a managed one. *)
Definition unambiguous (s : BootHost) : Prop :=
  ∀ k, k ∈ managed → Contains (bh_cmdline s) k = IsKernelArgsSet (bh_cmdline s) k.

(** The node comes up with its boot configuration. *)
Definition reboots (s s' : BootHost) : Prop :=
  ∀ k, IsKernelArgsSet (bh_cmdline s') k = true ↔ k ∈ bh_next s.

(** A start of the daemon with a node state. *)
Definition start (ManageSoftwareBridges : bool) (rangeKargs : gmap string bool → list (string * bool))
    (state : SriovNetworkNodeState) : genM (GenError + (GenericPlugin * (bool * bool))) :=
  p ⇐ NewGenericPlugin false false;
  '(p', r) ← OnNodeStateChange ManageSoftwareBridges rangeKargs p state;
  Ret (match r with inl e => inl e | inr d => inr (p', d) end).

(** ** The edits of one call *)

Lemma in_run_kargs (b : bool) k j s :
  (j = k → Contains (bh_cmdline s) k = IsKernelArgsSet (bh_cmdline s) k ∧
           (k ∈ bh_next s ↔ IsKernelArgsSet (bh_cmdline s) k = true)) →
  j ∈ bh_next (run_kargs (if b then "add" else "remove") k s) ↔
    if decide (j = k) then b = true else j ∈ bh_next s.
Proof.
  intros H. unfold run_kargs. cbn [bh_next].
  case_decide as Hjk.
  - subst j. destruct (H eq_refl) as [-> Hn]. clear H.
    destruct b, (IsKernelArgsSet (bh_cmdline s) k); cbn; set_solver.
  - destruct b, (Contains (bh_cmdline s) k); cbn; set_solver.
Qed.

Lemma wp_syncKargs_boot c l reboot (s : w_state bw) :
  tools = ToolsWork → NoDup l.*1 →
  (∀ k, k ∈ l.*1 → Contains (bh_cmdline s) k = IsKernelArgsSet (bh_cmdline s) k ∧
                   (k ∈ bh_next s ↔ IsKernelArgsSet (bh_cmdline s) k = true)) →
  wp bw anything (syncKargs c l reboot)
    (λ r s', ∀ b, r = inr b → bh_cmdline s' = bh_cmdline s ∧
       (∀ k v, (k, v) ∈ l → (k ∈ bh_next s' ↔ v = true)) ∧
       (∀ k, k ∉ l.*1 → (k ∈ bh_next s' ↔ k ∈ bh_next s))) s.
Proof.
  intros Hw. revert reboot s. induction l as [|[k v] l IH]; intros reboot s Hnd Hs; cbn [syncKargs].
  { intros b _. split_and!; [done|set_solver|done]. }
  cbn in Hnd. apply NoDup_cons in Hnd as [Hk Hnd]. apply wp_try. unfold editKernelArg.
  apply wp_perform; [done|]. intros x s1 Hx. apply wp_ret. cbn in Hx. rewrite Hw in Hx.
  destruct x as [[|e]|]; [done..|]. assert (Hin : ∀ j, j ∈ bh_next s1 ↔ if decide (j = k) then v = true else j ∈ bh_next s).
  { intros j. subst s1. apply in_run_kargs. intros ->. apply Hs. cbn. set_solver. }
  assert (Hc : bh_cmdline s1 = bh_cmdline s) by (by subst s1).
  eapply wp_post; [apply IH; [done|]|].
  - intros j Hj. rewrite Hc, Hin. destruct (Hs j) as [H1 H2]; [cbn; set_solver|].
    split; [done|]. rewrite decide_False by (intros ->; done). done.
  - intros r s2 H b Hb. destruct (H b Hb) as (Hc2 & H2 & H3). split_and!; [congruence| |].
    + intros j w [[= -> ->]|Hj]%elem_of_cons; [|by apply H2].
      rewrite H3, Hin, decide_True by done. done.
    + intros j Hj. cbn in Hj. apply not_elem_of_cons in Hj as [Hne Hj].
      rewrite H3, Hin, decide_False by done. done.
Qed.

Definition edits (r : GenReq) : bool := match r with RunKargs _ _ => false | _ => true end.

#[local] Hint Extern 1 (steady _ _ _ _) => only_request : steady.

Lemma unedited {A} (p : genM A) (s : w_state bw) :
  only edits p → wp bw anything p (λ _ s', s' = s) s.
Proof.
  intros Hp. eapply wp_post; [apply (only_steady edits bw anything eq); [|exact Hp]|].
  - intros r Hr. apply (steady_perform bw anything eq); [done|]. intros t x t'. destruct r; cbn; naive_solver.
  - by intros a s' ->.
Qed.

Lemma edits_needToUpdateVFs spec sts : only edits (needToUpdateVFs spec sts).
Proof. induction sts as [|st sts IH]; cbn [needToUpdateVFs]; steady. Qed.

Lemma edits_needDrainNode m p spec st : only edits (needDrainNode m p spec st).
Proof. unfold needDrainNode. steady. apply edits_needToUpdateVFs. Qed.

(** The plugin's arguments are the managed ones. *)
Definition managed_only (p : GenericPlugin) : Prop := dom (DesiredKernelArgs p) ⊆ managed.

Lemma set_KernelArg_managed k b p : k ∈ managed → managed_only p → managed_only (set_KernelArg k b p).
Proof. unfold managed_only. cbn. rewrite dom_insert_L. set_solver. Qed.

Lemma wp_addVfio_boot state p (s : w_state bw) :
  managed_only p →
  wp bw anything (addVfioDesiredKernelArg state p) (λ p' s', s' = s ∧ managed_only p') s.
Proof.
  intros Hp. unfold addVfioDesiredKernelArg. destruct (DriverStateMap p !! Vfio) as [d|]; [|done].
  destruct (needsLoading state d); [|done]. apply wp_perform; [done|]. intros x s' [-> _].
  apply wp_ret. split; [done|]. destruct (match x with inl _ => _ | inr v => v end); [..|done|done];
    repeat (apply set_KernelArg_managed; [by vm_compute|]); done.
Qed.

Lemma wp_configRdma_boot state p (s : w_state bw) :
  managed_only p →
  wp bw anything (configRdmaKernelArg state p) (λ r s', s' = s ∧ managed_only r.1) s.
Proof.
  intros Hp. unfold configRdmaKernelArg. set (mode := sys_RdmaMode _).
  assert (Hset : ∀ p', managed_only p' →
    wp bw anything (r ← failing (perform (SetRDMASubsystem mode)); Ret (p', r))
      (λ r s', s' = s ∧ managed_only r.1) s).
  { intros p' Hp'. unfold failing. apply wp_bind, wp_perform; [done|]. intros x s' ->. by apply wp_ret. }
  repeat (destruct (String.eqb mode _)); [apply Hset..|done];
    repeat (apply set_KernelArg_managed; [by vm_compute|]); done.
Qed.

(** After a call that succeeds the next boot has the desired arguments. *)
Lemma wp_OnNodeStateChange_boot m (rangeKargs : gmap string bool → list (string * bool))
    (Hrange : ∀ m, rangeKargs m ≡ₚ map_to_list m) p state (s : w_state bw) :
  tools = ToolsWork → managed_only p → settled s → unambiguous s →
  wp bw anything (OnNodeStateChange m rangeKargs p state)
    (λ r s', ∀ d, r.2 = inr d → ∀ k v, DesiredKernelArgs r.1 !! k = Some v → (k ∈ bh_next s' ↔ v = true)) s.
Proof.
  intros Hw Hp Hset Hun. unfold OnNodeStateChange. apply wp_bind.
  eapply wp_post; [apply unedited, edits_needDrainNode|]. intros [e|d] s1 ->; [done|].
  apply wp_bind. unfold needRebootNode. apply wp_bind.
  eapply wp_post; [by apply wp_addVfio_boot|]. intros p1 s1 [-> Hp1].
  apply wp_bind. eapply wp_post; [by apply wp_configRdma_boot|]. intros [p2 [e|[]]] s1 [-> Hp2]; [done|].
  cbn [fst] in Hp2. apply wp_bind. unfold syncDesiredKernelArgs. apply wp_try. unfold getting.
  apply wp_perform; [done|]. intros x s1 [-> Hx]. apply wp_ret. destruct x as [e|c]; [done|].
  eapply wp_post; [apply wp_syncKargs_boot; [exact Hw| |]|].
  - rewrite Hrange. apply NoDup_fst_map_to_list.
  - intros k Hk. rewrite Hrange in Hk. apply list_elem_of_fmap in Hk as ([k' v] & -> & Hk).
    apply elem_of_map_to_list, elem_of_dom_2, Hp2 in Hk. split; [by apply Hun|apply Hset].
  - intros r s2 H. apply wp_ret. cbn [fst snd]. destruct r as [e|b]; [done|].
    intros d' _ k v Hk. destruct (H b eq_refl) as (_ & H2 & _). apply H2.
    rewrite Hrange. by apply elem_of_map_to_list.
Qed.

(** Where the script does not work, nothing changes. *)
Lemma boot_idle {A} (p : genM A) (s s' : BootHost) tr a :
  tools ≠ ToolsWork → exec boot_world p s tr a s' → s' = s.
Proof using Type.
  intros Hw Hex. induction Hex as [a s|r k s x s1 tr a s2 Hstep Hex IH]; [done|]. rewrite IH. clear IH Hex.
  destruct r; cbn in Hstep; try exact Hstep; try exact (proj1 Hstep). destruct tools, x as [[]|]; done.
Qed.
End boot.

(** ** Starting again after the reboot *)

Lemma boot_view tools pf cpu {A} (p : genM A) (s s' : BootHost) tr a :
  exec (boot_world tools pf cpu) p s tr a s' →
  bh_cmdline s' = bh_cmdline s ∧
  ∃ tr', exec (view_world (mkHostView (bh_cmdline s) pf cpu)) p tt tr' a tt.
Proof.
  intros H. destruct (exec_sim (boot_world tools pf cpu) (view_world (mkHostView (bh_cmdline s) pf cpu))
    (λ t _, bh_cmdline t = bh_cmdline s) p s tr a s' tt) as (tr' & [] & H' & E); [|done..|].
  - intros t [] r x t' Ht Hs. exists tt. destruct r; cbn in Hs |- *; try (by subst t').
    + destruct Hs as [-> Hs]. split; [|done]. destruct x; [done|]. congruence.
    + destruct tools, x as [[]|]; by subst.
    + by destruct Hs as [-> ->].
    + by destruct Hs as [-> ->].
  - eauto.
Qed.

(** A run of [start] is a run of [OnNodeStateChange] on a fresh plugin. *)
Lemma start_exec tools pf cpu m rangeKargs state (s s' : BootHost) tr p d :
  exec (boot_world tools pf cpu) (start m rangeKargs state) s tr (inr (p, d)) s' →
  ∃ tr', exec (boot_world tools pf cpu)
    (OnNodeStateChange m rangeKargs (fresh_plugin (bh_cmdline s)) state) s tr' (p, inr d) s'.
Proof.
  unfold start, NewGenericPlugin, getting. intros H.
  apply exec_bind in H as (r & s1 & tr1 & tr2 & H1 & H2 & _).
  apply exec_bind in H1 as (r1 & s2 & tr3 & tr4 & H3 & H4 & _).
  apply exec_bind in H3 as (x & s3 & tr5 & tr6 & H5 & H6 & _).
  apply exec_inv in H5 as (y & s4 & tr7 & Hstep & H5 & _). apply exec_inv in H5 as (-> & -> & _).
  destruct Hstep as [-> Hx]. apply exec_inv in H6 as (<- & <- & _).
  destruct x as [e|c]; apply exec_inv in H4 as (<- & <- & _).
  { by apply exec_inv in H2 as ([=] & _). }
  subst c. apply exec_bind in H2 as ([p' r] & s5 & tr8 & tr9 & H7 & H8 & _).
  apply exec_inv in H8 as (E & -> & _). destruct r as [e|d']; [done|]. injection E as -> ->.
  exists tr8. exact H7.
Qed.

Lemma initial_lookup c k :
  initialKernelArgs c !! k =
    if decide (k = KernelArgPciRealloc ∨ k = KernelArgIntelIommu ∨ k = KernelArgIommuPt)
    then Some (IsKernelArgsSet c k)
    else if decide (k = KernelArgRdmaShared ∨ k = KernelArgRdmaExclusive) then Some false else None.
Proof.
  unfold initialKernelArgs. rewrite !lookup_insert, lookup_singleton.
  repeat case_decide; subst; try done; exfalso; naive_solver.
Qed.

(** The arguments wanted on a fresh start: set by the state, or as they are. *)
Definition forced (cpu : CPUVendor) (state : SriovNetworkNodeState) (k : string) : option bool :=
  let mode := sys_RdmaMode (nss_System (ns_Spec state)) in
  let vfio := vfio_wanted (fresh_plugin "") state in
  if decide (KernelArgRdmaShared = k) then Some (String.eqb mode "shared")
  else if decide (KernelArgRdmaExclusive = k) then Some (String.eqb mode "exclusive")
  else if decide (KernelArgIommuPt = k) then
    if vfio && bool_decide (cpu = CPUVendorIntel ∨ cpu = CPUVendorAMD) then Some true else None
  else if decide (KernelArgIntelIommu = k) then
    if vfio && bool_decide (cpu = CPUVendorIntel) then Some true else None
  else None.

Lemma wanted_fresh hv c state k :
  wanted hv (fresh_plugin c) state !! k =
    match forced (cpu_of hv) state k with Some b => Some b | None => initialKernelArgs c !! k end.
Proof.
  unfold wanted, forced. change (vfio_wanted (fresh_plugin c) state) with (vfio_wanted (fresh_plugin "") state).
  set (v := vfio_wanted _ _). cbn [DesiredKernelArgs fresh_plugin].
  rewrite !lookup_insert. do 2 (case_decide; [done|]).
  assert (KernelArgIommuPt ≠ KernelArgIntelIommu) by done.
  destruct v; cbn [andb]; [|by repeat case_decide].
  repeat case_bool_decide; rewrite ?lookup_insert; repeat case_decide; subst; try done; tauto.
Qed.

(** What was wanted before the reboot is in force after it, so nothing differs. *)
Lemma wanted_stable hv hv' c c' state :
  cpu_of hv' = cpu_of hv →
  (∀ k v, wanted hv (fresh_plugin c) state !! k = Some v → IsKernelArgsSet c' k = v) →
  ¬ kargs_differ c' (wanted hv' (fresh_plugin c') state).
Proof.
  intros Hcpu H (k & b & Hk & Hd). apply Hd. rewrite wanted_fresh, Hcpu in Hk.
  specialize (H k). rewrite wanted_fresh in H.
  destruct (forced (cpu_of hv) state k) as [b'|] eqn:Ef; [by apply H|].
  rewrite initial_lookup in Hk, H. repeat case_decide; naive_solver.
Qed.

(** The decision depends on the arguments that are set only. *)
Lemma kargs_differ_args hv hv' c c' state :
  cpu_of hv' = cpu_of hv → (∀ k, IsKernelArgsSet c' k = IsKernelArgsSet c k) →
  kargs_differ c (wanted hv (fresh_plugin c) state) ↔ kargs_differ c' (wanted hv' (fresh_plugin c') state).
Proof.
  intros Hcpu H. unfold kargs_differ.
  assert (Hw : ∀ k, wanted hv' (fresh_plugin c') state !! k = wanted hv (fresh_plugin c) state !! k).
  { intros k. rewrite !wanted_fresh, Hcpu. destruct (forced _ _ _); [done|]. by rewrite !initial_lookup, H. }
  by setoid_rewrite Hw; setoid_rewrite H.
Qed.

(** C23: No reboot loop: on a host whose boot configuration agrees with the
    running kernel and on which no other argument contains the text of a
    managed one, if the daemon starts, the generic plugin's [OnNodeStateChange]
    succeeds (whatever it answers), the node reboots and the daemon starts
    again with the same node state, then no further reboot is asked for where
    kargs.sh can edit the boot configuration; where it cannot (no rpm-ostree and
    no grubby, or Ubuntu), a reboot is asked for again exactly if the first start
    asked for one.  In whatever order the maps are visited. *)
Theorem no_reboot_loop (tools : Tools) (pf : string → string + option Interface) (cpu : string + CPUVendor) (m : bool)
    (rangeKargs : gmap string bool → list (string * bool)) (state : SriovNetworkNodeState)
    (s s1 s2 s3 : BootHost) (tr tr' : list (BootHost * GenReq)) (p p' : GenericPlugin)
    (d : bool * bool) (drain reboot : bool)
    (Hrange : ∀ m, rangeKargs m ≡ₚ map_to_list m) (Hs : settled s) (Hun : unambiguous s)
    (Hstart : exec (boot_world tools pf cpu) (start m rangeKargs state) s tr (inr (p, d)) s1)
    (Hboot : reboots s1 s2)
    (Hagain : exec (boot_world tools pf cpu) (start m rangeKargs state) s2 tr' (inr (p', (drain, reboot))) s3) :
  reboot = match tools with ToolsWork => false | ToolsMissing | ToolsUnsupported => d.2 end.
Proof.
  apply start_exec in Hstart as [t1 H1]. apply start_exec in Hagain as [t2 H2].
  destruct (boot_view _ _ _ _ _ _ _ _ H1) as (_ & u1 & V1).
  destruct (boot_view _ _ _ _ _ _ _ _ H2) as (_ & u2 & V2).
  destruct d as [d1 r1].
  set (hv := mkHostView (bh_cmdline s) pf cpu) in V1. set (hv' := mkHostView (bh_cmdline s2) pf cpu) in V2.
  destruct (wp_exec _ _ _ _ _ _ _ _
    (wp_OnNodeStateChange_decided m rangeKargs hv Hrange _ state tt) V1) as [[_ D1] _].
  destruct (wp_exec _ _ _ _ _ _ _ _
    (wp_OnNodeStateChange_decided m rangeKargs hv' Hrange _ state tt) V2) as [[_ D2] _].
  destruct (D1 _ _ eq_refl) as (K1 & R1 & _). destruct (D2 _ _ eq_refl) as (K2 & R2 & _). cbn [fst] in *.
  destruct (decide (tools = ToolsWork)) as [Hw|Hw].
  - rewrite Hw. assert (Hm : managed_only (fresh_plugin (bh_cmdline s))).
    { intros k Hk. apply elem_of_dom in Hk as [b Hb]. unfold fresh_plugin in Hb. cbn [DesiredKernelArgs] in Hb.
      rewrite initial_lookup in Hb.
      unfold managed. repeat case_decide; [| |done]; destruct_or?; subst k; by vm_compute. }
    destruct (wp_exec _ _ _ _ _ _ _ _
      (wp_OnNodeStateChange_boot tools pf cpu m rangeKargs Hrange _ state s Hw Hm Hs Hun) H1) as [N1 _].
    destruct reboot; [|done]. exfalso. apply (wanted_stable hv hv' (bh_cmdline s) (bh_cmdline s2) state).
    + done.
    + intros k v Hk. rewrite <- K1 in Hk. specialize (N1 _ eq_refl k v Hk). specialize (Hboot k).
      destruct (IsKernelArgsSet (bh_cmdline s2) k), v; naive_solver.
    + rewrite <- K2. by apply R2.
  - apply (boot_idle _ _ _ _ _ _ _ _ Hw) in H1 as ->.
    assert (Hsame : ∀ k, IsKernelArgsSet (bh_cmdline s2) k = IsKernelArgsSet (bh_cmdline s) k).
    { intros k. specialize (Hboot k). rewrite (Hs k) in Hboot. apply eq_iff_eq_true. exact Hboot. }
    rewrite K1 in R1. rewrite K2 in R2.
    pose proof (kargs_differ_args hv hv' (bh_cmdline s) (bh_cmdline s2) state eq_refl Hsame) as Hd.
    assert (reboot = r1) as -> by (apply eq_iff_eq_true; rewrite R1, R2; by symmetry). by destruct tools.
Qed.

(** *** A node that gets the IOMMU arguments *)

Definition boot_handle (tools : Tools) (s : BootHost) (r : GenReq) : GenResp r * BootHost :=
  match r with
  | RunKargs mode karg =>
      match tools with
      | ToolsWork => (None, run_kargs mode karg s)
      | ToolsMissing => (Some CmdNotFound, s)
      | ToolsUnsupported => (None, s)
      end
  | r => ((view_handle (mkHostView (bh_cmdline s) (λ _, inr None) (inr CPUVendorIntel)) tt r).1, s)
  end.

Lemma boot_handle_ok tools s r :
  w_step (boot_world tools (λ _, inr None) (inr CPUVendorIntel)) s r
    (boot_handle tools s r).1 (boot_handle tools s r).2.
Proof. destruct r; try done. by destruct tools. Qed.

Definition bare_node : BootHost := mkBootHost "quiet" {[ "quiet" ]}.
Definition edited_node : BootHost := mkBootHost "quiet" {[ "quiet"; "intel_iommu=on"; "iommu=pt" ]}.
Definition iommu_node : BootHost :=
  mkBootHost "quiet intel_iommu=on iommu=pt" (bh_next edited_node).

Lemma IsKernelArgsSet_elem c k : IsKernelArgsSet c k = true ↔ k ∈ Fields c.
Proof.
  unfold IsKernelArgsSet. rewrite existsb_exists. setoid_rewrite String.eqb_eq.
  setoid_rewrite <- list_elem_of_In. naive_solver.
Qed.

Definition sample_start : genM (GenError + (GenericPlugin * (bool * bool))) :=
  start false map_to_list vfio_state.

Lemma bare_settled : settled bare_node ∧ unambiguous bare_node.
Proof.
  split.
  - intros k. rewrite IsKernelArgsSet_elem. change (Fields _) with ["quiet"]. cbn [bh_next bare_node].
    by rewrite elem_of_singleton, list_elem_of_singleton.
  - intros k Hk. apply elem_of_elements in Hk. revert k Hk. apply Forall_forall.
    vm_compute. repeat constructor.
Qed.

(** With the tools the second start asks for nothing. *)
Lemma no_reboot_loop_witness :
  (∃ p, run (boot_handle ToolsWork) sample_start bare_node = (inr (p, (true, true)), edited_node)) ∧
  (∃ p, run (boot_handle ToolsWork) sample_start iommu_node = (inr (p, (false, false)), iommu_node)) ∧
  false = false.
Proof.
  assert (E1 : ∃ p, run (boot_handle ToolsWork) sample_start bare_node = (inr (p, (true, true)), edited_node))
    by (eexists; vm_compute; reflexivity).
  assert (E2 : ∃ p, run (boot_handle ToolsWork) sample_start iommu_node = (inr (p, (false, false)), iommu_node))
    by (eexists; vm_compute; reflexivity).
  split; [exact E1|]. split; [exact E2|]. destruct E1 as [p1 E1], E2 as [p2 E2].
  refine (no_reboot_loop ToolsWork (λ _, inr None) (inr CPUVendorIntel) false map_to_list vfio_state
    bare_node edited_node iommu_node iommu_node _ _ p1 p2 (true, true) false false
    (λ m, Permutation_refl _) (proj1 bare_settled) (proj2 bare_settled)
    (run_exec_eq (boot_world _ _ _) (boot_handle ToolsWork) sample_start _ _ _ (boot_handle_ok _) E1) _
    (run_exec_eq (boot_world _ _ _) (boot_handle ToolsWork) sample_start _ _ _ (boot_handle_ok _) E2)).
  intros k. rewrite IsKernelArgsSet_elem. change (Fields _) with ["quiet"; "intel_iommu=on"; "iommu=pt"].
  cbn [bh_next edited_node]. rewrite !elem_of_union, !elem_of_singleton, !elem_of_cons, elem_of_nil. tauto.
Defined.

(** Without grubby and rpm-ostree (exit status 127) the comment of
    [editKernelArg] says the arguments are assumed to be set correctly, but
    the decision compares them with the running kernel all the same: the
    reboot is asked for, nothing on the host changes, and the next start asks
    again. *)
Theorem reboot_asked_without_tools :
  ∃ p, run (boot_handle ToolsMissing) sample_start bare_node = (inr (p, (true, true)), bare_node).
Proof. eexists. vm_compute. reflexivity. Qed.
