(* ===== verification/NodePolicy.v ===== *)
(** * The node policy controller (controllers/sriovnetworknodepolicy_controller.go)

    One reconciliation for the whole cluster: every selected node gets a
    SriovNetworkNodeState whose spec is what the policies ask for, states of
    nodes that left are removed after a delay, and the device plugin's
    configuration is rendered from the same policies. *)
From S2P Require Import Prelude GoLib Types VfRange Selector Policy BridgeConfig PoolConfig Effects Kube.
From S2P Require Import DrainController.

(** ** The calls of the controller *)

Record ConfigMap := mkConfigMap { cm_meta : ObjectMeta; cm_Data : gmap string string }.

Inductive NPReq :=
| GetOperatorConfig
| ListPolicies
| ListNodesByLabels (labels : gmap string string)
| GetConfigMap
| Pool (r : DrainReq)                 (* a call of [findNodePoolConfig] *)
| GetState (name : string)
| CreateState (s : SriovNetworkNodeState)
| UpdateState (s : SriovNetworkNodeState)
| DeleteState (s : SriovNetworkNodeState)
| ListStates
| GetNodeByName (name : string)
| PatchNodeLabels (original obj : Node)
| Now
| CreateConfigMap (cm : ConfigMap)
| UpdateConfigMap (cm : ConfigMap).

Definition NPResp (r : NPReq) : Type :=
  match r with
  | GetOperatorConfig => KubeError + SriovOperatorConfig
  | ListPolicies => KubeError + list SriovNetworkNodePolicy
  | ListNodesByLabels _ => KubeError + list Node
  | GetConfigMap => KubeError + ConfigMap
  | Pool r => DrainResp r
  | GetState _ => KubeError + SriovNetworkNodeState
  | CreateState _ | UpdateState _ | DeleteState _ => option KubeError
  | ListStates => KubeError + list SriovNetworkNodeState
  | GetNodeByName _ | PatchNodeLabels _ _ => KubeError + Node
  | Now => Z
  | CreateConfigMap _ | UpdateConfigMap _ => option KubeError
  end%type.

Abbreviation npM := (prog NPResp).

Fixpoint pooled {A} (p : drainM A) : npM A :=
  match p with
  | Ret a => Ret a
  | Vis r k => Vis (Pool r) (λ x, pooled (k x))
  end.

(** [NPPanic]: a run-time panic, which unwinds through every caller. *)
Inductive NPError :=
| NPKube (e : KubeError)
| NPOwner (msg : string)
| NPApply
| NPBridge
| NPSelectors (msg : string)
| NPNoInterfaces (name : string)
| NPPanic.

Definition npCall (c : npM (option KubeError)) : npM (NPError + unit) :=
  r ← c; Ret (match r with Some e => inl (NPKube e) | None => inr tt end).

Definition npGet {A} (c : npM (KubeError + A)) : npM (NPError + A) :=
  r ← c; Ret (match r with inl e => inl (NPKube e) | inr a => inr a end).

Definition nodePolicySyncEventName := "node-policy-sync-event".
Definition DefaultPolicyName := "default".
Definition ResyncPeriod : Z := 300.
Definition DefaultNodeStateCleanupDelayMinutes : Z := 30.
Definition SriovDevicePluginLabel := "sriovnetwork.openshift.io/device-plugin".
Definition SriovDevicePluginLabelEnabled := "Enabled".
Definition SriovDevicePluginLabelDisabled := "Disabled".
Definition LinkTypeEthernet := "ether".
Definition LinkTypeInfiniband := "infiniband".
Definition ConfigMapName := "device-plugin-config".

(** ** What the policies ask for *)

Definition initial_ppp : Z := 100.

(** The policies a node is configured by. *)
Definition applies (p : SriovNetworkNodePolicy) (node : Node) : bool :=
  negb (String.eqb (p_Name p) DefaultPolicyName) && Policy_Selected p node.

(** The loop of [syncSriovNetworkNodeState]; [ppp] is the priority of the
    policy applied before. *)
Fixpoint applyPolicies (ManageSoftwareBridges : bool) (node : Node) (ppp : Z)
    (items : list SriovNetworkNodePolicy) (newVersion : SriovNetworkNodeState)
    : NPError + SriovNetworkNodeState :=
  match items with
  | [] => inr newVersion
  | p :: rest =>
      if negb (applies p node) then applyPolicies ManageSoftwareBridges node ppp rest newVersion
      else
        match Apply p newVersion (ppp =? ps_Priority (p_Spec p)) with
        | Err _ => inl NPApply
        | Panic => inl NPPanic
        | Ok v1 =>
            if ManageSoftwareBridges then
              match ApplyBridgeConfig p v1 with
              | Err _ => inl NPBridge
              | Panic => inl NPPanic
              | Ok v2 => applyPolicies ManageSoftwareBridges node (ps_Priority (p_Spec p)) rest v2
              end
            else applyPolicies ManageSoftwareBridges node (ps_Priority (p_Spec p)) rest v1
        end
  end.

(** The state built for a node before the policies: the pool's RDMA mode and
    OVS options, nothing else.  An error of [findNodePoolConfig] is logged and
    leaves them empty. *)
Definition baseSpec (pool : option SriovNetworkPoolConfig) : SriovNetworkNodeStateSpec :=
  mkNodeStateSpec [] (mkBridges [])
    (match pool with
     | None => mkSystem "" ∅
     | Some npc => mkSystem (pcs_RdmaMode (pc_Spec npc))
                     (ovs_OvsConfig (pcs_OvsHardwareOffloadConfig (pc_Spec npc)))
     end).

Definition newState (name namespace : string) (spec : SriovNetworkNodeStateSpec) : SriovNetworkNodeState :=
  mkNodeState (mkObjectMeta name namespace 0 ∅ ∅ []) spec
    (mkNodeStateStatus [] (mkBridges []) (mkSystem "" ∅) "" "" []).

(** ** The device plugin's configuration *)

(** The fields of the device plugin's selectors the controller uses. *)
Record NetDeviceSelectors := mkSelectors {
  nds_Vendors : list string;
  nds_Devices : list string;
  nds_PciAddresses : list string;
  nds_PfNames : list string;
  nds_RootDevices : list string;
  nds_LinkTypes : list string;
  nds_IsRdma : bool;
  nds_NeedVhostNet : bool;
  nds_VdpaType : string;
}.

(** [rc_Selectors] is raw JSON. *)
Record ResourceConfig := mkResourceConfig {
  rc_ResourceName : string;
  rc_ExcludeTopology : bool;
  rc_Selectors : string;
}.

Definition resourceNameInList (name : string) (rcl : list ResourceConfig) : bool * nat :=
  match list_find (λ rc, rc_ResourceName rc = name) rcl with
  | Some (i, _) => (true, i)
  | None => (false, 0%nat)
  end.

Definition resolvePfName (nodeState : SriovNetworkNodeState) (pfName : string) : string :=
  if ContainsByte "#" pfName then
    match SplitN2 pfName "#" with
    | (nameToResolve, Some rng) => ResolveInterfaceName nameToResolve (Some nodeState) +:+ ("#" +:+ rng)
    | (nameToResolve, None) => ResolveInterfaceName nameToResolve (Some nodeState)
    end
  else ResolveInterfaceName pfName (Some nodeState).

Definition resolvePfNames (pfNames : list string) (nodeState : SriovNetworkNodeState) : list string :=
  resolvePfName nodeState <$> pfNames.

Section resource.
(** json.Marshal and json.Unmarshal on the selectors; the table of NICs. *)
Context (Marshal : NetDeviceSelectors → string) (Unmarshal : string → string + NetDeviceSelectors).
Context (NicIDMap : list string).

(** The device id added for a policy: none, or the panic of a malformed
    table. *)
Definition policyDeviceID (p : SriovNetworkNodePolicy) : NPError + option string :=
  let spec := p_Spec p in
  let id := sel_DeviceID (ps_NicSelector spec) in
  if String.eqb id "" then inr None
  else if ps_NumVfs spec =? 0 then inr (Some id)
  else match GetVfDeviceID NicIDMap id with
       | Ok d => if String.eqb d "" then inr None else inr (Some d)
       | _ => inl NPPanic
       end.

Definition policyLinkType (p : SriovNetworkNodePolicy) : list string :=
  let spec := p_Spec p in
  if String.eqb (ps_DeviceType spec) DeviceTypeVfioPci then []
  else if String.eqb (ps_LinkType spec) "" then []
  else [if EqualFold (ps_LinkType spec) LinkTypeIB then LinkTypeInfiniband else LinkTypeEthernet].

(** The addresses of the interfaces that match the policy's net filter. *)
Definition netFilterAddresses (p : SriovNetworkNodePolicy) (nodeState : SriovNetworkNodeState) : list string :=
  let f := sel_NetFilter (ps_NicSelector (p_Spec p)) in
  if String.eqb f "" then []
  else ie_PciAddress <$> List.filter (λ i, NetFilterMatch f (ie_NetFilter i)) (nst_Interfaces (ns_Status nodeState)).

Definition appendNew (o : option string) (l : list string) : list string :=
  match o with
  | Some x => if StringInArray x l then l else l ++ [x]
  | None => l
  end.

Definition policyVendor (p : SriovNetworkNodePolicy) : option string :=
  let v := sel_Vendor (ps_NicSelector (p_Spec p)) in if String.eqb v "" then None else Some v.

(** The selectors of the empty resource get the root devices appended as they
    are; those of an existing one only if new. *)
Definition addPolicy (rootDevices : list string → list string → list string)
    (p : SriovNetworkNodePolicy) (nodeState : SriovNetworkNodeState) (nds : NetDeviceSelectors)
    : NPError + NetDeviceSelectors :=
  match policyDeviceID p with
  | inl e => inl e
  | inr deviceID =>
      let sel := ps_NicSelector (p_Spec p) in
      inr {| nds_Vendors := appendNew (policyVendor p) (nds_Vendors nds);
             nds_Devices := appendNew deviceID (nds_Devices nds);
             nds_PciAddresses := UniqueAppend (nds_PciAddresses nds) (netFilterAddresses p nodeState);
             nds_PfNames := UniqueAppend (nds_PfNames nds) (resolvePfNames (sel_PfNames sel) nodeState);
             nds_RootDevices := rootDevices (nds_RootDevices nds) (sel_RootDevices sel);
             nds_LinkTypes := UniqueAppend (nds_LinkTypes nds) (policyLinkType p);
             nds_IsRdma := nds_IsRdma nds;
             nds_NeedVhostNet := nds_NeedVhostNet nds;
             nds_VdpaType := nds_VdpaType nds |}
  end.

Definition createDevicePluginResource (p : SriovNetworkNodePolicy) (nodeState : SriovNetworkNodeState)
    : NPError + ResourceConfig :=
  let spec := p_Spec p in
  if negb (String.eqb (sel_NetFilter (ps_NicSelector spec)) "") &&
     bool_decide (nst_Interfaces (ns_Status nodeState) = [])
  then match policyDeviceID p with
       | inl e => inl e
       | inr _ => inl (NPNoInterfaces (ns_Name nodeState))
       end
  else
    match addPolicy app p nodeState (mkSelectors [] [] [] [] [] [] (ps_IsRdma spec)
            (ps_NeedVhostNet spec) (ps_VdpaType spec)) with
    | inl e => inl e
    | inr nds => inr (mkResourceConfig (ps_ResourceName spec) (ps_ExcludeTopology spec) (Marshal nds))
    end.

Definition updateDevicePluginResource (rc : ResourceConfig) (p : SriovNetworkNodePolicy)
    (nodeState : SriovNetworkNodeState) : NPError + ResourceConfig :=
  match Unmarshal (rc_Selectors rc) with
  | inl e => inl (NPSelectors e)
  | inr nds =>
      match addPolicy UniqueAppend p nodeState nds with
      | inl e => inl e
      | inr nds' => inr (mkResourceConfig (rc_ResourceName rc) (ps_ExcludeTopology (p_Spec p)) (Marshal nds'))
      end
  end.

(** The loop of [renderDevicePluginConfigData]; [rcl] is what was rendered so
    far. *)
Fixpoint renderPolicies (node : Node) (items : list SriovNetworkNodePolicy) (rcl : list ResourceConfig)
    : npM (NPError + list ResourceConfig) :=
  match items with
  | [] => Ret (inr rcl)
  | p :: rest =>
      if negb (applies p node) then renderPolicies node rest rcl
      else
        nodeState ⇐ npGet (perform (GetState (GetName node)));
        let '(found, i) := resourceNameInList (ps_ResourceName (p_Spec p)) rcl in
        if found : bool then
          match rcl !! i with
          | None => Ret (inl NPPanic)
          | Some rc =>
              match updateDevicePluginResource rc p nodeState with
              | inl e => Ret (inl e)
              | inr rc' => renderPolicies node rest (<[i := rc']> rcl)
              end
          end
        else
          match createDevicePluginResource p nodeState with
          | inl e => Ret (inl e)
          | inr rc => renderPolicies node rest (rcl ++ [rc])
          end
  end.

Definition renderDevicePluginConfigData (pl : list SriovNetworkNodePolicy) (node : Node)
    : npM (NPError + list ResourceConfig) := renderPolicies node pl [].
End resource.

(** ** The node states *)

Section controller.
Context (ManageSoftwareBridges : bool) (Namespace : string).
(** controllerutil.SetControllerReference with the operator's scheme, on the
    metadata of an object. *)
Context (SetControllerReference : SriovOperatorConfig → ObjectMeta → string + ObjectMeta).
Context (selector_valid : LabelSelector → bool).
(** RFC 3339 times (whole seconds), and the STALE_NODE_STATE_CLEANUP_DELAY_MINUTES variable. *)
Context (Format : Z → string) (Parse : string → option Z) (cleanupDelayEnv : option string).

Definition syncSriovNetworkNodeState (dc : SriovOperatorConfig) (npl : list SriovNetworkNodePolicy)
    (ns0 : SriovNetworkNodeState) (node : Node) : npM (NPError + unit) :=
  match SetControllerReference dc (ns_meta ns0) with
  | inl e => Ret (inl (NPOwner e))
  | inr meta =>
      let ns := ns_set_meta meta ns0 in
      r ← perform (GetState (ns_Name ns));
      match r with
      | inl e =>
          if IsNotFound e then npCall (perform (CreateState ns)) else Ret (inl (NPKube e))
      | inr fetched =>
          let '(found, keepUntilAnnotationUpdated) := ResetKeepUntilTime fetched in
          if bool_decide (nst_Interfaces (ns_Status found) = []) then
            if keepUntilAnnotationUpdated : bool then npCall (perform (UpdateState found))
            else Ret (inr tt)
          else
            let newVersion := ns_set_meta (set_OwnerReferences (om_OwnerReferences (ns_meta ns)) (ns_meta found))
                                (ns_set_spec (ns_Spec ns) found) in
            match applyPolicies ManageSoftwareBridges node initial_ppp npl newVersion with
            | inl e => Ret (inl e)
            | inr newVersion' =>
                if negb keepUntilAnnotationUpdated &&
                   bool_decide (om_OwnerReferences (ns_meta newVersion') = om_OwnerReferences (ns_meta found)) &&
                   bool_decide (ns_Spec newVersion' = ns_Spec found)
                then Ret (inr tt)
                else npCall (perform (UpdateState newVersion'))
            end
      end
  end.

(** The delay in minutes. *)
Definition cleanupDelay : Z :=
  match cleanupDelayEnv with
  | None => DefaultNodeStateCleanupDelayMinutes
  | Some v =>
      match Atoi v with
      | (n, None) => if n <? 0 then DefaultNodeStateCleanupDelayMinutes else n
      | (_, Some _) => DefaultNodeStateCleanupDelayMinutes
      end
  end.

(** [time.Minute * time.Duration(d)], nanoseconds in 64 bits, in seconds. *)
Definition minutes (d : Z) : Z := wrap64 (60 * 10 ^ 9 * d) / 10 ^ 9.

Definition handleStaleNodeState (ns : SriovNetworkNodeState) : npM (NPError + unit) :=
  if negb (cleanupDelay =? 0) then
    now ← perform Now;
    match GetKeepUntilTime Parse ns with
    | None =>
        npCall (perform (UpdateState (SetKeepUntilTime Format (now + minutes cleanupDelay) ns)))
    | Some keepUntilTime =>
        if now <? keepUntilTime then Ret (inr tt) else npCall (perform (DeleteState ns))
    end
  else npCall (perform (DeleteState ns)).

Definition labelNode (name value : string) : npM (NPError + unit) :=
  npCall (LabelNode (resp := NPResp) (λ original obj, perform (PatchNodeLabels original obj))
    (λ n, perform (GetNodeByName n)) name SriovDevicePluginLabel value).

(** findNodePoolConfig of controllers/helper.go, a copy of the drain controller's
    method up to the logger. *)
Definition helper_findNodePoolConfig (node : Node) : npM (DrainError + (SriovNetworkPoolConfig * list Node)) :=
  pooled (findNodePoolConfig selector_valid node).

Fixpoint syncStates (dc : SriovOperatorConfig) (npl : list SriovNetworkNodePolicy) (nodes : list Node)
    : npM (NPError + unit) :=
  match nodes with
  | [] => Ret (inr tt)
  | node :: rest =>
      r ← helper_findNodePoolConfig node;
      let pool := match r with inl _ => None | inr (npc, _) => Some npc end in
      syncSriovNetworkNodeState dc npl (newState (GetName node) Namespace (baseSpec pool)) node ;;!
      syncStates dc npl rest
  end.

Fixpoint cleanStates (nodes : list Node) (states : list SriovNetworkNodeState) : npM (NPError + unit) :=
  match states with
  | [] => Ret (inr tt)
  | ns :: rest =>
      if existsb (λ node, String.eqb (ns_Name ns) (GetName node)) nodes then cleanStates nodes rest
      else
        err ← RemoveLabelFromNode (resp := NPResp) (λ original obj, perform (PatchNodeLabels original obj))
                (λ n, perform (GetNodeByName n)) (ns_Name ns) SriovDevicePluginLabel;
        match err with
        | Some e => if IsNotFound e then handleStaleNodeState ns ;;! cleanStates nodes rest
                    else Ret (inl (NPKube e))
        | None => handleStaleNodeState ns ;;! cleanStates nodes rest
        end
  end.

Definition syncAllSriovNetworkNodeStates (dc : SriovOperatorConfig) (npl : list SriovNetworkNodePolicy)
    (nodes : list Node) : npM (NPError + unit) :=
  perform GetConfigMap ≫= λ _,
  syncStates dc npl nodes ;;!
  (r ← perform ListStates;
   match r with
   | inl e => if IsNotFound e then Ret (inr tt) else Ret (inl (NPKube e))
   | inr states => cleanStates nodes states
   end).

(** ** The config map and the whole reconciliation *)

Context (Marshal : NetDeviceSelectors → string) (Unmarshal : string → string + NetDeviceSelectors).
Context (MarshalResources : list ResourceConfig → string + string) (NicIDMap : list string).

Fixpoint renderNodes (pl : list SriovNetworkNodePolicy) (nodes : list Node)
    (configData : gmap string string) : npM (NPError + gmap string string) :=
  match nodes with
  | [] => Ret (inr configData)
  | node :: rest =>
      data ⇐ renderDevicePluginConfigData Marshal Unmarshal NicIDMap pl node;
      match MarshalResources data with
      | inl e => Ret (inl (NPSelectors e))
      | inr config =>
          labelNode (GetName node)
            (if bool_decide (data = []) then SriovDevicePluginLabelDisabled
             else SriovDevicePluginLabelEnabled) ;;!
          renderNodes pl rest (<[GetName node := config]> configData)
      end
  end.

Definition syncDevicePluginConfigMap (dc : SriovOperatorConfig) (pl : list SriovNetworkNodePolicy)
    (nodes : list Node) : npM (NPError + unit) :=
  configData ⇐ renderNodes pl nodes ∅;
  match SetControllerReference dc (mkObjectMeta ConfigMapName Namespace 0 ∅ ∅ []) with
  | inl e => Ret (inl (NPOwner e))
  | inr meta =>
      let cm := mkConfigMap meta configData in
      r ← perform GetConfigMap;
      match r with
      | inl e => if IsNotFound e then npCall (perform (CreateConfigMap cm)) else Ret (inl (NPKube e))
      | inr _ => npCall (perform (UpdateConfigMap cm))
      end
  end.

Definition defaultNodeSelector : gmap string string :=
  {[ "node-role.kubernetes.io/worker" := ""; "kubernetes.io/os" := "linux" ]}.

(** The result: the error, or after how many seconds to run again (0: never). *)
Definition Reconcile (reqNamespace reqName : string) : npM (NPError + Z) :=
  if negb (String.eqb reqName nodePolicySyncEventName) || negb (String.eqb reqNamespace "") then Ret (inr 0)
  else
    r ← perform GetOperatorConfig;
    match r with
    | inl e => if IsNotFound e then Ret (inr DrainControllerRequeueTime) else Ret (inl (NPKube e))
    | inr defaultOpConf =>
        r ← perform ListPolicies;
        match r with
        | inl e => if IsNotFound e then Ret (inr 0) else Ret (inl (NPKube e))
        | inr policyList =>
            let sel := ocs_ConfigDaemonNodeSelector (opc_Spec defaultOpConf) in
            nodeList ⇐ npGet (perform (ListNodesByLabels (if bool_decide (sel = ∅) then defaultNodeSelector else sel)));
            let sorted := sort_ByPriority policyList in
            syncAllSriovNetworkNodeStates defaultOpConf sorted nodeList ;;!
            syncDevicePluginConfigMap defaultOpConf sorted nodeList ;;!
            Ret (inr ResyncPeriod)
        end
    end.
End controller.
