(* ===== verification/NodePolicySpec.v ===== *)
(** * What the node policy controller guarantees

    From admitted policies to node states: the policies can always be applied
    and give a well-formed state; the stored state converges to it and is then
    left alone; the device plugin gets one resource per resource name. *)
From S2P Require Import Prelude GoLib Types VfRange Selector Policy BridgeConfig PoolConfig Webhook Effects Kube.
From S2P Require Import RebootTracker NodePolicy.

(** ** From admission to a well-formed node state *)

Section admitted.
Context (NicIDMap : list string) (dev : bool).

(** What the webhook let through; NumVfs is a Go int. *)
Definition admitted (p : SriovNetworkNodePolicy) : Prop :=
  (∃ b, staticValidateSriovNetworkNodePolicy NicIDMap dev p = Ok b) ∧ ps_NumVfs (p_Spec p) ≤ max_int64.

Lemma admitted_policy_ok p : admitted p → policy_ok p.
Proof. intros [[b Hb] Hn]. eauto using static_policy_ok. Qed.

(** The webhook's rules on bridges cover those of [ApplyBridgeConfig]. *)
Lemma admitted_bridge p : admitted p → checkBridgePolicy (p_Spec p) = None.
Proof.
  intros [[b [_ Hb]%staticValidate_rules] _]. unfold checkBridgePolicy.
  destruct (Bridge_IsEmpty (ps_Bridge (p_Spec p))) eqn:E; [done|].
  assert (b_OVS (ps_Bridge (p_Spec p)) ≠ None) as Hb'.
  { intros H%Bridge_IsEmpty_spec. congruence. }
  destruct (sr_bridge _ _ _ Hb Hb') as [Hs ->]. pose proof (sr_switchdev _ _ _ Hb Hs) as Hl.
  rewrite Hs, String.eqb_refl. cbn [negb]. destruct (String.eqb_spec (ps_LinkType (p_Spec p)) ""); [done|].
  by rewrite Hl.
Qed.

Lemma ApplyBridgeConfig_frame p s :
  admitted p →
  ∃ s', ApplyBridgeConfig p s = Ok s' ∧ ns_meta s' = ns_meta s ∧ ns_Status s' = ns_Status s ∧
    nss_Interfaces (ns_Spec s') = nss_Interfaces (ns_Spec s) ∧ nss_System (ns_Spec s') = nss_System (ns_Spec s).
Proof.
  intros Hp%admitted_bridge. unfold ApplyBridgeConfig. rewrite Hp.
  destruct (NicSelector_IsEmpty _); eexists; by split_and!.
Qed.

Context (ManageSoftwareBridges : bool) (node : Node).

(** No applied policy selects an interface with this PCI address. *)
Definition untouched (items : list SriovNetworkNodePolicy) (sts : list InterfaceExt) (pci : string) : Prop :=
  ∀ p iface, p ∈ items → applies p node = true → iface ∈ sts →
    NicSelector_Selected (ps_NicSelector (p_Spec p)) iface = true → ie_PciAddress iface ≠ pci.

(** One policy with its bridges. *)
Lemma apply_one p s eq :
  admitted p → wf_state s →
  ∃ s1 s2, Apply p s eq = Ok s1 ∧
    (if ManageSoftwareBridges then ApplyBridgeConfig p s1 else Ok s1) = Ok s2 ∧
    wf_state s2 ∧ ns_meta s2 = ns_meta s ∧ ns_Status s2 = ns_Status s ∧
    nss_System (ns_Spec s2) = nss_System (ns_Spec s) ∧
    nss_Interfaces (ns_Spec s2) = nss_Interfaces (ns_Spec s1).
Proof.
  intros Hp Hs. destruct (Apply_spec p s eq (admitted_policy_ok _ Hp) Hs)
    as (s1 & HA & Hw & Hm & Hst & _ & Hsys & _).
  exists s1. destruct ManageSoftwareBridges; [|exists s1; by split_and!].
  destruct (ApplyBridgeConfig_frame p s1 Hp) as (s2 & HB & Hm2 & Hst2 & Hi2 & Hsys2).
  exists s2. split_and!; try congruence. unfold wf_state in *. by rewrite Hi2, Hst2.
Qed.

Lemma applyPolicies_wf items ppp s :
  Forall admitted items → wf_state s →
  ∃ s', applyPolicies ManageSoftwareBridges node ppp items s = inr s' ∧ wf_state s' ∧
    ns_meta s' = ns_meta s ∧ ns_Status s' = ns_Status s ∧ nss_System (ns_Spec s') = nss_System (ns_Spec s) ∧
    (∀ i, untouched items (nst_Interfaces (ns_Status s)) (if_PciAddress i) →
       i ∈ nss_Interfaces (ns_Spec s') ↔ i ∈ nss_Interfaces (ns_Spec s)).
Proof.
  intros Hadm. revert ppp s. induction Hadm as [|p items Hp _ IH]; intros ppp s Hs; cbn [applyPolicies].
  { exists s. by split_and!. }
  destruct (applies p node) eqn:Ha; cbn [negb].
  2:{ destruct (IH ppp s Hs) as (s' & ? & ? & ? & ? & ? & Hi). exists s'. split_and!; try done.
      intros i Hu. apply Hi. intros q iface Hq. apply Hu. by apply elem_of_cons; right. }
  set (eq := ppp =? _). destruct (apply_one p s eq Hp Hs) as (s1 & s2 & HA & HB & Hw & Hm & Hst & Hsys & Hif).
  destruct (Apply_spec p s eq (admitted_policy_ok _ Hp) Hs) as (s1' & HA' & _ & _ & _ & _ & _ & Hkeep & _).
  rewrite HA in HA'. injection HA' as <-. rewrite HA.
  destruct (IH (ps_Priority (p_Spec p)) s2 Hw) as (s' & E & Hw' & Hm' & Hst' & Hsys' & Hi).
  exists s'. split.
  - destruct ManageSoftwareBridges; [by rewrite HB|]. injection HB as ->. exact E.
  - split_and!; try congruence. intros i Hu. rewrite Hi, Hif, Hkeep; [done| |].
    + intros iface Hin Hsel. apply (Hu p iface); [apply elem_of_cons; by left|done..].
    + rewrite Hst. intros q iface Hq. apply Hu. apply elem_of_cons. by right.
Qed.

Lemma applyPolicies_app l1 l2 ppp s :
  ∃ ppp', applyPolicies ManageSoftwareBridges node ppp (l1 ++ l2) s =
    match applyPolicies ManageSoftwareBridges node ppp l1 s with
    | inl e => inl e
    | inr s1 => applyPolicies ManageSoftwareBridges node ppp' l2 s1
    end.
Proof.
  revert ppp s. induction l1 as [|p l1 IH]; intros ppp s; [by exists ppp|]. cbn [app applyPolicies].
  destruct (negb (applies p node)); [apply IH|].
  destruct (Apply p s _) as [s1| |]; [|by exists ppp..].
  destruct ManageSoftwareBridges; [|apply IH].
  destruct (ApplyBridgeConfig p s1) as [s2| |]; [apply IH|by exists ppp..].
Qed.
End admitted.


Definition sample_node1 : Node := mkNode (mkObjectMeta "node1" "" 1 ∅ ∅ []) "" false.


(** ** The stored state converges *)

(** The metadata plays no part in applying the policies. *)
Lemma Apply_set_meta m p s eq :
  Apply p (ns_set_meta m s) eq = (ns_set_meta m) <$> Apply p s eq.
Proof.
  unfold Apply. destruct (NicSelector_IsEmpty _); [done|]. cbn.
  by destruct (applyToInterfaces _ _ _ _).
Qed.

Lemma ApplyBridgeConfig_set_meta m p s :
  ApplyBridgeConfig p (ns_set_meta m s) = (ns_set_meta m) <$> ApplyBridgeConfig p s.
Proof.
  unfold ApplyBridgeConfig. destruct (NicSelector_IsEmpty _); [done|].
  by destruct (checkBridgePolicy (p_Spec p)).
Qed.

Lemma applyPolicies_set_meta msb node m items ppp s :
  applyPolicies msb node ppp items (ns_set_meta m s) =
    match applyPolicies msb node ppp items s with
    | inl e => inl e
    | inr s' => inr (ns_set_meta m s')
    end.
Proof.
  revert ppp s. induction items as [|p items IH]; intros ppp s; cbn [applyPolicies]; [done|].
  destruct (negb (applies p node)); [apply IH|]. rewrite Apply_set_meta.
  destruct (Apply p s _) as [s1| |]; cbn; [|done..]. destruct msb; [|apply IH].
  rewrite ApplyBridgeConfig_set_meta. destruct (ApplyBridgeConfig p s1) as [s2| |]; cbn; [apply IH|done..].
Qed.

Definition set_Generation (g : Z) (m : ObjectMeta) : ObjectMeta :=
  mkObjectMeta (om_Name m) (om_Namespace m) g (om_Annotations m) (om_Labels m) (om_OwnerReferences m).

(** The API server: an update of the object replaces everything but the status
    and sets the generation itself. *)
Definition server_update (old obj : SriovNetworkNodeState) (g : Z) : SriovNetworkNodeState :=
  mkNodeState (set_Generation g (ns_meta obj)) (ns_Spec obj) (ns_Status old).

Definition server_create (obj : SriovNetworkNodeState) (g : Z) : SriovNetworkNodeState :=
  mkNodeState (set_Generation g (ns_meta obj)) (ns_Spec obj)
    (mkNodeStateStatus [] (mkBridges []) (mkSystem "" ∅) "" "" []).

Definition store_step (σ : gmap string SriovNetworkNodeState) (r : NPReq)
    : NPResp r → gmap string SriovNetworkNodeState → Prop :=
  match r with
  | GetState n => λ x σ', σ' = σ ∧
      match x with
      | inr s => σ !! n = Some s
      | inl e => e = ErrNotFound → σ !! n = None
      end
  | UpdateState obj => λ x σ',
      match x with
      | None => ∃ old g, σ !! ns_Name obj = Some old ∧ σ' = <[ns_Name obj := server_update old obj g]> σ
      | Some _ => σ' = σ
      end
  | CreateState obj => λ x σ',
      match x with
      | None => ∃ g, σ !! ns_Name obj = None ∧ σ' = <[ns_Name obj := server_create obj g]> σ
      | Some _ => σ' = σ
      end
  | DeleteState obj => λ x σ',
      match x with None => σ' = delete (ns_Name obj) σ | Some _ => σ' = σ end
  | _ => λ _ σ', σ' = σ
  end.

Definition store_world : World NPResp :=
  {| w_state := gmap string SriovNetworkNodeState; w_step := store_step |}.

Section converge.
Context (msb : bool) (SetControllerReference : SriovOperatorConfig → ObjectMeta → string + ObjectMeta).
Context (dc : SriovOperatorConfig) (npl : list SriovNetworkNodePolicy) (node : Node).
Context (name namespace : string) (base : SriovNetworkNodeStateSpec) (meta : ObjectMeta).
(** The owner reference can be set, and setting it does not rename. *)
Context (Hmeta : SetControllerReference dc (ns_meta (newState name namespace base)) = inr meta)
        (Hname : om_Name meta = name).

Abbreviation sync :=
  (syncSriovNetworkNodeState msb SetControllerReference dc npl (newState name namespace base) node).

(** What the policies ask of a node that reports this state. *)
Definition asked (s : SriovNetworkNodeState) : NPError + SriovNetworkNodeState :=
  applyPolicies msb node initial_ppp npl (ns_set_spec base s).

(** The stored state has what is asked for, and no mark of deletion; before it
    reports interfaces nothing is asked for. *)
Definition in_sync (s : SriovNetworkNodeState) : Prop :=
  ns_Annotations s !! NodeStateKeepUntilAnnotation = None ∧
  (nst_Interfaces (ns_Status s) ≠ [] →
   om_OwnerReferences (ns_meta s) = om_OwnerReferences meta ∧ ∃ d, asked s = inr d ∧ ns_Spec s = ns_Spec d).

(** How the stored state follows from the one before. *)
Definition synced_from (old : option SriovNetworkNodeState) (new : SriovNetworkNodeState) : Prop :=
  match old with
  | None => ns_Spec new = base ∧ nst_Interfaces (ns_Status new) = [] ∧
      om_OwnerReferences (ns_meta new) = om_OwnerReferences meta
  | Some cur => ns_Status new = ns_Status cur ∧
      if bool_decide (nst_Interfaces (ns_Status cur) = [])
      then ns_Spec new = ns_Spec cur ∧ om_OwnerReferences (ns_meta new) = om_OwnerReferences (ns_meta cur)
      else om_OwnerReferences (ns_meta new) = om_OwnerReferences meta ∧ ∃ d, asked cur = inr d ∧ ns_Spec new = ns_Spec d
  end.

Lemma ResetKeepUntilTime_spec s s' b :
  ResetKeepUntilTime s = (s', b) →
  ns_Status s' = ns_Status s ∧ ns_Spec s' = ns_Spec s ∧ ns_Name s' = ns_Name s ∧
  om_OwnerReferences (ns_meta s') = om_OwnerReferences (ns_meta s) ∧
  ns_Annotations s' !! NodeStateKeepUntilAnnotation = None ∧ (b = false → s' = s) ∧
  (∃ m, s' = ns_set_meta m s).
Proof.
  unfold ResetKeepUntilTime. destruct (ns_Annotations s !! _) as [v|] eqn:E; intros [= <- <-].
  - split_and!; try done; [cbn; by rewrite lookup_delete_eq|by eexists].
  - split_and!; try done. exists (ns_meta s). by destruct s.
Qed.

(** What [asked] returns depends on the status alone. *)
Lemma asked_status s s' : ns_Status s' = ns_Status s →
  asked s' = match asked s with inl e => inl e | inr d => inr (ns_set_meta (ns_meta s') d) end.
Proof.
  clear Hmeta Hname. intros H. unfold asked. rewrite <- applyPolicies_set_meta. f_equal.
  destruct s, s'; cbn in *. by subst.
Qed.

(** The new version as the code builds it. *)
Lemma newVersion_asked m s :
  applyPolicies msb node initial_ppp npl (ns_set_meta m (ns_set_spec base s)) =
    match asked s with inl e => inl e | inr d => inr (ns_set_meta m d) end.
Proof. apply applyPolicies_set_meta. Qed.

Lemma wp_sync_stays (σ : gmap string SriovNetworkNodeState) s :
  σ !! name = Some s → in_sync s →
  wp store_world (λ _ r, r = GetState name) sync (λ _ σ', σ' = σ) σ.
Proof using Hmeta Hname.
  intros Hs (Hk & Hi). unfold syncSriovNetworkNodeState. rewrite Hmeta.
  cbn [ns_meta ns_set_meta]. rewrite Hname. apply wp_perform; [done|]. intros x σ1 [-> Hx].
  destruct x as [e|s']; [destruct e; cbn; try done; by rewrite (Hx eq_refl) in Hs|].
  rewrite Hs in Hx. injection Hx as <-. unfold ResetKeepUntilTime. rewrite Hk.
  case_bool_decide as He; [done|]. destruct (Hi He) as (Ho & d & Hd & Hsp). cbn [newState ns_Spec ns_set_meta].
  rewrite newVersion_asked, Hd. cbn [negb andb]. rewrite !bool_decide_true; [done|by cbn|by cbn].
Qed.

(** The state is there and reports interfaces. *)
Lemma wp_sync_reaches (σ : gmap string SriovNetworkNodeState) cur :
  σ !! name = Some cur → ns_Name cur = name →
  wp store_world (λ _ _, True) sync
    (λ r σ', r = inr tt → ∃ new, σ' !! name = Some new ∧ in_sync new ∧ synced_from (Some cur) new ∧
       ∀ n, n ≠ name → σ' !! n = σ !! n) σ.
Proof using Hmeta Hname.
  intros Hs Hn. unfold syncSriovNetworkNodeState. rewrite Hmeta. cbn [ns_meta ns_set_meta].
  rewrite Hname. apply wp_perform; [done|]. intros x σ1 [-> Hx].
  destruct x as [e|s']; [destruct e; cbn; try done; by rewrite (Hx eq_refl) in Hs|].
  rewrite Hs in Hx. injection Hx as <-. destruct (ResetKeepUntilTime cur) as [found b] eqn:E.
  apply ResetKeepUntilTime_spec in E as (Hst & Hsp & Hnm & Ho & Hk & Hb & _).
  assert (Hupdate : ∀ obj (Q : NPError + unit → gmap string SriovNetworkNodeState → Prop),
    ns_Name obj = name → (∀ e, Q (inl e) σ) → (∀ g, Q (inr tt) (<[name := server_update cur obj g]> σ)) →
    wp store_world (λ _ _, True) (npCall (perform (UpdateState obj))) Q σ).
  { intros obj Q Hon He Hq. unfold npCall. apply wp_perform; [done|]. intros x σ2 Hx. apply wp_ret.
    destruct x as [e|]; cbn in Hx; [subst; apply He|]. rewrite Hon in Hx. destruct Hx as (old & g & Hold & ->).
    rewrite Hs in Hold. injection Hold as <-. apply Hq. }
  unfold synced_from, in_sync. rewrite Hst. case_bool_decide as Hi.
  { destruct b.
    - apply Hupdate; [congruence|done|]. intros g _. eexists. split; [exact (lookup_insert_eq (M := gmap string) σ _ _)|].
      split_and!; [exact Hk|done|done|exact Hsp|exact Ho|].
      intros n Hne. exact (lookup_insert_ne (M := gmap string) σ _ _ _ (not_eq_sym Hne)).
    - apply wp_ret. intros _. exists cur. rewrite (Hb eq_refl) in Hk. by split_and!. }
  cbn [newState ns_Spec ns_set_meta]. rewrite newVersion_asked, (asked_status cur found Hst).
  destruct (asked cur) as [e|d] eqn:Hd; [done|].
  destruct (_ && _) eqn:Hsame.
  - apply wp_ret. intros _. exists cur.
    apply andb_true_iff in Hsame as [[->%negb_true_iff H1%bool_decide_eq_true]%andb_true_iff
      H2%bool_decide_eq_true]. specialize (Hb eq_refl) as ->. cbn in H1, H2.
    assert (ns_Spec cur = ns_Spec d) by (by rewrite <- H2). rewrite Hd. split_and!; eauto.
  - apply Hupdate; [cbn; congruence|done|]. intros g _.
    eexists. split; [exact (lookup_insert_eq (M := gmap string) σ _ _)|].
    split_and!; [exact Hk| |done|done|by exists d|
      intros n Hne; exact (lookup_insert_ne (M := gmap string) σ _ _ _ (not_eq_sym Hne))].
    intros _. split; [done|]. set (new := server_update _ _ _).
    eexists. rewrite (asked_status cur new) by done. rewrite Hd. done.
Qed.

(** The state is not there yet. *)
Lemma wp_sync_creates (σ : gmap string SriovNetworkNodeState) :
  σ !! name = None → om_Annotations meta !! NodeStateKeepUntilAnnotation = None →
  wp store_world (λ _ _, True) sync
    (λ r σ', r = inr tt → ∃ new, σ' !! name = Some new ∧ in_sync new ∧ synced_from None new ∧
       ∀ n, n ≠ name → σ' !! n = σ !! n) σ.
Proof using Hmeta Hname.
  intros Hs Ha. unfold syncSriovNetworkNodeState. rewrite Hmeta. cbn [ns_meta ns_set_meta].
  rewrite Hname. apply wp_perform; [done|]. intros x σ1 [-> Hx].
  destruct x as [e|s']; [|by rewrite Hs in Hx]. destruct (IsNotFound e); [|done].
  unfold npCall. apply wp_perform; [done|]. intros x σ2 Hx2. apply wp_ret. destruct x as [e'|]; [done|].
  intros _. cbn in Hx2. rewrite Hname in Hx2. destruct Hx2 as (g & _ & ->).
  eexists. split; [exact (lookup_insert_eq (M := gmap string) σ _ _)|].
  split; [by split|]. split; [by split_and!|].
  intros n Hne. exact (lookup_insert_ne (M := gmap string) σ _ _ _ (not_eq_sym Hne)).
Qed.
End converge.


(** *** One node, one policy *)

Definition sample_owner (dc : SriovOperatorConfig) (m : ObjectMeta) : string + ObjectMeta :=
  inr (set_OwnerReferences ["default"] m).

Definition sample_config : SriovOperatorConfig :=
  mkOperatorConfig (mkObjectMeta "default" "ns" 1 ∅ ∅ [])
    (mkOperatorConfigSpec ∅ false false 0 false false "" false [] ∅ ∅).

Definition sample_stored : SriovNetworkNodeState :=
  ns_set_meta (mkObjectMeta "node1" "ns" 1 {[ NodeStateKeepUntilAnnotation := "soon" ]} ∅ [])
    (ns_set_spec (mkNodeStateSpec [] (mkBridges []) (mkSystem "exclusive" ∅))
       (sample_state [] [sample_ifext "eth0" "0000:01:00.0"])).

(** A server where everything succeeds, except the listing of the pools. *)
Definition store_handle (σ : gmap string SriovNetworkNodeState) (r : NPReq)
    : NPResp r * gmap string SriovNetworkNodeState :=
  match r with
  | GetState n => (match σ !! n with Some s => inr s | None => inl ErrNotFound end, σ)
  | UpdateState obj =>
      match σ !! ns_Name obj with
      | Some old => (None, <[ns_Name obj := server_update old obj 2]> σ)
      | None => (Some ErrNotFound, σ)
      end
  | CreateState obj =>
      match σ !! ns_Name obj with
      | Some _ => (Some ErrConflict, σ)
      | None => (None, <[ns_Name obj := server_create obj 1]> σ)
      end
  | DeleteState obj => (None, delete (ns_Name obj) σ)
  | GetOperatorConfig => (inr sample_config, σ)
  | ListPolicies => (inr [], σ)
  | ListNodesByLabels _ => (inr [], σ)
  | GetConfigMap => (inl ErrNotFound, σ)
  | Pool r =>
      (match r return DrainController.DrainResp r with
       | DrainController.GetNode _ => inl ErrNotFound
       | DrainController.GetNodeState _ => inl ErrNotFound
       | DrainController.ListNodes _ => inl (ErrAPI "timeout")
       | DrainController.ListPools => inl (ErrAPI "timeout")
       | DrainController.PatchNode _ _ => inl (ErrAPI "timeout")
       | DrainController.PatchNodeState _ _ => inl (ErrAPI "timeout")
       | DrainController.ApplyConditions _ _ => None
       | DrainController.Event _ _ _ _ => tt
       | DrainController.TimeNow => 0
       | DrainController.Lock | DrainController.Unlock => tt
       | DrainController.BeforeDrainNode _ | DrainController.AfterCompleteDrainNode _ => inr true
       | DrainController.RunCordonOrUncordon _ _ => None
       | DrainController.RunNodeDrain _ _ => ([], None)
       end, σ)
  | ListStates => (inr [], σ)
  | GetNodeByName _ => (inl ErrNotFound, σ)
  | PatchNodeLabels _ obj => (inr obj, σ)
  | Now => (0, σ)
  | CreateConfigMap _ | UpdateConfigMap _ => (None, σ)
  end.

Lemma store_handle_ok (σ : gmap string SriovNetworkNodeState) r :
  w_step store_world σ r (store_handle σ r).1 (store_handle σ r).2.
Proof.
  destruct r; try done; cbn.
  - by destruct (σ !! name).
  - destruct (σ !! ns_Name s) eqn:E; cbn; [done|by exists 1].
  - destruct (σ !! ns_Name s) eqn:E; cbn; [by eauto|done].
Qed.

Definition sample_sync : npM (NPError + unit) :=
  syncSriovNetworkNodeState false sample_owner sample_config
    [sample_policy "p1" "res1" 99 8 ["eth0#0-3"]] (newState "node1" "ns" (baseSpec None)) sample_node1.

Definition sample_synced : gmap string SriovNetworkNodeState :=
  (run store_handle sample_sync {[ "node1" := sample_stored ]}).2.


(** An error while looking up the node's pool is logged and then ignored:
    the node state is synchronised with empty system settings, so the RDMA
    mode the pool asked for (and the node has) is reset. *)
Theorem pool_error_resets_system :
  let σ := {[ "node1" := sample_stored ]} in
  let r := run store_handle (syncStates false "ns" sample_owner (λ _, true) sample_config [] [sample_node1]) σ in
  sys_RdmaMode (nss_System (ns_Spec sample_stored)) = "exclusive" ∧
  r.1 = inr tt ∧ (λ s, sys_RdmaMode (nss_System (ns_Spec s))) <$> (r.2 !! "node1") = Some "".
Proof. vm_compute. split_and!; reflexivity. Qed.

(** ** The device plugin's resources *)

Section render.
Context (Marshal : NetDeviceSelectors → string) (Unmarshal : string → string + NetDeviceSelectors).
Context (Hjson : ∀ nds, Unmarshal (Marshal nds) = inr nds).
Context (NicIDMap : list string) (node : Node) (st : SriovNetworkNodeState).

(** Every read of the node's state gets [st]. *)
Definition state_step (s : unit) (r : NPReq) : NPResp r → unit → Prop :=
  match r with
  | GetState _ => λ x _, match x with inl _ => True | inr s => s = st end
  | _ => λ _ _, True
  end.

Definition state_world : World NPResp := {| w_state := unit; w_step := state_step |}.

(** Whatever the policy selects is selected. *)
Definition covers (nds : NetDeviceSelectors) (p : SriovNetworkNodePolicy) : Prop :=
  resolvePfNames (sel_PfNames (ps_NicSelector (p_Spec p))) st ⊆ nds_PfNames nds ∧
  sel_RootDevices (ps_NicSelector (p_Spec p)) ⊆ nds_RootDevices nds ∧
  netFilterAddresses p st ⊆ nds_PciAddresses nds ∧
  policyLinkType p ⊆ nds_LinkTypes nds ∧
  (∀ v, policyVendor p = Some v → v ∈ nds_Vendors nds) ∧
  (∀ d, policyDeviceID NicIDMap p = inr (Some d) → d ∈ nds_Devices nds).

Lemma appendNew_in o l x : x ∈ appendNew o l ↔ x ∈ l ∨ o = Some x.
Proof.
  destruct o as [y|]; cbn; [|set_solver]. destruct (StringInArray y l) eqn:E.
  - apply StringInArray_spec in E. set_solver.
  - set_solver.
Qed.

Lemma addPolicy_covers rd p nds nds' :
  (∀ l k, l ⊆ rd l k ∧ k ⊆ rd l k) →
  addPolicy NicIDMap rd p st nds = inr nds' →
  covers nds' p ∧ ∀ q, covers nds q → covers nds' q.
Proof.
  intros Hrd. unfold addPolicy. destruct (policyDeviceID NicIDMap p) as [e|id] eqn:Eid; [done|].
  intros [= <-]. unfold covers. cbn. split.
  - split_and!; try (intros x Hx; apply UniqueAppend_elem; by right).
    + apply Hrd.
    + intros v Hv. apply appendNew_in. by right.
    + intros d Hd. rewrite Eid in Hd. injection Hd as ->. apply appendNew_in. by right.
  - intros q (H1 & H2 & H3 & H4 & H5 & H6).
    split_and!; try (intros x Hx; apply UniqueAppend_elem; left; by auto).
    + etransitivity; [exact H2|apply Hrd].
    + intros v Hv. apply appendNew_in. left. by apply H5.
    + intros d Hd. apply appendNew_in. left. by apply H6.
Qed.

(** What was rendered for the policies [done]. *)
Record rendered (l : list SriovNetworkNodePolicy) (rcl : list ResourceConfig) : Prop := {
  rd_names : NoDup (rc_ResourceName <$> rcl);
  rd_from : ∀ rc, rc ∈ rcl → ∃ p, p ∈ l ∧ applies p node = true ∧ ps_ResourceName (p_Spec p) = rc_ResourceName rc;
  rd_all : ∀ p, p ∈ l → applies p node = true → ∃ rc nds, rc ∈ rcl ∧
    rc_ResourceName rc = ps_ResourceName (p_Spec p) ∧ Unmarshal (rc_Selectors rc) = inr nds ∧ covers nds p;
}.

Lemma rendered_skip l p rcl : applies p node = false → rendered l rcl → rendered (l ++ [p]) rcl.
Proof.
  intros Ha [H1 H2 H3]. split; [done| |].
  - intros rc (q & Hq & ? & ?)%H2. exists q. split_and!; try done. apply elem_of_app. by left.
  - intros q [Hq| ->%list_elem_of_singleton]%elem_of_app Haq; [by apply H3|congruence].
Qed.

Lemma rendered_create l p rcl rc :
  applies p node = true → (resourceNameInList (ps_ResourceName (p_Spec p)) rcl).1 = false →
  createDevicePluginResource Marshal NicIDMap p st = inr rc →
  rendered l rcl → rendered (l ++ [p]) (rcl ++ [rc]).
Proof using Hjson.
  intros Ha Hnew Hrc [H1 H2 H3]. unfold createDevicePluginResource in Hrc.
  destruct (_ && _); [by destruct (policyDeviceID NicIDMap p)|].
  destruct (addPolicy _ _ _ _ _) as [e|nds] eqn:Ea; [done|]. injection Hrc as <-.
  apply addPolicy_covers in Ea as [Hcov _]; [|set_solver].
  assert (Hfresh : ps_ResourceName (p_Spec p) ∉ rc_ResourceName <$> rcl).
  { unfold resourceNameInList in Hnew. destruct (list_find _ rcl) as [[i y]|] eqn:Ef; [done|].
    apply list_find_None in Ef. intros (rc & Hn & Hin)%list_elem_of_fmap.
    rewrite Forall_forall in Ef. apply (Ef rc Hin). done. }
  split.
  - rewrite fmap_app. apply NoDup_app. split_and!; [done| |apply NoDup_singleton].
    intros x Hx ->%list_elem_of_singleton. done.
  - intros rc [(q & ? & ? & ?)%H2| ->%list_elem_of_singleton]%elem_of_app.
    + exists q. split_and!; try done. apply elem_of_app. by left.
    + exists p. split_and!; try done. apply elem_of_app. right. by apply list_elem_of_singleton.
  - intros q [Hq| ->%list_elem_of_singleton]%elem_of_app Haq.
    + destruct (H3 q Hq Haq) as (rc & nds' & Hin & ?). exists rc, nds'. split; [|done].
      apply elem_of_app. by left.
    + eexists _, nds. split_and!; [apply elem_of_app; right; by apply list_elem_of_singleton|done|apply Hjson|done].
Qed.

Lemma rendered_update l p rcl i rc rc' :
  applies p node = true → rcl !! i = Some rc → rc_ResourceName rc = ps_ResourceName (p_Spec p) →
  updateDevicePluginResource Marshal Unmarshal NicIDMap rc p st = inr rc' →
  rendered l rcl → rendered (l ++ [p]) (<[i := rc']> rcl).
Proof using Hjson.
  intros Ha Hi Hn Hrc [H1 H2 H3]. unfold updateDevicePluginResource in Hrc.
  destruct (Unmarshal (rc_Selectors rc)) as [e|nds] eqn:Eu; [done|].
  destruct (addPolicy _ _ _ _ _) as [e|nds'] eqn:Ea; [done|]. injection Hrc as <-.
  apply addPolicy_covers in Ea as [Hcov Hmono].
  2:{ intros l0 k. split; intros x Hx; apply UniqueAppend_elem; auto. }
  set (rc' := mkResourceConfig _ _ _).
  assert (Hin : rc' ∈ <[i := rc']> rcl).
  { apply list_elem_of_lookup. exists i. apply list_lookup_insert_eq. by eapply lookup_lt_Some. }
  split.
  - rewrite list_fmap_insert. cbn. rewrite list_insert_id; [done|]. by rewrite list_lookup_fmap, Hi.
  - intros x Hx. assert (x = rc' ∨ x ∈ rcl) as [->|(q & ? & ? & ?)%H2].
    { apply list_elem_of_lookup in Hx as [j Hj]. apply list_lookup_insert_Some in Hj as [(_ & ? & _)|[_ Hj]];
        [by left|right; by eapply list_elem_of_lookup_2]. }
    + exists p. split_and!; [apply elem_of_app; right; by apply list_elem_of_singleton|done|done].
    + exists q. split_and!; try done. apply elem_of_app. by left.
  - intros q [Hq| ->%list_elem_of_singleton]%elem_of_app Haq.
    2:{ exists rc', nds'. split_and!; [done|done|apply Hjson|done]. }
    destruct (H3 q Hq Haq) as (rcq & ndsq & Hinq & Hnq & Huq & Hcq).
    apply list_elem_of_lookup in Hinq as [j Hj]. destruct (decide (j = i)) as [->|Hne].
    + rewrite Hi in Hj. injection Hj as <-. rewrite Eu in Huq. injection Huq as <-.
      exists rc', nds'. split_and!; [done|done|apply Hjson|by apply Hmono].
    + exists rcq, ndsq. split_and!; [|done..]. apply list_elem_of_lookup. exists j.
      by rewrite list_lookup_insert_ne.
Qed.

Lemma wp_renderPolicies items l rcl (s : w_state state_world) :
  rendered l rcl →
  wp state_world (λ _ _, True) (renderPolicies Marshal Unmarshal NicIDMap node items rcl)
    (λ r _, ∀ rcl', r = inr rcl' → rendered (l ++ items) rcl') s.
Proof using Hjson.
  revert l rcl s. induction items as [|p items IH]; intros l rcl s Hr; cbn [renderPolicies].
  { apply wp_ret. intros rcl' [= <-]. by rewrite app_nil_r. }
  rewrite cons_middle, app_assoc. destruct (applies p node) eqn:Ha; cbn [negb].
  2:{ apply IH. by apply rendered_skip. }
  apply wp_try. unfold npGet. apply wp_perform; [done|]. intros x s' Hx. apply wp_ret.
  destruct x as [e|st']; [done|]. cbn in Hx. subst st'.
  destruct (resourceNameInList _ rcl) as [found i] eqn:El. destruct found.
  - destruct (rcl !! i) as [rc|] eqn:Hi; [|done].
    destruct (updateDevicePluginResource _ _ _ rc p st) as [e|rc'] eqn:Eu; [done|].
    apply IH. apply (rendered_update l p rcl i rc rc'); try done.
    unfold resourceNameInList in El. destruct (list_find _ rcl) as [[j y]|] eqn:Ef; [|done].
    apply list_find_Some in Ef as (Hj & ? & _). injection El as ->. congruence.
  - destruct (createDevicePluginResource _ _ p st) as [e|rc] eqn:Ec; [done|].
    apply IH. apply (rendered_create l p rcl rc); try done. by rewrite El.
Qed.
End render.


(** A codec for the witness. *)
Definition selectors_fields (n : NetDeviceSelectors) :=
  (nds_Vendors n, nds_Devices n, nds_PciAddresses n, nds_PfNames n, nds_RootDevices n, nds_LinkTypes n,
   (nds_IsRdma n, nds_NeedVhostNet n, nds_VdpaType n)).

Definition sample_encode (n : NetDeviceSelectors) : string := bits_of (encode (selectors_fields n)).
Definition sample_decode (s : string) : string + NetDeviceSelectors :=
  match decode (A := list string * list string * list string * list string * list string * list string *
                     (bool * bool * string)) (of_bits s) with
  | Some (v, d, a, pf, rt, lt, (rdma, vhost, vdpa)) => inr (mkSelectors v d a pf rt lt rdma vhost vdpa)
  | None => inl "json"
  end.

Lemma sample_json n : sample_decode (sample_encode n) = inr n.
Proof.
  unfold sample_decode, sample_encode. rewrite of_bits_of, decode_encode. by destruct n.
Qed.

Definition state_handle (st : SriovNetworkNodeState) (_ : unit) (r : NPReq) : NPResp r * unit :=
  (match r return NPResp r with
   | GetState _ => inr st
   | r => (store_handle ∅ r).1
   end, tt).

Lemma state_handle_ok st s r : w_step (state_world st) s r (state_handle st s r).1 (state_handle st s r).2.
Proof. by destruct r. Qed.


(** ** States of nodes that left *)

(** A clock that stands still; every other call succeeds. *)
Definition clock (now : Z) (_ : unit) (r : NPReq) : NPResp r * unit :=
  (match r return NPResp r with
   | Now => now
   | r => (store_handle ∅ r).1
   end, tt).

Lemma cleanupDelay_nonneg env : 0 ≤ cleanupDelay env.
Proof.
  unfold cleanupDelay. destruct env as [v|]; [|by vm_compute].
  destruct (Atoi v) as [n [e|]]; [by vm_compute|]. destruct (Z.ltb_spec n 0); [by vm_compute|done].
Qed.

(** A node state without a node is kept for the configured delay: unless
    the delay is zero (the variable says so; a missing, ill-formed or negative
    value means 30 minutes), the first visit at time [t] only marks it with the
    time [t] plus the delay, and a later visit deletes it exactly when that time
    has come.  (From 153722868 minutes on, some 292 years, the delay overflows
    Go's duration.) *)
Theorem handleStaleNodeState_delay (Format : Z → string) (Parse : string → option Z)
    (env : option string) (s : SriovNetworkNodeState) (t now : Z)
    (Hrt : ∀ z, Parse (Format z) = Some z)
    (Hnone : GetKeepUntilTime Parse s = None) (Hd : cleanupDelay env ≠ 0)
    (Hmax : cleanupDelay env ≤ 153722867) :
  let marked := SetKeepUntilTime Format (t + 60 * cleanupDelay env) s in
  0 < cleanupDelay env ∧
  requests (clock t) (handleStaleNodeState Format Parse env s) tt = [Now; UpdateState marked] ∧
  requests (clock now) (handleStaleNodeState Format Parse env marked) tt =
    if now <? t + 60 * cleanupDelay env then [Now] else [Now; DeleteState marked].
Proof.
  intros marked. pose proof (cleanupDelay_nonneg env) as Hnn.
  assert (Hmin : minutes (cleanupDelay env) = 60 * cleanupDelay env).
  { unfold minutes. rewrite wrap64_small by (unfold in_int64, min_int64, max_int64; lia).
    replace (60 * 10 ^ 9 * cleanupDelay env) with (60 * cleanupDelay env * 10 ^ 9) by ring.
    by apply Z.div_mul. }
  split_and!; [lia|..].
  - unfold handleStaleNodeState. apply Z.eqb_neq in Hd. rewrite Hd. cbn. by rewrite Hnone, Hmin.
  - unfold handleStaleNodeState. apply Z.eqb_neq in Hd. rewrite Hd. cbn [negb].
    assert (GetKeepUntilTime Parse marked = Some (t + 60 * cleanupDelay env)) as Hk.
    { unfold GetKeepUntilTime, marked. cbn. rewrite lookup_insert_eq. apply Hrt. }
    cbn. rewrite Hk. by destruct (now <? _).
Qed.

Lemma handleStaleNodeState_delay_witness :
  let Format z := String "T" (bits_of (encode (A := Z) z)) in
  let Parse s := match s with String _ r => decode (A := Z) (of_bits r) | EmptyString => None end in
  let s := sample_state [] [] in
  requests (clock 1000) (handleStaleNodeState Format Parse (Some "10") s) tt =
    [Now; UpdateState (SetKeepUntilTime Format 1600 s)].
Proof.
  intros Format Parse s.
  assert (Hrt : ∀ z, Parse (Format z) = Some z).
  { intros z. unfold Parse, Format. by rewrite of_bits_of, decode_encode. }
  destruct (handleStaleNodeState_delay Format Parse (Some "10") s 1000 0 Hrt) as (_ & H & _).
  - reflexivity.
  - vm_compute. discriminate.
  - vm_compute. discriminate.
  - exact H.
Defined.
