(* ===== verification/Parallel.v ===== *)
(** * Goroutines

    A goroutine is a program; several of them make their requests in some
    interleaving.  The schedule is an argument, so a statement about every
    schedule is one about every interleaving. *)
From S2P Require Import Prelude Effects.

Section parallel.
Context {R : Type} {resp : R → Type} {A : Type}.

(** Let the threads take steps in the order of the schedule; the results come in
    the order in which the threads end.  What is still running at the end of the
    schedule is returned. *)
Fixpoint interleave (sched : list nat) (ts : list (prog resp A)) (finished : list A)
    : prog resp (list A * list (prog resp A)) :=
  match sched with
  | [] => Ret (finished, ts)
  | i :: sched' =>
      match ts !! i with
      | None => interleave sched' ts finished
      | Some (Ret a) => interleave sched' (delete i ts) (finished ++ [a])
      | Some (Vis r k) => Vis r (λ x, interleave sched' (<[i := k x]> ts) finished)
      end
  end.

(** Wait for the rest, one after the other. *)
Fixpoint join (ts : list (prog resp A)) : prog resp (list A) :=
  match ts with
  | [] => Ret []
  | t :: rest => a ← t; l ← join rest; Ret (a :: l)
  end.

(** All threads to their end. *)
Definition parallel (sched : list nat) (ts : list (prog resp A)) : prog resp (list A) :=
  '(finished, running) ← interleave sched ts [];
  l ← join running;
  Ret (finished ++ l).
End parallel.

(** Threads that are each harmless are harmless together, and what still runs
    is harmless too. *)
Section harmless.
Context {R : Type} {resp : R → Type} {A : Type} (P : R → bool).

Lemma only_vis r (k : resp r → prog resp A) :
  only P (Vis r k) → P r = true ∧ ∀ x, only P (k x).
Proof. intros H. destruct (H tt) as [Hr Hk]. split; [done|]. intros x []. by apply Hk. Qed.

Lemma only_interleave sched (ts : list (prog resp A)) finished s :
  Forall (λ t, only P t) ts →
  wp (free_world resp) (λ _ r, P r = true) (interleave sched ts finished)
    (λ '(_, running) _, Forall (λ t, only P t) running) s.
Proof.
  revert ts finished s. induction sched as [|i sched IH]; intros ts finished s Hts; cbn [interleave]; [done|].
  destruct (ts !! i) as [[a|r k]|] eqn:Hi; [| |by apply IH].
  - apply IH. by apply Forall_delete.
  - pose proof (Forall_lookup_1 _ _ _ _ Hts Hi) as Ht. apply only_vis in Ht as [Hr Hk].
    split; [done|]. intros x s' _. apply IH. apply Forall_insert; [done|apply Hk].
Qed.

Lemma only_join (ts : list (prog resp A)) : Forall (λ t, only P t) ts → only P (join ts).
Proof.
  induction 1 as [|t ts Ht _ IH]; cbn [join]; [steady|].
  refine (steady_bind _ _ _ _ _ Ht _). intros a. refine (steady_bind _ _ _ _ _ IH _). intros l. steady.
Qed.

Lemma only_parallel sched (ts : list (prog resp A)) :
  Forall (λ t, only P t) ts → only P (parallel sched ts).
Proof.
  intros H s. unfold parallel. apply wp_bind. eapply wp_post; [by apply only_interleave|].
  intros [finished running] s' Hr. cbn. apply wp_bind. eapply wp_post; [by apply only_join|]. done.
Qed.
End harmless.

(** Every thread ends, so there are as many results as threads. *)
Lemma parallel_length {R : Type} {resp : R → Type} {A} (W : World resp) sched (ts : list (prog resp A)) s :
  wp W (λ _ _, True) (parallel sched ts) (λ l _, length l = length ts) s.
Proof.
  assert (Hj : ∀ (us : list (prog resp A)) s, wp W (λ _ _, True) (join us) (λ l _, length l = length us) s).
  { induction us as [|u us IH]; intros t; [done|]. cbn [join]. apply wp_bind.
    assert (Hu : ∀ p t, wp W (λ _ _, True) p (λ (_ : A) _, True) t)
      by (induction p as [a|r k IHp]; intros t'; [done|split; [done|]; intros; apply IHp]).
    eapply wp_post; [apply Hu|]. intros a t' _. apply wp_bind. eapply wp_post; [apply IH|].
    intros l t'' Hl. cbn. by rewrite Hl. }
  assert (Hi : ∀ (us : list (prog resp A)) finished s, wp W (λ _ _, True) (interleave sched us finished)
    (λ '(l, running) _, length l + length running = length us + length finished)%nat s).
  { induction sched as [|i sched IH]; intros us finished t; cbn [interleave]; [cbn; lia|].
    destruct (us !! i) as [[a|r k]|] eqn:E; [| |by apply IH].
    - eapply wp_post; [apply IH|]. intros [l running] t' H. cbn in *.
      rewrite length_app, length_delete in H by eauto. cbn in H.
      apply lookup_lt_Some in E. lia.
    - split; [done|]. intros x t' _. eapply wp_post; [apply IH|]. intros [l running] t'' H.
      cbn in *. by rewrite length_insert in H. }
  unfold parallel. apply wp_bind. eapply wp_post; [apply Hi|]. intros [l running] t H. cbn in *.
  apply wp_bind. eapply wp_post; [apply Hj|]. intros l' t' H'. cbn in *. rewrite length_app. lia.
Qed.

(** ** Threads that share a history

    What a request needs to have been said before stays said, whatever other
    threads say in between. *)
Section history.
Context {R : Type} {resp : R → Type}.
Context (G : list (event resp) → R → Prop).
Context (Gmono : ∀ h h' r, extends h h' → G h r → G h' r).

Abbreviation hw := (history_world resp).

Lemma wp_history_mono {A} (p : prog resp A) h h' :
  extends h h' → wp hw G p (λ _ _, True) h → wp hw G p (λ _ _, True) h'.
Proof using Gmono.
  revert h h'. induction p as [a|r k IH]; intros h h' E; [done|].
  intros [HG Hk]. split; [by eapply Gmono|]. intros x h1 ->. eapply IH; [|by apply Hk].
  intros e [He|He]%elem_of_app; apply elem_of_app; [left; by apply E|by right].
Qed.

Abbreviation allowed_in h := (λ t, wp hw G t (λ _ _, True) h).

Lemma wp_history_interleave {A} sched (ts : list (prog resp A)) finished h :
  Forall (allowed_in h) ts →
  wp hw G (interleave sched ts finished) (λ '(_, running) h', extends h h' ∧ Forall (allowed_in h') running) h.
Proof using Gmono.
  revert ts finished h. induction sched as [|i sched IH]; intros ts finished h Hts; cbn [interleave].
  { cbn. by split. }
  destruct (ts !! i) as [[a|r k]|] eqn:Hi; [| |by apply IH].
  - apply IH. by apply Forall_delete.
  - pose proof (Forall_lookup_1 _ _ _ _ Hts Hi) as [HG Hk]. split; [done|].
    intros x h' ->. eapply wp_post; [apply IH|].
    + apply Forall_insert; [|by apply Hk]. eapply Forall_impl; [exact Hts|].
      intros t. apply wp_history_mono, extends_snoc.
    + intros [l running] h' [E H]. split; [|done]. etransitivity; [apply extends_snoc|exact E].
Qed.

Lemma wp_history_extends {A} (p : prog resp A) Q h :
  wp hw G p Q h → wp hw G p (λ a h', extends h h' ∧ Q a h') h.
Proof using Type.
  revert h. induction p as [a|r k IH]; intros h H; [by split|]. destruct H as [HG Hk]. split; [done|].
  intros x h' ->. eapply wp_post; [apply IH, Hk; done|]. intros a h' [E HQ]. split; [|done].
  etransitivity; [apply extends_snoc|exact E].
Qed.

Lemma wp_history_join {A} (ts : list (prog resp A)) h :
  Forall (allowed_in h) ts → wp hw G (join ts) (λ _ _, True) h.
Proof using Gmono.
  revert h. induction ts as [|t ts IH]; intros h Hts; cbn [join]; [done|]. inversion_clear Hts as [|? ? Ht Hr].
  apply wp_bind. eapply wp_post; [by apply wp_history_extends|]. intros a h' [E _]. apply wp_bind.
  eapply wp_post; [apply IH|done]. eapply Forall_impl; [exact Hr|]. intros u. by apply wp_history_mono.
Qed.

Lemma wp_history_parallel {A} sched (ts : list (prog resp A)) h :
  Forall (allowed_in h) ts → wp hw G (parallel sched ts) (λ _ _, True) h.
Proof using Gmono.
  intros H. unfold parallel. apply wp_bind. eapply wp_post; [by apply wp_history_interleave|].
  intros [l running] h' [_ Hr]. cbn. apply wp_bind. eapply wp_post; [by apply wp_history_join|done].
Qed.
End history.

(** ** Threads that rely on each other

    Each thread has a part of the state.  It is proved correct in a world where
    the others may do anything at any time that leaves its part alone, and its
    own requests leave the parts of the others alone; then all of them are
    correct together, in every interleaving. *)
Section rely_guarantee.
Context {R : Type} {resp : R → Type} {S I : Type}.
Context (server : S → ∀ r : R, resp r → S → Prop).
Context (rely : I → relation S) (rely_pre : ∀ i, PreOrder (rely i)).
Context (G : I → S → R → Prop).
Context (compat : ∀ i s r x s', G i s r → server s r x s' → ∀ j, j ≠ i → rely j s s').

(** Nobody else around. *)
Definition alone : World resp := {| w_state := S; w_step := server |}.

(** The thread is correct from wherever the others have brought the state. *)
Definition ready {A} (i : I) (Q : A → S → Prop) (s : S) (t : prog resp A) : Prop :=
  ∀ s', rely i s s' → wp (shared_world server (rely i)) (G i) t Q s'.

Definition settled {A} (i : I) (Q : A → S → Prop) (s : S) (a : A) : Prop := ∀ s', rely i s s' → Q a s'.

Lemma ready_mono {A} i (Q : A → S → Prop) s s' t : rely i s s' → ready i Q s t → ready i Q s' t.
Proof using rely_pre. intros H Ht s1 H1. apply Ht. by transitivity s'. Qed.

Lemma settled_mono {A} i (Q : A → S → Prop) s s' a : rely i s s' → settled i Q s a → settled i Q s' a.
Proof using rely_pre. intros H Ht s1 H1. apply Ht. by transitivity s'. Qed.

Lemma rtc_rely i s s' : rely i s s' → rtc (rely i) s s'.
Proof using Type. apply rtc_once. Qed.

Lemma ready_step {A} i (Q : A → S → Prop) s r (k : resp r → prog resp A) :
  ready i Q s (Vis r k) → G i s r ∧ ∀ x s', server s r x s' → ready i Q s' (k x).
Proof using Type*.
  intros H. destruct (H s) as [HG Hk]; [reflexivity|]. split; [done|]. intros x s' Hs s1 H1.
  apply Hk. exists s'. split; [done|by apply rtc_rely].
Qed.

(** One thread to its end. *)
Lemma wp_alone {A} i (Q : A → S → Prop) s (t : prog resp A) :
  ready i Q s t → wp alone (G i) t (λ a s', settled i Q s' a ∧ ∀ j, j ≠ i → rely j s s') s.
Proof using Type*.
  revert s. induction t as [a|r k IH]; intros s H; [split; [exact H|]; intros j _; reflexivity|].
  apply ready_step in H as [HG Hk]. split; [done|]. intros x s' Hs.
  eapply wp_post; [by apply IH, Hk|]. intros a s1 [H1 H2]. split; [done|]. intros j Hj.
  transitivity s'; [|by apply H2]. by eapply compat.
Qed.

Context {A : Type} (Q : I → A → S → Prop).

Abbreviation allready s := (Forall2 (λ i t, ready i (Q i) s t)).
Abbreviation allsettled s := (Forall2 (λ i a, settled i (Q i) s a)).

Lemma allready_mono ids ts s s' :
  (∀ i, i ∈ ids → rely i s s') → allready s ids ts → allready s' ids ts.
Proof using rely_pre.
  intros H. induction 1 as [|i t ids ts Ht _ IH]; constructor; [|apply IH; intros j Hj; apply H; by right].
  eapply ready_mono; [apply H; by left|done].
Qed.

Lemma allsettled_mono ids ts s s' :
  (∀ i, i ∈ ids → rely i s s') → allsettled s ids ts → allsettled s' ids ts.
Proof using rely_pre.
  intros H. induction 1 as [|i t ids ts Ht _ IH]; constructor; [|apply IH; intros j Hj; apply H; by right].
  eapply settled_mono; [apply H; by left|done].
Qed.

(** One step of a thread. *)
Lemma allready_step ids ts n i r (k : resp r → prog resp A) s :
  NoDup ids → ids !! n = Some i → ts !! n = Some (Vis r k) → allready s ids ts →
  G i s r ∧ ∀ x s', server s r x s' → allready s' ids (<[n := k x]> ts) ∧ ∀ j, j ≠ i → rely j s s'.
Proof using Type*.
  intros Hnd Hi Ht Hr. destruct (ready_step _ _ _ _ _ (Forall2_lookup_lr _ _ _ _ _ _ Hr Hi Ht)) as [HG Hk].
  split; [done|]. intros x s' Hs. assert (Hc : ∀ j, j ≠ i → rely j s s') by (intros j Hj; by eapply compat).
  split; [|done]. apply Forall2_same_length_lookup_2.
  { rewrite length_insert. by eapply Forall2_length. }
  intros m j u Hj Hu. destruct (decide (m = n)) as [->|Hne].
  - rewrite list_lookup_insert_eq in Hu by (by eapply lookup_lt_Some).
    assert (j = i) as -> by congruence. injection Hu as <-. by apply Hk.
  - rewrite list_lookup_insert_ne in Hu by done. apply (ready_mono j (Q j) s); [|exact (Forall2_lookup_lr _ _ _ _ _ _ Hr Hj Hu)].
    apply Hc. intros ->. apply Hne. by eapply NoDup_lookup.
Qed.

Lemma wp_rg_interleave sched ids ts fids finished s :
  NoDup (ids ++ fids) → allready s ids ts → allsettled s fids finished →
  wp alone (λ s r, ∃ i, G i s r) (interleave sched ts finished)
    (λ '(fin, run) s', ∃ ids' fids', ids' ++ fids' ≡ₚ ids ++ fids ∧ allready s' ids' run ∧
       allsettled s' fids' fin ∧ ∀ j, j ∉ ids → rely j s s') s.
Proof using Type*.
  revert ids ts fids finished s. induction sched as [|n sched IH]; intros ids ts fids finished s Hnd Hr Hf;
    cbn [interleave].
  { exists ids, fids. split_and!; [done..|]. intros j _. reflexivity. }
  destruct (ts !! n) as [[a|r k]|] eqn:Hn; [| |by apply IH].
  - destruct (Forall2_lookup_r _ _ _ _ _ Hr Hn) as (i & Hi & Hret).
    assert (Hp : i :: delete n ids ≡ₚ ids) by (symmetry; by apply delete_Permutation).
    eapply wp_post; [apply (IH (delete n ids) _ (fids ++ [i]))|].
    + assert (Hq : delete n ids ++ fids ++ [i] ≡ₚ ids ++ fids) by (rewrite <- Hp at 2; solve_Permutation).
      by rewrite Hq.
    + by apply Forall2_delete.
    + apply Forall2_app; [done|]. by constructor.
    + intros [fin run] s' (ids' & fids' & H1 & H2 & H3 & H4). exists ids', fids'. split_and!; [|done|done|].
      * rewrite H1. rewrite <- Hp at 2. solve_Permutation.
      * intros j Hj. apply H4. intros Hin. apply Hj. rewrite <- Hp. by right.
  - destruct (Forall2_lookup_r _ _ _ _ _ Hr Hn) as (i & Hi & _).
    destruct (allready_step ids ts n i r k s) as [HG Hk]; [by apply NoDup_app in Hnd as (? & _)|done..|].
    split; [by exists i|]. intros x s' Hs. destruct (Hk x s' Hs) as [Hr' Hc].
    assert (Hin : i ∈ ids) by (by eapply list_elem_of_lookup_2).
    eapply wp_post; [apply (IH ids _ fids); [done|done|]|].
    + eapply allsettled_mono; [|exact Hf]. intros j Hj. apply Hc. intros ->.
      apply NoDup_app in Hnd as (_ & Hd & _). by eapply Hd.
    + intros [fin run] s1 (ids' & fids' & H1 & H2 & H3 & H4). exists ids', fids'. split_and!; [done..|].
      intros j Hj. transitivity s'; [apply Hc; by intros ->|by apply H4].
Qed.

Lemma wp_rg_join ids ts s :
  NoDup ids → allready s ids ts →
  wp alone (λ s r, ∃ i, G i s r) (join ts)
    (λ l s', allsettled s' ids l ∧ ∀ j, j ∉ ids → rely j s s') s.
Proof using Type*.
  revert ids s. induction ts as [|t ts IH]; intros ids s Hnd Hr; cbn [join];
    inversion Hr as [|i ? ids' ? Ht Hrest]; subst.
  { split; [constructor|]. intros j _. reflexivity. }
  apply NoDup_cons in Hnd as [Hi Hnd]. apply wp_bind.
  eapply wp_mono; [intros ? ? H; by exists i| |by apply wp_alone]. intros a s1 [H1 H2]. cbn in *. apply wp_bind.
  eapply wp_post; [apply (IH ids' s1); [done|]|].
  - eapply allready_mono; [|exact Hrest]. intros j Hj. apply H2. by intros ->.
  - intros l s2 [H3 H4]. split.
    + constructor; [|done]. eapply settled_mono; [|exact H1]. by apply H4.
    + intros j Hj. transitivity s1; [apply H2; set_solver|apply H4; set_solver].
Qed.

(** All threads together: each reaches its goal, and what belongs to nobody is
    left alone. *)
Lemma wp_rg_parallel sched ids ts s :
  NoDup ids → allready s ids ts →
  wp alone (λ s r, ∃ i, G i s r) (parallel sched ts)
    (λ l s', (∃ ids', ids' ≡ₚ ids ∧ allsettled s' ids' l) ∧ ∀ j, j ∉ ids → rely j s s') s.
Proof using Type*.
  intros Hnd Hr. unfold parallel. apply wp_bind.
  eapply wp_post; [apply (wp_rg_interleave _ ids _ []); [by rewrite app_nil_r|done|constructor]|].
  intros [fin run] s1 (ids' & fids' & H1 & H2 & H3 & H4). rewrite app_nil_r in H1.
  assert (Hnd' : NoDup (ids' ++ fids')) by (by rewrite H1). apply NoDup_app in Hnd' as (Hn1 & Hd & Hn2).
  apply wp_bind. eapply wp_post; [by apply (wp_rg_join ids')|]. intros l s2 [H5 H6]. cbn. split.
  - exists (fids' ++ ids'). split; [rewrite <- H1; apply Permutation_app_comm|]. apply Forall2_app; [|done].
    eapply allsettled_mono; [|exact H3]. intros j Hj. apply H6. intros Hj'. by eapply Hd.
  - intros j Hj. transitivity s1; [by apply H4|]. apply H6. intros Hj'. apply Hj. rewrite <- H1. set_solver.
Qed.
End rely_guarantee.
