(* ===== verification/HostSys.v ===== *)
(** * The host as the daemon's helpers see it (pkg/host/internal)

    The calls the host helpers make: files (sysfs included), commands, and the
    libraries behind pkg/host/internal/lib (dputils, netlink, ethtool, sriovnet,
    ghw).  A path is the list of its components, which is what [filepath.Join]
    makes of names that contain neither a slash nor dots; PCI addresses, link
    and driver names are single components. *)
From S2P Require Import Prelude GoLib Types Effects.

Definition Path : Type := list string.

(** [filepath.Base]. *)
Definition Base (p : Path) : string := default "." (last p).

(** The system errors the code tells apart. *)
Inductive Errno := ENOENT | ENODEV | EINVAL | ENOTSUP | EEXIST | EOther (msg : string).

#[export] Instance Errno_eq_dec : EqDecision Errno.
Proof. solve_decision. Defined.

(** Errors of the helpers: a system error, an error of their own, one that
    wraps another ([%w]), two joined ones ([errors.Join]), and a run-time panic,
    which unwinds through every caller. *)
Inductive HostError :=
| HSys (e : Errno)
| HMsg (msg : string)
| HWrap (msg : string) (e : HostError)
| HJoin (e1 e2 : HostError)
| HPanic.

#[export] Instance HostError_eq_dec : EqDecision HostError.
Proof. solve_decision. Defined.

(** [errors.Is(err, errno)]. *)
Fixpoint errors_Is (e : HostError) (n : Errno) : bool :=
  match e with
  | HSys e => bool_decide (e = n)
  | HWrap _ e => errors_Is e n
  | HJoin e1 e2 => errors_Is e1 n || errors_Is e2 n
  | _ => false
  end.

(** [errors.Join]. *)
Definition errors_Join (e1 e2 : option HostError) : option HostError :=
  match e1, e2 with
  | None, e | e, None => e
  | Some a, Some b => Some (HJoin a b)
  end.

Definition is_not_exist (e : Errno) : bool := bool_decide (e = ENOENT).

(** A network link (netlink.Link). *)
Record Link := mkLink {
  l_Name : string;
  l_Index : Z;
  l_MTU : Z;
  l_HardwareAddr : string;
  l_EncapType : string;
  l_Up : bool;
  l_AltNames : list string;
}.

(** A value of a devlink parameter, with the type the kernel gives it. *)
Inductive DevlinkValue := DU8 (n : Z) | DU16 (n : Z) | DU32 (n : Z) | DString (s : string) | DBool (b : bool).
Inductive DevlinkType := TU8 | TU16 | TU32 | TString | TBool | TOther (n : Z).

(** The parameter's type and its values (data and configuration mode). *)
Record DevlinkParam := mkDevlinkParam {
  dp_Type : DevlinkType;
  dp_Values : list (option DevlinkValue * Z);
}.

Record PCIDevice := mkPCIDevice {
  pd_Address : string;
  pd_Class : string;
  pd_Vendor : string;
  pd_Product : string;
}.

Inductive HostReq :=
(* package os *)
| Readlink (p : Path)
| ReadFile (p : Path)
| WriteFile (p : Path) (data : string)
| Stat (p : Path)
| Lstat (p : Path)
| Remove (p : Path)
| RemoveAll (p : Path)
| Mkdir (p : Path)
| MkdirAll (p : Path)
| Chmod (p : Path)
| ReadDir (p : Path)
| Glob (p : Path)
| OpenFile (p : Path) (create : bool)
| DecodeOpen (p : Path)               (* what a decoder reads from the open file *)
| TruncateOpen (p : Path)
| SeekOpen (p : Path)
| EncodeOpen (p : Path) (data : string)
| RunCommand (command : string) (args : list string)
| RandIntn (n : Z)
| RetryWait  (* a pause between two attempts; [true]: the context is done *)
(* dputils *)
| GetNetNames (addr : string)
| GetDriverName (addr : string)
| GetVFID (addr : string)
| IsSriovVF (addr : string)
| IsSriovPF (addr : string)
| GetSriovVFcapacity (pf : string)
| GetVFconfigured (pf : string)
| SriovConfigured (addr : string)
| GetVFList (pf : string)
(* netlink *)
| LinkByName (name : string)
| LinkByIndex (index : Z)
| LinkList
| LinkSetVfNodeGUID (link : Link) (vf : Z) (guid : list Z)
| LinkSetVfPortGUID (link : Link) (vf : Z) (guid : list Z)
| LinkSetVfHardwareAddr (link : Link) (vf : Z) (hwaddr : string)
| LinkSetUp (link : Link)
| LinkSetMTU (link : Link) (mtu : Z)
| DevLinkGetDeviceByName (bus device : string)  (* the eswitch mode *)
| DevLinkSetEswitchMode (bus device mode : string)
| DevlinkGetDeviceParamByName (bus device param : string)
| DevlinkSetDeviceParam (bus device param : string) (cmode : Z) (value : DevlinkValue)
| VDPAGetDevByName (name : string)
| VDPADelDev (name : string)
| VDPANewDev (name bus mgmt : string) (maxVQP : Z)
| RdmaLinkByName (name : string)  (* the node GUID *)
| RdmaSystemGetNetnsMode
| GetAltNames (name : string)
(* ethtool, sriovnet, ghw *)
| FeatureNames (name : string)
| Features (name : string)
| ChangeFeatures (name : string) (features : gmap string bool)
| GetVfRepresentor (pf : string) (vf : Z)
| PCI
(* pkg/host/internal/bridge *)
| DetachUplinkAndVFRepresentorsFromManagedBridge (addr : string).

Definition HostResp (r : HostReq) : Type :=
  match r with
  | Readlink _ => Errno + Path
  | ReadFile _ => Errno + string
  | WriteFile _ _ | Stat _ | Lstat _ | Remove _ | RemoveAll _ | Mkdir _ | MkdirAll _ | Chmod _ => option Errno
  | ReadDir _ => Errno + list string
  | Glob _ => Errno + list Path
  | OpenFile _ _ | TruncateOpen _ | SeekOpen _ | EncodeOpen _ _ => option Errno
  | DecodeOpen _ => Errno + string
  | RunCommand _ _ => string * string * option Errno  (* stdout, stderr *)
  | RandIntn _ => Z
  | RetryWait => bool
  | GetNetNames _ => Errno + list string
  | GetDriverName _ => Errno + string
  | GetVFID _ => Errno + Z
  | IsSriovVF _ | IsSriovPF _ | SriovConfigured _ => bool
  | GetSriovVFcapacity _ | GetVFconfigured _ => Z
  | GetVFList _ => Errno + list string
  | LinkByName _ | LinkByIndex _ => Errno + Link
  | LinkList => Errno + list Link
  | LinkSetVfNodeGUID _ _ _ | LinkSetVfPortGUID _ _ _ | LinkSetVfHardwareAddr _ _ _
  | LinkSetUp _ | LinkSetMTU _ _ => option Errno
  | DevLinkGetDeviceByName _ _ => Errno + string
  | DevLinkSetEswitchMode _ _ _ => option Errno
  | DevlinkGetDeviceParamByName _ _ _ => Errno + DevlinkParam
  | DevlinkSetDeviceParam _ _ _ _ _ => option Errno
  | VDPAGetDevByName _ | VDPADelDev _ | VDPANewDev _ _ _ _ => option Errno
  | RdmaLinkByName _ | RdmaSystemGetNetnsMode => Errno + string
  | GetAltNames _ => Errno + list string
  | FeatureNames _ => Errno + gset string
  | Features _ => Errno + gmap string bool
  | ChangeFeatures _ _ => option Errno
  | GetVfRepresentor _ _ => Errno + string
  | PCI => Errno + list PCIDevice
  | DetachUplinkAndVFRepresentorsFromManagedBridge _ => option HostError
  end%type.

Abbreviation hostM := (prog HostResp).

(** [if err != nil { return err }] after a call. *)
Definition sys {A} (c : hostM (Errno + A)) : hostM (HostError + A) :=
  r ← c; Ret (match r with inl e => inl (HSys e) | inr a => inr a end).

Definition sysE (c : hostM (option Errno)) : hostM (HostError + unit) :=
  r ← c; Ret (match r with Some e => inl (HSys e) | None => inr tt end).

(** [fmt.Errorf("...: %w", err)]; a panic is not an error value. *)
Definition wrap (msg : string) (e : HostError) : HostError :=
  match e with HPanic => HPanic | _ => HWrap msg e end.

Definition wrapping {A} (msg : string) (c : hostM (HostError + A)) : hostM (HostError + A) :=
  r ← c; Ret (match r with inl e => inl (wrap msg e) | inr a => inr a end).

(** Run a command for its error. *)
Definition runE (command : string) (args : list string) : hostM (HostError + unit) :=
  '(_, _, err) ← perform (RunCommand command args);
  Ret (match err with Some e => inl (HSys e) | None => inr tt end).

(** [for _, x := range l { if err := f(x); err != nil { return err } }] *)
Fixpoint each {A} (l : list A) (f : A → hostM (HostError + unit)) : hostM (HostError + unit) :=
  match l with
  | [] => Ret (inr tt)
  | x :: rest => f x ;;! each rest f
  end.

(** [wait.PollUntilContextTimeout(..., true, condition)], where the condition
    is tried [n] times at most: the value it was done with, or none. *)
Fixpoint pollUntil {A} (n : nat) (condition : hostM (option A)) : hostM (option A) :=
  match n with
  | O => Ret None
  | S n' =>
      r ← condition;
      match r with
      | Some a => Ret (Some a)
      | None => pollUntil n' condition
      end
  end.

(** ** The package variables the helpers read (pkg/vars) *)

Record HostVars := mkHostVars {
  FilesystemRoot : Path;
  InChroot : bool;
  HostUsingSystemd : bool;
  DevMode : bool;
  ParallelNicConfig : bool;
  HostManageBridges : bool;
  SupportedVfIds : list string;
  (* how often a VF's link is looked for (once a second for ten seconds) and how
     often the links of new VFs are (once a second for two minutes) *)
  vfReadyAttempts : nat;
  vfLinksAttempts : nat;
}.

Definition Host : string := "host".
Definition SysBus : Path := ["sys"; "bus"].
Definition SysBusPciDevices : Path := SysBus ++ ["pci"; "devices"].
Definition SysClassNet : Path := ["sys"; "class"; "net"].
Definition SriovConfBasePath : Path := ["etc"; "sriov-operator"].
Definition PfAppliedConfig : Path := SriovConfBasePath ++ ["pci"].
Definition BusPci := "pci".
Definition BusVdpa := "vdpa".
Definition NumVfsFile := "sriov_numvfs".
Definition LinkAdminStateUp := "up".

(** [utils.GetHostExtension], [GetChrootExtension]. *)
Definition GetHostExtension (hv : HostVars) : Path :=
  if InChroot hv then FilesystemRoot hv else FilesystemRoot hv ++ [Host].

Fixpoint path_string (p : Path) : string :=
  match p with
  | [] => ""
  | x :: rest => "/" +:+ x +:+ path_string rest
  end.

Definition GetChrootExtension (hv : HostVars) : string :=
  if InChroot hv then path_string (FilesystemRoot hv)
  else "chroot " +:+ path_string (FilesystemRoot hv) +:+ "/" +:+ Host.
