(* ===== verification/HostKernel.v ===== *)
(** * Kernel modules and driver binding (pkg/host/internal/kernel/kernel.go)

    Drivers are bound to PCI and VDPA devices by writing to files of sysfs. *)
From S2P Require Import Prelude GoLib Types Selector Effects HostSys.

Section kernel.
Context (hv : HostVars).

(** ** Modules *)

Definition sh (script : string) : hostM (string * string * option Errno) :=
  perform (RunCommand "/bin/sh" ["-c"; script]).

Definition IsKernelModuleLoaded (kernelModuleName : string) : hostM (HostError + bool) :=
  '(stdout, stderr, err) ← sh (GetChrootExtension hv +:+ " lsmod | grep " +:+ dq +:+ "^" +:+
                               kernelModuleName +:+ dq);
  if bool_decide (is_Some err) && negb (String.eqb stderr "") then
    Ret (inl (match err with Some e => HSys e | None => HMsg stderr end))
  else if negb (String.eqb stderr "") then Ret (inl (HMsg stderr))
  else Ret (inr (negb (String.eqb stdout ""))).

Definition LoadKernelModule (name : string) (args : list string) : hostM (HostError + unit) :=
  isLoaded ← IsKernelModuleLoaded name;
  if match isLoaded with inr b => b | inl _ => false end then Ret (inr tt)
  else
    '(_, _, err) ← sh (GetChrootExtension hv +:+ " modprobe " +:+ name +:+ " " +:+ Join args " ");
    Ret (match err with Some e => inl (HSys e) | None => inr tt end).

Definition TryEnableTun : hostM unit := LoadKernelModule "tun" [] ≫= λ _, Ret tt.
Definition TryEnableVhostNet : hostM unit := LoadKernelModule "vhost_net" [] ≫= λ _, Ret tt.

Definition GetCurrentKernelArgs : hostM (HostError + string) :=
  let path := (if HostUsingSystemd hv then [] else [Host]) ++ ["proc"; "cmdline"] in
  r ← perform (ReadFile (FilesystemRoot hv ++ path));
  match r with
  | inl e => Ret (inl (HMsg "GetCurrentKernelArgs(): Error reading the kernel command line"))
  | inr cmdLine => Ret (inr cmdLine)
  end.

(** The answers of [grep --quiet]. *)
Definition quietGrep (script : string) : hostM (HostError + bool) :=
  '(_, stderr, err) ← sh (GetChrootExtension hv +:+ script);
  Ret (match err with
       | None => inr true
       | Some _ => if String.eqb stderr "" then inr false else inl (HMsg stderr)
       end).

Definition rdmaModulesAreLoaded : hostM (HostError + bool) :=
  quietGrep " lsmod | grep --quiet '\(^ib\|^rdma\)'".

Definition CheckRDMAEnabled : hostM (HostError + bool) :=
  mlx5 ⇐ quietGrep " lsmod | grep --quiet 'mlx5_core'";
  if mlx5 : bool then rdmaModulesAreLoaded else Ret (inr false).

Definition IsKernelLockdownMode : hostM bool :=
  '(stdout, _, err) ← perform (RunCommand "cat"
     [path_string (GetHostExtension hv ++ ["sys"; "kernel"; "security"; "lockdown"])]);
  Ret (match err with
       | Some _ => false
       | None => Contains stdout "[integrity]" || Contains stdout "[confidentiality]"
       end).

(** ** Drivers *)

Definition devicePath (bus device : string) : Path :=
  FilesystemRoot hv ++ SysBus ++ [bus; "devices"; device].

Definition driverPath (bus driver file : string) : Path :=
  FilesystemRoot hv ++ SysBus ++ [bus; "drivers"; driver; file].

(** The driver of a device; none if there is no link to one. *)
Definition getDriverByBusAndDevice (bus device : string) : hostM (HostError + string) :=
  r ← perform (Readlink (devicePath bus device ++ ["driver"]));
  Ret (match r with
       | inl e => if is_not_exist e then inr "" else inl (HSys e)
       | inr driverInfo => inr (Base driverInfo)
       end).

Definition bindDriver (bus device driver : string) : hostM (HostError + unit) :=
  sysE (perform (WriteFile (driverPath bus driver "bind") device)).

Definition unbindDriver (bus device driver : string) : hostM (HostError + unit) :=
  sysE (perform (WriteFile (driverPath bus driver "unbind") device)).

Definition probeDriver (bus device : string) : hostM (HostError + unit) :=
  sysE (perform (WriteFile (FilesystemRoot hv ++ SysBus ++ [bus; "drivers_probe"]) device)).

(** The empty override is written as a NUL byte. *)
Definition setDriverOverride (bus device override : string) : hostM (HostError + unit) :=
  let driverOverridePath := devicePath bus device ++ ["driver_override"] in
  r ← perform (Stat driverOverridePath);
  match r with
  | Some e => if is_not_exist e then Ret (inr tt) else Ret (inl (HSys e))
  | None =>
      sysE (perform (WriteFile driverOverridePath
        (if String.eqb override "" then String "000" "" else override)))
  end.

Definition UnbindDriverByBusAndDevice (bus device : string) : hostM (HostError + unit) :=
  driver ⇐ getDriverByBusAndDevice bus device;
  if String.eqb driver "" then Ret (inr tt) else unbindDriver bus device driver.

Definition Unbind (pciAddr : string) : hostM (HostError + unit) :=
  UnbindDriverByBusAndDevice BusPci pciAddr.

Definition BindDriverByBusAndDevice (bus device driver : string) : hostM (HostError + unit) :=
  let bind :=
    setDriverOverride bus device driver ;;!
    bindDriver bus device driver ;;!
    setDriverOverride bus device "" in
  curDriver ⇐ getDriverByBusAndDevice bus device;
  if negb (String.eqb curDriver "") then
    if String.eqb curDriver driver then Ret (inr tt)
    else UnbindDriverByBusAndDevice bus device ;;! bind
  else bind.

(** When binding fails and the device has no IOMMU group, that is the error
    reported. *)
Definition BindDpdkDriver (pciAddr driver : string) : hostM (HostError + unit) :=
  r ← BindDriverByBusAndDevice BusPci pciAddr driver;
  match r with
  | inr _ => Ret (inr tt)
  | inl e =>
      g ← perform (Readlink (FilesystemRoot hv ++ SysBusPciDevices ++ [pciAddr; "iommu_group"]));
      Ret (inl (match g with
                | inl innerErr => HWrap "cannot bind driver, make sure IOMMU is enabled in BIOS" (HSys innerErr)
                | inr _ => e
                end))
  end.

Definition BindDefaultDriver (pciAddr : string) : hostM (HostError + unit) :=
  let probe := setDriverOverride BusPci pciAddr "" ;;! probeDriver BusPci pciAddr in
  curDriver ⇐ getDriverByBusAndDevice BusPci pciAddr;
  if negb (String.eqb curDriver "") then
    if negb (StringInArray curDriver DpdkDrivers) then Ret (inr tt)
    else UnbindDriverByBusAndDevice BusPci pciAddr ;;! probe
  else probe.

Definition RebindVfToDefaultDriver (vfAddr : string) : hostM (HostError + unit) :=
  Unbind vfAddr ;;! BindDefaultDriver vfAddr.

Definition UnbindDriverIfNeeded (vfAddr : string) (isRdma : bool) : hostM (HostError + unit) :=
  if isRdma then Unbind vfAddr else Ret (inr tt).

Definition HasDriver (pciAddr : string) : hostM (bool * string) :=
  r ← getDriverByBusAndDevice BusPci pciAddr;
  Ret (match r with
       | inl _ => (false, "")
       | inr driver => if String.eqb driver "" then (false, "") else (true, driver)
       end).
End kernel.
