(* ===== verification/HostNetwork.v ===== *)
(** * Network devices (pkg/host/internal/network/network.go)

    Names, MTU, devlink parameters and offload features of network devices,
    and the RDMA subsystem mode. *)
From S2P Require Import Prelude GoLib Types Effects HostSys.

(** ** Text *)

(** [strconv.ParseUint(s, 10, bits)]. *)
Definition ParseUint (s : string) (bits : Z) : option Z :=
  match s with
  | EmptyString => None
  | _ => match parse_uint 0 s with
         | inl v => if v <? 2 ^ bits then Some v else None
         | inr _ => None
         end
  end.

(** [strconv.ParseBool]. *)
Definition ParseBool (s : string) : option bool :=
  if existsb (String.eqb s) ["1"; "t"; "T"; "TRUE"; "true"; "True"] then Some true
  else if existsb (String.eqb s) ["0"; "f"; "F"; "FALSE"; "false"; "False"] then Some false
  else None.

(** The regular expression [p\d+], anywhere in the text. *)
Fixpoint PfPhysPortNameRe (s : string) : bool :=
  match s with
  | String a r =>
      (Ascii.eqb a "p" && match r with String d _ => bool_decide (is_Some (digit_of d)) | EmptyString => false end)
      || PfPhysPortNameRe r
  | EmptyString => false
  end.

Section network.
Context (hv : HostVars).

(** ** Names *)

Definition classNet (name file : string) : Path := FilesystemRoot hv ++ SysClassNet ++ [name; file].

Definition GetPhysSwitchID (name : string) : hostM (HostError + string) :=
  physSwitchID ⇐ sys (perform (ReadFile (classNet name "phys_switch_id")));
  Ret (inr (TrimSpace physSwitchID)).

Definition GetPhysPortName (name : string) : hostM (HostError + string) :=
  physPortName ⇐ sys (perform (ReadFile (classNet name "phys_port_name")));
  Ret (inr (TrimSpace physPortName)).

Definition IsSwitchdev (name : string) : hostM bool :=
  r ← GetPhysSwitchID name;
  Ret (match r with inl _ => false | inr switchID => negb (String.eqb switchID "") end).

(** The PF among the names under a PCI address: the first switchdev device
    whose port name, if it has one, is that of a PF. *)
Fixpoint pickSwitchdev (names : list string) (netDevName : string) : hostM string :=
  match names with
  | [] => Ret netDevName
  | name :: rest =>
      switchdev ← IsSwitchdev name;
      if negb switchdev then pickSwitchdev rest netDevName
      else
        physPortName ← GetPhysPortName name;
        match physPortName with
        | inr n => if PfPhysPortNameRe n then Ret name else pickSwitchdev rest netDevName
        | inl _ => Ret name
        end
  end.

Definition TryGetInterfaceName (pciAddr : string) : hostM string :=
  r ← perform (GetNetNames pciAddr);
  match r with
  | inl _ | inr [] => Ret ""
  | inr (netDevName :: rest) => pickSwitchdev (netDevName :: rest) netDevName
  end.

Definition TryToGetVirtualInterfaceName (pciAddr : string) : hostM string :=
  name ← TryGetInterfaceName pciAddr;
  if negb (String.eqb name "") then Ret name
  else
    netDir ← perform (Glob (FilesystemRoot hv ++ SysBusPciDevices ++ [pciAddr; "virtio*"; "net"]));
    match netDir with
    | inl _ | inr [] => Ret ""
    | inr (dir :: _) =>
        fInfos ← perform (ReadDir dir);
        match fInfos with
        | inl _ | inr [] => Ret ""
        | inr (n :: _) => Ret n
        end
    end.

Definition GetInterfaceIndex (pciAddr : string) : hostM (HostError + Z) :=
  ifName ← TryGetInterfaceName pciAddr;
  if String.eqb ifName "" then Ret (inl (HMsg "failed to get interface name"))
  else
    ifIndex ⇐ sys (perform (ReadFile
      (FilesystemRoot hv ++ SysBusPciDevices ++ [pciAddr; "net"; ifName; "ifindex"])));
    match Atoi (TrimSpace ifIndex) with
    | (n, None) => Ret (inr n)
    | (_, Some _) => Ret (inl (HMsg "failed to parse ifindex file content"))
    end.

Definition GetPciAddressFromInterfaceName (interfaceName : string) : hostM (HostError + string) :=
  pciDevDir ⇐ sys (perform (Readlink (classNet interfaceName "device")));
  Ret (inr (Base pciDevDir)).

(** ** Attributes *)

Definition GetNetdevMTU (pciAddr : string) : hostM Z :=
  ifaceName ← TryGetInterfaceName pciAddr;
  if String.eqb ifaceName "" then Ret 0
  else
    r ← perform (LinkByName ifaceName);
    Ret (match r with inl _ => 0 | inr link => l_MTU link end).

Definition setMTUOnce (pciAddr : string) (mtu : Z) : hostM (HostError + unit) :=
  ifaceName ← TryGetInterfaceName pciAddr;
  if String.eqb ifaceName "" then Ret (inl (HMsg "failed to get netdevice for device"))
  else
    link ⇐ sys (perform (LinkByName ifaceName));
    sysE (perform (LinkSetMTU link mtu)).

(** [backoff.Retry] with at most [n] retries: the error is the last one. *)
Fixpoint retry (n : nat) (operation : hostM (HostError + unit)) : hostM (HostError + unit) :=
  r ← operation;
  match r, n with
  | inl e, S n' => retry n' operation
  | _, _ => Ret r
  end.

Definition SetNetdevMTU (pciAddr : string) (mtu : Z) : hostM (HostError + unit) :=
  if mtu <=? 0 then Ret (inr tt) else retry 10 (setMTUOnce pciAddr mtu).

Definition GetNetDevMac (ifaceName : string) : hostM string :=
  r ← perform (LinkByName ifaceName);
  Ret (match r with inl _ => "" | inr link => l_HardwareAddr link end).

Definition GetNetDevNodeGUID (pciAddr : string) : hostM string :=
  if String.eqb pciAddr "" then Ret ""
  else
    r ← perform (ReadDir (FilesystemRoot hv ++ SysBusPciDevices ++ [pciAddr; "infiniband"]));
    match r with
    | inr [rdmaDevice] =>
        g ← perform (RdmaLinkByName rdmaDevice);
        Ret (match g with inl _ => "" | inr guid => guid end)
    | _ => Ret ""
    end.

Definition GetNetDevLinkSpeed (ifaceName : string) : hostM string :=
  r ← perform (ReadFile (classNet ifaceName "speed"));
  Ret (match r with inl _ => "" | inr data => TrimSpace data +:+ " Mb/s" end).

Definition GetNetDevLinkAdminState (ifaceName : string) : hostM string :=
  if String.eqb ifaceName "" then Ret ""
  else
    r ← perform (LinkByName ifaceName);
    Ret (match r with
         | inl _ => ""
         | inr link => if l_Up link then LinkAdminStateUp else LinkAdminStateDown
         end).

(** ** devlink parameters *)

Definition paramValue (t : DevlinkType) (v : DevlinkValue) : HostError + string :=
  match t, v with
  | (TU8 | TU16 | TU32), (DU8 n | DU16 n | DU32 n) => inr (Itoa n)
  | (TU8 | TU16 | TU32), _ => inl (HMsg "value is not uint")
  | TString, DString s => inr s
  | TString, _ => inl (HMsg "value is not a string")
  | TBool, DBool b => inr (if b then "true" else "false")
  | TBool, _ => inl (HMsg "value is not a bool")
  | TOther _, _ => inl (HMsg "unknown value type")
  end.

(** The first value; empty when the device has none. *)
Definition GetDevlinkDeviceParam (pciAddr paramName : string) : hostM (HostError + string) :=
  param ⇐ sys (perform (DevlinkGetDeviceParamByName BusPci pciAddr paramName));
  Ret (match dp_Values param with
       | [] | (None, _) :: _ => inr ""
       | (Some v, _) :: _ => paramValue (dp_Type param) v
       end).

Definition typedValue (t : DevlinkType) (value : string) : HostError + DevlinkValue :=
  let bad := inl (HMsg "failed to convert value to the required type") in
  match t with
  | TU8 => match ParseUint value 8 with Some n => inr (DU8 n) | None => bad end
  | TU16 => match ParseUint value 16 with Some n => inr (DU16 n) | None => bad end
  | TU32 => match ParseUint value 32 with Some n => inr (DU32 n) | None => bad end
  | TString => inr (DString value)
  | TBool => match ParseBool value with Some b => inr (DBool b) | None => bad end
  | TOther _ => inl (HMsg "parameter has unknown value type")
  end.

Definition SetDevlinkDeviceParam (pciAddr paramName value : string) : hostM (HostError + unit) :=
  param ⇐ sys (perform (DevlinkGetDeviceParamByName BusPci pciAddr paramName));
  match dp_Values param with
  | [] => Ret (inl (HMsg "param has no value"))
  | (_, targetCMOD) :: _ =>
      match typedValue (dp_Type param) value with
      | inl e => Ret (inl e)
      | inr v => sysE (perform (DevlinkSetDeviceParam BusPci pciAddr paramName targetCMOD v))
      end
  end.

(** ** Offloading and RDMA *)

Definition hwTcOffloadFeatureName := "hw-tc-offload".

Definition EnableHwTcOffload (ifaceName : string) : hostM (HostError + unit) :=
  knownFeatures ⇐ sys (perform (FeatureNames ifaceName));
  if negb (bool_decide (hwTcOffloadFeatureName ∈ knownFeatures)) then Ret (inr tt)
  else
    currentFeaturesState ⇐ sys (perform (Features ifaceName));
    if default false (currentFeaturesState !! hwTcOffloadFeatureName) then Ret (inr tt)
    else
      sysE (perform (ChangeFeatures ifaceName {[ hwTcOffloadFeatureName := true ]})) ;;!
      _ ⇐ sys (perform (Features ifaceName));
      Ret (inr tt).

Definition DiscoverRDMASubsystem : hostM (HostError + string) := sys (perform RdmaSystemGetNetnsMode).

Definition SetRDMASubsystem (mode : string) : hostM (HostError + unit) :=
  let path := FilesystemRoot hv ++ [Host; "etc"; "modprobe.d"; "sriov_network_operator_modules_config.conf"] in
  if String.eqb mode "" then
    r ← perform (Remove path);
    Ret (match r with
         | Some e => if is_not_exist e then inr tt else inl (HSys e)
         | None => inr tt
         end)
  else
    let modeValue := if String.eqb mode "exclusive" then "0" else "1" in
    let config := "# This file is managed by sriov-network-operator do not edit." +:+ newline +:+
                  "options ib_core netns_mode=" +:+ modeValue +:+ newline in
    r ← perform (WriteFile path config);
    Ret (match r with
         | Some _ => inl (HMsg "failed to write sriov_network_operator_modules_config.conf")
         | None => inr tt
         end).
End network.
