(* ===== verification/HostDevices.v ===== *)
(** * udev rules and VDPA devices (pkg/host/internal/udev, vdpa) *)
From S2P Require Import Prelude GoLib Types Selector Effects HostSys HostKernel.

Section udev.
Context (hv : HostVars).

Definition UdevRulesFolder : Path := ["etc"; "udev"; "rules.d"].
Definition HostUdevFolder : Path := [Host; "etc"; "udev"].

(** ** Rules *)

Definition getRuleFolderPath : Path := FilesystemRoot hv ++ UdevRulesFolder.

Definition getRulePathForPF (ruleName pfPciAddress : string) : Path :=
  getRuleFolderPath ++ [ruleName +:+ "-" +:+ pfPciAddress +:+ ".rules"].

Definition addUdevRule (pfPciAddress ruleName ruleContent : string) : hostM (HostError + unit) :=
  r ← perform (MkdirAll getRuleFolderPath);
  match r with
  | Some e => if bool_decide (e = EEXIST) then
                sysE (perform (WriteFile (getRulePathForPF ruleName pfPciAddress) ruleContent))
              else Ret (inl (HSys e))
  | None => sysE (perform (WriteFile (getRulePathForPF ruleName pfPciAddress) ruleContent))
  end.

Definition removeUdevRule (pfPciAddress ruleName : string) : hostM (HostError + unit) :=
  r ← perform (Remove (getRulePathForPF ruleName pfPciAddress));
  Ret (match r with
       | Some e => if is_not_exist e then inr tt else inl (HSys e)
       | None => inr tt
       end).

(** consts.NMUdevRule, PFNameUdevRule and SwitchdevUdevRule. *)
Definition NMUdevRule (ids pf : string) : string :=
  "SUBSYSTEM==" +:+ quoted "net" +:+ ", ACTION==" +:+ quoted "add|change|move" +:+
  ", ATTRS{device}==" +:+ quoted ids +:+ ", IMPORT{program}=" +:+
  quoted ("/etc/udev/disable-nm-sriov.sh $env{INTERFACE} " +:+ pf).

Definition PFNameUdevRule (pf name : string) : string :=
  "SUBSYSTEM==" +:+ quoted "net" +:+ ", ACTION==" +:+ quoted "add" +:+ ", DRIVERS==" +:+ quoted "?*" +:+
  ", KERNELS==" +:+ quoted pf +:+ ", NAME=" +:+ quoted name.

Definition SwitchdevUdevRule (switch port name : string) : string :=
  "SUBSYSTEM==" +:+ quoted "net" +:+ ", ACTION==" +:+ quoted "add|move" +:+
  ", ATTRS{phys_switch_id}==" +:+ quoted switch +:+ ", ATTR{phys_port_name}==" +:+
  quoted ("pf" +:+ port +:+ "vf*") +:+ ", IMPORT{program}=" +:+
  quoted "/etc/udev/switchdev-vf-link-name.sh $attr{phys_port_name}" +:+ ", NAME=" +:+
  quoted (name +:+ "_$env{NUMBER}").

Definition AddDisableNMUdevRule (pf : string) : hostM (HostError + unit) :=
  addUdevRule pf "10-nm-disable" (NMUdevRule (Join (SupportedVfIds hv) "|") pf).
Definition RemoveDisableNMUdevRule (pf : string) : hostM (HostError + unit) :=
  removeUdevRule pf "10-nm-disable".

Definition AddPersistPFNameUdevRule (pf name : string) : hostM (HostError + unit) :=
  addUdevRule pf "10-pf-name" (PFNameUdevRule pf name).
Definition RemovePersistPFNameUdevRule (pf : string) : hostM (HostError + unit) :=
  removeUdevRule pf "10-pf-name".

(** [strings.TrimPrefix(s, "p")]. *)
Definition trimP (s : string) : string :=
  match s with String "p" r => r | _ => s end.

Definition AddVfRepresentorUdevRule (pf name switchID switchPort : string) : hostM (HostError + unit) :=
  addUdevRule pf "20-switchdev" (SwitchdevUdevRule switchID (trimP switchPort) name).
Definition RemoveVfRepresentorUdevRule (pf : string) : hostM (HostError + unit) :=
  removeUdevRule pf "20-switchdev".

(** ** Preparation and the udev daemon *)

(** The result with the new [vars.SupportedVfIds] on success. *)
Definition PrepareNMUdevRule (GetSupportedVfIds : list string) : hostM (HostError + list string) :=
  let filePath := FilesystemRoot hv ++ HostUdevFolder ++ ["rules.d"; "10-nm-unmanaged.rules"] in
  r ← perform (Stat filePath);
  (match r with None => perform (Remove filePath) | Some _ => Ret None end) ≫= λ _,
  runE "/bin/bash" [path_string (FilesystemRoot hv ++ ["bindata"; "scripts"; "udev-find-sriov-pf.sh"])] ;;!
  Ret (inr GetSupportedVfIds).

Definition PrepareVFRepUdevRule : hostM (HostError + unit) :=
  let targetPath := FilesystemRoot hv ++ HostUdevFolder ++ ["switchdev-vf-link-name.sh"] in
  data ⇐ sys (perform (ReadFile (FilesystemRoot hv ++ ["bindata"; "scripts"; "switchdev-vf-link-name.sh"])));
  sysE (perform (WriteFile targetPath data)) ;;!
  sysE (perform (Chmod targetPath)).

Definition LoadUdevRules : hostM (HostError + unit) :=
  runE "udevadm" ["control"; "--reload-rules"] ;;!
  runE "udevadm" ["trigger"; "--action"; "add"; "--attr-match"; "subsystem=net"].

Definition WaitUdevEventsProcessed (timeout : Z) : hostM (HostError + unit) :=
  runE "udevadm" ["settle"; "-t"; Itoa timeout].

(** ** VDPA devices *)

Definition VhostVdpaDriver := "vhost_vdpa".
Definition VirtioVdpaDriver := "virtio_vdpa".

Definition generateVDPADevName (pciAddr : string) : string := "vdpa:" +:+ pciAddr.

Definition vdpaTypeToDriver (vdpaType : string) : string :=
  if String.eqb vdpaType VdpaTypeVhost then VhostVdpaDriver
  else if String.eqb vdpaType VdpaTypeVirtio then VirtioVdpaDriver
  else "".

Definition vdpaDriverToType (driver : string) : string :=
  if String.eqb driver VhostVdpaDriver then VdpaTypeVhost
  else if String.eqb driver VirtioVdpaDriver then VdpaTypeVirtio
  else "".

(** A new device, with 32 queue pairs if that can be asked for. *)
Definition newVDPADevice (name pciAddr : string) : hostM (HostError + unit) :=
  r ← perform (VDPANewDev name BusPci pciAddr 32);
  match r with
  | None => Ret (inr tt)
  | Some e => if bool_decide (e = ENOTSUP) then sysE (perform (VDPANewDev name BusPci pciAddr 0))
              else Ret (inl (HSys e))
  end.

Definition CreateVDPADevice (pciAddr vdpaType : string) : hostM (HostError + unit) :=
  let expectedVDPAName := generateVDPADevName pciAddr in
  let expectedDriver := vdpaTypeToDriver vdpaType in
  if String.eqb expectedDriver "" then Ret (inl (HMsg "unknown VDPA device type"))
  else
    r ← perform (VDPAGetDevByName expectedVDPAName);
    (match r with
     | None => Ret (inr tt)
     | Some e => if bool_decide (e = ENODEV) then newVDPADevice expectedVDPAName pciAddr
                 else Ret (inl (HSys e))
     end) ;;!
    BindDriverByBusAndDevice hv BusVdpa expectedVDPAName expectedDriver.

Definition DeleteVDPADevice (pciAddr : string) : hostM (HostError + unit) :=
  r ← perform (VDPADelDev (generateVDPADevName pciAddr));
  Ret (match r with
       | None => inr tt
       | Some e => if bool_decide (e = ENODEV) || bool_decide (e = ENOENT) then inr tt else inl (HSys e)
       end).

Definition DiscoverVDPAType (pciAddr : string) : hostM string :=
  let expectedVDPAName := generateVDPADevName pciAddr in
  r ← perform (VDPAGetDevByName expectedVDPAName);
  match r with
  | Some _ => Ret ""
  | None =>
      driverName ← getDriverByBusAndDevice hv BusVdpa expectedVDPAName;
      Ret (match driverName with
           | inl _ => ""
           | inr d => if String.eqb d "" then "" else vdpaDriverToType d
           end)
  end.
End udev.
