(* ===== verification/Infiniband.v ===== *)
(** * InfiniBand GUIDs (pkg/host/internal/infiniband)

    GUIDs as 64-bit numbers and as text, the configuration file that says which
    GUIDs the VFs of a PF get, the pool built from it, and the assignment of a
    GUID to a VF. *)
From S2P Require Import Prelude GoLib Types Effects HostSys HostNetwork.

(** ** net.HardwareAddr and net.ParseMAC *)

Definition hex_digit (a : ascii) : option Z :=
  let n := Z.of_N (N_of_ascii a) in
  if (48 <=? n) && (n <=? 57) then Some (n - 48)
  else if (97 <=? n) && (n <=? 102) then Some (n - 87)
  else if (65 <=? n) && (n <=? 70) then Some (n - 55)
  else None.

Definition hex_byte (d : Z) : ascii := ascii_of_N (Z.to_N (if d <? 10 then 48 + d else 87 + d)).

(** [xtoi2]: two hexadecimal digits, followed by the end or by [e]. *)
Definition xtoi2 (s : list ascii) (e : ascii) : option Z :=
  match s with
  | a :: b :: rest =>
      if match rest with [] => true | c :: _ => Ascii.eqb c e end then
        x ← hex_digit a; y ← hex_digit b; Some (16 * x + y)
      else None
  | _ => None
  end.

Fixpoint parseOctets (n : nat) (sep : ascii) (s : list ascii) : option (list Z) :=
  match n with
  | O => Some []
  | S n' => b ← xtoi2 s sep; bs ← parseOctets n' sep (drop 3 s); Some (b :: bs)
  end.

(** Pairs of octets, for the form with dots. *)
Fixpoint parsePairs (n : nat) (s : list ascii) : option (list Z) :=
  match n with
  | O => Some []
  | S n' =>
      b ← xtoi2 (take 2 s) "000"; c ← xtoi2 (drop 2 s) ".";
      bs ← parsePairs n' (drop 5 s); Some (b :: c :: bs)
  end.

Definition mac_length (n : nat) : bool := existsb (Nat.eqb n) [6; 8; 20]%nat.

Definition ParseMAC_list (s : list ascii) : option (list Z) :=
  let len := length s in
  if (len <? 14)%nat then None
  else
    match s !! 2%nat, s !! 4%nat with
    | Some c2, Some c4 =>
        if Ascii.eqb c2 ":" || Ascii.eqb c2 "-" then
          if negb ((len + 1) mod 3 =? 0)%nat then None
          else let n := ((len + 1) / 3)%nat in
               if mac_length n then parseOctets n c2 s else None
        else if Ascii.eqb c4 "." then
          if negb ((len + 1) mod 5 =? 0)%nat then None
          else let n := (2 * (len + 1) / 5)%nat in
               if mac_length n then parsePairs (n / 2) s else None
        else None
    | _, _ => None
    end.

Definition ParseMAC (s : string) : option (list Z) := ParseMAC_list (String.list_ascii_of_string s).

Definition octet (b : Z) : list ascii := [hex_byte (b / 16); hex_byte (b mod 16)].

(** [HardwareAddr.String]. *)
Fixpoint ha_chars (ha : list Z) : list ascii :=
  match ha with
  | [] => []
  | [b] => octet b
  | b :: rest => octet b ++ [":"%char] ++ ha_chars rest
  end.

Definition HardwareAddr_String (ha : list Z) : string := String.string_of_list_ascii (ha_chars ha).

(** ** GUIDs (guid.go) *)

Definition guidLength : nat := 8.
Definition byteBitLen : Z := 8.
Definition byteMask : Z := 255.

(** [guid |= uint64(octet) << uint(byteBitLen*(guidLength-1-idx))] *)
Fixpoint guid_go (idx : Z) (ha : list Z) (guid : Z) : Z :=
  match ha with
  | [] => guid
  | octet :: rest =>
      guid_go (idx + 1) rest (Z.lor guid (Z.shiftl octet (byteBitLen * (Z.of_nat guidLength - 1 - idx))))
  end.

Definition ParseGUID (s : string) : HostError + Z :=
  match ParseMAC s with
  | None => inl (HMsg "address: invalid MAC address")
  | Some ha =>
      if negb (length ha =? guidLength)%nat then inl (HMsg "invalid GUID address")
      else inr (guid_go 0 ha 0)
  end.

(** The octets from the last to the first. *)
Fixpoint ha_go (idx : nat) (value : Z) (ha : list Z) : list Z :=
  match idx with
  | O => ha
  | S idx' => ha_go idx' (Z.shiftr value byteBitLen) (Z.land value byteMask :: ha)
  end.

Definition GUID_HardwareAddr (g : Z) : list Z := ha_go guidLength g [].
Definition GUID_String (g : Z) : string := HardwareAddr_String (GUID_HardwareAddr g).

Fixpoint randomOctets (n : nat) : hostM (list Z) :=
  match n with
  | O => Ret []
  | S n' => b ← perform (RandIntn 256); bs ← randomOctets n'; Ret (b mod 256 :: bs)
  end.

(** The first octet is neither 0 nor 255. *)
Definition generateRandomGUID : hostM (list Z) :=
  b ← perform (RandIntn 254); bs ← randomOctets 7; Ret ((1 + b) mod 256 :: bs).

(** ** The configuration file (ib_guid_config.go) *)

Record GUIDRangeJSON := mkGUIDRangeJSON { rj_Start : string; rj_End : string }.

Record ibPfGUIDJSONConfig := mkGUIDJSONConfig {
  gj_PciAddress : string;
  gj_PfGUID : string;
  gj_GUIDs : list string;
  gj_GUIDsRange : option GUIDRangeJSON;
}.

Record GUIDRange := mkGUIDRange { gr_Start : Z; gr_End : Z }.

Record ibPfGUIDConfig := mkGUIDConfig {
  gc_GUIDs : list Z;
  gc_GUIDRange : option GUIDRange;
}.

Fixpoint parseGUIDs (l : list string) : HostError + list Z :=
  match l with
  | [] => inr []
  | s :: rest =>
      match ParseGUID s with
      | inl e => inl (HWrap "failed to parse ib guid" e)
      | inr g => match parseGUIDs rest with inl e => inl e | inr gs => inr (g :: gs) end
      end
  end.

Definition parseGUIDRange (r : GUIDRangeJSON) : HostError + GUIDRange :=
  match ParseGUID (rj_Start r) with
  | inl e => inl (HWrap "failed to parse ib guid range start" e)
  | inr rangeStart =>
      match ParseGUID (rj_End r) with
      | inl e => inl (HWrap "failed to parse ib guid range end" e)
      | inr rangeEnd =>
          if rangeEnd <? rangeStart then inl (HMsg "range end cannot be less then range start")
          else inr (mkGUIDRange rangeStart rangeEnd)
      end
  end.

(** One entry of the file. *)
Definition parsePfGUIDConfig (raw : ibPfGUIDJSONConfig) : HostError + ibPfGUIDConfig :=
  let noGUIDs := bool_decide (gj_GUIDs raw = []) in
  let missing s := String.eqb s "" in
  if noGUIDs && match gj_GUIDsRange raw with
                | None => true
                | Some r => missing (rj_Start r) || missing (rj_End r)
                end
  then inl (HMsg "either guid list or guid range should be provided, got none")
  else if negb noGUIDs && bool_decide (is_Some (gj_GUIDsRange raw))
  then inl (HMsg "either guid list or guid range should be provided, got both")
  else if match gj_GUIDsRange raw with
          | None => false
          | Some r => negb (missing (rj_Start r)) && missing (rj_End r) ||
                      missing (rj_Start r) && negb (missing (rj_End r))
          end
  then inl (HMsg "both guid rangeStart and rangeEnd should be provided, got one")
  else if negb noGUIDs then
    match parseGUIDs (gj_GUIDs raw) with
    | inl e => inl e
    | inr guids => inr (mkGUIDConfig guids None)
    end
  else
    match gj_GUIDsRange raw with
    | None => inl HPanic
    | Some r =>
        match parseGUIDRange r with
        | inl e => inl e
        | inr rng => inr (mkGUIDConfig [] (Some rng))
        end
    end.

Section infiniband.
Context (hv : HostVars).
(** json.Unmarshal of the file. *)
Context (UnmarshalGUIDs : string → string + list ibPfGUIDJSONConfig).

Definition InfinibandGUIDConfigFilePath : Path := SriovConfBasePath ++ ["infiniband"; "guids"].

Definition readJSONConfig (configPath : Path) : hostM (HostError + list ibPfGUIDJSONConfig) :=
  data ⇐ wrapping "failed to read ib guid config"
           (sys (perform (ReadFile (GetHostExtension hv ++ configPath))));
  Ret (match UnmarshalGUIDs data with
       | inl e => inl (HWrap "failed to unmarshal content of ib guid config" (HMsg e))
       | inr configs => inr configs
       end).

Definition getPfPciAddressFromRawConfig (raw : ibPfGUIDJSONConfig) (links : list Link)
    : hostM (HostError + string) :=
  let pci := gj_PciAddress raw in
  let guid := gj_PfGUID raw in
  if negb (String.eqb pci "") && negb (String.eqb guid "") then
    Ret (inl (HMsg "either PCI address or PF GUID required to describe an interface, both provided"))
  else if String.eqb pci "" && String.eqb guid "" then
    Ret (inl (HMsg "either PCI address or PF GUID required to describe an interface, none provided"))
  else if negb (String.eqb pci "") then Ret (inr pci)
  else
    match List.find (λ l, String.eqb (l_HardwareAddr l) guid) links with
    | Some link => GetPciAddressFromInterfaceName hv (l_Name link)
    | None => Ret (inl (HMsg "no matching link found for pf guid"))
    end.

Fixpoint parseConfigs (links : list Link) (raws : list ibPfGUIDJSONConfig)
    (resultConfigs : gmap string ibPfGUIDConfig) : hostM (HostError + gmap string ibPfGUIDConfig) :=
  match raws with
  | [] => Ret (inr resultConfigs)
  | raw :: rest =>
      pciAddress ⇐ wrapping "failed to extract pci address from ib guid config"
                     (getPfPciAddressFromRawConfig raw links);
      match parsePfGUIDConfig raw with
      | inl e => Ret (inl e)
      | inr c => parseConfigs links rest (<[pciAddress := c]> resultConfigs)
      end
  end.

Definition getIbGUIDConfig (configPath : Path) : hostM (HostError + gmap string ibPfGUIDConfig) :=
  links ⇐ sys (perform LinkList);
  rawConfigs ⇐ readJSONConfig configPath;
  parseConfigs links rawConfigs ∅.

(** ** The pool (ib_guid_pool.go) *)

Definition newIbGUIDPool (configPath : Path) : hostM (HostError + gmap string ibPfGUIDConfig) :=
  wrapping "failed to create ib guid pool" (getIbGUIDConfig configPath).

(** [infiniband.New]: without the file there is no pool. *)
Definition New : hostM (HostError + option (gmap string ibPfGUIDConfig)) :=
  r ← newIbGUIDPool InfinibandGUIDConfigFilePath;
  Ret (match r with
       | inr pool => inr (Some pool)
       | inl e => if errors_Is e ENOENT then inr None
                  else inl (wrap "failed to create the ib guid pool" e)
       end).
End infiniband.

(** [GUID] is a [uint64]: the sum wraps at 64 bits.  A negative index of the
    list panics. *)
Definition GetVFGUID (guidConfigs : gmap string ibPfGUIDConfig) (pfPciAddr : string) (vfID : Z)
    : HostError + list Z :=
  match guidConfigs !! pfPciAddr with
  | None => inl (HMsg "no guid pool for pci address")
  | Some config =>
      if negb (bool_decide (gc_GUIDs config = [])) then
        if Z.of_nat (length (gc_GUIDs config)) <=? vfID then inl (HMsg "no guid allocation found for VF id")
        else if vfID <? 0 then inl HPanic
        else match gc_GUIDs config !! Z.to_nat vfID with
             | Some guid => inr (GUID_HardwareAddr guid)
             | None => inl HPanic
             end
      else
        match gc_GUIDRange config with
        | Some r =>
            let nextGUID := (gr_Start r + vfID) mod 2 ^ 64 in
            if gr_End r <? nextGUID then inl (HMsg "no guid allocation found for VF id")
            else inr (GUID_HardwareAddr nextGUID)
        | None => inl (HMsg "no guid pool for pci address")
        end
  end.

(** ** Assigning a GUID (infiniband.go) *)

Definition applyVfGUIDToInterface (guid : list Z) (vfID : Z) (pfLink : Link) : hostM (HostError + unit) :=
  sysE (perform (LinkSetVfNodeGUID pfLink vfID guid)) ;;!
  sysE (perform (LinkSetVfPortGUID pfLink vfID guid)).

Definition ConfigureVfGUID (guidPool : option (gmap string ibPfGUIDConfig))
    (vfAddr pfAddr : string) (vfID : Z) (pfLink : Link) : hostM (HostError + unit) :=
  random ← generateRandomGUID;
  match guidPool with
  | None => applyVfGUIDToInterface random vfID pfLink
  | Some pool =>
      match GetVFGUID pool pfAddr vfID with
      | inl e => Ret (inl e)
      | inr guid => applyVfGUIDToInterface guid vfID pfLink
      end
  end.
