(* ===== verification/InfinibandSpec.v ===== *)
(** * What the GUID code guarantees

    GUIDs survive printing and parsing; a configuration that was accepted holds
    GUIDs only; the pool gives different VFs of a PF different GUIDs of the
    configured range, as long as the sum of start and index stays below 2^64. *)
From S2P Require Import Prelude GoLib Types Effects HostSys HostNetwork Infiniband.

Definition is_octet (b : Z) : Prop := 0 ≤ b < 256.
Definition is_guid (g : Z) : Prop := 0 ≤ g < 2 ^ 64.

(** ** Octets and numbers, big end first *)

Fixpoint be_val (ha : list Z) : Z :=
  match ha with
  | [] => 0
  | b :: rest => b * 2 ^ (8 * Z.of_nat (length rest)) + be_val rest
  end.

Fixpoint be_bytes (n : nat) (v : Z) : list Z :=
  match n with
  | O => []
  | S n' => be_bytes n' (v / 256) ++ [v mod 256]
  end.

Lemma length_be_bytes n v : length (be_bytes n v) = n.
Proof. revert v. induction n as [|n IH]; intros v; [done|]. cbn. rewrite length_app, IH. cbn. lia. Qed.

Lemma be_bytes_octets n v : Forall is_octet (be_bytes n v).
Proof.
  revert v. induction n as [|n IH]; intros v; cbn; [constructor|].
  apply Forall_app. split; [done|]. constructor; [|done]. apply Z.mod_pos_bound. lia.
Qed.

Lemma be_val_app l b : be_val (l ++ [b]) = be_val l * 256 + b.
Proof.
  induction l as [|x l IH]; cbn [be_val app]; [cbn; lia|].
  rewrite IH, length_app. cbn [length].
  replace (8 * Z.of_nat (length l + 1)) with (8 * Z.of_nat (length l) + 8) by lia.
  rewrite Z.pow_add_r by lia. change (2 ^ 8) with 256. ring.
Qed.

Lemma be_val_bytes n v : 0 ≤ v < 2 ^ (8 * Z.of_nat n) → be_val (be_bytes n v) = v.
Proof.
  revert v. induction n as [|n IH]; intros v Hv; cbn [be_bytes]; [cbn in *; lia|].
  replace (8 * Z.of_nat (S n)) with (8 * Z.of_nat n + 8) in Hv by lia.
  rewrite Z.pow_add_r in Hv by lia. change (2 ^ 8) with 256 in Hv.
  rewrite be_val_app, IH.
  - pose proof (Z.div_mod v 256). lia.
  - split; [apply Z.div_pos; lia|]. apply Z.div_lt_upper_bound; lia.
Qed.

Lemma be_val_range ha : Forall is_octet ha → 0 ≤ be_val ha < 2 ^ (8 * Z.of_nat (length ha)).
Proof.
  induction 1 as [|b ha Hb _ IH]; cbn [be_val length]; [cbn; lia|].
  replace (8 * Z.of_nat (S (length ha))) with (8 + 8 * Z.of_nat (length ha)) by lia.
  rewrite Z.pow_add_r by lia. change (2 ^ 8) with 256. unfold is_octet in Hb.
  set (p := 2 ^ (8 * Z.of_nat (length ha))) in *. nia.
Qed.

(** Disjoint bits: OR is addition. *)
Lemma lor_shiftl_add a b n : 0 ≤ n → 0 ≤ b < 2 ^ n → Z.lor (a * 2 ^ n) b = a * 2 ^ n + b.
Proof.
  intros Hn Hb. assert (Hl : Z.land (a * 2 ^ n) b = 0).
  { apply Z.bits_inj'. intros i Hi. rewrite Z.land_spec, Z.bits_0.
    destruct (Z.lt_ge_cases i n) as [H|H].
    - by rewrite Z.mul_pow2_bits_low.
    - rewrite andb_comm. replace (Z.testbit b i) with false; [done|].
      destruct (Z.eq_dec b 0) as [->|Hb0]; [by rewrite Z.bits_0|].
      symmetry. apply Z.bits_above_log2; [lia|]. apply Z.lt_le_trans with n; [|done].
      apply Z.log2_lt_pow2; lia. }
  rewrite <- Z.lxor_lor by done. symmetry. by apply Z.add_nocarry_lxor.
Qed.

(** ** HardwareAddr and ParseGUID on octets *)

Lemma ha_go_bytes n v acc : ha_go n v acc = be_bytes n v ++ acc.
Proof.
  revert v acc. induction n as [|n IH]; intros v acc; cbn [ha_go be_bytes]; [done|].
  rewrite IH, <- app_assoc. unfold byteBitLen, byteMask.
  rewrite Z.shiftr_div_pow2 by lia. change 255 with (Z.ones 8). rewrite Z.land_ones by lia. done.
Qed.

Lemma GUID_HardwareAddr_bytes g : GUID_HardwareAddr g = be_bytes 8 g.
Proof. unfold GUID_HardwareAddr. rewrite ha_go_bytes. apply app_nil_r. Qed.

Lemma guid_go_val ha idx a :
  Forall is_octet ha → 0 ≤ idx → idx + Z.of_nat (length ha) = 8 →
  guid_go idx ha (a * 2 ^ (8 * Z.of_nat (length ha))) = a * 2 ^ (8 * Z.of_nat (length ha)) + be_val ha.
Proof.
  intros Ho. revert idx a. induction Ho as [|b ha Hb Ho IH]; intros idx a Hi Hlen; [cbn; lia|].
  cbn [guid_go be_val length] in *. set (k := 8 * Z.of_nat (length ha)) in *.
  replace (byteBitLen * (Z.of_nat guidLength - 1 - idx)) with k
    by (unfold byteBitLen, guidLength, k; lia).
  rewrite Z.shiftl_mul_pow2 by (unfold k; lia).
  replace (8 * Z.of_nat (S (length ha))) with (8 + k) by (unfold k; lia).
  rewrite Z.pow_add_r by (unfold k; lia). change (2 ^ 8) with 256.
  assert (Hor : Z.lor (a * (256 * 2 ^ k)) (b * 2 ^ k) = (a * 256 + b) * 2 ^ k).
  { replace (a * (256 * 2 ^ k)) with ((a * 256) * 2 ^ k) by ring.
    rewrite <- !Z.shiftl_mul_pow2 by (unfold k; lia). rewrite <- Z.shiftl_lor. f_equal.
    change 256 with (2 ^ 8). apply lor_shiftl_add; [lia|exact Hb]. }
  rewrite Hor, IH by lia. ring.
Qed.

Lemma guid_go_octets ha : length ha = 8%nat → Forall is_octet ha → guid_go 0 ha 0 = be_val ha.
Proof. intros Hl Ho. pose proof (guid_go_val ha 0 0 Ho) as H. rewrite Hl in *. apply H; lia. Qed.

(** ** Text *)

Lemma hex_digit_byte d : 0 ≤ d < 16 → hex_digit (hex_byte d) = Some d.
Proof.
  intros H. assert (Hd : d ∈ [0;1;2;3;4;5;6;7;8;9;10;11;12;13;14;15]) by (rewrite !elem_of_cons; lia).
  rewrite !elem_of_cons in Hd. repeat destruct Hd as [->|Hd]; try reflexivity. by apply elem_of_nil in Hd.
Qed.

Lemma hex_digit_range a d : hex_digit a = Some d → 0 ≤ d < 16.
Proof. unfold hex_digit. intros H. repeat case_hyp H; bool_hyps; simplify_eq; lia. Qed.

Lemma xtoi2_octet b rest e :
  is_octet b → match rest with [] => True | c :: _ => c = e end →
  xtoi2 (octet b ++ rest) e = Some b.
Proof.
  intros Hb Hr. assert (H1 : 0 ≤ b / 16 < 16).
  { split; [apply Z.div_pos; unfold is_octet in Hb; lia|]. apply Z.div_lt_upper_bound; unfold is_octet in Hb; lia. }
  pose proof (Z.mod_pos_bound b 16 ltac:(lia)) as H2.
  unfold octet. cbn [app xtoi2].
  assert (Hc : match rest with [] => true | c :: _ => Ascii.eqb c e end = true)
    by (destruct rest; [done|subst; apply Ascii.eqb_refl]).
  rewrite Hc, !hex_digit_byte by done. cbn. f_equal. pose proof (Z.div_mod b 16). lia.
Qed.

Lemma xtoi2_range s e b : xtoi2 s e = Some b → is_octet b.
Proof.
  unfold xtoi2, is_octet. destruct s as [|a [|c rest]]; [done..|].
  destruct (match rest with [] => true | _ => _ end); [|done]. cbn.
  destruct (hex_digit a) as [x|] eqn:Ha; cbn; [|done].
  destruct (hex_digit c) as [y|] eqn:Hc; cbn; [|done]. intros [= <-].
  apply hex_digit_range in Ha, Hc. lia.
Qed.

Lemma length_ha_chars b ha : length (ha_chars (b :: ha)) = (3 * length ha + 2)%nat.
Proof. revert b. induction ha as [|c ha IH]; intros b; [done|]. cbn in *. rewrite IH. lia. Qed.

Lemma parseOctets_chars ha : Forall is_octet ha → parseOctets (length ha) ":" (ha_chars ha) = Some ha.
Proof.
  induction 1 as [|b ha Hb Ho IH]; [done|]. destruct ha as [|c ha].
  - cbn [length parseOctets ha_chars]. rewrite <- (app_nil_r (octet b)), xtoi2_octet by done. done.
  - change (ha_chars (b :: c :: ha)) with (octet b ++ [":"%char] ++ ha_chars (c :: ha)).
    cbn [length parseOctets]. rewrite xtoi2_octet by done. cbn [mbind option_bind].
    change (drop 3 (octet b ++ [":"%char] ++ ha_chars (c :: ha))) with (ha_chars (c :: ha)).
    cbn [length parseOctets] in IH. by rewrite IH.
Qed.

Lemma parseOctets_range n sep s ha :
  parseOctets n sep s = Some ha → Forall is_octet ha ∧ length ha = n.
Proof.
  revert s ha. induction n as [|n IH]; intros s ha H; cbn in H; [injection H as <-; by split|].
  destruct (xtoi2 s sep) as [b|] eqn:Hb; cbn in H; [|done].
  destruct (parseOctets n sep (drop 3 s)) as [bs|] eqn:Hs; cbn in H; [|done]. injection H as <-.
  destruct (IH _ _ Hs) as [? <-]. split; [|done]. constructor; [|done]. by eapply xtoi2_range.
Qed.

Lemma parsePairs_range n s ha :
  parsePairs n s = Some ha → Forall is_octet ha.
Proof.
  revert s ha. induction n as [|n IH]; intros s ha H; cbn in H; [injection H as <-; constructor|].
  destruct (xtoi2 (take 2 s) _) as [b|] eqn:Hb; cbn in H; [|done].
  destruct (xtoi2 (drop 2 s) _) as [c|] eqn:Hc; cbn in H; [|done].
  destruct (parsePairs n (drop 5 s)) as [bs|] eqn:Hs; cbn in H; [|done]. injection H as <-.
  repeat constructor; try (by eapply xtoi2_range). by eapply IH.
Qed.

Lemma ParseMAC_octets s ha : ParseMAC s = Some ha → Forall is_octet ha.
Proof.
  unfold ParseMAC, ParseMAC_list. intros H. repeat case_hyp H; try done.
  - by eapply parseOctets_range.
  - by eapply parsePairs_range.
Qed.

Lemma ParseMAC_String ha :
  length ha = 8%nat → Forall is_octet ha → ParseMAC (HardwareAddr_String ha) = Some ha.
Proof.
  intros Hl Ho. unfold ParseMAC, HardwareAddr_String.
  rewrite String.list_ascii_of_string_of_list_ascii.
  destruct ha as [|b [|c ha]]; [done..|]. pose proof (length_ha_chars b (c :: ha)) as Hlen.
  unfold ParseMAC_list. rewrite Hlen. injection Hl as Hl. cbn [length] in *. rewrite Hl.
  destruct ha as [|d ha]; [done|].
  change (ha_chars (b :: c :: d :: ha))
    with (octet b ++ [":"%char] ++ octet c ++ [":"%char] ++ ha_chars (d :: ha)).
  cbn -[parseOctets ha_chars].
  pose proof (parseOctets_chars (b :: c :: d :: ha) Ho) as H. cbn [length] in *.
  replace (S (S (S (length ha)))) with 8%nat in H by lia. exact H.
Qed.

(** ** The theorems *)

Lemma ParseGUID_guid s g : ParseGUID s = inr g → is_guid g.
Proof.
  unfold ParseGUID. destruct (ParseMAC s) as [ha|] eqn:E; [|done].
  destruct (Nat.eqb_spec (length ha) guidLength) as [Hl|]; [|done]. cbn. intros [= <-].
  apply ParseMAC_octets in E. rewrite guid_go_octets by done.
  pose proof (be_val_range ha E) as H. rewrite Hl in H. exact H.
Qed.

Lemma HardwareAddr_inj g h : is_guid g → is_guid h → GUID_HardwareAddr g = GUID_HardwareAddr h → g = h.
Proof.
  intros Hg Hh H. rewrite !GUID_HardwareAddr_bytes in H.
  rewrite <- (be_val_bytes 8 g), <- (be_val_bytes 8 h) by done. by rewrite H.
Qed.

(** Every 64-bit GUID survives being printed and parsed, its printed form
    has eight octets, and whatever text parses gives a 64-bit number whose
    printed form parses to the same number. *)
Theorem ParseGUID_roundtrip (g : Z) (s : string) (h : Z)
  (Hg : 0 ≤ g < 2 ^ 64) (Hs : ParseGUID s = inr h) :
  ParseGUID (GUID_String g) = inr g ∧ length (GUID_HardwareAddr g) = 8%nat ∧
  0 ≤ h < 2 ^ 64 ∧ ParseGUID (GUID_String h) = inr h.
Proof.
  assert (Hrt : ∀ x, is_guid x → ParseGUID (GUID_String x) = inr x).
  { intros x Hx. unfold ParseGUID, GUID_String. rewrite GUID_HardwareAddr_bytes.
    rewrite ParseMAC_String by (apply length_be_bytes || apply be_bytes_octets).
    rewrite length_be_bytes. cbn [guidLength Nat.eqb negb]. f_equal.
    rewrite guid_go_octets by (apply length_be_bytes || apply be_bytes_octets).
    by apply be_val_bytes. }
  apply ParseGUID_guid in Hs. split_and!; [by apply Hrt| |apply Hs|apply Hs|by apply Hrt].
  rewrite GUID_HardwareAddr_bytes. apply length_be_bytes.
Qed.

Lemma ParseGUID_roundtrip_witness :
  ParseGUID (GUID_String 42) = inr 42 ∧ length (GUID_HardwareAddr 42) = 8%nat ∧
  0 ≤ 283686952306184 < 2 ^ 64 ∧ ParseGUID (GUID_String 283686952306184) = inr 283686952306184.
Proof.
  apply (ParseGUID_roundtrip 42 "00:01:02:03:04:05:06:08" 283686952306184); [lia|].
  vm_compute. reflexivity.
Defined.

(** An accepted entry: a list of GUIDs, or a range. *)
Definition config_wf (c : ibPfGUIDConfig) : Prop :=
  (gc_GUIDs c ≠ [] ∧ Forall is_guid (gc_GUIDs c) ∧ gc_GUIDRange c = None) ∨
  (gc_GUIDs c = [] ∧ ∃ r, gc_GUIDRange c = Some r ∧ 0 ≤ gr_Start r ≤ gr_End r ∧ gr_End r < 2 ^ 64).

Lemma parseGUIDs_wf l gs : parseGUIDs l = inr gs → Forall is_guid gs ∧ length gs = length l.
Proof.
  revert gs. induction l as [|s l IH]; intros gs H; cbn in H; [injection H as <-; by split|].
  destruct (ParseGUID s) eqn:E; [done|]. destruct (parseGUIDs l) eqn:El; [done|]. injection H as <-.
  destruct (IH _ eq_refl) as [? ?]. split; [|cbn; lia]. constructor; [|done]. by eapply ParseGUID_guid.
Qed.

Lemma parsePfGUIDConfig_wf raw c : parsePfGUIDConfig raw = inr c → config_wf c.
Proof.
  unfold parsePfGUIDConfig, config_wf. intros H.
  do 3 (lazymatch type of H with (if ?b then _ else _) = _ => destruct b; [done|] end).
  destruct (bool_decide (gj_GUIDs raw = [])) eqn:En; cbn in H.
  - destruct (gj_GUIDsRange raw) as [r|]; [|done]. right.
    unfold parseGUIDRange in H. destruct (ParseGUID (rj_Start r)) eqn:Es; [done|].
    destruct (ParseGUID (rj_End r)) eqn:Ee; [done|]. destruct (Z.ltb_spec z0 z); [done|].
    injection H as <-. apply ParseGUID_guid in Es, Ee. unfold is_guid in *.
    split; [done|]. eexists. split; [done|]. cbn. lia.
  - left. destruct (parseGUIDs (gj_GUIDs raw)) as [|gs] eqn:Eg; [done|]. injection H as <-.
    apply bool_decide_eq_false in En. apply parseGUIDs_wf in Eg as [Hf Hl]. cbn.
    split_and!; [|done|done]. intros ->. by destruct (gj_GUIDs raw).
Qed.

Lemma lookup_GUID c vf g :
  gc_GUIDs c !! Z.to_nat vf = Some g → config_wf c → is_guid g.
Proof.
  intros Hl [(_ & Hf & _)|(He & _)]; [by eapply Forall_lookup_1|]. by rewrite He in Hl.
Qed.

(** A pool built from accepted configurations never panics for a VF index,
    refuses exactly the indices beyond the list or the range, and gives each
    VF a GUID of its own: the one at its place in the list, or start plus
    index, within the configured range. *)
Theorem GetVFGUID_allocates (pool : gmap string ibPfGUIDConfig) (pf : string) (raw : ibPfGUIDJSONConfig)
    (c : ibPfGUIDConfig) (vf : Z)
  (Hparse : parsePfGUIDConfig raw = inr c) (Hpool : pool !! pf = Some c) (Hvf : 0 ≤ vf)
  (Hsum : ∀ r, gc_GUIDRange c = Some r → gr_Start r + vf < 2 ^ 64) :
  GetVFGUID pool pf vf =
    match gc_GUIDRange c with
    | None => match gc_GUIDs c !! Z.to_nat vf with
              | Some g => inr (GUID_HardwareAddr g)
              | None => inl (HMsg "no guid allocation found for VF id")
              end
    | Some r => if gr_Start r + vf <=? gr_End r then inr (GUID_HardwareAddr (gr_Start r + vf))
                else inl (HMsg "no guid allocation found for VF id")
    end ∧
  ∀ vf' ha, 0 ≤ vf' → vf' ≠ vf → NoDup (gc_GUIDs c) →
    (∀ r, gc_GUIDRange c = Some r → gr_Start r + vf' < 2 ^ 64) →
    GetVFGUID pool pf vf = inr ha → GetVFGUID pool pf vf' ≠ inr ha.
Proof.
  assert (Hspec : ∀ v, 0 ≤ v → (∀ r, gc_GUIDRange c = Some r → gr_Start r + v < 2 ^ 64) →
    GetVFGUID pool pf v =
    match gc_GUIDRange c with
    | None => match gc_GUIDs c !! Z.to_nat v with
              | Some g => inr (GUID_HardwareAddr g)
              | None => inl (HMsg "no guid allocation found for VF id")
              end
    | Some r => if gr_Start r + v <=? gr_End r then inr (GUID_HardwareAddr (gr_Start r + v))
                else inl (HMsg "no guid allocation found for VF id")
    end).
  { intros v Hv Hs. unfold GetVFGUID. rewrite Hpool.
    apply parsePfGUIDConfig_wf in Hparse as [(Hne & _ & Hr)|(He & r & Hr & Hse & Hmax)].
    - rewrite Hr, bool_decide_eq_false_2 by done. cbn.
      destruct (Z.leb_spec (Z.of_nat (length (gc_GUIDs c))) v).
      + by rewrite lookup_ge_None_2 by lia.
      + destruct (Z.ltb_spec v 0); [lia|].
        destruct (lookup_lt_is_Some_2 (gc_GUIDs c) (Z.to_nat v)) as [g ->]; [lia|done].
    - rewrite Hr, bool_decide_eq_true_2 by done. cbn. specialize (Hs r Hr).
      rewrite Z.mod_small by lia.
      destruct (Z.ltb_spec (gr_End r) (gr_Start r + v)), (Z.leb_spec (gr_Start r + v) (gr_End r)); done || lia. }
  split; [by apply Hspec|]. intros vf' ha Hvf' Hne Hnd Hsum' H H'.
  rewrite Hspec in H by done. rewrite Hspec in H' by done.
  apply parsePfGUIDConfig_wf in Hparse.
  destruct (gc_GUIDRange c) as [r|] eqn:Hr.
  - destruct Hparse as [(_ & _ & ?)|(_ & r' & Hr' & Hse & Hmax)]; [congruence|].
    assert (r' = r) as -> by congruence.
    destruct (Z.leb_spec (gr_Start r + vf) (gr_End r)); [|done].
    destruct (Z.leb_spec (gr_Start r + vf') (gr_End r)); [|done].
    apply (inj inr) in H as <-, H'. apply HardwareAddr_inj in H'; unfold is_guid; lia.
  - destruct (gc_GUIDs c !! Z.to_nat vf) as [g|] eqn:Eg; [|done].
    destruct (gc_GUIDs c !! Z.to_nat vf') as [g'|] eqn:Eg'; [|done].
    apply (inj inr) in H as <-, H'. apply HardwareAddr_inj in H' as ->; [|by eapply lookup_GUID..].
    pose proof (NoDup_lookup _ _ _ _ Hnd Eg Eg'). lia.
Qed.

Definition sample_range (start stop : string) : ibPfGUIDJSONConfig :=
  mkGUIDJSONConfig "0000:3b:00.1" "" [] (Some (mkGUIDRangeJSON start stop)).

Lemma GetVFGUID_allocates_witness :
  GetVFGUID {[ "0000:3b:00.1" := mkGUIDConfig [] (Some (mkGUIDRange 256 258)) ]} "0000:3b:00.1" 2 =
    inr [0; 0; 0; 0; 0; 0; 1; 2] ∧
  GetVFGUID {[ "0000:3b:00.1" := mkGUIDConfig [] (Some (mkGUIDRange 256 258)) ]} "0000:3b:00.1" 1 ≠
    inr [0; 0; 0; 0; 0; 0; 1; 2].
Proof.
  destruct (GetVFGUID_allocates
    {[ "0000:3b:00.1" := mkGUIDConfig [] (Some (mkGUIDRange 256 258)) ]} "0000:3b:00.1"
    (sample_range "00:00:00:00:00:00:01:00" "00:00:00:00:00:00:01:02")
    (mkGUIDConfig [] (Some (mkGUIDRange 256 258))) 2) as [H1 H2].
  - vm_compute; reflexivity.
  - vm_compute; reflexivity.
  - lia.
  - intros r [= <-]. cbn. lia.
  - split; [rewrite H1; vm_compute; reflexivity|].
    apply H2; [lia|lia|constructor|intros r [= <-]; cbn; lia|rewrite H1; vm_compute; reflexivity].
Defined.

(** The sum of start and index is not guarded: for a range at the top of
    the 64-bit space an index beyond the range wraps around and is given a GUID
    below the start of the range instead of an error. *)
Theorem GetVFGUID_wraps :
  let raw := sample_range "ff:ff:ff:ff:ff:ff:ff:fe" "ff:ff:ff:ff:ff:ff:ff:ff" in
  ∃ c, parsePfGUIDConfig raw = inr c ∧
    GetVFGUID {[ "0000:3b:00.1" := c ]} "0000:3b:00.1" 3 = inr (GUID_HardwareAddr 1).
Proof.
  exists (mkGUIDConfig [] (Some (mkGUIDRange (2 ^ 64 - 2) (2 ^ 64 - 1)))). split; vm_compute; reflexivity.
Qed.
