(* ===== verification/HostStore.v ===== *)
(** * The store on the host's disk (pkg/host/store/store.go)

    For every PF the operator configured, a file with the configuration applied
    last; and the checkpoint of the node state the node was found in. *)
From S2P Require Import Prelude GoLib Types Effects HostSys.

Section store.
Context (hv : HostVars).
(** encoding/json on a PF's configuration and on a node state; decoding a node
    state changes the fields the text has. *)
Context (MarshalInterface : Interface → string + string)
        (UnmarshalInterface : string → string + Interface).
Context (EncodeState : SriovNetworkNodeState → string + string)
        (DecodeState : string → SriovNetworkNodeState → SriovNetworkNodeState * option string).
(** vars.Destdir. *)
Context (Destdir : Path).

(** ** The folders *)

(** Create the folder unless it is there. *)
Definition ensureFolder (p : Path) : hostM (HostError + unit) :=
  r ← perform (Stat p);
  match r with
  | None => Ret (inr tt)
  | Some e =>
      if is_not_exist e then
        m ← perform (MkdirAll p);
        Ret (match m with Some _ => inl (HMsg "failed to create the folder on host") | None => inr tt end)
      else Ret (inl (HMsg "failed to check if the folder on host exist"))
  end.

Definition createOperatorConfigFolderIfNeeded : hostM (HostError + unit) :=
  ensureFolder (GetHostExtension hv ++ SriovConfBasePath) ;;!
  ensureFolder (GetHostExtension hv ++ PfAppliedConfig).

Definition NewManager : hostM (HostError + unit) := createOperatorConfigFolderIfNeeded.

Definition ClearPCIAddressFolder : hostM (HostError + unit) :=
  let PfAppliedConfigUse := GetHostExtension hv ++ PfAppliedConfig in
  r ← perform (Stat PfAppliedConfigUse);
  match r with
  | Some e => if is_not_exist e then Ret (inr tt)
              else Ret (inl (HMsg "failed to check the pci address folder path"))
  | None =>
      d ← perform (RemoveAll PfAppliedConfigUse);
      match d with
      | Some _ => Ret (inl (HMsg "failed to remove the PCI address folder"))
      | None =>
          m ← perform (Mkdir PfAppliedConfigUse);
          Ret (match m with Some _ => inl (HMsg "failed to create the pci folder on host") | None => inr tt end)
      end
  end.

(** ** The files of the PFs *)

Definition pfFile (pciAddress : string) : Path := GetHostExtension hv ++ PfAppliedConfig ++ [pciAddress].

Definition SaveLastPfAppliedStatus (PfInfo : Interface) : hostM (HostError + unit) :=
  match MarshalInterface PfInfo with
  | inl e => Ret (inl (HMsg e))
  | inr data => sysE (perform (WriteFile (pfFile (if_PciAddress PfInfo)) data))
  end.

Definition RemovePfAppliedStatus (pciAddress : string) : hostM (HostError + unit) :=
  sysE (perform (RemoveAll (pfFile pciAddress))).

(** No file: no configuration. *)
Definition LoadPfsStatus (pciAddress : string) : hostM (HostError + option Interface) :=
  r ← perform (ReadFile (pfFile pciAddress));
  Ret (match r with
       | inl e => if is_not_exist e then inr None else inl (HSys e)
       | inr data =>
           match UnmarshalInterface data with
           | inl e => inl (HMsg e)
           | inr pfStatus => inr (Some pfStatus)
           end
       end).

(** ** The checkpoint; the package variable InitialState is threaded *)

Definition CheckpointFileName := "sno-initial-node-state.json".
Definition checkpointFile : Path := Destdir ++ [CheckpointFileName].

Definition GetCheckPointNodeState (InitialState : SriovNetworkNodeState)
    : hostM (SriovNetworkNodeState * (HostError + option SriovNetworkNodeState)) :=
  r ← perform (OpenFile checkpointFile false);
  match r with
  | Some e => Ret (InitialState, if is_not_exist e then inr None else inl (HSys e))
  | None =>
      d ← perform (DecodeOpen checkpointFile);
      match d with
      | inl e => Ret (InitialState, inl (HSys e))
      | inr data =>
          let '(s, err) := DecodeState data InitialState in
          Ret (s, match err with Some e => inl (HMsg e) | None => inr (Some s) end)
      end
  end.

(** A checkpoint that can be read is kept, and read into InitialState. *)
Definition WriteCheckpointFile (InitialState ns : SriovNetworkNodeState)
    : hostM (SriovNetworkNodeState * (HostError + unit)) :=
  r ← perform (OpenFile checkpointFile true);
  match r with
  | Some e => Ret (InitialState, inl (HSys e))
  | None =>
      d ← perform (DecodeOpen checkpointFile);
      let '(s, bad) := match d with
                       | inl e => (InitialState, true)
                       | inr data => let '(s, err) := DecodeState data InitialState in (s, bool_decide (is_Some err))
                       end in
      if bad : bool then
        w ← (sysE (perform (TruncateOpen checkpointFile)) ;;!
             sysE (perform (SeekOpen checkpointFile)) ;;!
             match EncodeState ns with
             | inl e => Ret (inl (HMsg e))
             | inr data => sysE (perform (EncodeOpen checkpointFile data))
             end);
        Ret (match w with inl e => (s, inl e) | inr _ => (ns, inr tt) end)
      else Ret (s, inr tt)
  end.
End store.
