(* ===== verification/HostSriov.v ===== *)
(** * SR-IOV devices (pkg/host/internal/sriov/sriov.go)

    Discovery of PFs and VFs, configuration of the PFs a specification lists
    (number of VFs, eswitch mode, MTU, udev rules, the VFs' drivers, MACs, GUIDs
    and VDPA devices), and the reset of PFs it no longer lists. *)
From S2P Require Import Prelude GoLib Types VfRange Selector NeedUpdate Effects Parallel.
From S2P Require Import HostSys HostKernel HostNetwork HostDevices Infiniband HostStore.

(** A panic of the pure helpers unwinds. *)
Definition lift {E A} (r : result E A) : HostError + A :=
  match r with Ok a => inr a | Err _ => inl (HMsg "invalid value") | Panic => inl HPanic end.

Section sriov.
Context (hv : HostVars).
Context (MarshalInterface : Interface → string + string)
        (UnmarshalInterface : string → string + Interface).
(** The table of NICs, the state the node was found in, the pool of GUIDs. *)
Context (NicIDMap : list string) (InitialState : SriovNetworkNodeState)
        (guidPool : option (gmap string ibPfGUIDConfig)).

Definition pciDevice (addr : string) : Path := FilesystemRoot hv ++ SysBusPciDevices ++ [addr].

(** ** Eswitch mode and number of VFs *)

Definition SetSriovNumVfs (pciAddr : string) (numVfs : Z) : hostM (HostError + unit) :=
  let numVfsFilePath := pciDevice pciAddr ++ [NumVfsFile] in
  let set :=
    sysE (perform (WriteFile numVfsFilePath "0")) ;;!
    if numVfs =? 0 then Ret (inr tt)
    else sysE (perform (WriteFile numVfsFilePath (Itoa numVfs))) in
  if numVfs =? 0 then
    r ← perform (Stat numVfsFilePath);
    if match r with Some e => is_not_exist e | None => false end then Ret (inr tt) else set
  else set.

Definition GetNicSriovMode (pciAddress : string) : hostM string :=
  r ← perform (DevLinkGetDeviceByName "pci" pciAddress);
  Ret (match r with
       | inr mode => if String.eqb mode "" then ESwithModeLegacy else mode
       | inl _ => ESwithModeLegacy
       end).

Definition SetNicSriovMode (pciAddress mode : string) : hostM (HostError + unit) :=
  _ ⇐ wrapping "can't get devlink device to set eSwitch"
        (sys (perform (DevLinkGetDeviceByName "pci" pciAddress)));
  wrapping "can't set eSwitch mode" (sysE (perform (DevLinkSetEswitchMode "pci" pciAddress mode))).

Definition encapTypeToLinkType (encapType : string) : string :=
  if String.eqb encapType "ether" then LinkTypeETH
  else if String.eqb encapType "infiniband" then LinkTypeIB
  else "".

Definition GetLinkType (name : string) : hostM string :=
  r ← perform (LinkByName name);
  Ret (match r with inl _ => "" | inr link => encapTypeToLinkType (l_EncapType link) end).

Definition detachUplinkAndVFRepresentorsFromBridge (pciAddr : string) : hostM (HostError + unit) :=
  if negb (HostManageBridges hv) then Ret (inr tt)
  else
    r ← perform (DetachUplinkAndVFRepresentorsFromManagedBridge pciAddr);
    Ret (match r with
         | Some e => inl (wrap "failed to detach uplink and VF representors from managed bridge" e)
         | None => inr tt
         end).

Definition unbindAllVFsOnPF (addr : string) : hostM (HostError + unit) :=
  vfAddrs ⇐ wrapping "failed to read VF list" (sys (perform (GetVFList addr)));
  each vfAddrs (λ vfAddr, wrapping "failed to unbind VF from the driver" (Unbind hv vfAddr)).

(** The condition of the wait: as many VFs as expected, each linked to its
    PF. *)
Fixpoint allLinked (vfAddrs : list string) : hostM bool :=
  match vfAddrs with
  | [] => Ret true
  | vfAddr :: rest =>
      r ← perform (Lstat (pciDevice vfAddr ++ ["physfn"]));
      match r with Some _ => Ret false | None => allLinked rest end
  end.

Definition vfLinksReady (pciAddr : string) (expectedNum : Z) : hostM (option unit) :=
  r ← perform (GetVFList pciAddr);
  match r with
  | inl _ => Ret None
  | inr vfAddrs =>
      if Z.of_nat (length vfAddrs) <? expectedNum then Ret None
      else ok ← allLinked vfAddrs; Ret (if ok : bool then Some tt else None)
  end.

Definition waitForVFLinks (pciAddr : string) (expectedNum : Z) : hostM (HostError + unit) :=
  if expectedNum =? 0 then Ret (inr tt)
  else
    r ← pollUntil (vfLinksAttempts hv) (vfLinksReady pciAddr expectedNum);
    Ret (match r with Some _ => inr tt | None => inl (HMsg "timeout waiting for VF symlinks") end).

Definition setEswitchModeAndNumVFsMlx (pciAddr desiredEswitchMode : string) (numVFs : Z)
    : hostM (HostError + unit) :=
  mode ← GetNicSriovMode pciAddr;
  (if negb (String.eqb mode ESwithModeLegacy) then
     wrapping "failed to clean managed bridge before changing eSwitch mode"
       (detachUplinkAndVFRepresentorsFromBridge pciAddr) ;;!
     unbindAllVFsOnPF pciAddr ;;!
     SetNicSriovMode pciAddr ESwithModeLegacy
   else Ret (inr tt)) ;;!
  SetSriovNumVfs pciAddr numVFs ;;!
  waitForVFLinks pciAddr numVFs ;;!
  (if String.eqb desiredEswitchMode ESwithModeSwitchDev then
     unbindAllVFsOnPF pciAddr ;;!
     SetNicSriovMode pciAddr desiredEswitchMode
   else Ret (inr tt)).

Definition setEswitchModeAndNumVFsIce (pciAddr desiredEswitchMode : string) (numVFs : Z)
    : hostM (HostError + unit) :=
  mode ← GetNicSriovMode pciAddr;
  (if negb (String.eqb mode desiredEswitchMode) then
     SetSriovNumVfs pciAddr 0 ;;!
     SetNicSriovMode pciAddr desiredEswitchMode
   else Ret (inr tt)) ;;!
  SetSriovNumVfs pciAddr numVFs.

(** By the PF's driver; the fallback is that of mlx5. *)
Definition setEswitchModeAndNumVFs (pciAddr desiredEswitchMode : string) (numVFs : Z)
    : hostM (HostError + unit) :=
  pfDriverName ⇐ sys (perform (GetDriverName pciAddr));
  if String.eqb pfDriverName "ice" then setEswitchModeAndNumVFsIce pciAddr desiredEswitchMode numVFs
  else setEswitchModeAndNumVFsMlx pciAddr desiredEswitchMode numVFs.

Definition createVFs (iface : Interface) : hostM (HostError + unit) :=
  let expectedEswitchMode := GetEswitchModeFromSpec iface in
  let create :=
    (if String.eqb expectedEswitchMode ESwithModeSwitchDev then
       wrapping "failed to clean managed bridge before creating VFs"
         (detachUplinkAndVFRepresentorsFromBridge (if_PciAddress iface))
     else Ret (inr tt)) ;;!
    setEswitchModeAndNumVFs (if_PciAddress iface) expectedEswitchMode (if_NumVfs iface) in
  configured ← perform (GetVFconfigured (if_PciAddress iface));
  if configured =? if_NumVfs iface then
    mode ← GetNicSriovMode (if_PciAddress iface);
    if String.eqb mode expectedEswitchMode then Ret (inr tt) else create
  else create.

(** ** Reset *)

Definition ResetSriovDevice (ifaceStatus : InterfaceExt) : hostM (HostError + unit) :=
  let addr := ie_PciAddress ifaceStatus in
  if String.eqb (ie_LinkType ifaceStatus) LinkTypeETH then
    let '(mtu, eswitchMode) :=
      match GetInterfaceStateByPciAddress InitialState addr with
      | Some initial => (ie_Mtu initial, GetEswitchModeFromStatus initial)
      | None => (1500, ESwithModeLegacy)
      end in
    SetNetdevMTU hv addr mtu ;;!
    setEswitchModeAndNumVFs addr eswitchMode 0
  else if String.eqb (ie_LinkType ifaceStatus) LinkTypeIB then
    SetSriovNumVfs addr 0 ;;!
    SetNetdevMTU hv addr 2048
  else Ret (inr tt).

(** ** udev rules of a PF *)

Definition isSwitchdevSpec (iface : Interface) : bool :=
  String.eqb (GetEswitchModeFromSpec iface) ESwithModeSwitchDev.

Definition addUdevRules (iface : Interface) : hostM (HostError + unit) :=
  AddDisableNMUdevRule hv (if_PciAddress iface) ;;!
  (if isSwitchdevSpec iface then AddPersistPFNameUdevRule hv (if_PciAddress iface) (if_Name iface)
   else Ret (inr tt)).

Definition addVfRepresentorUdevRule (iface : Interface) : hostM (HostError + unit) :=
  if isSwitchdevSpec iface then
    portName ← GetPhysPortName hv (if_Name iface);
    match portName with
    | inl _ => Ret (inr tt)
    | inr portName =>
        switchID ← GetPhysSwitchID hv (if_Name iface);
        match switchID with
        | inl _ => Ret (inr tt)
        | inr switchID =>
            AddVfRepresentorUdevRule hv (if_PciAddress iface) (if_Name iface) switchID portName
        end
    end
  else Ret (inr tt).

Definition removeUdevRules (pciAddress : string) : hostM (HostError + unit) :=
  RemoveDisableNMUdevRule hv pciAddress ;;!
  RemoveVfRepresentorUdevRule hv pciAddress ;;!
  RemovePersistPFNameUdevRule hv pciAddress.

(** ** The PF *)

(** Errors that only say that the device has no such parameter. *)
Definition configureHWOptionsForSwitchdev (iface : Interface) : hostM (HostError + unit) :=
  let addr := if_PciAddress iface in
  if negb (isSwitchdevSpec iface) then Ret (inr tt)
  else
    EnableHwTcOffload (if_Name iface) ;;!
    r ← GetDevlinkDeviceParam addr "flow_steering_mode";
    match r with
    | inl e => if errors_Is e EINVAL || errors_Is e ENODEV then Ret (inr tt) else Ret (inl e)
    | inr currentFlowSteeringMode =>
        if String.eqb currentFlowSteeringMode "" || String.eqb currentFlowSteeringMode "smfs"
        then Ret (inr tt)
        else
          mode ← GetNicSriovMode addr;
          (if negb (String.eqb mode ESwithModeLegacy) then setEswitchModeAndNumVFs addr ESwithModeLegacy 0
           else Ret (inr tt)) ;;!
          s ← SetDevlinkDeviceParam addr "flow_steering_mode" "smfs";
          Ret (match s with
               | inl e => if errors_Is e ENOTSUP then inr tt else inl e
               | inr _ => inr tt
               end)
    end.

Definition configSriovPFDevice (iface : Interface) : hostM (HostError + unit) :=
  let addr := if_PciAddress iface in
  totalVfs ← perform (GetSriovVFcapacity addr);
  if totalVfs <? if_NumVfs iface then Ret (inl (HMsg "cannot config SRIOV device: NumVfs is larger than TotalVfs"))
  else
    configureHWOptionsForSwitchdev iface ;;!
    removeUdevRules addr ;;!
    addUdevRules iface ;;!
    createVFs iface ;;!
    addVfRepresentorUdevRule iface ;;!
    (if 0 <? if_Mtu iface then
       mtu ← GetNetdevMTU hv addr;
       if mtu <? if_Mtu iface then SetNetdevMTU hv addr (if_Mtu iface) else Ret (inr tt)
     else Ret (inr tt)).

Definition checkExternallyManagedPF (iface : Interface) : hostM (HostError + unit) :=
  let addr := if_PciAddress iface in
  currentNumVfs ← perform (GetVFconfigured addr);
  if currentNumVfs <? if_NumVfs iface then
    Ret (inl (HMsg "number of request virtual functions is not equal to configured virtual functions"))
  else
    currentEswitchMode ← GetNicSriovMode addr;
    if negb (String.eqb currentEswitchMode (GetEswitchModeFromSpec iface)) then
      Ret (inl (HMsg "requested ESwitchMode mode is not equal to configured"))
    else
      currentMtu ← GetNetdevMTU hv addr;
      if (0 <? if_Mtu iface) && (currentMtu <? if_Mtu iface) then
        Ret (inl (HMsg "requested MTU is greater than configured MTU"))
      else Ret (inr tt).

(** ** The VFs *)

Definition vfLinkOnce (pciAddr : string) : hostM (option Link) :=
  vfIndex ← GetInterfaceIndex hv pciAddr;
  match vfIndex with
  | inl _ => Ret None
  | inr i => r ← perform (LinkByIndex i); Ret (match r with inl _ => None | inr l => Some l end)
  end.

Definition VFIsReady (pciAddr : string) : hostM (HostError + Link) :=
  r ← pollUntil (vfReadyAttempts hv) (vfLinkOnce pciAddr);
  Ret (match r with Some l => inr l | None => inl (HMsg "timed out waiting for the condition") end).

Definition SetVfAdminMac (vfAddr : string) (pfLink vfLink : Link) : hostM (HostError + unit) :=
  vfID ⇐ sys (perform (GetVFID vfAddr));
  sysE (perform (LinkSetVfHardwareAddr pfLink vfID (l_HardwareAddr vfLink))).

(** The first group whose range has the index. *)
Fixpoint groupOf (vfID : Z) (groups : list VfGroup) : HostError + option VfGroup :=
  match groups with
  | [] => inr None
  | g :: rest =>
      match lift (IndexInRange vfID (vg_VfRange g)) with
      | inl e => inl e
      | inr true => inr (Some g)
      | inr false => groupOf vfID rest
      end
  end.

(** MAC or GUID, for a VF with a kernel driver. *)
Definition configVfAddress (iface : Interface) (pfLink : Link) (addr : string) (vfID : Z)
    : hostM (HostError + unit) :=
  linkType ← (if String.eqb (if_LinkType iface) "" then GetLinkType (if_Name iface)
              else Ret (if_LinkType iface));
  if EqualFold linkType LinkTypeIB then
    ConfigureVfGUID guidPool addr (if_PciAddress iface) vfID pfLink ;;!
    Unbind hv addr
  else
    ready ← VFIsReady addr;
    vfLink ⇐ (match ready with
              | inr l => Ret (inr l)
              | inl _ => RebindVfToDefaultDriver hv addr ;;! VFIsReady addr
              end);
    SetVfAdminMac addr pfLink vfLink.

(** The driver the group asks for. *)
Definition configVfDriver (iface : Interface) (group : VfGroup) (addr : string) : hostM (HostError + unit) :=
  UnbindDriverIfNeeded hv addr (vg_IsRdma group) ;;!
  (if isSwitchdevSpec iface && String.eqb (vg_VdpaType group) "" then DeleteVDPADevice addr
   else Ret (inr tt)) ;;!
  if negb (StringInArray (vg_DeviceType group) DpdkDrivers) then
    BindDefaultDriver hv addr ;;!
    (if 0 <? vg_Mtu group then SetNetdevMTU hv addr (vg_Mtu group) else Ret (inr tt)) ;;!
    (if isSwitchdevSpec iface && negb (String.eqb (vg_VdpaType group) "") then
       CreateVDPADevice hv addr (vg_VdpaType group)
     else Ret (inr tt))
  else BindDpdkDriver hv addr (vg_DeviceType group).

Definition configVF (iface : Interface) (pfLink : Link) (addr : string) : hostM (HostError + unit) :=
  '(hasDriver, _) ← HasDriver hv addr;
  (if negb hasDriver then BindDefaultDriver hv addr else Ret (inr tt)) ;;!
  vfID ⇐ sys (perform (GetVFID addr));
  match groupOf vfID (if_VfGroups iface) with
  | inl e => Ret (inl e)
  | inr None => Ret (inr tt)
  | inr (Some group) =>
      '(yes, d) ← HasDriver hv addr;
      (if yes && negb (StringInArray d DpdkDrivers) then configVfAddress iface pfLink addr vfID
       else Ret (inr tt)) ;;!
      configVfDriver iface group addr
  end.

(** When the list of VFs cannot be read, it is taken as empty. *)
Definition configSriovVFDevices (iface : Interface) : hostM (HostError + unit) :=
  if 0 <? if_NumVfs iface then
    r ← perform (GetVFList (if_PciAddress iface));
    let vfAddrs := match r with inl _ => [] | inr l => l end in
    pfLink ⇐ sys (perform (LinkByName (if_Name iface)));
    each vfAddrs (configVF iface pfLink)
  else Ret (inr tt).

Definition configSriovDevice (iface : Interface) (skipVFConfiguration : bool) : hostM (HostError + unit) :=
  (if negb (if_ExternallyManaged iface) then configSriovPFDevice iface else Ret (inr tt)) ;;!
  if skipVFConfiguration then
    if if_ExternallyManaged iface then Ret (inr tt) else unbindAllVFsOnPF (if_PciAddress iface)
  else
    (if if_ExternallyManaged iface then checkExternallyManagedPF iface else Ret (inr tt)) ;;!
    configSriovVFDevices iface ;;!
    pfLink ⇐ sys (perform (LinkByName (if_Name iface)));
    if negb (l_Up pfLink) then sysE (perform (LinkSetUp pfLink)) else Ret (inr tt).

(** ** Which PFs are configured and which are reset *)

Record interfaceToConfigure := mkToConfigure { tc_Iface : Interface; tc_IfaceStatus : InterfaceExt }.

Abbreviation SaveLast := (SaveLastPfAppliedStatus hv MarshalInterface).
Abbreviation LoadStatus := (LoadPfsStatus hv UnmarshalInterface).

(** A PF that is as the specification asks is only recorded. *)
Definition skipSriovConfig (iface : Interface) (ifaceStatus : InterfaceExt) : hostM (HostError + bool) :=
  match lift (NeedToUpdateSriov iface ifaceStatus) with
  | inl e => Ret (inl e)
  | inr true => Ret (inr false)
  | inr false => SaveLast iface ;;! Ret (inr true)
  end.

(** The loop over the specification for one discovered PF: whether it is listed,
    and what has to be configured.  The first entry that needs nothing ends
    it. *)
Fixpoint scanInterfaces (ifaceStatus : InterfaceExt) (interfaces : list Interface) (configured : bool)
    (toBeConfigured : list interfaceToConfigure)
    : hostM (HostError + (bool * list interfaceToConfigure)) :=
  match interfaces with
  | [] => Ret (inr (configured, toBeConfigured))
  | iface :: rest =>
      if String.eqb (if_PciAddress iface) (ie_PciAddress ifaceStatus) then
        skip ⇐ skipSriovConfig iface ifaceStatus;
        if skip : bool then Ret (inr (true, toBeConfigured))
        else scanInterfaces ifaceStatus rest true (toBeConfigured ++ [mkToConfigure iface ifaceStatus])
      else scanInterfaces ifaceStatus rest configured toBeConfigured
  end.

Fixpoint configureAndReset (interfaces : list Interface) (ifaceStatuses : list InterfaceExt)
    (toBeConfigured : list interfaceToConfigure) (toBeResetted : list InterfaceExt)
    : hostM (HostError + (list interfaceToConfigure * list InterfaceExt)) :=
  match ifaceStatuses with
  | [] => Ret (inr (toBeConfigured, toBeResetted))
  | ifaceStatus :: rest =>
      '(configured, toBeConfigured') ⇐ scanInterfaces ifaceStatus interfaces false toBeConfigured;
      configureAndReset interfaces rest toBeConfigured'
        (if configured : bool then toBeResetted else toBeResetted ++ [ifaceStatus])
  end.

Definition getConfigureAndReset (interfaces : list Interface) (ifaceStatuses : list InterfaceExt)
    : hostM (HostError + (list interfaceToConfigure * list InterfaceExt)) :=
  configureAndReset interfaces ifaceStatuses [] [].

(** ** Configuration, one PF after the other *)

Fixpoint configSriovInterfaces (interfaces : list interfaceToConfigure) (skipVFConfiguration : bool)
    : hostM (HostError + unit) :=
  match interfaces with
  | [] => Ret (inr tt)
  | iface :: rest =>
      r ← configSriovDevice (tc_Iface iface) skipVFConfiguration;
      match r with
      | inl HPanic => Ret (inl HPanic)
      | inl err =>
          if if_ExternallyManaged (tc_Iface iface) then Ret (inl err)
          else ResetSriovDevice (tc_IfaceStatus iface) ≫= λ _, Ret (inl err)
      | inr _ =>
          SaveLast (tc_Iface iface) ;;!
          configSriovInterfaces rest skipVFConfiguration
      end
  end.

Definition checkForConfigAndReset (ifaceStatus : InterfaceExt) : hostM (HostError + unit) :=
  let addr := ie_PciAddress ifaceStatus in
  pfStatus ⇐ LoadStatus addr;
  match pfStatus with
  | None => Ret (inr tt)
  | Some pfStatus =>
      if if_ExternallyManaged pfStatus then RemovePfAppliedStatus hv addr
      else
        removeUdevRules addr ;;!
        (if 0 <? ie_NumVfs ifaceStatus then ResetSriovDevice ifaceStatus else Ret (inr tt)) ;;!
        RemovePfAppliedStatus hv addr
  end.

Definition resetSriovInterfaces (interfaces : list InterfaceExt) : hostM (HostError + unit) :=
  each interfaces checkForConfigAndReset.

(** ** Configuration, all PFs at once *)

(** What the goroutine of a PF sends: the error of the reset replaces the one
    that made it necessary. *)
Definition configThread (skipVFConfiguration : bool) (iface : interfaceToConfigure)
    : hostM (option HostError) :=
  r ← configSriovDevice (tc_Iface iface) skipVFConfiguration;
  match r with
  | inr _ => Ret None
  | inl HPanic => Ret (Some HPanic)
  | inl err =>
      if if_ExternallyManaged (tc_Iface iface) then Ret (Some err)
      else
        reset ← ResetSriovDevice (tc_IfaceStatus iface);
        Ret (Some (match reset with inl resetErr => resetErr | inr _ => err end))
  end.

(** How the goroutines interleave: before each write of the main routine, while
    it waits for the configuration, and while it waits for the reset. *)
Record Schedule := mkSchedule {
  sc_spawn : list (list nat);
  sc_config : list nat;
  sc_reset : list nat;
}.

(** Start a goroutine per PF and record the PF; an error leaves the goroutines
    running. *)
Fixpoint spawnAndSave (sched : list (list nat)) (skipVFConfiguration : bool)
    (interfaces : list interfaceToConfigure) (running : list (hostM (option HostError)))
    (finished : list (option HostError))
    : hostM ((HostError + list (option HostError)) * list (hostM (option HostError))) :=
  match interfaces with
  | [] => Ret (inr finished, running)
  | iface :: rest =>
      '(finished', running') ←
        interleave (hd [] sched) (running ++ [configThread skipVFConfiguration iface]) finished;
      r ← SaveLast (tc_Iface iface);
      match r with
      | inl err => Ret (inl err, running')
      | inr _ => spawnAndSave (tail sched) skipVFConfiguration rest running' finished'
      end
  end.

(** [errors.Join] of all that was received. *)
Definition joined (errs : list (option HostError)) : HostError + unit :=
  match foldl errors_Join None errs with Some e => inl e | None => inr tt end.

(** The result and the goroutines that still run. *)
Definition configSriovInterfacesInParallel (sched : Schedule) (interfaces : list interfaceToConfigure)
    (skipVFConfiguration : bool) : hostM ((HostError + unit) * list (hostM (option HostError))) :=
  '(r, running) ← spawnAndSave (sc_spawn sched) skipVFConfiguration interfaces [] [];
  match r with
  | inl err => Ret (inl err, running)
  | inr finished =>
      '(finished', running') ← interleave (sc_config sched) running finished;
      rest ← join running';
      Ret (joined (finished' ++ rest), [])
  end.

Definition resetThread (iface : InterfaceExt) : hostM (option HostError) :=
  r ← checkForConfigAndReset iface;
  Ret (match r with inl e => Some e | inr _ => None end).

Definition resetSriovInterfacesInParallel (sched : Schedule) (interfaces : list InterfaceExt)
    : hostM (HostError + unit) :=
  errs ← parallel (sc_reset sched) (resetThread <$> interfaces);
  Ret (joined errs).

(** ** The whole configuration *)

(** An error without its cause. *)
Definition relabel (msg : string) (e : HostError) : HostError :=
  match e with HPanic => HPanic | _ => HMsg msg end.

(** The result and the goroutines that still run. *)
Definition ConfigSriovInterfaces (sched : Schedule) (interfaces : list Interface)
    (ifaceStatuses : list InterfaceExt) (skipVFConfiguration : bool)
    : hostM ((HostError + unit) * list (hostM (option HostError))) :=
  lists ← getConfigureAndReset interfaces ifaceStatuses;
  match lists with
  | inl e => Ret (inl (relabel "cannot get a list of interfaces to configure" e), [])
  | inr (toBeConfigured, toBeResetted) =>
      '(r, running) ←
        (if ParallelNicConfig hv then
           configSriovInterfacesInParallel sched toBeConfigured skipVFConfiguration
         else
           c ← configSriovInterfaces toBeConfigured skipVFConfiguration; Ret (c, []));
      match r with
      | inl e => Ret (inl (wrap "cannot configure sriov interfaces" e), running)
      | inr _ =>
          u ← (if ContainsSwitchdevInterface interfaces && negb (bool_decide (toBeConfigured = []))
               then LoadUdevRules else Ret (inr tt));
          match u with
          | inl e => Ret (inl (relabel "failed to reload udev rules" e), running)
          | inr _ =>
              d ← (if ParallelNicConfig hv then resetSriovInterfacesInParallel sched toBeResetted
                   else resetSriovInterfaces toBeResetted);
              Ret (match d with
                   | inl e => inl (relabel "cannot reset sriov interfaces" e)
                   | inr _ => inr tt
                   end, running)
          end
      end
  end.

(** ** Virtual machines: one VF per device *)

Definition configVirtual (it : interfaceToConfigure) : hostM (HostError + unit) :=
  let iface := tc_Iface it in
  if 0 <? if_NumVfs iface then
    if 1 <? if_NumVfs iface then Ret (inl (HMsg "NumVfs > 1"))
    else
      match if_VfGroups iface with
      | [group] =>
          match lift (IndexInRange 0 (vg_VfRange group)) with
          | inl e => Ret (inl e)
          | inr false => Ret (inl (HMsg "VF ID is not in the range"))
          | inr true =>
              (if StringInArray (vg_DeviceType group) DpdkDrivers
               then BindDpdkDriver hv (if_PciAddress iface) (vg_DeviceType group)
               else BindDefaultDriver hv (if_PciAddress iface)) ;;!
              SaveLast iface
          end
      | _ => Ret (inl (HMsg "unexpected number of VFGroups"))
      end
  else Ret (inr tt).

Definition resetVirtual (iface : InterfaceExt) : hostM (HostError + unit) :=
  pfStatus ⇐ LoadStatus (ie_PciAddress iface);
  match pfStatus with
  | None => Ret (inr tt)
  | Some pfStatus =>
      if if_ExternallyManaged pfStatus then Ret (inr tt)
      else
        BindDefaultDriver hv (ie_PciAddress iface) ;;!
        RemovePfAppliedStatus hv (ie_PciAddress iface)
  end.

Definition ConfigSriovDevicesVirtual (interfaces : list Interface) (ifaceStatuses : list InterfaceExt)
    : hostM (HostError + unit) :=
  lists ← getConfigureAndReset interfaces ifaceStatuses;
  match lists with
  | inl e => Ret (inl (relabel "cannot get a list of interfaces to configure" e))
  | inr (toBeConfigured, toBeResetted) =>
      each toBeConfigured configVirtual ;;!
      each toBeResetted resetVirtual
  end.

(** ** Discovery *)

(** [strconv.ParseInt(s, 16, 64)]. *)
Fixpoint parse_hex (acc : Z) (s : string) : option Z :=
  match s with
  | EmptyString => Some acc
  | String a r => d ← hex_digit a; parse_hex (acc * 16 + d) r
  end.

Definition getDeviceClass (device : PCIDevice) : option Z :=
  let '(neg, body) := split_sign (pd_Class device) in
  match body with
  | EmptyString => None
  | _ =>
      v ← parse_hex 0 body;
      let n := if neg : bool then - v else v in
      if (min_int64 <=? n) && (n <=? max_int64) then Some n else None
  end.

Definition NetClass : Z := 2.

(** The driver of a VF; a VF may be between two drivers, so it is read again a
    few times.  [None]: reading failed or was given up. *)
Fixpoint getVfDriverNameWithRetry (attempts : nat) (vfAddr : string) : hostM string :=
  r ← perform (GetDriverName vfAddr);
  let driver := match r with inr d => d | inl _ => "" end in
  if negb (String.eqb driver "") then Ret driver
  else
    match attempts with
    | O | S O => Ret driver
    | S attempts' =>
        cancelled ← perform RetryWait;
        if cancelled : bool then Ret driver else getVfDriverNameWithRetry attempts' vfAddr
    end.

Definition vfDriverReadAttempts : nat := 5.

Definition getVfInfo (vfAddr pfName eswitchMode : string) (devices : list PCIDevice)
    : hostM VirtualFunction :=
  driver ← getVfDriverNameWithRetry vfDriverReadAttempts vfAddr;
  idr ← perform (GetVFID vfAddr);
  let id := match idr with inr i => i | inl _ => -1 end in
  vdpaType ← DiscoverVDPAType hv vfAddr;
  repName ← (if String.eqb eswitchMode ESwithModeSwitchDev then
               r ← perform (GetVfRepresentor pfName id);
               Ret (match r with inr n => n | inl _ => "" end)
             else Ret "");
  name ← TryGetInterfaceName hv vfAddr;
  '(vfName, mtu, mac) ←
    (if String.eqb name "" then Ret ("", 0, "")
     else
       r ← perform (LinkByName name);
       Ret (match r with inr link => (name, l_MTU link, l_HardwareAddr link) | inl _ => ("", 0, "") end));
  guid ← GetNetDevNodeGUID hv vfAddr;
  let '(vendor, deviceID) :=
    match List.find (λ d, String.eqb vfAddr (pd_Address d)) devices with
    | Some d => (pd_Vendor d, pd_Product d)
    | None => ("", "")
    end in
  Ret {| vf_Name := vfName; vf_Mac := mac; vf_Assigned := ""; vf_Driver := driver;
         vf_PciAddress := vfAddr; vf_Vendor := vendor; vf_DeviceID := deviceID; vf_Vlan := 0;
         vf_Mtu := mtu; vf_VfID := id; vf_VdpaType := vdpaType; vf_RepresentorName := repName;
         vf_GUID := guid |}.

(** The goroutines of [getVfInfos] only read, and their results go to the index
    of their VF: the same list as one after the other. *)
Fixpoint getVfInfos (vfAddrs : list string) (pfName eswitchMode : string) (devices : list PCIDevice)
    : hostM (list VirtualFunction) :=
  match vfAddrs with
  | [] => Ret []
  | a :: rest =>
      vf ← getVfInfo a pfName eswitchMode devices;
      vfs ← getVfInfos rest pfName eswitchMode devices;
      Ret (vf :: vfs)
  end.

(** TotalVfs, NumVfs, eswitch mode and VFs of a device; none to skip it. *)
Definition discoverVFs (addr pfNetName : string) (devices : list PCIDevice)
    : hostM (option (Z * Z * string * list VirtualFunction)) :=
  pf ← perform (IsSriovPF addr);
  if negb pf then Ret (Some (0, 0, "", []))
  else
    total ← perform (GetSriovVFcapacity addr);
    num ← perform (GetVFconfigured addr);
    mode ← GetNicSriovMode addr;
    configured ← perform (SriovConfigured addr);
    if negb configured then Ret (Some (total, num, mode, []))
    else
      r ← perform (GetVFList addr);
      match r with
      | inl _ => Ret None
      | inr vfs => infos ← getVfInfos vfs pfNetName mode devices; Ret (Some (total, num, mode, infos))
      end.

(** The entry of one PCI device; none if it is skipped. *)
Definition discoverDevice (devices : list PCIDevice) (device : PCIDevice)
    : hostM (HostError + option InterfaceExt) :=
  let addr := pd_Address device in
  if negb (bool_decide (getDeviceClass device = Some NetClass)) then Ret (inr None)
  else
    vf ← perform (IsSriovVF addr);
    if vf : bool then Ret (inr None)
    else
      match (if DevMode hv then inr true else lift (IsSupportedModel NicIDMap (pd_Vendor device) (pd_Product device))) with
      | inl e => Ret (inl e)
      | inr false => Ret (inr None)
      | inr true =>
          d ← perform (GetDriverName addr);
          match d with
          | inl _ => Ret (inr None)
          | inr driver =>
              pfNetName ← TryGetInterfaceName hv addr;
              if String.eqb pfNetName "" then Ret (inr None)
              else
                a ← perform (GetAltNames pfNetName);
                l ← perform (LinkByName pfNetName);
                match l with
                | inl _ => Ret (inr None)
                | inr link =>
                    speed ← GetNetDevLinkSpeed hv pfNetName;
                    admin ← GetNetDevLinkAdminState pfNetName;
                    pfStatus ← LoadStatus addr;
                    let ext := match pfStatus with inr (Some s) => if_ExternallyManaged s | _ => false end in
                    v ← discoverVFs addr pfNetName devices;
                    Ret (inr (match v with
                      | None => None
                      | Some (total, num, mode, vfs) =>
                          Some {| ie_Name := pfNetName; ie_Mac := l_HardwareAddr link; ie_Driver := driver;
                                  ie_PciAddress := addr; ie_Vendor := pd_Vendor device;
                                  ie_DeviceID := pd_Product device; ie_NetFilter := ""; ie_Mtu := l_MTU link;
                                  ie_NumVfs := num; ie_LinkSpeed := speed;
                                  ie_LinkType := encapTypeToLinkType (l_EncapType link);
                                  ie_LinkAdminState := admin; ie_EswitchMode := mode;
                                  ie_ExternallyManaged := ext; ie_TotalVfs := total; ie_VFs := vfs;
                                  ie_AltNames := match a with inr n => n | inl _ => [] end |}
                      end))
                end
          end
      end.

Fixpoint discoverAll (devices : list PCIDevice) (l : list PCIDevice) (pfList : list InterfaceExt)
    : hostM (HostError + list InterfaceExt) :=
  match l with
  | [] => Ret (inr pfList)
  | d :: rest =>
      o ⇐ discoverDevice devices d;
      discoverAll devices rest (pfList ++ option_list o)
  end.

Definition DiscoverSriovDevices : hostM (HostError + list InterfaceExt) :=
  r ← perform PCI;
  match r with
  | inl _ => Ret (inl (HMsg "DiscoverSriovDevices(): error getting PCI info"))
  | inr [] => Ret (inl (HMsg "DiscoverSriovDevices(): could not retrieve PCI devices"))
  | inr devices => discoverAll devices devices []
  end.

Definition discoverVirtualDevice (device : PCIDevice) : hostM (option InterfaceExt) :=
  let addr := pd_Address device in
  if negb (bool_decide (getDeviceClass device = Some NetClass)) then Ret None
  else
    d ← perform (GetDriverName addr);
    match d with
    | inl _ => Ret None
    | inr driver =>
        mtu ← GetNetdevMTU hv addr;
        name ← TryToGetVirtualInterfaceName hv addr;
        '(mac, speed, linkType) ←
          (if String.eqb name "" then Ret ("", "", "")
           else
             mac ← GetNetDevMac name;
             speed ← GetNetDevLinkSpeed hv name;
             linkType ← GetLinkType name;
             Ret (mac, speed, linkType));
        Ret (Some {| ie_Name := name; ie_Mac := mac; ie_Driver := driver; ie_PciAddress := addr;
                     ie_Vendor := pd_Vendor device; ie_DeviceID := pd_Product device; ie_NetFilter := "";
                     ie_Mtu := Z.max 0 mtu; ie_NumVfs := 0; ie_LinkSpeed := speed; ie_LinkType := linkType;
                     ie_LinkAdminState := ""; ie_EswitchMode := ""; ie_ExternallyManaged := false;
                     ie_TotalVfs := 0; ie_VFs := []; ie_AltNames := [] |})
    end.

Fixpoint discoverVirtualAll (devices : list PCIDevice) : hostM (list InterfaceExt) :=
  match devices with
  | [] => Ret []
  | d :: rest => o ← discoverVirtualDevice d; l ← discoverVirtualAll rest; Ret (option_list o ++ l)
  end.

Definition DiscoverSriovVirtualDevices : hostM (HostError + list InterfaceExt) :=
  r ← perform PCI;
  match r with
  | inl _ => Ret (inl (HMsg "DiscoverSriovVirtualDevices(): error getting PCI info"))
  | inr [] => Ret (inl (HMsg "DiscoverSriovVirtualDevices(): could not retrieve PCI devices"))
  | inr devices => l ← discoverVirtualAll devices; Ret (inr l)
  end.
End sriov.
