(* ===== verification/HostMachine.v ===== *)
(** * The host as a machine

    What the kernel does with the requests that configure SR-IOV: the number of
    VFs and the eswitch mode of a PF, the driver and the driver override of a
    PCI device, and the files of the store.  A request may fail, and then
    changes nothing; everything that is not about these parts is answered
    anyhow.  The VFs of a PF are numbered, their addresses are distinct, their
    list can be read ([HostOutcome] adds that this fails too), and a VF that
    appears may be bound to any driver. *)
From stdpp Require Import functions.
From S2P Require Import Prelude GoLib Types VfRange Selector NeedUpdate Effects Parallel.
From S2P Require Import HostSys HostKernel HostNetwork HostDevices Infiniband HostStore HostSriov.

(** ** State *)

Record Machine := mkMachine {
  m_numvfs : string → Z;
  m_mode : string → string;            (* empty: no devlink *)
  m_driver : string → string;          (* empty: unbound *)
  m_override : string → string;
  m_store : string → option string;    (* by PCI address *)
}.

Definition eswitch (s : Machine) (pf : string) : string :=
  if String.eqb (m_mode s pf) "" then ESwithModeLegacy else m_mode s pf.

(** ** Files *)

Fixpoint strip_prefix (p l : Path) : option Path :=
  match p, l with
  | [], _ => Some l
  | x :: p', y :: l' => if String.eqb x y then strip_prefix p' l' else None
  | _ :: _, [] => None
  end.

Lemma strip_prefix_app q p l : strip_prefix (q ++ p) (q ++ l) = strip_prefix p l.
Proof. induction q as [|x q IH]; [done|]. cbn. by rewrite String.eqb_refl. Qed.

Inductive SysFile :=
| FNumVfs (pf : string)
| FDriver (dev : string)
| FOverride (dev : string)
| FBind (driver : string)
| FUnbind (driver : string)
| FProbe
| FStore (pf : string)
| FOther.

Definition sysfile (hv : HostVars) (p : Path) : SysFile :=
  match strip_prefix (FilesystemRoot hv ++ SysBus ++ [BusPci]) p with
  | Some ["devices"; d; f] =>
      if String.eqb f NumVfsFile then FNumVfs d
      else if String.eqb f "driver" then FDriver d
      else if String.eqb f "driver_override" then FOverride d
      else FOther
  | Some ["drivers"; d; f] =>
      if String.eqb f "bind" then FBind d else if String.eqb f "unbind" then FUnbind d else FOther
  | Some ["drivers_probe"] => FProbe
  | Some _ => FOther
  | None =>
      match strip_prefix (GetHostExtension hv ++ PfAppliedConfig) p with
      | Some [a] => FStore a
      | _ => FOther
      end
  end.

Section sysfile.
Context (hv : HostVars).

Lemma sysfile_bus rest :
  sysfile hv (FilesystemRoot hv ++ SysBus ++ BusPci :: rest) =
  match rest with
  | ["devices"; d; f] =>
      if String.eqb f NumVfsFile then FNumVfs d
      else if String.eqb f "driver" then FDriver d
      else if String.eqb f "driver_override" then FOverride d
      else FOther
  | ["drivers"; d; f] =>
      if String.eqb f "bind" then FBind d else if String.eqb f "unbind" then FUnbind d else FOther
  | ["drivers_probe"] => FProbe
  | _ => FOther
  end.
Proof.
  unfold sysfile. rewrite !strip_prefix_app. cbn -[String.eqb]. rewrite String.eqb_refl. done.
Qed.

Lemma sysfile_numvfs a : sysfile hv (pciDevice hv a ++ [NumVfsFile]) = FNumVfs a.
Proof. unfold pciDevice. rewrite <- !app_assoc. exact (sysfile_bus ["devices"; a; NumVfsFile]). Qed.
Lemma sysfile_device d f :
  sysfile hv (devicePath hv BusPci d ++ [f]) =
  if String.eqb f NumVfsFile then FNumVfs d
  else if String.eqb f "driver" then FDriver d
  else if String.eqb f "driver_override" then FOverride d
  else FOther.
Proof. unfold devicePath. rewrite <- !app_assoc. exact (sysfile_bus ["devices"; d; f]). Qed.
Lemma sysfile_driver d f :
  sysfile hv (driverPath hv BusPci d f) =
  if String.eqb f "bind" then FBind d else if String.eqb f "unbind" then FUnbind d else FOther.
Proof. exact (sysfile_bus ["drivers"; d; f]). Qed.
Lemma sysfile_probe : sysfile hv (FilesystemRoot hv ++ SysBus ++ [BusPci; "drivers_probe"]) = FProbe.
Proof. exact (sysfile_bus ["drivers_probe"]). Qed.
Lemma sysfile_store a : sysfile hv (pfFile hv a) = FStore a.
Proof.
  unfold sysfile, pfFile, GetHostExtension.
  destruct (InChroot hv); rewrite <- ?app_assoc, !strip_prefix_app; done.
Qed.

(** Files of other buses and the rules of udev. *)
Lemma sysfile_otherbus b rest :
  b ≠ BusPci → sysfile hv (FilesystemRoot hv ++ SysBus ++ b :: rest) = FOther.
Proof.
  intros H. unfold sysfile, GetHostExtension. rewrite !strip_prefix_app.
  cbn -[String.eqb]. rewrite (proj2 (String.eqb_neq BusPci b)) by done.
  destruct (InChroot hv); rewrite <- ?app_assoc, !strip_prefix_app; done.
Qed.
Lemma sysfile_rule n a : sysfile hv (getRulePathForPF hv n a) = FOther.
Proof.
  unfold sysfile, getRulePathForPF, getRuleFolderPath, GetHostExtension.
  destruct (InChroot hv); rewrite <- ?app_assoc, !strip_prefix_app; done.
Qed.
End sysfile.

(** ** The kernel *)

Definition set_numvfs s a n := mkMachine (<[a := n]> (m_numvfs s)) (m_mode s) (m_driver s) (m_override s) (m_store s).
Definition set_mode s a v := mkMachine (m_numvfs s) (<[a := v]> (m_mode s)) (m_driver s) (m_override s) (m_store s).
Definition set_driver s d v := mkMachine (m_numvfs s) (m_mode s) (<[d := v]> (m_driver s)) (m_override s) (m_store s).
Definition set_override s d v := mkMachine (m_numvfs s) (m_mode s) (m_driver s) (<[d := v]> (m_override s)) (m_store s).
Definition set_store s a v := mkMachine (m_numvfs s) (m_mode s) (m_driver s) (m_override s) (<[a := v]> (m_store s)).

Section machine.
Context (hv : HostVars) (vf : string → nat → string).

(** The VFs of a PF. *)
Definition vfs (s : Machine) (pf : string) : list string := vf pf <$> seq 0 (Z.to_nat (m_numvfs s pf)).

(** Only the VFs of a PF have another driver or override. *)
Definition reborn (pf : string) (s s' : Machine) : Prop :=
  m_numvfs s' = m_numvfs s ∧ m_mode s' = m_mode s ∧ m_store s' = m_store s ∧
  ∀ d, (∀ i, d ≠ vf pf i) → m_driver s' d = m_driver s d ∧ m_override s' d = m_override s d.

(** A successful write.  VFs are created only where there were none; probing
    gives an unbound device the driver its override names or else a driver of
    the kernel, or none. *)
Definition written (f : SysFile) (data : string) (s s' : Machine) : Prop :=
  match f with
  | FNumVfs pf =>
      ∃ n, Atoi data = (n, None) ∧ (n = 0 ∨ m_numvfs s pf = 0) ∧ reborn pf (set_numvfs s pf n) s'
  | FBind driver => s' = set_driver s data driver
  | FUnbind driver => s' = set_driver s data ""
  | FProbe =>
      ∃ driver, s' = set_driver s data driver ∧
        if String.eqb (m_driver s data) "" then
          if String.eqb (m_override s data) "" then driver ∉ DpdkDrivers
          else driver = "" ∨ driver = m_override s data
        else driver = m_driver s data
  | FOverride d => s' = set_override s d (if String.eqb data (String "000" "") then "" else data)
  | FStore pf => s' = set_store s pf (Some data)
  | FDriver _ | FOther => s' = s
  end.

Definition kernel (s : Machine) (r : HostReq) : HostResp r → Machine → Prop :=
  match r with
  | WriteFile p data => λ x s',
      match x with Some _ => s' = s | None => written (sysfile hv p) data s s' end
  | RemoveAll p => λ x s',
      match x, sysfile hv p with
      | None, FStore pf => s' = set_store s pf None
      | _, _ => s' = s
      end
  | DevLinkSetEswitchMode _ pf mode => λ x s',
      match x with Some _ => s' = s | None => s' = set_mode s pf mode end
  | Readlink p => λ x s', s' = s ∧
      match sysfile hv p, x with
      | FDriver d, inr target => m_driver s d ≠ "" ∧ Base target = m_driver s d
      | FDriver d, inl e => e = ENOENT → m_driver s d = ""
      | _, _ => True
      end
  | ReadFile p => λ x s', s' = s ∧
      match sysfile hv p, x with
      | FStore pf, inr data => m_store s pf = Some data
      | FStore pf, inl e => e = ENOENT → m_store s pf = None
      | _, _ => True
      end
  | Stat p => λ x s', s' = s ∧
      (x = Some ENOENT →
       match sysfile hv p with
       | FNumVfs pf => m_numvfs s pf = 0
       | FOverride d => m_override s d = ""
       | _ => True
       end)
  | GetVFconfigured pf => λ x s', s' = s ∧ x = m_numvfs s pf
  | GetVFList pf => λ x s', s' = s ∧ match x with inr l => l ≡ₚ vfs s pf | inl _ => False end
  | GetVFID d => λ x s', s' = s ∧ ∀ pf i, d = vf pf i → x = inr (Z.of_nat i) ∨ ∃ e, x = inl e
  | DevLinkGetDeviceByName _ pf => λ x s', s' = s ∧
      match x with inr mode => mode = m_mode s pf | inl _ => m_mode s pf = "" end
  | _ => λ _ s', s' = s
  end.

(** Requests that change nothing here. *)
Definition reads (r : HostReq) : bool :=
  match r with
  | WriteFile p _ => match sysfile hv p with FDriver _ | FOther => true | _ => false end
  | RemoveAll p => match sysfile hv p with FStore _ => false | _ => true end
  | DevLinkSetEswitchMode _ _ _ => false
  | _ => true
  end.

Lemma reads_same r s x s' : reads r = true → kernel s r x s' → s' = s.
Proof.
  destruct r; cbn; intros Hr Hk; try exact Hk; try exact (proj1 Hk); try done.
  - destruct x; [exact Hk|]. by destruct (sysfile hv p).
  - destruct x; [exact Hk|]. by destruct (sysfile hv p).
Qed.

(** ** What belongs to a PF *)

(** The PF and its VFs are as before. *)
Record same_pf (pf : string) (s s' : Machine) : Prop := {
  sp_numvfs : m_numvfs s' pf = m_numvfs s pf;
  sp_mode : m_mode s' pf = m_mode s pf;
  sp_driver : ∀ i, m_driver s' (vf pf i) = m_driver s (vf pf i);
  sp_override : ∀ i, m_override s' (vf pf i) = m_override s (vf pf i);
}.

#[export] Instance same_pf_preorder pf : PreOrder (same_pf pf).
Proof.
  split; [by split|]. intros s t u [A1 A2 A3 A4] [B1 B2 B3 B4].
  split; [congruence|congruence|..]; intros i; [by rewrite B3|by rewrite B4].
Qed.

Lemma same_pf_rtc pf s s' : rtc (same_pf pf) s s' → same_pf pf s s'.
Proof. induction 1; [done|by etransitivity]. Qed.

(** All other PFs, and the whole store, are as before. *)
Definition elsewhere (pf : string) (s s' : Machine) : Prop :=
  m_store s' = m_store s ∧ ∀ b, b ≠ pf → same_pf b s s'.

(** No VF of the PF has a driver. *)
Definition quiescent (s : Machine) (pf : string) : Prop := ∀ d, d ∈ vfs s pf → m_driver s d = "".

(** What the configuration of a PF may do: change that PF only, and its eswitch
    mode only when its VFs are unbound. *)
Definition careful (pf : string) (s : Machine) (r : HostReq) : Prop :=
  (∀ x s', kernel s r x s' → elsewhere pf s s') ∧
  match r with DevLinkSetEswitchMode _ a _ => a = pf ∧ quiescent s pf | _ => True end.

(** The world of the goroutine of a PF: the others leave this PF alone. *)
Definition pf_world (pf : string) : World HostResp := shared_world kernel (same_pf pf).

Lemma reads_careful pf s r : reads r = true → careful pf s r.
Proof.
  intros Hr. split; [|by destruct r]. intros x s' Hk. apply reads_same in Hk as ->; [|done].
  by split.
Qed.

Lemma reads_steady pf r : reads r = true → steady (pf_world pf) (careful pf) (same_pf pf) (perform r).
Proof.
  intros Hr. refine (steady_perform _ _ _ _ _ _); [intros s; by apply reads_careful|].
  intros s x s' (s1 & Hk & Hrel). apply reads_same in Hk as ->; [|done]. by apply same_pf_rtc.
Qed.

(** A program that only reads. *)
Lemma only_reads pf {A} (p : hostM A) s :
  only reads p → wp (pf_world pf) (careful pf) p (λ _ s', same_pf pf s s') s.
Proof. intros H. exact (only_steady reads (pf_world pf) (careful pf) (same_pf pf) p (reads_steady pf) H s). Qed.
End machine.

(** ** A machine to run on *)

(** The PF "a" is to be configured, the PF "b" was configured by the operator
    and is no longer listed, the PF "c" is none of the operator's business. *)
Definition demo_vars (parallel : bool) : HostVars :=
  mkHostVars ["fs"] false false false parallel false [] 2 2.

Definition demo_iface (addr : string) : Interface :=
  mkInterface addr 2 0 ("eth" +:+ addr) "" "" [] false.

Definition demo_marshal (i : Interface) : string + string := inr ("managed " +:+ if_PciAddress i).
Definition demo_unmarshal (s : string) : string + Interface := inr (demo_iface s).

Definition demo_status (addr : string) : InterfaceExt :=
  {| ie_Name := "eth" +:+ addr; ie_Mac := ""; ie_Driver := "ice"; ie_PciAddress := addr; ie_Vendor := "8086";
     ie_DeviceID := "1592"; ie_NetFilter := ""; ie_Mtu := 1500; ie_NumVfs := 1; ie_LinkSpeed := "";
     ie_LinkType := "ETH"; ie_LinkAdminState := "up"; ie_EswitchMode := "legacy";
     ie_ExternallyManaged := false; ie_TotalVfs := 8; ie_VFs := []; ie_AltNames := [] |}.

Definition demo_state : SriovNetworkNodeState :=
  mkNodeState (mkObjectMeta "n" "ns" 1 ∅ ∅ [])
    (mkNodeStateSpec [] (mkBridges []) (mkSystem "" ∅))
    (mkNodeStateStatus [] (mkBridges []) (mkSystem "" ∅) "" "" []).

Definition demo_link : Link := mkLink "eth" 1 1500 "" "ether" true [].


(** Addresses: as many letters as the index, and the address of the PF. *)
Fixpoint demo_vf (pf : string) (i : nat) : string :=
  match i with O => String "/" pf | S i' => String "v" (demo_vf pf i') end.

Fixpoint demo_index (d : string) : nat :=
  match d with String "v" d' => S (demo_index d') | _ => 0 end.

Lemma demo_index_vf pf i : demo_index (demo_vf pf i) = i.
Proof. induction i as [|i IH]; [done|]. cbn. by rewrite IH. Qed.

Lemma demo_vf_inj a b i j : demo_vf a i = demo_vf b j → a = b ∧ i = j.
Proof.
  intros H. assert (i = j) as <- by (by rewrite <- (demo_index_vf a i), H, demo_index_vf).
  split; [|done]. induction i as [|i IH]; cbn in H; injection H; auto.
Qed.

(** New VFs get the driver of the kernel. *)
Definition create_vfs (s : Machine) (pf : string) (n : Z) : Machine :=
  let new := demo_vf pf <$> seq 0 (Z.to_nat n) in
  mkMachine (<[pf := n]> (m_numvfs s)) (m_mode s)
    (λ d, if bool_decide (d ∈ new) then "iavf" else m_driver s d) (m_override s) (m_store s).

Definition machine_write (f : SysFile) (data : string) (s : Machine) : option Errno * Machine :=
  match f with
  | FNumVfs pf =>
      match Atoi data with
      | (n, None) => if (n =? 0) || (m_numvfs s pf =? 0) then (None, create_vfs s pf n)
                     else (Some (EOther "busy"), s)
      | _ => (Some EINVAL, s)
      end
  | FBind driver => (None, set_driver s data driver)
  | FUnbind driver => (None, set_driver s data "")
  | FProbe =>
      (None, set_driver s data
         (if String.eqb (m_driver s data) "" then
            if String.eqb (m_override s data) "" then "iavf" else m_override s data
          else m_driver s data))
  | FOverride d => (None, set_override s d (if String.eqb data (String "000" "") then "" else data))
  | FStore pf => (None, set_store s pf (Some data))
  | FDriver _ | FOther => (None, s)
  end.

Definition machine_handle (hv : HostVars) (s : Machine) (r : HostReq) : HostResp r * Machine :=
  match r with
  | WriteFile p data => machine_write (sysfile hv p) data s
  | RemoveAll p => (None, match sysfile hv p with FStore pf => set_store s pf None | _ => s end)
  | DevLinkSetEswitchMode _ pf mode => (None, set_mode s pf mode)
  | Readlink p =>
      (match sysfile hv p with
       | FDriver d => if String.eqb (m_driver s d) "" then inl ENOENT else inr ["drivers"; m_driver s d]
       | _ => inl ENOENT
       end, s)
  | ReadFile p =>
      (match sysfile hv p with
       | FStore pf => match m_store s pf with Some data => inr data | None => inl ENOENT end
       | _ => inr "5"
       end, s)
  | GetVFconfigured pf => (m_numvfs s pf, s)
  | GetVFList pf => (inr (vfs demo_vf s pf), s)
  | GetVFID d => (inr (Z.of_nat (demo_index d)), s)
  | DevLinkGetDeviceByName _ pf => (inr (m_mode s pf), s)
  | Stat _ | Lstat _ | Remove _ | Mkdir _ | MkdirAll _ | Chmod _ => (None, s)
  | ReadDir _ | Glob _ | DecodeOpen _ | GetAltNames _ | PCI => (inl ENOENT, s)
  | GetNetNames _ => (inr ["eth"], s)
  | OpenFile _ _ | TruncateOpen _ | SeekOpen _ | EncodeOpen _ _ => (None, s)
  | RunCommand _ _ => (("", "", None), s)
  | RandIntn _ => (0, s)
  | RetryWait => (false, s)
  | GetDriverName _ => (inr "mlx5_core", s)
  | IsSriovVF _ | IsSriovPF _ | SriovConfigured _ => (true, s)
  | GetSriovVFcapacity _ => (8, s)
  | LinkByName _ | LinkByIndex _ => (inr demo_link, s)
  | LinkList => (inr [], s)
  | LinkSetVfNodeGUID _ _ _ | LinkSetVfPortGUID _ _ _ | LinkSetVfHardwareAddr _ _ _
  | LinkSetUp _ | LinkSetMTU _ _ => (None, s)
  | DevlinkGetDeviceParamByName _ _ _ => (inl ENODEV, s)
  | DevlinkSetDeviceParam _ _ _ _ _ => (None, s)
  | VDPAGetDevByName _ | VDPADelDev _ | VDPANewDev _ _ _ _ => (None, s)
  | RdmaLinkByName _ | RdmaSystemGetNetnsMode => (inl ENOENT, s)
  | FeatureNames _ => (inr ∅, s)
  | Features _ => (inr ∅, s)
  | ChangeFeatures _ _ => (None, s)
  | GetVfRepresentor _ _ => (inl ENOENT, s)
  | DetachUplinkAndVFRepresentorsFromManagedBridge _ => (None, s)
  end.

Lemma machine_write_ok f data s :
  match (machine_write f data s).1 with
  | Some _ => (machine_write f data s).2 = s
  | None => written demo_vf f data s (machine_write f data s).2
  end.
Proof.
  destruct f; cbn; try done.
  - destruct (Atoi data) as [n [?|]] eqn:Ha; [done|].
    destruct (Z.eqb_spec n 0), (Z.eqb_spec (m_numvfs s pf) 0); cbn; try done; exists n;
      (split_and!; [done|auto|]); (split_and!; [done..|]); intros d Hd; (split; [|done]); cbn;
      rewrite bool_decide_eq_false_2; try done; intros (i & -> & _)%list_elem_of_fmap; by apply (Hd i).
  - eexists. split; [done|]. destruct (String.eqb (m_driver s data) ""); [|done].
    destruct (String.eqb (m_override s data) ""); [|by right].
    intros Hin. by apply (bool_decide_eq_true_2 _) in Hin.
Qed.

(** It behaves as the kernel may. *)
Lemma machine_handle_kernel hv s r :
  kernel hv demo_vf s r (machine_handle hv s r).1 (machine_handle hv s r).2.
Proof.
  destruct r; cbn; try done.
  - split; [done|]. destruct (sysfile hv p) as [|d| | | | | |]; try done.
    destruct (String.eqb_spec (m_driver s d) ""); by cbn.
  - split; [done|]. destruct (sysfile hv p) as [| | | | | |pf|]; try done. by destruct (m_store s pf).
  - exact (machine_write_ok (sysfile hv p) data s).
  - by destruct (sysfile hv p).
  - split; [done|]. intros pf i ->. left. by rewrite demo_index_vf.
Qed.

(** What this host answers; only the PF "b" is in the store. *)
Definition demo_answer (r : HostReq) : HostResp r :=
  match r with
  | ReadFile p => if bool_decide (p = ["fs"; "host"; "etc"; "sriov-operator"; "pci"; "b"]) then inr "b" else inl ENOENT
  | Readlink _ | ReadDir _ | Glob _ | DecodeOpen _ | GetAltNames _ | PCI => inl ENOENT
  | GetNetNames _ => inr ["eth"]
  | WriteFile _ _ | Stat _ | Lstat _ | Remove _ | RemoveAll _ | Mkdir _ | MkdirAll _ | Chmod _ => None
  | OpenFile _ _ | TruncateOpen _ | SeekOpen _ | EncodeOpen _ _ => None
  | RunCommand _ _ => ("", "", None)
  | RandIntn _ => 0
  | RetryWait => false
  | GetDriverName _ => inr "ice"
  | GetVFID _ => inr 0
  | IsSriovVF _ | IsSriovPF _ | SriovConfigured _ => true
  | GetSriovVFcapacity _ => 8
  | GetVFconfigured _ => 1
  | GetVFList _ => inr []
  | LinkByName _ | LinkByIndex _ => inr demo_link
  | LinkList => inr []
  | LinkSetVfNodeGUID _ _ _ | LinkSetVfPortGUID _ _ _ | LinkSetVfHardwareAddr _ _ _
  | LinkSetUp _ | LinkSetMTU _ _ => None
  | DevLinkGetDeviceByName _ _ => inr "legacy"
  | DevLinkSetEswitchMode _ _ _ => None
  | DevlinkGetDeviceParamByName _ _ _ => inl ENODEV
  | DevlinkSetDeviceParam _ _ _ _ _ => None
  | VDPAGetDevByName _ | VDPADelDev _ | VDPANewDev _ _ _ _ => None
  | RdmaLinkByName _ | RdmaSystemGetNetnsMode => inl ENOENT
  | FeatureNames _ | Features _ => inl ENOTSUP
  | ChangeFeatures _ _ => None
  | GetVfRepresentor _ _ => inl ENOENT
  | DetachUplinkAndVFRepresentorsFromManagedBridge _ => None
  end.
