(* ===== verification/HostDrivers.v ===== *)
(** * Drivers of the VFs

    First the helpers that leave PFs, drivers and the store alone: they read, or
    write elsewhere (network links, udev rules, the VDPA bus).  Then what binding
    and unbinding achieve on the machine, while the goroutines of other PFs run. *)
From stdpp Require Import functions.
From S2P Require Import Prelude GoLib Types VfRange Selector NeedUpdate Effects Parallel.
From S2P Require Import HostSys HostKernel HostNetwork HostDevices Infiniband HostStore HostSriov HostMachine.

(** ** Helpers that leave the machine alone *)

Section reads.
Context (hv : HostVars).
Abbreviation reading := (only (reads hv)).

Lemma reading_request r : reads hv r = true → reading (perform (resp := HostResp) r).
Proof. apply only_perform. Qed.

#[local] Hint Extern 1 (steady (free_world _) _ _ (perform _)) => only_request : steady.

Lemma reading_sys {A} (c : hostM (Errno + A)) : reading c → reading (sys c).
Proof. intros H. unfold sys. refine (steady_bind _ _ _ _ _ H _). intros ?. steady. Qed.
Lemma reading_sysE c : reading c → reading (sysE c).
Proof. intros H. unfold sysE. refine (steady_bind _ _ _ _ _ H _). intros ?. steady. Qed.
Lemma reading_wrapping {A} m (c : hostM (HostError + A)) : reading c → reading (wrapping m c).
Proof. intros H. unfold wrapping. refine (steady_bind _ _ _ _ _ H _). intros ?. steady. Qed.
Lemma reading_poll {A} n (c : hostM (option A)) : reading c → reading (pollUntil n c).
Proof.
  intros H. induction n as [|n IH]; cbn [pollUntil]; [steady|].
  refine (steady_bind _ _ _ _ _ H _). intros [a|]; [steady|done].
Qed.
Lemma reading_retry n c : reading c → reading (retry n c).
Proof.
  intros H. induction n as [|n IH]; cbn [retry]; refine (steady_bind _ _ _ _ _ H _);
    intros [e|[]]; steady; done.
Qed.
Lemma reading_runE c args : reading (runE c args).
Proof. unfold runE. steady. Qed.
#[local] Hint Resolve reading_sys reading_sysE reading_wrapping reading_poll reading_runE : steady.

(** ** Network devices *)

Lemma reading_SwitchID n : reading (GetPhysSwitchID hv n).
Proof. unfold GetPhysSwitchID. steady. Qed.
Lemma reading_PortName n : reading (GetPhysPortName hv n).
Proof. unfold GetPhysPortName. steady. Qed.
#[local] Hint Resolve reading_SwitchID reading_PortName : steady.
Lemma reading_pickSwitchdev names d : reading (pickSwitchdev hv names d).
Proof. induction names as [|n names IH]; cbn [pickSwitchdev]; unfold IsSwitchdev; steady. Qed.
#[local] Hint Resolve reading_pickSwitchdev : steady.
Lemma reading_TryGetInterfaceName a : reading (TryGetInterfaceName hv a).
Proof. unfold TryGetInterfaceName. steady. Qed.
#[local] Hint Resolve reading_TryGetInterfaceName : steady.
Lemma reading_GetInterfaceIndex a : reading (GetInterfaceIndex hv a).
Proof. unfold GetInterfaceIndex. steady. Qed.
Lemma reading_GetNetdevMTU a : reading (GetNetdevMTU hv a).
Proof. unfold GetNetdevMTU. steady. Qed.
Lemma reading_SetNetdevMTU a m : reading (SetNetdevMTU hv a m).
Proof.
  unfold SetNetdevMTU. destruct (m <=? 0); [steady|]. apply reading_retry. unfold setMTUOnce. steady.
Qed.
Lemma reading_GetLinkType n : reading (GetLinkType n).
Proof. unfold GetLinkType. steady. Qed.
Lemma reading_EnableHwTcOffload n : reading (EnableHwTcOffload n).
Proof. unfold EnableHwTcOffload. steady. Qed.
Lemma reading_GetDevlinkDeviceParam a n : reading (GetDevlinkDeviceParam a n).
Proof. unfold GetDevlinkDeviceParam. steady. Qed.
Lemma reading_SetDevlinkDeviceParam a n v : reading (SetDevlinkDeviceParam a n v).
Proof. unfold SetDevlinkDeviceParam. steady. Qed.
#[local] Hint Resolve reading_GetInterfaceIndex reading_GetNetdevMTU reading_SetNetdevMTU
  reading_GetLinkType reading_EnableHwTcOffload reading_GetDevlinkDeviceParam
  reading_SetDevlinkDeviceParam : steady.
Lemma reading_VFIsReady a : reading (VFIsReady hv a).
Proof. unfold VFIsReady, vfLinkOnce. steady. apply reading_poll. steady. Qed.
Lemma reading_SetVfAdminMac a p l : reading (SetVfAdminMac a p l).
Proof. unfold SetVfAdminMac. steady. Qed.
Lemma reading_randomOctets n : reading (randomOctets n).
Proof. induction n; cbn [randomOctets]; steady. Qed.
#[local] Hint Resolve reading_randomOctets : steady.
Lemma reading_ConfigureVfGUID pool v p i l : reading (ConfigureVfGUID pool v p i l).
Proof. unfold ConfigureVfGUID, generateRandomGUID, applyVfGUIDToInterface. steady. Qed.

(** ** Drivers *)

Lemma reading_getDriver b d : reading (getDriverByBusAndDevice hv b d).
Proof. unfold getDriverByBusAndDevice. steady. Qed.
#[local] Hint Resolve reading_getDriver : steady.
Lemma reading_HasDriver d : reading (HasDriver hv d).
Proof. unfold HasDriver. steady. Qed.
Lemma reading_vdpa_write rest data :
  reading (perform (resp := HostResp) (WriteFile (FilesystemRoot hv ++ SysBus ++ BusVdpa :: rest) data)).
Proof. apply reading_request. cbn [reads]. by rewrite sysfile_otherbus. Qed.
Lemma reading_vdpa_override d o : reading (setDriverOverride hv BusVdpa d o).
Proof.
  unfold setDriverOverride. steady; apply reading_sysE; unfold devicePath; rewrite <- !app_assoc;
    apply reading_vdpa_write.
Qed.
#[local] Hint Resolve reading_vdpa_override : steady.
#[local] Hint Extern 2 (steady (free_world _) _ _ (perform _)) => apply reading_vdpa_write : steady.
Lemma reading_vdpa_unbind d : reading (UnbindDriverByBusAndDevice hv BusVdpa d).
Proof. unfold UnbindDriverByBusAndDevice, unbindDriver, driverPath. steady. Qed.
#[local] Hint Resolve reading_vdpa_unbind : steady.
Lemma reading_vdpa_bind d n : reading (BindDriverByBusAndDevice hv BusVdpa d n).
Proof. unfold BindDriverByBusAndDevice, bindDriver, driverPath. steady. Qed.
#[local] Hint Resolve reading_vdpa_bind : steady.
Lemma reading_CreateVDPA a t : reading (CreateVDPADevice hv a t).
Proof. unfold CreateVDPADevice, newVDPADevice. steady. Qed.
Lemma reading_DeleteVDPA a : reading (DeleteVDPADevice a).
Proof. unfold DeleteVDPADevice. steady. Qed.

(** ** The PF *)

Lemma reading_detach a : reading (detachUplinkAndVFRepresentorsFromBridge hv a).
Proof. unfold detachUplinkAndVFRepresentorsFromBridge. steady. Qed.
Lemma reading_waitForVFLinks a n : reading (waitForVFLinks hv a n).
Proof.
  assert (H : ∀ l, reading (allLinked hv l)) by (induction l; cbn [allLinked]; steady).
  unfold waitForVFLinks. steady. apply reading_poll. unfold vfLinksReady. steady.
Qed.
Lemma reading_checkExternallyManagedPF i : reading (checkExternallyManagedPF hv i).
Proof. unfold checkExternallyManagedPF, GetNicSriovMode. steady. Qed.

Lemma reading_rule n a c :
  reading (perform (resp := HostResp) (WriteFile (getRulePathForPF hv n a) c)).
Proof. apply reading_request. cbn [reads]. by rewrite sysfile_rule. Qed.
#[local] Hint Extern 2 (steady (free_world _) _ _ (perform _)) => apply reading_rule : steady.
Lemma reading_addUdevRule a n c : reading (addUdevRule hv a n c).
Proof. unfold addUdevRule. steady. Qed.
Lemma reading_removeUdevRule a n : reading (removeUdevRule hv a n).
Proof. unfold removeUdevRule. steady. Qed.
#[local] Hint Resolve reading_addUdevRule reading_removeUdevRule : steady.
Lemma reading_removeUdevRules a : reading (removeUdevRules hv a).
Proof.
  unfold removeUdevRules, RemoveDisableNMUdevRule, RemoveVfRepresentorUdevRule, RemovePersistPFNameUdevRule.
  steady.
Qed.
Lemma reading_addUdevRules i : reading (addUdevRules hv i).
Proof. unfold addUdevRules, AddDisableNMUdevRule, AddPersistPFNameUdevRule. steady. Qed.
Lemma reading_addVfRepresentorUdevRule i : reading (addVfRepresentorUdevRule hv i).
Proof. unfold addVfRepresentorUdevRule, AddVfRepresentorUdevRule. steady. Qed.
Lemma reading_LoadUdevRules : reading LoadUdevRules.
Proof. unfold LoadUdevRules. steady. Qed.
End reads.

#[export] Hint Resolve reading_GetNetdevMTU reading_SetNetdevMTU reading_GetLinkType
  reading_EnableHwTcOffload reading_GetDevlinkDeviceParam reading_SetDevlinkDeviceParam
  reading_VFIsReady reading_SetVfAdminMac reading_ConfigureVfGUID reading_getDriver reading_HasDriver
  reading_CreateVDPA reading_DeleteVDPA reading_detach reading_waitForVFLinks
  reading_checkExternallyManagedPF reading_removeUdevRules reading_addUdevRules
  reading_addVfRepresentorUdevRule reading_LoadUdevRules reading_sys reading_sysE reading_wrapping : steady.

(** ** Binding and unbinding *)

(** The addresses of VFs are distinct. *)
Class VfAddresses (vf : string → nat → string) : Prop :=
  vf_inj : ∀ a b i j, vf a i = vf b j → a = b ∧ i = j.

Section drivers.
Context (hv : HostVars) (vf : string → nat → string) `{!VfAddresses vf} (pf : string).

Abbreviation W := (pf_world hv vf pf).
Abbreviation G := (careful hv vf pf).
Abbreviation same := (same_pf vf pf).

(** ** Effects stay with the PF *)

Lemma vf_ne b i j : b ≠ pf → vf b j ≠ vf pf i.
Proof using All. intros Hb E. by apply vf_inj in E as [? _]. Qed.

Lemma elsewhere_driver s i v : elsewhere vf pf s (set_driver s (vf pf i) v).
Proof using All.
  split; [done|]. intros b Hb. split; [done|done| |done]. intros j. cbn. by rewrite fn_lookup_insert_ne by (intros ?; by eapply vf_ne).
Qed.

Lemma elsewhere_override s i v : elsewhere vf pf s (set_override s (vf pf i) v).
Proof using All.
  split; [done|]. intros b Hb. split; [done..|]. intros j. cbn. by rewrite fn_lookup_insert_ne by (intros ?; by eapply vf_ne).
Qed.

Lemma elsewhere_mode s v : elsewhere vf pf s (set_mode s pf v).
Proof.
  split; [done|]. intros b Hb. split; [done| |done..]. cbn. by rewrite fn_lookup_insert_ne.
Qed.

Lemma elsewhere_numvfs s n s' : reborn vf pf (set_numvfs s pf n) s' → elsewhere vf pf s s'.
Proof using All.
  intros (Hn & Hm & Hs & Hd). split; [done|]. intros b Hb.
  assert (Hv : ∀ j i, vf b j ≠ vf pf i) by (intros; by apply vf_ne).
  split; [rewrite Hn; cbn; by rewrite fn_lookup_insert_ne|by rewrite Hm|..]; intros j;
    destruct (Hd (vf b j)) as [H1 H2]; auto.
Qed.

(** ** One request *)

Lemma wp_req {A} r (k : HostResp r → hostM A) Q s :
  G s r → (∀ x s1 s2, kernel hv vf s r x s1 → same s1 s2 → wp W G (k x) Q s2) → wp W G (perform r ≫= k) Q s.
Proof.
  intros HG Hk. apply wp_perform; [done|]. intros x s2 (s1 & H1 & H2). eapply Hk; [done|].
  by apply same_pf_rtc.
Qed.

Lemma wp_writeFile p data Q s :
  (∀ s1, written vf (sysfile hv p) data s s1 → elsewhere vf pf s s1) →
  (∀ e s2, same s s2 → Q (inl e) s2) →
  (∀ s1 s2, written vf (sysfile hv p) data s s1 → same s1 s2 → Q (inr tt) s2) →
  wp W G (sysE (perform (WriteFile p data))) Q s.
Proof.
  intros Hw He Ho. apply wp_req.
  - split; [|done]. intros [e|] s1; cbn; [|apply Hw]. intros ->. by split.
  - intros [e|] s1 s2; cbn; [intros -> H; by apply He|]. intros H1 H2. by eapply Ho.
Qed.

(** ** One VF *)

(** Only the VF [d] of the PF may have another driver or override. *)
Record vf_step (d : string) (s s' : Machine) : Prop := {
  vs_numvfs : m_numvfs s' pf = m_numvfs s pf;
  vs_mode : m_mode s' pf = m_mode s pf;
  vs_driver : ∀ i, vf pf i ≠ d → m_driver s' (vf pf i) = m_driver s (vf pf i);
}.

#[export] Instance vf_step_preorder d : PreOrder (vf_step d).
Proof.
  split; [by split|]. intros s t u [A1 A2 A3] [B1 B2 B3]. split; [congruence..|].
  intros i Hi. by rewrite B3, A3.
Qed.

Lemma same_vf_step d s s' : same s s' → vf_step d s s'.
Proof. intros [? ? ? ?]. by split. Qed.

Lemma vf_step_same d s s1 s2 : vf_step d s s1 → same s1 s2 → vf_step d s s2.
Proof. intros H1 H2. etransitivity; [exact H1|by apply same_vf_step]. Qed.

Lemma vf_step_driver s i v : vf_step (vf pf i) s (set_driver s (vf pf i) v).
Proof. split; [done..|]. intros j Hj. cbn. by rewrite fn_lookup_insert_ne. Qed.

Lemma vf_step_override s d v : vf_step d s (set_override s d v).
Proof. by split. Qed.

(** Reading programs keep everything. *)
Lemma wp_reading {A} (p : hostM A) Q s :
  only (reads hv) p → (∀ a s', same s s' → Q a s') → wp W G p Q s.
Proof. intros Hp HQ. eapply wp_post; [by apply only_reads|done]. Qed.

Abbreviation dev i := (vf pf i).

Lemma wp_getDriver i s :
  wp W G (getDriverByBusAndDevice hv BusPci (dev i))
    (λ r s', same s s' ∧ ∀ d, r = inr d → m_driver s' (dev i) = d) s.
Proof.
  unfold getDriverByBusAndDevice. apply wp_req; [by apply reads_careful|].
  intros x s1 s2 [-> Hx] Hs. rewrite sysfile_device in Hx. cbn in Hx. apply wp_ret. split; [done|].
  intros d. destruct x as [e|l].
  - unfold is_not_exist. case_bool_decide; [|done]. intros [= <-]. rewrite (sp_driver _ _ _ _ Hs). auto.
  - intros [= <-]. rewrite (sp_driver _ _ _ _ Hs). symmetry. apply Hx.
Qed.

Lemma wp_setDriverOverride i o s :
  wp W G (setDriverOverride hv BusPci (dev i) o)
    (λ r s', vf_step (dev i) s s' ∧ m_driver s' (dev i) = m_driver s (dev i) ∧
             (r = inr tt → o = "" → m_override s' (dev i) = "")) s.
Proof using All.
  unfold setDriverOverride. apply wp_req; [by apply reads_careful|].
  intros x s1 s2 [-> Hx] Hs. rewrite sysfile_device in Hx. cbn in Hx.
  assert (Hs' := Hs). destruct Hs' as [_ _ Hd Ho]. destruct x as [e|].
  { unfold is_not_exist. case_bool_decide; apply wp_ret; (split_and!; [by apply same_vf_step|done|]); [|done].
    intros _ _. rewrite Ho. apply Hx. congruence. }
  apply wp_writeFile; rewrite ?sysfile_device; cbn.
  - intros s1 ->. apply elsewhere_override.
  - intros e s3 H3. split_and!; [|by rewrite (sp_driver _ _ _ _ H3)|done].
    eapply vf_step_same; [by apply same_vf_step|done].
  - intros s1 s3 -> H3. split_and!.
    + eapply vf_step_same; [|exact H3]. etransitivity; [by apply same_vf_step|apply vf_step_override].
    + rewrite (sp_driver _ _ _ _ H3). cbn. auto.
    + intros _ ->. rewrite (sp_override _ _ _ _ H3). cbn. by rewrite fn_lookup_insert.
Qed.

Lemma wp_UnbindDriver i s :
  wp W G (UnbindDriverByBusAndDevice hv BusPci (dev i))
    (λ r s', vf_step (dev i) s s' ∧ (r = inr tt → m_driver s' (dev i) = "")) s.
Proof using All.
  unfold UnbindDriverByBusAndDevice, unbindDriver. apply wp_try. eapply wp_post; [apply wp_getDriver|].
  intros [e|d] s1 [Hs Hd]; [split; [by apply same_vf_step|done]|].
  destruct (String.eqb_spec d "") as [->|]; [split; [by apply same_vf_step|auto]|].
  apply wp_writeFile; rewrite ?sysfile_driver; cbn.
  - intros s2 ->. apply elsewhere_driver.
  - intros e s2 H2. split; [|done]. eapply vf_step_same; [by apply same_vf_step|done].
  - intros s2 s3 -> H3. split.
    + eapply vf_step_same; [|exact H3]. etransitivity; [by apply same_vf_step|apply vf_step_driver].
    + intros _. rewrite (sp_driver _ _ _ _ H3). cbn. by rewrite fn_lookup_insert.
Qed.

Lemma wp_bindDriver i driver s :
  wp W G (bindDriver hv BusPci (dev i) driver)
    (λ r s', vf_step (dev i) s s' ∧ (r = inr tt → m_driver s' (dev i) = driver)) s.
Proof using All.
  unfold bindDriver. apply wp_writeFile; rewrite ?sysfile_driver; cbn.
  - intros s2 ->. apply elsewhere_driver.
  - intros e s2 H2. split; [by apply same_vf_step|done].
  - intros s2 s3 -> H3. split.
    + eapply vf_step_same; [apply vf_step_driver|exact H3].
    + intros _. rewrite (sp_driver _ _ _ _ H3). cbn. by rewrite fn_lookup_insert.
Qed.

(** Programs in sequence. *)
Lemma wp_then {A B} (c : hostM (HostError + A)) (k : A → hostM (HostError + B)) d P Q s :
  wp W G c (λ r s1, vf_step d s s1 ∧ ∀ a, r = inr a → P a s1) s →
  (∀ a s1, P a s1 → wp W G (k a) (λ r s2, vf_step d s1 s2 ∧ Q r s2) s1) →
  (∀ e s1, Q (inl e) s1) →
  wp W G (prog_try c k) (λ r s2, vf_step d s s2 ∧ Q r s2) s.
Proof.
  intros Hc Hk HQ. apply wp_try. eapply wp_post; [exact Hc|]. intros [e|a] s1 [H1 HP]; [by split|].
  eapply wp_post; [by apply Hk, HP|]. intros r s2 [H2 Hr]. split; [by etransitivity|done].
Qed.

Lemma wp_BindDriver i driver s :
  wp W G (BindDriverByBusAndDevice hv BusPci (dev i) driver)
    (λ r s', vf_step (dev i) s s' ∧ (r = inr tt → m_driver s' (dev i) = driver)) s.
Proof using All.
  assert (Hb : ∀ s1, wp W G (setDriverOverride hv BusPci (dev i) driver ;;!
      bindDriver hv BusPci (dev i) driver ;;! setDriverOverride hv BusPci (dev i) "")
      (λ r s', vf_step (dev i) s1 s' ∧ (r = inr tt → m_driver s' (dev i) = driver)) s1).
  { intros s1. apply (wp_then _ _ _ (λ _ _, True)); [| |done].
    { eapply wp_post; [apply wp_setDriverOverride|]. intros r s2 (H & _). by split. }
    intros _ s2 _. apply (wp_then _ _ _ (λ _ s3, m_driver s3 (dev i) = driver)); [| |done].
    { eapply wp_post; [apply wp_bindDriver|]. intros r s3 [H3 Hd]. split; [done|]. intros [] ->. auto. }
    intros _ s3 H3. eapply wp_post; [apply wp_setDriverOverride|]. intros r s4 (H4 & Hd & _).
    split; [done|]. intros _. congruence. }
  unfold BindDriverByBusAndDevice.
  apply (wp_then _ _ _ (λ d s1, m_driver s1 (dev i) = d)); [| |done].
  { eapply wp_post; [apply wp_getDriver|]. intros r s1 [H1 Hd]. split; [by apply same_vf_step|auto]. }
  intros d s1 Hd. destruct (negb (String.eqb d "")); [|apply Hb].
  destruct (String.eqb_spec d driver) as [->|]; [by split|].
  apply (wp_then _ _ _ (λ _ _, True)); [| |done].
  { eapply wp_post; [apply wp_UnbindDriver|]. intros r s2 [H2 _]. by split. }
  intros _ s2 _. apply Hb.
Qed.

Lemma wp_BindDpdkDriver i driver s :
  wp W G (BindDpdkDriver hv (dev i) driver)
    (λ r s', vf_step (dev i) s s' ∧ (r = inr tt → m_driver s' (dev i) = driver)) s.
Proof using All.
  unfold BindDpdkDriver. apply wp_bind. eapply wp_post; [apply wp_BindDriver|].
  intros [e|[]] s1 [H1 Hd]; [|by split]. apply wp_req; [by apply reads_careful|].
  intros x s2 s3 [-> _] H3. apply wp_ret. split; [|done]. by eapply vf_step_same.
Qed.

Lemma wp_BindDefaultDriver i s :
  wp W G (BindDefaultDriver hv (dev i))
    (λ r s', vf_step (dev i) s s' ∧ (r = inr tt → m_driver s' (dev i) ∉ DpdkDrivers)) s.
Proof using All.
  assert (Hb : ∀ s1, m_driver s1 (dev i) = "" →
      wp W G (setDriverOverride hv BusPci (dev i) "" ;;! probeDriver hv BusPci (dev i))
      (λ r s', vf_step (dev i) s1 s' ∧ (r = inr tt → m_driver s' (dev i) ∉ DpdkDrivers)) s1).
  { intros s1 H1. apply (wp_then _ _ _ (λ _ s2, m_driver s2 (dev i) = "" ∧ m_override s2 (dev i) = "")); [| |done].
    { eapply wp_post; [apply wp_setDriverOverride|]. intros r s2 (H2 & Hd & Ho). split; [done|].
      intros [] ->. split; [congruence|auto]. }
    intros _ s2 [Hd Ho]. unfold probeDriver. apply wp_writeFile; rewrite ?sysfile_probe; cbn.
    - intros s3 (d & -> & _). apply elsewhere_driver.
    - intros e s3 H3. split; [by apply same_vf_step|done].
    - intros s3 s4 (d & -> & Hp) H4. rewrite Hd, Ho in Hp. cbn in Hp. split.
      + eapply vf_step_same; [apply vf_step_driver|exact H4].
      + intros _. rewrite (sp_driver _ _ _ _ H4). cbn. by rewrite fn_lookup_insert. }
  unfold BindDefaultDriver. apply (wp_then _ _ _ (λ d s1, m_driver s1 (dev i) = d)); [| |done].
  { eapply wp_post; [apply wp_getDriver|]. intros r s1 [H1 Hd]. split; [by apply same_vf_step|auto]. }
  intros d s1 Hd. destruct (String.eqb_spec d "") as [->|Hne]; cbn [negb]; [by apply Hb|].
  destruct (StringInArray d DpdkDrivers) eqn:Hin; cbn [negb].
  - apply (wp_then _ _ _ (λ _ s2, m_driver s2 (dev i) = "")); [| |done].
    { eapply wp_post; [apply wp_UnbindDriver|]. intros r s2 [H2 Hu]. split; [done|]. intros [] ->. auto. }
    intros _ s2 H2. by apply Hb.
  - apply wp_ret. split; [done|]. intros _. rewrite Hd. intros E. apply StringInArray_spec in E. congruence.
Qed.
End drivers.
