(* ===== verification/HostConverge.v ===== *)
(** * Convergence of a PF

    When the configuration of a PF succeeds, the machine has the number of VFs,
    the eswitch mode and the VF drivers that the specification asks for,
    whatever the goroutines of other PFs do meanwhile; the eswitch mode is only
    changed while no VF of the PF has a driver. *)
From stdpp Require Import functions.
From S2P Require Import Prelude GoLib Types VfRange Selector NeedUpdate Effects Parallel.
From S2P Require Import HostSys HostKernel HostNetwork HostDevices Infiniband HostStore HostSriov.
From S2P Require Import HostMachine HostDrivers.

(** ** What the specification asks for *)

(** A userspace driver by name, or else none of those. *)
Definition driver_ok (g : VfGroup) (driver : string) : Prop :=
  if StringInArray (vg_DeviceType g) DpdkDrivers then driver = vg_DeviceType g else driver ∉ DpdkDrivers.

Definition vf_ok (vf : string → nat → string) (iface : Interface) (d : string) (s : Machine) : Prop :=
  ∀ i g, d = vf (if_PciAddress iface) i → groupOf (Z.of_nat i) (if_VfGroups iface) = inr (Some g) →
    driver_ok g (m_driver s d).

(** Of a PF that somebody else manages, at least as many VFs. *)
Record as_asked (vf : string → nat → string) (iface : Interface) (s : Machine) : Prop := {
  aa_numvfs : if if_ExternallyManaged iface then if_NumVfs iface ≤ m_numvfs s (if_PciAddress iface)
              else m_numvfs s (if_PciAddress iface) = if_NumVfs iface;
  aa_eswitch : eswitch s (if_PciAddress iface) = GetEswitchModeFromSpec iface;
  aa_vfs : 0 < if_NumVfs iface → ∀ d, d ∈ vfs vf s (if_PciAddress iface) → vf_ok vf iface d s;
}.

(** The modes the API allows, and a number of VFs that fits. *)
Definition proper (iface : Interface) : Prop :=
  GetEswitchModeFromSpec iface ∈ [ESwithModeLegacy; ESwithModeSwitchDev] ∧ 0 ≤ if_NumVfs iface ≤ max_int64.

Lemma vfs_same vf pf s s' : m_numvfs s' pf = m_numvfs s pf → vfs vf s' pf = vfs vf s pf.
Proof. unfold vfs. by intros ->. Qed.

Lemma eswitch_same pf s s' : m_mode s' pf = m_mode s pf → eswitch s' pf = eswitch s pf.
Proof. unfold eswitch. by intros ->. Qed.

Lemma vfs_index vf s pf d : d ∈ vfs vf s pf → ∃ i, d = vf pf i.
Proof. intros (i & -> & _)%list_elem_of_fmap. by exists i. Qed.

Lemma as_asked_same vf iface s s' : same_pf vf (if_PciAddress iface) s s' → as_asked vf iface s → as_asked vf iface s'.
Proof.
  intros [Hn Hm Hd _] [A1 A2 A3]. split; [by rewrite Hn|by rewrite (eswitch_same _ s s')|].
  rewrite (vfs_same _ _ s s') by done. intros H0 d Hin i g -> Hg. rewrite Hd. by apply (A3 H0 _ Hin i g).
Qed.

Section pf.
Context (hv : HostVars) (vf : string → nat → string) `{!VfAddresses vf} (pf : string).

Abbreviation W := (pf_world hv vf pf).
Abbreviation G := (careful hv vf pf).
Abbreviation same := (same_pf vf pf).
Abbreviation dev i := (vf pf i).

Lemma NoDup_vfs s : NoDup (vfs vf s pf).
Proof using All.
  apply NoDup_fmap_2_strong; [|apply NoDup_seq]. intros i j _ _ E. by apply vf_inj in E as [_ ?].
Qed.

Lemma quiescent_same s s' : same s s' → quiescent vf s pf → quiescent vf s' pf.
Proof.
  intros H Hq d. rewrite (vfs_same _ _ s s') by apply H. intros Hd.
  destruct (vfs_index _ _ _ _ Hd) as [i ->]. rewrite (sp_driver _ _ _ _ H). by apply Hq.
Qed.

(** What holds if the program succeeds. *)
Abbreviation ok P := (λ r s', r = inr tt → P s').

Lemma wp_seq {A B} (c : hostM (HostError + A)) (k : A → hostM (HostError + B)) P Q s :
  wp W G c (λ r s1, ∀ a, r = inr a → P a s1) s →
  (∀ a s1, P a s1 → wp W G (k a) (λ r s2, ∀ b, r = inr b → Q b s2) s1) →
  wp W G (prog_try c k) (λ r s2, ∀ b, r = inr b → Q b s2) s.
Proof.
  intros Hc Hk. apply wp_try. eapply wp_post; [exact Hc|]. intros [e|a] s1 H1; [done|]. by apply Hk, H1.
Qed.

(** A program that reads, in front. *)
Lemma wp_seq_reading {A B} (c : hostM (HostError + A)) (k : A → hostM (HostError + B)) Q s :
  only (reads hv) c →
  (∀ a s1, same s s1 → wp W G (k a) (λ r s2, ∀ b, r = inr b → Q b s2) s1) →
  wp W G (prog_try c k) (λ r s2, ∀ b, r = inr b → Q b s2) s.
Proof.
  intros Hc Hk. apply (wp_seq _ _ (λ _ s1, same s s1)); [|done].
  apply wp_reading; [done|]. auto.
Qed.

(** ** Lists of VFs *)

Definition pf_kept (s s' : Machine) : Prop := m_numvfs s' pf = m_numvfs s pf ∧ m_mode s' pf = m_mode s pf.

Lemma wp_each_vf (f : string → hostM (HostError + unit)) (P : string → Machine → Prop) l s :
  (∀ i s, wp W G (f (dev i)) (λ r s', vf_step vf pf (dev i) s s' ∧ (r = inr tt → P (dev i) s')) s) →
  (∀ i d s s', dev i ≠ d → vf_step vf pf d s s' → P (dev i) s → P (dev i) s') →
  NoDup l → (∀ d, d ∈ l → ∃ i, d = dev i) →
  wp W G (each l f) (λ r s', pf_kept s s' ∧ (∀ d i, d = dev i → d ∉ l → P d s → P d s') ∧
                             (r = inr tt → ∀ d, d ∈ l → P d s')) s.
Proof using All.
  intros Hf HP Hnd. revert s. induction Hnd as [|d l Hd Hnd IH]; intros s Hl; cbn [each].
  { split_and!; [done|done|]. intros _ d Hd. by apply elem_of_nil in Hd. }
  destruct (Hl d) as [i ->]; [by left|]. apply wp_try. eapply wp_post; [apply Hf|].
  intros [e|[]] s1 [H1 Hp].
  { split_and!; [by destruct H1| |done]. intros d j -> Hj Hpj. eapply HP; [|exact H1|done].
    intros E. apply Hj. rewrite E. by left. }
  eapply wp_post; [apply IH; set_solver|]. intros r s2 ((A1 & A2) & A3 & A4). destruct H1 as [B1 B2 B3] eqn:E1.
  split_and!.
  - split; congruence.
  - intros d j -> Hj Hpj. apply (A3 _ j); [done|set_solver|]. eapply HP; [|exact H1|done]. set_solver.
  - intros -> d [->|Hin]%elem_of_cons; [|by apply A4]. apply (A3 _ i); [done|done|]. auto.
Qed.

Lemma wp_unbindAll s :
  wp W G (unbindAllVFsOnPF hv pf) (λ r s', pf_kept s s' ∧ (r = inr tt → quiescent vf s' pf)) s.
Proof using All.
  unfold unbindAllVFsOnPF, wrapping, sys. apply wp_try, wp_bind, wp_req; [by apply reads_careful|].
  intros x s1 s2 [-> Hx] Hs. destruct x as [e|l]; [done|]. cbn -[Unbind each].
  assert (Hk : pf_kept s s2) by (split; apply Hs).
  eapply wp_post; [apply (wp_each_vf _ (λ d s, m_driver s d = ""))|].
  - intros i s3. apply wp_bind. eapply wp_post; [apply (wp_UnbindDriver hv vf pf)|]. intros [e|[]] s4 [H4 Hd]; (split; [exact H4|]); [done|auto].
  - intros i d s3 s4 Hne H4 Hi. by rewrite (vs_driver _ _ _ _ _ H4).
  - rewrite Hx. apply NoDup_vfs.
  - intros d. rewrite Hx. apply vfs_index.
  - intros r s3 ([A1 A2] & _ & A3). destruct Hk as [B1 B2]. split; [split; congruence|]. intros -> d Hd.
    apply A3; [done|]. rewrite Hx. rewrite (vfs_same _ _ s s3) in Hd by congruence. done.
Qed.

(** ** Eswitch mode and number of VFs *)

Lemma wp_GetNicSriovMode s :
  wp W G (GetNicSriovMode pf) (λ m s', same s s' ∧ m = eswitch s' pf) s.
Proof.
  unfold GetNicSriovMode. apply wp_req; [by apply reads_careful|]. intros x s1 s2 [-> Hx] Hs.
  apply wp_ret. split; [done|]. rewrite (eswitch_same _ s s2) by apply Hs. unfold eswitch.
  destruct x as [e|m]; [by rewrite Hx|]. by rewrite Hx.
Qed.

Lemma wp_SetNicSriovMode m s :
  m ≠ "" → quiescent vf s pf →
  wp W G (SetNicSriovMode pf m) (λ r s', m_numvfs s' pf = m_numvfs s pf ∧ (r = inr tt → eswitch s' pf = m)) s.
Proof.
  intros Hm Hq. unfold SetNicSriovMode. apply wp_try.
  apply wp_reading; [apply reading_wrapping, reading_sys, reading_request; done|].
  intros [e|?] s1 H1; [split; [apply H1|done]|]. unfold wrapping, sysE. apply wp_bind, wp_req.
  { split; [|split; [done|by eapply quiescent_same]]. intros [e|] s2; cbn; intros ->; [by split|].
    apply elsewhere_mode. }
  intros [e|] s2 s3; cbn; intros -> H3.
  - split; [|done]. rewrite (sp_numvfs _ _ _ _ H3). apply H1.
  - split; [rewrite (sp_numvfs _ _ _ _ H3); apply H1|]. intros _.
    rewrite (eswitch_same _ (set_mode s1 pf m)) by apply H3. unfold eswitch. cbn. rewrite fn_lookup_insert.
    by rewrite (proj2 (String.eqb_neq m "")).
Qed.

Lemma wp_writeNumVfs n s :
  0 ≤ n ≤ max_int64 →
  wp W G (sysE (perform (WriteFile (pciDevice hv pf ++ [NumVfsFile]) (Itoa n))))
    (λ r s', m_mode s' pf = m_mode s pf ∧ (r = inr tt → m_numvfs s' pf = n)) s.
Proof using All.
  intros Hn. apply wp_writeFile; rewrite ?sysfile_numvfs; cbn.
  - intros s1 (n' & _ & _ & H1). by eapply elsewhere_numvfs.
  - intros e s2 H2. split; [apply H2|done].
  - intros s1 s2 (n' & Ha & _ & Hr) H2. rewrite Atoi_Itoa in Ha by lia. injection Ha as <-.
    destruct Hr as (R1 & R2 & _ & _). split.
    + rewrite (sp_mode _ _ _ _ H2), R2. done.
    + intros _. rewrite (sp_numvfs _ _ _ _ H2), R1. cbn. by rewrite fn_lookup_insert.
Qed.

Lemma wp_SetSriovNumVfs n s :
  0 ≤ n ≤ max_int64 →
  wp W G (SetSriovNumVfs hv pf n) (λ r s', m_mode s' pf = m_mode s pf ∧ (r = inr tt → m_numvfs s' pf = n)) s.
Proof using All.
  intros Hn. unfold SetSriovNumVfs.
  assert (Hset : ∀ s1, m_mode s1 pf = m_mode s pf →
    wp W G (sysE (perform (WriteFile (pciDevice hv pf ++ [NumVfsFile]) "0")) ;;!
      (if n =? 0 then Ret (inr tt) else sysE (perform (WriteFile (pciDevice hv pf ++ [NumVfsFile]) (Itoa n)))))
      (λ r s', m_mode s' pf = m_mode s pf ∧ (r = inr tt → m_numvfs s' pf = n)) s1).
  { intros s1 H1. apply wp_try. eapply wp_post; [apply (wp_writeNumVfs 0); unfold max_int64; lia|].
    intros [e|[]] s2 [H2 Hn2]; [split; [congruence|done]|].
    destruct (Z.eqb_spec n 0) as [->|]; [split; [congruence|auto]|].
    eapply wp_post; [by apply wp_writeNumVfs|]. intros r s3 [H3 Hn3]. split; [congruence|done]. }
  destruct (Z.eqb_spec n 0) as [->|]; [|by apply Hset].
  apply wp_req; [by apply reads_careful|]. intros x s1 s2 [-> Hx] H2. rewrite sysfile_numvfs in Hx.
  destruct x as [e|]; cbn; [unfold is_not_exist; case_bool_decide; subst|].
  - apply wp_ret. split; [apply H2|]. intros _. rewrite (sp_numvfs _ _ _ _ H2). by apply Hx.
  - apply Hset. apply H2.
  - apply Hset. apply H2.
Qed.

(** The number of VFs, and the mode if it is one of the two. *)
Definition pf_set (desired : string) (n : Z) (s : Machine) : Prop :=
  m_numvfs s pf = n ∧ (desired ∈ [ESwithModeLegacy; ESwithModeSwitchDev] → eswitch s pf = desired).

Lemma pf_set_same desired n s s' : same s s' → pf_set desired n s → pf_set desired n s'.
Proof.
  intros H [H1 H2]. split; [rewrite (sp_numvfs _ _ _ _ H); done|].
  rewrite (eswitch_same _ s s') by apply H. done.
Qed.

(** Unbind the VFs, then set the mode. *)
Lemma wp_unbindAndSet m s :
  m ≠ "" →
  wp W G (unbindAllVFsOnPF hv pf ;;! SetNicSriovMode pf m)
    (λ r s', m_numvfs s' pf = m_numvfs s pf ∧ (r = inr tt → eswitch s' pf = m)) s.
Proof using All.
  intros Hm. apply wp_try. eapply wp_post; [apply wp_unbindAll|]. intros [e|[]] s1 [[H1 _] Hq]; [by split|].
  eapply wp_post; [apply wp_SetNicSriovMode; auto|]. intros r s2 [H2 He]. split; [congruence|done].
Qed.

Lemma wp_setEswitchMlx desired n s :
  0 ≤ n ≤ max_int64 →
  wp W G (setEswitchModeAndNumVFsMlx hv pf desired n) (λ r s', ∀ u, r = inr u → pf_set desired n s') s.
Proof using All.
  intros Hn. unfold setEswitchModeAndNumVFsMlx. apply wp_bind. eapply wp_post; [apply wp_GetNicSriovMode|].
  intros mode s1 [H1 Hmode]. apply (wp_seq _ _ (λ _ s2, eswitch s2 pf = ESwithModeLegacy)).
  { destruct (String.eqb_spec mode ESwithModeLegacy) as [->|]; cbn [negb]; [by intros ? _|].
    apply wp_seq_reading; [solve [auto with steady]|]. intros _ s2 H2.
    eapply wp_post; [by apply wp_unbindAndSet|]. intros r s3 [_ H3] [] ->. auto. }
  intros _ s2 Hl. apply (wp_seq _ _ (λ _ s3, m_numvfs s3 pf = n ∧ eswitch s3 pf = ESwithModeLegacy)).
  { eapply wp_post; [by apply wp_SetSriovNumVfs|]. intros r s3 [Hm Hk] [] ->. split; [auto|].
    by rewrite (eswitch_same _ s2 s3). }
  intros _ s3 [Hk Hl3]. apply wp_seq_reading; [solve [auto with steady]|]. intros _ s4 H4.
  destruct (String.eqb_spec desired ESwithModeSwitchDev) as [->|Hne].
  - eapply wp_post; [by apply wp_unbindAndSet|]. intros r s5 [H5 He] [] ->. split; [|auto].
    rewrite H5, (sp_numvfs _ _ _ _ H4). done.
  - intros _ _. eapply pf_set_same; [exact H4|]. split; [done|]. intros Hin.
    assert (desired = ESwithModeLegacy) as -> by set_solver. done.
Qed.

Lemma wp_setEswitchIce desired n s :
  desired ≠ "" → 0 ≤ n ≤ max_int64 →
  wp W G (setEswitchModeAndNumVFsIce hv pf desired n) (λ r s', ∀ u, r = inr u → pf_set desired n s') s.
Proof using All.
  intros Hd Hn. unfold setEswitchModeAndNumVFsIce. apply wp_bind. eapply wp_post; [apply wp_GetNicSriovMode|].
  intros mode s1 [H1 Hmode]. apply (wp_seq _ _ (λ _ s2, eswitch s2 pf = desired)).
  { destruct (String.eqb_spec mode desired) as [->|]; cbn [negb]; [by intros ? _|].
    apply (wp_seq _ _ (λ _ s2, m_numvfs s2 pf = 0)).
    { eapply wp_post; [apply wp_SetSriovNumVfs; unfold max_int64; lia|]. intros r s2 [_ Hk] [] ->. auto. }
    intros _ s2 Hk. eapply wp_post; [apply wp_SetNicSriovMode; [done|]|].
    - intros d Hin. unfold vfs in Hin. rewrite Hk in Hin. by apply elem_of_nil in Hin.
    - intros r s3 [_ He] [] ->. auto. }
  intros _ s2 He. eapply wp_post; [by apply wp_SetSriovNumVfs|]. intros r s3 [Hm Hk] [] ->. split; [auto|].
  intros _. by rewrite (eswitch_same _ s2 s3).
Qed.

Lemma wp_setEswitch desired n s :
  desired ≠ "" → 0 ≤ n ≤ max_int64 →
  wp W G (setEswitchModeAndNumVFs hv pf desired n) (λ r s', ∀ u, r = inr u → pf_set desired n s') s.
Proof using All.
  intros Hd Hn. unfold setEswitchModeAndNumVFs. apply wp_seq_reading; [apply reading_sys, reading_request; done|].
  intros driver s1 _. destruct (String.eqb driver "ice"); [by apply wp_setEswitchIce|by apply wp_setEswitchMlx].
Qed.

Lemma GetEswitchModeFromSpec_nonempty i : GetEswitchModeFromSpec i ≠ "".
Proof. unfold GetEswitchModeFromSpec. by destruct (String.eqb_spec (if_EswitchMode i) ""). Qed.

Lemma wp_createVFs iface s :
  if_PciAddress iface = pf → 0 ≤ if_NumVfs iface ≤ max_int64 →
  wp W G (createVFs hv iface)
    (λ r s', ∀ u, r = inr u → pf_set (GetEswitchModeFromSpec iface) (if_NumVfs iface) s') s.
Proof using All.
  intros Hpf Hn. unfold createVFs. rewrite Hpf.
  assert (Hc : ∀ s1, wp W G
    ((if String.eqb (GetEswitchModeFromSpec iface) ESwithModeSwitchDev then
        wrapping "failed to clean managed bridge before creating VFs"
          (detachUplinkAndVFRepresentorsFromBridge hv pf)
      else Ret (inr tt)) ;;!
     setEswitchModeAndNumVFs hv pf (GetEswitchModeFromSpec iface) (if_NumVfs iface))
    (λ r s', ∀ u, r = inr u → pf_set (GetEswitchModeFromSpec iface) (if_NumVfs iface) s') s1).
  { intros s1. apply wp_seq_reading; [steady|]. intros _ s2 _.
    by apply wp_setEswitch; [apply GetEswitchModeFromSpec_nonempty|]. }
  apply wp_req; [by apply reads_careful|]. intros x s1 s2 [-> ->] H2.
  destruct (Z.eqb_spec (m_numvfs s pf) (if_NumVfs iface)); [|apply Hc].
  apply wp_bind. eapply wp_post; [apply wp_GetNicSriovMode|]. intros mode s3 [H3 Hm].
  destruct (String.eqb_spec mode (GetEswitchModeFromSpec iface)); [|apply Hc].
  intros _ _. split; [|congruence]. rewrite (sp_numvfs _ _ _ _ H3), (sp_numvfs _ _ _ _ H2). done.
Qed.

Lemma wp_configureHWOptions iface s :
  if_PciAddress iface = pf →
  wp W G (configureHWOptionsForSwitchdev hv iface) (λ r s', ∀ u, r = inr u → True) s.
Proof using All.
  intros Hpf. unfold configureHWOptionsForSwitchdev. rewrite Hpf. destruct (negb (isSwitchdevSpec iface)); [done|].
  apply wp_seq_reading; [solve [auto with steady]|]. intros _ s1 _. apply wp_bind.
  apply wp_reading; [solve [auto with steady]|]. intros [e|mode] s2 _; [by destruct (_ || _)|].
  destruct (_ || _); [done|]. apply wp_bind. eapply wp_post; [apply wp_GetNicSriovMode|]. intros m s3 _.
  apply (wp_seq _ _ (λ _ _, True)).
  - destruct (negb _); [|done]. eapply wp_post; [apply wp_setEswitch; [done|unfold max_int64; lia]|done].
  - intros _ s4 _. apply wp_bind, wp_reading; [solve [auto with steady]|done].
Qed.

Lemma wp_configSriovPFDevice iface s :
  if_PciAddress iface = pf → 0 ≤ if_NumVfs iface ≤ max_int64 →
  wp W G (configSriovPFDevice hv iface)
    (λ r s', ∀ u, r = inr u → pf_set (GetEswitchModeFromSpec iface) (if_NumVfs iface) s') s.
Proof using All.
  intros Hpf Hn. unfold configSriovPFDevice. rewrite Hpf. apply wp_req; [by apply reads_careful|].
  intros total s1 s2 _ _. destruct (_ <? _); [done|].
  apply (wp_seq _ _ (λ _ _, True)); [by apply wp_configureHWOptions|]. intros _ s3 _.
  apply wp_seq_reading; [solve [auto with steady]|]. intros _ s4 _.
  apply wp_seq_reading; [solve [auto with steady]|]. intros _ s5 _.
  apply (wp_seq _ _ (λ _, pf_set (GetEswitchModeFromSpec iface) (if_NumVfs iface))); [by apply wp_createVFs|].
  intros _ s6 H4.
  apply wp_seq_reading; [solve [auto with steady]|]. intros _ s7 H5. apply wp_reading; [steady|].
  intros r s8 H6 _ _. eapply pf_set_same; [|exact H4]. by etransitivity.
Qed.

(** ** The VFs *)

Lemma wp_then_reading {A B} (c : hostM (HostError + A)) (k : A → hostM (HostError + B)) d Q s :
  only (reads hv) c →
  (∀ a s1, same s s1 → wp W G (k a) (λ r s2, vf_step vf pf d s1 s2 ∧ Q r s2) s1) →
  (∀ e s1, Q (inl e) s1) →
  wp W G (prog_try c k) (λ r s2, vf_step vf pf d s s2 ∧ Q r s2) s.
Proof.
  intros Hc Hk HQ. apply (wp_then _ _ _ _ _ _ (λ _ s1, same s s1)); [|done|done].
  apply wp_reading; [done|]. intros r s1 H1. split; [by apply same_vf_step|done].
Qed.

(** Programs that only concern the VF. *)
Lemma wp_Unbind i s : wp W G (Unbind hv (dev i)) (λ _ s', vf_step vf pf (dev i) s s' ∧ True) s.
Proof using All. eapply wp_post; [apply (wp_UnbindDriver hv vf pf)|]. intros r s1 [H1 _]. by split. Qed.

Lemma wp_Rebind i s : wp W G (RebindVfToDefaultDriver hv (dev i)) (λ _ s', vf_step vf pf (dev i) s s' ∧ True) s.
Proof using All.
  unfold RebindVfToDefaultDriver. apply (wp_then _ _ _ _ _ _ (λ _ _, True)); [| |done].
  { eapply wp_post; [apply wp_Unbind|]. intros r s1 [H1 _]. by split. }
  intros _ s1 _. eapply wp_post; [apply (wp_BindDefaultDriver hv vf pf)|]. intros r s2 [H2 _]. by split.
Qed.

Lemma wp_configVfAddress pool iface link i id s :
  wp W G (configVfAddress hv pool iface link (dev i) id) (λ _ s', vf_step vf pf (dev i) s s' ∧ True) s.
Proof using All.
  unfold configVfAddress. apply wp_bind, wp_reading; [steady|]. intros lt s1 H1.
  apply (wp_post W G _ (λ _ s', vf_step vf pf (dev i) s1 s' ∧ True)).
  2: { intros r s2 [H2 _]. split; [|done]. etransitivity; [by apply same_vf_step|done]. }
  destruct (EqualFold lt LinkTypeIB).
  { apply wp_then_reading; [solve [auto with steady]| |done]. intros _ s2 _. apply wp_Unbind. }
  apply wp_bind, wp_reading; [solve [auto with steady]|]. intros ready s2 H2.
  apply (wp_post W G _ (λ _ s', vf_step vf pf (dev i) s2 s' ∧ True)).
  2: { intros r s3 [H3 _]. split; [|done]. etransitivity; [by apply same_vf_step|done]. }
  apply (wp_then _ _ _ _ _ _ (λ _ _, True)); [| |done].
  - destruct ready as [e|l]; [|by split].
    apply (wp_then _ _ _ _ _ _ (λ _ _, True)); [| |done].
    { eapply wp_post; [apply wp_Rebind|]. intros r s3 [H3 _]. by split. }
    intros _ s3 _. apply wp_reading; [solve [auto with steady]|]. intros r s4 H4. split; [by apply same_vf_step|done].
  - intros l s3 _. apply wp_reading; [solve [auto with steady]|]. intros r s4 H4. split; [by apply same_vf_step|done].
Qed.

Lemma wp_configVfDriver iface g i s :
  wp W G (configVfDriver hv iface g (dev i))
    (λ r s', vf_step vf pf (dev i) s s' ∧ (r = inr tt → driver_ok g (m_driver s' (dev i)))) s.
Proof using All.
  unfold configVfDriver, driver_ok. apply (wp_then _ _ _ _ _ _ (λ _ _, True)); [| |done].
  { unfold UnbindDriverIfNeeded. destruct (vg_IsRdma g); [|by split].
    eapply wp_post; [apply wp_Unbind|]. intros r s1 [H1 _]. by split. }
  intros _ s1 _. apply wp_then_reading; [steady| |done]. intros _ s2 _.
  destruct (StringInArray (vg_DeviceType g) DpdkDrivers); cbn [negb]; [apply (wp_BindDpdkDriver hv vf pf)|].
  apply (wp_then _ _ _ _ _ _ (λ _ s3, m_driver s3 (dev i) ∉ DpdkDrivers)); [| |done].
  { eapply wp_post; [apply (wp_BindDefaultDriver hv vf pf)|]. intros r s3 [H3 Hd]. split; [done|]. by intros [] ->; auto. }
  intros _ s3 H3. apply wp_reading; [steady|]. intros r s4 H4. split; [by apply same_vf_step|].
  intros _. by rewrite (sp_driver _ _ _ _ H4).
Qed.

Lemma wp_configVF pool iface link i s :
  if_PciAddress iface = pf →
  wp W G (configVF hv pool iface link (dev i))
    (λ r s', vf_step vf pf (dev i) s s' ∧ (r = inr tt → vf_ok vf iface (dev i) s')) s.
Proof using All.
  intros Hpf. unfold configVF. apply wp_bind, wp_reading; [solve [auto with steady]|]. intros [has drv] s1 H1.
  apply (wp_post W G _ (λ r s', vf_step vf pf (dev i) s1 s' ∧ (r = inr tt → vf_ok vf iface (dev i) s'))).
  2: { intros r s2 [H2 Hr]. split; [|done]. etransitivity; [by apply same_vf_step|done]. }
  apply (wp_then _ _ _ _ _ _ (λ _ _, True)); [| |done].
  { destruct (negb has); [|by split]. eapply wp_post; [apply (wp_BindDefaultDriver hv vf pf)|].
    intros r s2 [H2 _]. by split. }
  intros _ s2 _. apply (wp_then _ _ _ _ _ _ (λ id _, id = Z.of_nat i)); [| |done].
  { apply wp_req; [by apply reads_careful|]. intros x s3 s4 [-> Hx] H4. apply wp_ret.
    split; [by apply same_vf_step|]. destruct (Hx pf i eq_refl) as [->|[e ->]]; [|done]. by intros ? [= ->]. }
  intros id s3 ->. destruct (groupOf (Z.of_nat i) (if_VfGroups iface)) as [e|[g|]] eqn:Hg.
  - by split.
  - apply wp_bind, wp_reading; [solve [auto with steady]|]. intros [yes d] s4 H4.
    apply (wp_post W G _ (λ r s', vf_step vf pf (dev i) s4 s' ∧ (r = inr tt → driver_ok g (m_driver s' (dev i))))).
    + apply (wp_then _ _ _ _ _ _ (λ _ _, True)); [| |done].
      { destruct (yes && _); [|by split]. eapply wp_post; [apply wp_configVfAddress|]. intros r s5 [H5 _]. by split. }
      intros _ s5 _. apply wp_configVfDriver.
    + intros r s5 [H5 Hr]. split; [etransitivity; [by apply same_vf_step|done]|]. intros -> j g' Ej Hg'.
      rewrite Hpf in Ej. apply vf_inj in Ej as [_ <-]. rewrite Hg in Hg'. injection Hg' as <-. auto.
  - apply wp_ret. split; [done|]. intros _ j g' Ej Hg'. rewrite Hpf in Ej. apply vf_inj in Ej as [_ <-]. congruence.
Qed.

(** ** The device *)

Lemma wp_configSriovVFDevices pool iface s :
  if_PciAddress iface = pf →
  wp W G (configSriovVFDevices hv pool iface)
    (λ r s', pf_kept s s' ∧ (r = inr tt → 0 < if_NumVfs iface → ∀ d, d ∈ vfs vf s' pf → vf_ok vf iface d s')) s.
Proof using All.
  intros Hpf. unfold configSriovVFDevices. rewrite Hpf. destruct (Z.ltb_spec 0 (if_NumVfs iface));
    [|by split; [|lia]].
  apply wp_req; [by apply reads_careful|]. intros x s1 s2 [-> Hx] H2. destruct x as [e|l]; [done|].
  apply wp_try, wp_reading; [apply reading_sys, reading_request; done|]. intros [e|link] s3 H3.
  { split; [|done]. split; [rewrite (sp_numvfs _ _ _ _ H3); apply H2|rewrite (sp_mode _ _ _ _ H3); apply H2]. }
  eapply wp_post; [apply (wp_each_vf _ (vf_ok vf iface))|].
  - intros i s4. by apply wp_configVF.
  - intros i d s4 s5 Hne H5 Hok j g Ej Hg. rewrite (vs_driver _ _ _ _ _ H5) by done. by apply (Hok j g).
  - rewrite Hx. apply NoDup_vfs.
  - intros d. rewrite Hx. apply vfs_index.
  - assert (Hk : pf_kept s s3).
    { split; [rewrite (sp_numvfs _ _ _ _ H3); apply H2|rewrite (sp_mode _ _ _ _ H3); apply H2]. }
    intros r s4 ([A1 A2] & _ & A3). destruct Hk as [B1 B2]. split; [split; congruence|].
    intros -> _ d. rewrite (vfs_same _ _ s s4) by congruence. rewrite <- Hx. by apply A3.
Qed.

Lemma reading_linkUp iface :
  only (reads hv) (pfLink ⇐ sys (perform (LinkByName (if_Name iface)));
    if negb (l_Up pfLink) then sysE (perform (LinkSetUp pfLink)) else Ret (inr tt)).
Proof.
  refine (steady_try _ _ _ _ _ _ _); [apply reading_sys, reading_request; done|]. intros l.
  destruct (negb (l_Up l)); [apply reading_sysE, reading_request; done|steady].
Qed.

Lemma wp_checkExternallyManagedPF iface s :
  if_PciAddress iface = pf →
  wp W G (checkExternallyManagedPF hv iface)
    (λ r s', ∀ u, r = inr u → if_NumVfs iface ≤ m_numvfs s' pf ∧ eswitch s' pf = GetEswitchModeFromSpec iface) s.
Proof.
  intros Hpf. unfold checkExternallyManagedPF. rewrite Hpf. apply wp_req; [by apply reads_careful|].
  intros x s1 s2 [-> ->] H2. destruct (Z.ltb_spec (m_numvfs s pf) (if_NumVfs iface)); [done|].
  apply wp_bind. eapply wp_post; [apply wp_GetNicSriovMode|]. intros m s3 [H3 ->].
  destruct (String.eqb_spec (eswitch s3 pf) (GetEswitchModeFromSpec iface)) as [E|]; [|done]. cbn [negb].
  apply wp_bind, wp_reading; [solve [auto with steady]|]. intros mtu s4 H4.
  destruct (_ && _); [done|]. apply wp_ret. intros _ _.
  rewrite (sp_numvfs _ _ _ _ H4), (sp_numvfs _ _ _ _ H3), (sp_numvfs _ _ _ _ H2). split; [done|].
  by rewrite (eswitch_same _ s3 s4) by apply H4.
Qed.

(** The number of VFs and the mode that [as_asked] wants. *)
Definition pf_asked (iface : Interface) (s : Machine) : Prop :=
  (if if_ExternallyManaged iface then if_NumVfs iface ≤ m_numvfs s pf else m_numvfs s pf = if_NumVfs iface) ∧
  eswitch s pf = GetEswitchModeFromSpec iface.

Lemma pf_asked_kept iface s s' : pf_kept s s' → pf_asked iface s → pf_asked iface s'.
Proof. intros [H1 H2] [A1 A2]. split; [by rewrite H1|by rewrite (eswitch_same _ s s')]. Qed.

Lemma wp_configSriovDevice pool iface s :
  if_PciAddress iface = pf → proper iface →
  wp W G (configSriovDevice hv pool iface false) (λ r s', ∀ u, r = inr u → as_asked vf iface s') s.
Proof using All.
  intros Hpf [Hmode Hn]. unfold configSriovDevice. set (ext := if_ExternallyManaged iface).
  apply (wp_seq _ _ (λ _ s1, ext = false → pf_set (GetEswitchModeFromSpec iface) (if_NumVfs iface) s1)).
  { destruct ext; cbn [negb]; [by intros ? _|].
    eapply wp_post; [by apply wp_configSriovPFDevice|]. intros r s1 H u Hu _. by eapply H. }
  intros _ s1 H1. apply (wp_seq _ _ (λ _, pf_asked iface)).
  { unfold pf_asked. fold ext. destruct ext; [by apply wp_checkExternallyManagedPF|].
    intros _ _. destruct (H1 eq_refl) as [? ?]. auto. }
  intros _ s2 H2. apply (wp_seq _ _ (λ _, as_asked vf iface)).
  - eapply wp_post; [by apply wp_configSriovVFDevices|]. intros r s3 [A1 A2] [] ->.
    destruct (pf_asked_kept _ _ _ A1 H2) as [B1 B2]. split; rewrite Hpf; auto.
  - intros _ s3 H3. apply wp_reading; [apply reading_linkUp|]. intros r s4 H4 _ _.
    eapply as_asked_same; [|exact H3]. by rewrite Hpf.
Qed.

(** In a first pass, only the PF itself; its VFs are left unbound. *)
Lemma wp_configSriovDevice_skip pool iface s :
  if_PciAddress iface = pf → proper iface →
  wp W G (configSriovDevice hv pool iface true)
    (λ r s', ∀ u, r = inr u → if_ExternallyManaged iface = false → pf_asked iface s' ∧ quiescent vf s' pf) s.
Proof using All.
  intros Hpf [Hmode Hn]. unfold configSriovDevice. rewrite Hpf. unfold pf_asked.
  destruct (if_ExternallyManaged iface); cbn [negb]; [by intros u _|].
  apply (wp_seq _ _ (λ _, pf_set (GetEswitchModeFromSpec iface) (if_NumVfs iface)));
    [by apply wp_configSriovPFDevice|]. intros _ s1 [H1 He].
  eapply wp_post; [apply wp_unbindAll|]. intros r s2 [[A1 A2] A3] [] -> _. split; [|auto].
  split; [congruence|]. rewrite (eswitch_same _ s1 s2) by done. auto.
Qed.

Lemma GetEswitchModeFromStatus_nonempty i : GetEswitchModeFromStatus i ≠ "".
Proof. unfold GetEswitchModeFromStatus. by destruct (String.eqb_spec (ie_EswitchMode i) ""). Qed.

Lemma wp_ResetSriovDevice initial st s :
  ie_PciAddress st = pf →
  wp W G (ResetSriovDevice hv initial st)
    (λ r s', ∀ u, r = inr u → ie_LinkType st ∈ [LinkTypeETH; LinkTypeIB] → m_numvfs s' pf = 0) s.
Proof using All.
  intros Hpf. unfold ResetSriovDevice. rewrite Hpf.
  destruct (String.eqb_spec (ie_LinkType st) LinkTypeETH) as [E|E].
  { set (w := match GetInterfaceStateByPciAddress initial pf with Some _ => _ | None => _ end).
    assert (Hne : w.2 ≠ "").
    { subst w. destruct (GetInterfaceStateByPciAddress initial pf); [apply GetEswitchModeFromStatus_nonempty|done]. }
    destruct w as [mtu mode]. apply wp_seq_reading; [solve [auto with steady]|]. intros _ s1 _.
    eapply wp_post; [apply wp_setEswitch; [exact Hne|unfold max_int64; lia]|].
    intros r s2 H u Hu _. by destruct (H u Hu). }
  destruct (String.eqb_spec (ie_LinkType st) LinkTypeIB) as [E'|E'].
  - apply (wp_seq _ _ (λ _ s1, m_numvfs s1 pf = 0)).
    + eapply wp_post; [apply wp_SetSriovNumVfs; unfold max_int64; lia|]. intros r s1 [_ H] [] ->. auto.
    + intros _ s1 H1. apply wp_reading; [solve [auto with steady]|]. intros r s2 H2 u _ _.
      by rewrite (sp_numvfs _ _ _ _ H2).
  - intros u _ Hin. exfalso. set_solver.
Qed.
End pf.
