(* ===== verification/HostConfig.v ===== *)
(** * The whole configuration

    [ConfigSriovInterfaces] on the machine: what is the case when it succeeds,
    for the PFs the specification lists, for those it no longer lists and for
    all others, whether the PFs are configured one after the other or all at
    once in any interleaving. *)
From stdpp Require Import functions.
From S2P Require Import Prelude GoLib Types VfRange Selector NeedUpdate Effects Parallel.
From S2P Require Import HostSys HostKernel HostNetwork HostDevices Infiniband HostStore HostSriov.
From S2P Require Import HostMachine HostDrivers HostConverge.

(** ** Who relies on what *)

(** While PFs are configured: the goroutine of a PF has that PF, and the main
    routine has the store. *)
Definition config_rely (vf : string → nat → string) (i : option string) (s s' : Machine) : Prop :=
  match i with
  | Some pf => same_pf vf pf s s'
  | None => m_store s' = m_store s
  end.

Definition config_careful hv vf (i : option string) (s : Machine) (r : HostReq) : Prop :=
  match i with Some pf => careful hv vf pf s r | None => False end.

(** While PFs are reset: the goroutine of a PF has that PF and its file. *)
Definition reset_rely (vf : string → nat → string) (pf : string) (s s' : Machine) : Prop :=
  same_pf vf pf s s' ∧ m_store s' pf = m_store s pf.

Definition reset_careful hv vf (pf : string) (s : Machine) (r : HostReq) : Prop :=
  (∀ x s', kernel hv vf s r x s' → ∀ b, b ≠ pf → reset_rely vf b s s') ∧
  match r with DevLinkSetEswitchMode _ a _ => a = pf ∧ quiescent vf s pf | _ => True end.

(** The eswitch mode of a PF is changed only while its VFs are unbound. *)
Definition eswitch_guard (vf : string → nat → string) (s : Machine) (r : HostReq) : Prop :=
  match r with DevLinkSetEswitchMode _ a _ => quiescent vf s a | _ => True end.

#[export] Instance config_rely_preorder vf i : PreOrder (config_rely vf i).
Proof.
  destruct i as [pf|]; cbn; [apply same_pf_preorder|]. split; [done|]. intros s t u H1 H2. cbn in *. congruence.
Qed.

#[export] Instance reset_rely_preorder vf pf : PreOrder (reset_rely vf pf).
Proof.
  split; [by split|]. intros s t u [A1 A2] [B1 B2]. split; [by transitivity t|congruence].
Qed.

Section config.
Context (hv : HostVars) (vf : string → nat → string) `{!VfAddresses vf}.
Context (MarshalInterface : Interface → string + string)
        (UnmarshalInterface : string → string + Interface).
Context (InitialState : SriovNetworkNodeState) (guidPool : option (gmap string ibPfGUIDConfig)).

Abbreviation W0 := (alone (kernel hv vf)).
Abbreviation E := (eswitch_guard vf).

Lemma config_compat i s r x s' :
  config_careful hv vf i s r → kernel hv vf s r x s' → ∀ j, j ≠ i → config_rely vf j s s'.
Proof.
  destruct i as [pf|]; [|done]. intros [H _] Hk j Hj. destruct (H _ _ Hk) as [Hs Hp].
  destruct j as [b|]; [apply Hp; congruence|done].
Qed.

Lemma reset_compat pf s r x s' :
  reset_careful hv vf pf s r → kernel hv vf s r x s' → ∀ j, j ≠ pf → reset_rely vf j s s'.
Proof. intros [H _] Hk j Hj. by eapply H. Qed.

Lemma config_guard i s r : config_careful hv vf i s r → E s r.
Proof. destruct i as [pf|]; [|done]. intros [_ H]. destruct r; try done. by destruct H as [-> ?]. Qed.

Lemma reset_guard pf s r : reset_careful hv vf pf s r → E s r.
Proof. intros [_ H]. destruct r; try done. by destruct H as [-> ?]. Qed.

(** ** The goroutines *)

(** What is the case when a PF was configured. *)
Definition configured (skip : bool) (iface : Interface) (s : Machine) : Prop :=
  if skip then if_ExternallyManaged iface = false →
               pf_asked (if_PciAddress iface) iface s ∧ quiescent vf s (if_PciAddress iface)
  else as_asked vf iface s.

Lemma configured_same skip iface s s' :
  same_pf vf (if_PciAddress iface) s s' → configured skip iface s → configured skip iface s'.
Proof.
  intros H. unfold configured. destruct skip; [|by apply as_asked_same]. intros Hc He.
  destruct (Hc He) as [Ha Hq]. split; [|by eapply quiescent_same]. eapply pf_asked_kept; [|done].
  split; apply H.
Qed.

Lemma wp_configureDevice skip iface s :
  proper iface →
  wp (pf_world hv vf (if_PciAddress iface)) (careful hv vf (if_PciAddress iface))
    (configSriovDevice hv guidPool iface skip) (λ r s', ∀ u, r = inr u → configured skip iface s') s.
Proof using VfAddresses0.
  intros Hp. unfold configured. destruct skip; [by apply wp_configSriovDevice_skip|by apply wp_configSriovDevice].
Qed.

Lemma wp_configThread skip tc s :
  proper (tc_Iface tc) → if_PciAddress (tc_Iface tc) = ie_PciAddress (tc_IfaceStatus tc) →
  wp (pf_world hv vf (if_PciAddress (tc_Iface tc))) (careful hv vf (if_PciAddress (tc_Iface tc)))
    (configThread hv InitialState guidPool skip tc) (λ r s', r = None → configured skip (tc_Iface tc) s') s.
Proof using VfAddresses0.
  intros Hp Ha. unfold configThread. apply wp_bind. eapply wp_post; [by apply wp_configureDevice|].
  intros [e|[]] s1 H1; [|intros _; by eapply H1].
  assert (Hr : ∀ e', wp (pf_world hv vf (if_PciAddress (tc_Iface tc))) (careful hv vf (if_PciAddress (tc_Iface tc)))
      (if if_ExternallyManaged (tc_Iface tc) then Ret (Some e')
       else ResetSriovDevice hv InitialState (tc_IfaceStatus tc) ≫= λ reset,
            Ret (Some (match reset with inl resetErr => resetErr | inr _ => e' end)))
      (λ r s', r = None → configured skip (tc_Iface tc) s') s1).
  { intros e'. destruct (if_ExternallyManaged (tc_Iface tc)); [done|]. apply wp_bind.
    eapply wp_post; [by apply wp_ResetSriovDevice|]. done. }
  destruct e; try apply Hr. done.
Qed.

(** *** Reset *)

Abbreviation Wr pf := (shared_world (kernel hv vf) (reset_rely vf pf)).
Abbreviation Gr pf := (reset_careful hv vf pf).

(** A program that concerns the PF but not the store. *)
Lemma wp_reset_world pf {A} (p : hostM A) Q s :
  wp (pf_world hv vf pf) (careful hv vf pf) p Q s →
  wp (Wr pf) (Gr pf) p (λ a s', Q a s' ∧ m_store s' pf = m_store s pf) s.
Proof.
  revert s. induction p as [a|r k IH]; intros s H; [done|]. destruct H as [[HG HE] Hk]. split.
  - split; [|done]. intros x s' Hx b Hb. destruct (HG _ _ Hx) as [Hs Hp]. split; [by apply Hp|by rewrite Hs].
  - intros x s' (s1 & Hx & Hr).
    assert (Hr' : reset_rely vf pf s1 s') by (clear -Hr; induction Hr; [reflexivity|by etransitivity]).
    assert (Hw : w_step (pf_world hv vf pf) s r x s') by (exists s1; split; [done|]; apply rtc_once, Hr').
    eapply wp_post; [exact (IH x s' (Hk x s' Hw))|]. cbn. intros a s2 [HQ Hst]. split; [done|].
    destruct (HG _ _ Hx) as [Hs _]. rewrite Hst. destruct Hr' as [_ ->]. by rewrite Hs.
Qed.

Definition reset_done (st : InterfaceExt) (s s' : Machine) : Prop :=
  let pf := ie_PciAddress st in
  match m_store s pf with
  | None => same_pf vf pf s s' ∧ m_store s' pf = None
  | Some data =>
      ∃ stored, UnmarshalInterface data = inr stored ∧ m_store s' pf = None ∧
        if if_ExternallyManaged stored then same_pf vf pf s s'
        else 0 < ie_NumVfs st → ie_LinkType st ∈ [LinkTypeETH; LinkTypeIB] → m_numvfs s' pf = 0
  end.

Lemma reset_done_rely st s s1 s2 :
  reset_rely vf (ie_PciAddress st) s1 s2 → reset_done st s s1 → reset_done st s s2.
Proof.
  intros [Hp Hs]. unfold reset_done. destruct (m_store s (ie_PciAddress st)).
  - intros (stored & Hu & Hn & H). exists stored. split_and!; [done|congruence|].
    destruct (if_ExternallyManaged stored); [by transitivity s1|]. rewrite (sp_numvfs _ _ _ _ Hp). done.
  - intros [H1 H2]. split; [by transitivity s1|congruence].
Qed.

(** One request of the reset. *)
Lemma wp_reset_req pf {A} r (k : HostResp r → hostM A) Q s :
  Gr pf s r → (∀ x s1 s2, kernel hv vf s r x s1 → reset_rely vf pf s1 s2 → wp (Wr pf) (Gr pf) (k x) Q s2) →
  wp (Wr pf) (Gr pf) (perform r ≫= k) Q s.
Proof.
  intros HG Hk. apply wp_perform; [done|]. intros x s2 (s1 & H1 & H2). eapply Hk; [done|].
  clear -H2. induction H2; [reflexivity|by etransitivity].
Qed.

Lemma reads_reset_careful pf s r : reads hv r = true → Gr pf s r.
Proof.
  intros Hr. split; [|by destruct r]. intros x s' Hk. apply reads_same in Hk as ->; [|done].
  intros b _. reflexivity.
Qed.

Lemma wp_RemovePf pf Q s :
  (∀ e s2, reset_rely vf pf s s2 → Q (inl e) s2) →
  (∀ s2, same_pf vf pf s s2 → m_store s2 pf = None → Q (inr tt) s2) →
  wp (Wr pf) (Gr pf) (RemovePfAppliedStatus hv pf) Q s.
Proof.
  intros He Ho. unfold RemovePfAppliedStatus. apply wp_reset_req.
  - split; [|done]. intros x s' Hk b Hb. cbn in Hk. rewrite sysfile_store in Hk.
    destruct x; subst; [reflexivity|]. split; [by split|]. cbn. by rewrite fn_lookup_insert_ne.
  - intros x s1 s2 Hk H2. cbn in Hk. rewrite sysfile_store in Hk. destruct x; subst; cbn.
    + by apply He.
    + destruct H2 as [Hp Hs]. apply Ho; [|cbn in Hs; by rewrite fn_lookup_insert in Hs].
      transitivity (set_store s pf None); [by split|done].
Qed.

Lemma wp_checkForConfigAndReset st s s1 :
  reset_rely vf (ie_PciAddress st) s s1 →
  wp (Wr (ie_PciAddress st)) (Gr (ie_PciAddress st))
    (checkForConfigAndReset hv UnmarshalInterface InitialState st)
    (λ r s', r = inr tt → reset_done st s s') s1.
Proof using VfAddresses0.
  intros H1. unfold checkForConfigAndReset, LoadPfsStatus. set (pf := ie_PciAddress st) in *.
  apply wp_try, wp_reset_req; [by apply reads_reset_careful|]. intros x s2 s3 [-> Hx] H3. rewrite sysfile_store in Hx.
  assert (H13 : reset_rely vf pf s s3) by (by transitivity s1). unfold reset_done. fold pf.
  apply wp_ret. destruct x as [e|data].
  { unfold is_not_exist. case_bool_decide; [|done]. cbn. intros _. destruct H1 as [_ Hs], H13 as [Hp3 Hs3].
    rewrite (Hx ltac:(done)) in Hs. rewrite <- Hs. split; [done|]. by rewrite Hs3. }
  destruct (UnmarshalInterface data) as [e|stored] eqn:Hu; [done|].
  assert (Hdata : m_store s pf = Some data) by (destruct H1 as [_ Hs]; congruence). rewrite Hdata.
  destruct (if_ExternallyManaged stored) eqn:He.
  { apply wp_RemovePf; [done|]. intros s4 H4 Hn _. exists stored. rewrite He. split_and!; [done..|].
    transitivity s3; [apply H13|done]. }
  apply wp_try. eapply wp_post; [apply wp_reset_world; by apply only_reads, reading_removeUdevRules|].
  intros [e|[]] s4 _; [done|]. apply wp_try.
  apply (wp_post (Wr pf) (Gr pf) _ (λ r s', r = inr tt → 0 < ie_NumVfs st → ie_LinkType st ∈ [LinkTypeETH; LinkTypeIB] →
    m_numvfs s' pf = 0)).
  - destruct (Z.ltb_spec 0 (ie_NumVfs st)); [|by cbn; lia].
    eapply wp_post; [apply wp_reset_world; by apply wp_ResetSriovDevice|]. cbn. intros r s5 [H5 _] -> _. by eapply H5.
  - intros [e|[]] s5 H5; [done|]. apply wp_RemovePf; [done|]. intros s6 H6 Hn _. exists stored. rewrite He.
    split_and!; [done..|]. intros Hv Hl. rewrite (sp_numvfs _ _ _ _ H6). by apply H5.
Qed.

(** ** The store *)

(** The configuration of the PF is on record. *)
Definition saved (iface : Interface) (s : Machine) : Prop :=
  ∃ data, MarshalInterface iface = inr data ∧ m_store s (if_PciAddress iface) = Some data.

(** Only the file of this PF may differ. *)
Definition only_file (pf : string) (s s' : Machine) : Prop :=
  (∀ b, same_pf vf b s s') ∧ ∀ b, b ≠ pf → m_store s' b = m_store s b.

Lemma wp_SaveLast iface s :
  wp W0 E (SaveLastPfAppliedStatus hv MarshalInterface iface)
    (λ r s', only_file (if_PciAddress iface) s s' ∧ (∀ u, r = inr u → saved iface s')) s.
Proof.
  unfold SaveLastPfAppliedStatus, saved. destruct (MarshalInterface iface) as [e|data] eqn:Hm; [by split|].
  split; [done|]. intros x s' Hk. cbn in Hk. rewrite sysfile_store in Hk. destruct x; cbn in *; subst.
  - by split.
  - split; [split; [by split|]|].
    + intros b Hb. cbn. by rewrite fn_lookup_insert_ne.
    + intros _ _. exists data. split; [done|]. cbn. by rewrite fn_lookup_insert.
Qed.

(** ** One PF after the other *)

Definition tc_addr (tc : interfaceToConfigure) : string := if_PciAddress (tc_Iface tc).

(** The PFs and files of these addresses may differ. *)
Definition beyond (l : list string) (s s' : Machine) : Prop :=
  ∀ b, b ∉ l → reset_rely vf b s s'.

Lemma beyond_trans l s s1 s2 : beyond l s s1 → beyond l s1 s2 → beyond l s s2.
Proof. intros H1 H2 b Hb. etransitivity; [by apply H1|by apply H2]. Qed.

Lemma beyond_mono l l' s s' : (∀ b, b ∈ l → b ∈ l') → beyond l s s' → beyond l' s s'.
Proof. intros Hl H b Hb. apply H. auto. Qed.

Lemma beyond_file pf s s' : only_file pf s s' → beyond [pf] s s'.
Proof. intros [H1 H2] b Hb. split; [done|]. apply H2. clear -Hb; set_solver. Qed.

Definition applied (skip : bool) (iface : Interface) (s : Machine) : Prop :=
  configured skip iface s ∧ saved iface s.

Lemma applied_beyond skip iface l s s' :
  if_PciAddress iface ∉ l → beyond l s s' → applied skip iface s → applied skip iface s'.
Proof.
  intros Hn H [Hc Hs]. destruct (H _ Hn) as [Hp Hst]. split; [by eapply configured_same|].
  destruct Hs as (data & Hm & Hd). exists data. split; [done|congruence].
Qed.

Definition sound_tc (tc : interfaceToConfigure) : Prop :=
  proper (tc_Iface tc) ∧ if_PciAddress (tc_Iface tc) = ie_PciAddress (tc_IfaceStatus tc).

(** A thread of the configuration, alone. *)
Lemma wp_config_alone {A} pf (p : hostM A) Q s :
  (∀ s1, wp (pf_world hv vf pf) (careful hv vf pf) p Q s1) →
  wp W0 E p (λ a s', Q a s' ∧ beyond [pf] s s' ∧ m_store s' = m_store s) s.
Proof.
  intros H. eapply wp_mono; [intros ? ?; exact (config_guard (Some pf) _ _)| |
    apply (wp_alone (kernel hv vf) (config_rely vf) _ (config_careful hv vf) config_compat (Some pf) Q s p)].
  - intros a s1 [HQ Hr]. split_and!; [apply HQ; reflexivity| |by apply (Hr None)].
    intros b Hb. split; [apply (Hr (Some b)); clear -Hb; set_solver|]. rewrite (Hr None) by done. done.
  - intros s1 _. apply H.
Qed.

Lemma wp_configSriovInterfaces l skip s :
  NoDup (tc_addr <$> l) → Forall sound_tc l →
  wp W0 E (configSriovInterfaces hv MarshalInterface InitialState guidPool l skip)
    (λ r s', (∀ u, r = inr u → beyond (tc_addr <$> l) s s' ∧ ∀ tc, tc ∈ l → applied skip (tc_Iface tc) s')) s.
Proof using VfAddresses0.
  intros Hnd Hl. revert Hnd s. induction Hl as [|tc l [Hp Ha] _ IH]; intros Hnd s; cbn [configSriovInterfaces].
  { intros _ _. split; [intros b _; reflexivity|]. intros tc Htc. by apply elem_of_nil in Htc. }
  cbn in Hnd. apply NoDup_cons in Hnd as [Hni Hnd]. apply wp_bind.
  eapply wp_post; [apply wp_config_alone; intros s1; by apply wp_configureDevice|].
  intros [e|u] s1 (Hc & Hb & _).
  - assert (Hr : ∀ e', wp W0 E
      (if if_ExternallyManaged (tc_Iface tc) then Ret (inl e')
       else ResetSriovDevice hv InitialState (tc_IfaceStatus tc) ≫= λ _, Ret (inl e'))
      (λ (r : HostError + unit) s', ∀ u, r = inr u → beyond (tc_addr <$> tc :: l) s s' ∧
         ∀ tc0, tc0 ∈ tc :: l → applied skip (tc_Iface tc0) s') s1).
    { intros e'. destruct (if_ExternallyManaged (tc_Iface tc)); [done|]. apply wp_bind.
      eapply wp_post; [apply (wp_config_alone (ie_PciAddress (tc_IfaceStatus tc))); intros s2; by apply wp_ResetSriovDevice|].
      done. }
    destruct e; try apply Hr. done.
  - apply wp_try. eapply wp_post; [apply wp_SaveLast|]. intros [e|u'] s2 [Hf Hs]; [done|].
    eapply wp_post; [by apply IH|]. intros r s3 H3 u2 ->. destruct (H3 _ eq_refl) as [Hb3 Ha3].
    assert (H12 : beyond [tc_addr tc] s1 s2) by (by apply beyond_file).
    split.
    + eapply beyond_trans; [|eapply beyond_mono; [|exact Hb3]; clear; set_solver].
      eapply beyond_trans; (eapply beyond_mono; [|eassumption]); clear; set_solver.
    + intros tc0 [->|Hin]%elem_of_cons; [|by apply Ha3].
      eapply applied_beyond; [exact Hni|exact Hb3|]. split; [|by eapply Hs].
      eapply configured_same; [apply Hf|by eapply Hc].
Qed.

(** ** All PFs at once *)

Abbreviation rely := (config_rely vf).
Abbreviation Gc := (config_careful hv vf).

Section spawn.
Context (skip : bool) (L : list interfaceToConfigure) (HL : NoDup (tc_addr <$> L)) (Hsound : Forall sound_tc L).

(** What the goroutine of a PF promises. *)
Definition promise (i : option string) (r : option HostError) (s : Machine) : Prop :=
  r = None → ∀ tc, tc ∈ L → Some (tc_addr tc) = i → configured skip (tc_Iface tc) s.

Abbreviation allready s := (Forall2 (λ i t, ready (kernel hv vf) rely Gc i (promise i) s t)).
Abbreviation allsettled s := (Forall2 (λ i a, settled rely i (promise i) s a)).

Lemma unique_tc tc tc' : tc ∈ L → tc' ∈ L → tc_addr tc = tc_addr tc' → tc = tc'.
Proof using HL.
  intros H1 H2 Hab. apply list_elem_of_lookup in H1 as [i Hi], H2 as [j Hj].
  assert (i = j) as ->.
  { apply (NoDup_lookup (tc_addr <$> L) i j (tc_addr tc)); [done|by rewrite list_lookup_fmap, Hi|].
    rewrite list_lookup_fmap, Hj. cbn. by rewrite Hab. }
  congruence.
Qed.

Lemma ready_configThread tc s :
  tc ∈ L → ready (kernel hv vf) rely Gc (Some (tc_addr tc)) (promise (Some (tc_addr tc))) s
             (configThread hv InitialState guidPool skip tc).
Proof using HL Hsound VfAddresses0.
  intros Htc s1 _. rewrite Forall_forall in Hsound. destruct (Hsound tc Htc) as [Hp Ha].
  eapply wp_post; [by apply wp_configThread|]. cbn. intros r s2 H -> tc' Htc' [= E'].
  rewrite (unique_tc tc' tc) by done. auto.
Qed.

Lemma allready_only_file ids ts pf s s' :
  (∀ i, i ∈ ids → i ≠ None) → only_file pf s s' → allready s ids ts → allready s' ids ts.
Proof.
  intros Hi [H _]. apply allready_mono; [apply _|]. intros [b|] Hb; [apply H|by destruct (Hi None)].
Qed.

Lemma allsettled_only_file ids ts pf s s' :
  (∀ i, i ∈ ids → i ≠ None) → only_file pf s s' → allsettled s ids ts → allsettled s' ids ts.
Proof.
  intros Hi [H _]. apply allsettled_mono; [apply _|]. intros [b|] Hb; [apply H|by destruct (Hi None)].
Qed.

Abbreviation owner := (λ tc, Some (tc_addr tc)).

Lemma wp_interleave_config sched ids ts fids finished s :
  NoDup (ids ++ fids) → None ∉ ids → allready s ids ts → allsettled s fids finished →
  wp W0 E (interleave sched ts finished)
    (λ '(fin, run) s', ∃ ids' fids', ids' ++ fids' ≡ₚ ids ++ fids ∧ allready s' ids' run ∧
       allsettled s' fids' fin ∧ m_store s' = m_store s ∧ ∀ b, Some b ∉ ids → same_pf vf b s s') s.
Proof using Type.
  intros Hnd Hnone Hr Hf. eapply (wp_mono W0 (λ s r, ∃ i, Gc i s r)); [intros ? ? [i Hi]; by eapply config_guard| |
    by apply (wp_rg_interleave (kernel hv vf) rely _ Gc config_compat promise sched ids ts fids finished)].
  intros [fin run] s' (ids' & fids' & H1 & H2 & H3 & H4). exists ids', fids'. split_and!; [done..| |].
  - by apply (H4 None).
  - intros b Hb. by apply (H4 (Some b)).
Qed.

Lemma wp_spawnAndSave sched l ids running fids finished s :
  (∀ tc, tc ∈ l → tc ∈ L) → NoDup (ids ++ fids ++ (owner <$> l)) → None ∉ ids ++ fids →
  allready s ids running → allsettled s fids finished →
  wp W0 E (spawnAndSave hv MarshalInterface InitialState guidPool sched skip l running finished)
    (λ '(r, run) s', ∀ fin, r = inr fin →
       (∃ ids' fids', ids' ++ fids' ≡ₚ ids ++ fids ++ (owner <$> l) ∧ allready s' ids' run ∧ allsettled s' fids' fin) ∧
       (∀ tc, tc ∈ l → saved (tc_Iface tc) s') ∧ (∀ b, b ∉ tc_addr <$> l → m_store s' b = m_store s b) ∧
       ∀ b, Some b ∉ ids ++ fids ++ (owner <$> l) → same_pf vf b s s') s.
Proof using HL Hsound VfAddresses0.
  intros Hl. revert sched ids running fids finished s.
  induction l as [|tc l IH]; intros sched ids running fids finished s Hnd Hnone Hr Hf; cbn [spawnAndSave].
  { intros fin [= <-]. split_and!; [|by intros ? ?%elem_of_nil|done|intros; reflexivity].
    exists ids, fids. by rewrite app_nil_r. }
  assert (Hp : (ids ++ [owner tc]) ++ fids ++ (owner <$> l) ≡ₚ ids ++ fids ++ (owner <$> tc :: l))
    by (cbn; solve_Permutation).
  rewrite <- Hp in Hnd. apply wp_bind. eapply wp_post; [apply (wp_interleave_config _ (ids ++ [owner tc]) _ fids)|].
  { rewrite app_assoc in Hnd. by apply NoDup_app in Hnd as (? & _). }
  { clear -Hnone. set_solver. }
  { apply Forall2_app; [done|]. constructor; [|done]. apply ready_configThread, Hl. by left. }
  { done. }
  intros [finished' running'] s1 (ids' & fids' & Hi & Hr1 & Hf1 & Hs1 & Hb1). apply wp_bind.
  assert (Hn' : ∀ i, i ∈ ids' ++ fids' → i ≠ None).
  { intros i. rewrite Hi. clear -Hnone. set_solver. }
  eapply wp_post; [apply wp_SaveLast|]. intros [e|u] s2 [Hof Hsv]; [done|].
  eapply wp_post; [apply (IH ltac:(intros x Hx; apply Hl; by right) (tail sched) ids' running' fids' finished')|].
  - by rewrite app_assoc, Hi, <- app_assoc.
  - intros Hin. by apply (Hn' None).
  - eapply allready_only_file; [|exact Hof|done]. intros i Hin. apply Hn'. clear -Hin; set_solver.
  - eapply allsettled_only_file; [|exact Hof|done]. intros i Hin. apply Hn'. clear -Hin; set_solver.
  - intros [r run] s3 H fin ->. destruct (H _ eq_refl) as ((ids2 & fids2 & H1 & H2 & H3) & H4 & H5 & H6).
    assert (Htc : tc_addr tc ∉ tc_addr <$> l).
    { intros Hin. apply NoDup_app in Hnd as (_ & Hd & _). apply (Hd (owner tc)); [clear; set_solver|].
      apply elem_of_app. right. apply list_elem_of_fmap in Hin as (tc' & E' & Hin'). apply list_elem_of_fmap.
      exists tc'. split; [by rewrite E'|done]. }
    split_and!.
    + exists ids2, fids2. split_and!; [|done|done]. by rewrite H1, app_assoc, Hi, <- app_assoc.
    + intros tc' [->|Hin]%elem_of_cons; [|by apply H4]. destruct (Hsv _ eq_refl) as (data & Hm & Hd).
      exists data. split; [done|]. rewrite H5; [done|exact Htc].
    + intros b Hb. cbn in Hb. apply not_elem_of_cons in Hb as [Hb1' Hb2]. rewrite H5 by done.
      rewrite (proj2 Hof) by done. by rewrite Hs1.
    + intros b Hb. rewrite <- Hp in Hb. transitivity s2.
      * transitivity s1; [apply Hb1; clear -Hb; set_solver|apply Hof].
      * apply H6. rewrite app_assoc, Hi, <- app_assoc. exact Hb.
Qed.

Lemma joined_inr errs : joined errs = inr tt → Forall (λ e, e = None) errs.
Proof using Type.
  unfold joined. assert (H : ∀ acc, foldl errors_Join acc errs = None → acc = None ∧ Forall (λ e, e = None) errs).
  { induction errs as [|e errs IH]; intros acc H; [by split|]. cbn in H. destruct (IH _ H) as [H1 H2].
    destruct acc, e; try done. by split; [|constructor]. }
  intros Hj. destruct (foldl errors_Join None errs) eqn:Ef; [done|]. by destruct (H _ Ef).
Qed.

(** When all reported success, all PFs are configured. *)
Lemma promises_kept ids errs s :
  allsettled s ids errs → (∀ tc, tc ∈ L → owner tc ∈ ids) → Forall (λ e, e = None) errs →
  ∀ tc, tc ∈ L → configured skip (tc_Iface tc) s.
Proof using Type.
  intros Hs Hin He tc Htc. destruct (list_elem_of_lookup_1 _ _ (Hin tc Htc)) as [n Hn].
  destruct (Forall2_lookup_l _ _ _ _ _ Hs Hn) as (e & Hen & Hst).
  pose proof (Forall_lookup_1 _ _ _ _ He Hen) as ->. apply (Hst s ltac:(reflexivity) eq_refl tc Htc eq_refl).
Qed.

Lemma wp_configParallel sched s :
  wp W0 E (configSriovInterfacesInParallel hv MarshalInterface InitialState guidPool sched L skip)
    (λ '(r, running) s', ∀ u, r = inr u → running = [] ∧ beyond (tc_addr <$> L) s s' ∧
       ∀ tc, tc ∈ L → applied skip (tc_Iface tc) s') s.
Proof using HL Hsound VfAddresses0.
  unfold configSriovInterfacesInParallel. apply wp_bind.
  assert (Hnd : NoDup (owner <$> L)).
  { pose proof (NoDup_fmap_2 Some _ HL) as H. by rewrite <- list_fmap_compose in H. }
  assert (Hown : ∀ b, Some b ∈ owner <$> L → b ∈ tc_addr <$> L).
  { intros b (tc & [= ->] & Htc)%list_elem_of_fmap. by apply list_elem_of_fmap_2. }
  eapply wp_post; [apply (wp_spawnAndSave _ L [] _ []); [done|done|by intros ?%elem_of_nil|constructor|constructor]|].
  intros [[e|fin] run] s1 H1; [done|]. destruct (H1 _ eq_refl) as ((ids & fids & Hp & Hr & Hf) & Hsv & Hst & Hb).
  cbn in Hp. assert (Hnd' : NoDup (ids ++ fids)) by (by rewrite Hp).
  assert (Hnn : None ∉ ids ++ fids) by (rewrite Hp; by intros (? & ? & _)%list_elem_of_fmap).
  apply wp_bind. eapply wp_post; [apply (wp_interleave_config _ ids _ fids); [done| |done|done]|].
  { clear -Hnn; set_solver. }
  intros [fin' run'] s2 (ids' & fids' & Hp2 & Hr2 & Hf2 & Hs2 & Hb2). apply wp_bind.
  assert (Hnd2 : NoDup (ids' ++ fids')) by (by rewrite Hp2). apply NoDup_app in Hnd2 as (Hn1 & Hn2 & _).
  assert (Hall : ids' ++ fids' ≡ₚ owner <$> L) by (by rewrite Hp2).
  eapply (wp_mono W0 (λ s r, ∃ i, Gc i s r)); [intros ? ? [i Hi]; by eapply config_guard| |
    by apply (wp_rg_join (kernel hv vf) rely _ Gc config_compat promise ids' run')].
  intros errs s3 [H3 H4]. intros u Hj. split; [done|].
  assert (Hs3 : m_store s3 = m_store s2) by (apply (H4 None); rewrite <- Hp2 in Hnn; clear -Hnn; set_solver).
  split.
  - intros b Hnb. assert (Hbo : Some b ∉ ids' ++ fids') by (rewrite Hall; intros ?; by apply Hnb, Hown).
    split; [|rewrite Hs3, Hs2; by apply Hst]. transitivity s1; [apply Hb; cbn; rewrite <- Hall; done|].
    transitivity s2; [apply Hb2; rewrite Hp2 in Hbo|apply (H4 (Some b))]; clear -Hbo; set_solver.
  - intros tc Htc. split.
    + apply (promises_kept (fids' ++ ids') (fin' ++ errs)); [| |by apply joined_inr; destruct u|done].
      * apply Forall2_app; [|done]. eapply allsettled_mono; [apply _| |exact Hf2].
        intros i Hi. apply H4. intros Hi'. by apply (Hn2 i).
      * intros tc' Htc'. rewrite Permutation_app_comm, Hall. apply list_elem_of_fmap. by exists tc'.
    + destruct (Hsv tc Htc) as (data & Hm & Hd). exists data. split; [done|]. rewrite Hs3, Hs2. done.
Qed.
End spawn.

(** ** Reset *)

Section reset.
Context (D : list InterfaceExt) (HD : NoDup (ie_PciAddress <$> D)).

Abbreviation resets_done s s' := (∀ st, st ∈ D → reset_done st s s').

Lemma wp_reset_alone {A} pf (p : hostM A) Q s :
  (∀ s1, reset_rely vf pf s s1 → wp (Wr pf) (Gr pf) p Q s1) →
  wp W0 E p (λ a s', Q a s' ∧ beyond [pf] s s') s.
Proof using Type.
  intros H. eapply wp_mono; [intros ? ?; exact (reset_guard pf _ _)| |
    apply (wp_alone (kernel hv vf) (reset_rely vf) _ (reset_careful hv vf) reset_compat pf Q s p); exact H].
  intros a s1 [HQ Hr]. split; [apply HQ; reflexivity|]. intros b Hb. apply Hr. clear -Hb; set_solver.
Qed.

Lemma wp_resetSequence l s0 s :
  NoDup (ie_PciAddress <$> l) → (∀ st, st ∈ l → reset_rely vf (ie_PciAddress st) s0 s) →
  wp W0 E (resetSriovInterfaces hv UnmarshalInterface InitialState l)
    (λ r s', r = inr tt → beyond (ie_PciAddress <$> l) s s' ∧ ∀ st, st ∈ l → reset_done st s0 s') s.
Proof using VfAddresses0.
  unfold resetSriovInterfaces. revert s. induction l as [|st l IH]; intros s Hnd Hs; cbn [each].
  { intros _. split; [intros b _; reflexivity|]. by intros st ?%elem_of_nil. }
  apply NoDup_cons in Hnd as [Hni Hnd]. apply wp_try.
  assert (Hst : reset_rely vf (ie_PciAddress st) s0 s) by (apply Hs; by left).
  eapply wp_post; [apply (wp_reset_alone (ie_PciAddress st)); intros s1 H1; apply (wp_checkForConfigAndReset st s0);
    by transitivity s|].
  intros [e|[]] s1 [H1 Hb]; [done|].
  assert (Hl : ∀ st', st' ∈ l → ie_PciAddress st' ∉ [ie_PciAddress st]).
  { intros st' Hin Heq%list_elem_of_singleton. apply Hni. rewrite <- Heq. by apply list_elem_of_fmap_2. }
  eapply wp_post; [apply IH; [done|]|].
  - intros st' Hin. transitivity s; [apply Hs; by right|]. apply Hb. by apply Hl.
  - intros r s2 H2 ->. destruct (H2 eq_refl) as [Hb2 Hd2]. split.
    + eapply beyond_trans; (eapply beyond_mono; [|eassumption]); clear; set_solver.
    + intros st' [->|Hin]%elem_of_cons; [|by apply Hd2]. eapply reset_done_rely; [|by apply H1].
      by apply Hb2.
Qed.

Lemma unique_st st st' : st ∈ D → st' ∈ D → ie_PciAddress st = ie_PciAddress st' → st = st'.
Proof using HD.
  intros H1 H2 Hab. apply list_elem_of_lookup in H1 as [i Hi], H2 as [j Hj].
  assert (i = j) as ->.
  { apply (NoDup_lookup (ie_PciAddress <$> D) i j (ie_PciAddress st)); [done|by rewrite list_lookup_fmap, Hi|].
    rewrite list_lookup_fmap, Hj. cbn. by rewrite Hab. }
  congruence.
Qed.

Lemma wp_resetParallel sched s :
  wp W0 E (resetSriovInterfacesInParallel hv UnmarshalInterface InitialState sched D)
    (λ r s', r = inr tt → beyond (ie_PciAddress <$> D) s s' ∧ resets_done s s') s.
Proof using HD VfAddresses0.
  unfold resetSriovInterfacesInParallel. apply wp_bind.
  set (promise pf (r : option HostError) s' := r = None → ∀ st, st ∈ D → ie_PciAddress st = pf → reset_done st s s').
  eapply (wp_mono W0 (λ s r, ∃ i, reset_careful hv vf i s r)); [intros ? ? [i Hi]; by eapply reset_guard| |
    apply (wp_rg_parallel (kernel hv vf) (reset_rely vf) _ (reset_careful hv vf) reset_compat promise _
      (ie_PciAddress <$> D)); [done|]].
  - intros errs s' [(ids & Hp & Hset) Hr] Hj. apply joined_inr in Hj. split; [exact Hr|].
    intros st Hst. assert (Hin : ie_PciAddress st ∈ ids) by (rewrite Hp; by apply list_elem_of_fmap_2).
    destruct (list_elem_of_lookup_1 _ _ Hin) as [n Hn]. destruct (Forall2_lookup_l _ _ _ _ _ Hset Hn) as (e & Hen & Hs).
    pose proof (Forall_lookup_1 _ _ _ _ Hj Hen) as ->. apply (Hs s' ltac:(reflexivity) eq_refl st Hst eq_refl).
  - apply Forall2_fmap. apply Forall_Forall2_diag, Forall_forall. intros st Hst s1 H1. unfold resetThread.
    apply wp_bind. eapply wp_post; [by apply (wp_checkForConfigAndReset st s)|].
    intros [e|[]] s2 H2; [done|]. intros _ st' Hst' Heq. rewrite (unique_st st' st) by done. auto.
Qed.
End reset.
End config.
