(* ===== verification/HostOutcome.v ===== *)
(** * The outcome of the configuration

    The theorems about [ConfigSriovInterfaces] on the machine. *)
From stdpp Require Import functions.
From S2P Require Import Prelude GoLib Types VfRange Selector NeedUpdate Effects Parallel.
From S2P Require Import HostSys HostKernel HostNetwork HostDevices Infiniband HostStore HostSriov.
From S2P Require Import HostMachine HostDrivers HostConverge HostConfig.

Section outcome.
Context (hv : HostVars) (vf : string → nat → string) `{!VfAddresses vf}.
Context (MarshalInterface : Interface → string + string)
        (UnmarshalInterface : string → string + Interface).
Context (InitialState : SriovNetworkNodeState) (guidPool : option (gmap string ibPfGUIDConfig)).
Context (interfaces : list Interface) (ifaceStatuses : list InterfaceExt).
Context (Hif : NoDup (if_PciAddress <$> interfaces)) (Hst : NoDup (ie_PciAddress <$> ifaceStatuses)).
Context (Hproper : Forall proper interfaces).

Abbreviation W0 := (alone (kernel hv vf)).
Abbreviation E := (eswitch_guard vf).
Abbreviation scan := (scanInterfaces hv MarshalInterface).
Abbreviation isaved := (saved MarshalInterface).

(** ** Which PFs are configured and which are reset *)

Lemma scan_app st l1 l b acc :
  (∀ i, i ∈ l1 → if_PciAddress i ≠ ie_PciAddress st) → scan st (l1 ++ l) b acc = scan st l b acc.
Proof.
  intros H. induction l1 as [|i l1 IH]; [done|]. cbn. rewrite (proj2 (String.eqb_neq _ _)) by (apply H; by left).
  apply IH. intros j Hj. apply H. by right.
Qed.

Lemma scan_none st l b acc :
  (∀ i, i ∈ l → if_PciAddress i ≠ ie_PciAddress st) → scan st l b acc = Ret (inr (b, acc)).
Proof. intros H. rewrite <- (app_nil_r l). by rewrite scan_app. Qed.

(** The specification has no entry for the PF. *)
Definition unlisted (pf : string) : Prop := ∀ i, i ∈ interfaces → if_PciAddress i ≠ pf.

Definition matched (i : Interface) (st : InterfaceExt) : Prop :=
  i ∈ interfaces ∧ if_PciAddress i = ie_PciAddress st.

(** The entry for a PF, if there is one, is the only one. *)
Lemma listed_split st :
  unlisted (ie_PciAddress st) ∨
  ∃ i l1 l2, interfaces = l1 ++ i :: l2 ∧ matched i st ∧ (∀ j, j ∈ l1 → if_PciAddress j ≠ ie_PciAddress st) ∧
    (∀ j, j ∈ l2 → if_PciAddress j ≠ ie_PciAddress st) ∧ (∀ j, matched j st → j = i).
Proof using Hif.
  destruct (decide (ie_PciAddress st ∈ if_PciAddress <$> interfaces)) as [Hin|Hn].
  2: { left. intros i Hi Heq. apply Hn. rewrite <- Heq. by apply list_elem_of_fmap_2. }
  right. apply list_elem_of_fmap in Hin as (i & Heq & Hi). destruct (list_elem_of_split _ _ Hi) as (l1 & l2 & Hl).
  assert (Hnd := Hif). rewrite Hl, fmap_app, fmap_cons in Hnd. apply NoDup_app in Hnd as (_ & Hd & Hnd).
  apply NoDup_cons in Hnd as [Hi2 _].
  assert (H1 : ∀ j, j ∈ l1 → if_PciAddress j ≠ ie_PciAddress st).
  { intros j Hj Hjs. apply (Hd (if_PciAddress j)); [by apply list_elem_of_fmap_2|]. rewrite Hjs, Heq. by left. }
  assert (H2 : ∀ j, j ∈ l2 → if_PciAddress j ≠ ie_PciAddress st).
  { intros j Hj Hjs. apply Hi2. rewrite <- Heq, <- Hjs. by apply list_elem_of_fmap_2. }
  exists i, l1, l2. split_and!; [done|by split|done|done|]. intros j [Hj Hjs]. rewrite Hl in Hj.
  apply elem_of_app in Hj as [Hj|[->|Hj]%elem_of_cons]; [by destruct (H1 j Hj)|done|by destruct (H2 j Hj)].
Qed.

(** After the devices in [seen]. *)
Record sorted_out (seen : list InterfaceExt) (c : list interfaceToConfigure) (d : list InterfaceExt)
    (s0 s : Machine) : Prop := {
  so_same : ∀ b, same_pf vf b s0 s;
  so_store : ∀ b, (∀ i st, st ∈ seen → matched i st → if_PciAddress i ≠ b) → m_store s b = m_store s0 b;
  so_config : ∀ tc, tc ∈ c ↔ tc_IfaceStatus tc ∈ seen ∧ matched (tc_Iface tc) (tc_IfaceStatus tc) ∧
                NeedToUpdateSriov (tc_Iface tc) (tc_IfaceStatus tc) = Ok true;
  so_total : ∀ i st, st ∈ seen → matched i st →
    NeedToUpdateSriov i st = Ok true ∨ NeedToUpdateSriov i st = Ok false ∧ isaved i s;
  so_reset : ∀ st, st ∈ d ↔ st ∈ seen ∧ unlisted (ie_PciAddress st);
  so_nodup_c : NoDup (tc_addr <$> c);
  so_nodup_d : NoDup (ie_PciAddress <$> d);
}.

Lemma sorted_unlisted seen c d s0 s st :
  ie_PciAddress st ∉ ie_PciAddress <$> seen → unlisted (ie_PciAddress st) →
  sorted_out seen c d s0 s → sorted_out (seen ++ [st]) c (d ++ [st]) s0 s.
Proof using Type.
  intros Hn Hu [H1 H2 H3 H4 H5 H6 H7]. split; [done| | | | |done|].
  - intros b Hb. apply H2. intros i st' Hin. apply Hb. apply elem_of_app. by left.
  - intros tc. rewrite H3. split; intros (A & [B1 B2] & C); (split_and!; [|done|done]); [clear -A; set_solver|].
    apply elem_of_app in A as [A|A%list_elem_of_singleton]; [done|]. destruct (Hu _ B1). by rewrite B2, A.
  - intros i st' [A|A%list_elem_of_singleton]%elem_of_app Hm; [by apply H4|]. subst. destruct Hm as [B1 B2].
    by destruct (Hu _ B1).
  - intros st'. rewrite elem_of_app, H5, elem_of_app, list_elem_of_singleton. clear -Hu. naive_solver.
  - rewrite fmap_app. apply NoDup_app. split_and!; [done| |apply NoDup_singleton].
    intros a (st' & -> & Hin)%list_elem_of_fmap Ha%list_elem_of_singleton. apply Hn. rewrite <- Ha.
    apply list_elem_of_fmap_2. by apply H5.
Qed.

Lemma sorted_saved seen c d s0 s s' st i :
  ie_PciAddress st ∉ ie_PciAddress <$> seen → matched i st → (∀ j, matched j st → j = i) →
  NeedToUpdateSriov i st = Ok false → only_file vf (if_PciAddress i) s s' → isaved i s' →
  sorted_out seen c d s0 s → sorted_out (seen ++ [st]) c d s0 s'.
Proof using Type.
  intros Hn Hm Hone Hneed [Hof1 Hof2] Hsv [H1 H2 H3 H4 H5 H6 H7]. split; [| | | | |done|done].
  - intros b. transitivity s; [done|apply Hof1].
  - intros b Hb. rewrite Hof2.
    + apply H2. intros j st' Hin. apply Hb. apply elem_of_app. by left.
    + intros ->. apply (Hb i st); [|done..]. apply elem_of_app. right. by apply list_elem_of_singleton.
  - intros tc. rewrite H3. split; intros (A & B & C); (split_and!; [|done|done]); [clear -A; set_solver|].
    apply elem_of_app in A as [A|A%list_elem_of_singleton]; [done|]. rewrite A in B, C.
    rewrite (Hone _ B) in C. congruence.
  - intros j st' [A|A%list_elem_of_singleton]%elem_of_app Hj; [|subst; rewrite (Hone _ Hj); by right].
    destruct (H4 _ _ A Hj) as [?|[? (data & Hd1 & Hd2)]]; [by left|right]. split; [done|]. exists data.
    split; [done|]. rewrite Hof2; [done|]. intros Heq. apply Hn. rewrite <- (proj2 Hm), <- Heq, (proj2 Hj).
    by apply list_elem_of_fmap_2.
  - intros st'. rewrite H5, elem_of_app, list_elem_of_singleton. split; [naive_solver|].
    intros [[A| ->] Hu]; [done|]. by destruct (Hu i (proj1 Hm) (proj2 Hm)).
Qed.

Lemma sorted_config seen c d s0 s st i :
  ie_PciAddress st ∉ ie_PciAddress <$> seen → matched i st → (∀ j, matched j st → j = i) →
  NeedToUpdateSriov i st = Ok true →
  sorted_out seen c d s0 s → sorted_out (seen ++ [st]) (c ++ [mkToConfigure i st]) d s0 s.
Proof using Type.
  intros Hn Hm Hone Hneed [H1 H2 H3 H4 H5 H6 H7]. split; [done| | | | | |done].
  - intros b Hb. apply H2. intros j st' Hin. apply Hb. apply elem_of_app. by left.
  - intros tc. rewrite elem_of_app, H3, elem_of_app, !list_elem_of_singleton. split.
    + intros [(A & B & C)| ->]; [naive_solver|]. cbn. naive_solver.
    + intros ([A|A] & B & C); [naive_solver|]. right. destruct tc as [j st']. cbn in *. subst.
      by rewrite (Hone _ B).
  - intros j st' [A|A%list_elem_of_singleton]%elem_of_app Hj; [by apply H4|]. subst. rewrite (Hone _ Hj). by left.
  - intros st'. rewrite H5, elem_of_app, list_elem_of_singleton. split; [naive_solver|].
    intros [[A| ->] Hu]; [done|]. by destruct (Hu i (proj1 Hm) (proj2 Hm)).
  - rewrite fmap_app. apply NoDup_app. split_and!; [done| |apply NoDup_singleton].
    intros a (tc & -> & Hin)%list_elem_of_fmap Ha%list_elem_of_singleton. apply Hn.
    apply H3 in Hin as (A & [_ B] & _). rewrite <- (proj2 Hm). change (if_PciAddress i) with (tc_addr (mkToConfigure i st)).
    rewrite <- Ha. unfold tc_addr. rewrite B. by apply list_elem_of_fmap_2.
Qed.

Lemma wp_configureAndReset rest seen c d s0 s :
  seen ++ rest = ifaceStatuses → sorted_out seen c d s0 s →
  wp W0 E (configureAndReset hv MarshalInterface interfaces rest c d)
    (λ r s', ∀ c' d', r = inr (c', d') → sorted_out ifaceStatuses c' d' s0 s') s.
Proof using Hif Hst.
  revert seen c d s. induction rest as [|st rest IH]; intros seen c d s Hl Hso; cbn [configureAndReset].
  { intros c' d' [= <- <-]. rewrite app_nil_r in Hl. by rewrite <- Hl. }
  assert (Hn : ie_PciAddress st ∉ ie_PciAddress <$> seen).
  { assert (Hnd := Hst). rewrite <- Hl, fmap_app, fmap_cons in Hnd. apply NoDup_app in Hnd as (_ & Hd & _).
    intros Hin. apply (Hd _ Hin). by left. }
  assert (Hl' : (seen ++ [st]) ++ rest = ifaceStatuses) by (by rewrite <- app_assoc).
  destruct (listed_split st) as [Hu|(i & l1 & l2 & Hs & Hm & H1 & H2 & Hone)].
  { rewrite scan_none by done. apply wp_try, wp_ret. eapply IH; [done|]. by apply sorted_unlisted. }
  rewrite Hs at 1. rewrite scan_app by done. cbn [scanInterfaces]. rewrite (proj2 (String.eqb_eq _ _) (proj2 Hm)).
  apply wp_try, wp_try. unfold skipSriovConfig. destruct (NeedToUpdateSriov i st) as [[]|e|] eqn:Hneed; cbn [lift];
    [| |done|done].
  - apply wp_ret. rewrite scan_none by done. apply wp_ret. eapply IH; [done|]. by apply sorted_config.
  - apply wp_try. eapply wp_post; [apply wp_SaveLast|]. intros [e|u] s1 [Hof Hsv]; [done|].
    apply wp_ret, wp_ret. eapply IH; [done|]. eapply sorted_saved; eauto.
Qed.

(** ** The outcome *)

(** A listed PF that was found is on record, and was brought to what is asked or
    already was like that; an unlisted one is reset if the operator had
    configured it; nothing else changes. *)
Record outcome (skip : bool) (s s' : Machine) : Prop := {
  oc_listed : ∀ i st, st ∈ ifaceStatuses → matched i st → isaved i s' ∧
    (NeedToUpdateSriov i st = Ok true ∧ configured vf skip i s' ∨
     NeedToUpdateSriov i st = Ok false ∧ same_pf vf (if_PciAddress i) s s');
  oc_unlisted : ∀ st, st ∈ ifaceStatuses → unlisted (ie_PciAddress st) →
    reset_done vf UnmarshalInterface st s s';
  oc_others : ∀ b, b ∉ ie_PciAddress <$> ifaceStatuses → reset_rely vf b s s';
}.

Lemma sorted_sound c d s0 s : sorted_out ifaceStatuses c d s0 s → Forall sound_tc c.
Proof using Hproper.
  intros H. apply Forall_forall. intros tc Htc. apply (so_config _ _ _ _ _ H) in Htc as (_ & [Hi Ha] & _).
  rewrite Forall_forall in Hproper. split; [by apply Hproper|exact Ha].
Qed.

(** From the three phases to the whole. *)
Lemma outcome_compose skip c d s0 s1 s2 s3 :
  sorted_out ifaceStatuses c d s0 s1 →
  beyond vf (tc_addr <$> c) s1 s2 → (∀ tc, tc ∈ c → applied vf MarshalInterface skip (tc_Iface tc) s2) →
  beyond vf (ie_PciAddress <$> d) s2 s3 → (∀ st, st ∈ d → reset_done vf UnmarshalInterface st s2 s3) →
  outcome skip s0 s3.
Proof using Hif Hst.
  intros Hso Hb2 Ha2 Hb3 Hr3.
  assert (Hd : ∀ i st, matched i st → if_PciAddress i ∉ ie_PciAddress <$> d).
  { intros i st [Hi _] (st' & Heq & Hin)%list_elem_of_fmap. apply (so_reset _ _ _ _ _ Hso) in Hin as [_ Hu].
    by destruct (Hu i Hi). }
  assert (Hc : ∀ st, unlisted (ie_PciAddress st) → ie_PciAddress st ∉ tc_addr <$> c).
  { intros st Hu (tc & Heq & Hin)%list_elem_of_fmap. apply (so_config _ _ _ _ _ Hso) in Hin as (_ & [Hi _] & _).
    by destruct (Hu _ Hi). }
  split.
  - intros i st Hin Hm. destruct (so_total _ _ _ _ _ Hso i st Hin Hm) as [Ht|[Ht Hs]].
    + assert (Htc : mkToConfigure i st ∈ c) by (by apply (so_config _ _ _ _ _ Hso)).
      destruct (applied_beyond vf MarshalInterface skip i _ _ _ (Hd i st Hm) Hb3 (Ha2 _ Htc)) as [A1 A2]. auto.
    + assert (Hnc : if_PciAddress i ∉ tc_addr <$> c).
      { intros (tc & Heq & Htc)%list_elem_of_fmap. apply (so_config _ _ _ _ _ Hso) in Htc as (Hin' & Hm' & Ht').
        assert (tc_IfaceStatus tc = st) as Est.
        { apply (unique_st ifaceStatuses Hst); [done|done|]. rewrite <- (proj2 Hm'), <- (proj2 Hm). done. }
        rewrite Est in Hm', Ht'. destruct (listed_split st) as [Hu|(i' & _ & _ & _ & _ & _ & _ & Hone)].
        - by destruct (Hu i (proj1 Hm)), (proj2 Hm).
        - rewrite (Hone _ Hm) in Ht. rewrite (Hone _ Hm') in Ht'. congruence. }
      assert (H13 : reset_rely vf (if_PciAddress i) s1 s3)
        by (transitivity s2; [by apply Hb2|by apply Hb3; apply (Hd i st)]).
      destruct H13 as [P1 P2]. split.
      * destruct Hs as (data & D1 & D2). exists data. split; [done|congruence].
      * right. split; [done|]. transitivity s1; [apply (so_same _ _ _ _ _ Hso)|done].
  - intros st Hin Hu. assert (Hrd : reset_done vf UnmarshalInterface st s2 s3)
      by (apply Hr3, (so_reset _ _ _ _ _ Hso); done).
    assert (H02 : reset_rely vf (ie_PciAddress st) s0 s2).
    { transitivity s1; [split; [apply (so_same _ _ _ _ _ Hso)|]|by apply Hb2, Hc].
      apply (so_store _ _ _ _ _ Hso). intros i st' _ [Hi _]. by apply Hu. }
    destruct H02 as [P1 P2]. unfold reset_done in *. rewrite P2 in Hrd.
    destruct (m_store s0 (ie_PciAddress st)); [|destruct Hrd; split; [by transitivity s2|done]].
    destruct Hrd as (stored & A1 & A2 & A3). exists stored. split_and!; [done..|].
    destruct (if_ExternallyManaged stored); [by transitivity s2|done].
  - intros b Hb. transitivity s1; [split; [apply (so_same _ _ _ _ _ Hso)|]|].
    { apply (so_store _ _ _ _ _ Hso). intros i st Hin [_ Heq] <-. apply Hb. rewrite Heq. by apply list_elem_of_fmap_2. }
    transitivity s2.
    + apply Hb2. intros (tc & -> & Htc)%list_elem_of_fmap. apply (so_config _ _ _ _ _ Hso) in Htc as (Hin & [_ Heq] & _).
      apply Hb. unfold tc_addr. rewrite Heq. by apply list_elem_of_fmap_2.
    + apply Hb3. intros (st & -> & Hin)%list_elem_of_fmap. apply (so_reset _ _ _ _ _ Hso) in Hin as [Hin _].
      apply Hb. by apply list_elem_of_fmap_2.
Qed.

Lemma wp_reading_alone {A} (p : hostM A) s :
  only (reads hv) p → wp W0 E p (λ _ s', s' = s) s.
Proof using Type.
  intros Hp. specialize (Hp tt). revert s. induction p as [a|r k IH]; intros s; [done|].
  destruct Hp as [Hr Hk]. split; [by destruct r|]. intros x s' Hx. apply reads_same in Hx as ->; [|done].
  by apply IH, (Hk x tt).
Qed.

Lemma wp_ConfigSriovInterfaces sched skip s :
  wp W0 E (ConfigSriovInterfaces hv MarshalInterface UnmarshalInterface InitialState guidPool sched interfaces
             ifaceStatuses skip)
    (λ '(r, running) s', r = inr tt → running = [] ∧ outcome skip s s') s.
Proof using Hif Hst Hproper VfAddresses0.
  unfold ConfigSriovInterfaces, getConfigureAndReset. apply wp_bind.
  eapply wp_post; [apply (wp_configureAndReset ifaceStatuses [] [] [] s); [done|]|].
  { split; [done|done| |by intros i st ?%elem_of_nil| |apply NoDup_nil_2|apply NoDup_nil_2];
      intros x; (split; [by intros ?%elem_of_nil|by intros [?%elem_of_nil _]]). }
  intros [e|[c d]] s1 Hso; [done|]. specialize (Hso _ _ eq_refl).
  pose proof (so_nodup_c _ _ _ _ _ Hso) as Hnc. pose proof (so_nodup_d _ _ _ _ _ Hso) as Hnd.
  pose proof (sorted_sound _ _ _ _ Hso) as Hsound. apply wp_bind.
  apply (wp_post W0 E _ (λ '(r, running) s', ∀ u, r = inr u → running = [] ∧ beyond vf (tc_addr <$> c) s1 s' ∧
    ∀ tc, tc ∈ c → applied vf MarshalInterface skip (tc_Iface tc) s')).
  { destruct (ParallelNicConfig hv); [by apply wp_configParallel|]. apply wp_bind.
    eapply wp_post; [by apply wp_configSriovInterfaces|]. cbn. intros r s2 H u ->. split; [done|by eapply H]. }
  intros [[e|u] running] s2 H2; [done|]. destruct (H2 _ eq_refl) as (-> & Hb2 & Ha2). apply wp_bind.
  eapply wp_post; [apply wp_reading_alone|].
  { destruct (_ && _); [apply reading_LoadUdevRules|steady]. }
  cbn. intros [e|u'] s3 ->; [done|]. apply wp_bind.
  apply (wp_post W0 E _ (λ r s', r = inr tt → beyond vf (ie_PciAddress <$> d) s2 s' ∧
    ∀ st, st ∈ d → reset_done vf UnmarshalInterface st s2 s')).
  { destruct (ParallelNicConfig hv); [by apply wp_resetParallel|]. by apply wp_resetSequence. }
  intros [e|[]] s3 H3; [done|]. destruct (H3 eq_refl) as [Hb3 Hr3]. apply wp_ret. intros _. split; [done|].
  by eapply outcome_compose.
Qed.
End outcome.

(** ** Properties *)

(** Listing the VFs of a PF may fail too; the flag remembers that it did. *)
Definition listing_failed (r : HostReq) : HostResp r → bool :=
  match r with
  | GetVFList _ => λ x, match x with inl _ => true | inr _ => false end
  | _ => λ _, false
  end.

Definition fallible (hv : HostVars) (vf : string → nat → string) : World HostResp :=
  {| w_state := Machine * bool;
     w_step := λ s r x s', if listing_failed r x then s' = (s.1, true) else kernel hv vf s.1 r x s'.1 ∧ s'.2 = s.2 |}.

Lemma fallible_flag hv vf {A} (p : hostM A) s tr a s' :
  exec (fallible hv vf) p s tr a s' → s'.2 = false → s.2 = false.
Proof.
  intros Hex Hs'. induction Hex as [a s|r k s x s1 tr a s2 Hstep Hex IH]; [done|].
  specialize (IH Hs'). cbn in Hstep. destruct (listing_failed r x); [by subst s1|]. by destruct Hstep as [_ <-].
Qed.

(** As long as no listing fails, the kernel is the one of HostMachine.v. *)
Lemma fallible_exec hv vf {A} (p : hostM A) s tr a s' :
  exec (fallible hv vf) p s tr a s' → s'.2 = false →
  exec (alone (kernel hv vf)) p s.1 ((λ sr, (sr.1.1, sr.2)) <$> tr) a s'.1.
Proof.
  intros Hex Hs'. induction Hex as [a s|r k s x s1 tr a s2 Hstep Hex IH]; [constructor|].
  pose proof (fallible_flag _ _ _ _ _ _ _ Hex Hs') as Hs1. cbn [fmap list_fmap]. cbn in Hstep.
  destruct (listing_failed r x); [by subst s1|]. econstructor; [exact (proj1 Hstep)|]. by apply IH.
Qed.



(** ** A run *)

(** The PF "a" is to get two VFs for DPDK in switchdev mode; "b" has VFs and is
    on record, but no longer listed; "c" has VFs of its own. *)
Definition demo_group : VfGroup := mkVfGroup "res" "vfio-pci" "0-1" "p" 0 false "".
Definition demo_spec : list Interface :=
  [mkInterface "a" 2 0 "eth" "" "switchdev" [demo_group] false].
Definition demo_found : list InterfaceExt := [demo_status "a"; demo_status "b"; demo_status "c"].

Definition demo_machine : Machine :=
  mkMachine (λ _, 1) (λ _, "legacy") (λ _, "iavf") (λ _, "")
    (λ pf, if String.eqb pf "b" then Some "b" else None).

Definition demo_outcome_schedule : Schedule := mkSchedule [[0; 0; 0]%nat] [0; 0; 0; 0; 0]%nat [1; 0; 1; 1; 0]%nat.

Definition demo_configure :=
  ConfigSriovInterfaces (demo_vars true) demo_marshal demo_unmarshal demo_state None demo_outcome_schedule
    demo_spec demo_found false.

Abbreviation demo_end := (run (machine_handle (demo_vars true)) demo_configure demo_machine).

Lemma demo_machine_exec :
  exec (alone (kernel (demo_vars true) demo_vf)) demo_configure demo_machine
    (trace (machine_handle (demo_vars true)) demo_configure demo_machine) demo_end.1 demo_end.2.
Proof.
  apply (run_exec (alone (kernel (demo_vars true) demo_vf)) (machine_handle (demo_vars true)) (λ _, True)); [|exact I].
  intros s r _. split; [apply machine_handle_kernel|exact I].
Qed.

Lemma demo_proper : Forall proper demo_spec.
Proof. constructor; [|constructor]. split; [set_solver|]. unfold max_int64. cbn. lia. Qed.

(** The handler in the fallible world; [bad] says whose listing fails. *)
Definition fallible_handle (bad : string → bool) (hv : HostVars) (s : Machine * bool) (r : HostReq) : HostResp r * (Machine * bool) :=
  match r return HostResp r * (Machine * bool) → HostResp r * (Machine * bool) with
  | GetVFList pf => λ y, if bad pf then (inl (EOther "no such device"), (s.1, true)) else y
  | _ => λ y, y
  end (let '(x, s1) := machine_handle hv s.1 r in (x, (s1, s.2))).

Lemma fallible_handle_ok bad hv s r :
  w_step (fallible hv demo_vf) s r (fallible_handle bad hv s r).1 (fallible_handle bad hv s r).2.
Proof.
  pose proof (machine_handle_kernel hv s.1 r) as Hk. unfold fallible_handle. cbn [w_step fallible].
  destruct (machine_handle hv s.1 r) as [x s1]. destruct r; try (by split).
  cbn in Hk. destruct (bad pf); [done|]. destruct Hk as [-> Hx]. destruct x; [done|]. by split.
Qed.

Abbreviation demo_fallible := (run (fallible_handle (λ _, false) (demo_vars true)) demo_configure (demo_machine, false)).


(** The PF "a" with a VF that has the driver of the kernel. *)
Definition demo_bound : InterfaceExt :=
  let 'mkInterfaceExt name mac driver pci vendor device net mtu num speed link admin mode ext total _ alt := demo_status "a" in
  mkInterfaceExt name mac driver pci vendor device net mtu num speed link admin mode ext total
    [mkVirtualFunction "" "" "" "iavf" (demo_vf "a" 0) "8086" "1889" 0 1500 0 "" "" ""] alt.

(** Without that condition it does not hold: when the VFs of "a", which is
    managed by somebody else, cannot be listed, the call succeeds and the PF is
    put on record, but the VF has not got the driver it is to have. *)
Lemma unlisted_VFs_not_configured :
  let spec := [mkInterface "a" 1 0 "eth" "" "legacy" [mkVfGroup "res" "vfio-pci" "0-0" "p" 0 false ""] true] in
  let p := ConfigSriovInterfaces (demo_vars false) demo_marshal demo_unmarshal demo_state None
             demo_outcome_schedule spec [demo_bound] false in
  ∃ tr s', exec (fallible (demo_vars false) demo_vf) p (demo_machine, false) tr (inr tt, []) (s', true) ∧
    m_store s' "a" = Some "managed a" ∧ m_driver s' (demo_vf "a" 0) = "iavf".
Proof.
  intros spec p. set (h := fallible_handle (String.eqb "a") (demo_vars false)).
  exists (trace h p (demo_machine, false)), (run h p (demo_machine, false)).2.1.
  split; [|split; vm_compute; reflexivity].
  apply (run_exec_eq (fallible (demo_vars false) demo_vf)); [apply fallible_handle_ok|].
  assert (H1 : (run h p (demo_machine, false)).1 = (inr tt, [])) by (vm_compute; reflexivity).
  assert (H2 : (run h p (demo_machine, false)).2.2 = true) by (vm_compute; reflexivity).
  rewrite <- H1, <- H2, <- !surjective_pairing. reflexivity.
Qed.

