(* ===== verification/HostSafety.v ===== *)
(** * Which devices the configuration touches

    In every run of [ConfigSriovInterfaces], one PF after the other or all at
    once, whatever the host answers: the number of VFs, the eswitch mode, the
    devlink parameters, the bridge and the udev rules of a PF are changed only
    if the specification lists the PF as managed and it needs it, or if the
    specification no longer lists it and the store says that it was the operator
    who configured it. *)
From S2P Require Import Prelude GoLib Types VfRange Selector NeedUpdate Effects Parallel.
From S2P Require Import HostSys HostKernel HostNetwork HostDevices Infiniband HostStore HostSriov HostMachine.

(** ** Requests that reconfigure a PF *)

(** The device with this address, or the udev rule with this file name. *)
Inductive Touch := TDevice (addr : string) | TRule (name : string).

Definition rule_files (addr : string) : list string :=
  (λ n, n +:+ "-" +:+ addr +:+ ".rules") <$> ["10-nm-disable"; "10-pf-name"; "20-switchdev"].

(** Whether it is the device [addr] or one of its rules. *)
Definition belongs (addr : string) (t : Touch) : bool :=
  match t with
  | TDevice b => String.eqb b addr
  | TRule name => bool_decide (name ∈ rule_files addr)
  end.

Section touched.
Context (hv : HostVars).

Definition touched_path (p : Path) : option Touch :=
  match strip_prefix (FilesystemRoot hv ++ SysBusPciDevices) p with
  | Some [addr; file] => if String.eqb file NumVfsFile then Some (TDevice addr) else None
  | _ =>
      match strip_prefix (FilesystemRoot hv ++ UdevRulesFolder) p with
      | Some [name] => Some (TRule name)
      | _ => None
      end
  end.

Definition touched (r : HostReq) : option Touch :=
  match r with
  | WriteFile p _ | Remove p | RemoveAll p => touched_path p
  | DevLinkSetEswitchMode _ device _ => Some (TDevice device)
  | DevlinkSetDeviceParam _ device _ _ _ => Some (TDevice device)
  | DetachUplinkAndVFRepresentorsFromManagedBridge addr => Some (TDevice addr)
  | _ => None
  end.

(** Only [addr] is touched. *)
Definition within (addr : string) (r : HostReq) : bool :=
  match touched r with None => true | Some t => belongs addr t end.

(** No PF is touched. *)
Definition untouching (r : HostReq) : bool := bool_decide (touched r = None).

Lemma within_untouching a r : untouching r = true → within a r = true.
Proof. unfold untouching, within. intros H. apply bool_decide_eq_true in H. by rewrite H. Qed.

(** *** Paths *)

Lemma touched_numvfs a : touched_path (pciDevice hv a ++ [NumVfsFile]) = Some (TDevice a).
Proof.
  unfold touched_path, pciDevice. rewrite <- !app_assoc, strip_prefix_app. cbn. done.
Qed.

Lemma touched_rule n a :
  touched_path (getRulePathForPF hv n a) = Some (TRule (n +:+ "-" +:+ a +:+ ".rules")).
Proof.
  unfold touched_path, getRulePathForPF, getRuleFolderPath.
  rewrite <- !app_assoc, !strip_prefix_app. cbn. done.
Qed.

Lemma touched_bus rest :
  rest ≠ [] → (∀ a, rest ≠ ["pci"; "devices"; a; NumVfsFile]) →
  touched_path (FilesystemRoot hv ++ SysBus ++ rest) = None.
Proof.
  intros Hne H. unfold touched_path. rewrite !strip_prefix_app.
  change (strip_prefix UdevRulesFolder (SysBus ++ rest)) with (@None Path).
  change (strip_prefix SysBusPciDevices (SysBus ++ rest)) with (strip_prefix ["pci"; "devices"] rest).
  destruct rest as [|b [|d [|a [|f [|? ?]]]]]; [done|..]; cbn -[String.eqb];
    repeat match goal with |- context [if String.eqb ?x ?y then _ else _] =>
      destruct (String.eqb_spec x y); subst; cbn -[String.eqb] end; try done.
  exfalso. eapply H. reflexivity.
Qed.

Lemma touched_device bus d f : f ≠ NumVfsFile → touched_path (devicePath hv bus d ++ [f]) = None.
Proof.
  intros Hf. unfold devicePath. rewrite <- !app_assoc. apply touched_bus; [done|].
  intros a [= -> -> ->]. done.
Qed.

Lemma touched_driver bus d f : touched_path (driverPath hv bus d f) = None.
Proof. unfold driverPath. apply touched_bus; [done|]. by intros a [= ->]. Qed.

Lemma touched_probe bus : touched_path (FilesystemRoot hv ++ SysBus ++ [bus; "drivers_probe"]) = None.
Proof. by apply touched_bus. Qed.

Lemma touched_pfFile a : touched_path (pfFile hv a) = None.
Proof.
  unfold touched_path, pfFile, GetHostExtension.
  destruct (InChroot hv); rewrite <- ?app_assoc, !strip_prefix_app; done.
Qed.

(** *** The helpers *)

Abbreviation untouched := (only untouching).
Abbreviation pf a := (only (within a)).

Lemma untouched_request r : touched r = None → untouched (perform (resp := HostResp) r).
Proof. intros H. apply only_perform. by apply bool_decide_eq_true. Qed.

Lemma untouched_pf {A} a (p : hostM A) : untouched p → pf a p.
Proof. apply only_mono, within_untouching. Qed.

#[local] Hint Extern 1 (steady (free_world _) _ _ (perform _)) =>
  apply untouched_request; solve [reflexivity | apply touched_driver | apply touched_probe
    | apply touched_pfFile | by apply touched_device] : steady.

Lemma untouched_sys {A} (c : hostM (Errno + A)) : untouched c → untouched (sys c).
Proof. intros H. unfold sys. refine (steady_bind _ _ _ _ _ H _). intros ?. steady. Qed.
Lemma untouched_sysE c : untouched c → untouched (sysE c).
Proof. intros H. unfold sysE. refine (steady_bind _ _ _ _ _ H _). intros ?. steady. Qed.
Lemma pf_wrapping {A} P m (c : hostM (HostError + A)) : only P c → only P (wrapping m c).
Proof. intros H. unfold wrapping. refine (steady_bind _ _ _ _ _ H _). intros ?. steady. Qed.
Lemma pf_each {A} P (l : list A) f : (∀ x, only P (f x)) → only P (each l f).
Proof. intros H. induction l as [|x l IH]; cbn [each]; [steady|]. refine (steady_try _ _ _ _ _ (H x) _). auto. Qed.
Lemma pf_poll {A} P n (c : hostM (option A)) : only P c → only P (pollUntil n c).
Proof.
  intros H. induction n as [|n IH]; cbn [pollUntil]; [steady|].
  refine (steady_bind _ _ _ _ _ H _). intros [a|]; [steady|done].
Qed.
Lemma untouched_runE c args : untouched (runE c args).
Proof. unfold runE. steady. Qed.
#[local] Hint Resolve untouched_sys untouched_sysE pf_wrapping pf_each pf_poll untouched_runE : steady.

Lemma untouched_getDriver b d : untouched (getDriverByBusAndDevice hv b d).
Proof. unfold getDriverByBusAndDevice. steady. Qed.
#[local] Hint Resolve untouched_getDriver : steady.
Lemma untouched_setDriverOverride b d o : untouched (setDriverOverride hv b d o).
Proof. unfold setDriverOverride. steady. Qed.
#[local] Hint Resolve untouched_setDriverOverride : steady.
Lemma untouched_UnbindDriver b d : untouched (UnbindDriverByBusAndDevice hv b d).
Proof. unfold UnbindDriverByBusAndDevice, unbindDriver. steady. Qed.
#[local] Hint Resolve untouched_UnbindDriver : steady.
Lemma untouched_Unbind d : untouched (Unbind hv d).
Proof. apply untouched_UnbindDriver. Qed.
Lemma untouched_BindDriver b d n : untouched (BindDriverByBusAndDevice hv b d n).
Proof. unfold BindDriverByBusAndDevice, bindDriver. steady. Qed.
#[local] Hint Resolve untouched_BindDriver untouched_Unbind : steady.
Lemma untouched_BindDpdk d n : untouched (BindDpdkDriver hv d n).
Proof. unfold BindDpdkDriver. steady. Qed.
Lemma untouched_BindDefault d : untouched (BindDefaultDriver hv d).
Proof. unfold BindDefaultDriver, probeDriver. steady. Qed.
#[local] Hint Resolve untouched_BindDpdk untouched_BindDefault : steady.
Lemma untouched_Rebind d : untouched (RebindVfToDefaultDriver hv d).
Proof. unfold RebindVfToDefaultDriver. steady. Qed.
Lemma untouched_UnbindIfNeeded d b : untouched (UnbindDriverIfNeeded hv d b).
Proof. unfold UnbindDriverIfNeeded. steady. Qed.
Lemma untouched_HasDriver d : untouched (HasDriver hv d).
Proof. unfold HasDriver. steady. Qed.
#[local] Hint Resolve untouched_Rebind untouched_UnbindIfNeeded untouched_HasDriver : steady.

Lemma untouched_SwitchID n : untouched (GetPhysSwitchID hv n).
Proof. unfold GetPhysSwitchID. steady. Qed.
Lemma untouched_PortName n : untouched (GetPhysPortName hv n).
Proof. unfold GetPhysPortName. steady. Qed.
#[local] Hint Resolve untouched_SwitchID untouched_PortName : steady.
Lemma untouched_pickSwitchdev names d : untouched (pickSwitchdev hv names d).
Proof. induction names as [|n names IH]; cbn [pickSwitchdev]; unfold IsSwitchdev; steady. Qed.
#[local] Hint Resolve untouched_pickSwitchdev : steady.
Lemma untouched_TryGetInterfaceName a : untouched (TryGetInterfaceName hv a).
Proof. unfold TryGetInterfaceName. steady. Qed.
#[local] Hint Resolve untouched_TryGetInterfaceName : steady.
Lemma untouched_GetInterfaceIndex a : untouched (GetInterfaceIndex hv a).
Proof. unfold GetInterfaceIndex. steady. Qed.
Lemma untouched_GetNetdevMTU a : untouched (GetNetdevMTU hv a).
Proof. unfold GetNetdevMTU. steady. Qed.
Lemma untouched_retry n c : untouched c → untouched (retry n c).
Proof.
  intros H. induction n as [|n IH]; cbn [retry]; refine (steady_bind _ _ _ _ _ H _);
    intros [e|[]]; steady; done.
Qed.
Lemma untouched_SetNetdevMTU a m : untouched (SetNetdevMTU hv a m).
Proof.
  unfold SetNetdevMTU. destruct (m <=? 0); [steady|]. apply untouched_retry. unfold setMTUOnce. steady.
Qed.
Lemma untouched_GetLinkType n : untouched (GetLinkType n).
Proof. unfold GetLinkType. steady. Qed.
Lemma untouched_GetNicSriovMode a : untouched (GetNicSriovMode a).
Proof. unfold GetNicSriovMode. steady. Qed.
Lemma untouched_EnableHwTcOffload n : untouched (EnableHwTcOffload n).
Proof. unfold EnableHwTcOffload. steady. Qed.
Lemma untouched_GetDevlinkDeviceParam a n : untouched (GetDevlinkDeviceParam a n).
Proof. unfold GetDevlinkDeviceParam. steady. Qed.
#[local] Hint Resolve untouched_GetInterfaceIndex untouched_GetNetdevMTU untouched_SetNetdevMTU
  untouched_GetLinkType untouched_GetNicSriovMode untouched_EnableHwTcOffload
  untouched_GetDevlinkDeviceParam : steady.

Lemma untouched_CreateVDPA a t : untouched (CreateVDPADevice hv a t).
Proof. unfold CreateVDPADevice, newVDPADevice. steady. Qed.
Lemma untouched_DeleteVDPA a : untouched (DeleteVDPADevice a).
Proof. unfold DeleteVDPADevice. steady. Qed.
Lemma untouched_randomOctets n : untouched (randomOctets n).
Proof. induction n; cbn [randomOctets]; steady. Qed.
#[local] Hint Resolve untouched_CreateVDPA untouched_DeleteVDPA untouched_randomOctets : steady.
Lemma untouched_ConfigureVfGUID pool v p i l : untouched (ConfigureVfGUID pool v p i l).
Proof. unfold ConfigureVfGUID, generateRandomGUID, applyVfGUIDToInterface. steady. Qed.
Lemma untouched_VFIsReady a : untouched (VFIsReady hv a).
Proof. unfold VFIsReady, vfLinkOnce. steady. apply pf_poll. steady. Qed.
#[local] Hint Resolve untouched_ConfigureVfGUID untouched_VFIsReady : steady.
Lemma untouched_configVfAddress pool i l a v : untouched (configVfAddress hv pool i l a v).
Proof. unfold configVfAddress, SetVfAdminMac. steady. Qed.
Lemma untouched_configVfDriver i g a : untouched (configVfDriver hv i g a).
Proof. unfold configVfDriver. steady. Qed.
#[local] Hint Resolve untouched_configVfAddress untouched_configVfDriver : steady.
Lemma untouched_configVF pool i l a : untouched (configVF hv pool i l a).
Proof. unfold configVF. steady. Qed.
#[local] Hint Resolve untouched_configVF : steady.
Lemma untouched_configVFs pool i : untouched (configSriovVFDevices hv pool i).
Proof. unfold configSriovVFDevices. steady. Qed.
Lemma untouched_unbindAll a : untouched (unbindAllVFsOnPF hv a).
Proof. unfold unbindAllVFsOnPF. steady. Qed.
#[local] Hint Resolve untouched_configVFs untouched_unbindAll : steady.

(** *** The PF's own helpers *)

Lemma pf_request a r : within a r = true → pf a (perform (resp := HostResp) r).
Proof. apply only_perform. Qed.

Lemma within_numvfs a d : within a (WriteFile (pciDevice hv a ++ [NumVfsFile]) d) = true.
Proof. unfold within. cbn [touched]. rewrite touched_numvfs. cbn. apply String.eqb_refl. Qed.

Lemma within_device a r : touched r = Some (TDevice a) → within a r = true.
Proof. unfold within. intros ->. apply String.eqb_refl. Qed.

Lemma pf_sysE a c : pf a c → pf a (sysE c).
Proof. intros H. unfold sysE. refine (steady_bind _ _ _ _ _ H _). intros ?. steady. Qed.

#[local] Hint Resolve within_numvfs pf_sysE : steady.
#[local] Hint Extern 2 (steady (free_world _) (λ _ r, within _ r = true) _ _) =>
  first [apply pf_request; by apply within_device | apply pf_request; apply within_numvfs
        | apply untouched_pf; solve [auto with steady]] : steady.

Lemma pf_SetSriovNumVfs a n : pf a (SetSriovNumVfs hv a n).
Proof. unfold SetSriovNumVfs. steady. Qed.
Lemma pf_SetNicSriovMode a m : pf a (SetNicSriovMode a m).
Proof. unfold SetNicSriovMode. steady. Qed.
Lemma pf_detach a : pf a (detachUplinkAndVFRepresentorsFromBridge hv a).
Proof. unfold detachUplinkAndVFRepresentorsFromBridge. steady. Qed.
Lemma untouched_waitForVFLinks a n : untouched (waitForVFLinks hv a n).
Proof.
  assert (H : ∀ l, untouched (allLinked hv l)) by (induction l; cbn [allLinked]; steady).
  unfold waitForVFLinks. steady. apply pf_poll. unfold vfLinksReady. steady.
Qed.
#[local] Hint Resolve pf_SetSriovNumVfs pf_SetNicSriovMode pf_detach untouched_waitForVFLinks : steady.
Lemma pf_setEswitch a m n : pf a (setEswitchModeAndNumVFs hv a m n).
Proof.
  unfold setEswitchModeAndNumVFs, setEswitchModeAndNumVFsIce, setEswitchModeAndNumVFsMlx. steady.
Qed.
#[local] Hint Resolve pf_setEswitch : steady.
Lemma pf_ResetSriovDevice initial st : pf (ie_PciAddress st) (ResetSriovDevice hv initial st).
Proof. unfold ResetSriovDevice. steady. Qed.
Lemma pf_createVFs i : pf (if_PciAddress i) (createVFs hv i).
Proof. unfold createVFs. steady. Qed.

(** Rules. *)
Lemma within_rule n a r :
  touched r = touched_path (getRulePathForPF hv n a) → n ∈ ["10-nm-disable"; "10-pf-name"; "20-switchdev"] →
  within a r = true.
Proof.
  intros Hr Hn. unfold within. rewrite Hr, touched_rule. cbn [belongs]. apply bool_decide_eq_true.
  unfold rule_files. apply list_elem_of_fmap. by exists n.
Qed.
Lemma pf_addUdevRule n a c :
  n ∈ ["10-nm-disable"; "10-pf-name"; "20-switchdev"] → pf a (addUdevRule hv a n c).
Proof.
  intros Hn. assert (Hw : pf a (sysE (perform (WriteFile (getRulePathForPF hv n a) c))))
    by (apply pf_sysE, pf_request; by eapply within_rule).
  unfold addUdevRule. steady; exact Hw.
Qed.
Lemma pf_removeUdevRule n a :
  n ∈ ["10-nm-disable"; "10-pf-name"; "20-switchdev"] → pf a (removeUdevRule hv a n).
Proof.
  intros Hn. unfold removeUdevRule. steady. apply pf_request. by eapply within_rule.
Qed.
Lemma pf_removeUdevRules a : pf a (removeUdevRules hv a).
Proof.
  unfold removeUdevRules, RemoveDisableNMUdevRule, RemoveVfRepresentorUdevRule, RemovePersistPFNameUdevRule.
  steady; apply pf_removeUdevRule; set_solver.
Qed.
Lemma pf_addUdevRules i : pf (if_PciAddress i) (addUdevRules hv i).
Proof.
  unfold addUdevRules, AddDisableNMUdevRule, AddPersistPFNameUdevRule.
  steady; apply pf_addUdevRule; set_solver.
Qed.
Lemma pf_addVfRepresentorUdevRule i : pf (if_PciAddress i) (addVfRepresentorUdevRule hv i).
Proof.
  unfold addVfRepresentorUdevRule, AddVfRepresentorUdevRule. steady. apply pf_addUdevRule. set_solver.
Qed.
#[local] Hint Resolve pf_ResetSriovDevice pf_createVFs pf_removeUdevRules pf_addUdevRules
  pf_addVfRepresentorUdevRule : steady.
Lemma pf_SetDevlinkDeviceParam a n v : pf a (SetDevlinkDeviceParam a n v).
Proof. unfold SetDevlinkDeviceParam. steady. Qed.
#[local] Hint Resolve pf_SetDevlinkDeviceParam : steady.
Lemma pf_configureHWOptions i : pf (if_PciAddress i) (configureHWOptionsForSwitchdev hv i).
Proof. unfold configureHWOptionsForSwitchdev. steady. Qed.
#[local] Hint Resolve pf_configureHWOptions : steady.
Lemma pf_configSriovPFDevice i : pf (if_PciAddress i) (configSriovPFDevice hv i).
Proof. unfold configSriovPFDevice. steady. Qed.
Lemma untouched_checkExternallyManagedPF i : untouched (checkExternallyManagedPF hv i).
Proof. unfold checkExternallyManagedPF. steady. Qed.
#[local] Hint Resolve pf_configSriovPFDevice untouched_checkExternallyManagedPF : steady.

(** A managed PF touches itself; an externally managed one is not touched. *)
Lemma pf_configSriovDevice pool i skip : pf (if_PciAddress i) (configSriovDevice hv pool i skip).
Proof. unfold configSriovDevice. steady. Qed.
Lemma untouched_configSriovDevice pool i skip :
  if_ExternallyManaged i = true → untouched (configSriovDevice hv pool i skip).
Proof. intros H. unfold configSriovDevice. rewrite H. steady. Qed.
End touched.

(** ** The guarantee *)

Definition said (r : HostReq) (x : HostResp r) : event HostResp := existT r x.

Section guarantee.
Context (hv : HostVars).
Context (MarshalInterface : Interface → string + string)
        (UnmarshalInterface : string → string + Interface).
Context (InitialState : SriovNetworkNodeState) (guidPool : option (gmap string ibPfGUIDConfig)).
Context (interfaces : list Interface) (ifaceStatuses : list InterfaceExt).

(** The specification lists the PF as managed by the operator, it was found, and
    it is not as the specification asks. *)
Definition to_configure (a : string) : Prop :=
  ∃ i st, i ∈ interfaces ∧ st ∈ ifaceStatuses ∧ if_PciAddress i = a ∧ ie_PciAddress st = a ∧
    if_ExternallyManaged i = false ∧ NeedToUpdateSriov i st = Ok true.

(** The PF was found, the specification does not list it, and the store was read
    and says that the operator configured it and that it is managed. *)
Definition to_reset (h : list (event HostResp)) (a : string) : Prop :=
  (∀ i, i ∈ interfaces → if_PciAddress i ≠ a) ∧ (∃ st, st ∈ ifaceStatuses ∧ ie_PciAddress st = a) ∧
  ∃ data s, said (ReadFile (pfFile hv a)) (inr data) ∈ h ∧ UnmarshalInterface data = inr s ∧
    if_ExternallyManaged s = false.

Definition justified (h : list (event HostResp)) (a : string) : Prop := to_configure a ∨ to_reset h a.

Definition permitted (h : list (event HostResp)) (r : HostReq) : Prop :=
  match touched hv r with
  | None => True
  | Some t => ∃ a, belongs a t = true ∧ justified h a
  end.

Lemma justified_mono h h' a : extends h h' → justified h a → justified h' a.
Proof.
  intros E [?|(? & ? & data & s & Hs & ?)]; [by left|right]. split_and!; [done|done|].
  exists data, s. split; [|done]. by apply E.
Qed.

Lemma permitted_mono h h' r : extends h h' → permitted h r → permitted h' r.
Proof.
  unfold permitted. intros E. destruct (touched hv r) as [t|]; [|done].
  intros (a & Hb & Hj). exists a. split; [done|]. by eapply justified_mono.
Qed.

Abbreviation hw := (history_world HostResp).

(** A program that touches only a justified PF. *)
Lemma wp_within {A} a (p : hostM A) h :
  only (within hv a) p → justified h a → wp hw permitted p (λ _ h', extends h h') h.
Proof.
  intros Hp. revert h. specialize (Hp tt). induction p as [x|r k IH]; intros h Hj; [cbn; reflexivity|].
  destruct Hp as [Hr Hk]. split.
  - unfold permitted. unfold within in Hr. destruct (touched hv r); [|done]. by exists a.
  - intros x h' ->. eapply wp_post; [apply IH; [by apply (Hk x tt)|]|].
    + eapply justified_mono; [apply extends_snoc|done].
    + intros y h' E. etransitivity; [apply extends_snoc|exact E].
Qed.

Lemma wp_untouched {A} (p : hostM A) h :
  only (untouching hv) p → wp hw permitted p (λ _ h', extends h h') h.
Proof.
  intros Hp. revert h. specialize (Hp tt). induction p as [x|r k IH]; intros h; [cbn; reflexivity|].
  destruct Hp as [Hr Hk]. split.
  - unfold permitted. unfold untouching in Hr. apply bool_decide_eq_true in Hr. by rewrite Hr.
  - intros x h' ->. eapply wp_post; [apply IH; by apply (Hk x tt)|].
    intros y h' E. etransitivity; [apply extends_snoc|exact E].
Qed.

Lemma untouched_SaveLast i : only (untouching hv) (SaveLastPfAppliedStatus hv MarshalInterface i).
Proof.
  unfold SaveLastPfAppliedStatus. destruct (MarshalInterface i); [steady|].
  apply untouched_sysE, untouched_request, touched_pfFile.
Qed.

(** *** The lists *)

Definition good_config (tc : interfaceToConfigure) : Prop :=
  tc_Iface tc ∈ interfaces ∧ tc_IfaceStatus tc ∈ ifaceStatuses ∧
  if_PciAddress (tc_Iface tc) = ie_PciAddress (tc_IfaceStatus tc) ∧
  NeedToUpdateSriov (tc_Iface tc) (tc_IfaceStatus tc) = Ok true.

Definition good_reset (st : InterfaceExt) : Prop :=
  st ∈ ifaceStatuses ∧ ∀ i, i ∈ interfaces → if_PciAddress i ≠ ie_PciAddress st.

Lemma good_config_justified h tc :
  good_config tc → if_ExternallyManaged (tc_Iface tc) = false → justified h (if_PciAddress (tc_Iface tc)).
Proof. intros (? & ? & ? & ?) He. left. eexists _, _. split_and!; done. Qed.

Lemma wp_scanInterfaces st l b acc h :
  st ∈ ifaceStatuses → (∀ i, i ∈ l → i ∈ interfaces) → Forall good_config acc →
  (b = false → ∀ i, i ∈ interfaces → i ∉ l → if_PciAddress i ≠ ie_PciAddress st) →
  wp hw permitted (scanInterfaces hv MarshalInterface st l b acc) (λ r h', extends h h' ∧
    ∀ b' acc', r = inr (b', acc') → Forall good_config acc' ∧
      (b' = false → ∀ i, i ∈ interfaces → if_PciAddress i ≠ ie_PciAddress st)) h.
Proof.
  intros Hst. revert b acc h. induction l as [|i l IH]; intros b acc h Hl Hacc Hb; cbn [scanInterfaces].
  { cbn. split; [done|]. intros b' acc' [= <- <-]. split; [done|]. intros Hf j Hj. apply Hb; set_solver. }
  destruct (String.eqb_spec (if_PciAddress i) (ie_PciAddress st)) as [E|E].
  - apply wp_try. unfold skipSriovConfig. destruct (NeedToUpdateSriov i st) as [[]|e|] eqn:Hn; cbn [lift].
    + cbn. apply IH; [set_solver| |done]. apply Forall_app. split; [done|]. constructor; [|done].
      split_and!; [set_solver|done..].
    + apply wp_try. eapply wp_post; [apply wp_untouched, untouched_SaveLast|].
      intros [e|[]] h' Eh; cbn; split; [exact Eh|done|exact Eh|]. by intros b' acc' [= <- <-].
    + by cbn.
    + by cbn.
  - apply IH; [set_solver|done|]. intros Hf j Hj Hnj. destruct (decide (j = i)) as [->|]; [done|].
    apply Hb; set_solver.
Qed.

Lemma hist_configureAndReset l acc racc h :
  (∀ st, st ∈ l → st ∈ ifaceStatuses) → Forall good_config acc → Forall good_reset racc →
  wp hw permitted (configureAndReset hv MarshalInterface interfaces l acc racc) (λ r h', extends h h' ∧
    ∀ c d, r = inr (c, d) → Forall good_config c ∧ Forall good_reset d) h.
Proof.
  revert acc racc h. induction l as [|st l IH]; intros acc racc h Hl Hacc Hracc; cbn [configureAndReset].
  { cbn. split; [done|]. by intros c d [= <- <-]. }
  apply wp_try. eapply wp_post; [apply wp_scanInterfaces; [set_solver|done|done|done]|].
  intros [e|[b acc']] h' [E H]; [by cbn|]. destruct (H _ _ eq_refl) as [H1 H2].
  eapply wp_post; [apply IH; [set_solver|done|]|].
  - destruct b; [done|]. apply Forall_app. split; [done|]. constructor; [|done]. split; [set_solver|auto].
  - intros r h'' [E' H']. split; [by transitivity h'|done].
Qed.

(** *** Configuration and reset of one PF *)

Lemma wp_configDevice tc skip h :
  good_config tc →
  wp hw permitted (configSriovDevice hv guidPool (tc_Iface tc) skip) (λ _ h', extends h h') h.
Proof.
  intros Hg. destruct (if_ExternallyManaged (tc_Iface tc)) eqn:He.
  - by apply wp_untouched, untouched_configSriovDevice.
  - eapply wp_within; [apply pf_configSriovDevice|by apply good_config_justified].
Qed.

Lemma wp_resetDevice tc h :
  good_config tc → if_ExternallyManaged (tc_Iface tc) = false →
  wp hw permitted (ResetSriovDevice hv InitialState (tc_IfaceStatus tc)) (λ _ h', extends h h') h.
Proof.
  intros Hg He. eapply wp_within; [apply pf_ResetSriovDevice|].
  rewrite <- (proj1 (proj2 (proj2 Hg))). by apply good_config_justified.
Qed.

Lemma hist_configThread skip tc h :
  good_config tc → wp hw permitted (configThread hv InitialState guidPool skip tc) (λ _ _, True) h.
Proof.
  intros Hg. unfold configThread. apply wp_bind. eapply wp_post; [by apply wp_configDevice|].
  intros [e|[]] h' E; [|done]. destruct (if_ExternallyManaged (tc_Iface tc)) eqn:He; [by destruct e|].
  destruct e; try done; apply wp_bind; (eapply wp_post; [by apply wp_resetDevice|done]).
Qed.

Lemma hist_configSriovInterfaces l skip h :
  Forall good_config l →
  wp hw permitted (configSriovInterfaces hv MarshalInterface InitialState guidPool l skip)
    (λ _ h', extends h h') h.
Proof.
  intros Hl. revert h. induction Hl as [|tc l Hg _ IH]; intros h; cbn [configSriovInterfaces]; [cbn; reflexivity|].
  apply wp_bind. eapply wp_post; [by apply wp_configDevice|]. cbn. intros [e|[]] h' E.
  - assert (Hr : ∀ e', wp hw permitted
      (if if_ExternallyManaged (tc_Iface tc) then Ret (inl e')
       else ResetSriovDevice hv InitialState (tc_IfaceStatus tc) ≫= λ _, Ret (inl e'))
      (λ (_ : HostError + unit) h'', extends h h'') h').
    { intros e'. destruct (if_ExternallyManaged (tc_Iface tc)) eqn:He; [done|]. apply wp_bind.
      eapply wp_post; [by apply wp_resetDevice|]. intros r h'' E'. cbn. by transitivity h'. }
    destruct e; try apply Hr. done.
  - apply wp_try. eapply wp_post; [apply wp_untouched, untouched_SaveLast|].
    intros [e|[]] h'' E'; [cbn; by transitivity h'|]. eapply wp_post; [apply IH|].
    intros r h3 E3. cbn in *. transitivity h''; [|done]. by transitivity h'.
Qed.

Lemma hist_checkForConfigAndReset st h :
  good_reset st →
  wp hw permitted (checkForConfigAndReset hv UnmarshalInterface InitialState st) (λ _ h', extends h h') h.
Proof.
  intros [Hst Hno]. unfold checkForConfigAndReset, LoadPfsStatus, RemovePfAppliedStatus.
  assert (Hrm : ∀ h', wp hw permitted (sysE (perform (RemoveAll (pfFile hv (ie_PciAddress st)))))
    (λ _ h'', extends h' h'') h')
    by (intros h'; apply wp_untouched, untouched_sysE, untouched_request, touched_pfFile).
  apply wp_try, wp_perform; [done|]. intros x h1 ->. set (h1 := h ++ _). apply wp_ret.
  assert (E1 : extends h h1) by apply extends_snoc.
  destruct x as [e|data]; [by destruct (is_not_exist e)|]. destruct (UnmarshalInterface data) as [e|s] eqn:Hu; [done|].
  destruct (if_ExternallyManaged s) eqn:He.
  { eapply wp_post; [apply Hrm|]. intros r h' E. by transitivity h1. }
  assert (Hj : justified h1 (ie_PciAddress st)).
  { right. split_and!; [done|by exists st|]. exists data, s. split; [|done]. set_solver. }
  apply wp_try. eapply wp_post; [eapply wp_within; [apply pf_removeUdevRules|exact Hj]|].
  intros [e|[]] h2 E2; [by transitivity h1|]. apply wp_try.
  apply (wp_post hw _ _ (λ _ h', extends h2 h')).
  - destruct (0 <? ie_NumVfs st); [|cbn; reflexivity].
    eapply wp_within; [apply pf_ResetSriovDevice|by eapply justified_mono].
  - intros [e|[]] h3 E3; [transitivity h1; [done|by transitivity h2]|].
    eapply wp_post; [apply Hrm|]. intros r h4 E4.
    transitivity h1; [done|]. transitivity h2; [done|]. by transitivity h3.
Qed.

(** *** All PFs at once *)

Abbreviation allowed_in h := (λ t, wp hw permitted t (λ _ _, True) h).

Lemma allowed_mono {A} (l : list (hostM A)) h h' :
  extends h h' → Forall (allowed_in h) l → Forall (allowed_in h') l.
Proof.
  intros E H. eapply Forall_impl; [exact H|]. intros t. by apply wp_history_mono; [apply permitted_mono|].
Qed.

Lemma hist_spawnAndSave sched skip l running finished h :
  Forall good_config l → Forall (allowed_in h) running →
  wp hw permitted (spawnAndSave hv MarshalInterface InitialState guidPool sched skip l running finished)
    (λ '(_, running') h', extends h h' ∧ Forall (allowed_in h') running') h.
Proof.
  intros Hl. revert sched running finished h.
  induction Hl as [|tc l Hg _ IH]; intros sched running finished h Hr; cbn [spawnAndSave]; [by split|].
  apply wp_bind. eapply wp_post; [apply wp_history_interleave; [apply permitted_mono|]|].
  { apply Forall_app. split; [done|]. constructor; [by apply hist_configThread|done]. }
  intros [finished' running'] h1 [E1 H1]. apply wp_bind.
  eapply wp_post; [apply wp_untouched, untouched_SaveLast|]. intros [e|[]] h2 E2.
  { split; [by transitivity h1|by eapply allowed_mono]. }
  eapply wp_post; [apply IH; by eapply allowed_mono|]. intros [r running''] h3 [E3 H3].
  split; [|done]. transitivity h1; [done|by transitivity h2].
Qed.

Lemma hist_configParallel sched l skip h :
  Forall good_config l →
  wp hw permitted (configSriovInterfacesInParallel hv MarshalInterface InitialState guidPool sched l skip)
    (λ '(_, running) h', extends h h' ∧ Forall (allowed_in h') running) h.
Proof.
  intros Hl. unfold configSriovInterfacesInParallel. apply wp_bind.
  eapply wp_post; [by apply hist_spawnAndSave|]. intros [[e|finished] running] h1 [E1 H1]; [by split|].
  apply wp_bind. eapply wp_post; [apply wp_history_interleave; [apply permitted_mono|done]|].
  intros [finished' running'] h2 [E2 H2]. apply wp_bind.
  eapply wp_post; [apply wp_history_extends, wp_history_join; [apply permitted_mono|done]|].
  intros rest h3 [E3 _]. split; [|done]. transitivity h1; [done|by transitivity h2].
Qed.

Lemma wp_resetThread st h :
  good_reset st →
  wp hw permitted (resetThread hv UnmarshalInterface InitialState st) (λ _ _, True) h.
Proof.
  intros Hst. unfold resetThread. apply wp_bind. eapply wp_post; [by apply hist_checkForConfigAndReset|]. by intros.
Qed.

Lemma hist_resetParallel sched l h :
  Forall good_reset l →
  wp hw permitted (resetSriovInterfacesInParallel hv UnmarshalInterface InitialState sched l)
    (λ _ h', extends h h') h.
Proof.
  intros Hl. unfold resetSriovInterfacesInParallel. apply wp_bind.
  eapply wp_post; [apply wp_history_extends, wp_history_parallel; [apply permitted_mono|]|].
  - apply Forall_fmap. eapply Forall_impl; [exact Hl|]. intros st. apply wp_resetThread.
  - by intros errs h' [E _].
Qed.

Lemma wp_resetSriovInterfaces l h :
  Forall good_reset l →
  wp hw permitted (resetSriovInterfaces hv UnmarshalInterface InitialState l) (λ _ h', extends h h') h.
Proof.
  intros Hl. revert h. unfold resetSriovInterfaces.
  induction Hl as [|st l Hst _ IH]; intros h; cbn [each]; [cbn; reflexivity|].
  apply wp_try. eapply wp_post; [by apply hist_checkForConfigAndReset|]. intros [e|[]] h1 E1; [done|].
  eapply wp_post; [apply IH|]. intros r h2 E2. by transitivity h1.
Qed.

(** *** The whole *)

Lemma hist_ConfigSriovInterfaces sched skip h :
  wp hw permitted
    (ConfigSriovInterfaces hv MarshalInterface UnmarshalInterface InitialState guidPool sched interfaces
       ifaceStatuses skip)
    (λ '(_, running) h', extends h h' ∧ Forall (allowed_in h') running) h.
Proof.
  unfold ConfigSriovInterfaces, getConfigureAndReset. apply wp_bind.
  eapply wp_post; [by apply hist_configureAndReset|].
  intros [e|[c d]] h1 [E1 H1]; [by split|]. destruct (H1 _ _ eq_refl) as [Hc Hd]. apply wp_bind.
  apply (wp_post hw _ _ (λ '(_, running) h', extends h h' ∧ Forall (allowed_in h') running)).
  { destruct (ParallelNicConfig hv).
    - eapply wp_post; [by apply hist_configParallel|]. intros [r running] h2 [E2 H2].
      split; [by transitivity h1|done].
    - apply wp_bind. eapply wp_post; [by apply hist_configSriovInterfaces|]. intros r h2 E2.
      split; [by transitivity h1|done]. }
  intros [[e|[]] running] h2 [E2 H2]; [by split|]. apply wp_bind.
  apply (wp_post hw _ _ (λ _ h', extends h2 h')).
  { destruct (ContainsSwitchdevInterface interfaces && _); [|cbn; reflexivity].
    apply wp_untouched. unfold LoadUdevRules. steady; apply untouched_runE. }
  intros [e|[]] h3 E3; [split; [by transitivity h2|by eapply allowed_mono]|]. apply wp_bind.
  apply (wp_post hw _ _ (λ _ h', extends h3 h')).
  { destruct (ParallelNicConfig hv); [by apply hist_resetParallel|by apply wp_resetSriovInterfaces]. }
  intros r h4 E4. assert (E24 : extends h2 h4) by (by transitivity h3).
  split; [by transitivity h2|by eapply allowed_mono].
Qed.

End guarantee.

(** ** Property *)

(** C5: whatever the host answers and however the goroutines interleave,
    [ConfigSriovInterfaces] changes the number of VFs, the eswitch mode, the
    devlink parameters, the bridge or the udev rules of a PF only if the
    specification lists the PF as managed and it differs from it, or if the
    specification does not list it and the store was read before and says that
    the operator manages it; goroutines it leaves running when it returns keep
    to the same. *)
Theorem ConfigSriovInterfaces_touches_only_managed (hv : HostVars)
    (MarshalInterface : Interface → string + string) (UnmarshalInterface : string → string + Interface)
    (InitialState : SriovNetworkNodeState) (guidPool : option (gmap string ibPfGUIDConfig))
    (sched : Schedule) (interfaces : list Interface) (ifaceStatuses : list InterfaceExt) (skip : bool)
    (tr : list (list (event HostResp) * HostReq)) r running h :
  exec (history_world HostResp)
    (ConfigSriovInterfaces hv MarshalInterface UnmarshalInterface InitialState guidPool sched interfaces
       ifaceStatuses skip) [] tr (r, running) h →
  (∀ h' q, (h', q) ∈ tr → permitted hv UnmarshalInterface interfaces ifaceStatuses h' q) ∧
  ∀ t tr' x h'', t ∈ running → exec (history_world HostResp) t h tr' x h'' →
    ∀ h' q, (h', q) ∈ tr' → permitted hv UnmarshalInterface interfaces ifaceStatuses h' q.
Proof.
  intros H. destruct (wp_exec _ _ _ _ _ _ _ _ (hist_ConfigSriovInterfaces _ _ _ _ _ _ _ _ _ _) H) as [[_ Hrun] Htr].
  rewrite Forall_forall in Htr. rewrite Forall_forall in Hrun. split; [intros h' q Hq; exact (Htr _ Hq)|].
  intros t tr' x h'' Ht Hex. destruct (wp_exec _ _ _ _ _ _ _ _ (Hrun t Ht) Hex) as [_ Htr'].
  rewrite Forall_forall in Htr'. intros h' q Hq. exact (Htr' _ Hq).
Qed.

(** ** A host *)

Definition demo_handle (h : list (event HostResp)) (r : HostReq) : HostResp r * list (event HostResp) :=
  (demo_answer r, h ++ [existT r (demo_answer r)]).

Definition demo_schedule : Schedule := mkSchedule [[0; 0; 0]%nat] [0; 0; 0; 0]%nat [1; 0; 1; 1]%nat.

Definition demo_config (parallel : bool) :=
  ConfigSriovInterfaces (demo_vars parallel) demo_marshal demo_unmarshal demo_state None
    demo_schedule [demo_iface "a"]
    [demo_status "a"; demo_status "b"; demo_status "c"] false.

Lemma demo_exec parallel :
  exec (history_world HostResp) (demo_config parallel) [] (trace demo_handle (demo_config parallel) [])
    ((run demo_handle (demo_config parallel) []).1.1, (run demo_handle (demo_config parallel) []).1.2)
    (run demo_handle (demo_config parallel) []).2.
Proof.
  rewrite <- surjective_pairing. apply (run_exec (history_world HostResp) demo_handle (λ _, True)); [done|exact I].
Qed.

(** All requests of the run are permitted; "a" and "b" were touched, "c" was
    not. *)
Lemma ConfigSriovInterfaces_touches_only_managed_witness :
  (∀ h q, (h, q) ∈ trace demo_handle (demo_config true) [] →
     permitted (demo_vars true) demo_unmarshal [demo_iface "a"]
       [demo_status "a"; demo_status "b"; demo_status "c"] h q) ∧
  (run demo_handle (demo_config true) []).1 = (inr tt, []) ∧
  omap (λ hq, touched (demo_vars true) hq.2) (trace demo_handle (demo_config true) [])
    = ((λ n, TRule (n +:+ "-a.rules")) <$> ["10-nm-disable"; "20-switchdev"; "10-pf-name"; "10-nm-disable"]) ++
      [TDevice "a"; TDevice "a"] ++
      ((λ n, TRule (n +:+ "-b.rules")) <$> ["10-nm-disable"; "20-switchdev"; "10-pf-name"]) ++ [TDevice "b"].
Proof.
  split_and!.
  - exact (proj1 (ConfigSriovInterfaces_touches_only_managed (demo_vars true) demo_marshal demo_unmarshal demo_state
      None demo_schedule [demo_iface "a"] [demo_status "a"; demo_status "b"; demo_status "c"] false _ _ _ _
      (demo_exec true))).
  - vm_compute. reflexivity.
  - vm_compute. reflexivity.
Defined.
