(* ===== verification/Render.v ===== *)
(** * Rendering manifests (pkg/render/render.go)

    text/template on the actions the repository's templates use, and the walk
    over a directory of manifests.  A file is given by what reading and parsing
    it gives; YAML decoding is a parameter.  Error texts leave out the template's
    text, which the code puts into the message. *)
From S2P Require Import Prelude GoLib.

(** ** Templates *)

Inductive DataValue :=
| DvString (s : string)
| DvInt (n : Z)
| DvBool (b : bool)
| DvStrings (l : list string)
| DvMap (m : gmap string string).

Definition RenderData : Type := gmap string DataValue.

(** [data.Data[k] = v], one after the other. *)
Definition assign (kvs : list (string * DataValue)) (d : RenderData) : RenderData :=
  foldl (λ d kv, <[kv.1 := kv.2]> d) d kvs.

(** The actions the templates use.  [TIf] and [TIfEq] are the conditions without
    [else] on a field and on a comparison with a constant. *)
Inductive Cond :=
| CField (key : string)
| CEq (key value : string)
| CNot (c : Cond)
| CAnd (c c' : Cond).

Inductive Tmpl :=
| TText (s : string)
| TField (key : string)
| TIf (key : string) (body : list Tmpl)
| TIfEq (key value : string) (body : list Tmpl)
| TIfElse (c : Cond) (body els : list Tmpl)
| TRange (key : string) (body : list Tmpl)      (* {{range .X}} over strings *)
| TRangeMap (key : string) (body : list Tmpl)   (* {{range $key, $value := .X}} *)
| TWithIndex (key : string) (body : list Tmpl)  (* {{with index . "X"}} *)
| TDot                                          (* {{.}} *)
| TKey                                          (* {{$key}} *)
| TValue.                                       (* {{$value}} *)

(** What [.] and the range variables are. *)
Inductive Env := Top | AtString (s : string) | AtEntry (k v : string).

(** [{{if .X}}]. *)
Definition truthy (v : DataValue) : bool :=
  match v with
  | DvString s => negb (String.eqb s "")
  | DvInt n => negb (n =? 0)
  | DvBool b => b
  | DvStrings l => negb (bool_decide (l = []))
  | DvMap m => negb (bool_decide (m = ∅))
  end.

Definition key_le (a b : string * string) : Prop := String.leb a.1 b.1 = true.

#[export] Instance key_le_dec : RelDecision key_le.
Proof. intros a b. apply bool_eq_dec. Defined.

(** The entries of a map in the order of the keys, as text/template and fmt
    visit them. *)
Definition entries_by_key (m : gmap string string) : list (string * string) := merge_sort key_le (map_to_list m).

(** [{{.X}}]. *)
Definition printed (v : DataValue) : string :=
  match v with
  | DvString s => s
  | DvInt n => Itoa n
  | DvBool b => if b then "true" else "false"
  | DvStrings l => "[" +:+ Join l " " +:+ "]"
  | DvMap m => "map[" +:+ Join ((λ kv, kv.1 +:+ ":" +:+ kv.2) <$> entries_by_key m) " " +:+ "]"
  end.

Section execute.
Context (d : RenderData).

(** A field of the data; inside a range over strings there is none. *)
Definition field (e : Env) (key : string) : option DataValue :=
  match e with Top => d !! key | AtEntry _ _ | AtString _ => None end.

(** [and] stops at the first false argument; [eq] fails on values of different
    kinds. *)
Fixpoint holds (e : Env) (c : Cond) : option bool :=
  match c with
  | CField key => truthy <$> field e key
  | CEq key value =>
      match field e key with
      | Some (DvString s) => Some (String.eqb s value)
      | _ => None
      end
  | CNot c => negb <$> holds e c
  | CAnd c c' => b ← holds e c; if b : bool then holds e c' else Some false
  end.

Fixpoint each {A} (f : A → option string) (l : list A) : option string :=
  match l with
  | [] => Some ""
  | x :: rest => a ← f x; b ← each f rest; Some (a +:+ b)
  end.

(** Execute a template with the option "missingkey=error"; [None] is the
    error.  Comparing a field that is not a string with one is an error too. *)
Fixpoint execute_one (e : Env) (t : Tmpl) : option string :=
  let fix all (e : Env) (l : list Tmpl) : option string :=
    match l with
    | [] => Some ""
    | t :: rest => a ← execute_one e t; b ← all e rest; Some (a +:+ b)
    end in
  match t with
  | TText s => Some s
  | TField key => v ← field e key; Some (printed v)
  | TIf key body => v ← field e key; if truthy v then all e body else Some ""
  | TIfEq key value body =>
      v ← field e key;
      match v with
      | DvString s => if String.eqb s value then all e body else Some ""
      | _ => None
      end
  | TIfElse c body els => b ← holds e c; if b : bool then all e body else all e els
  | TRange key body =>
      v ← field e key;
      match v with DvStrings l => each (λ s, all (AtString s) body) l | _ => None end
  | TRangeMap key body =>
      v ← field e key;
      match v with DvMap m => each (λ kv, all (AtEntry kv.1 kv.2) body) (entries_by_key m) | _ => None end
  | TWithIndex key body =>
      match e with
      | Top =>
          match d !! key with
          | Some v => if truthy v then all (AtString (printed v)) body else Some ""
          | None => Some ""
          end
      | _ => None
      end
  | TDot => match e with AtString s => Some s | AtEntry _ v => Some v | Top => None end
  | TKey => match e with AtEntry k _ => Some k | _ => None end
  | TValue => match e with AtEntry _ v => Some v | _ => None end
  end.

Fixpoint execute (e : Env) (l : list Tmpl) : option string :=
  match l with
  | [] => Some ""
  | t :: rest => a ← execute_one e t; b ← execute e rest; Some (a +:+ b)
  end.
End execute.

(** ** Directories of manifests *)

(** What reading a file and parsing it as a template gives. *)
Inductive Source := Unreadable (msg : string) | Unparsable (msg : string) | Parsed (t : list Tmpl).

(** One call of the function given to [filepath.Walk], in its order. *)
Record Entry := mkEntry {
  en_Path : string;
  en_Err : option string;
  en_IsDir : bool;
  en_Source : Source;
}.

Section render.
(** The documents a YAML decoder yields until the end of the text; one without
    content has no object.  And what text/template says when it fails. *)
Context {Unstructured : Type} (Decode : string → list (string + option Unstructured)).
Context (ExecError : RenderData → list Tmpl → string).

Definition renderTemplate (t : list Tmpl) (d : RenderData) : string + string :=
  match execute d Top t with
  | Some text => inr text
  | None => inl ("failed to render manifest: " +:+ ExecError d t)
  end.

Definition renderFileTemplate (path : string) (src : Source) (d : RenderData) : string + string :=
  match src with
  | Unreadable msg => inl ("failed to read manifest " +:+ path +:+ ": " +:+ msg)
  | Unparsable msg => inl ("failed to parse manifest as template: " +:+ msg)
  | Parsed t => renderTemplate t d
  end.

(** The loop over the decoder. *)
Fixpoint decodeAll (path : string) (docs : list (string + option Unstructured)) : string + list Unstructured :=
  match docs with
  | [] => inr []
  | inl err :: _ => inl ("failed to unmarshal manifest " +:+ path +:+ ": " +:+ err)
  | inr None :: rest => decodeAll path rest
  | inr (Some u) :: rest =>
      match decodeAll path rest with inl e => inl e | inr out => inr (u :: out) end
  end.

Definition RenderFileTemplate (path : string) (src : Source) (d : RenderData) : string + list Unstructured :=
  match renderFileTemplate path src d with
  | inl e => inl e
  | inr rendered => if String.eqb (TrimSpace rendered) "" then inr [] else decodeAll path (Decode rendered)
  end.

Definition isManifest (path : string) : bool :=
  HasSuffix path ".yml" || HasSuffix path ".yaml" || HasSuffix path ".json".

(** The walk stops at the first error. *)
Fixpoint walkManifests (entries : list Entry) (d : RenderData) : string + list Unstructured :=
  match entries with
  | [] => inr []
  | e :: rest =>
      match en_Err e with
      | Some err => inl err
      | None =>
          match (if en_IsDir e then inr []
                 else if negb (isManifest (en_Path e)) then inr []
                 else RenderFileTemplate (en_Path e) (en_Source e) d) with
          | inl err => inl err
          | inr objs => match walkManifests rest d with inl err => inl err | inr out => inr (objs ++ out) end
          end
      end
  end.

Definition RenderDir (entries : list Entry) (d : RenderData) : string + list Unstructured :=
  match walkManifests entries d with
  | inl err => inl ("error rendering manifests: " +:+ err)
  | inr out => inr out
  end.
End render.
