(* ===== verification/Networks.v ===== *)
(** * Networks (api/v1/helper.go, api/v1/*network_types.go)

    The three kinds of network a user can define, and what is rendered from
    them: the templates under bindata/manifests/cni-config and the data each kind
    hands to them. *)
From S2P Require Import Prelude GoLib Types Selector PoolConfig Render.

(** ** Types *)

Record SriovNetworkSpec := mkSriovNetworkSpec {
  sn_NetworkNamespace : string;
  sn_ResourceName : string;
  sn_Capabilities : string;
  sn_IPAM : string;
  sn_Vlan : Z;
  sn_VlanQoS : Z;
  sn_VlanProto : string;
  sn_SpoofChk : string;
  sn_Trust : string;
  sn_LinkState : string;
  sn_MinTxRate : option Z;
  sn_MaxTxRate : option Z;
  sn_MetaPluginsConfig : string;
  sn_LogLevel : string;
  sn_LogFile : string;
}.

Record SriovIBNetworkSpec := mkSriovIBNetworkSpec {
  ib_NetworkNamespace : string;
  ib_ResourceName : string;
  ib_Capabilities : string;
  ib_IPAM : string;
  ib_LinkState : string;
  ib_MetaPluginsConfig : string;
}.

Record TrunkConfig := mkTrunkConfig { tk_MinID : option Z; tk_MaxID : option Z; tk_ID : option Z }.

Record OVSNetworkSpec := mkOVSNetworkSpec {
  on_NetworkNamespace : string;
  on_ResourceName : string;
  on_Capabilities : string;
  on_IPAM : string;
  on_MetaPluginsConfig : string;
  on_Bridge : string;
  on_Vlan : Z;
  on_MTU : Z;
  on_Trunk : list TrunkConfig;
  on_InterfaceType : string;
}.

(** ** The templates *)

(** A member of the configuration: ["name":value,] or ["name":"value",]. *)
Definition raw_member (name key : string) : list Tmpl := [TText (quoted name +:+ ":"); TField key; TText ","].
Definition str_member (name key : string) : list Tmpl :=
  [TText (quoted name +:+ ":" +:+ dq); TField key; TText (dq +:+ ",")].

Abbreviation nl := newline.

(** The head of both templates. *)
Definition nad_head (name namespace resource : string) : list Tmpl :=
  [TText ("apiVersion: " +:+ quoted "k8s.cni.cncf.io/v1" +:+ nl +:+ "kind: NetworkAttachmentDefinition" +:+ nl +:+
          "metadata:" +:+ nl +:+ "  name: "); TField name;
   TText (nl +:+ "  namespace: "); TField namespace;
   TText (nl +:+ "  annotations:" +:+ nl +:+ "    k8s.v1.cni.cncf.io/resourceName: "); TField resource;
   TText (nl +:+ "    sriovnetwork.openshift.io/owner-ref: "); TField "Owner";
   TText (nl +:+ "spec:" +:+ nl +:+ "  config: '{" +:+ nl +:+ "  " +:+ quoted "cniVersion" +:+ ":" +:+ quoted "1.0.0" +:+
          "," +:+ nl +:+ "  " +:+ quoted "name" +:+ ":" +:+ dq); TField name; TText (dq +:+ ",");
   TIf "MetaPluginsConfigured" [TText (quoted "plugins" +:+ ": [" +:+ nl +:+ "    {")]]
  ++ str_member "type" "CniType".

Definition nad_tail (ipam : string) : list Tmpl :=
  [TField ipam; TText (nl +:+ "}");
   TIf "MetaPluginsConfigured" [TText ("," +:+ nl +:+ "  "); TField "MetaPlugins"; TText (nl +:+ "  ]" +:+ nl +:+ "}")];
   TText ("'" +:+ nl)].

(** sriov/sriov-cni-config.yaml *)
Definition sriov_template : list Tmpl :=
  nad_head "SriovNetworkName" "SriovNetworkNamespace" "SriovCniResourceName" ++
  [TIfEq "CniType" "sriov"
     (raw_member "vlan" "SriovCniVlan" ++
      [TIf "SpoofChkConfigured" (str_member "spoofchk" "SriovCniSpoofChk");
       TIf "TrustConfigured" (str_member "trust" "SriovCniTrust");
       TIf "VlanQoSConfigured" (raw_member "vlanQoS" "SriovCniVlanQoS");
       TIf "VlanProtoConfigured" (str_member "vlanProto" "SriovCniVlanProto");
       TIf "MinTxRateConfigured" (raw_member "min_tx_rate" "SriovCniMinTxRate");
       TIf "MaxTxRateConfigured" (raw_member "max_tx_rate" "SriovCniMaxTxRate")]);
   TIf "CapabilitiesConfigured" (raw_member "capabilities" "SriovCniCapabilities");
   TIf "StateConfigured" (str_member "link_state" "SriovCniState");
   TIf "LogLevelConfigured" (str_member "logLevel" "LogLevel");
   TIf "LogFileConfigured" (str_member "logFile" "LogFile")] ++
  nad_tail "SriovCniIpam".

(** ovs/ovs-cni-config.yaml *)
Definition ovs_template : list Tmpl :=
  nad_head "NetworkName" "NetworkNamespace" "CniResourceName" ++
  [TIf "CapabilitiesConfigured" (raw_member "capabilities" "CniCapabilities");
   TIf "Bridge" (str_member "bridge" "Bridge");
   TIf "VlanTag" (raw_member "vlan" "VlanTag");
   TIf "MTU" (raw_member "mtu" "MTU");
   TIf "Trunk" (raw_member "trunk" "Trunk");
   TIf "InterfaceType" (str_member "interface_type" "InterfaceType")] ++
  nad_tail "CniIpam".

(** ** The data of a network *)

Definition SriovCniStateEnable := "enable".
Definition SriovCniStateDisable := "disable".
Definition SriovCniStateAuto := "auto".
Definition SriovCniStateOff := "off".
Definition SriovCniStateOn := "on".
Definition SriovCniIpam := quoted "ipam".
Definition SriovCniIpamEmpty := SriovCniIpam +:+ ":{}".

(** A switch over the allowed values of a field. *)
Definition one_of (flag key field : string) (allowed : list string) : list (string * DataValue) :=
  (flag, DvBool true) ::
  (if StringInArray field allowed then [(key, DvString field)] else [(flag, DvBool false)]).

Definition if_set (flag key field : string) : list (string * DataValue) :=
  (flag, DvBool false) ::
  (if String.eqb field "" then [] else [(flag, DvBool true); (key, DvString field)]).

Definition capabilities (key field : string) : list (string * DataValue) :=
  if String.eqb field "" then [("CapabilitiesConfigured", DvBool false)]
  else [("CapabilitiesConfigured", DvBool true); (key, DvString field)].

Definition ipam (key field : string) : list (string * DataValue) :=
  [(key, DvString (if String.eqb field "" then SriovCniIpamEmpty
                   else SriovCniIpam +:+ ":" +:+ JoinFields field))].

Definition rate (flag key : string) (field : option Z) : list (string * DataValue) :=
  (flag, DvBool false) ::
  match field with
  | Some r => if 0 <=? r then [(flag, DvBool true); (key, DvInt r)] else []
  | None => []
  end.

Definition vlanQoS (qos : Z) : list (string * DataValue) :=
  if (qos <=? 7) && (0 <=? qos) then [("VlanQoSConfigured", DvBool true); ("SriovCniVlanQoS", DvInt qos)]
  else [("VlanQoSConfigured", DvBool false)].

Section data.
(** The environment variable RESOURCE_PREFIX. *)
Context (prefix : string).

Definition targetNamespace (networkNamespace : string) (m : ObjectMeta) : string :=
  if String.eqb networkNamespace "" then om_Namespace m else networkNamespace.

Definition SriovIBNetwork_data (gvk : GroupVersionKind) (m : ObjectMeta) (spec : SriovIBNetworkSpec) : RenderData :=
  assign
    ([("CniType", DvString "ib-sriov"); ("SriovNetworkName", DvString (om_Name m));
      ("SriovNetworkNamespace", DvString (targetNamespace (ib_NetworkNamespace spec) m));
      ("Owner", DvString (OwnerRefToString (Some (gvk, m))));
      ("SriovCniResourceName", DvString (prefix +:+ "/" +:+ ib_ResourceName spec))] ++
     one_of "StateConfigured" "SriovCniState" (ib_LinkState spec)
       [SriovCniStateEnable; SriovCniStateDisable; SriovCniStateAuto] ++
     capabilities "SriovCniCapabilities" (ib_Capabilities spec) ++
     ipam "SriovCniIpam" (ib_IPAM spec) ++
     if_set "MetaPluginsConfigured" "MetaPlugins" (ib_MetaPluginsConfig spec) ++
     [("LogLevelConfigured", DvBool false); ("LogFileConfigured", DvBool false)]) ∅.

Definition SriovNetwork_data (gvk : GroupVersionKind) (m : ObjectMeta) (spec : SriovNetworkSpec) : RenderData :=
  assign
    ([("CniType", DvString "sriov"); ("SriovNetworkName", DvString (om_Name m));
      ("SriovNetworkNamespace", DvString (targetNamespace (sn_NetworkNamespace spec) m));
      ("Owner", DvString (OwnerRefToString (Some (gvk, m))));
      ("SriovCniResourceName", DvString (prefix +:+ "/" +:+ sn_ResourceName spec));
      ("SriovCniVlan", DvInt (sn_Vlan spec))] ++
     vlanQoS (sn_VlanQoS spec) ++
     if_set "VlanProtoConfigured" "SriovCniVlanProto" (sn_VlanProto spec) ++
     capabilities "SriovCniCapabilities" (sn_Capabilities spec) ++
     one_of "SpoofChkConfigured" "SriovCniSpoofChk" (sn_SpoofChk spec) [SriovCniStateOff; SriovCniStateOn] ++
     one_of "TrustConfigured" "SriovCniTrust" (sn_Trust spec) [SriovCniStateOn; SriovCniStateOff] ++
     one_of "StateConfigured" "SriovCniState" (sn_LinkState spec)
       [SriovCniStateEnable; SriovCniStateDisable; SriovCniStateAuto] ++
     rate "MinTxRateConfigured" "SriovCniMinTxRate" (sn_MinTxRate spec) ++
     rate "MaxTxRateConfigured" "SriovCniMaxTxRate" (sn_MaxTxRate spec) ++
     ipam "SriovCniIpam" (sn_IPAM spec) ++
     if_set "MetaPluginsConfigured" "MetaPlugins" (sn_MetaPluginsConfig spec) ++
     [("LogLevelConfigured", DvBool (negb (String.eqb (sn_LogLevel spec) "")));
      ("LogLevel", DvString (sn_LogLevel spec));
      ("LogFileConfigured", DvBool (negb (String.eqb (sn_LogFile spec) "")));
      ("LogFile", DvString (sn_LogFile spec))]) ∅.

(** encoding/json on the trunk configuration. *)
Context (MarshalTrunk : list TrunkConfig → string).

Definition OVSNetwork_data (gvk : GroupVersionKind) (m : ObjectMeta) (spec : OVSNetworkSpec) : RenderData :=
  assign
    ([("CniType", DvString "ovs"); ("NetworkName", DvString (om_Name m));
      ("NetworkNamespace", DvString (targetNamespace (on_NetworkNamespace spec) m));
      ("Owner", DvString (OwnerRefToString (Some (gvk, m))));
      ("CniResourceName", DvString (prefix +:+ "/" +:+ on_ResourceName spec))] ++
     capabilities "CniCapabilities" (on_Capabilities spec) ++
     [("Bridge", DvString (on_Bridge spec)); ("VlanTag", DvInt (on_Vlan spec)); ("MTU", DvInt (on_MTU spec));
      ("Trunk", DvString (match on_Trunk spec with [] => "" | l => MarshalTrunk l end));
      ("InterfaceType", DvString (on_InterfaceType spec))] ++
     ipam "CniIpam" (on_IPAM spec) ++
     if_set "MetaPluginsConfigured" "MetaPlugins" (on_MetaPluginsConfig spec)) ∅.
End data.

(** The directories under [ManifestsPath]. *)
Definition sriov_manifests : list Entry :=
  [mkEntry "bindata/manifests/cni-config/sriov" None true (Parsed []);
   mkEntry "bindata/manifests/cni-config/sriov/sriov-cni-config.yaml" None false (Parsed sriov_template)].
Definition ovs_manifests : list Entry :=
  [mkEntry "bindata/manifests/cni-config/ovs" None true (Parsed []);
   mkEntry "bindata/manifests/cni-config/ovs/ovs-cni-config.yaml" None false (Parsed ovs_template)].
