(* ===== verification/NetworksSpec.v ===== *)
(** * What is rendered from a network

    For every network the templates can be executed (no key is missing), and
    the text they give is the one written down here directly from the fields of
    the specification. *)
From S2P Require Import Prelude GoLib Types Selector PoolConfig Render Networks.

(** ** Assignments *)

Fixpoint assigned (k : string) (l : list (string * DataValue)) : option DataValue :=
  match l with
  | [] => None
  | (k', v) :: rest =>
      match assigned k rest with
      | Some w => Some w
      | None => if String.eqb k' k then Some v else None
      end
  end.

Lemma assigned_app k l1 l2 :
  assigned k (l1 ++ l2) = match assigned k l2 with Some v => Some v | None => assigned k l1 end.
Proof.
  induction l1 as [|[k' v] l1 IH]; cbn; [by destruct (assigned k l2)|]. rewrite IH.
  by destruct (assigned k l2).
Qed.

Lemma assign_lookup k l d :
  assign l d !! k = match assigned k l with Some v => Some v | None => d !! k end.
Proof.
  revert d. induction l as [|[k' v] l IH]; intros d; [done|].
  change (assign ((k', v) :: l) d) with (assign l (<[k' := v]> d)). rewrite IH. cbn [assigned].
  destruct (assigned k l); [done|]. destruct (String.eqb_spec k' k) as [->|].
  - exact (lookup_insert_eq d k v).
  - exact (lookup_insert_ne d k' k v ltac:(done)).
Qed.

Lemma assigned_one_of k flag key field allowed :
  assigned k (one_of flag key field allowed) =
  if StringInArray field allowed then
    if String.eqb key k then Some (DvString field) else if String.eqb flag k then Some (DvBool true) else None
  else if String.eqb flag k then Some (DvBool false) else None.
Proof. unfold one_of. destruct (StringInArray _ _); cbn; by destruct (String.eqb _ k). Qed.

Lemma assigned_if_set k flag key field :
  assigned k (if_set flag key field) =
  if String.eqb field "" then if String.eqb flag k then Some (DvBool false) else None
  else if String.eqb key k then Some (DvString field) else if String.eqb flag k then Some (DvBool true) else None.
Proof.
  unfold if_set. destruct (String.eqb field ""); cbn; [done|]. destruct (String.eqb key k); [done|].
  by destruct (String.eqb flag k).
Qed.

Lemma assigned_capabilities k key field :
  assigned k (capabilities key field) =
  if String.eqb field "" then if String.eqb "CapabilitiesConfigured" k then Some (DvBool false) else None
  else if String.eqb key k then Some (DvString field)
  else if String.eqb "CapabilitiesConfigured" k then Some (DvBool true) else None.
Proof.
  unfold capabilities. destruct (String.eqb field ""); [done|]. cbn [assigned].
  by destruct (String.eqb key k).
Qed.

Definition rate_set (field : option Z) : bool := match field with Some r => 0 <=? r | None => false end.

Lemma assigned_rate k flag key field :
  assigned k (rate flag key field) =
  if rate_set field then if String.eqb key k then Some (DvInt (default 0 field))
                         else if String.eqb flag k then Some (DvBool true) else None
  else if String.eqb flag k then Some (DvBool false) else None.
Proof.
  unfold rate, rate_set. destruct field as [r|]; [|done]. destruct (0 <=? r); [|done]. cbn.
  destruct (String.eqb key k); [done|]. by destruct (String.eqb flag k).
Qed.

Lemma assigned_vlanQoS k qos :
  assigned k (vlanQoS qos) =
  if (qos <=? 7) && (0 <=? qos) then
    if String.eqb "SriovCniVlanQoS" k then Some (DvInt qos)
    else if String.eqb "VlanQoSConfigured" k then Some (DvBool true) else None
  else if String.eqb "VlanQoSConfigured" k then Some (DvBool false) else None.
Proof.
  unfold vlanQoS. destruct (_ && _); [|done]. cbn [assigned]. by destruct (String.eqb "SriovCniVlanQoS" k).
Qed.

(** ** The texts *)

Definition member (name value : string) : string := quoted name +:+ ":" +:+ value +:+ ",".
Definition when (b : bool) (s : string) : string := if b then s else "".

Definition nad_text (name namespace resource owner cniType members ipam meta : string) : string :=
  "apiVersion: " +:+ quoted "k8s.cni.cncf.io/v1" +:+ newline +:+ "kind: NetworkAttachmentDefinition" +:+ newline +:+
  "metadata:" +:+ newline +:+ "  name: " +:+ name +:+ newline +:+ "  namespace: " +:+ namespace +:+ newline +:+
  "  annotations:" +:+ newline +:+ "    k8s.v1.cni.cncf.io/resourceName: " +:+ resource +:+ newline +:+
  "    sriovnetwork.openshift.io/owner-ref: " +:+ owner +:+ newline +:+ "spec:" +:+ newline +:+ "  config: '{" +:+
  newline +:+ "  " +:+ member "cniVersion" (quoted "1.0.0") +:+ newline +:+ "  " +:+ member "name" (quoted name) +:+
  when (negb (String.eqb meta "")) (quoted "plugins" +:+ ": [" +:+ newline +:+ "    {") +:+
  member "type" (quoted cniType) +:+ members +:+ ipam +:+ newline +:+ "}" +:+
  when (negb (String.eqb meta "")) ("," +:+ newline +:+ "  " +:+ meta +:+ newline +:+ "  ]" +:+ newline +:+ "}") +:+
  "'" +:+ newline.

Definition ipam_text (s : string) : string :=
  quoted "ipam" +:+ ":" +:+ (if String.eqb s "" then "{}" else JoinFields s).

Definition rate_text (name : string) (r : option Z) : string :=
  match r with Some n => when (0 <=? n) (member name (Itoa n)) | None => "" end.

Definition sriov_members (spec : SriovNetworkSpec) : string :=
  member "vlan" (Itoa (sn_Vlan spec)) +:+
  when (StringInArray (sn_SpoofChk spec) ["off"; "on"]) (member "spoofchk" (quoted (sn_SpoofChk spec))) +:+
  when (StringInArray (sn_Trust spec) ["on"; "off"]) (member "trust" (quoted (sn_Trust spec))) +:+
  when ((sn_VlanQoS spec <=? 7) && (0 <=? sn_VlanQoS spec)) (member "vlanQoS" (Itoa (sn_VlanQoS spec))) +:+
  when (negb (String.eqb (sn_VlanProto spec) "")) (member "vlanProto" (quoted (sn_VlanProto spec))) +:+
  rate_text "min_tx_rate" (sn_MinTxRate spec) +:+ rate_text "max_tx_rate" (sn_MaxTxRate spec) +:+
  when (negb (String.eqb (sn_Capabilities spec) "")) (member "capabilities" (sn_Capabilities spec)) +:+
  when (StringInArray (sn_LinkState spec) ["enable"; "disable"; "auto"])
    (member "link_state" (quoted (sn_LinkState spec))) +:+
  when (negb (String.eqb (sn_LogLevel spec) "")) (member "logLevel" (quoted (sn_LogLevel spec))) +:+
  when (negb (String.eqb (sn_LogFile spec) "")) (member "logFile" (quoted (sn_LogFile spec))).

Definition ib_members (spec : SriovIBNetworkSpec) : string :=
  when (negb (String.eqb (ib_Capabilities spec) "")) (member "capabilities" (ib_Capabilities spec)) +:+
  when (StringInArray (ib_LinkState spec) ["enable"; "disable"; "auto"])
    (member "link_state" (quoted (ib_LinkState spec))).

Definition ovs_members (MarshalTrunk : list TrunkConfig → string) (spec : OVSNetworkSpec) : string :=
  let trunk := match on_Trunk spec with [] => "" | l => MarshalTrunk l end in
  when (negb (String.eqb (on_Capabilities spec) "")) (member "capabilities" (on_Capabilities spec)) +:+
  when (negb (String.eqb (on_Bridge spec) "")) (member "bridge" (quoted (on_Bridge spec))) +:+
  when (negb (on_Vlan spec =? 0)) (member "vlan" (Itoa (on_Vlan spec))) +:+
  when (negb (on_MTU spec =? 0)) (member "mtu" (Itoa (on_MTU spec))) +:+
  when (negb (String.eqb trunk "")) (member "trunk" trunk) +:+
  when (negb (String.eqb (on_InterfaceType spec) "")) (member "interface_type" (quoted (on_InterfaceType spec))).

(** ** Execution *)

Section execute.
Context (d : RenderData).

Lemma execute_app l1 l2 a b :
  execute d Top l1 = Some a → execute d Top l2 = Some b → execute d Top (l1 ++ l2) = Some (a +:+ b).
Proof.
  revert a. induction l1 as [|t l1 IH]; intros a H1 H2; cbn in *.
  { injection H1 as <-. done. }
  destruct (execute_one d Top t) as [x|]; [|done]. cbn in *. destruct (execute d Top l1) as [y|]; [|done]. cbn in *.
  injection H1 as <-. rewrite (IH y) by done. cbn. by rewrite app_assoc_s.
Qed.

Lemma execute_cons t l a b :
  execute_one d Top t = Some a → execute d Top l = Some b → execute d Top (t :: l) = Some (a +:+ b).
Proof. cbn. intros -> ->. done. Qed.

Lemma execute_TIf key body v a :
  d !! key = Some v → (truthy v = true → execute d Top body = Some a) →
  execute_one d Top (TIf key body) = Some (when (truthy v) a).
Proof. intros Hk Hb. cbn. rewrite Hk. cbn. destruct (truthy v); [|done]. exact (Hb eq_refl). Qed.

Lemma execute_TIfEq key value body s a :
  d !! key = Some (DvString s) → (s = value → execute d Top body = Some a) →
  execute_one d Top (TIfEq key value body) = Some (when (String.eqb s value) a).
Proof.
  intros Hk Hb. cbn. rewrite Hk. cbn. destruct (String.eqb_spec s value); [|done]. exact (Hb ltac:(done)).
Qed.

Lemma execute_raw name key v : d !! key = Some v → execute d Top (raw_member name key) = Some (member name (printed v)).
Proof. intros H. unfold raw_member, member. cbn. rewrite H. cbn. by rewrite !app_assoc_s. Qed.

Lemma execute_str name key v :
  d !! key = Some v → execute d Top (str_member name key) = Some (member name (quoted (printed v))).
Proof. intros H. unfold str_member, member, quoted. cbn. rewrite H. cbn. by rewrite !app_assoc_s. Qed.
End execute.

(** Evaluate comparisons of constants. *)
Ltac eval_keys :=
  repeat match goal with
  | |- context [String.eqb ?a ?b] =>
      let v := eval vm_compute in (String.eqb a b) in
      lazymatch v with true => idtac | false => idtac end; change (String.eqb a b) with v
  end.

Lemma if_same {A} (b : bool) (x : A) : (if b then x else x) = x.
Proof. by destruct b. Qed.

(** Look a key up in the data of a network. *)
Ltac lookup_data :=
  rewrite assign_lookup, ?assigned_app, ?assigned_one_of, ?assigned_if_set, ?assigned_capabilities, ?assigned_rate,
    ?assigned_vlanQoS;
  unfold ipam; cbn [assigned]; eval_keys; cbn [assigned]; rewrite ?if_same ; cbn [assigned].

Section texts.
Context (d : RenderData).

Lemma execute_nad_head kn kns kr name ns res owner cniType meta :
  d !! kn = Some (DvString name) → d !! kns = Some (DvString ns) → d !! kr = Some (DvString res) →
  d !! "Owner" = Some (DvString owner) → d !! "CniType" = Some (DvString cniType) →
  d !! "MetaPluginsConfigured" = Some (DvBool (negb (String.eqb meta ""))) →
  ∃ head, execute d Top (nad_head kn kns kr) = Some head ∧
    ∀ members ipam, head +:+ members +:+ ipam +:+ newline +:+ "}" +:+
      when (negb (String.eqb meta "")) ("," +:+ newline +:+ "  " +:+ meta +:+ newline +:+ "  ]" +:+ newline +:+ "}") +:+
      "'" +:+ newline = nad_text name ns res owner cniType members ipam meta.
Proof.
  intros H1 H2 H3 H4 H5 H6. unfold nad_head, nad_text. eexists. split.
  - eapply execute_app; [|by apply execute_str].
    repeat (eapply execute_cons; [first [reflexivity | by cbn; rewrite ?H1, ?H2, ?H3, ?H4 | idtac]|]).
    + eapply execute_TIf; [exact H6|]. intros _. cbn. reflexivity.
    + cbn. reflexivity.
  - intros members ipam. cbn [printed truthy]. unfold member, quoted. destruct (negb _); cbn [when];
      rewrite ?app_assoc_s, ?app_nil_s; reflexivity.
Qed.

Lemma execute_nad_tail kipam ipam meta :
  d !! kipam = Some (DvString ipam) → d !! "MetaPluginsConfigured" = Some (DvBool (negb (String.eqb meta ""))) →
  (negb (String.eqb meta "") = true → d !! "MetaPlugins" = Some (DvString meta)) →
  execute d Top (nad_tail kipam) = Some (ipam +:+ newline +:+ "}" +:+
    when (negb (String.eqb meta "")) ("," +:+ newline +:+ "  " +:+ meta +:+ newline +:+ "  ]" +:+ newline +:+ "}") +:+
    "'" +:+ newline).
Proof.
  intros H1 H2 H3. unfold nad_tail. cbn [execute execute_one field]. rewrite H1, H2. cbn [mbind option_bind printed truthy].
  destruct (negb (String.eqb meta "")) eqn:E; cbn [when].
  - rewrite H3 by done. cbn [mbind option_bind printed]. by rewrite ?app_assoc_s, ?app_nil_s.
  - cbn [mbind option_bind]. by rewrite ?app_assoc_s, ?app_nil_s.
Qed.

Lemma execute_opt_raw flag key name b v :
  d !! flag = Some (DvBool b) → (b = true → d !! key = Some v) →
  execute_one d Top (TIf flag (raw_member name key)) = Some (when b (member name (printed v))).
Proof. intros H1 H2. apply (execute_TIf d flag _ (DvBool b)); [done|]. intros Hb. by apply execute_raw, H2. Qed.

Lemma execute_opt_str flag key name b v :
  d !! flag = Some (DvBool b) → (b = true → d !! key = Some v) →
  execute_one d Top (TIf flag (str_member name key)) = Some (when b (member name (quoted (printed v)))).
Proof. intros H1 H2. apply (execute_TIf d flag _ (DvBool b)); [done|]. intros Hb. by apply execute_str, H2. Qed.

Lemma execute_opt_rate flag key name r :
  d !! flag = Some (DvBool (rate_set r)) → (rate_set r = true → d !! key = Some (DvInt (default 0 r))) →
  execute_one d Top (TIf flag (raw_member name key)) = Some (rate_text name r).
Proof.
  intros H1 H2. pose proof (execute_opt_raw flag key name _ _ H1 H2) as H. rewrite H. by destruct r.
Qed.
End texts.

(** ** The three networks *)

Definition sriov_nad_text (prefix : string) (gvk : GroupVersionKind) (m : ObjectMeta) (spec : SriovNetworkSpec) : string :=
  nad_text (om_Name m) (targetNamespace (sn_NetworkNamespace spec) m) (prefix +:+ "/" +:+ sn_ResourceName spec)
    (OwnerRefToString (Some (gvk, m))) "sriov" (sriov_members spec) (ipam_text (sn_IPAM spec))
    (sn_MetaPluginsConfig spec).

Definition ib_nad_text (prefix : string) (gvk : GroupVersionKind) (m : ObjectMeta) (spec : SriovIBNetworkSpec) : string :=
  nad_text (om_Name m) (targetNamespace (ib_NetworkNamespace spec) m) (prefix +:+ "/" +:+ ib_ResourceName spec)
    (OwnerRefToString (Some (gvk, m))) "ib-sriov" (ib_members spec) (ipam_text (ib_IPAM spec))
    (ib_MetaPluginsConfig spec).

Definition ovs_nad_text (prefix : string) MarshalTrunk (gvk : GroupVersionKind) (m : ObjectMeta) (spec : OVSNetworkSpec)
    : string :=
  nad_text (om_Name m) (targetNamespace (on_NetworkNamespace spec) m) (prefix +:+ "/" +:+ on_ResourceName spec)
    (OwnerRefToString (Some (gvk, m))) "ovs" (ovs_members MarshalTrunk spec) (ipam_text (on_IPAM spec))
    (on_MetaPluginsConfig spec).

Lemma ipam_value s : (if String.eqb s "" then SriovCniIpamEmpty else SriovCniIpam +:+ ":" +:+ JoinFields s) = ipam_text s.
Proof. unfold ipam_text, SriovCniIpamEmpty, SriovCniIpam. by destruct (String.eqb s ""). Qed.

(** Goals about the data of a network. *)
Ltac data_value :=
  intros; unfold SriovNetwork_data, SriovIBNetwork_data, OVSNetwork_data; lookup_data; rewrite ?ipam_value;
  unfold SriovCniStateOff, SriovCniStateOn, SriovCniStateEnable, SriovCniStateDisable, SriovCniStateAuto in *;
  repeat match goal with |- context [if ?b then _ else _] => destruct b eqn:? end; cbn [negb] in *; done.

Lemma execute_eq d l a b : execute d Top l = Some a → a = b → execute d Top l = Some b.
Proof. by intros -> ->. Qed.

(** A member with its condition and value, or a rate. *)
Ltac str_m b v := eapply execute_cons; [apply (execute_opt_str _ _ _ _ b (DvString v)); data_value|].
Ltac raw_m b v := eapply execute_cons; [apply (execute_opt_raw _ _ _ _ b v); data_value|].
Ltac rate_m r := eapply execute_cons; [apply (execute_opt_rate _ _ _ _ r); data_value|].
Ltac same_text := cbn [printed]; rewrite ?app_assoc_s, ?app_nil_s; reflexivity.

Abbreviation set_ s := (negb (String.eqb s "")).

Lemma sriov_text prefix gvk m spec :
  execute (SriovNetwork_data prefix gvk m spec) Top sriov_template = Some (sriov_nad_text prefix gvk m spec).
Proof.
  destruct (execute_nad_head (SriovNetwork_data prefix gvk m spec) "SriovNetworkName" "SriovNetworkNamespace"
    "SriovCniResourceName" (om_Name m) (targetNamespace (sn_NetworkNamespace spec) m)
    (prefix +:+ "/" +:+ sn_ResourceName spec) (OwnerRefToString (Some (gvk, m))) "sriov" (sn_MetaPluginsConfig spec))
    as (head & Hh & Ht); [data_value..|].
  unfold sriov_nad_text. rewrite <- Ht. unfold sriov_template. apply execute_app; [exact Hh|].
  apply execute_app; [|apply execute_nad_tail; data_value]. eapply execute_eq.
  - eapply execute_cons.
    + eapply execute_TIfEq; [data_value|]. intros _. eapply execute_app; [apply (execute_raw _ _ _ (DvInt (sn_Vlan spec))); data_value|].
      str_m (StringInArray (sn_SpoofChk spec) ["off"; "on"]) (sn_SpoofChk spec).
      str_m (StringInArray (sn_Trust spec) ["on"; "off"]) (sn_Trust spec).
      raw_m ((sn_VlanQoS spec <=? 7) && (0 <=? sn_VlanQoS spec)) (DvInt (sn_VlanQoS spec)).
      str_m (set_ (sn_VlanProto spec)) (sn_VlanProto spec). 
      rate_m (sn_MinTxRate spec). rate_m (sn_MaxTxRate spec). reflexivity.
    + raw_m (set_ (sn_Capabilities spec)) (DvString (sn_Capabilities spec)).
      str_m (StringInArray (sn_LinkState spec) ["enable"; "disable"; "auto"]) (sn_LinkState spec).
      str_m (set_ (sn_LogLevel spec)) (sn_LogLevel spec). str_m (set_ (sn_LogFile spec)) (sn_LogFile spec). reflexivity.
  - eval_keys. cbn [when]. unfold sriov_members. same_text.
Qed.

Lemma ib_text prefix gvk m spec :
  execute (SriovIBNetwork_data prefix gvk m spec) Top sriov_template = Some (ib_nad_text prefix gvk m spec).
Proof.
  destruct (execute_nad_head (SriovIBNetwork_data prefix gvk m spec) "SriovNetworkName" "SriovNetworkNamespace"
    "SriovCniResourceName" (om_Name m) (targetNamespace (ib_NetworkNamespace spec) m)
    (prefix +:+ "/" +:+ ib_ResourceName spec) (OwnerRefToString (Some (gvk, m))) "ib-sriov" (ib_MetaPluginsConfig spec))
    as (head & Hh & Ht); [data_value..|].
  unfold ib_nad_text. rewrite <- Ht. unfold sriov_template. apply execute_app; [exact Hh|].
  apply execute_app; [|apply execute_nad_tail; data_value]. eapply execute_eq.
  - eapply execute_cons; [eapply (execute_TIfEq _ _ _ _ _ ""); [data_value|by intros ?]|].
    raw_m (set_ (ib_Capabilities spec)) (DvString (ib_Capabilities spec)).
    str_m (StringInArray (ib_LinkState spec) ["enable"; "disable"; "auto"]) (ib_LinkState spec).
    str_m false "". str_m false "". reflexivity.
  - eval_keys. cbn [when]. unfold ib_members. same_text.
Qed.

Lemma execute_field_str d key name s :
  d !! key = Some (DvString s) →
  execute_one d Top (TIf key (str_member name key)) = Some (when (set_ s) (member name (quoted s))).
Proof. intros H. apply (execute_TIf d key _ (DvString s)); [done|]. intros _. by apply (execute_str d name key (DvString s)). Qed.

Lemma execute_field_raw d key name v :
  d !! key = Some v →
  execute_one d Top (TIf key (raw_member name key)) = Some (when (truthy v) (member name (printed v))).
Proof. intros H. apply (execute_TIf d key _ v); [done|]. intros _. by apply execute_raw. Qed.

Lemma ovs_text prefix MarshalTrunk gvk m spec :
  execute (OVSNetwork_data prefix MarshalTrunk gvk m spec) Top ovs_template = Some (ovs_nad_text prefix MarshalTrunk gvk m spec).
Proof.
  destruct (execute_nad_head (OVSNetwork_data prefix MarshalTrunk gvk m spec) "NetworkName" "NetworkNamespace"
    "CniResourceName" (om_Name m) (targetNamespace (on_NetworkNamespace spec) m)
    (prefix +:+ "/" +:+ on_ResourceName spec) (OwnerRefToString (Some (gvk, m))) "ovs" (on_MetaPluginsConfig spec))
    as (head & Hh & Ht); [data_value..|].
  unfold ovs_nad_text. rewrite <- Ht. unfold ovs_template. apply execute_app; [exact Hh|].
  apply execute_app; [|apply execute_nad_tail; data_value]. eapply execute_eq.
  - raw_m (set_ (on_Capabilities spec)) (DvString (on_Capabilities spec)).
    eapply execute_cons; [apply (execute_field_str _ _ _ (on_Bridge spec)); data_value|].
    eapply execute_cons; [apply (execute_field_raw _ _ _ (DvInt (on_Vlan spec))); data_value|].
    eapply execute_cons; [apply (execute_field_raw _ _ _ (DvInt (on_MTU spec))); data_value|].
    eapply execute_cons; [eapply (execute_field_raw _ _ _ (DvString _)); data_value|].
    eapply execute_cons; [apply (execute_field_str _ _ _ (on_InterfaceType spec)); data_value|]. reflexivity.
  - cbn [truthy]. unfold ovs_members. same_text.
Qed.

(** ** Property *)

(** C30: for every network of the three kinds the template finds every key it
    needs, and the rendered NetworkAttachmentDefinition is exactly the text given
    by the specification: its target namespace, resource name and owner, the
    VLAN, and each optional member when and only when the field is set to an
    allowed value (QoS within 0..7, rates not negative, on/off, link state), with
    the IPAM configuration and the meta plugins last. *)
Theorem networks_rendered (prefix : string) (MarshalTrunk : list TrunkConfig → string)
    (gvk : GroupVersionKind) (m : ObjectMeta) :
  (∀ spec, execute (SriovNetwork_data prefix gvk m spec) Top sriov_template = Some (sriov_nad_text prefix gvk m spec)) ∧
  (∀ spec, execute (SriovIBNetwork_data prefix gvk m spec) Top sriov_template = Some (ib_nad_text prefix gvk m spec)) ∧
  (∀ spec, execute (OVSNetwork_data prefix MarshalTrunk gvk m spec) Top ovs_template =
           Some (ovs_nad_text prefix MarshalTrunk gvk m spec)).
Proof. split_and!; intros spec; [apply sriov_text|apply ib_text|apply ovs_text]. Qed.
