(* ===== verification/NetworkController.v ===== *)
(** * The network controllers (controllers/generic_network_controller.go)

    For each network they keep a NetworkAttachmentDefinition in the target
    namespace.  The three controllers share one reconciler; what differs is the
    kind of the object ([NetworkCRInstance]). *)
From S2P Require Import Prelude GoLib Types Selector PoolConfig Conditions Effects Kube Render Networks.

(** ** Objects *)

Inductive NetworkSpec :=
| SpecSriov (spec : SriovNetworkSpec)
| SpecIB (spec : SriovIBNetworkSpec)
| SpecOVS (spec : OVSNetworkSpec).

(** A network as the reconciler sees it; [cr_Deleting]: it has a deletion
    timestamp. *)
Record NetworkCR := mkNetworkCR {
  cr_meta : ObjectMeta;
  cr_gvk : GroupVersionKind;
  cr_Finalizers : list string;
  cr_Deleting : bool;
  cr_Spec : NetworkSpec;
  cr_Conditions : list Condition;
}.

Definition cr_set_meta (m : ObjectMeta) (cr : NetworkCR) : NetworkCR :=
  mkNetworkCR m (cr_gvk cr) (cr_Finalizers cr) (cr_Deleting cr) (cr_Spec cr) (cr_Conditions cr).
Definition SetFinalizers (l : list string) (cr : NetworkCR) : NetworkCR :=
  mkNetworkCR (cr_meta cr) (cr_gvk cr) l (cr_Deleting cr) (cr_Spec cr) (cr_Conditions cr).

#[export] Program Instance NetworkCR_object : KubeObject NetworkCR :=
  {| obj_meta := cr_meta; obj_set_meta := cr_set_meta |}.
Next Obligation. done. Qed.
Next Obligation. by intros []. Qed.
Next Obligation. done. Qed.

Definition NetworkNamespace (cr : NetworkCR) : string :=
  match cr_Spec cr with
  | SpecSriov s => sn_NetworkNamespace s
  | SpecIB s => ib_NetworkNamespace s
  | SpecOVS s => on_NetworkNamespace s
  end.

(** netattdefv1.NetworkAttachmentDefinition. *)
Record NetAttDef := mkNetAttDef {
  nad_Name : string;
  nad_Namespace : string;
  nad_Annotations : gmap string string;
  nad_OwnerReferences : list string;
  nad_ResourceVersion : string;
  nad_Config : string;
}.

Definition nad_set_config (c : string) (n : NetAttDef) : NetAttDef :=
  mkNetAttDef (nad_Name n) (nad_Namespace n) (nad_Annotations n) (nad_OwnerReferences n) (nad_ResourceVersion n) c.
Definition SetResourceVersion (v : string) (n : NetAttDef) : NetAttDef :=
  mkNetAttDef (nad_Name n) (nad_Namespace n) (nad_Annotations n) (nad_OwnerReferences n) v (nad_Config n).

(** controllerutil.SetOwnerReference: the owner is added unless it is there. *)
Definition SetOwnerReference (owner : string) (n : NetAttDef) : NetAttDef :=
  mkNetAttDef (nad_Name n) (nad_Namespace n) (nad_Annotations n)
    (UniqueAppend (nad_OwnerReferences n) [owner]) (nad_ResourceVersion n) (nad_Config n).

(** ** Requests *)

Inductive NetReq :=
| GetNetwork (ns name : string)
| UpdateNetwork (cr : NetworkCR)
| PatchNetwork (original changed : NetworkCR)
| ApplyNetStatus (m : ObjectMeta) (conditions : list Condition)
| NetEvent (m : ObjectMeta) (eventType reason message : string)
| GetNad (ns name : string)
| CreateNad (n : NetAttDef)
| UpdateNad (n : NetAttDef)
| DeleteNad (ns name : string)
| GetNamespace (name : string)
| ListNetworks (networkNamespace : string).  (* namespaces and names, by the index on spec.networkNamespace *)

Definition NetResp (r : NetReq) : Type :=
  match r with
  | GetNetwork _ _ | UpdateNetwork _ | PatchNetwork _ _ => KubeError + NetworkCR
  | ApplyNetStatus _ _ => option KubeError
  | NetEvent _ _ _ _ => unit
  | GetNad _ _ => KubeError + NetAttDef
  | CreateNad _ | UpdateNad _ | DeleteNad _ _ | GetNamespace _ => option KubeError
  | ListNetworks _ => KubeError + list (string * string)
  end%type.

Abbreviation netM := (prog NetResp).

(** What a reconciliation returns as its error; [NetPanic] is a run-time
    panic. *)
Inductive NetError := NetKube (e : KubeError) | NetMsg (msg : string) | NetPanic.

#[export] Instance NetError_eq_dec : EqDecision NetError.
Proof. solve_decision. Defined.

Definition KubeError_Error (e : KubeError) : string :=
  match e with ErrNotFound => "not found" | ErrConflict => "conflict" | ErrAPI m => m end.

Definition LASTNETWORKNAMESPACE := "operator.sriovnetwork.openshift.io/last-network-namespace".
Definition NETATTDEFFINALIZERNAME := "netattdef.finalizers.sriovnetwork.openshift.io".
Definition OwnerRefAnnotation := "sriovnetwork.openshift.io/owner-ref".

Definition ReasonNetworkReady := "NetworkReady".
Definition ReasonNetworkAttachmentDefNotFound := "NetworkAttachmentDefinitionNotFound".
Definition ReasonNetworkAttachmentDefInvalid := "NetworkAttachmentDefinitionInvalid".
Definition ReasonNamespaceNotFound := "NamespaceNotFound".

Section controller.
(** vars.Namespace, RESOURCE_PREFIX, and whether the status patcher has a
    recorder. *)
Context (Namespace prefix : string) (recorder : bool).
(** The libraries: JSON of a trunk configuration, the YAML decoder, the
    conversion to a typed object, and [json.Indent]. *)
Context (MarshalTrunk : list TrunkConfig → string).
Context {Unstructured : Type} (Decode : string → list (string + option Unstructured)).
Context (ExecError : RenderData → list Tmpl → string).
Context (Convert : Unstructured → string + NetAttDef).
Context (Indent : string → string + string).

(** ** Rendering *)

(** [objs[0]]. *)
Definition first_object (r : string + list Unstructured) : NetError + Unstructured :=
  match r with
  | inl e => inl (NetMsg e)
  | inr [] => inl NetPanic
  | inr (o :: _) => inr o
  end.

Definition RenderNetAttDef (cr : NetworkCR) : NetError + Unstructured :=
  first_object
    match cr_Spec cr with
    | SpecSriov s => RenderDir Decode ExecError sriov_manifests (SriovNetwork_data prefix (cr_gvk cr) (cr_meta cr) s)
    | SpecIB s => RenderDir Decode ExecError sriov_manifests (SriovIBNetwork_data prefix (cr_gvk cr) (cr_meta cr) s)
    | SpecOVS s => RenderDir Decode ExecError ovs_manifests (OVSNetwork_data prefix MarshalTrunk (cr_gvk cr) (cr_meta cr) s)
    end.

(** ** Status *)

Definition netCondition (cr : NetworkCR) (status reason message : string) : Condition :=
  mkCond ConditionReady status reason message (om_Generation (cr_meta cr)).

Definition applyCondition (cr : NetworkCR) (status reason message : string) : netM (option KubeError) :=
  ApplyCondition (F := unit) (λ m _ cs, perform (ApplyNetStatus m cs))
    (λ m t reason message, perform (NetEvent m t reason message)) recorder tt
    (cr_meta cr) (cr_Conditions cr) [netCondition cr status reason message].

(** The condition is applied and its own error is only logged. *)
Definition failWith (cr : NetworkCR) (reason : string) (e : NetError) (msg : string) : netM (option NetError) :=
  applyCondition cr ConditionFalse reason msg ≫= λ _, Ret (Some e).

(** The error of applying the condition is the result. *)
Definition report (cr : NetworkCR) (status reason msg : string) : netM (option NetError) :=
  r ← applyCondition cr status reason msg;
  Ret (option_map NetKube r).

(** ** Finalizers *)

(** The instance is changed in place, also when the update fails. *)
Definition updateFinalizers (instance : NetworkCR) : netM (NetworkCR * option KubeError) :=
  if negb (String.eqb (om_Namespace (cr_meta instance)) Namespace) then Ret (instance, None)
  else if StringInArray NETATTDEFFINALIZERNAME (cr_Finalizers instance) then Ret (instance, None)
  else
    let instance' := SetFinalizers (cr_Finalizers instance ++ [NETATTDEFFINALIZERNAME]) instance in
    r ← perform (UpdateNetwork instance');
    Ret (match r with inl e => (instance', Some e) | inr o => (o, None) end).

Definition deleteNetAttDef (cr : NetworkCR) : netM (option KubeError) :=
  let namespace := if String.eqb (NetworkNamespace cr) "" then om_Namespace (cr_meta cr) else NetworkNamespace cr in
  r ← perform (DeleteNad namespace (om_Name (cr_meta cr)));
  Ret (match r with
       | Some e => if IsNotFound e then None else Some e
       | None => None
       end).

Definition cleanResourcesAndFinalizers (instance : NetworkCR) : netM (option KubeError) :=
  if StringInArray NETATTDEFFINALIZERNAME (cr_Finalizers instance) then
    d ← deleteNetAttDef instance;
    match d with
    | Some e => Ret (Some e)
    | None =>
        let '(newFinalizers, found) := RemoveString NETATTDEFFINALIZERNAME (cr_Finalizers instance) in
        if found : bool then
          r ← perform (UpdateNetwork (SetFinalizers newFinalizers instance));
          Ret (match r with
               | inl e => if IsNotFound e then None else Some e
               | inr _ => None
               end)
        else Ret None
    end
  else Ret None.

(** ** The reconciliation *)

Definition annotate (cr : NetworkCR) (key value : string) : netM (NetworkCR * option KubeError) :=
  AnnotateObject (λ original changed, perform (PatchNetwork original changed)) cr key value.

(** The definition in a namespace the network had before is deleted, and the
    annotation that names it is cleared. *)
Definition leaveNamespace (instance : NetworkCR) (netAttDef : NetAttDef) : netM (NetworkCR * option NetError) :=
  match GetAnnotations instance !! LASTNETWORKNAMESPACE with
  | None => Ret (instance, None)
  | Some lnns =>
      if String.eqb (nad_Namespace netAttDef) lnns then Ret (instance, None)
      else
        r ← perform (DeleteNad lnns (om_Name (cr_meta instance)));
        match r with
        | Some e =>
            if IsNotFound e then
              '(instance', err) ← annotate instance LASTNETWORKNAMESPACE "";
              Ret (instance', option_map NetKube err)
            else Ret (instance, Some (NetKube e))
        | None =>
            '(instance', err) ← annotate instance LASTNETWORKNAMESPACE "";
            Ret (instance', option_map NetKube err)
        end
  end.

Definition readyMessage := "NetworkAttachmentDefinition is provisioned and ready".

Definition createNetAttDef (instance : NetworkCR) (netAttDef : NetAttDef) : netM (option NetError) :=
  t ← perform (GetNamespace (nad_Namespace netAttDef));
  if match t with Some e => IsNotFound e | None => false end then
    report instance ConditionFalse ReasonNamespaceNotFound
      ("target namespace " +:+ quoted (nad_Namespace netAttDef) +:+ " does not exist")
  else
    c ← perform (CreateNad netAttDef);
    match c with
    | Some e => failWith instance ReasonNetworkAttachmentDefInvalid (NetKube e) (KubeError_Error e)
    | None =>
        '(instance', err) ← annotate instance LASTNETWORKNAMESPACE (nad_Namespace netAttDef);
        match err with
        | Some e => Ret (Some (NetKube e))
        | None => report instance' ConditionTrue ReasonNetworkReady readyMessage
        end
    end.

Definition owner_of (n : NetAttDef) : string := default "" (nad_Annotations n !! OwnerRefAnnotation).

Definition updateNetAttDef (instance : NetworkCR) (netAttDef found : NetAttDef) : netM (option NetError) :=
  let foundOwner := owner_of found in
  let expectedOwner := owner_of netAttDef in
  if negb (String.eqb foundOwner "") && negb (String.eqb foundOwner expectedOwner) then
    report instance ConditionFalse ReasonNetworkAttachmentDefInvalid
      ("NetworkAttachmentDefinition '" +:+ nad_Namespace netAttDef +:+ "/" +:+ nad_Name netAttDef +:+
       "' already exists and is owned by " +:+ foundOwner)
  else if bool_decide (nad_Config found = nad_Config netAttDef) &&
          bool_decide (nad_Annotations found = nad_Annotations netAttDef) then
    report instance ConditionTrue ReasonNetworkReady readyMessage
  else
    u ← perform (UpdateNad (SetResourceVersion (nad_ResourceVersion found) netAttDef));
    match u with
    | Some e => failWith instance ReasonNetworkAttachmentDefInvalid (NetKube e) (KubeError_Error e)
    | None => report instance ConditionTrue ReasonNetworkReady readyMessage
    end.

(** From the converted object on. *)
Definition provision (instance : NetworkCR) (raw : NetAttDef) : netM (option NetError) :=
  match Indent (nad_Config raw) with
  | inl e => Ret (Some (NetMsg e))
  | inr config =>
      let netAttDef := nad_set_config config raw in
      '(instance', err) ← leaveNamespace instance netAttDef;
      match err with
      | Some e => Ret (Some e)
      | None =>
          let netAttDef' :=
            if String.eqb (om_Namespace (cr_meta instance')) (nad_Namespace netAttDef)
            then SetOwnerReference (om_Name (cr_meta instance')) netAttDef else netAttDef in
          f ← perform (GetNad (nad_Namespace netAttDef') (nad_Name netAttDef'));
          match f with
          | inl e =>
              if IsNotFound e then createNetAttDef instance' netAttDef'
              else failWith instance' ReasonNetworkAttachmentDefNotFound (NetKube e) (KubeError_Error e)
          | inr found => updateNetAttDef instance' netAttDef' found
          end
      end
  end.

(** The namespace rule, deletion, finalizers, rendering. *)
Definition reconcileInstance (instance : NetworkCR) : netM (option NetError) :=
  if negb (String.eqb (NetworkNamespace instance) "") &&
     negb (String.eqb (om_Namespace (cr_meta instance)) Namespace) then
    report instance ConditionFalse ReasonNetworkAttachmentDefInvalid
      ("spec.networkNamespace cannot be set when the resource is not in the operator namespace (" +:+ Namespace +:+ ")")
  else if cr_Deleting instance then
    e ← cleanResourcesAndFinalizers instance;
    Ret (option_map NetKube e)
  else
    '(instance', err) ← updateFinalizers instance;
    match err with
    | Some e => Ret (Some (NetKube e))
    | None =>
        match RenderNetAttDef instance' with
        | inl NetPanic => Ret (Some NetPanic)
        | inl (NetMsg m) => failWith instance' ReasonNetworkAttachmentDefInvalid (NetMsg m) m
        | inl (NetKube e) => failWith instance' ReasonNetworkAttachmentDefInvalid (NetKube e) (KubeError_Error e)
        | inr raw =>
            match Convert raw with
            | inl m => Ret (Some (NetMsg m))
            | inr netAttDef => provision instance' netAttDef
            end
        end
    end.

Definition Reconcile (ns name : string) : netM (option NetError) :=
  r ← perform (GetNetwork ns name);
  match r with
  | inl e => Ret (if IsNotFound e then None else Some (NetKube e))
  | inr instance => reconcileInstance instance
  end.

(** ** Events *)

(** The networks an event about a definition is for. *)
Definition handleNetAttDef (ns name : string) : netM (list (string * string)) :=
  r1 ← perform (GetNetwork ns name);
  r2 ← perform (GetNetwork Namespace name);
  Ret ((match r1 with inr _ => [(ns, name)] | inl _ => [] end) ++
       (match r2 with inr _ => [(Namespace, name)] | inl _ => [] end)).

(** The networks that wait for a namespace. *)
Definition namespaceHandlerCreate (ns : string) : netM (list (string * string)) :=
  r ← perform (ListNetworks ns);
  Ret (match r with inl _ => [] | inr l => l end).
End controller.
