(* ===== verification/NetworkControllerSpec.v ===== *)
(** * What the network controllers do to a cluster

    A model of the API server as the network controllers use it -- resource
    versions and optimistic concurrency, namespaces, the client's check of empty
    namespaces -- with other parties that act between two requests, and the
    theorems: a definition that belongs to someone else is not overwritten, the
    finalizer is not removed before the definition is gone, a reconciliation that
    nobody disturbs brings the definition and the Ready condition to the wanted
    state, and a network that was moved to a namespace that did not exist yet is
    never provisioned. *)
From S2P Require Import Prelude GoLib Types Selector PoolConfig Conditions Effects Kube Render Networks NetworksSpec NetworkController.

(** ** The cluster *)

(** The last two fields are ghost state: every version of a definition ever
    stored, and the definitions a delete request found gone or removed. *)
Record NetCluster := mkNetCluster {
  nc_networks : gmap (string * string) NetworkCR;
  nc_nads : gmap (string * string) NetAttDef;
  nc_namespaces : gset string;
  nc_log : gmap (string * string * string) NetAttDef;
  nc_gone : gset (string * string);
}.

Definition put_networks (m : gmap (string * string) NetworkCR) (s : NetCluster) : NetCluster :=
  mkNetCluster m (nc_nads s) (nc_namespaces s) (nc_log s) (nc_gone s).

Definition nad_key (n : NetAttDef) : string * string := (nad_Namespace n, nad_Name n).
Definition cr_key (m : ObjectMeta) : string * string := (om_Namespace m, om_Name m).

(** [n] is stored as version [v]. *)
Definition put_nad (v : string) (n : NetAttDef) (s : NetCluster) : NetCluster :=
  mkNetCluster (nc_networks s) (<[nad_key n := SetResourceVersion v n]> (nc_nads s)) (nc_namespaces s)
    (<[(nad_key n, v) := SetResourceVersion v n]> (nc_log s)) (nc_gone s).

Definition drop_nad (k : string * string) (s : NetCluster) : NetCluster :=
  mkNetCluster (nc_networks s) (delete k (nc_nads s)) (nc_namespaces s) (nc_log s) ({[k]} ∪ nc_gone s).

Definition cr_set_conditions (cs : list Condition) (cr : NetworkCR) : NetworkCR :=
  mkNetworkCR (cr_meta cr) (cr_gvk cr) (cr_Finalizers cr) (cr_Deleting cr) (cr_Spec cr) cs.

(** Server-side apply of conditions, merged by type. *)
Definition cr_apply_conditions (cs : list Condition) (cr : NetworkCR) : NetworkCR :=
  cr_set_conditions (foldl (SetStatusCondition 0) (cr_Conditions cr) cs) cr.

(** An object under deletion without finalizers disappears. *)
Definition put_network (cr : NetworkCR) (s : NetCluster) : NetCluster :=
  put_networks (if cr_Deleting cr && bool_decide (cr_Finalizers cr = [])
                then delete (cr_key (cr_meta cr)) (nc_networks s)
                else <[cr_key (cr_meta cr) := cr]> (nc_networks s)) s.

Section cluster.
(** Whether requests may fail for reasons of their own. *)
Context (fails : bool).

Definition get_result {A} (valid : Prop) (stored : option A) (x : KubeError + A) : Prop :=
  match x with
  | inr a => valid ∧ stored = Some a
  | inl ErrNotFound => valid ∧ stored = None
  | inl _ => fails = true ∨ ¬ valid
  end.

Definition creatable (n : NetAttDef) (s : NetCluster) : Prop :=
  nad_Namespace n ≠ "" ∧ nad_Namespace n ∈ nc_namespaces s ∧ nc_nads s !! nad_key n = None.

(** The version sent must be the stored one. *)
Definition updatable (n : NetAttDef) (s : NetCluster) : Prop :=
  ∃ cur, nc_nads s !! nad_key n = Some cur ∧ nad_ResourceVersion cur = nad_ResourceVersion n.

(** A write that is accepted gets a new version; one that fails changes
    nothing. *)
Definition write_result (valid : Prop) (n : NetAttDef) (s : NetCluster) (x : option KubeError) (s' : NetCluster) : Prop :=
  match x with
  | None => valid ∧ ∃ v, nc_log s !! (nad_key n, v) = None ∧ s' = put_nad v n s
  | Some _ => s' = s ∧ (fails = true ∨ ¬ valid)
  end.

Definition net_server (s : NetCluster) (r : NetReq) : NetResp r → NetCluster → Prop :=
  match r with
  | GetNetwork ns name => λ x s', s' = s ∧ get_result True (nc_networks s !! (ns, name)) x
  | UpdateNetwork cr => λ x s',
      match x with
      | inr o => ∃ old, nc_networks s !! cr_key (cr_meta cr) = Some old ∧
          o = cr_set_conditions (cr_Conditions old) cr ∧ s' = put_network o s
      | inl _ => s' = s ∧ (fails = true ∨ nc_networks s !! cr_key (cr_meta cr) = None)
      end
  | PatchNetwork original changed => λ x s',
      match x with
      | inr o => ∃ old, nc_networks s !! cr_key (cr_meta changed) = Some old ∧
          o = patch_object original changed old ∧ s' = put_network o s
      | inl _ => s' = s ∧ (fails = true ∨ nc_networks s !! cr_key (cr_meta changed) = None)
      end
  | ApplyNetStatus m cs => λ x s',
      match x with
      | None => ∃ old, nc_networks s !! cr_key m = Some old ∧
          s' = put_networks (<[cr_key m := cr_apply_conditions cs old]> (nc_networks s)) s
      | Some _ => s' = s ∧ (fails = true ∨ nc_networks s !! cr_key m = None)
      end
  | NetEvent _ _ _ _ => λ _ s', s' = s
  | GetNad ns name => λ x s', s' = s ∧ get_result (ns ≠ "") (nc_nads s !! (ns, name)) x
  | CreateNad n => λ x s', write_result (creatable n s) n s x s'
  | UpdateNad n => λ x s', write_result (updatable n s) n s x s'
  | DeleteNad ns name => λ x s',
      match x with
      | None => ns ≠ "" ∧ is_Some (nc_nads s !! (ns, name)) ∧ s' = drop_nad (ns, name) s
      | Some ErrNotFound => ns ≠ "" ∧ nc_nads s !! (ns, name) = None ∧ s' = drop_nad (ns, name) s
      | Some _ => s' = s ∧ (fails = true ∨ ns = "")
      end
  | GetNamespace name => λ x s', s' = s ∧
      match x with
      | None => name ∈ nc_namespaces s
      | Some ErrNotFound => name ∉ nc_namespaces s
      | Some _ => fails = true
      end
  | ListNetworks ns => λ x s', s' = s ∧
      match x with
      | inl _ => fails = true
      | inr l => ∀ k, k ∈ l ↔ ∃ cr, nc_networks s !! k = Some cr ∧ NetworkNamespace cr = ns
      end
  end.

(** Every stored definition is a logged version. *)
Definition consistent (s : NetCluster) : Prop :=
  ∀ k n, nc_nads s !! k = Some n → nc_log s !! (k, nad_ResourceVersion n) = Some n.

(** The other parties: they may do anything to the objects, but a version once
    used stays with the object it named. *)
Definition net_rely (s s' : NetCluster) : Prop :=
  (consistent s → consistent s') ∧ nc_log s ⊆ nc_log s' ∧ nc_gone s' = nc_gone s.

(** The same parties, leaving the networks alone. *)
Definition net_rely_elsewhere (s s' : NetCluster) : Prop := nc_networks s' = nc_networks s.

Definition shared_cluster : World NetResp := shared_world net_server net_rely.
Definition spectated_cluster : World NetResp := shared_world net_server net_rely_elsewhere.
Definition own_cluster : World NetResp := {| w_state := NetCluster; w_step := net_server |}.
End cluster.

Lemma put_nad_consistent v n s :
  nc_log s !! (nad_key n, v) = None → consistent s → consistent (put_nad v n s).
Proof.
  intros Hv Hs k o. cbn. intros [[<- <-]|[Hk Ho]]%lookup_insert_Some; cbn; [by rewrite lookup_insert_eq|].
  rewrite lookup_insert_ne by congruence. by apply Hs.
Qed.

Lemma drop_nad_consistent k s : consistent s → consistent (drop_nad k s).
Proof. intros Hs j o. cbn. intros [_ Ho]%lookup_delete_Some. by apply Hs. Qed.

Lemma put_network_nads cr s :
  nc_nads (put_network cr s) = nc_nads s ∧ nc_log (put_network cr s) = nc_log s ∧ nc_gone (put_network cr s) = nc_gone s ∧
  nc_namespaces (put_network cr s) = nc_namespaces s.
Proof. done. Qed.

(** A request keeps the log and the history of deletions. *)
Record net_grows (s s' : NetCluster) : Prop := {
  grows_consistent : consistent s → consistent s';
  grows_log : nc_log s ⊆ nc_log s';
  grows_gone : nc_gone s ⊆ nc_gone s';
}.

#[export] Instance net_grows_preorder : PreOrder net_grows.
Proof.
  split; [by split|]. intros a b c [A1 A2 A3] [B1 B2 B3]. split; [auto|by transitivity (nc_log b)|set_solver].
Qed.

Lemma put_nad_grows v n s : nc_log s !! (nad_key n, v) = None → net_grows s (put_nad v n s).
Proof. intros Hv. split; [by apply put_nad_consistent|cbn; by apply insert_subseteq|done]. Qed.

Lemma drop_nad_grows k s : net_grows s (drop_nad k s).
Proof. split; [apply drop_nad_consistent|done|cbn; set_solver]. Qed.

Lemma net_server_grows fails s r x s' : net_server fails s r x s' → net_grows s s'.
Proof.
  assert (Hw : ∀ v n y, write_result fails v n s y s' → net_grows s s').
  { intros v n [e|] H; cbn in H; [by destruct H as [-> _]|].
    destruct H as (_ & w & Hw & ->). by apply put_nad_grows. }
  destruct r; cbn in *; try (intros H; by destruct H as [-> _]); eauto.
  - destruct x; [by intros [-> _]|intros (old & _ & _ & ->); by split].
  - destruct x; [by intros [-> _]|intros (old & _ & _ & ->); by split].
  - destruct x; [by intros [-> _]|intros (old & _ & ->); by split].
  - destruct x as [[]|]; [intros (_ & _ & ->)|by intros [-> _]..|intros (_ & _ & ->)]; apply drop_nad_grows.
Qed.

Lemma shared_grows fails s r x s' : w_step (shared_cluster fails) s r x s' → net_grows s s'.
Proof.
  intros (s1 & H%net_server_grows & H2). etransitivity; [exact H|]. clear H.
  induction H2 as [|a b c (C & L & G) _ IH]; [done|]. etransitivity; [|exact IH]. split; [done..|set_solver].
Qed.

(** ** Safety, whatever the others do *)

(** The place of a network's definition. *)
Definition target (cr : NetworkCR) : string * string :=
  (if String.eqb (NetworkNamespace cr) "" then om_Namespace (cr_meta cr) else NetworkNamespace cr, om_Name (cr_meta cr)).

(** An update must not hit a definition of another owner, and the finalizer may
    be missing from an update of the network only when the definition was seen
    gone. *)
Definition net_allowed (s : NetCluster) (r : NetReq) : Prop :=
  match r with
  | UpdateNad n => ∀ cur, nc_nads s !! nad_key n = Some cur → nad_ResourceVersion cur = nad_ResourceVersion n →
      owner_of cur = "" ∨ owner_of cur = owner_of n
  | UpdateNetwork cr => NETATTDEFFINALIZERNAME ∈ cr_Finalizers cr ∨ target cr ∈ nc_gone s
  | _ => True
  end.

Definition unguarded (r : NetReq) : bool :=
  match r with UpdateNad _ | UpdateNetwork _ => false | _ => true end.

Abbreviation net_steady := (steady (shared_cluster true) net_allowed net_grows).

Lemma unguarded_steady r : unguarded r = true → net_steady (perform r).
Proof. intros Hr. apply (steady_perform (shared_cluster true) net_allowed net_grows r); [intros s; by destruct r; cbn in * |]. intros s x s' H. by eapply shared_grows. Qed.

#[local] Hint Extern 1 (steady _ _ _ (perform _)) => apply unguarded_steady; reflexivity : steady.

Lemma recordTransitions_unguarded m ts :
  net_steady (recordTransitions (resp := NetResp) (λ m t reason message, perform (NetEvent m t reason message)) m ts).
Proof. induction ts; cbn [recordTransitions]; steady. Qed.
#[local] Hint Resolve recordTransitions_unguarded : steady.

Section safety.
Context (Namespace prefix : string) (recorder : bool) (MarshalTrunk : list TrunkConfig → string).
Context {Unstructured : Type} (Decode : string → list (string + option Unstructured)).
Context (ExecError : RenderData → list Tmpl → string).
Context (Convert : Unstructured → string + NetAttDef) (Indent : string → string + string).

Lemma applyCondition_unguarded cr st reason msg : net_steady (applyCondition recorder cr st reason msg).
Proof. unfold applyCondition, ApplyCondition. steady. Qed.
#[local] Hint Resolve applyCondition_unguarded : steady.

Lemma failWith_unguarded cr reason e msg : net_steady (failWith recorder cr reason e msg).
Proof. unfold failWith. steady. Qed.

Lemma report_unguarded cr st reason msg : net_steady (report recorder cr st reason msg).
Proof. unfold report. steady. Qed.
#[local] Hint Resolve failWith_unguarded report_unguarded : steady.

Lemma annotate_unguarded cr key value : net_steady (annotate cr key value).
Proof. unfold annotate, AnnotateObject. steady. Qed.
#[local] Hint Resolve annotate_unguarded : steady.

Lemma leaveNamespace_unguarded cr n : net_steady (leaveNamespace cr n).
Proof. unfold leaveNamespace. steady. Qed.

Lemma createNetAttDef_unguarded cr n : net_steady (createNetAttDef recorder cr n).
Proof. unfold createNetAttDef. steady. Qed.
#[local] Hint Resolve leaveNamespace_unguarded createNetAttDef_unguarded : steady.

Lemma updateFinalizers_steady cr : net_steady (updateFinalizers Namespace cr).
Proof.
  unfold updateFinalizers. steady. apply (steady_perform (shared_cluster true) net_allowed net_grows (UpdateNetwork _)).
  - intros s. left. cbn. set_solver.
  - intros s x s' H. by eapply shared_grows.
Qed.
#[local] Hint Resolve updateFinalizers_steady : steady.

(** The object that was read is still the one under its version. *)
Lemma updateNetAttDef_safe cr n found s :
  consistent s → nc_log s !! (nad_key n, nad_ResourceVersion found) = Some found →
  wp (shared_cluster true) net_allowed (updateNetAttDef recorder cr n found) (λ _ s', net_grows s s') s.
Proof.
  intros Hs Hf. unfold updateNetAttDef.
  destruct (negb (String.eqb (owner_of found) "") && _) eqn:Eo; [apply report_unguarded|].
  destruct (bool_decide _ && _); [apply report_unguarded|].
  apply wp_perform.
  - cbn. intros cur Hc Hv. unfold nad_key in *. cbn in Hc. pose proof (Hs _ _ Hc) as Hl.
    rewrite Hv, Hf in Hl. injection Hl as ->. apply andb_false_iff in Eo as [Eo|Eo];
      apply negb_false_iff, String.eqb_eq in Eo; [by left|by right].
  - intros x s1 H1%shared_grows.
    assert (H : net_steady match x with
      | Some e => failWith recorder cr ReasonNetworkAttachmentDefInvalid (NetKube e) (KubeError_Error e)
      | None => report recorder cr ConditionTrue ReasonNetworkReady readyMessage end) by steady.
    eapply wp_post; [apply H|]. cbn. intros _ s2 H2. by transitivity s1.
Qed.

Lemma provision_safe cr n s :
  consistent s → wp (shared_cluster true) net_allowed (provision recorder Indent cr n) (λ _ s', net_grows s s') s.
Proof.
  intros Hs. unfold provision. destruct (Indent _) as [e|config]; [by apply wp_ret|].
  apply (wp_steady_bind (shared_cluster true) net_allowed net_grows); [apply leaveNamespace_unguarded|].
  intros [cr' [e|]] s1 H1; [by apply wp_ret|]. cbv zeta. set (n' := if String.eqb _ _ then _ else _).
  apply wp_perform; [exact I|]. intros [e|found] s2 H2.
  - assert (H : net_steady (if IsNotFound e then createNetAttDef recorder cr' n' else
      failWith recorder cr' ReasonNetworkAttachmentDefNotFound (NetKube e) (KubeError_Error e))) by steady.
    eapply wp_post; [apply H|]. cbn. intros _ s3 H3. apply shared_grows in H2. by do 2 (etransitivity; [eassumption|]).
  - pose proof (shared_grows _ _ _ _ _ H2) as Hg. destruct H2 as (s1' & [-> [_ Hf]] & Hr).
    eapply wp_post; [apply updateNetAttDef_safe|].
    + by apply Hg, H1.
    + eapply lookup_weaken; [|apply Hg]. apply H1 in Hs. by apply Hs.
    + cbn. intros _ s3 H3. by do 2 (etransitivity; [eassumption|]).
Qed.

Lemma deleteNetAttDef_safe cr s :
  wp (shared_cluster true) net_allowed (deleteNetAttDef cr)
    (λ r s', net_grows s s' ∧ (r = None → target cr ∈ nc_gone s')) s.
Proof.
  unfold deleteNetAttDef. apply wp_perform; [exact I|]. intros x s1 H1. apply wp_ret.
  split; [by eapply shared_grows|].
  destruct H1 as (s0 & H0 & Hr). assert (Hrtc : ∀ a b, rtc net_rely a b → nc_gone b = nc_gone a).
  { induction 1 as [|a b c (_ & _ & G) _ IH]; congruence. }
  rewrite (Hrtc _ _ Hr). intros Hx. cbn in H0. unfold target.
  destruct x as [[]|]; cbn in Hx; try done; destruct H0 as (_ & _ & ->); cbn; set_solver.
Qed.

Lemma cleanResourcesAndFinalizers_safe cr s :
  wp (shared_cluster true) net_allowed (cleanResourcesAndFinalizers cr) (λ _ s', net_grows s s') s.
Proof.
  unfold cleanResourcesAndFinalizers. destruct (StringInArray _ _) eqn:E; [|by apply wp_ret].
  apply wp_bind. eapply wp_post; [apply deleteNetAttDef_safe|]. cbn beta. intros [e|] s1 [H1 Hg]; [done|].
  specialize (Hg eq_refl). unfold RemoveString. destruct (existsb _ _); [|done].
  apply wp_perform; [by right|]. intros x s2 H2%shared_grows. apply wp_ret. by transitivity s1.
Qed.

Lemma Reconcile_safe ns name s :
  consistent s →
  wp (shared_cluster true) net_allowed (Reconcile Namespace prefix recorder MarshalTrunk Decode ExecError Convert Indent ns name)
    (λ _ s', net_grows s s') s.
Proof.
  intros Hs. unfold Reconcile. apply wp_perform; [exact I|]. intros x s1 H1%shared_grows.
  destruct x as [e|cr]; [by apply wp_ret|].
  eapply (wp_post (shared_cluster true) net_allowed _ (λ _ s', net_grows s1 s')); [|intros _ s2 H2; by transitivity s1].
  unfold reconcileInstance. destruct (_ && _); [apply report_unguarded|].
  destruct (cr_Deleting cr).
  { apply wp_bind. eapply wp_post; [apply cleanResourcesAndFinalizers_safe|]. by intros e s2 H2. }
  apply (wp_steady_bind (shared_cluster true) net_allowed net_grows); [apply updateFinalizers_steady|].
  intros [cr' [e|]] s2 H2; [done|].
  eapply (wp_post (shared_cluster true) net_allowed _ (λ _ s', net_grows s2 s')); [|intros _ s3 H3; by transitivity s2].
  destruct (RenderNetAttDef _ _ _ _ _) as [[| |]|raw]; [apply failWith_unguarded..|by apply wp_ret|].
  destruct (Convert raw) as [m|n]; [by apply wp_ret|]. by apply provision_safe, H2, H1.
Qed.
End safety.

(** ** The outcome when nobody interferes *)

(** The Ready condition of the stored network. *)
Definition ready_is (s : NetCluster) (cr : NetworkCR) (status reason : string) : Prop :=
  ∃ cr' c, nc_networks s !! cr_key (cr_meta cr) = Some cr' ∧ cr_Finalizers cr' = cr_Finalizers cr ∧
    FindStatusCondition (cr_Conditions cr') ConditionReady = Some c ∧ c_Status c = status ∧ c_Reason c = reason ∧
    c_ObservedGeneration c = om_Generation (cr_meta cr).

(** What the definition of a network should be. *)
Definition desired (cr : NetworkCR) (rendered : NetAttDef) (config : string) : NetAttDef :=
  let n := nad_set_config config rendered in
  if String.eqb (om_Namespace (cr_meta cr)) (nad_Namespace n) then SetOwnerReference (om_Name (cr_meta cr)) n else n.

(** The definition is as desired and the network ready, or its namespace does
    not exist, or someone else owns it; the one in the previous namespace is
    gone; nothing else changed. *)
Record net_outcome (s s' : NetCluster) (cr : NetworkCR) (n : NetAttDef) : Prop := {
  outcome_target :
    (∃ o, nc_nads s' !! nad_key n = Some o ∧ nad_Config o = nad_Config n ∧ nad_Annotations o = nad_Annotations n ∧
       ready_is s' cr ConditionTrue ReasonNetworkReady) ∨
    (nc_nads s' !! nad_key n = None ∧ nad_Namespace n ∉ nc_namespaces s' ∧
       ready_is s' cr ConditionFalse ReasonNamespaceNotFound) ∨
    (∃ o, nc_nads s !! nad_key n = Some o ∧ nc_nads s' !! nad_key n = Some o ∧
       owner_of o ≠ "" ∧ owner_of o ≠ owner_of n ∧ ready_is s' cr ConditionFalse ReasonNetworkAttachmentDefInvalid);
  outcome_left : ∀ last, GetAnnotations cr !! LASTNETWORKNAMESPACE = Some last → last ≠ nad_Namespace n →
    nc_nads s' !! (last, om_Name (cr_meta cr)) = None;
  outcome_rest : ∀ k, k ≠ nad_key n →
    (∀ last, GetAnnotations cr !! LASTNETWORKNAMESPACE = Some last → k ≠ (last, om_Name (cr_meta cr))) →
    nc_nads s' !! k = nc_nads s !! k;
}.

(** The definitions and namespaces are untouched. *)
Definition same_nads (s s' : NetCluster) : Prop := nc_nads s' = nc_nads s ∧ nc_namespaces s' = nc_namespaces s.

Lemma find_set_ready now l c :
  ∃ c', FindStatusCondition (SetStatusCondition now l c) (c_Type c) = Some c' ∧ c_Status c' = c_Status c ∧
    c_Reason c' = c_Reason c ∧ c_ObservedGeneration c' = c_ObservedGeneration c.
Proof.
  rewrite find_set_same. destruct (FindStatusCondition l (c_Type c)) as [o|]; [by eexists|].
  unfold stampCondition. destruct (c_LastTransitionTime c); by eexists.
Qed.

Lemma preserve_single old c :
  ∃ c', preserveTransitionTimes old [c] = [c'] ∧ c_Type c' = c_Type c ∧ c_Status c' = c_Status c ∧
    c_Reason c' = c_Reason c ∧ c_ObservedGeneration c' = c_ObservedGeneration c.
Proof. cbn. destruct (_ !! _) as [o|]; [destruct (String.eqb _ _)|]; by eexists. Qed.

Section own.
Context (fails : bool) (Namespace prefix : string) (recorder : bool) (MarshalTrunk : list TrunkConfig → string).
Context {Unstructured : Type} (Decode : string → list (string + option Unstructured)).
Context (ExecError : RenderData → list Tmpl → string).
Context (Convert : Unstructured → string + NetAttDef) (Indent : string → string + string).

Abbreviation W := (own_cluster fails).
Abbreviation wpo := (wp W (λ _ _, True)).

Definition stored (s : NetCluster) (cr : NetworkCR) : Prop :=
  nc_networks s !! cr_key (cr_meta cr) = Some cr ∧ cr_Deleting cr = false ∧ NoDup (c_Type <$> cr_Conditions cr).

Lemma recordTransitions_own m ts s :
  wpo (recordTransitions (resp := NetResp) (λ m t reason message, perform (NetEvent m t reason message)) m ts)
    (λ _ s', s' = s) s.
Proof.
  induction ts as [|t ts IH]; [done|]. cbn [recordTransitions]. apply wp_perform; [done|]. intros x s' ->. exact IH.
Qed.

Lemma applyCondition_own cr st reason msg s :
  stored s cr →
  wpo (applyCondition recorder cr st reason msg)
    (λ r s', same_nads s s' ∧ (fails = false → r = None) ∧ (r = None → ready_is s' cr st reason)) s.
Proof.
  intros (Hst & _ & Hnd). unfold applyCondition, ApplyCondition. cbn beta iota zeta.
  rewrite bool_decide_eq_false_2 by done.
  destruct (preserve_single (cr_Conditions cr) (netCondition cr st reason msg)) as (c & -> & HcT & HcS & HcR & HcG).
  cbn in HcT, HcS, HcR, HcG. case_bool_decide as Ht.
  - apply wp_ret. split; [done|]. split; [done|]. intros _.
    destruct (proj1 (HasTransitions_false (cr_Conditions cr) [c] Hnd (NoDup_singleton _))) as [_ HT].
    { unfold HasTransitions. by rewrite Ht. }
    destruct (HT c) as (oc & Hf & Hs); [by left|]. rewrite HcT in Hf.
    unfold sameCondition in Hs. rewrite !andb_true_iff, !String.eqb_eq, Z.eqb_eq in Hs. destruct Hs as (((? & ?) & _) & ?).
    exists cr, oc. split_and!; congruence.
  - apply wp_perform; [done|]. intros [e|] s1 H1; cbn in H1.
    + destruct H1 as [-> H1]. apply wp_ret. split; [done|]. split; [|done]. intros ->. naive_solver.
    + destruct H1 as (old & Ho & ->). rewrite Hst in Ho. injection Ho as <-.
      apply wp_bind. set (s1 := put_networks _ s). eapply (wp_post W _ _ (λ _ s', s' = s1)).
      { destruct recorder; [apply recordTransitions_own|by apply wp_ret]. }
      intros _ s2 ->. apply wp_ret. split; [done|]. split; [done|]. intros _.
      destruct (find_set_ready 0 (cr_Conditions cr) c) as (c2 & F & F1 & F2 & F3).
      rewrite HcT in F. eexists _, c2. cbn. rewrite lookup_insert_eq. split_and!; [done|done|exact F|congruence..].
Qed.

(** The network with other annotations. *)
Definition reannotated (cr cr' : NetworkCR) : Prop := ∃ m, cr' = SetAnnotations m cr.

Lemma ready_reannotated s cr cr' st reason : reannotated cr cr' → ready_is s cr' st reason → ready_is s cr st reason.
Proof. by intros [m ->] H. Qed.

Lemma report_own cr st reason msg s :
  stored s cr →
  wpo (report recorder cr st reason msg)
    (λ r s', same_nads s s' ∧ (fails = false → r = None) ∧ (r = None → ready_is s' cr st reason)) s.
Proof.
  intros H. unfold report. apply wp_bind. eapply wp_post; [by apply applyCondition_own|].
  cbn beta. intros r s' (H1 & H2 & H3). apply wp_ret. destruct r; naive_solver.
Qed.

Lemma failWith_own cr reason e msg s : wpo (failWith recorder cr reason e msg) (λ r _, r = Some e) s.
Proof.
  unfold failWith. apply wp_bind. by apply wp_top.
Qed.

Lemma annotate_own cr key value s :
  stored s cr →
  wpo (annotate cr key value)
    (λ r s', same_nads s s' ∧ (fails = false → r.2 = None) ∧
       (r.2 = None → stored s' r.1 ∧ reannotated cr r.1)) s.
Proof.
  intros (Hst & Hd & Hn). unfold annotate, AnnotateObject. destruct (String.eqb _ _).
  { apply wp_ret. split_and!; [done..|]. intros _. split; [done|]. exists (GetAnnotations cr). by destruct cr as [[]]. }
  apply wp_perform; [done|]. intros [e|o] s1 H1; cbn [w_step own_cluster net_server] in H1; apply wp_ret.
  - destruct H1 as [-> H1]. split_and!; [done..| |done]. intros ->. unfold cr_key in *. cbn in H1. naive_solver.
  - destruct H1 as (old & Ho & -> & ->). 
    change (nc_networks s !! cr_key (cr_meta cr) = Some old) in Ho. rewrite Hst in Ho. injection Ho as <-. rewrite patch_object_annotations. cbn [fst snd].
    split_and!; [done..|]. intros _. split; [|by eexists].
    split_and!; [|exact Hd|exact Hn]. unfold put_network. cbn. rewrite Hd. cbn. by rewrite lookup_insert_eq.
Qed.

Definition after_leaving (cr : NetworkCR) (n : NetAttDef) (nads : gmap (string * string) NetAttDef)
    : gmap (string * string) NetAttDef :=
  match GetAnnotations cr !! LASTNETWORKNAMESPACE with
  | Some last => if String.eqb (nad_Namespace n) last then nads else delete (last, om_Name (cr_meta cr)) nads
  | None => nads
  end.

Lemma leaveNamespace_own cr n s :
  stored s cr →
  wpo (leaveNamespace cr n)
    (λ r s', (fails = false → GetAnnotations cr !! LASTNETWORKNAMESPACE ≠ Some "" → r.2 = None) ∧
       (r.2 = None → stored s' r.1 ∧ reannotated cr r.1 ∧ nc_namespaces s' = nc_namespaces s ∧
          nc_nads s' = after_leaving cr n (nc_nads s))) s.
Proof.
  intros Hst. assert (Hre : reannotated cr cr) by (exists (GetAnnotations cr); by destruct cr as [[]]).
  unfold leaveNamespace, after_leaving. destruct (_ !! LASTNETWORKNAMESPACE) as [last|]; [|by apply wp_ret].
  destruct (String.eqb _ last); [by apply wp_ret|].
  assert (Hclear : wpo ('(cr', err) ← annotate cr LASTNETWORKNAMESPACE ""; Ret (cr', option_map NetKube err))
    (λ r s', (fails = false → Some last ≠ Some "" → r.2 = None) ∧
       (r.2 = None → stored s' r.1 ∧ reannotated cr r.1 ∧ nc_namespaces s' = nc_namespaces s ∧
          nc_nads s' = delete (last, om_Name (cr_meta cr)) (nc_nads s))) (drop_nad (last, om_Name (cr_meta cr)) s)).
  { apply wp_bind. eapply wp_post; [by apply annotate_own|]. cbn beta.
    intros [cr' err] s2 ([H1 H1'] & H2 & H3). apply wp_ret. cbn in *. destruct err as [e|]; cbn.
    - split; [|done]. intros Hf _. by discriminate (H2 Hf).
    - split; [done|]. intros _. by destruct (H3 eq_refl) as [? ?]. }
  apply wp_perform; [done|]. intros [[]|] s1 H1; cbn in H1; cbn [IsNotFound].
  - destruct H1 as (_ & H1 & ->). exact Hclear.
  - apply wp_ret. split; [|done]. destruct H1 as [_ [-> | ->]]; [done|]. intros _ H. by contradict H.
  - apply wp_ret. split; [|done]. destruct H1 as [_ [-> | ->]]; [done|]. intros _ H. by contradict H.
  - destruct H1 as (_ & H1 & ->). exact Hclear.
Qed.

(** What the last steps guarantee, from the state in which the previous
    definition is gone. *)
Definition placed (s s' : NetCluster) (cr : NetworkCR) (n : NetAttDef) : Prop :=
  ((∃ o, nc_nads s' !! nad_key n = Some o ∧ nad_Config o = nad_Config n ∧ nad_Annotations o = nad_Annotations n ∧
       ready_is s' cr ConditionTrue ReasonNetworkReady) ∨
    (nc_nads s' !! nad_key n = None ∧ nad_Namespace n ∉ nc_namespaces s' ∧
       ready_is s' cr ConditionFalse ReasonNamespaceNotFound) ∨
    (∃ o, nc_nads s !! nad_key n = Some o ∧ nc_nads s' !! nad_key n = Some o ∧
       owner_of o ≠ "" ∧ owner_of o ≠ owner_of n ∧ ready_is s' cr ConditionFalse ReasonNetworkAttachmentDefInvalid)) ∧
  ∀ k, k ≠ nad_key n → nc_nads s' !! k = nc_nads s !! k.


(** The last report, after the definition was written. *)
Lemma report_written cr cr' n v s1 s :
  stored s1 cr' → reannotated cr cr' → same_nads (put_nad v n s) s1 →
  wpo (report recorder cr' ConditionTrue ReasonNetworkReady readyMessage)
    (λ r s', (fails = false → r = None) ∧ (r = None → placed s s' cr n)) s1.
Proof.
  intros Hst Hre [Hn _]. eapply wp_post; [by apply report_own|]. cbn beta. intros r s' ([Hn' _] & H2 & H3).
  split; [done|]. intros Hr. split.
  - left. exists (SetResourceVersion v n). rewrite Hn', Hn. cbn. rewrite lookup_insert_eq.
    split_and!; [done..|]. eapply ready_reannotated; eauto.
  - intros k Hk. rewrite Hn', Hn. cbn. by rewrite lookup_insert_ne.
Qed.

Lemma failed_own cr cr' n reason e msg s1 s :
  fails = true →
  wpo (failWith recorder cr' reason e msg) (λ r s', (fails = false → r = None) ∧ (r = None → placed s s' cr n)) s1.
Proof. intros Hf. eapply wp_post; [apply failWith_own|]. cbn. intros r s' ->. split; [congruence|done]. Qed.

Lemma createNetAttDef_own cr n s :
  stored s cr → nc_nads s !! nad_key n = None → nad_Namespace n ≠ "" →
  wpo (createNetAttDef recorder cr n) (λ r s', (fails = false → r = None) ∧ (r = None → placed s s' cr n)) s.
Proof.
  intros Hst Hn Hns. unfold createNetAttDef. apply wp_perform; [done|]. intros t s0 [-> Ht].
  destruct (match t with Some e => IsNotFound e | None => false end) eqn:Et.
  - assert (t = Some ErrNotFound) as -> by (by destruct t as [[]|]).
    eapply wp_post; [by apply report_own|]. cbn beta. intros r s' ([H1 H1'] & H2 & H3). split; [done|].
    intros Hr. split; [|by intros k _; rewrite H1]. right. left. rewrite H1, H1'. auto.
  - assert (Hok : fails = false → nad_Namespace n ∈ nc_namespaces s).
    { intros Hf. destruct t as [[]|]; cbn in Et; try done; cbn in Ht; congruence. }
    apply wp_perform; [done|]. intros [e|] s1 H1; cbn in H1.
    + destruct H1 as [-> H1]. apply failed_own. destruct H1 as [H1|H1]; [done|].
      destruct (bool_dec fails true) as [|Hf%not_true_iff_false]; [done|]. exfalso. apply H1. split_and!; auto.
    + destruct H1 as (_ & v & Hv & ->). apply wp_bind. eapply wp_post; [apply (annotate_own cr _ _ (put_nad v n s)); exact Hst|].
      cbn beta. intros [cr' [e|]] s2 (Hs2 & H2 & H3); cbn in H2, H3.
      * apply wp_ret. split; [|done]. intros Hf. by discriminate (H2 Hf).
      * destruct (H3 eq_refl) as [Hst' Hre]. by eapply report_written.
Qed.

Lemma updateNetAttDef_own cr n found s :
  stored s cr → nc_nads s !! nad_key n = Some found →
  wpo (updateNetAttDef recorder cr n found) (λ r s', (fails = false → r = None) ∧ (r = None → placed s s' cr n)) s.
Proof.
  intros Hst Hf. unfold updateNetAttDef.
  destruct (negb (String.eqb (owner_of found) "") && _) eqn:Eo.
  { eapply wp_post; [by apply report_own|]. cbn beta. intros r s' ([H1 H1'] & H2 & H3). split; [done|].
    intros Hr. split; [|by intros k _; rewrite H1]. right. right. exists found. rewrite H1.
    apply andb_true_iff in Eo as [E1%negb_true_iff%String.eqb_neq E2%negb_true_iff%String.eqb_neq]. split_and!; auto. }
  destruct (bool_decide _ && _) eqn:Es.
  { apply andb_true_iff in Es as [E1%bool_decide_eq_true E2%bool_decide_eq_true].
    eapply wp_post; [by apply report_own|]. cbn beta. intros r s' ([H1 H1'] & H2 & H3). split; [done|].
    intros Hr. split; [|by intros k _; rewrite H1]. left. exists found. rewrite H1. split_and!; auto. }
  apply wp_perform; [done|]. intros [e|] s1 H1; cbn in H1.
  - destruct H1 as [-> H1]. apply failed_own. destruct H1 as [H1|H1]; [done|]. exfalso. apply H1. by exists found.
  - destruct H1 as (_ & v & Hv & ->). eapply (report_written cr cr n v); [exact Hst| |done].
    exists (GetAnnotations cr). by destruct cr as [[]].
Qed.

Lemma placed_outcome cr n s s1 s' :
  nc_nads s1 = after_leaving cr n (nc_nads s) → placed s1 s' cr n → net_outcome s s' cr n.
Proof.
  intros Hl [Ht Hrest]. unfold after_leaving in Hl. constructor.
  - destruct Ht as [H|[H|(o & H1 & H2)]]; [by left|by right; left|right; right].
    exists o. split; [|done]. rewrite Hl in H1. destruct (_ !! LASTNETWORKNAMESPACE) as [last|]; [|done].
    destruct (String.eqb _ last); [done|]. by apply lookup_delete_Some in H1 as [_ H1].
  - intros last E Hne. rewrite Hrest by (unfold nad_key; congruence).
    rewrite E in Hl. apply not_eq_sym, String.eqb_neq in Hne. rewrite Hne in Hl. by rewrite Hl, lookup_delete_eq.
  - intros k Hk Hlast. rewrite Hrest by done. rewrite Hl. destruct (_ !! LASTNETWORKNAMESPACE) as [last|]; [|done].
    destruct (String.eqb _ last); [done|]. apply lookup_delete_ne. intros <-. by apply (Hlast last).
Qed.

Lemma desired_namespace cr raw config : nad_key (desired cr raw config) = nad_key raw.
Proof. unfold desired. by destruct (String.eqb _ _). Qed.

Lemma provision_own cr raw config s :
  stored s cr → Indent (nad_Config raw) = inr config → nad_Namespace raw ≠ "" →
  wpo (provision recorder Indent cr raw)
    (λ r s', (fails = false → GetAnnotations cr !! LASTNETWORKNAMESPACE ≠ Some "" → r = None) ∧
       (r = None → net_outcome s s' cr (desired cr raw config))) s.
Proof.
  intros Hst Hi Hns. unfold provision. rewrite Hi. apply wp_bind.
  eapply wp_post; [by apply leaveNamespace_own|]. cbn beta. intros [cr1 [e|]] s1 [H1 H2]; cbn in H1, H2.
  { apply wp_ret. split; [|done]. intros Hf Hl. by discriminate (H1 Hf Hl). }
  destruct (H2 eq_refl) as (Hst1 & [m ->] & Hnn & Hnads). clear H1 H2. cbv zeta.
  change (if String.eqb _ _ then _ else _) with (desired cr raw config). set (n := desired cr raw config) in *.
  assert (Hkn : nad_key n = nad_key raw) by apply desired_namespace. injection Hkn as Hk1 Hk2.
  assert (Hn : nc_nads s1 = after_leaving cr n (nc_nads s)) by (rewrite Hnads; unfold after_leaving; cbn; by rewrite Hk1).
  apply wp_perform; [done|]. intros f s2 [-> Hf].
  assert (Hfin : ∀ p : netM (option NetError), wpo p (λ r s', (fails = false → r = None) ∧ (r = None → placed s1 s' (SetAnnotations m cr) n)) s1 →
    wpo p (λ r s', (fails = false → GetAnnotations cr !! LASTNETWORKNAMESPACE ≠ Some "" → r = None) ∧
       (r = None → net_outcome s s' cr n)) s1).
  { intros p Hp. eapply wp_post; [exact Hp|]. cbn beta. intros r s' [P1 P2]. split; [auto|].
    intros Hr. eapply placed_outcome; [exact Hn|]. exact (P2 Hr). }
  apply Hfin. destruct f as [[]|found]; cbn in Hf; cbn [IsNotFound].
  - destruct Hf as [_ Hf]. apply createNetAttDef_own; [done..|]. by rewrite Hk1.
  - apply failed_own. rewrite Hk1 in Hf. by destruct Hf as [?|?].
  - apply failed_own. rewrite Hk1 in Hf. by destruct Hf as [?|?].
  - destruct Hf as [_ Hf]. by apply updateNetAttDef_own.
Qed.

(** After the finalizer was added. *)
Lemma updateFinalizers_own cr s :
  stored s cr →
  wpo (updateFinalizers Namespace cr)
    (λ r s', (fails = false → r.2 = None) ∧
       (r.2 = None → stored s' r.1 ∧ same_nads s s' ∧
          (∃ l, r.1 = SetFinalizers l cr) ∧
          (om_Namespace (cr_meta cr) = Namespace → NETATTDEFFINALIZERNAME ∈ cr_Finalizers r.1))) s.
Proof.
  intros (Hst & Hd & Hn). assert (Hid : ∃ l, cr = SetFinalizers l cr) by (exists (cr_Finalizers cr); by destruct cr).
  unfold updateFinalizers. destruct (String.eqb _ _) eqn:E; cbn [negb].
  2: { apply String.eqb_neq in E. by apply wp_ret. }
  destruct (StringInArray _ _) eqn:Ef; [apply StringInArray_spec in Ef; by apply wp_ret|].
  apply wp_perform; [done|]. intros [e|o] s1 H1; cbn [w_step own_cluster net_server] in H1; apply wp_ret; cbn [fst snd].
  - split; [|done]. destruct H1 as [_ [Hf|H1]]; [congruence|]. cbn in H1. congruence.
  - split; [done|]. intros _. destruct H1 as (old & Ho & -> & ->). cbn in Ho. rewrite Hst in Ho. injection Ho as <-.
    split_and!; [|done..| |].
    + split_and!; [|done..]. unfold put_network. cbn. rewrite Hd. cbn. by rewrite lookup_insert_eq.
    + eexists. unfold cr_set_conditions, SetFinalizers. cbn. reflexivity.
    + intros _. cbn. set_solver.
Qed.

(** The finalizers play no part in what is rendered. *)
Lemma RenderNetAttDef_finalizers l cr :
  RenderNetAttDef prefix MarshalTrunk Decode ExecError (SetFinalizers l cr) = RenderNetAttDef prefix MarshalTrunk Decode ExecError cr.
Proof. done. Qed.

(** The network may have a definition outside its namespace. *)
Definition namespace_allowed (cr : NetworkCR) : Prop :=
  NetworkNamespace cr = "" ∨ om_Namespace (cr_meta cr) = Namespace.

Lemma namespace_allowed_guard cr :
  namespace_allowed cr →
  negb (String.eqb (NetworkNamespace cr) "") && negb (String.eqb (om_Namespace (cr_meta cr)) Namespace) = false.
Proof. unfold namespace_allowed. intros [->| ->]; rewrite String.eqb_refl; [done|apply andb_false_r]. Qed.

Lemma reconcileInstance_own cr raw n config s :
  stored s cr → namespace_allowed cr →
  RenderNetAttDef prefix MarshalTrunk Decode ExecError cr = inr raw → Convert raw = inr n →
  Indent (nad_Config n) = inr config → nad_Namespace n ≠ "" →
  wpo (reconcileInstance Namespace prefix recorder MarshalTrunk Decode ExecError Convert Indent cr)
    (λ r s', (fails = false → GetAnnotations cr !! LASTNETWORKNAMESPACE ≠ Some "" → r = None) ∧
       (r = None → ∃ l, net_outcome s s' (SetFinalizers l cr) (desired cr n config) ∧
          (om_Namespace (cr_meta cr) = Namespace → NETATTDEFFINALIZERNAME ∈ l))) s.
Proof.
  intros Hst Hal Hr Hc Hi Hns. unfold reconcileInstance. rewrite (namespace_allowed_guard _ Hal).
  destruct (proj2 Hst) as [-> _]. apply wp_bind. eapply wp_post; [by apply updateFinalizers_own|].
  cbn beta. intros [cr1 [e|]] s1 [H1 H2]; cbn in H1, H2.
  { apply wp_ret. split; [|done]. intros Hf _. by discriminate (H1 Hf). }
  destruct (H2 eq_refl) as (Hst1 & [Hs1 Hs1'] & [l ->] & Hfin).
  rewrite RenderNetAttDef_finalizers, Hr, Hc. eapply wp_post; [by apply provision_own|]. cbn beta.
  intros r s' [P1 P2]. split; [exact P1|]. intros Hr'. exists l. split; [|exact Hfin].
  destruct (P2 Hr') as [T L R]. constructor; [|exact L|].
  - rewrite <- Hs1. exact T.
  - intros k Hk Hl. rewrite <- Hs1. exact (R k Hk Hl).
Qed.

Lemma Reconcile_own cr raw n config s :
  stored s cr → namespace_allowed cr →
  RenderNetAttDef prefix MarshalTrunk Decode ExecError cr = inr raw → Convert raw = inr n →
  Indent (nad_Config n) = inr config → nad_Namespace n ≠ "" →
  wpo (Reconcile Namespace prefix recorder MarshalTrunk Decode ExecError Convert Indent (om_Namespace (cr_meta cr)) (om_Name (cr_meta cr)))
    (λ r s', (fails = false → GetAnnotations cr !! LASTNETWORKNAMESPACE ≠ Some "" → r = None) ∧
       (r = None → ∃ l, net_outcome s s' (SetFinalizers l cr) (desired cr n config) ∧
          (om_Namespace (cr_meta cr) = Namespace → NETATTDEFFINALIZERNAME ∈ l))) s.
Proof.
  intros Hcr Hns Hraw Hn Hi He. unfold Reconcile. apply wp_perform; [done|]. intros x s1 [-> Hx].
  change (om_Namespace (cr_meta cr), om_Name (cr_meta cr)) with (cr_key (cr_meta cr)) in Hx.
  rewrite (proj1 Hcr) in Hx. destruct x as [e|cr'].
  - destruct e; cbn in Hx; [by destruct Hx|..]; (destruct Hx as [Hx|Hx]; [|by destruct (Hx I)]);
      apply wp_ret; (split; [congruence|done]).
  - destruct Hx as [_ [= <-]]. by apply (reconcileInstance_own cr raw n config).
Qed.
End own.

(** ** A network moved to a namespace that does not exist *)

Section moved.
Context (Namespace prefix : string) (recorder : bool) (MarshalTrunk : list TrunkConfig → string).
Context {Unstructured : Type} (Decode : string → list (string + option Unstructured)).
Context (ExecError : RenderData → list Tmpl → string).
Context (Convert : Unstructured → string + NetAttDef) (Indent : string → string + string).

Abbreviation W := (spectated_cluster true).

(** The annotation was cleared to the empty string, not removed. *)
Definition cleared (cr : NetworkCR) : Prop :=
  cr_Deleting cr = false ∧ GetAnnotations cr !! LASTNETWORKNAMESPACE = Some "" ∧ namespace_allowed Namespace cr ∧
  ∀ raw n, RenderNetAttDef prefix MarshalTrunk Decode ExecError cr = inr raw → Convert raw = inr n → nad_Namespace n ≠ "".

Definition stuck (k : string * string) (s : NetCluster) : Prop :=
  ∃ cr, nc_networks s !! k = Some cr ∧ cr_key (cr_meta cr) = k ∧ cleared cr.

(** No definition is written. *)
Definition writes_nothing (s : NetCluster) (r : NetReq) : Prop :=
  match r with CreateNad _ | UpdateNad _ => False | _ => True end.

Lemma elsewhere_networks s s' : rtc net_rely_elsewhere s s' → nc_networks s' = nc_networks s.
Proof. induction 1 as [|a b c H _ IH]; [done|]. by rewrite IH. Qed.

Lemma stuck_networks k s s' : nc_networks s' = nc_networks s → stuck k s → stuck k s'.
Proof. intros E (cr & H). exists cr. by rewrite E. Qed.

Definition keeps_stuck (k : string * string) (s s' : NetCluster) : Prop := stuck k s → stuck k s'.

#[local] Instance keeps_stuck_preorder k : PreOrder (keeps_stuck k).
Proof. split; [by intros s H|]. intros a b c H1 H2 H. by apply H2, H1. Qed.

Lemma status_keeps_stuck k m cs : steady W writes_nothing (keeps_stuck k) (perform (ApplyNetStatus m cs)).
Proof.
  apply (steady_perform W writes_nothing (keeps_stuck k) (ApplyNetStatus m cs)); [done|].
  intros s x s' (s1 & H1 & E%elsewhere_networks) Hs. apply (stuck_networks _ s1); [done|].
  destruct x as [e|]; [by destruct H1 as [-> _]|]. destruct H1 as (old & Ho & ->). destruct Hs as (cr & Hcr & Hk & Hc).
  unfold stuck. cbn. destruct (decide (cr_key m = k)) as [<-|Hne].
  - rewrite Ho in Hcr. injection Hcr as ->. rewrite lookup_insert_eq. by exists (cr_apply_conditions cs cr).
  - rewrite lookup_insert_ne by done. by exists cr.
Qed.

Lemma event_keeps_stuck k m t reason msg : steady W writes_nothing (keeps_stuck k) (perform (NetEvent m t reason msg)).
Proof.
  apply (steady_perform W writes_nothing (keeps_stuck k) (NetEvent m t reason msg)); [done|].
  intros s x s' (s1 & -> & E%elsewhere_networks) Hs. by apply (stuck_networks _ s).
Qed.
#[local] Hint Extern 1 (steady _ _ _ (perform (ApplyNetStatus _ _))) => apply status_keeps_stuck : steady.
#[local] Hint Extern 1 (steady _ _ _ (perform (NetEvent _ _ _ _))) => apply event_keeps_stuck : steady.

Lemma failWith_keeps_stuck k cr reason e msg s :
  stuck k s →
  wp W writes_nothing (failWith recorder cr reason e msg) (λ r s', is_Some r ∧ stuck k s') s.
Proof.
  intros Hs. unfold failWith. apply wp_bind.
  assert (Hrec : ∀ m ts, steady W writes_nothing (keeps_stuck k) (recordTransitions (resp := NetResp)
    (λ m t reason message, perform (NetEvent m t reason message)) m ts)).
  { intros m ts. induction ts; cbn [recordTransitions]; steady. }
  assert (H : steady W writes_nothing (keeps_stuck k) (applyCondition recorder cr ConditionFalse reason msg)).
  { unfold applyCondition, ApplyCondition. steady. }
  eapply wp_post; [apply H|]. cbn. intros _ s' H'. split; [by eexists|]. by apply H'.
Qed.

Lemma updateFinalizers_keeps_stuck cr s :
  nc_networks s !! cr_key (cr_meta cr) = Some cr → cleared cr →
  wp W writes_nothing (updateFinalizers Namespace cr)
    (λ r s', cleared r.1 ∧ stuck (cr_key (cr_meta cr)) s') s.
Proof.
  intros Hst Hc. assert (Hs : stuck (cr_key (cr_meta cr)) s) by (by exists cr).
  unfold updateFinalizers. destruct (negb _); [by apply wp_ret|]. destruct (StringInArray _ _); [by apply wp_ret|].
  set (cr' := SetFinalizers _ cr). assert (Hc' : cleared cr') by exact Hc.
  apply wp_perform; [done|]. intros [e|o] s1 (s0 & H1 & E%elsewhere_networks); apply wp_ret; cbn [fst snd].
  - destruct H1 as [-> _]. split; [done|]. by apply (stuck_networks _ s).
  - destruct H1 as (old & Ho & -> & ->). split; [exact Hc'|]. eapply stuck_networks; [exact E|].
    exists (cr_set_conditions (cr_Conditions old) cr'). split; [|done]. unfold put_network. cbn.
    rewrite (proj1 Hc). cbn. by rewrite lookup_insert_eq.
Qed.

(** The request to delete a definition in no namespace is always refused. *)
Lemma provision_stuck k cr n s :
  stuck k s → GetAnnotations cr !! LASTNETWORKNAMESPACE = Some "" → nad_Namespace n ≠ "" →
  wp W writes_nothing (provision recorder Indent cr n) (λ r s', is_Some r ∧ stuck k s') s.
Proof.
  intros Hs Ha Hn. unfold provision. destruct (Indent _) as [e|config]; [by apply wp_ret|].
  unfold leaveNamespace. rewrite Ha. cbn [nad_Namespace nad_set_config].
  rewrite (proj2 (String.eqb_neq _ _) Hn). apply wp_bind, wp_perform; [done|].
  intros [e|] s1 (s0 & H1 & E%elsewhere_networks); [|by destruct H1].
  destruct e; cbn in H1; cbn [IsNotFound]; [by destruct H1|..]; destruct H1 as [-> _];
    apply wp_ret; apply wp_ret; (split; [by eexists|]); by apply (stuck_networks _ s).
Qed.

Lemma Reconcile_stuck ns name s :
  stuck (ns, name) s →
  wp W writes_nothing (Reconcile Namespace prefix recorder MarshalTrunk Decode ExecError Convert Indent ns name)
    (λ r s', is_Some r ∧ stuck (ns, name) s') s.
Proof.
  intros Hs. pose proof Hs as (cr & Hcr & Hk & Hc). unfold Reconcile. apply wp_perform; [done|].
  intros x s1 (s0 & [-> H1] & E%elsewhere_networks). pose proof (stuck_networks _ _ _ E Hs) as Hs1.
  destruct x as [e|cr0].
  { destruct e; cbn in H1; [destruct H1; congruence|..]; apply wp_ret; cbn; (split; [by eexists|done]). }
  destruct H1 as [_ H1]. rewrite Hcr in H1. injection H1 as <-.
  unfold reconcileInstance. destruct Hc as (Hd & Ha & Hal & Hren).
  rewrite (namespace_allowed_guard _ _ Hal), Hd. apply wp_bind.
  eapply wp_post; [apply updateFinalizers_keeps_stuck; [by rewrite E, Hk|done]|].
  rewrite Hk. cbn beta. intros [cr1 [e|]] s2 [Hc1 Hs2]; [by apply wp_ret|]. cbn in Hc1.
  destruct Hc1 as (_ & Ha1 & _ & Hren1).
  destruct (RenderNetAttDef _ _ _ _ cr1) as [[| |]|raw] eqn:Er; [by apply failWith_keeps_stuck..|by apply wp_ret|].
  destruct (Convert raw) as [m|n] eqn:Ec; [by apply wp_ret|]. apply provision_stuck; eauto.
Qed.

(** One reconciliation, or a move of somebody else. *)
Definition net_moves (ns name : string) (s s' : NetCluster) : Prop :=
  (∃ tr r, exec W (Reconcile Namespace prefix recorder MarshalTrunk Decode ExecError Convert Indent ns name) s tr r s') ∨
  net_rely_elsewhere s s'.

Lemma stuck_invariant ns name s s' : rtc (net_moves ns name) s s' → stuck (ns, name) s → stuck (ns, name) s'.
Proof.
  induction 1 as [|a b c [(tr & r & H)|H] _ IH]; [done|..]; intros Hs; apply IH.
  - by apply (wp_exec W _ _ _ _ _ _ _ (Reconcile_stuck ns name a Hs)) in H as [[_ ?] _].
  - by apply (stuck_networks _ a).
Qed.
End moved.

(** ** A server to run against *)

(** Longer than every version in use. *)
Definition next_version (s : NetCluster) : string := longer ((map_to_list (nc_log s)).*1.*2).

Lemma next_version_fresh s k : nc_log s !! (k, next_version s) = None.
Proof.
  destruct (nc_log s !! _) as [o|] eqn:E; [|done]. exfalso. apply elem_of_map_to_list in E.
  apply (longer_fresh ((map_to_list (nc_log s)).*1.*2)).
  apply list_elem_of_fmap. exists (k, next_version s). split; [done|]. apply list_elem_of_fmap. by exists (k, next_version s, o).
Qed.

Definition get_from {A} (o : option A) : KubeError + A :=
  match o with Some a => inr a | None => inl ErrNotFound end.

Definition emptyNamespace := ErrAPI "an empty namespace may not be set when a resource name is provided".

Definition net_handle (s : NetCluster) (r : NetReq) : NetResp r * NetCluster :=
  match r with
  | GetNetwork ns name => (get_from (nc_networks s !! (ns, name)), s)
  | UpdateNetwork cr =>
      match nc_networks s !! cr_key (cr_meta cr) with
      | Some old => let o := cr_set_conditions (cr_Conditions old) cr in (inr o, put_network o s)
      | None => (inl ErrNotFound, s)
      end
  | PatchNetwork original changed =>
      match nc_networks s !! cr_key (cr_meta changed) with
      | Some old => let o := patch_object original changed old in (inr o, put_network o s)
      | None => (inl ErrNotFound, s)
      end
  | ApplyNetStatus m cs =>
      match nc_networks s !! cr_key m with
      | Some old => (None, put_networks (<[cr_key m := cr_apply_conditions cs old]> (nc_networks s)) s)
      | None => (Some ErrNotFound, s)
      end
  | NetEvent _ _ _ _ => (tt, s)
  | GetNad ns name => (if decide (ns = "") then inl emptyNamespace else get_from (nc_nads s !! (ns, name)), s)
  | CreateNad n =>
      if decide (nad_Namespace n ≠ "" ∧ nad_Namespace n ∈ nc_namespaces s) then
        match nc_nads s !! nad_key n with
        | None => (None, put_nad (next_version s) n s)
        | Some _ => (Some ErrConflict, s)
        end
      else (Some ErrNotFound, s)
  | UpdateNad n =>
      match nc_nads s !! nad_key n with
      | Some cur => if decide (nad_ResourceVersion cur = nad_ResourceVersion n)
                    then (None, put_nad (next_version s) n s) else (Some ErrConflict, s)
      | None => (Some ErrNotFound, s)
      end
  | DeleteNad ns name =>
      if decide (ns = "") then (Some emptyNamespace, s)
      else (match nc_nads s !! (ns, name) with Some _ => None | None => Some ErrNotFound end, drop_nad (ns, name) s)
  | GetNamespace name => (if decide (name ∈ nc_namespaces s) then None else Some ErrNotFound, s)
  | ListNetworks ns =>
      (inr (fst <$> List.filter (λ kv, String.eqb (NetworkNamespace kv.2) ns) (map_to_list (nc_networks s))), s)
  end.

Lemma net_handle_ok fails s r : net_server fails s r (net_handle s r).1 (net_handle s r).2.
Proof.
  destruct r as [ns name|cr|o c|m cs|m t reason msg|ns name|n|n|ns name|name|ns]; cbn [net_handle net_server].
  - split; [done|]. by destruct (_ !! _).
  - destruct (_ !! _) as [old|] eqn:E; [by exists old|]. by split; [|right].
  - destruct (_ !! _) as [old|] eqn:E; [by exists old|]. by split; [|right].
  - destruct (_ !! _) as [old|] eqn:E; [by exists old|]. by split; [|right].
  - done.
  - split; [done|]. cbn. case_decide; [right; by intros ?|]. by destruct (_ !! _).
  - case_decide as H.
    + destruct (_ !! _) as [old|] eqn:E; cbn.
      * split; [done|]. right. intros (_ & _ & ?). congruence.
      * destruct H. split; [done|]. exists (next_version s). split; [apply next_version_fresh|done].
    + split; [done|]. right. intros (? & ? & _). naive_solver.
  - destruct (_ !! _) as [cur|] eqn:E; [case_decide as H|].
    + split; [by exists cur|]. exists (next_version s). split; [apply next_version_fresh|done].
    + split; [done|]. right. intros (cur' & E' & ?). congruence.
    + split; [done|]. right. intros (cur' & E' & ?). congruence.
  - case_decide as H; [by split; [|right]|]. cbn. by destruct (_ !! _) eqn:E.
  - split; [done|]. cbn. by case_decide.
  - split; [done|]. cbn. intros k. rewrite list_elem_of_fmap. split.
    + intros ([k' cr] & -> & H). apply list_elem_of_In, filter_In in H as [H%list_elem_of_In He%String.eqb_eq].
      apply elem_of_map_to_list in H. by exists cr.
    + intros (cr & H & <-). exists (k, cr). split; [done|]. apply list_elem_of_In, filter_In.
      split; [by apply list_elem_of_In, elem_of_map_to_list|apply String.eqb_refl].
Qed.

(** A decoder for such manifests: a field is what follows its key up to a given
    character. *)
Fixpoint take_until (c : ascii) (s : string) : string :=
  match s with
  | EmptyString => ""
  | String a rest => if Ascii.eqb a c then "" else String a (take_until c rest)
  end.

Definition field (key : string) (c : ascii) (text : string) : string :=
  match String.index 0 key text with
  | None => ""
  | Some i => take_until c (String.substring (i + String.length key) (String.length text) text)
  end.

Definition sample_decode (text : string) : list (string + option string) := [inr (Some text)].

Definition sample_error (d : RenderData) (t : list Tmpl) : string := "map has no entry".

Definition line_end : ascii := Ascii.ascii_of_nat 10.

Definition sample_convert (text : string) : string + NetAttDef :=
  inr (mkNetAttDef (field "  name: " line_end text) (field "  namespace: " line_end text)
         {[ "k8s.v1.cni.cncf.io/resourceName" := field "resourceName: " line_end text;
            OwnerRefAnnotation := field "owner-ref: " line_end text ]}
         [] "" (field "config: '" (Ascii.ascii_of_nat 39) text)).

Definition sample_spec (ns : string) : SriovNetworkSpec :=
  mkSriovNetworkSpec ns "intelnics" "" "" 100 0 "" "on" "" "" None (Some 50) "" "" "".

Definition sample_network (ns : string) (annotations : gmap string string) (finalizers : list string) : NetworkCR :=
  mkNetworkCR (mkObjectMeta "net" "operator" 1 annotations ∅ []) (mkGVK "sriovnetwork.openshift.io" "v1" "SriovNetwork")
    finalizers false (SpecSriov (sample_spec ns)) [].

(** The network used to be in namespace a, where its definition is. *)
Definition moved_network : NetworkCR := sample_network "b" {[ LASTNETWORKNAMESPACE := "a" ]} [].

Definition old_nad : NetAttDef := mkNetAttDef "net" "a" ∅ [] "7" "{}".

Definition sample_net_cluster (cr : NetworkCR) (namespaces : gset string) : NetCluster :=
  mkNetCluster {[ ("operator", "net") := cr ]} {[ ("a", "net") := old_nad ]} namespaces
    {[ (("a", "net"), "7") := old_nad ]} ∅.

Definition sample_reconcile : netM (option NetError) :=
  Reconcile "operator" "openshift.io" true (λ _, "") sample_decode sample_error sample_convert inr "operator" "net".

Lemma sample_consistent cr nss : consistent (sample_net_cluster cr nss).
Proof.
  intros k n. unfold sample_net_cluster. cbn [nc_nads nc_log]. intros [<- <-]%lookup_singleton_Some. by rewrite lookup_singleton_eq.
Qed.

(** ** Properties *)

(** C6: whatever the other users of the API server do between two requests, a
    reconciliation never updates a NetworkAttachmentDefinition that belongs to
    another network: when the server would accept the update, the stored object
    carries no owner or the owner that is rendered.  And a network loses the
    finalizer only after its definition was deleted or found missing in this
    very reconciliation. *)
Theorem network_Reconcile_respects_owners (Namespace prefix : string) (recorder : bool)
    (MarshalTrunk : list TrunkConfig → string) (Unstructured : Type) (Decode : string → list (string + option Unstructured))
    (ExecError : RenderData → list Tmpl → string) (Convert : Unstructured → string + NetAttDef) (Indent : string → string + string)
    (ns name : string) (s s' : NetCluster) tr r
    (Hs : consistent s) (Hgone : nc_gone s = ∅)
    (Hrun : exec (shared_cluster true) (Reconcile Namespace prefix recorder MarshalTrunk Decode ExecError Convert Indent ns name) s tr r s') :
  ∀ si req, (si, req) ∈ tr →
    match req with
    | UpdateNad n => ∀ cur, nc_nads si !! nad_key n = Some cur → nad_ResourceVersion cur = nad_ResourceVersion n →
        owner_of cur = "" ∨ owner_of cur = owner_of n
    | UpdateNetwork cr => NETATTDEFFINALIZERNAME ∉ cr_Finalizers cr → target cr ∈ nc_gone si
    | _ => True
    end.
Proof.
  intros si req Hin. apply (wp_exec (shared_cluster true) net_allowed _ (λ _ s', net_grows s s')) in Hrun as [_ Htr];
    [|by apply Reconcile_safe].
  rewrite Forall_forall in Htr. specialize (Htr _ Hin). destruct req; try done. cbn in *. naive_solver.
Qed.

Lemma network_Reconcile_respects_owners_witness :
  let deleting := mkNetworkCR (cr_meta moved_network) (cr_gvk moved_network) [NETATTDEFFINALIZERNAME] true
                    (cr_Spec moved_network) [] in
  ∃ si cr, (si, UpdateNetwork cr) ∈ trace net_handle sample_reconcile (sample_net_cluster deleting {["a"; "b"]}) ∧
    cr_Finalizers cr = [] ∧ target cr ∈ nc_gone si.
Proof.
  intros deleting.
  assert (Hrun : exec (shared_cluster true) sample_reconcile (sample_net_cluster deleting {["a"; "b"]})
    (trace net_handle sample_reconcile (sample_net_cluster deleting {["a"; "b"]}))
    (run net_handle sample_reconcile (sample_net_cluster deleting {["a"; "b"]})).1
    (run net_handle sample_reconcile (sample_net_cluster deleting {["a"; "b"]})).2).
  { apply (run_exec (shared_cluster true) net_handle (λ _, True)); [|done]. intros s r _.
    split; [|done]. eexists. split; [apply net_handle_ok|done]. }
  assert (H : ∃ si cr, trace net_handle sample_reconcile (sample_net_cluster deleting {["a"; "b"]}) !! 2%nat =
    Some (si, UpdateNetwork cr) ∧ cr_Finalizers cr = []) by (eexists _, _; split; vm_compute; reflexivity).
  destruct H as (si & cr & H%list_elem_of_lookup_2 & Hf). exists si, cr. split; [done|]. split; [done|].
  apply (network_Reconcile_respects_owners _ _ _ _ _ _ _ _ _ _ _ _ _ _ _ (sample_consistent _ _) eq_refl Hrun si (UpdateNetwork cr) H).
  rewrite Hf. apply not_elem_of_nil.
Defined.


Definition move_cluster : NetCluster := sample_net_cluster moved_network {["a"; "b"]}.

(** What is rendered for the moved network. *)
Definition moved_text : string :=
  sriov_nad_text "openshift.io" (cr_gvk moved_network) (cr_meta moved_network) (sample_spec "b").


(** C40: a network whose recorded namespace was cleared -- which the reconciler
    does by writing an empty string when it leaves a namespace -- before its
    definition was created in the new one can never be provisioned: whatever
    happens besides (the namespace is created, requests succeed), as long as
    nobody edits the network, every later reconciliation asks to delete a
    definition in the empty namespace, is refused by the client, and ends with
    an error without creating or updating any definition. *)
Theorem moved_network_never_provisioned (Namespace prefix : string) (recorder : bool)
    (MarshalTrunk : list TrunkConfig → string) (Unstructured : Type) (Decode : string → list (string + option Unstructured))
    (ExecError : RenderData → list Tmpl → string) (Convert : Unstructured → string + NetAttDef) (Indent : string → string + string)
    (ns name : string) (s s1 s2 : NetCluster) tr r
    (Hs : stuck Namespace prefix MarshalTrunk Decode ExecError Convert (ns, name) s)
    (Hmoves : rtc (net_moves Namespace prefix recorder MarshalTrunk Decode ExecError Convert Indent ns name) s s1)
    (Hrun : exec (spectated_cluster true)
              (Reconcile Namespace prefix recorder MarshalTrunk Decode ExecError Convert Indent ns name) s1 tr r s2) :
  is_Some r ∧ ∀ si req, (si, req) ∈ tr → writes_nothing si req.
Proof.
  pose proof (stuck_invariant _ _ _ _ _ _ _ _ _ _ _ _ Hmoves Hs) as Hs1.
  destruct (wp_exec (spectated_cluster true) _ _ _ _ _ _ _ (Reconcile_stuck Namespace prefix recorder MarshalTrunk
    Decode ExecError Convert Indent ns name s1 Hs1) Hrun) as [[Hr _] Htr]. split; [done|].
  intros si req Hin. rewrite Forall_forall in Htr. exact (Htr _ Hin).
Qed.

(** The namespace b does not exist when the network is moved; then it is
    created. *)
Definition moved_too_early : NetCluster := (run net_handle sample_reconcile (sample_net_cluster moved_network {["a"]})).2.

Definition then_created : NetCluster :=
  mkNetCluster (nc_networks moved_too_early) (nc_nads moved_too_early) {["a"; "b"]} (nc_log moved_too_early) (nc_gone moved_too_early).

Lemma moved_network_never_provisioned_witness :
  (run net_handle sample_reconcile (sample_net_cluster moved_network {["a"]})).1 = None ∧
  stuck "operator" "openshift.io" (λ _, "") sample_decode sample_error sample_convert ("operator", "net") moved_too_early ∧
  is_Some (run net_handle sample_reconcile then_created).1.
Proof.
  assert (Hs : stuck "operator" "openshift.io" (λ _, "") sample_decode sample_error sample_convert ("operator", "net") moved_too_early).
  { assert (Hcr : ∃ cr, nc_networks moved_too_early !! ("operator", "net") = Some cr ∧
      cr_key (cr_meta cr) = ("operator", "net") ∧ cr_Deleting cr = false ∧
      GetAnnotations cr !! LASTNETWORKNAMESPACE = Some "" ∧ om_Namespace (cr_meta cr) = "operator" ∧
      ∃ text n, RenderNetAttDef "openshift.io" (λ _, "") sample_decode sample_error cr = inr text ∧
        sample_convert text = inr n ∧ nad_Namespace n = "b").
    { eexists. split; [by vm_compute|]. split_and!; [by vm_compute..|]. eexists _, _. split_and!; by vm_compute. }
    destruct Hcr as (cr & H1 & H2 & H3 & H4 & H5 & text & n & H6 & H7 & H8).
    exists cr. split; [done|]. split; [done|]. split_and!; [done..|by right|].
    intros raw n' Hraw Hn'. rewrite H6 in Hraw. injection Hraw as <-. rewrite H7 in Hn'. injection Hn' as <-. by rewrite H8. }
  split; [by vm_compute|]. split; [exact Hs|].
  apply (moved_network_never_provisioned "operator" "openshift.io" true (λ _, "") string sample_decode sample_error sample_convert inr
    "operator" "net" moved_too_early then_created (run net_handle sample_reconcile then_created).2
    (trace net_handle sample_reconcile then_created)); [exact Hs|by apply rtc_once; right|].
  apply (run_exec (spectated_cluster true) net_handle (λ _, True)); [|done]. intros s r _.
  split; [|done]. eexists. split; [apply net_handle_ok|done].
Defined.
