(* ===== verification/Mellanox.v ===== *)
(** * Mellanox firmware (pkg/vendors/mellanox/mellanox.go) and the Mellanox
    plugin (pkg/plugins/mellanox/mellanox_plugin.go)

    The number of VFs, SR-IOV itself and the link types of a Mellanox NIC are
    settings of its firmware, read and written with mstconfig; the two ports of a
    NIC share them.  The plugin decides which settings to change and whether the
    node has to be rebooted.

    Go's iteration over a map has no fixed order, and here the order matters: it
    is the parameter [range]. *)
From S2P Require Import Prelude GoLib Types Selector Effects HostSys HostKernel HostStore HostSriov.

Inductive BlueFieldMode := BluefieldDpu | BluefieldConnectXMode.

Definition internalCPUPageSupplier := "INTERNAL_CPU_PAGE_SUPPLIER".
Definition internalCPUEswitchManager := "INTERNAL_CPU_ESWITCH_MANAGER".
Definition internalCPUIbVporto := "INTERNAL_CPU_IB_VPORT0".
Definition internalCPUOffloadEngine := "INTERNAL_CPU_OFFLOAD_ENGINE".
Definition internalCPUModel := "INTERNAL_CPU_MODEL".
Definition ecpf := "ECPF".
Definition extHostPf := "EXT_HOST_PF".
Definition embeddedCPU := "EMBEDDED_CPU".
Definition disabled := "DISABLED".
Definition enabled := "ENABLED".
Definition PreconfiguredLinkType := "Preconfigured".
Definition UnknownLinkType := "Unknown".
Definition TotalVfs := "NUM_OF_VFS".
Definition EnableSriov := "SRIOV_EN".
Definition LinkTypeP1 := "LINK_TYPE_P1".
Definition LinkTypeP2 := "LINK_TYPE_P2".
Definition MellanoxVendorID := "15b3".

Record MlxNic := mkMlxNic {
  mn_EnableSriov : bool;
  mn_TotalVfs : Z;
  mn_LinkTypeP1 : string;
  mn_LinkTypeP2 : string;
}.

Definition set_EnableSriov (b : bool) (n : MlxNic) : MlxNic := mkMlxNic b (mn_TotalVfs n) (mn_LinkTypeP1 n) (mn_LinkTypeP2 n).
Definition set_TotalVfs (v : Z) (n : MlxNic) : MlxNic := mkMlxNic (mn_EnableSriov n) v (mn_LinkTypeP1 n) (mn_LinkTypeP2 n).
Definition set_LinkTypeP1 (l : string) (n : MlxNic) : MlxNic := mkMlxNic (mn_EnableSriov n) (mn_TotalVfs n) l (mn_LinkTypeP2 n).
Definition set_LinkTypeP2 (l : string) (n : MlxNic) : MlxNic := mkMlxNic (mn_EnableSriov n) (mn_TotalVfs n) (mn_LinkTypeP1 n) l.

(** ** The output of mstconfig *)

(** The classes \w and \s of package regexp. *)
Definition is_word (a : ascii) : bool :=
  let n := N_of_ascii a in
  ((48 <=? n) && (n <=? 57) || (65 <=? n) && (n <=? 90) || (97 <=? n) && (n <=? 122) || (n =? 95))%N.
Definition is_space (a : ascii) : bool :=
  let n := N_of_ascii a in ((n =? 9) || (n =? 10) || (n =? 12) || (n =? 13) || (n =? 32))%N.

(** The longest prefix of characters of a class, and the rest. *)
Fixpoint span (f : ascii → bool) (s : string) : string * string :=
  match s with
  | EmptyString => ("", "")
  | String a r => if f a then let '(h, t) := span f r in (String a h, t) else ("", s)
  end.

(** A non-empty run of one class followed by one of another; no backtracking is
    needed, since the classes that follow each other are disjoint. *)
Definition run1 (f : ascii → bool) (s : string) : option (string * string) :=
  match span f s with (EmptyString, _) => None | hr => Some hr end.

Definition spaces (s : string) : option string := snd <$> run1 is_space s.
Definition token (s : string) : option (string * string) := run1 (λ a, negb (is_space a)) s.

(** [(\w+)\s+(\S+)\s+(\S+)\s+(\S+)] at the start of [s]: the groups Current and
    Next. *)
Definition format_at (s : string) : option (string * string) :=
  '(_, r) ← run1 is_word s;
  r ← spaces r; '(_, r) ← token r;
  r ← spaces r; '(current, r) ← token r;
  r ← spaces r; '(next, _) ← token r;
  Some (current, next).

(** The leftmost match. *)
Fixpoint FindStringSubmatch (s : string) : option (string * string) :=
  match format_at s with
  | Some m => Some m
  | None => match s with EmptyString => None | String _ r => FindStringSubmatch r end
  end.

(** For every attribute the first line that contains it; a line in another
    format is an index out of range. *)
Fixpoint ParseMstconfigOutput_go (lines attributes : list string) (fwCurrent fwNext : gmap string string)
    : HostError + gmap string string * gmap string string :=
  match attributes with
  | [] => inr (fwCurrent, fwNext)
  | attr :: rest =>
      match List.find (λ line, Contains line attr) lines with
      | None => ParseMstconfigOutput_go lines rest fwCurrent fwNext
      | Some line =>
          match FindStringSubmatch line with
          | None => inl HPanic
          | Some (current, next) =>
              ParseMstconfigOutput_go lines rest (<[attr := current]> fwCurrent) (<[attr := next]> fwNext)
          end
      end
  end.

Definition ParseMstconfigOutput (mstOutput : string) (attributes : list string)
    : HostError + gmap string string * gmap string string :=
  ParseMstconfigOutput_go (Split mstOutput "010"%char) attributes ∅ ∅.

Definition getLinkType (linkType : string) : string :=
  if Contains linkType LinkTypeETH then LinkTypeETH
  else if Contains linkType LinkTypeIB then LinkTypeIB
  else if negb (String.eqb linkType "") then UnknownLinkType
  else PreconfiguredLinkType.

Definition mlnxNicFromMap (mstData : gmap string string) : HostError + MlxNic :=
  match Atoi (default "" (mstData !! TotalVfs)) with
  | (_, Some _) => inl (HMsg "strconv.Atoi")
  | (i, None) =>
      inr (mkMlxNic (Contains (default "" (mstData !! EnableSriov)) "True") i
             (getLinkType (default "" (mstData !! LinkTypeP1)))
             (match mstData !! LinkTypeP2 with Some l => getLinkType l | None => "" end))
  end.

(** ** Ports *)

(** [pciAddress[:len(pciAddress)-1]], which panics on the empty string; the
    callers that can meet it test for it. *)
Fixpoint GetPciAddressPrefix (pciAddress : string) : string :=
  match pciAddress with
  | EmptyString | String _ EmptyString => ""
  | String a r => String a (GetPciAddressPrefix r)
  end.

Fixpoint last_char (s : string) : string :=
  match s with
  | EmptyString | String _ EmptyString => s
  | String _ r => last_char r
  end.

Definition getOtherPortPCIAddress (pciAddress : string) : string :=
  if String.eqb (last_char pciAddress) "0" then GetPciAddressPrefix pciAddress +:+ "1"
  else GetPciAddressPrefix pciAddress +:+ "0".

Abbreviation NicsStatus := (gmap string (gmap string InterfaceExt)).
Abbreviation NicsSpec := (gmap string Interface).

Definition IsDualPort (pciAddress : string) (mellanoxNicsStatus : NicsStatus) : bool :=
  bool_decide (1 < size (default ∅ (mellanoxNicsStatus !! GetPciAddressPrefix pciAddress)))%nat.

(** The zero value when there is none: no link type. *)
Definition ifaceLinkType (pciAddress : string) (mellanoxNicsStatus : NicsStatus) : string :=
  from_option ie_LinkType "" (default ∅ (mellanoxNicsStatus !! GetPciAddressPrefix pciAddress) !! pciAddress).

(** ** Decisions; the attributes are changed through a pointer *)

Definition HandleTotalVfs (fwCurrent fwNext attrs : MlxNic) (ifaceSpec : Interface) (isDualPort : bool)
    (mellanoxNicsSpec : NicsSpec) : MlxNic * (Z * bool * bool) :=
  let totalVfs :=
    if isDualPort then
      match mellanoxNicsSpec !! getOtherPortPCIAddress (if_PciAddress ifaceSpec) with
      | Some other => if if_NumVfs other >? if_NumVfs ifaceSpec then if_NumVfs other else if_NumVfs ifaceSpec
      | None => if_NumVfs ifaceSpec
      end
    else if_NumVfs ifaceSpec in
  if if_ExternallyManaged ifaceSpec then
    if totalVfs >? mn_TotalVfs fwCurrent then (set_TotalVfs totalVfs attrs, (totalVfs, true, false))
    else (attrs, (totalVfs, false, false))
  else if negb (mn_TotalVfs fwCurrent =? totalVfs) then (set_TotalVfs totalVfs attrs, (totalVfs, true, false))
  else if negb (mn_TotalVfs fwNext =? totalVfs) then (set_TotalVfs totalVfs attrs, (totalVfs, false, true))
  else (attrs, (totalVfs, false, false)).

Definition HandleEnableSriov (totalVfs : Z) (fwCurrent fwNext attrs : MlxNic) : MlxNic * (bool * bool) :=
  if (totalVfs =? 0) && mn_EnableSriov fwCurrent then (set_EnableSriov false attrs, (true, false))
  else if (totalVfs >? 0) && negb (mn_EnableSriov fwCurrent) then (set_EnableSriov true attrs, (true, false))
  else if (totalVfs >? 0) && negb (mn_EnableSriov fwNext) then (set_EnableSriov true attrs, (false, true))
  else (attrs, (false, false)).

Definition isLinkTypeRequireChange (iface : Interface) (statusLinkType fwLinkType : string) : HostError + bool :=
  if negb (String.eqb (if_LinkType iface) "") && negb (EqualFold statusLinkType (if_LinkType iface)) then
    if negb (EqualFold (if_LinkType iface) LinkTypeETH) && negb (EqualFold (if_LinkType iface) LinkTypeIB) then
      inl (HMsg "mellanox-plugin OnNodeStateChange(): Not supported link type")
    else if String.eqb fwLinkType UnknownLinkType then
      inl (HMsg "mellanox-plugin OnNodeStateChange(): Unknown link type")
    else if String.eqb fwLinkType PreconfiguredLinkType then
      inl (HMsg "mellanox-plugin OnNodeStateChange(): Network card does not support link type change")
    else inr true
  else inr false.

(** One port: the new attributes and whether its link type changes. *)
Definition portLinkType (pciAddress fwLinkType : string) (set : string → MlxNic → MlxNic) (attr : MlxNic)
    (mellanoxNicsSpec : NicsSpec) (mellanoxNicsStatus : NicsStatus) : HostError + MlxNic * bool :=
  match mellanoxNicsSpec !! pciAddress with
  | None => inr (attr, false)
  | Some portSpec =>
      match isLinkTypeRequireChange portSpec (ifaceLinkType pciAddress mellanoxNicsStatus) fwLinkType with
      | inl e => inl e
      | inr true => inr (set (if_LinkType portSpec) attr, true)
      | inr false => inr (attr, false)
      end
  end.

Definition HandleLinkType (pciPrefix : string) (fwData attr : MlxNic) (mellanoxNicsSpec : NicsSpec)
    (mellanoxNicsStatus : NicsStatus) : HostError + MlxNic * bool :=
  match portLinkType (pciPrefix +:+ "0") (mn_LinkTypeP1 fwData) set_LinkTypeP1 attr mellanoxNicsSpec mellanoxNicsStatus with
  | inl e => inl e
  | inr (attr1, change1) =>
      match portLinkType (pciPrefix +:+ "1") (mn_LinkTypeP2 fwData) set_LinkTypeP2 attr1 mellanoxNicsSpec mellanoxNicsStatus with
      | inl e => inl e
      | inr (attr2, change2) => inr (attr2, change1 || change2)
      end
  end.

(** ** The firmware *)

Section firmware.
Context (hv : HostVars).
(** The order in which a map is iterated. *)
Context (range : ∀ {A}, gmap string A → list (string * A)).

Definition MstConfigReadData (pciAddress : string) : hostM (HostError + string) :=
  '(stdout, _, err) ← perform (RunCommand "mstconfig" ["-e"; "-d"; pciAddress; "q"]);
  Ret (match err with Some e => inl (HSys e) | None => inr stdout end).

(** A value of the map, or an error that names the attribute. *)
Definition attribute (attr : string) (m : gmap string string) : HostError + string :=
  match m !! attr with
  | Some v => inr v
  | None => inl (HMsg ("failed to find " +:+ attr +:+ " in the mstconfig output command"))
  end.

(** The mode, from the five values. *)
Definition blueFieldMode (supplier eswitch vport offload model PciAddress : string) : HostError + BlueFieldMode :=
  if Contains supplier ecpf && Contains eswitch ecpf && Contains vport ecpf && Contains offload enabled &&
     Contains model embeddedCPU then inr BluefieldDpu
  else if Contains supplier extHostPf && Contains eswitch extHostPf && Contains vport extHostPf &&
     Contains offload disabled && Contains model embeddedCPU then inr BluefieldConnectXMode
  else inl (HMsg ("MellanoxBlueFieldMode(): unknown device status for " +:+ PciAddress)).

Definition GetMellanoxBlueFieldMode (PciAddress : string) : hostM (HostError + BlueFieldMode) :=
  stdout ⇐ wrapping "failed to get mlx nic fw data" (MstConfigReadData PciAddress);
  Ret (match ParseMstconfigOutput stdout [internalCPUPageSupplier; internalCPUEswitchManager; internalCPUIbVporto;
                                          internalCPUOffloadEngine; internalCPUModel] with
       | inl e => inl e
       | inr (m, _) =>
           match attribute internalCPUPageSupplier m, attribute internalCPUEswitchManager m,
                 attribute internalCPUIbVporto m, attribute internalCPUOffloadEngine m, attribute internalCPUModel m with
           | inl e, _, _, _, _ | inr _, inl e, _, _, _ | inr _, inr _, inl e, _, _
           | inr _, inr _, inr _, inl e, _ | inr _, inr _, inr _, inr _, inl e => inl e
           | inr supplier, inr eswitch, inr vport, inr offload, inr model =>
               blueFieldMode supplier eswitch vport offload model PciAddress
           end
       end).

(** Both columns of the output as settings. *)
Definition fwData (out : string) : HostError + MlxNic * MlxNic :=
  match ParseMstconfigOutput out [TotalVfs; EnableSriov; LinkTypeP1; LinkTypeP2] with
  | inl e => inl e
  | inr (mstCurrentData, mstNextData) =>
      match mlnxNicFromMap mstCurrentData with
      | inl e => inl e
      | inr current =>
          match mlnxNicFromMap mstNextData with inl e => inl e | inr next => inr (current, next) end
      end
  end.

Definition GetMlxNicFwData (pciAddress : string) : hostM (HostError + MlxNic * MlxNic) :=
  out ⇐ MstConfigReadData pciAddress;
  Ret (fwData out).

(** The settings of a command. *)
Definition fwSettings (fwArgs : MlxNic) : list string :=
  (if mn_EnableSriov fwArgs then [EnableSriov +:+ "=True"]
   else if mn_TotalVfs fwArgs =? 0 then [EnableSriov +:+ "=False"] else []) ++
  (if mn_TotalVfs fwArgs >? -1 then [TotalVfs +:+ "=" +:+ Itoa (mn_TotalVfs fwArgs)] else []) ++
  (if negb (String.eqb (mn_LinkTypeP1 fwArgs) "") then [LinkTypeP1 +:+ "=" +:+ mn_LinkTypeP1 fwArgs] else []) ++
  (if negb (String.eqb (mn_LinkTypeP2 fwArgs) "") then [LinkTypeP2 +:+ "=" +:+ mn_LinkTypeP2 fwArgs] else []).

(** One NIC; a panic while its mode is read is not an error that is ignored. *)
Definition configNic (pciAddr : string) (fwArgs : MlxNic) : hostM (HostError + unit) :=
  bfMode ← GetMellanoxBlueFieldMode pciAddr;
  match bfMode with
  | inl HPanic => Ret (inl HPanic)
  | inr BluefieldDpu =>
      Ret (inl (HMsg ("NIC " +:+ pciAddr +:+ " is in DPU mode. Firmware configuration changes are not supported in this mode.")))
  | _ =>
      if bool_decide (fwSettings fwArgs = []) then Ret (inr tt)
      else runE "mstconfig" (["-d"; pciAddr; "-y"; "set"] ++ fwSettings fwArgs)
  end.

Definition MlxConfigFW (attributesToChange : gmap string MlxNic) : hostM (HostError + unit) :=
  each (range _ attributesToChange) (λ '(pciAddr, fwArgs), configNic pciAddr fwArgs).

(** The failure of mstfwreset is only logged. *)
Definition resetNic (mellanoxNicsStatus : NicsStatus) (pciAddress : string) : hostM (HostError + unit) :=
  SetSriovNumVfs hv pciAddress 0 ;;!
  if String.eqb pciAddress "" then Ret (inl HPanic)
  else
    (if IsDualPort pciAddress mellanoxNicsStatus
     then SetSriovNumVfs hv (getOtherPortPCIAddress pciAddress) 0 else Ret (inr tt)) ;;!
    _ ← perform (RunCommand "mstfwreset" ["-d"; pciAddress; "--skip_driver"; "-l"; "3"; "-y"; "reset"]);
    Ret (inr tt).

Definition MlxResetFW (pciAddresses : list string) (mellanoxNicsStatus : NicsStatus) : hostM (HostError + unit) :=
  each pciAddresses (resetNic mellanoxNicsStatus).
End firmware.

(** ** The plugin *)

(** The package variables. *)
Record MlxState := mkMlxState {
  ms_pciAddressesToReset : list string;
  ms_attributesToChange : gmap string MlxNic;
  ms_mellanoxNicsStatus : NicsStatus;
  ms_mellanoxNicsSpec : NicsSpec;
}.

Definition NewMellanoxPlugin (s : MlxState) : MlxState :=
  mkMlxState (ms_pciAddressesToReset s) (ms_attributesToChange s) ∅ (ms_mellanoxNicsSpec s).

Definition addAttributes (pciAddress : string) (attrs : MlxNic) (s : MlxState) : MlxState :=
  mkMlxState (ms_pciAddressesToReset s) (<[pciAddress := attrs]> (ms_attributesToChange s))
    (ms_mellanoxNicsStatus s) (ms_mellanoxNicsSpec s).
Definition addReset (pciAddress : string) (s : MlxState) : MlxState :=
  mkMlxState (ms_pciAddressesToReset s ++ [pciAddress]) (ms_attributesToChange s)
    (ms_mellanoxNicsStatus s) (ms_mellanoxNicsSpec s).

(** The ports of every NIC, by the prefix of their addresses. *)
Fixpoint fillStatus (ifaces : list InterfaceExt) (m : NicsStatus) : HostError + NicsStatus :=
  match ifaces with
  | [] => inr m
  | iface :: rest =>
      if negb (String.eqb (ie_Vendor iface) MellanoxVendorID) then fillStatus rest m
      else if String.eqb (ie_PciAddress iface) "" then inl HPanic
      else
        let pciPrefix := GetPciAddressPrefix (ie_PciAddress iface) in
        fillStatus rest (<[pciPrefix := <[ie_PciAddress iface := iface]> (default ∅ (m !! pciPrefix))]> m)
  end.

Fixpoint fillSpec (ifaces : list Interface) (status : NicsStatus) (m : NicsSpec) : HostError + NicsSpec :=
  match ifaces with
  | [] => inr m
  | iface :: rest =>
      if String.eqb (if_PciAddress iface) "" then inl HPanic
      else
        match status !! GetPciAddressPrefix (if_PciAddress iface) with
        | None => fillSpec rest status m
        | Some _ => fillSpec rest status (<[if_PciAddress iface := iface]> m)
        end
  end.

Section plugin.
Context (hv : HostVars) (UnmarshalInterface : string → string + Interface) (NicIDMap : list string).
Context (range : ∀ {A}, gmap string A → list (string * A)).
(** vars.FeatureGate.IsEnabled(MellanoxFirmwareResetFeatureGate). *)
Context (firmwareReset : bool).

(** What is decided for one NIC: the attributes, whether the node must be
    rebooted, whether something changes without a reboot, and the error for a
    NIC that is managed by someone else. *)
Record NicDecision := mkNicDecision {
  nd_attrs : MlxNic;
  nd_needReboot : bool;
  nd_changeWithoutReboot : bool;
}.

Definition decideNic (ifaceSpec : Interface) (fwCurrent fwNext : MlxNic) (spec : NicsSpec) (status : NicsStatus)
    : HostError + NicDecision :=
  let isDualPort := IsDualPort (if_PciAddress ifaceSpec) status in
  let '(attrs1, (totalVfs, totalVfsNeedReboot, totalVfsChangeWithoutReboot)) :=
    HandleTotalVfs fwCurrent fwNext (mkMlxNic false (-1) "" "") ifaceSpec isDualPort spec in
  let '(attrs2, (sriovEnNeedReboot, sriovEnChangeWithoutReboot)) :=
    HandleEnableSriov totalVfs fwCurrent fwNext attrs1 in
  match HandleLinkType (GetPciAddressPrefix (if_PciAddress ifaceSpec)) fwCurrent attrs2 spec status with
  | inl e => inl e
  | inr (attrs3, needLinkChange) =>
      if if_ExternallyManaged ifaceSpec && (totalVfsNeedReboot || totalVfsChangeWithoutReboot) then
        inl (HMsg ("interface " +:+ if_PciAddress ifaceSpec +:+
               " required a change in the TotalVfs but the policy is externally managed failing"))
      else if if_ExternallyManaged ifaceSpec && needLinkChange then
        inl (HMsg "change required for link type but the policy is externally managed, failing")
      else inr (mkNicDecision attrs3 (totalVfsNeedReboot || sriovEnNeedReboot || needLinkChange)
                  (totalVfsChangeWithoutReboot || sriovEnChangeWithoutReboot))
  end.

Definition recordDecision (pciAddress : string) (d : NicDecision) (s : MlxState) : MlxState :=
  let s1 := if nd_needReboot d || nd_changeWithoutReboot d then addAttributes pciAddress (nd_attrs d) s else s in
  if nd_needReboot d then addReset pciAddress s1 else s1.

(** The loop over the NICs of the specification. [needReboot] is assigned anew
    for every NIC. *)
Fixpoint processSpec (entries : list (string * Interface)) (processedNics : gset string) (needReboot : bool)
    (s : MlxState) : hostM (MlxState * (HostError + gset string * bool)) :=
  match entries with
  | [] => Ret (s, inr (processedNics, needReboot))
  | (_, ifaceSpec) :: rest =>
      let pciPrefix := GetPciAddressPrefix (if_PciAddress ifaceSpec) in
      if decide (pciPrefix ∈ processedNics) then processSpec rest processedNics needReboot s
      else
        r ← GetMlxNicFwData (if_PciAddress ifaceSpec);
        match r with
        | inl e => Ret (s, inl e)
        | inr (fwCurrent, fwNext) =>
            match decideNic ifaceSpec fwCurrent fwNext (ms_mellanoxNicsSpec s) (ms_mellanoxNicsStatus s) with
            | inl e => Ret (s, inl e)
            | inr d =>
                processSpec rest ({[pciPrefix]} ∪ processedNics) (nd_needReboot d)
                  (recordDecision (if_PciAddress ifaceSpec) d s)
            end
        end
  end.

(** Whether one of the ports satisfies a test on its stored configuration. *)
Fixpoint anyPort (ports : list (string * InterfaceExt)) (test : option Interface → bool) : hostM (HostError + bool) :=
  match ports with
  | [] => Ret (inr false)
  | (_, iface) :: rest =>
      pfStatus ⇐ LoadPfsStatus hv UnmarshalInterface (ie_PciAddress iface);
      if test pfStatus then Ret (inr true) else anyPort rest test
  end.

Definition nicConfiguredByOperator (nicPortsMap : gmap string InterfaceExt) : hostM (HostError + bool) :=
  anyPort (range _ nicPortsMap) (λ s, bool_decide (is_Some s)).

Definition nicHasExternallyManagedPFs (nicPortsMap : gmap string InterfaceExt) : hostM (HostError + bool) :=
  anyPort (range _ nicPortsMap) (λ s, from_option if_ExternallyManaged false s).

(** A NIC without a specification: the attributes that take its VFs away. *)
Definition clearNic (pciPrefix : string) (portsMap : gmap string InterfaceExt) : hostM (HostError + option MlxNic) :=
  let pciAddress := pciPrefix +:+ "0" in
  isConfigured ⇐ nicConfiguredByOperator portsMap;
  if negb isConfigured then Ret (inr None)
  else
    hasExternally ⇐ nicHasExternallyManagedPFs portsMap;
    if hasExternally : bool then Ret (inr None)
    else
      match GetVfDeviceID NicIDMap (from_option ie_DeviceID "" (portsMap !! pciAddress)) with
      | Ok id =>
          if String.eqb id "" then Ret (inr None)
          else
            '(_, fwNext) ⇐ GetMlxNicFwData pciAddress;
            Ret (inr (if (mn_TotalVfs fwNext >? 0) || mn_EnableSriov fwNext then Some (mkMlxNic false 0 "" "") else None))
      | _ => Ret (inl HPanic)
      end.

Fixpoint processStatus (entries : list (string * gmap string InterfaceExt)) (processedNics : gset string) (s : MlxState)
    : hostM (MlxState * (HostError + unit)) :=
  match entries with
  | [] => Ret (s, inr tt)
  | (pciPrefix, portsMap) :: rest =>
      if decide (pciPrefix ∈ processedNics) then processStatus rest processedNics s
      else
        r ← clearNic pciPrefix portsMap;
        match r with
        | inl e => Ret (s, inl e)
        | inr None => processStatus rest ({[pciPrefix]} ∪ processedNics) s
        | inr (Some attrs) => processStatus rest ({[pciPrefix]} ∪ processedNics) (addAttributes (pciPrefix +:+ "0") attrs s)
        end
  end.

(** The answers are needDrain and needReboot. *)
Definition OnNodeStateChange (s : MlxState) (new : SriovNetworkNodeState)
    : hostM (MlxState * (HostError + bool * bool)) :=
  match fillStatus (nst_Interfaces (ns_Status new)) ∅ with
  | inl e => Ret (mkMlxState [] ∅ ∅ ∅, inl e)
  | inr status =>
      match fillSpec (nss_Interfaces (ns_Spec new)) status ∅ with
      | inl e => Ret (mkMlxState [] ∅ status ∅, inl e)
      | inr spec =>
          let s0 := mkMlxState [] ∅ status spec in
          lockdown ← IsKernelLockdownMode hv;
          if lockdown : bool then
            Ret (s0, if bool_decide (0 < size spec)%nat then inl (HMsg "mellanox device detected when in lockdown mode")
                     else inr (false, false))
          else
            '(s1, r) ← processSpec (range _ spec) ∅ false s0;
            match r with
            | inl e => Ret (s1, inl e)
            | inr (processedNics, needReboot) =>
                '(s2, r2) ← processStatus (range _ status) processedNics s1;
                Ret (s2, match r2 with inl e => inl e | inr _ => inr (needReboot, needReboot) end)
            end
      end
  end.

Definition CheckStatusChanges (s : MlxState) (current : SriovNetworkNodeState) : HostError + bool := inr false.

Definition Apply (s : MlxState) : hostM (HostError + unit) :=
  lockdown ← IsKernelLockdownMode hv;
  if lockdown : bool then Ret (inr tt)
  else
    MlxConfigFW (@range) (ms_attributesToChange s) ;;!
    if firmwareReset then MlxResetFW hv (ms_pciAddressesToReset s) (ms_mellanoxNicsStatus s) else Ret (inr tt).
End plugin.
