(* ===== verification/MellanoxSpec.v ===== *)
(** * The Mellanox plugin converges -- and forgets reboots

    A model of the firmware behind mstconfig: for every NIC the settings in
    force and those of the next boot.  Theorems: after a cycle of the plugin the
    next boot has what the specification asks for, and then nothing is asked for
    any more; the answer about the reboot is that of the NIC visited last; a NIC
    managed by someone else can get its firmware changed. *)
From S2P Require Import Prelude GoLib Types Selector Effects HostSys HostKernel HostStore HostSriov HostMachine Mellanox.

(** ** The firmware *)

(** Settings in force and of the next boot, by NIC. *)
Abbreviation Firmware := (gmap string (MlxNic * MlxNic)).

Definition drop_prefix (p s : string) : string := String.substring (String.length p) (String.length s) s.

(** What mstconfig does with one setting. *)
Definition apply_setting (n : MlxNic) (s : string) : MlxNic :=
  if String.eqb s "SRIOV_EN=True" then set_EnableSriov true n
  else if String.eqb s "SRIOV_EN=False" then set_EnableSriov false n
  else if String.prefix "NUM_OF_VFS=" s then set_TotalVfs (fst (Atoi (drop_prefix "NUM_OF_VFS=" s))) n
  else if String.prefix "LINK_TYPE_P1=" s then set_LinkTypeP1 (drop_prefix "LINK_TYPE_P1=" s) n
  else if String.prefix "LINK_TYPE_P2=" s then set_LinkTypeP2 (drop_prefix "LINK_TYPE_P2=" s) n
  else n.

Definition configured (settings : list string) (cn : MlxNic * MlxNic) : MlxNic * MlxNic :=
  (cn.1, foldl apply_setting cn.2 settings).

Inductive MstCommand := MstQuery (a : string) | MstSet (a : string) (settings : list string) | MstReset (a : string) | MstOther.

Definition parse_command (command : string) (args : list string) : MstCommand :=
  if String.eqb command "cat" then MstOther
  else match args with
       | ["-e"; "-d"; a; "q"] => MstQuery a
       | "-d" :: a :: "-y" :: "set" :: settings => MstSet a settings
       | ["-d"; a; "--skip_driver"; "-l"; "3"; "-y"; "reset"] => MstReset a
       | _ => MstOther
       end.

(** Commands that fail change nothing; the kernel is not locked down. *)
Definition command_step (fw : Firmware) (command : string) (args : list string)
    (x : string * string * option Errno) (fw' : Firmware) : Prop :=
  match x with
  | (_, _, Some _) => fw' = fw
  | (out, _, None) =>
      match parse_command command args with
      | MstQuery a => fw' = fw ∧ ∃ cn, fw !! GetPciAddressPrefix a = Some cn ∧ fwData out = inr cn
      | MstSet a settings => fw' = alter (configured settings) (GetPciAddressPrefix a) fw
      | MstReset a => fw' = alter (λ cn, (cn.2, cn.2)) (GetPciAddressPrefix a) fw
      | MstOther => fw' = fw ∧ Contains out "[integrity]" = false ∧ Contains out "[confidentiality]" = false
      end
  end.

Definition mlx_step (fw : Firmware) (r : HostReq) : HostResp r → Firmware → Prop :=
  match r with
  | RunCommand command args => λ x fw', command_step fw command args x fw'
  | _ => λ _ fw', fw' = fw
  end.

Definition mlx_world : World HostResp := {| w_state := Firmware; w_step := mlx_step |}.

Abbreviation wpm := (wp mlx_world (λ _ _, True)).

Lemma wp_IsKernelLockdownMode hv (fw : Firmware) : wpm (IsKernelLockdownMode hv) (λ b fw', b = false ∧ fw' = fw) fw.
Proof.
  unfold IsKernelLockdownMode. apply wp_perform; [done|]. intros [[out err] [e|]] fw' H; apply wp_ret; cbn in *.
  - by subst.
  - destruct H as (-> & -> & ->). done.
Qed.

Lemma wp_MstConfigReadData a (fw : Firmware) :
  wpm (MstConfigReadData a)
    (λ r fw', fw' = fw ∧ ∀ out, r = inr out → ∃ cn, fw !! GetPciAddressPrefix a = Some cn ∧ fwData out = inr cn) fw.
Proof.
  unfold MstConfigReadData. apply wp_perform; [done|]. intros [[out err] [e|]] fw' H; apply wp_ret; cbn in *.
  - subst. done.
  - destruct H as (-> & H). split; [done|]. by intros ? [= <-].
Qed.

Lemma wp_GetMlxNicFwData a (fw : Firmware) :
  wpm (GetMlxNicFwData a) (λ r fw', fw' = fw ∧ ∀ cn, r = inr cn → fw !! GetPciAddressPrefix a = Some cn) fw.
Proof.
  unfold GetMlxNicFwData. apply wp_try. eapply wp_post; [apply wp_MstConfigReadData|]. cbn beta.
  intros [e|out] fw' [-> H]; [by split|]. destruct (H out eq_refl) as (cn & Hcn & Hd). apply wp_ret.
  split; [done|]. rewrite Hd. by intros ? [= <-].
Qed.

Lemma wp_GetMellanoxBlueFieldMode a (fw : Firmware) : wpm (GetMellanoxBlueFieldMode a) (λ _ fw', fw' = fw) fw.
Proof.
  unfold GetMellanoxBlueFieldMode. apply wp_try. unfold wrapping. apply wp_bind.
  eapply wp_post; [apply wp_MstConfigReadData|]. cbn beta. intros [e|out] fw' [-> _]; apply wp_ret; [done|by apply wp_ret].
Qed.

(** ** Applying the settings *)

Lemma alter_configured_nil p (fw : Firmware) : alter (configured []) p fw = fw.
Proof.
  apply map_eq. intros k. destruct (decide (p = k)) as [<-|Hk]; [|by rewrite lookup_alter_ne].
  rewrite lookup_alter_eq. by destruct (fw !! _) as [[]|].
Qed.

Lemma wp_configNic a attrs (fw : Firmware) :
  wpm (configNic a attrs)
    (λ r fw', r = inr tt → fw' = alter (configured (fwSettings attrs)) (GetPciAddressPrefix a) fw) fw.
Proof.
  unfold configNic. apply wp_bind. eapply wp_post; [apply wp_GetMellanoxBlueFieldMode|]. cbn beta. intros m fw' ->.
  assert (H : wpm (if bool_decide (fwSettings attrs = []) then Ret (inr tt)
      else runE "mstconfig" (["-d"; a; "-y"; "set"] ++ fwSettings attrs))
    (λ r fw', r = inr tt → fw' = alter (configured (fwSettings attrs)) (GetPciAddressPrefix a) fw) fw).
  { case_bool_decide as E.
    - apply wp_ret. intros _. rewrite E. by rewrite alter_configured_nil.
    - unfold runE. apply wp_perform; [done|]. intros [[out err] [e|]] fw' H; apply wp_ret; cbn in *; [done|].
      intros _. by destruct (fwSettings attrs). }
  destruct m as [[]|[]]; first [exact H | by apply wp_ret].
Qed.

Lemma wp_configNics l (fw : Firmware) :
  NoDup ((λ x : string * MlxNic, GetPciAddressPrefix x.1) <$> l) →
  wpm (each l (λ '(a, attrs), configNic a attrs))
    (λ r fw', r = inr tt →
       (∀ a attrs, (a, attrs) ∈ l →
          fw' !! GetPciAddressPrefix a = configured (fwSettings attrs) <$> fw !! GetPciAddressPrefix a) ∧
       (∀ p, p ∉ ((λ x, GetPciAddressPrefix x.1) <$> l) → fw' !! p = fw !! p)) fw.
Proof.
  revert fw. induction l as [|[a attrs] l IH]; intros fw Hnd; cbn [each].
  { apply wp_ret. intros _. split; [by intros ? ? ?%elem_of_nil|done]. }
  apply NoDup_cons in Hnd as [Hni Hnd]. apply wp_try.
  eapply wp_post; [apply wp_configNic|]. cbn beta. intros [e|[]] fw1 H1; [done|]. rewrite (H1 eq_refl).
  eapply wp_post; [by apply IH|]. cbn beta. intros r fw2 H2 Hr. destruct (H2 Hr) as [A B]. clear H2. split.
  - intros a' attrs' [[= -> ->]|Hin]%elem_of_cons.
    + rewrite B by done. by rewrite lookup_alter_eq.
    + rewrite (A _ _ Hin). rewrite lookup_alter_ne; [done|]. intros E. apply Hni. cbn. rewrite E.
      apply list_elem_of_fmap. by exists (a', attrs').
  - intros p Hp. cbn in Hp. apply not_elem_of_cons in Hp as [Hp1 Hp2]. rewrite B by done. by rewrite lookup_alter_ne.
Qed.

(** Resets leave the settings of the next boot. *)
Definition same_next (fw fw' : Firmware) : Prop := ∀ p, snd <$> fw' !! p = snd <$> fw !! p.

Lemma wp_SetSriovNumVfs_fw hv a n (fw : Firmware) : wpm (SetSriovNumVfs hv a n) (λ _ fw', fw' = fw) fw.
Proof.
  unfold SetSriovNumVfs, sysE.
  repeat first [apply wp_ret; done | apply wp_try | apply wp_bind | split; [done|intros ? ? ->]
               | progress cbn | case_match | intros ].
Qed.

#[export] Instance same_next_preorder : PreOrder same_next.
Proof. split; [by intros fw p|]. intros a b c H1 H2 p. by rewrite H2. Qed.

Lemma alter_same_next p (fw : Firmware) : same_next fw (alter (λ cn, (cn.2, cn.2)) p fw).
Proof.
  intros k. destruct (decide (p = k)) as [<-|Hk]; [|by rewrite lookup_alter_ne].
  rewrite lookup_alter_eq. by destruct (fw !! _).
Qed.

Lemma wp_resetNic hv st a (fw : Firmware) : wpm (resetNic hv st a) (λ _ fw', same_next fw fw') fw.
Proof.
  unfold resetNic. apply wp_try. eapply wp_post; [apply wp_SetSriovNumVfs_fw|]. cbn beta. intros [e|[]] fw1 ->; [done|].
  destruct (String.eqb a ""); [by apply wp_ret|]. apply wp_try.
  eapply (wp_post mlx_world _ _ (λ _ fw', fw' = fw)).
  { destruct (IsDualPort a st); [apply wp_SetSriovNumVfs_fw|by apply wp_ret]. }
  intros [e|[]] fw2 ->; [done|]. apply wp_perform; [done|]. intros [[out err] [e|]] fw3 H; apply wp_ret; cbn in H; subst fw3.
  - done.
  - apply alter_same_next.
Qed.

Lemma wp_MlxResetFW hv st l (fw : Firmware) : wpm (MlxResetFW hv l st) (λ _ fw', same_next fw fw') fw.
Proof.
  unfold MlxResetFW. revert fw. induction l as [|a l IH]; intros fw; cbn [each]; [by apply wp_ret|].
  apply wp_try. eapply wp_post; [apply wp_resetNic|]. cbn beta. intros [e|[]] fw1 H1; [done|].
  eapply wp_post; [apply IH|]. cbn beta. intros r fw2 H2. by transitivity fw1.
Qed.

(** ** The pure decisions *)

(** The VFs a NIC must offer: the larger number of its two ports. *)
Definition requested (iface : Interface) (spec : NicsSpec) (status : NicsStatus) : Z :=
  if IsDualPort (if_PciAddress iface) status
  then Z.max (if_NumVfs iface) (from_option if_NumVfs (if_NumVfs iface) (spec !! getOtherPortPCIAddress (if_PciAddress iface)))
  else if_NumVfs iface.

Lemma HandleTotalVfs_eq cur next attrs iface spec status :
  HandleTotalVfs cur next attrs iface (IsDualPort (if_PciAddress iface) status) spec =
  let t := requested iface spec status in
  if if_ExternallyManaged iface then
    if t >? mn_TotalVfs cur then (set_TotalVfs t attrs, (t, true, false)) else (attrs, (t, false, false))
  else if negb (mn_TotalVfs cur =? t) then (set_TotalVfs t attrs, (t, true, false))
  else if negb (mn_TotalVfs next =? t) then (set_TotalVfs t attrs, (t, false, true))
  else (attrs, (t, false, false)).
Proof.
  unfold HandleTotalVfs. cbn zeta. set (t := if IsDualPort _ _ then _ else _).
  assert (t = requested iface spec status) as ->; [|done]. unfold t, requested.
  destruct (IsDualPort _ _); [|done]. destruct (_ !! _) as [o|]; cbn; [|lia].
  rewrite Z.gtb_ltb. destruct (Z.ltb_spec (if_NumVfs iface) (if_NumVfs o)); lia.
Qed.

Lemma prefix_app p x : String.prefix p (p +:+ x) = true.
Proof. induction p as [|a p IH]; [by destruct x|]. change (String.prefix (String a p) (String a (p +:+ x)) = true). cbn. by destruct (ascii_dec a a). Qed.

Lemma substring_long x n : (String.length x ≤ n)%nat → String.substring 0 n x = x.
Proof. revert n. induction x as [|a x IH]; intros [|n] H; cbn in *; [done..|lia|]. f_equal. apply IH. lia. Qed.

Lemma substring_drop p x n : String.substring (String.length p) n (p +:+ x) = String.substring 0 n x.
Proof. induction p as [|a p IH]; [done|]. change (String.substring (String.length p) n (p +:+ x) = String.substring 0 n x). exact IH. Qed.

Lemma drop_prefix_app p x : drop_prefix p (p +:+ x) = x.
Proof.
  unfold drop_prefix. rewrite substring_drop. apply substring_long.
  induction p as [|a p IH]; [done|]. change (String.length x ≤ S (String.length (p +:+ x)))%nat. lia.
Qed.

Lemma apply_TotalVfs n v : 0 ≤ v ≤ max_int64 → apply_setting n (TotalVfs +:+ "=" +:+ Itoa v) = set_TotalVfs v n.
Proof.
  intros Hv. change (TotalVfs +:+ "=" +:+ Itoa v) with ("NUM_OF_VFS=" +:+ Itoa v). unfold apply_setting.
  change (String.eqb ("NUM_OF_VFS=" +:+ Itoa v) "SRIOV_EN=True") with false.
  change (String.eqb ("NUM_OF_VFS=" +:+ Itoa v) "SRIOV_EN=False") with false.
  by rewrite prefix_app, drop_prefix_app, Atoi_Itoa.
Qed.

Lemma apply_LinkTypeP1 n l : apply_setting n (LinkTypeP1 +:+ "=" +:+ l) = set_LinkTypeP1 l n.
Proof.
  change (LinkTypeP1 +:+ "=" +:+ l) with ("LINK_TYPE_P1=" +:+ l). unfold apply_setting.
  change (String.eqb ("LINK_TYPE_P1=" +:+ l) "SRIOV_EN=True") with false.
  change (String.eqb ("LINK_TYPE_P1=" +:+ l) "SRIOV_EN=False") with false.
  change (String.prefix "NUM_OF_VFS=" ("LINK_TYPE_P1=" +:+ l)) with false. by rewrite prefix_app, drop_prefix_app.
Qed.

Lemma apply_LinkTypeP2 n l : apply_setting n (LinkTypeP2 +:+ "=" +:+ l) = set_LinkTypeP2 l n.
Proof.
  change (LinkTypeP2 +:+ "=" +:+ l) with ("LINK_TYPE_P2=" +:+ l). unfold apply_setting.
  change (String.eqb ("LINK_TYPE_P2=" +:+ l) "SRIOV_EN=True") with false.
  change (String.eqb ("LINK_TYPE_P2=" +:+ l) "SRIOV_EN=False") with false.
  change (String.prefix "NUM_OF_VFS=" ("LINK_TYPE_P2=" +:+ l)) with false.
  change (String.prefix "LINK_TYPE_P1=" ("LINK_TYPE_P2=" +:+ l)) with false. by rewrite prefix_app, drop_prefix_app.
Qed.

(** The settings of a decision, applied to the settings of the next boot. *)
Lemma settings_applied attrs n :
  mn_TotalVfs attrs ≤ max_int64 →
  let n' := foldl apply_setting n (fwSettings attrs) in
  mn_TotalVfs n' = (if mn_TotalVfs attrs >? -1 then mn_TotalVfs attrs else mn_TotalVfs n) ∧
  mn_EnableSriov n' = (if mn_EnableSriov attrs then true else if mn_TotalVfs attrs =? 0 then false else mn_EnableSriov n).
Proof.
  intros Hr. cbn zeta. unfold fwSettings. rewrite !foldl_app.
  set (n1 := foldl apply_setting n _). set (n2 := foldl apply_setting n1 _). set (n3 := foldl apply_setting n2 _).
  assert (H1 : mn_TotalVfs n1 = mn_TotalVfs n ∧ mn_EnableSriov n1 =
    (if mn_EnableSriov attrs then true else if mn_TotalVfs attrs =? 0 then false else mn_EnableSriov n)).
  { unfold n1. destruct (mn_EnableSriov attrs); [done|]. by destruct (mn_TotalVfs attrs =? 0). }
  assert (H2 : mn_EnableSriov n2 = mn_EnableSriov n1 ∧
    mn_TotalVfs n2 = if mn_TotalVfs attrs >? -1 then mn_TotalVfs attrs else mn_TotalVfs n1).
  { unfold n2. rewrite Z.gtb_ltb. destruct (Z.ltb_spec (-1) (mn_TotalVfs attrs)); [|done].
    cbn [foldl]. by rewrite apply_TotalVfs by lia. }
  assert (H3 : mn_EnableSriov n3 = mn_EnableSriov n2 ∧ mn_TotalVfs n3 = mn_TotalVfs n2).
  { unfold n3. destruct (negb _); [|done]. cbn [foldl]. by rewrite apply_LinkTypeP1. }
  destruct (negb (String.eqb (mn_LinkTypeP2 attrs) "")); cbn [foldl]; rewrite ?apply_LinkTypeP2;
    cbn [set_LinkTypeP2 mn_TotalVfs mn_EnableSriov];
    rewrite (proj1 H3), (proj2 H3), (proj1 H2), (proj2 H2), (proj1 H1), (proj2 H1); done.
Qed.

(** The link types are the only thing a decision changes after the counts. *)
Lemma HandleLinkType_counts p fw attrs spec status attrs' b :
  HandleLinkType p fw attrs spec status = inr (attrs', b) →
  mn_TotalVfs attrs' = mn_TotalVfs attrs ∧ mn_EnableSriov attrs' = mn_EnableSriov attrs.
Proof.
  unfold HandleLinkType, portLinkType. intros H. repeat (case_match; simplify_eq; try done).
Qed.

(** What the next boot has after a decision was carried out. *)
Definition next_after (d : NicDecision) (next : MlxNic) : MlxNic :=
  if nd_needReboot d || nd_changeWithoutReboot d then foldl apply_setting next (fwSettings (nd_attrs d)) else next.

Lemma decideNic_reaches iface cur next spec status d :
  decideNic iface cur next spec status = inr d → if_ExternallyManaged iface = false →
  0 < requested iface spec status ≤ max_int64 →
  mn_TotalVfs (next_after d next) = requested iface spec status ∧ mn_EnableSriov (next_after d next) = true.
Proof.
  intros Hd He Hr. unfold decideNic in Hd. rewrite HandleTotalVfs_eq, He in Hd. cbn zeta in Hd.
  set (q := requested iface spec status) in *.
  assert (Hfin : ∀ a (r1 c1 r2 c2 : bool),
    match HandleLinkType (GetPciAddressPrefix (if_PciAddress iface)) cur a spec status with
    | inl e => inl e
    | inr (attrs3, l) => inr (mkNicDecision attrs3 (r1 || r2 || l) (c1 || c2))
    end = inr d →
    mn_TotalVfs a ≤ max_int64 → (mn_TotalVfs a = q ∨ mn_TotalVfs a = -1 ∧ mn_TotalVfs next = q) →
    (mn_EnableSriov a = true ∨ mn_EnableSriov next = true) →
    (r1 || r2 || (c1 || c2) = false → mn_TotalVfs next = q ∧ mn_EnableSriov next = true) →
    mn_TotalVfs (next_after d next) = q ∧ mn_EnableSriov (next_after d next) = true).
  { intros a r1 c1 r2 c2 E Ha Ht Hs Hn. destruct (HandleLinkType _ _ _ _ _) as [|[a3 l]] eqn:E3; [done|]. injection E as <-.
    apply HandleLinkType_counts in E3 as [T3 S3]. unfold next_after. cbn [nd_needReboot nd_changeWithoutReboot nd_attrs].
    destruct (settings_applied a3 next) as [A B]; [by rewrite T3|]. cbn zeta in A, B. rewrite T3 in A, B. rewrite S3 in B.
    destruct (r1 || r2 || l || (c1 || c2)) eqn:Er.
    - rewrite A, B, Z.gtb_ltb. destruct Ht as [->|[-> Ht]]; cbn.
      + destruct (Z.ltb_spec (-1) q); [|lia]. destruct (Z.eqb_spec q 0); [lia|]. split; [done|].
        by destruct Hs as [->| ->]; [|destruct (mn_EnableSriov a)].
      + split; [done|]. by destruct Hs as [->| ->]; [|destruct (mn_EnableSriov a)].
    - apply Hn. destruct r1, r2, l; cbn in Er |- *; done. }
  assert (Hen : ∀ a, HandleEnableSriov q cur next a =
    if negb (mn_EnableSriov cur) then (set_EnableSriov true a, (true, false))
    else if negb (mn_EnableSriov next) then (set_EnableSriov true a, (false, true)) else (a, (false, false))).
  { intros a. unfold HandleEnableSriov. rewrite Z.gtb_ltb.
    by destruct (Z.eqb_spec q 0), (Z.ltb_spec 0 q), (mn_EnableSriov cur), (mn_EnableSriov next); try lia. }
  destruct (Z.eqb_spec (mn_TotalVfs cur) q); cbn [negb] in Hd;
    [destruct (Z.eqb_spec (mn_TotalVfs next) q); cbn [negb] in Hd|]; rewrite Hen in Hd;
    (destruct (mn_EnableSriov cur) eqn:Ec; cbn [negb] in Hd; [destruct (mn_EnableSriov next) eqn:En; cbn [negb] in Hd|]);
    (eapply Hfin; [exact Hd|cbn; lia|cbn; auto|cbn; auto|cbn; auto; done]).
Qed.

(** Once the settings are in force nothing but a link type can be asked for. *)
Lemma decideNic_settled iface n spec status d :
  decideNic iface n n spec status = inr d → 0 < requested iface spec status →
  mn_TotalVfs n = requested iface spec status → mn_EnableSriov n = true →
  nd_changeWithoutReboot d = false ∧
  (nd_needReboot d = true → ∃ a a', HandleLinkType (GetPciAddressPrefix (if_PciAddress iface)) n a spec status = inr (a', true)).
Proof.
  intros Hd Hr Ht He. unfold decideNic in Hd. rewrite HandleTotalVfs_eq, Ht in Hd. cbn zeta in Hd.
  rewrite Z.gtb_ltb, Z.ltb_irrefl, Z.eqb_refl in Hd. cbn [negb] in Hd.
  set (q := requested iface spec status) in *.
  assert (Hen : ∀ a, HandleEnableSriov q n n a = (a, (false, false))).
  { intros a. unfold HandleEnableSriov. rewrite He, Z.gtb_ltb. by destruct (Z.eqb_spec q 0), (Z.ltb_spec 0 q); try lia. }
  destruct (if_ExternallyManaged iface); rewrite Hen in Hd;
    (destruct (HandleLinkType _ _ _ _ _) as [|[a3 l]] eqn:E3; [done|]); cbn in Hd;
    repeat case_match; simplify_eq; cbn; (split; [done|]); intros Hl; try discriminate; subst; eauto.
Qed.

(** ** The loops *)

Section loops.
Context (hv : HostVars) (UnmarshalInterface : string → string + Interface) (NicIDMap : list string).
Context (range : ∀ {A}, gmap string A → list (string * A)).
Context (range_perm : ∀ {A} (m : gmap string A), range _ m ≡ₚ map_to_list m).
Context (firmwareReset : bool).
Context (spec : NicsSpec) (status : NicsStatus).

(** The entries are stored under their addresses. *)
Definition spec_keyed : Prop := ∀ a iface, spec !! a = Some iface → if_PciAddress iface = a.

(** The NICs visited so far, with the interface they were visited for and what
    was decided. *)
Abbreviation Visited := (gmap string (Interface * NicDecision)).

Record visits (fw : Firmware) (v : Visited) (s : MlxState) : Prop := {
  visits_spec : ms_mellanoxNicsSpec s = spec;
  visits_status : ms_mellanoxNicsStatus s = status;
  visits_decided : ∀ p iface d, v !! p = Some (iface, d) →
    GetPciAddressPrefix (if_PciAddress iface) = p ∧ spec !! if_PciAddress iface = Some iface ∧
    (∃ cur next, fw !! p = Some (cur, next) ∧ decideNic iface cur next spec status = inr d) ∧
    ms_attributesToChange s !! if_PciAddress iface =
      (if nd_needReboot d || nd_changeWithoutReboot d then Some (nd_attrs d) else None);
  visits_only : ∀ a attrs, ms_attributesToChange s !! a = Some attrs →
    ∃ iface d, v !! GetPciAddressPrefix a = Some (iface, d) ∧ if_PciAddress iface = a;
}.

Lemma recordDecision_fields a d s :
  ms_mellanoxNicsSpec (recordDecision a d s) = ms_mellanoxNicsSpec s ∧
  ms_mellanoxNicsStatus (recordDecision a d s) = ms_mellanoxNicsStatus s ∧
  ms_attributesToChange (recordDecision a d s) =
    (if nd_needReboot d || nd_changeWithoutReboot d then <[a := nd_attrs d]> (ms_attributesToChange s)
     else ms_attributesToChange s) ∧
  ms_pciAddressesToReset (recordDecision a d s) =
    (if nd_needReboot d then ms_pciAddressesToReset s ++ [a] else ms_pciAddressesToReset s).
Proof. unfold recordDecision. by destruct (nd_needReboot d), (nd_changeWithoutReboot d). Qed.

Lemma visits_record fw v s iface cur next d :
  visits fw v s → spec !! if_PciAddress iface = Some iface →
  v !! GetPciAddressPrefix (if_PciAddress iface) = None →
  fw !! GetPciAddressPrefix (if_PciAddress iface) = Some (cur, next) → decideNic iface cur next spec status = inr d →
  visits fw (<[GetPciAddressPrefix (if_PciAddress iface) := (iface, d)]> v) (recordDecision (if_PciAddress iface) d s).
Proof.
  intros [V1 V2 V3 V4] Hi Hv Hf Hd. set (a := if_PciAddress iface) in *. set (p := GetPciAddressPrefix a) in *.
  destruct (recordDecision_fields a d s) as (R1 & R2 & R3 & _). constructor; [congruence..| |].
  - intros q i d'. intros [[<- [= <- <-]]|[Hne Hq]]%lookup_insert_Some.
    + split_and!; [done..|by eauto|]. rewrite R3. destruct (_ || _); [by rewrite lookup_insert_eq|].
      destruct (ms_attributesToChange s !! _) as [x|] eqn:E; [|done].
      apply V4 in E as (? & ? & E & _). unfold p, a in Hv. congruence.
    + destruct (V3 _ _ _ Hq) as (P1 & P2 & P3 & P4). split_and!; [done..|]. rewrite R3.
      destruct (nd_needReboot d || _); [|done]. rewrite lookup_insert_ne; [done|]. intros E. apply Hne.
      unfold p. by rewrite E.
  - intros b attrs. rewrite R3. intros H.
    destruct (decide (a = b)) as [<-|Hne].
    + exists iface, d. by rewrite lookup_insert_eq.
    + assert (Hb : ms_attributesToChange s !! b = Some attrs).
      { destruct (_ || _); [|done]. by rewrite lookup_insert_ne in H. }
      destruct (V4 _ _ Hb) as (i & d' & E1 & E2). exists i, d'. split; [|done].
      rewrite lookup_insert_ne; [done|]. intros E. rewrite E in Hv. congruence.
Qed.

Lemma wp_processSpec entries v reboot s (fw : Firmware) :
  visits fw v s → (∀ k iface, (k, iface) ∈ entries → spec !! k = Some iface ∧ if_PciAddress iface = k) →
  wpm (processSpec entries (dom v) reboot s)
    (λ r fw', fw' = fw ∧ ∀ processed reboot', r.2 = inr (processed, reboot') →
       ∃ v', processed = dom v' ∧ v ⊆ v' ∧ visits fw v' r.1 ∧
         (∀ k iface, (k, iface) ∈ entries → GetPciAddressPrefix k ∈ dom v')) fw.
Proof.
  revert v reboot s. induction entries as [|[k iface] entries IH]; intros v reboot s Hv He; cbn [processSpec].
  { apply wp_ret. split; [done|]. intros processed r' [= <- <-]. exists v. split_and!; [done..|].
    by intros ? ? ?%elem_of_nil. }
  destruct (He k iface) as [Hk1 Hk2]; [by left|].
  assert (He' : ∀ k iface, (k, iface) ∈ entries → spec !! k = Some iface ∧ if_PciAddress iface = k).
  { intros. apply He. by right. }
  case_decide as Hp.
  - eapply wp_post; [by apply IH|]. cbn beta. intros [s' r] fw' [-> H]. split; [done|]. intros processed r' Hr.
    destruct (H _ _ Hr) as (v' & -> & Hsub & Hvis & Hall). exists v'. split_and!; [done..|].
    intros k' i' [[= -> ->]|Hin]%elem_of_cons; [|by eapply Hall]. rewrite Hk2 in Hp.
    apply (subseteq_dom (D := gset string)) in Hsub. by apply Hsub.
  - apply wp_bind. eapply wp_post; [apply wp_GetMlxNicFwData|]. cbn beta. intros [e|[cur next]] fw' [-> Hf]; [by apply wp_ret|].
    specialize (Hf _ eq_refl). rewrite (visits_spec _ _ _ Hv), (visits_status _ _ _ Hv).
    destruct (decideNic iface cur next spec status) as [e|d] eqn:Ed; [by apply wp_ret|].
    apply not_elem_of_dom in Hp. rewrite <- Hk2 in Hk1.
    pose proof (visits_record _ _ _ _ _ _ _ Hv Hk1 Hp Hf Ed) as Hv'.
    rewrite <- (dom_insert_L v _ (iface, d)).
    eapply wp_post; [apply (IH _ _ _ Hv' He')|]. cbn beta. intros [s' r] fw' [-> H]. split; [done|]. intros processed r' Hr.
    destruct (H _ _ Hr) as (v' & -> & Hsub & Hvis & Hall). exists v'. split_and!; [done| |done|].
    + etransitivity; [|exact Hsub]. by apply insert_subseteq.
    + intros k' i' [[= -> ->]|Hin]%elem_of_cons; [|by eapply Hall].
      apply (subseteq_dom (D := gset string)) in Hsub. apply Hsub. rewrite dom_insert, Hk2. set_solver.
Qed.

Lemma wp_anyPort ports test (fw : Firmware) : wpm (anyPort hv UnmarshalInterface ports test) (λ _ fw', fw' = fw) fw.
Proof.
  induction ports as [|[k iface] ports IH]; cbn [anyPort]; [by apply wp_ret|].
  apply wp_try. unfold LoadPfsStatus. apply wp_perform; [done|]. intros x fw' ->. apply wp_ret.
  case_match; [done|]. destruct (test _); [by apply wp_ret|exact IH].
Qed.

Lemma wp_clearNic p ports (fw : Firmware) :
  wpm (clearNic hv UnmarshalInterface NicIDMap (@range) p ports) (λ _ fw', fw' = fw) fw.
Proof.
  unfold clearNic. apply wp_try. eapply wp_post; [apply wp_anyPort|]. cbn beta. intros [e|b] fw' ->; [done|].
  destruct b; cbn [negb]; [|by apply wp_ret].
  apply wp_try. eapply wp_post; [apply wp_anyPort|]. cbn beta. intros [e|b] fw' ->; [done|].
  destruct b; [by apply wp_ret|]. destruct (GetVfDeviceID _ _) as [id| |]; [|by apply wp_ret..].
  destruct (String.eqb id ""); [by apply wp_ret|]. apply wp_try. eapply wp_post; [apply wp_GetMlxNicFwData|].
  cbn beta. intros [e|[c n]] fw' [-> _]; [done|]. by apply wp_ret.
Qed.

Lemma GetPciAddressPrefix_port p c : GetPciAddressPrefix (p +:+ String c "") = p.
Proof.
  induction p as [|a p IH]; [done|]. change (GetPciAddressPrefix (String a (p +:+ String c "")) = String a p).
  cbn. rewrite IH. by destruct p.
Qed.

(** At most one entry per NIC, all of them of NICs seen. *)
Definition owned (processed : gset string) (m : gmap string MlxNic) : Prop :=
  (∀ a, is_Some (m !! a) → GetPciAddressPrefix a ∈ processed) ∧
  (∀ a b, is_Some (m !! a) → is_Some (m !! b) → GetPciAddressPrefix a = GetPciAddressPrefix b → a = b).

Lemma visits_owned fw v s : visits fw v s → owned (dom v) (ms_attributesToChange s).
Proof.
  intros V. split.
  - intros a [x H]. destruct (visits_only _ _ _ V _ _ H) as (i & d & Hv & _). by eapply elem_of_dom_2.
  - intros a b [x Ha] [y Hb] E. destruct (visits_only _ _ _ V _ _ Ha) as (i & d & Hv & <-).
    destruct (visits_only _ _ _ V _ _ Hb) as (i' & d' & Hv' & <-). rewrite E in Hv. congruence.
Qed.

Lemma owned_insert processed m a x :
  owned processed m → GetPciAddressPrefix a ∉ processed →
  owned ({[GetPciAddressPrefix a]} ∪ processed) (<[a := x]> m).
Proof.
  intros [O1 O2] Ha. split.
  - intros b [y Hb]. apply lookup_insert_Some in Hb as [[<- _]|[_ Hb]]; [set_solver|]. specialize (O1 b (mk_is_Some _ _ Hb)). set_solver.
  - intros b c [y Hb] [z Hc] E. apply lookup_insert_Some in Hb as [[<- _]|[N1 Hb]]; apply lookup_insert_Some in Hc as [[<- _]|[N2 Hc]].
    + done.
    + exfalso. apply Ha. rewrite E. by apply O1, (mk_is_Some _ _ Hc).
    + exfalso. apply Ha. rewrite <- E. by apply O1, (mk_is_Some _ _ Hb).
    + by apply O2; [eapply mk_is_Some..|].
Qed.

Lemma owned_weaken processed p m : owned processed m → owned ({[p]} ∪ processed) m.
Proof. intros [O1 O2]. split; [|done]. intros a Ha. specialize (O1 a Ha). set_solver. Qed.

Lemma wp_processStatus entries processed s (fw : Firmware) :
  owned processed (ms_attributesToChange s) →
  wpm (processStatus hv UnmarshalInterface NicIDMap (@range) entries processed s)
    (λ r fw', fw' = fw ∧ (r.2 = inr tt → ∃ processed', owned processed' (ms_attributesToChange r.1) ∧
       ms_mellanoxNicsSpec r.1 = ms_mellanoxNicsSpec s ∧
       ∀ a, GetPciAddressPrefix a ∈ processed → ms_attributesToChange r.1 !! a = ms_attributesToChange s !! a)) fw.
Proof.
  revert processed s. induction entries as [|[p ports] entries IH]; intros processed s Ho; cbn [processStatus].
  { apply wp_ret. split; [done|]. intros _. by exists processed. }
  case_decide as Hp; [by apply IH|].
  apply wp_bind. eapply wp_post; [apply wp_clearNic|]. cbn beta. intros [e|[attrs|]] fw' ->; [by apply wp_ret|..].
  - pose proof (GetPciAddressPrefix_port p "0") as Hpp. eapply wp_post; [apply IH|].
    { rewrite <- Hpp at 1. apply owned_insert; [done|]. by rewrite Hpp. }
    cbn beta. intros [s' r] fw' [-> H]. split; [done|]. intros Hr. destruct (H Hr) as (pr & H1 & H2 & H3).
    exists pr. split_and!; [done..|]. intros a Ha. rewrite H3 by set_solver. cbn. rewrite lookup_insert_ne; [done|].
    intros <-. by rewrite Hpp in Ha.
  - eapply wp_post; [apply IH; by apply owned_weaken|]. cbn beta. intros [s' r] fw' [-> H]. split; [done|].
    intros Hr. destruct (H Hr) as (pr & H1 & H2 & H3). exists pr. split_and!; [done..|].
    intros a Ha. apply H3. set_solver.
Qed.

(** The whole of OnNodeStateChange. *)
Lemma wp_loops s0 (fw : Firmware) :
  spec_keyed → s0 = mkMlxState [] ∅ status spec →
  wpm ('(s1, r) ← processSpec (range _ spec) ∅ false s0;
       match r with
       | inl e => Ret (s1, inl e)
       | inr (processedNics, needReboot) =>
           '(s2, r2) ← processStatus hv UnmarshalInterface NicIDMap (@range) (range _ status) processedNics s1;
           Ret (s2, match r2 with inl e => inl e | inr _ => inr (needReboot, needReboot) end)
       end)
    (λ r fw', fw' = fw ∧ ∀ x, r.2 = inr x → ∃ processed, owned processed (ms_attributesToChange r.1) ∧
       ms_mellanoxNicsSpec r.1 = spec ∧
       (∀ a, is_Some (spec !! a) →
          ∃ iface d cur next, spec !! if_PciAddress iface = Some iface ∧
            GetPciAddressPrefix (if_PciAddress iface) = GetPciAddressPrefix a ∧
            fw !! GetPciAddressPrefix a = Some (cur, next) ∧ decideNic iface cur next spec status = inr d ∧
            ms_attributesToChange r.1 !! if_PciAddress iface =
              (if nd_needReboot d || nd_changeWithoutReboot d then Some (nd_attrs d) else None) ∧
            ∀ b, is_Some (ms_attributesToChange r.1 !! b) → GetPciAddressPrefix b = GetPciAddressPrefix a →
              b = if_PciAddress iface)) fw.
Proof using range_perm.
  intros Hk ->. apply wp_bind. rewrite <- (dom_empty_L (M := gmap string) (A := Interface * NicDecision)).
  eapply wp_post; [apply wp_processSpec|].
  - constructor; [done..| |]; cbn [ms_attributesToChange]; [by intros p i d ?%lookup_empty_Some|by intros a x ?%lookup_empty_Some].
  - intros k iface Hin. rewrite (range_perm _ spec) in Hin. apply elem_of_map_to_list in Hin. split; [done|by apply Hk].
  - cbn beta. intros [s1 [e|[processed reboot]]] fw' [-> H]; [by apply wp_ret|].
    destruct (H _ _ eq_refl) as (v & -> & _ & V & Hall). cbn in V. apply wp_bind.
    eapply wp_post; [apply wp_processStatus; by eapply visits_owned|]. cbn beta.
    intros [s2 r2] fw' [-> H2]. apply wp_ret. split; [done|]. cbn. intros x Hx.
    destruct r2 as [|[]]; [done|]. destruct (H2 eq_refl) as (pr & O & Hs & Ha). cbn in *.
    exists pr. split; [done|]. split; [rewrite Hs; apply V|]. intros a [iface0 Hi].
    assert (Hav : GetPciAddressPrefix a ∈ dom v).
    { eapply (Hall a iface0). rewrite (range_perm _ spec). by apply elem_of_map_to_list. }
    apply elem_of_dom in Hav as [[iface d] Hv].
    destruct (visits_decided _ _ _ V _ _ _ Hv) as (P1 & P2 & (cur & next & P3 & P3') & P4).
    exists iface, d, cur, next. split_and!; [done..| |].
    + rewrite Ha; [exact P4|]. rewrite P1. by eapply elem_of_dom_2.
    + intros b [x' Hb] Eb. rewrite Ha in Hb by (rewrite Eb; by eapply elem_of_dom_2).
      destruct (visits_only _ _ _ V _ _ Hb) as (i' & d' & Hv' & <-). rewrite Eb in Hv'. congruence.
Qed.
End loops.

(** ** A cycle of the plugin *)

Section cycle.
Context (hv : HostVars) (UnmarshalInterface : string → string + Interface) (NicIDMap : list string).
Context (range : ∀ {A}, gmap string A → list (string * A)) (firmwareReset : bool).

(** The daemon asks for the changes and applies them. *)
Definition mlx_cycle (s : MlxState) (new : SriovNetworkNodeState) : hostM (HostError + MlxState * bool) :=
  '(s1, r) ← OnNodeStateChange hv UnmarshalInterface NicIDMap (@range) s new;
  match r with
  | inl e => Ret (inl e)
  | inr (_, needReboot) => Apply hv (@range) firmwareReset s1 ;;! Ret (inr (s1, needReboot))
  end.

Context (range_perm : ∀ {A} (m : gmap string A), range _ m ≡ₚ map_to_list m).

Lemma fillSpec_keyed l status m spec :
  fillSpec l status m = inr spec → spec_keyed m → spec_keyed spec.
Proof.
  revert m. induction l as [|iface l IH]; intros m; cbn [fillSpec]; [by intros [= <-]|].
  destruct (String.eqb _ _); [done|]. destruct (status !! _); [|by apply IH].
  intros H Hm. apply (IH _ H). intros a i [[<- <-]|[_ Ha]]%lookup_insert_Some; [done|by apply Hm].
Qed.

Definition is_port (a : string) : Prop := a = GetPciAddressPrefix a +:+ "0" ∨ a = GetPciAddressPrefix a +:+ "1".

Lemma last_char_app p c : last_char (p +:+ String c "") = String c "".
Proof.
  induction p as [|a p IH]; [done|]. change (last_char (String a (p +:+ String c "")) = String c "").
  cbn. rewrite IH. by destruct p.
Qed.

Lemma other_port a b :
  is_port a → is_port b → GetPciAddressPrefix a = GetPciAddressPrefix b → a ≠ b → getOtherPortPCIAddress a = b.
Proof.
  intros Ha Hb E Hne. unfold getOtherPortPCIAddress.
  destruct Ha as [Ha|Ha], Hb as [Hb|Hb]; try (exfalso; apply Hne; congruence).
  - rewrite Ha at 1. rewrite last_char_app. cbn. by rewrite E.
  - rewrite Ha at 1. rewrite last_char_app. cbn. by rewrite E.
Qed.

Lemma requested_same_nic spec status a b i j :
  spec_keyed spec → spec !! a = Some i → spec !! b = Some j → GetPciAddressPrefix a = GetPciAddressPrefix b →
  is_port a → is_port b →
  is_Some (default ∅ (status !! GetPciAddressPrefix a) !! a) → is_Some (default ∅ (status !! GetPciAddressPrefix b) !! b) →
  requested i spec status = requested j spec status.
Proof.
  intros Hk Hi Hj E Pa Pb Sa Sb. destruct (decide (a = b)) as [->|Hne]; [congruence|].
  pose proof (Hk _ _ Hi) as Ki. pose proof (Hk _ _ Hj) as Kj. unfold requested. rewrite Ki, Kj.
  assert (Hd : IsDualPort a status = true).
  { unfold IsDualPort. apply bool_decide_eq_true. rewrite E in Sa. rewrite E. set (m := default ∅ _) in *.
    destruct Sa as [x Hx], Sb as [y Hy]. rewrite <- (insert_delete_id _ _ _ Hx), map_size_insert_None by apply lookup_delete_eq.
    rewrite <- (insert_delete_id (delete a m) b y), map_size_insert_None; [lia|apply lookup_delete_eq|].
    by rewrite lookup_delete_ne. }
  assert (Hd' : IsDualPort b status = true) by (unfold IsDualPort in *; by rewrite <- E).
  rewrite Hd, Hd', (other_port a b), (other_port b a) by (done || congruence). rewrite Hi, Hj. cbn. lia.
Qed.

(** What is asked of a NIC, and the firmware that satisfies it. *)
Definition satisfied (iface : Interface) (spec : NicsSpec) (status : NicsStatus) (fw : Firmware) : Prop :=
  ∃ cur next, fw !! GetPciAddressPrefix (if_PciAddress iface) = Some (cur, next) ∧
    mn_TotalVfs next = requested iface spec status ∧ mn_EnableSriov next = true.

Lemma wp_Apply s1 (fw : Firmware) processed :
  owned processed (ms_attributesToChange s1) →
  wpm (Apply hv (@range) firmwareReset s1)
    (λ r fw', r = inr tt →
       (∀ a attrs, ms_attributesToChange s1 !! a = Some attrs →
          snd <$> fw' !! GetPciAddressPrefix a = snd <$> (configured (fwSettings attrs) <$> fw !! GetPciAddressPrefix a)) ∧
       (∀ p, (∀ a, is_Some (ms_attributesToChange s1 !! a) → GetPciAddressPrefix a ≠ p) → snd <$> fw' !! p = snd <$> fw !! p)) fw.
Proof using range_perm.
  intros [_ Hinj]. unfold Apply. apply wp_bind. eapply wp_post; [apply wp_IsKernelLockdownMode|]. cbn beta. intros b fw' [-> ->].
  apply wp_try. unfold MlxConfigFW. eapply wp_post; [apply wp_configNics|].
  { rewrite (range_perm _ (ms_attributesToChange s1)). apply NoDup_fmap_2_strong; [|apply NoDup_map_to_list].
    intros [a x] [b y] Ha%elem_of_map_to_list Hb%elem_of_map_to_list E. cbn in E.
    assert (a = b) as -> by (apply Hinj; eauto). congruence. }
  cbn beta. intros [e|[]] fw1 H1; [done|]. destruct (H1 eq_refl) as [A B]. clear H1.
  assert (Hp : wpm (if firmwareReset then MlxResetFW hv (ms_pciAddressesToReset s1) (ms_mellanoxNicsStatus s1) else Ret (inr tt))
    (λ _ fw', same_next fw1 fw') fw1) by (destruct firmwareReset; [apply wp_MlxResetFW|by apply wp_ret]).
  eapply wp_post; [exact Hp|]. cbn beta. intros r fw2 H2 Hr. split.
  - intros a attrs Ha. etransitivity; [apply H2|]. f_equal. apply A. rewrite (range_perm _ (ms_attributesToChange s1)).
    by apply elem_of_map_to_list.
  - intros p Hnone. etransitivity; [apply H2|]. f_equal. apply B. rewrite (range_perm _ (ms_attributesToChange s1)).
    intros ([a x] & -> & Ha%elem_of_map_to_list)%list_elem_of_fmap. by apply (Hnone a); eauto.
Qed.

Lemma wp_mlx_cycle s new status spec (fw : Firmware) :
  fillStatus (nst_Interfaces (ns_Status new)) ∅ = inr status →
  fillSpec (nss_Interfaces (ns_Spec new)) status ∅ = inr spec →
  (∀ a, is_Some (spec !! a) → is_port a ∧ is_Some (default ∅ (status !! GetPciAddressPrefix a) !! a)) →
  (∀ a iface, spec !! a = Some iface → if_ExternallyManaged iface = false ∧ 0 < if_NumVfs iface ≤ max_int64) →
  wpm (mlx_cycle s new)
    (λ r fw', ∀ x, r = inr x → ∀ a iface, spec !! a = Some iface → satisfied iface spec status fw') fw.
Proof using range_perm.
  intros Hst Hsp Hport Hvfs. unfold mlx_cycle. apply wp_bind. unfold OnNodeStateChange. rewrite Hst, Hsp.
  assert (Hk : spec_keyed spec) by (eapply fillSpec_keyed; [exact Hsp|by intros ? ? ?%lookup_empty_Some]).
  assert (Hreq : ∀ a iface, spec !! a = Some iface → 0 < requested iface spec status ≤ max_int64).
  { intros a iface Hi. destruct (Hvfs _ _ Hi) as [_ Hb]. unfold requested. destruct (IsDualPort _ _); [|done].
    destruct (spec !! getOtherPortPCIAddress _) as [o|] eqn:Eo; cbn; [|lia]. destruct (Hvfs _ _ Eo) as [_ Hb']. lia. }
  apply wp_bind. eapply wp_post; [apply wp_IsKernelLockdownMode|]. cbn beta. intros b fw' [-> ->].
  eapply wp_post; [apply (wp_loops hv UnmarshalInterface NicIDMap (@range) (@range_perm) spec status); [exact Hk|reflexivity]|].
  cbn beta. intros [s1 [e|[dr rb]]] fw' [-> H]; [by apply wp_ret|].
  destruct (H _ eq_refl) as (processed & Ho & _ & Hall). cbn in Ho, Hall. clear H.
  apply wp_try. eapply wp_post; [by eapply wp_Apply|]. cbn beta. intros [e|[]] fw2 H2; [done|].
  destruct (H2 eq_refl) as [A B]. apply wp_ret. intros _ _ a iface Hi.
  destruct (Hall a (mk_is_Some _ _ Hi)) as (i & d & cur & next & Hi' & Ep & Hf & Hd & Hat & Honly).
  destruct (Hvfs _ _ Hi') as [Hext _]. pose proof (Hreq _ _ Hi') as Hr. pose proof (Hk _ _ Hi) as Hki.
  destruct (decideNic_reaches _ _ _ _ _ _ Hd Hext Hr) as [T E].
  assert (Hnext : snd <$> fw2 !! GetPciAddressPrefix a = Some (next_after d next)).
  { unfold next_after. destruct (_ || _) eqn:Ec.
    - rewrite <- Ep. rewrite (A _ _ Hat), Ep, Hf. done.
    - rewrite B; [by rewrite Hf|]. intros b Hb Eb. rewrite (Honly b Hb Eb) in Hb. rewrite Hat in Hb. by destruct Hb. }
  apply fmap_Some in Hnext as ([c n] & Hfn & Hn). cbn in Hn. rewrite Hn in T, E. exists c, n. rewrite Hki. split; [done|].
  split; [|done]. rewrite T. apply (requested_same_nic spec status (if_PciAddress i) a); try done.
  - by apply Hport.
  - apply Hport. eauto.
  - apply Hport. eauto.
  - apply Hport. eauto.
Qed.
End cycle.

(** ** The answer about the reboot *)

Section answer.
Context (hv : HostVars) (UnmarshalInterface : string → string + Interface) (NicIDMap : list string).
Context (range : ∀ {A}, gmap string A → list (string * A)).
Context (spec : NicsSpec) (status : NicsStatus).

Lemma wp_processSpec_last l k iface processed reboot s (fw : Firmware) :
  ms_mellanoxNicsSpec s = spec → ms_mellanoxNicsStatus s = status →
  GetPciAddressPrefix (if_PciAddress iface) ∉ processed →
  Forall (λ x : string * Interface, GetPciAddressPrefix (if_PciAddress x.2) ≠ GetPciAddressPrefix (if_PciAddress iface)) l →
  wpm (processSpec (l ++ [(k, iface)]) processed reboot s)
    (λ r fw', fw' = fw ∧ ∀ processed' reboot', r.2 = inr (processed', reboot') →
       ∃ cur next d, fw !! GetPciAddressPrefix (if_PciAddress iface) = Some (cur, next) ∧
         decideNic iface cur next spec status = inr d ∧ reboot' = nd_needReboot d) fw.
Proof.
  revert processed reboot s. induction l as [|[k' i'] l IH]; intros processed reboot s H1 H2 Hp Hl; cbn [app processSpec].
  - case_decide; [done|]. apply wp_bind. eapply wp_post; [apply wp_GetMlxNicFwData|]. cbn beta.
    intros [e|[cur next]] fw' [-> Hf]; [by apply wp_ret|]. rewrite H1, H2.
    destruct (decideNic iface cur next spec status) as [e|d] eqn:Ed; [by apply wp_ret|].
    apply wp_ret. split; [done|]. intros p' r' [= <- <-]. exists cur, next, d. eauto.
  - apply Forall_cons in Hl as [Hne Hl]. case_decide; [by apply IH|].
    apply wp_bind. eapply wp_post; [apply wp_GetMlxNicFwData|]. cbn beta.
    intros [e|[cur next]] fw' [-> Hf]; [by apply wp_ret|].
    destruct (decideNic i' cur next _ _) as [e|d]; [by apply wp_ret|].
    destruct (recordDecision_fields (if_PciAddress i') d s) as (R1 & R2 & _).
    apply IH; [congruence..| |done]. cbn in Hne. set_solver.
Qed.

Lemma wp_OnNodeStateChange_last s new l k iface (fw : Firmware) :
  fillStatus (nst_Interfaces (ns_Status new)) ∅ = inr status →
  fillSpec (nss_Interfaces (ns_Spec new)) status ∅ = inr spec →
  range _ spec = l ++ [(k, iface)] →
  Forall (λ x : string * Interface, GetPciAddressPrefix (if_PciAddress x.2) ≠ GetPciAddressPrefix (if_PciAddress iface)) l →
  wpm (OnNodeStateChange hv UnmarshalInterface NicIDMap (@range) s new)
    (λ r fw', ∀ drain reboot, r.2 = inr (drain, reboot) →
       ∃ cur next d, fw !! GetPciAddressPrefix (if_PciAddress iface) = Some (cur, next) ∧
         decideNic iface cur next spec status = inr d ∧ reboot = nd_needReboot d ∧ drain = reboot) fw.
Proof.
  intros Hst Hsp Hr Hl. unfold OnNodeStateChange. rewrite Hst, Hsp. apply wp_bind.
  eapply wp_post; [apply wp_IsKernelLockdownMode|]. cbn beta. intros b fw' [-> ->]. rewrite Hr. apply wp_bind.
  eapply wp_post; [apply wp_processSpec_last; [reflexivity..|set_solver|done]|]. cbn beta.
  intros [s1 [e|[processed reboot]]] fw' [-> H]; [by apply wp_ret|]. destruct (H _ _ eq_refl) as (cur & next & d & A & B & C).
  apply wp_bind. eapply (wp_post mlx_world _ _ (λ _ _, True)).
  { by apply wp_top. }
  intros [s2 r2] fw' _. apply wp_ret. cbn. intros drain reboot' Hr2. destruct r2; [done|]. injection Hr2 as <- <-.
  exists cur, next, d. done.
Qed.
End answer.

(** ** A firmware to run against *)

#[export] Instance MlxNic_eq_dec : EqDecision MlxNic.
Proof. solve_decision. Defined.

(** The table mstconfig prints. *)
Definition mst_row (attr current next : string) : string := "*  " +:+ attr +:+ "  0  " +:+ current +:+ "  " +:+ next +:+ newline.
Definition mst_bool (b : bool) : string := if b then "True(1)" else "False(0)".
Definition mst_table (cn : MlxNic * MlxNic) : string :=
  "Configurations:    Default   Current   Next Boot" +:+ newline +:+
  mst_row TotalVfs (Itoa (mn_TotalVfs cn.1)) (Itoa (mn_TotalVfs cn.2)) +:+
  mst_row EnableSriov (mst_bool (mn_EnableSriov cn.1)) (mst_bool (mn_EnableSriov cn.2)) +:+
  mst_row LinkTypeP1 (mn_LinkTypeP1 cn.1) (mn_LinkTypeP1 cn.2) +:+
  mst_row LinkTypeP2 (mn_LinkTypeP2 cn.1) (mn_LinkTypeP2 cn.2).

Definition command_answer (fw : Firmware) (command : string) (args : list string) : string * string * option Errno * Firmware :=
  match parse_command command args with
  | MstQuery a =>
      match fw !! GetPciAddressPrefix a with
      | Some cn => if decide (fwData (mst_table cn) = inr cn) then (mst_table cn, "", None, fw) else ("", "", Some EINVAL, fw)
      | None => ("", "", Some ENODEV, fw)
      end
  | MstSet a settings => ("", "", None, alter (configured settings) (GetPciAddressPrefix a) fw)
  | MstReset a => ("", "", None, alter (λ cn, (cn.2, cn.2)) (GetPciAddressPrefix a) fw)
  | MstOther => ("[none] integrity confidentiality", "", None, fw)
  end.

Definition mlx_handle (fw : Firmware) (r : HostReq) : HostResp r * Firmware :=
  match r with
  | RunCommand command args => command_answer fw command args
  | r => (demo_answer r, fw)
  end.

Lemma mlx_handle_ok (fw : Firmware) r : mlx_step fw r (mlx_handle fw r).1 (mlx_handle fw r).2.
Proof.
  destruct r; try reflexivity. cbn. unfold command_answer, command_step.
  destruct (parse_command command args) as [a| | |]; cbn; [|done..].
  destruct (fw !! _) as [cn|] eqn:E; [|done]. case_decide as H; cbn; [|done]. split; [done|]. by exists cn.
Qed.

Definition nic (a link : string) (n : Z) : Interface := mkInterface a n 0 "" link "" [] false.
Definition nic_status (a : string) : InterfaceExt :=
  mkInterfaceExt "" "" "" a MellanoxVendorID "1017" "" 0 0 "" "ETH" "" "" false 0 [] [].

(** Two NICs: the first has no VFs yet, the second has its eight. *)
Definition two_nics : SriovNetworkNodeState :=
  mkNodeState (mkObjectMeta "n1" "ns" 1 ∅ ∅ []) (mkNodeStateSpec [nic "0000:01:00.0" "" 8; nic "0000:02:00.0" "" 8] (mkBridges []) (mkSystem "" ∅))
    (mkNodeStateStatus [nic_status "0000:01:00.0"; nic_status "0000:02:00.0"] (mkBridges []) (mkSystem "" ∅) "" "" []).

Definition off : MlxNic := mkMlxNic false 0 "ETH" "ETH".
Definition eight : MlxNic := mkMlxNic true 8 "ETH" "ETH".
Definition two_firmwares : Firmware := {[ "0000:01:00." := (off, off); "0000:02:00." := (eight, eight) ]}.

(** The order of the keys, or its reverse. *)
Definition by_key {A} (m : gmap string A) : list (string * A) := map_to_list m.
Definition by_key_rev {A} (m : gmap string A) : list (string * A) := rev (map_to_list m).

Definition no_state : MlxState := mkMlxState [] ∅ ∅ ∅.

(** ** Properties *)

(** C28: whatever the order in which Go iterates over its maps, when the plugin's
    decision and its application succeed (commands may fail, then nothing is
    claimed), the firmware of every NIC in the specification has for the next
    boot as many VFs as the larger request of its ports and SR-IOV enabled; and
    once these settings are in force the plugin asks for no change without a
    reboot, and for a reboot only for a link type.  The ports are known in the
    status, none is externally managed, each asks for at least one VF, and the
    kernel is not locked down (in a locked-down kernel nothing is applied: the
    plugin refuses a specification with Mellanox ports). *)
Theorem mellanox_firmware_converges (hv : HostVars) (UnmarshalInterface : string → string + Interface)
    (NicIDMap : list string) (range : ∀ A, gmap string A → list (string * A)) (firmwareReset : bool)
    (s : MlxState) (new : SriovNetworkNodeState) (status : NicsStatus) (spec : NicsSpec)
    (fw fw' : Firmware) tr s1 needReboot
    (Hrange : ∀ A (m : gmap string A), range A m ≡ₚ map_to_list m)
    (Hstatus : fillStatus (nst_Interfaces (ns_Status new)) ∅ = inr status)
    (Hspec : fillSpec (nss_Interfaces (ns_Spec new)) status ∅ = inr spec)
    (Hports : ∀ a, is_Some (spec !! a) → is_port a ∧ is_Some (default ∅ (status !! GetPciAddressPrefix a) !! a))
    (Hvfs : ∀ a iface, spec !! a = Some iface → if_ExternallyManaged iface = false ∧ 0 < if_NumVfs iface ≤ max_int64)
    (Hrun : exec mlx_world (mlx_cycle hv UnmarshalInterface NicIDMap range firmwareReset s new) fw tr
              (inr (s1, needReboot)) fw') :
  ∀ a iface, spec !! a = Some iface →
    ∃ cur next, fw' !! GetPciAddressPrefix a = Some (cur, next) ∧
      mn_TotalVfs next = requested iface spec status ∧ mn_EnableSriov next = true ∧
      ∀ d, decideNic iface next next spec status = inr d →
        nd_changeWithoutReboot d = false ∧
        (nd_needReboot d = true → ∃ x y, HandleLinkType (GetPciAddressPrefix a) next x spec status = inr (y, true)).
Proof.
  intros a iface Hi. assert (Hk : spec_keyed spec) by (eapply fillSpec_keyed; [exact Hspec|by intros ? ? ?%lookup_empty_Some]).
  destruct (wp_exec _ _ _ _ _ _ _ _ (wp_mlx_cycle hv UnmarshalInterface NicIDMap range firmwareReset Hrange s new status spec fw
    Hstatus Hspec Hports Hvfs) Hrun) as [H _].
  destruct (H _ eq_refl a iface Hi) as (cur & next & H1 & H2 & H3). pose proof (Hk _ _ Hi) as Ha. rewrite Ha in H1.
  exists cur, next. split_and!; [done..|]. intros d Hd. rewrite <- Ha.
  apply (decideNic_settled _ _ _ _ _ Hd); [|done..]. destruct (Hvfs _ _ Hi) as [_ Hb]. unfold requested.
  destruct (IsDualPort _ _); [|lia]. lia.
Qed.

Definition two_status : NicsStatus := match fillStatus (nst_Interfaces (ns_Status two_nics)) ∅ with inr m => m | inl _ => ∅ end.
Definition two_spec : NicsSpec := match fillSpec (nss_Interfaces (ns_Spec two_nics)) two_status ∅ with inr m => m | inl _ => ∅ end.

Lemma two_spec_entries a iface :
  two_spec !! a = Some iface → (a, iface) ∈ [("0000:01:00.0", nic "0000:01:00.0" "" 8); ("0000:02:00.0", nic "0000:02:00.0" "" 8)].
Proof.
  intros H. apply elem_of_map_to_list in H. replace (map_to_list two_spec) with
    [("0000:01:00.0", nic "0000:01:00.0" "" 8); ("0000:02:00.0", nic "0000:02:00.0" "" 8)] in H by (by vm_compute). done.
Qed.

Definition two_cycle : hostM (HostError + MlxState * bool) :=
  mlx_cycle (demo_vars false) (λ _, inl "") [] (@by_key) false no_state two_nics.

Lemma mellanox_firmware_converges_witness :
  ∃ cur next, (run mlx_handle two_cycle two_firmwares).2 !! "0000:01:00." = Some (cur, next) ∧
    mn_TotalVfs cur = 0 ∧ mn_TotalVfs next = 8 ∧ mn_EnableSriov next = true.
Proof.
  destruct (run mlx_handle two_cycle two_firmwares) as [r fw'] eqn:E.
  assert (Hr : ∃ s1 b, r = inr (s1, b)).
  { assert (H : match (run mlx_handle two_cycle two_firmwares).1 with inr _ => true | inl _ => false end = true)
      by (vm_compute; reflexivity).
    rewrite E in H. cbn in H. destruct r as [e|[s1 b]]; [discriminate H|eauto]. }
  destruct Hr as (s1 & b & ->).
  assert (Hrun : exec mlx_world two_cycle two_firmwares (trace mlx_handle two_cycle two_firmwares) (inr (s1, b)) fw').
  { apply (run_exec_eq mlx_world mlx_handle); [intros fw r; apply mlx_handle_ok|done]. }
  assert (Hports : ∀ a, is_Some (two_spec !! a) → is_port a ∧ is_Some (default ∅ (two_status !! GetPciAddressPrefix a) !! a)).
  { intros a [i Hi%two_spec_entries]. apply elem_of_cons in Hi as [[= -> ->]|[[= -> ->]|[]%elem_of_nil]%elem_of_cons];
      (split; [left; reflexivity|eexists; vm_compute; reflexivity]). }
  assert (Hvfs : ∀ a iface, two_spec !! a = Some iface → if_ExternallyManaged iface = false ∧ 0 < if_NumVfs iface ≤ max_int64).
  { intros a i Hi%two_spec_entries. apply elem_of_cons in Hi as [[= -> ->]|[[= -> ->]|[]%elem_of_nil]%elem_of_cons];
      (split; [done|unfold max_int64; cbn; lia]). }
  destruct (mellanox_firmware_converges (demo_vars false) (λ _, inl "") [] (@by_key) false no_state two_nics two_status two_spec
    two_firmwares fw' _ s1 b (λ A m, reflexivity _) eq_refl eq_refl Hports Hvfs Hrun "0000:01:00.0" (nic "0000:01:00.0" "" 8) eq_refl)
    as (cur & next & H1 & H2 & H3 & _).
  exists cur, next. split_and!; [exact H1| |by rewrite H2|done].
  assert (Hc : (λ x : MlxNic * MlxNic, mn_TotalVfs x.1) <$> (run mlx_handle two_cycle two_firmwares).2 !! "0000:01:00." = Some 0) by (vm_compute; reflexivity).
  rewrite E in Hc. cbn [snd] in Hc. change (GetPciAddressPrefix "0000:01:00.0") with "0000:01:00." in H1. rewrite H1 in Hc.
  by injection Hc as ->.
Defined.

(** C29: the answer about drain and reboot is the one for the NIC that the
    iteration over the specification visits last: what the NICs visited before
    need is overwritten.  So a node with two NICs, of which one needs a reboot
    and the other does not, is rebooted or not depending on Go's map order. *)
Theorem mellanox_reboot_answer_is_the_last (hv : HostVars) (UnmarshalInterface : string → string + Interface)
    (NicIDMap : list string) (range : ∀ A, gmap string A → list (string * A))
    (s : MlxState) (new : SriovNetworkNodeState) (status : NicsStatus) (spec : NicsSpec)
    (l : list (string * Interface)) (k : string) (iface : Interface)
    (fw fw' : Firmware) tr s1 needDrain needReboot
    (Hstatus : fillStatus (nst_Interfaces (ns_Status new)) ∅ = inr status)
    (Hspec : fillSpec (nss_Interfaces (ns_Spec new)) status ∅ = inr spec)
    (Hrange : range _ spec = l ++ [(k, iface)])
    (Hlast : Forall (λ x : string * Interface,
       GetPciAddressPrefix (if_PciAddress x.2) ≠ GetPciAddressPrefix (if_PciAddress iface)) l)
    (Hrun : exec mlx_world (OnNodeStateChange hv UnmarshalInterface NicIDMap range s new) fw tr
              (s1, inr (needDrain, needReboot)) fw') :
  ∃ cur next d, fw !! GetPciAddressPrefix (if_PciAddress iface) = Some (cur, next) ∧
    decideNic iface cur next spec status = inr d ∧ needReboot = nd_needReboot d ∧ needDrain = needReboot.
Proof.
  destruct (wp_exec _ _ _ _ _ _ _ _ (wp_OnNodeStateChange_last hv UnmarshalInterface NicIDMap range spec status s new l k iface fw
    Hstatus Hspec Hrange Hlast) Hrun) as [H _]. exact (H _ _ eq_refl).
Qed.

Definition two_ask (range : ∀ A, gmap string A → list (string * A)) : hostM (MlxState * (HostError + bool * bool)) :=
  OnNodeStateChange (demo_vars false) (λ _, inl "") [] range no_state two_nics.

(** The NIC without VFs needs the reboot in both runs. *)
Lemma mellanox_reboot_answer_is_the_last_witness :
  (run mlx_handle (two_ask (@by_key)) two_firmwares).1.2 = inr (false, false) ∧
  ms_pciAddressesToReset (run mlx_handle (two_ask (@by_key)) two_firmwares).1.1 = ["0000:01:00.0"] ∧
  (run mlx_handle (two_ask (@by_key_rev)) two_firmwares).1.2 = inr (true, true) ∧
  ∃ cur next d, two_firmwares !! "0000:02:00." = Some (cur, next) ∧
    decideNic (nic "0000:02:00.0" "" 8) cur next two_spec two_status = inr d ∧ nd_needReboot d = false.
Proof.
  split; [by vm_compute|]. split; [by vm_compute|]. split; [by vm_compute|].
  destruct (run mlx_handle (two_ask (@by_key)) two_firmwares) as [[s1 r] fw'] eqn:E.
  assert (Hr : r = inr (false, false)).
  { assert (H : (run mlx_handle (two_ask (@by_key)) two_firmwares).1.2 = inr (false, false)) by (by vm_compute).
    by rewrite E in H. }
  subst r.
  destruct (mellanox_reboot_answer_is_the_last (demo_vars false) (λ _, inl "") [] (@by_key) no_state two_nics two_status two_spec
    [("0000:01:00.0", nic "0000:01:00.0" "" 8)] "0000:02:00.0" (nic "0000:02:00.0" "" 8) two_firmwares fw'
    (trace mlx_handle (two_ask (@by_key)) two_firmwares) s1 false false eq_refl eq_refl)
    as (cur & next & d & H1 & H2 & H3 & _).
  - by vm_compute.
  - by apply Forall_singleton.
  - apply (run_exec_eq mlx_world mlx_handle); [intros fw r; apply mlx_handle_ok|exact E].
  - exists cur, next, d. split_and!; [exact H1|exact H2|done].
Defined.

(** a NIC whose policy says it is externally managed still gets its firmware
    changed and the node rebooted when SR-IOV is disabled in the firmware: the
    checks that protect such NICs look at the number of VFs and the link type
    only. *)
Theorem externally_managed_firmware_changed (iface : Interface) (cur next : MlxNic) (spec : NicsSpec) (status : NicsStatus)
    (s : MlxState)
    (Hext : if_ExternallyManaged iface = true) (Hen : mn_EnableSriov cur = false)
    (Hreq : 0 < requested iface spec status ≤ mn_TotalVfs cur)
    (Hlink : ∀ x, HandleLinkType (GetPciAddressPrefix (if_PciAddress iface)) cur x spec status = inr (x, false)) :
  ∃ d, decideNic iface cur next spec status = inr d ∧ nd_needReboot d = true ∧
    ms_attributesToChange (recordDecision (if_PciAddress iface) d s) !! if_PciAddress iface = Some (nd_attrs d) ∧
    fwSettings (nd_attrs d) = ["SRIOV_EN=True"].
Proof.
  exists (mkNicDecision (mkMlxNic true (-1) "" "") true false). split; [|split; [done|]].
  - unfold decideNic. rewrite HandleTotalVfs_eq, Hext. cbn zeta. set (q := requested iface spec status) in *.
    rewrite Z.gtb_ltb. destruct (Z.ltb_spec (mn_TotalVfs cur) q); [lia|].
    unfold HandleEnableSriov. rewrite Hen, Z.gtb_ltb. destruct (Z.eqb_spec q 0), (Z.ltb_spec 0 q); try lia. cbn [andb negb].
    by rewrite Hlink.
  - split; [|done]. cbn. by rewrite lookup_insert_eq.
Qed.

Definition managed_elsewhere : Interface := mkInterface "0000:01:00.0" 4 0 "" "" "" [] true.

Lemma externally_managed_firmware_changed_witness :
  ∃ d, decideNic managed_elsewhere (mkMlxNic false 8 "ETH" "ETH") (mkMlxNic false 8 "ETH" "ETH")
         {[ "0000:01:00.0" := managed_elsewhere ]} two_status = inr d ∧
    nd_needReboot d = true ∧ fwSettings (nd_attrs d) = ["SRIOV_EN=True"].
Proof.
  destruct (externally_managed_firmware_changed managed_elsewhere (mkMlxNic false 8 "ETH" "ETH") (mkMlxNic false 8 "ETH" "ETH")
    {[ "0000:01:00.0" := managed_elsewhere ]} two_status no_state) as (d & H1 & H2 & _ & H3); [done|done|by vm_compute| |eauto].
  intros x. by vm_compute.
Defined.
