(* ===== verification/Merge.v ===== *)
(** * Applying rendered objects (pkg/apply/merge.go, pkg/apply/apply.go)

    What the operator renders is merged with what is in the cluster, so that the
    fields the cluster owns survive the update. *)
From S2P Require Import Prelude GoLib Types Effects Kube Json.

(** ** Merging; [updated] is changed in place, here it is the result *)

Definition deploymentRevisionAnnotation := "deployment.kubernetes.io/revision".

Definition MergeDeploymentForUpdate (current updated : jobj) : result string jobj :=
  if uns_is "apps" "Deployment" updated then
    let updatedAnnotations := default ∅ (uns_Annotations updated) in
    Ok (uns_set_Annotations
          (match default ∅ (uns_Annotations current) !! deploymentRevisionAnnotation with
           | Some anno => <[deploymentRevisionAnnotation := anno]> updatedAnnotations
           | None => updatedAnnotations
           end) updated)
  else Ok updated.

Definition MergeServiceForUpdate (current updated : jobj) : result string jobj :=
  if uns_is "" "Service" updated then
    match NestedString current ["spec"; "clusterIP"] with
    | NError e => Err e
    | NMissing => Ok updated
    | NFound clusterIP =>
        match SetNestedField updated (JStr clusterIP) "spec" ["clusterIP"] with
        | None => Err "value cannot be set because spec is not a map"
        | Some updated' => Ok updated'
        end
    end
  else Ok updated.

(** One list of secrets. *)
Definition copySlice (field : string) (current updated : jobj) : result string jobj :=
  match NestedSlice current [field] with
  | NError e => Err e
  | NMissing => Ok updated
  | NFound l => Ok (setNestedField updated (JArr l) field [])
  end.

Definition MergeServiceAccountForUpdate (current updated : jobj) : result string jobj :=
  if uns_is "" "ServiceAccount" updated then
    match copySlice "secrets" current updated with
    | Ok updated1 => copySlice "imagePullSecrets" current updated1
    | r => r
    end
  else Ok updated.

(** An entry that is not a map panics. *)
Fixpoint findByName (objList : list json) (name : string) : result string (option jobj) :=
  match objList with
  | [] => Ok None
  | JObj m :: rest =>
      if match jget m "name" with Some (JStr n) => String.eqb n name | _ => false end then Ok (Some m)
      else findByName rest name
  | _ :: _ => Panic
  end.

(** What becomes of one webhook; [Ok None] is the [return nil] that leaves the
    object as it is. *)
Definition mergeWebhook (currentWebhooks : list json) (updatedWebhook : json) : result string (option json) :=
  match updatedWebhook with
  | JObj w =>
      let copy :=
        match NestedString w ["name"] with
        | NError e => Err e
        | NMissing => Err "webhook name not found"
        | NFound webhookName =>
            match findByName currentWebhooks webhookName with
            | Ok None => Ok (Some updatedWebhook)
            | Ok (Some currentWebhook) =>
                match NestedString currentWebhook ["clientConfig"; "caBundle"] with
                | NError e => Err e
                | NMissing => Ok (Some updatedWebhook)
                | NFound currentCABundle =>
                    Ok (Some (JObj (setNestedField w (JStr currentCABundle) "clientConfig" ["caBundle"])))
                end
            | Err e => Err e
            | Panic => Panic
            end
        end in
      match NestedString w ["clientConfig"; "caBundle"] with
      | NError _ => Ok None
      | NMissing => copy
      | NFound caBundle => if negb (String.eqb caBundle "") then Ok (Some updatedWebhook) else copy
      end
  | _ => Panic
  end.

Fixpoint mergeWebhooks (currentWebhooks updatedWebhooks : list json) : result string (option (list json)) :=
  match updatedWebhooks with
  | [] => Ok (Some [])
  | w :: rest =>
      match mergeWebhook currentWebhooks w with
      | Ok None => Ok None
      | Ok (Some w') =>
          match mergeWebhooks currentWebhooks rest with
          | Ok (Some rest') => Ok (Some (w' :: rest'))
          | Ok None => Ok None
          | Err e => Err e
          | Panic => Panic
          end
      | Err e => Err e
      | Panic => Panic
      end
  end.

Definition isWebhookConfiguration (updated : jobj) : bool :=
  uns_is "admissionregistration.k8s.io" "ValidatingWebhookConfiguration" updated ||
  uns_is "admissionregistration.k8s.io" "MutatingWebhookConfiguration" updated.

Definition MergeWebhookForUpdate (current updated : jobj) : result string jobj :=
  if negb (isWebhookConfiguration updated) then Ok updated
  else
    match NestedSlice updated ["webhooks"] with
    | NError e => Err e
    | NMissing => Ok updated
    | NFound updatedWebhooks =>
        match NestedSlice current ["webhooks"] with
        | NError e => Err e
        | NMissing => Ok updated
        | NFound currentWebhooks =>
            match mergeWebhooks currentWebhooks updatedWebhooks with
            | Ok (Some l) => Ok (setNestedField updated (JArr l) "webhooks" [])
            | Ok None => Ok updated
            | Err e => Err e
            | Panic => Panic
            end
        end
    end.

(** The updated entries win. *)
Definition mergeAnnotations (current updated : jobj) : jobj :=
  let m := default ∅ (uns_Annotations updated) ∪ default ∅ (uns_Annotations current) in
  if bool_decide (m = ∅) then updated else uns_set_Annotations m updated.

Definition mergeLabels (current updated : jobj) : jobj :=
  let m := default ∅ (uns_Labels updated) ∪ default ∅ (uns_Labels current) in
  if bool_decide (m = ∅) then updated else uns_set_Labels m updated.

Definition MergeMetadataForUpdate (current updated : jobj) : jobj :=
  uns_set_ResourceVersion (uns_ResourceVersion current) (mergeLabels current (mergeAnnotations current updated)).

Definition MergeObjectForUpdate (current updated : jobj) : result string jobj :=
  u1 ← MergeDeploymentForUpdate current updated;
  u2 ← MergeServiceForUpdate current u1;
  u3 ← MergeServiceAccountForUpdate current u2;
  u4 ← MergeWebhookForUpdate current u3;
  Ok (MergeMetadataForUpdate current u4).

Definition IsObjectSupported (obj : jobj) : result string unit :=
  if uns_is "" "ServiceAccount" obj then
    match NestedSlice obj ["secrets"] with
    | NError e => Err e
    | NMissing => Ok tt
    | NFound secrets =>
        if bool_decide (0 < length secrets)%nat then Err "cannot create ServiceAccount with secrets" else Ok tt
    end
  else Ok tt.

(** ** Applying *)

(** The errors, without the texts they are wrapped in. *)
Inductive ApplyError := AKube (e : KubeError) | AMsg (msg : string) | APanic.

#[export] Instance ApplyError_eq_dec : EqDecision ApplyError.
Proof. solve_decision. Defined.

Section apply.
Context {R : Type} {resp : R → Type}.
(** The client; an object is found by its kind, namespace and name. *)
Context (Get : jobj → prog resp (KubeError + jobj)).
Context (Create Update Delete : jobj → prog resp (option KubeError)).

Definition kube_error (r : option KubeError) : option ApplyError := option_map AKube r.

Definition DeleteObject (obj : jobj) : prog resp (option ApplyError) :=
  if String.eqb (uns_Name obj) "" then Ret (Some (AMsg "Object has no name"))
  else
    match IsObjectSupported obj with
    | Err e => Ret (Some (AMsg e))
    | Panic => Ret (Some APanic)
    | Ok _ =>
        r ← Get obj;
        match r with
        | inl e => Ret (if IsNotFound e then None else Some (AKube e))
        | inr existing => d ← Delete existing; Ret (kube_error d)
        end
    end.

Definition ApplyObject (obj : jobj) : prog resp (option ApplyError) :=
  if String.eqb (uns_Name obj) "" then Ret (Some (AMsg "Object has no name"))
  else
    match IsObjectSupported obj with
    | Err e => Ret (Some (AMsg e))
    | Panic => Ret (Some APanic)
    | Ok _ =>
        r ← Get obj;
        match r with
        | inl e => if IsNotFound e then c ← Create obj; Ret (kube_error c) else Ret (Some (AKube e))
        | inr existing =>
            match MergeObjectForUpdate existing obj with
            | Err e => Ret (Some (AMsg e))
            | Panic => Ret (Some APanic)
            | Ok obj' =>
                if jeq (JObj existing) (JObj obj') then Ret None
                else u ← Update obj'; Ret (kube_error u)
            end
        end
    end.
End apply.
