(* ===== verification/MergeSpec.v ===== *)
(** * What survives an update of a rendered object

    The merge keeps what the cluster owns -- annotations and labels others
    added, the revision of a Deployment, a Service's cluster IP, the secrets of a
    ServiceAccount, the CA bundles injected into webhooks -- and takes the rest
    from the rendered object. *)
From S2P Require Import Prelude GoLib Types Effects Kube Json Merge.

(** ** Nested members *)

Lemma set_member m f n g v :
  jget m f = Some (JObj n) → setNestedField m v f [g] = jset m f (JObj (jset n g v)).
Proof. intros H. unfold setNestedField. cbn. by rewrite H. Qed.

Lemma string_members_list (l : list (string * string)) :
  string_members (prod_map id JStr <$> l) = Some (list_to_map l).
Proof. induction l as [|[k s] l IH]; [done|]. cbn. by rewrite IH. Qed.

Lemma string_members_map (m : gmap string string) :
  string_members (prod_map id JStr <$> map_to_list m) = Some m.
Proof. by rewrite string_members_list, list_to_map_to_list. Qed.

(** The members of an object but for some. *)
Definition unchanged (ks : list string) (m m' : jobj) : Prop := ∀ k, k ∉ ks → jget m' k = jget m k.

Lemma unchanged_jset ks m k v : k ∈ ks → unchanged ks m (jset m k v).
Proof. intros Hk k' Hk'. apply jget_jset_other. by intros ->. Qed.

Lemma unchanged_trans ks m1 m2 m3 : unchanged ks m1 m2 → unchanged ks m2 m3 → unchanged ks m1 m3.
Proof. intros H1 H2 k Hk. by rewrite H2, H1. Qed.

Lemma unchanged_mono ks ks' m m' : (∀ k, k ∈ ks → k ∈ ks') → unchanged ks m m' → unchanged ks' m m'.
Proof. intros Hs H k Hk. apply H. by intros ?%Hs. Qed.

Lemma unchanged_NestedField ks m m' f rest :
  unchanged ks m m' → f ∉ ks → NestedField (JObj m') (f :: rest) = NestedField (JObj m) (f :: rest).
Proof. intros H Hf. cbn. by rewrite H. Qed.

Lemma unchanged_is ks m m' g k :
  unchanged ks m m' → "apiVersion" ∉ ks → "kind" ∉ ks → uns_is g k m' = uns_is g k m.
Proof.
  intros H H1 H2. unfold uns_is, uns_Group, uns_Kind, getNestedString, NestedString.
  by rewrite !(unchanged_NestedField ks m m') by done.
Qed.

(** The member [f] has the same members but for [g]; where there is no [f], one
    with [g] alone may appear. *)
Definition only_member (f g : string) (m m' : jobj) : Prop :=
  match jget m f with
  | Some (JObj n) => ∃ n', jget m' f = Some (JObj n') ∧ unchanged [g] n n'
  | Some v => jget m' f = Some v
  | None => jget m' f = None ∨ ∃ v, jget m' f = Some (JObj [(g, v)])
  end.

Lemma only_member_same f g m m' : jget m' f = jget m f → only_member f g m m'.
Proof. intros H. unfold only_member. rewrite H. destruct (jget m f) as [[| | | | |n]|]; try done; [by exists n|by left]. Qed.

Lemma only_member_set f g m v : only_member f g m (setNestedField m v f [g]).
Proof.
  unfold only_member, setNestedField. cbn. destruct (jget m f) as [[| | | | |n]|] eqn:E; cbn; try (by rewrite E).
  - rewrite jget_jset_same. eexists. split; [reflexivity|]. apply unchanged_jset. by left.
  - right. rewrite jget_jset_same. by eexists.
Qed.

(** ** The stages *)

Definition revised (current updated : jobj) : gmap string string :=
  let a := default ∅ (uns_Annotations updated) in
  if uns_is "apps" "Deployment" updated then
    match default ∅ (uns_Annotations current) !! deploymentRevisionAnnotation with
    | Some r => <[deploymentRevisionAnnotation := r]> a
    | None => a
    end
  else a.

Lemma uns_Annotations_md m md :
  jget m "metadata" = Some (JObj md) →
  uns_Annotations m = match jget md "annotations" with Some (JObj n) => string_members n | _ => None end.
Proof. intros H. unfold uns_Annotations, NestedStringMap. cbn. rewrite H. by destruct (jget md "annotations") as [[]|]. Qed.

Lemma uns_Labels_md m md :
  jget m "metadata" = Some (JObj md) →
  uns_Labels m = match jget md "labels" with Some (JObj n) => string_members n | _ => None end.
Proof. intros H. unfold uns_Labels, NestedStringMap. cbn. rewrite H. by destruct (jget md "labels") as [[]|]. Qed.

Lemma MergeDeployment_stage current updated md u :
  jget updated "metadata" = Some (JObj md) → MergeDeploymentForUpdate current updated = Ok u →
  unchanged ["metadata"] updated u ∧
  ∃ md1, jget u "metadata" = Some (JObj md1) ∧ unchanged ["annotations"] md md1 ∧
    default ∅ (uns_Annotations u) = revised current updated.
Proof.
  intros Hmd. unfold MergeDeploymentForUpdate, revised. destruct (uns_is _ _ _).
  2: { intros [= <-]. split; [done|]. by exists md. }
  set (A := match _ !! _ with Some _ => _ | None => _ end). intros [= <-].
  unfold uns_set_Annotations. rewrite (set_member _ _ _ _ _ Hmd).
  split; [apply unchanged_jset; by left|]. eexists. split; [apply jget_jset_same|].
  split; [apply unchanged_jset; by left|].
  erewrite uns_Annotations_md by apply jget_jset_same. rewrite jget_jset_same. cbn. by rewrite string_members_map.
Qed.

Lemma MergeService_stage current updated u :
  MergeServiceForUpdate current updated = Ok u →
  unchanged ["spec"] updated u ∧ (uns_is "" "Service" updated = false → u = updated) ∧
  (uns_is "" "Service" updated = true → ∀ ip, NestedString current ["spec"; "clusterIP"] = NFound ip →
     NestedString u ["spec"; "clusterIP"] = NFound ip) ∧
  (NestedString current ["spec"; "clusterIP"] = NMissing → u = updated) ∧ only_member "spec" "clusterIP" updated u.
Proof.
  assert (Hsame : only_member "spec" "clusterIP" updated updated) by (by apply only_member_same).
  unfold MergeServiceForUpdate. destruct (uns_is _ _ _); [|by intros [= <-]].
  destruct (NestedString current _) as [ip| |e] eqn:E; [|by intros [= <-]|done].
  destruct (SetNestedField updated _ _ _) as [u'|] eqn:Es; [|done]. intros [= <-].
  assert (Ho : only_member "spec" "clusterIP" updated u').
  { pose proof (only_member_set "spec" "clusterIP" updated (JStr ip)) as H. unfold setNestedField in H. by rewrite Es in H. }
  cbn in Es. destruct (jget updated "spec") as [[| | | | |n]|] eqn:Ej; try done; injection Es as <-;
    (split; [apply unchanged_jset; by left|]); (split; [done|]); (split; [|by split]); intros _ ip' [= <-]; unfold NestedString; cbn;
    rewrite jget_jset_same; cbn; by rewrite ?jget_jset_same.
Qed.

Lemma copySlice_stage field current updated u :
  copySlice field current updated = Ok u →
  unchanged [field] updated u ∧ (∀ l, NestedSlice current [field] = NFound l → jget u field = Some (JArr l)) ∧
  (NestedSlice current [field] = NMissing → jget u field = jget updated field).
Proof.
  unfold copySlice. destruct (NestedSlice current [field]) as [l| |e]; [|by intros [= <-]|done].
  intros [= <-]. unfold setNestedField. cbn. split; [apply unchanged_jset; by left|].
  split; [|done]. intros l' [= <-]. apply jget_jset_same.
Qed.

Lemma MergeServiceAccount_stage current updated u :
  MergeServiceAccountForUpdate current updated = Ok u →
  unchanged ["secrets"; "imagePullSecrets"] updated u ∧ (uns_is "" "ServiceAccount" updated = false → u = updated) ∧
  (uns_is "" "ServiceAccount" updated = true → ∀ f l, f ∈ ["secrets"; "imagePullSecrets"] →
     NestedSlice current [f] = NFound l → jget u f = Some (JArr l)) ∧
  (∀ f, f ∈ ["secrets"; "imagePullSecrets"] → NestedSlice current [f] = NMissing → jget u f = jget updated f).
Proof.
  unfold MergeServiceAccountForUpdate. destruct (uns_is _ _ _); [|by intros [= <-]].
  destruct (copySlice "secrets" current updated) as [u1| |] eqn:E1; try done. intros E2.
  apply copySlice_stage in E1 as (A1 & B1 & C1). apply copySlice_stage in E2 as (A2 & B2 & C2).
  split; [|split; [done|split]].
  - eapply unchanged_trans; [eapply unchanged_mono; [|exact A1]|eapply unchanged_mono; [|exact A2]]; set_solver.
  - intros _ f l Hf Hl. apply elem_of_cons in Hf as [->|Hf%list_elem_of_singleton].
    + rewrite A2 by set_solver. by apply B1.
    + subst f. by apply B2.
  - intros f Hf Hl. apply elem_of_cons in Hf as [->|Hf%list_elem_of_singleton].
    + rewrite A2 by set_solver. by apply C1.
    + subst f. rewrite C2 by done. apply A1. set_solver.
Qed.

(** ** Webhooks *)

Definition caBundlePath : list string := ["clientConfig"; "caBundle"].

(** A webhook with a bundle of its own is kept as it is; one without gets the
    bundle of the webhook of that name in the cluster, if there is one, and
    nothing else of it. *)
Definition webhook_kept (currentWebhooks : list json) (w w' : json) : Prop :=
  ∃ m m', w = JObj m ∧ w' = JObj m' ∧ unchanged ["clientConfig"] m m' ∧ only_member "clientConfig" "caBundle" m m' ∧
    (∀ name, NestedString m ["name"] = NFound name →
       (∀ cw c, findByName currentWebhooks name = Ok (Some cw) → NestedString cw caBundlePath ≠ NFound c) → m' = m) ∧
    (∀ c, c ≠ "" → NestedString m caBundlePath = NFound c → m' = m) ∧
    (∀ name cw c, (NestedString m caBundlePath = NMissing ∨ NestedString m caBundlePath = NFound "") →
       jget m "clientConfig" ≠ Some JNull →
       NestedString m ["name"] = NFound name → findByName currentWebhooks name = Ok (Some cw) →
       NestedString cw caBundlePath = NFound c → NestedString m' caBundlePath = NFound c).

Lemma caBundle_set m c :
  (NestedString m caBundlePath = NMissing ∨ NestedString m caBundlePath = NFound "") →
  let m' := setNestedField m (JStr c) "clientConfig" ["caBundle"] in
  unchanged ["clientConfig"] m m' ∧
  (jget m "clientConfig" ≠ Some JNull → NestedString m' caBundlePath = NFound c).
Proof.
  intros H. unfold setNestedField, NestedString, caBundlePath in *. cbn in *.
  destruct (jget m "clientConfig") as [[| | | | |n]|] eqn:E; cbn; try (by destruct H);
    try (split; [done|]; intros Hn; by contradict Hn);
    (split; [apply unchanged_jset; by left|]); intros _; rewrite jget_jset_same; cbn; by rewrite ?jget_jset_same.
Qed.

Lemma mergeWebhook_kept cur w w' : mergeWebhook cur w = Ok (Some w') → webhook_kept cur w w'.
Proof.
  unfold mergeWebhook. destruct w as [| | | | |m]; try done. change ["clientConfig"; "caBundle"] with caBundlePath.
  set (copy := match NestedString m ["name"] with NFound _ => _ | NMissing => _ | NError _ => _ end).
  assert (Hcopy : (NestedString m caBundlePath = NMissing ∨ NestedString m caBundlePath = NFound "") →
    copy = Ok (Some w') → webhook_kept cur (JObj m) w').
  { intros Hm. unfold copy. destruct (NestedString m ["name"]) as [name| |] eqn:En; try done.
    destruct (findByName cur name) as [[cw|]| |] eqn:Ef; try done.
    - destruct (NestedString cw _) as [c| |] eqn:Ec; try done; intros [= <-].
      + destruct (caBundle_set m c Hm) as [H1 H2]. exists m. eexists. split_and!; [done|done|exact H1|apply only_member_set| | |].
        * intros name' E1 Hno. assert (name' = name) as -> by congruence. by destruct (Hno cw c Ef).
        * intros c' Hc' E. destruct Hm as [Hm|Hm]; congruence.
        * intros name' cw' c' _ Hn E1 E2 E3. assert (c' = c) as -> by congruence. by apply H2.
      + exists m, m. split_and!; [done..|by apply only_member_same|done|done|]. intros name' cw' c' _ _ E1 E2 E3. exfalso.
        assert (cw' = cw) as -> by congruence. unfold caBundlePath in *. congruence.
    - intros [= <-]. exists m, m. split_and!; [done..|by apply only_member_same|done|done|]. intros. exfalso. congruence. }
  destruct (NestedString m caBundlePath) as [c| |] eqn:Eb; [|by apply Hcopy; left|done].
  destruct (String.eqb_spec c "") as [->|Hc]; cbn [negb]; [by apply Hcopy; right|].
  intros [= <-]. exists m, m. split_and!; [done..|by apply only_member_same|done|done|]. intros name cw c' [?|[= ?]]; congruence.
Qed.

Lemma mergeWebhooks_kept cur l l' : mergeWebhooks cur l = Ok (Some l') → Forall2 (webhook_kept cur) l l'.
Proof.
  revert l'. induction l as [|w l IH]; intros l'; cbn [mergeWebhooks]; [by intros [= <-]|].
  destruct (mergeWebhook cur w) as [[w'|]| |] eqn:E; try done.
  destruct (mergeWebhooks cur l) as [[r|]| |] eqn:E2; try done. intros [= <-].
  constructor; [by apply mergeWebhook_kept|by apply IH].
Qed.

(** The client configurations are maps with string bundles, if any. *)
Definition webhooks_ok (l : list json) : Prop :=
  Forall (λ w, ∀ m, w = JObj m → ∀ e, NestedString m caBundlePath ≠ NError e) l.

Lemma mergeWebhooks_total cur l : webhooks_ok l → mergeWebhooks cur l ≠ Ok None.
Proof.
  induction 1 as [|w l Hw Hl IH]; [done|]. cbn [mergeWebhooks].
  assert (Hn : mergeWebhook cur w ≠ Ok None).
  { unfold mergeWebhook. destruct w as [| | | | |m]; try done. specialize (Hw m eq_refl). unfold caBundlePath in Hw.
    destruct (NestedString m ["clientConfig"; "caBundle"]) as [c| |e] eqn:E; [|..|by destruct (Hw e)];
      [destruct (negb _); [done|]|]; repeat case_match; done. }
  destruct (mergeWebhook cur w) as [[w'|]| |]; try done. by destruct (mergeWebhooks cur l) as [[]| |].
Qed.

Lemma MergeWebhook_stage current updated u :
  MergeWebhookForUpdate current updated = Ok u →
  unchanged ["webhooks"] updated u ∧ (isWebhookConfiguration updated = false → u = updated) ∧
  (isWebhookConfiguration updated = true → ∀ l cur, NestedSlice updated ["webhooks"] = NFound l → webhooks_ok l →
     NestedSlice current ["webhooks"] = NFound cur →
     ∃ l', jget u "webhooks" = Some (JArr l') ∧ Forall2 (webhook_kept cur) l l') ∧
  (NestedSlice current ["webhooks"] = NMissing → u = updated).
Proof.
  unfold MergeWebhookForUpdate. destruct (isWebhookConfiguration updated); cbn [negb]; [|by intros [= <-]].
  destruct (NestedSlice updated _) as [l| |] eqn:El; try done; [|intros [= <-]; split_and!; [done|done|intros; congruence|done]].
  destruct (NestedSlice current _) as [cur| |] eqn:Ec; try done; [|intros [= <-]; split_and!; [done|done|intros; congruence|done]].
  destruct (mergeWebhooks cur l) as [[l'|]| |] eqn:Em; try done; intros [= <-].
  - unfold setNestedField. cbn. split; [apply unchanged_jset; by left|]. split; [done|]. split; [|done].
    intros _ l0 cur0 [= <-] _ [= <-]. exists l'. split; [apply jget_jset_same|by apply mergeWebhooks_kept].
  - split; [done|]. split; [done|]. split; [|done]. intros _ l0 cur0 [= <-] Hok [= <-]. by destruct (mergeWebhooks_total cur l Hok).
Qed.

(** ** The metadata *)

Lemma jdelete_same m k : jget (jdelete m k) k = None.
Proof.
  induction m as [|[k' v] m IH]; [done|]. cbn. destruct (String.eqb_spec k' k) as [->|Hne]; cbn; [exact IH|].
  by rewrite (proj2 (String.eqb_neq _ _) Hne).
Qed.

Lemma jdelete_other m k k' : k' ≠ k → jget (jdelete m k) k' = jget m k'.
Proof.
  intros Hne. induction m as [|[k0 v] m IH]; [done|]. cbn. destruct (String.eqb_spec k0 k) as [->|Hne']; cbn.
  - rewrite (proj2 (String.eqb_neq k k')) by congruence. exact IH.
  - destruct (String.eqb k0 k'); [done|exact IH].
Qed.

Lemma mergeAnnotations_stage current u md :
  jget u "metadata" = Some (JObj md) →
  ∃ md', jget (mergeAnnotations current u) "metadata" = Some (JObj md') ∧ unchanged ["metadata"] u (mergeAnnotations current u) ∧
    unchanged ["annotations"] md md' ∧
    default ∅ (uns_Annotations (mergeAnnotations current u)) = default ∅ (uns_Annotations u) ∪ default ∅ (uns_Annotations current).
Proof.
  intros Hmd. unfold mergeAnnotations. case_bool_decide as E.
  - exists md. split_and!; [done..|]. rewrite E. by apply map_positive_l in E.
  - unfold uns_set_Annotations. rewrite (set_member _ _ _ _ _ Hmd). eexists. split; [apply jget_jset_same|].
    split; [apply unchanged_jset; by left|]. split; [apply unchanged_jset; by left|].
    erewrite uns_Annotations_md by apply jget_jset_same. rewrite jget_jset_same. cbn. by rewrite string_members_map.
Qed.

Lemma mergeLabels_stage current u md :
  jget u "metadata" = Some (JObj md) →
  ∃ md', jget (mergeLabels current u) "metadata" = Some (JObj md') ∧ unchanged ["metadata"] u (mergeLabels current u) ∧
    unchanged ["labels"] md md' ∧
    default ∅ (uns_Labels (mergeLabels current u)) = default ∅ (uns_Labels u) ∪ default ∅ (uns_Labels current).
Proof.
  intros Hmd. unfold mergeLabels. case_bool_decide as E.
  - exists md. split_and!; [done..|]. rewrite E. by apply map_positive_l in E.
  - unfold uns_set_Labels. rewrite (set_member _ _ _ _ _ Hmd). eexists. split; [apply jget_jset_same|].
    split; [apply unchanged_jset; by left|]. split; [apply unchanged_jset; by left|].
    erewrite uns_Labels_md by apply jget_jset_same. rewrite jget_jset_same. cbn. by rewrite string_members_map.
Qed.

Lemma set_ResourceVersion_stage v u md :
  jget u "metadata" = Some (JObj md) →
  ∃ md', jget (uns_set_ResourceVersion v u) "metadata" = Some (JObj md') ∧
    unchanged ["metadata"] u (uns_set_ResourceVersion v u) ∧ unchanged ["resourceVersion"] md md' ∧
    jget md' "resourceVersion" = (if String.eqb v "" then None else Some (JStr v)).
Proof.
  intros Hmd. unfold uns_set_ResourceVersion, RemoveNestedField2. rewrite Hmd.
  destruct (String.eqb v ""); [|rewrite (set_member _ _ _ _ _ Hmd)];
    eexists; (split; [apply jget_jset_same|]); (split; [apply unchanged_jset; by left|]).
  - split; [|apply jdelete_same]. intros k Hk. apply jdelete_other. set_solver.
  - split; [apply unchanged_jset; by left|]. apply jget_jset_same.
Qed.

Lemma MergeMetadata_stage current u md :
  jget u "metadata" = Some (JObj md) →
  let u' := MergeMetadataForUpdate current u in
  ∃ md', jget u' "metadata" = Some (JObj md') ∧ unchanged ["metadata"] u u' ∧
    unchanged ["annotations"; "labels"; "resourceVersion"] md md' ∧
    default ∅ (uns_Annotations u') = default ∅ (uns_Annotations u) ∪ default ∅ (uns_Annotations current) ∧
    default ∅ (uns_Labels u') = default ∅ (uns_Labels u) ∪ default ∅ (uns_Labels current) ∧
    uns_ResourceVersion u' = uns_ResourceVersion current.
Proof.
  intros Hmd u'. destruct (mergeAnnotations_stage current u md Hmd) as (md1 & H1 & U1 & M1 & A1).
  destruct (mergeLabels_stage current _ md1 H1) as (md2 & H2 & U2 & M2 & L2).
  destruct (set_ResourceVersion_stage (uns_ResourceVersion current) _ md2 H2) as (md3 & H3 & U3 & M3 & V3).
  exists md3. split; [exact H3|]. split; [eapply unchanged_trans, unchanged_trans; [exact U1|exact U2|exact U3]|].
  split; [intros k Hk; rewrite M3, M2, M1 by set_solver; done|]. subst u'. unfold MergeMetadataForUpdate.
  split; [|split].
  - rewrite <- A1, (uns_Annotations_md _ _ H3), (uns_Annotations_md _ _ H1), M3, M2 by set_solver. done.
  - rewrite (uns_Labels_md _ _ Hmd) in *. rewrite (uns_Labels_md _ _ H1), M1 in L2 by set_solver.
    rewrite <- L2, (uns_Labels_md _ _ H3), (uns_Labels_md _ _ H2), M3 by set_solver. done.
  - unfold uns_ResourceVersion at 1, getNestedString, NestedString. cbn. rewrite H3. cbn. rewrite V3.
    by destruct (String.eqb_spec (uns_ResourceVersion current) "") as [->|].
Qed.

(** ** The whole merge *)

(** [u], the rendered object [updated] prepared for the update of [current]. *)
Record merged (current updated u : jobj) : Prop := {
  merged_annotations :
    default ∅ (uns_Annotations u) = revised current updated ∪ default ∅ (uns_Annotations current);
  merged_labels : default ∅ (uns_Labels u) = default ∅ (uns_Labels updated) ∪ default ∅ (uns_Labels current);
  merged_version : uns_ResourceVersion u = uns_ResourceVersion current;
  merged_metadata : ∀ md, jget updated "metadata" = Some (JObj md) →
    ∃ md', jget u "metadata" = Some (JObj md') ∧ unchanged ["annotations"; "labels"; "resourceVersion"] md md';
  merged_rest : unchanged ["metadata"; "spec"; "secrets"; "imagePullSecrets"; "webhooks"] updated u;
  merged_spec : uns_is "" "Service" updated = false → jget u "spec" = jget updated "spec";
  merged_clusterIP : uns_is "" "Service" updated = true → ∀ ip, NestedString current ["spec"; "clusterIP"] = NFound ip →
    NestedString u ["spec"; "clusterIP"] = NFound ip;
  merged_spec_rest : only_member "spec" "clusterIP" updated u;
  merged_no_clusterIP : NestedString current ["spec"; "clusterIP"] = NMissing → jget u "spec" = jget updated "spec";
  merged_secrets : uns_is "" "ServiceAccount" updated = true → ∀ f l, f ∈ ["secrets"; "imagePullSecrets"] →
    NestedSlice current [f] = NFound l → jget u f = Some (JArr l);
  merged_webhooks : isWebhookConfiguration updated = true → ∀ l cur, NestedSlice updated ["webhooks"] = NFound l →
    webhooks_ok l → NestedSlice current ["webhooks"] = NFound cur →
    ∃ l', jget u "webhooks" = Some (JArr l') ∧ Forall2 (webhook_kept cur) l l';
  merged_no_secrets : ∀ f, f ∈ ["secrets"; "imagePullSecrets"] →
    uns_is "" "ServiceAccount" updated = false ∨ NestedSlice current [f] = NMissing → jget u f = jget updated f;
  merged_no_webhooks : isWebhookConfiguration updated = false ∨ NestedSlice current ["webhooks"] = NMissing →
    jget u "webhooks" = jget updated "webhooks";
}.

Lemma MergeObject_merged current updated md u :
  jget updated "metadata" = Some (JObj md) → MergeObjectForUpdate current updated = Ok u → merged current updated u.
Proof.
  intros Hmd. unfold MergeObjectForUpdate. cbn [mbind result_bind].
  destruct (MergeDeploymentForUpdate current updated) as [u1| |] eqn:E1; try done. cbn.
  destruct (MergeServiceForUpdate current u1) as [u2| |] eqn:E2; try done. cbn.
  destruct (MergeServiceAccountForUpdate current u2) as [u3| |] eqn:E3; try done. cbn.
  destruct (MergeWebhookForUpdate current u3) as [u4| |] eqn:E4; try done. cbn. intros [= <-].
  destruct (MergeDeployment_stage _ _ _ _ Hmd E1) as (U1 & md1 & H1 & M1 & A1).
  apply MergeService_stage in E2 as (U2 & S2 & C2 & M2 & O2). apply MergeServiceAccount_stage in E3 as (U3 & S3 & C3 & M3).
  apply MergeWebhook_stage in E4 as (U4 & S4 & C4 & M4). destruct (MergeMetadata_stage current u4 md1) as
    (md' & H5 & U5 & M5 & A5 & L5 & V5); [by rewrite U4, U3, U2 by set_solver|].
  assert (H4 : jget u4 "metadata" = Some (JObj md1)) by (by rewrite U4, U3, U2 by set_solver).
  rewrite !(unchanged_is _ _ _ _ _ U1) in * by set_solver.
  rewrite !(unchanged_is _ _ _ _ _ U2), !(unchanged_is _ _ _ _ _ U1) in C3, S3 by set_solver.
  unfold isWebhookConfiguration in C4, S4 |- *.
  rewrite !(unchanged_is _ _ _ _ _ U3), !(unchanged_is _ _ _ _ _ U2), !(unchanged_is _ _ _ _ _ U1) in C4, S4 by set_solver.
  split.
  - by rewrite A5, <- A1, (uns_Annotations_md _ _ H4), (uns_Annotations_md _ _ H1).
  - rewrite L5, (uns_Labels_md _ _ H4), (uns_Labels_md _ _ Hmd), M1 by set_solver. done.
  - exact V5.
  - intros md0 Hmd0. assert (md0 = md) as -> by congruence. exists md'. split; [exact H5|].
    intros k Hk. rewrite M5, M1 by set_solver. done.
  - intros k Hk. rewrite U5, U4, U3, U2, U1 by set_solver. done.
  - intros Hs. rewrite U5, U4, U3, (S2 Hs), U1 by set_solver. done.
  - intros Hs ip Hip. specialize (C2 Hs ip Hip). rewrite <- C2. unfold NestedString.
    rewrite (unchanged_NestedField _ _ _ _ _ U5), (unchanged_NestedField _ _ _ _ _ U4),
      (unchanged_NestedField _ _ _ _ _ U3) by set_solver. done.
  - unfold only_member in *. rewrite U5, U4, U3 by set_solver. rewrite <- (U1 "spec") by set_solver. exact O2.
  - intros Hm. rewrite U5, U4, U3, (M2 Hm), U1 by set_solver. done.
  - intros Hs f l Hf Hl. rewrite U5, U4 by set_solver. by apply C3.
  - intros Hs l cur Hl Hok Hcur. rewrite U5 by set_solver. apply (C4 Hs l cur); [|done..].
    rewrite <- Hl. unfold NestedSlice. rewrite (unchanged_NestedField _ _ _ _ _ U3), (unchanged_NestedField _ _ _ _ _ U2),
      (unchanged_NestedField _ _ _ _ _ U1) by set_solver. done.
  - intros f Hf Hor. rewrite U5, U4 by set_solver.
    assert (Hu3 : jget u3 f = jget u2 f) by (destruct Hor as [Hs|Hm]; [by rewrite (S3 Hs)|by apply M3]).
    rewrite Hu3, U2, U1 by set_solver. done.
  - intros Hor. rewrite U5 by set_solver.
    assert (u4 = u3) as -> by (destruct Hor as [Hs|Hm]; [exact (S4 Hs)|exact (M4 Hm)]).
    rewrite U3, U2, U1 by set_solver. done.
Qed.

(** C19: what [MergeObjectForUpdate] sends to the API server.  The annotations and labels others put on the object in
    the cluster survive, the rendered ones win; a Deployment keeps the revision the cluster gave it; the resource
    version is the one read, so that a concurrent change is refused; a Service keeps its cluster IP, and the other
    members of its specification are the rendered ones; a ServiceAccount keeps its secrets; a webhook rendered without
    a CA bundle gets the bundle injected in the cluster and nothing else from there, and one with its own is sent as
    rendered; every other member is the rendered one. *)
Theorem MergeObjectForUpdate_spec current updated md u :
  jget updated "metadata" = Some (JObj md) → MergeObjectForUpdate current updated = Ok u → merged current updated u.
Proof. apply MergeObject_merged. Qed.

(** A webhook configuration rendered without bundles over one with an injected
    bundle, a label and a uid. *)
Definition meta_of (l : list (string * json)) : string * json := ("metadata", JObj (("name", JStr "injector") :: l)).
Definition hook (bundle : option string) : json :=
  JObj [("name", JStr "hook-1");
        ("clientConfig", JObj (("service", JStr "svc") :: match bundle with Some b => [("caBundle", JStr b)] | None => [] end))].
Definition injector_config (meta : list (string * json)) (bundle : option string) : jobj :=
  [("apiVersion", JStr "admissionregistration.k8s.io/v1"); ("kind", JStr "MutatingWebhookConfiguration"); meta_of meta;
   ("webhooks", JArr [hook bundle])].
Definition stored_injector : jobj :=
  injector_config [("uid", JStr "42"); ("resourceVersion", JStr "7"); ("labels", JObj [("team", JStr "net")])] (Some "CA").
Definition rendered_injector : jobj := injector_config [("labels", JObj [("app", JStr "sriov")])] None.
Definition merged_injector : jobj :=
  Eval vm_compute in match MergeObjectForUpdate stored_injector rendered_injector with Ok u => u | _ => [] end.

Lemma MergeObjectForUpdate_spec_witness :
  merged stored_injector rendered_injector merged_injector ∧
  uns_Labels merged_injector = Some {["app" := "sriov"; "team" := "net"]} ∧
  jget merged_injector "webhooks" = Some (JArr [hook (Some "CA")]) ∧ uns_ResourceVersion merged_injector = "7".
Proof.
  split; [|split; [|split]; vm_compute; reflexivity].
  eapply MergeObjectForUpdate_spec; [reflexivity|vm_compute; reflexivity].
Defined.

(** ** What an update is sent for *)

Lemma jget_elem m k v : jget m k = Some v → (k, v) ∈ m.
Proof.
  induction m as [|[k' v'] m IH]; [done|]. cbn. destruct (String.eqb_spec k' k) as [->|].
  - intros [= ->]. by left.
  - intros ?%IH. by right.
Qed.

(** Equal objects have the same members. *)
Lemma jeq_member m m' k v :
  jeq (JObj m) (JObj m') = true → jget m k = Some v → ∃ v', jget m' k = Some v' ∧ jeq v v' = true.
Proof.
  intros H He%jget_elem. cbn in H. apply andb_true_iff in H as [_ H].
  induction m as [|[k' x] m IH]; [set_solver|]. apply andb_true_iff in H as [H1 H2].
  apply elem_of_cons in He as [[= -> ->]|He]; [|exact (IH H2 He)].
  destruct (jget m' k') as [y|]; [|done]. by exists y.
Qed.

(** the comparison that should spare the API server an update never does.  The merge copies the annotations, the
    labels and the resource version into the rendered object, but none of the other fields the API server sets: as
    soon as the stored object has one (a uid, a creation timestamp, ...) that is not rendered, the two differ and
    [ApplyObject] sends an update, on every reconciliation. *)
Theorem ApplyObject_updates_every_time {R : Type} {resp : R → Type} (Create Update : jobj → prog resp (option KubeError))
    obj existing md mde u k v :
  uns_Name obj ≠ "" → IsObjectSupported obj = Ok tt → MergeObjectForUpdate existing obj = Ok u →
  jget obj "metadata" = Some (JObj md) → jget md k = None →
  jget existing "metadata" = Some (JObj mde) → jget mde k = Some v →
  k ∉ ["annotations"; "labels"; "resourceVersion"] →
  ApplyObject (λ _, Ret (inr existing)) Create Update obj = (r ← Update u; Ret (kube_error r)).
Proof.
  intros Hn Hs Hm Hmd Hk Hmde Hv Hne. unfold ApplyObject. rewrite (proj2 (String.eqb_neq _ _) Hn), Hs. cbn -[jeq].
  rewrite Hm. destruct (jeq (JObj existing) (JObj u)) eqn:E; [exfalso|reflexivity].
  destruct (jeq_member _ _ _ _ E Hmde) as (y & Hy & Ey).
  destruct (merged_metadata _ _ _ (MergeObject_merged _ _ _ _ Hmd Hm) md Hmd) as (md' & Hmd' & U).
  rewrite Hmd' in Hy. injection Hy as <-. destruct (jeq_member _ _ _ _ Ey Hv) as (y & Hy & _).
  rewrite U in Hy by done. congruence.
Qed.

Lemma ApplyObject_updates_every_time_witness :
  uns_is "admissionregistration.k8s.io" "MutatingWebhookConfiguration" rendered_injector = true ∧
  ApplyObject (resp := λ _ : jobj, option KubeError) (λ _, Ret (inr stored_injector)) perform perform rendered_injector =
    (r ← perform merged_injector; Ret (kube_error r)).
Proof.
  split; [vm_compute; reflexivity|].
  eapply (ApplyObject_updates_every_time perform perform rendered_injector stored_injector _ _ merged_injector "uid");
    [done|vm_compute; reflexivity|vm_compute; reflexivity|reflexivity|reflexivity|reflexivity|reflexivity|].
  set_solver.
Defined.
