(* ===== verification/Tls.v ===== *)
(** * TLS settings (pkg/utils/tls.go, pkg/consts/constants.go)

    The operator validates the cipher suites, the minimal version and the curves
    it is given and hands them to the webhook servers as flags, which the servers
    parse again.  The tables of the libraries are parameters. *)
From S2P Require Import Prelude GoLib.

(** consts.TLSConfig. *)
Record TLSConfig := mkTLSConfig {
  tls_CipherSuites : string;
  tls_MinTLSVersion : string;
  tls_CurvePreferences : string;
}.

(** The constants of crypto/tls. *)
Definition VersionTLS12 : Z := 771.

(** [curveNameToID]: the groups of openshift/api with their numbers in
    crypto/tls. *)
Definition curveNameToID (name : string) : option Z :=
  if String.eqb name "X25519" then Some 29
  else if String.eqb name "secp256r1" then Some 23
  else if String.eqb name "secp384r1" then Some 24
  else if String.eqb name "secp521r1" then Some 25
  else if String.eqb name "X25519MLKEM768" then Some 4588
  else None.

(** [strconv.ParseUint(s, 10, 16)] but for the error. *)
Definition ParseUint16 (s : string) : option Z :=
  match s with
  | EmptyString => None
  | _ =>
      match parse_uint 0 s with
      | inl v => if v <=? 65535 then Some v else None
      | inr _ => None
      end
  end.

(** ** Curves *)

Fixpoint parseCurveIDs (parts : list string) : string + list Z :=
  match parts with
  | [] => inr []
  | part :: rest =>
      let part := TrimSpace part in
      if String.eqb part "" then parseCurveIDs rest
      else
        match ParseUint16 part with
        | None => inl ("invalid numeric CurveID " +:+ quoted part)
        | Some val => match parseCurveIDs rest with inl e => inl e | inr l => inr (val :: l) end
        end
  end.

Definition ParseCurvePreferencesFromIDs (curveIDs : string) : string + list Z :=
  if String.eqb curveIDs "" then inr [] else parseCurveIDs (Split curveIDs ",").

Fixpoint curveIDs (names : list string) : string + list string :=
  match names with
  | [] => inr []
  | name :: rest =>
      let name := TrimSpace name in
      if String.eqb name "" then curveIDs rest
      else
        match curveNameToID name with
        | None => inl ("unrecognized TLS group/curve name " +:+ quoted name)
        | Some id => match curveIDs rest with inl e => inl e | inr ids => inr (Itoa id :: ids) end
        end
  end.

Definition CurveNamesToIDs (curveNames : string) : string + string :=
  if String.eqb curveNames "" then inr ""
  else match curveIDs (Split curveNames ",") with inl e => inl e | inr ids => inr (Join ids ",") end.

Section tls.
(** openshift/library-go: the number of an IANA name, the IANA name of an
    OpenSSL name, the number of a version.  component-base: the number of a
    version.  crypto/tls: the suites it calls insecure. *)
Context (CipherSuite : string → option Z) (OpenSSLToIANA : string → option string).
Context (TLSVersion flagTLSVersion : string → option Z).
Context (InsecureCipherSuites : list Z).

(** ** Cipher suites *)

(** The IANA name and the number of a suite given by either name. *)
Definition resolveCipher (cipher : string) : string + (string * Z) :=
  match CipherSuite cipher with
  | Some cipherID => inr (cipher, cipherID)
  | None =>
      match OpenSSLToIANA cipher with
      | None => inl ("failed to convert cipher suite " +:+ quoted cipher +:+ " to IANA format")
      | Some ianaName =>
          match CipherSuite ianaName with
          | None => inl ("failed to resolve cipher suite " +:+ quoted cipher +:+ " (converted to " +:+
                         quoted ianaName +:+ ") to ID")
          | Some cipherID => inr (ianaName, cipherID)
          end
      end
  end.

Fixpoint CipherSuitesToIANAAndSecure (cipherSuiteList : list string) : string + list string :=
  match cipherSuiteList with
  | [] => inr []
  | cipher :: rest =>
      match resolveCipher cipher with
      | inl e => inl e
      | inr (ianaName, cipherID) =>
          match CipherSuitesToIANAAndSecure rest with
          | inl e => inl e
          | inr result => inr (if bool_decide (cipherID ∈ InsecureCipherSuites) then result else ianaName :: result)
          end
      end
  end.

Fixpoint parseCiphers (cipherList : list string) : string + list Z :=
  match cipherList with
  | [] => inr []
  | cipher :: rest =>
      match CipherSuite (TrimSpace cipher) with
      | None => inl ("failed to parse cipher suite " +:+ quoted cipher)
      | Some id => match parseCiphers rest with inl e => inl e | inr l => inr (id :: l) end
      end
  end.

Definition ParseCipherSuites (cipherSuites : string) : string + list Z :=
  if String.eqb cipherSuites "" then inr [] else parseCiphers (Split cipherSuites ",").

Definition ParseTLSMinVersion (version : string) : string + Z :=
  if String.eqb version "" then inr VersionTLS12
  else match TLSVersion version with Some v => inr v | None => inl ("unknown tls version " +:+ quoted version) end.

(** ** The configuration *)

Definition buildCiphers (cipherSuites : string) : string + string :=
  if String.eqb cipherSuites "" then inr ""
  else
    match CipherSuitesToIANAAndSecure (Split cipherSuites ",") with
    | inl e => inl ("failed to convert cipher suites to IANA: " +:+ e)
    | inr secureCiphers => inr (Join secureCiphers ",")
    end.

Definition buildMinVersion (minVersion : string) : string + string :=
  if String.eqb minVersion "" then inr ""
  else
    match flagTLSVersion minVersion with
    | None => inl ("failed to parse TLS version " +:+ quoted minVersion)
    | Some tlsVersion =>
        if tlsVersion <? VersionTLS12
        then inl ("minimum TLS version must be VersionTLS12 or higher, got " +:+ quoted minVersion)
        else inr minVersion
    end.

Definition buildCurves (curvePreferences : string) : string + string :=
  if String.eqb curvePreferences "" then inr ""
  else
    match CurveNamesToIDs curvePreferences with
    | inl e => inl ("failed to parse curve preferences: " +:+ e)
    | inr numericIDs => inr (if String.eqb numericIDs "" then "" else curvePreferences)
    end.

Definition BuildTLSConfig (cipherSuites minVersion curvePreferences : string) : string + option TLSConfig :=
  if String.eqb cipherSuites "" && String.eqb minVersion "" && String.eqb curvePreferences "" then inr None
  else
    match buildCiphers cipherSuites with
    | inl e => inl e
    | inr c =>
        match buildMinVersion minVersion with
        | inl e => inl e
        | inr v =>
            match buildCurves curvePreferences with
            | inl e => inl e
            | inr p => inr (Some (mkTLSConfig c v p))
            end
        end
    end.
End tls.

(** ** Lemmas *)

(** What was joined is split again. *)
Lemma Split_Join l c :
  l ≠ [] → Forall (λ s, ContainsByte c s = false) l → Split (Join l (String c "")) c = l.
Proof.
  intros Hne Hl. induction Hl as [|s l Hs Hl IH]; [done|].
  destruct l as [|s' l]; [by apply Split_none|].
  change (Join (s :: s' :: l) (String c "")) with (s +:+ String c (Join (s' :: l) (String c ""))).
  rewrite Split_app by done. by rewrite IH.
Qed.

Lemma Join_nil l c : Forall (λ s, s ≠ "") l → Join l c = "" → l = [].
Proof.
  intros H. destruct H as [|s l Hs Hl]; [done|]. unfold Join. cbn.
  destruct s; [done|]. destruct l; cbn; discriminate.
Qed.

(** The numbers of the curves that are named. *)
Definition curve_numbers (names : list string) : list Z := omap (λ n, curveNameToID (TrimSpace n)) names.

(** What is printed for a known curve reads as its number. *)
Definition curve_text_ok (id : Z) (s : string) : bool :=
  String.eqb (TrimSpace s) s && negb (String.eqb s "") && negb (ContainsByte "," s) &&
  bool_decide (ParseUint16 s = Some id).

Lemma curveNameToID_ok name id : curveNameToID name = Some id → curve_text_ok id (Itoa id) = true.
Proof.
  unfold curveNameToID. intros H.
  repeat match type of H with (if ?b then _ else _) = _ => destruct b end; injection H as <- || done;
    vm_compute; reflexivity.
Qed.

Lemma curveIDs_ok names ids :
  curveIDs names = inr ids → Forall2 (λ id s, curve_text_ok id s = true) (curve_numbers names) ids.
Proof.
  revert ids. induction names as [|n names IH]; intros ids; cbn; [intros [= <-]; constructor|].
  destruct (String.eqb_spec (TrimSpace n) "") as [->|Hn]; [exact (IH ids)|].
  destruct (curveNameToID (TrimSpace n)) as [id|] eqn:E; [|done]. destruct (curveIDs names) as [|ids']; [done|].
  intros [= <-]. constructor; [by eapply curveNameToID_ok|by apply IH].
Qed.

Lemma parseCurveIDs_ok numbers ids :
  Forall2 (λ id s, curve_text_ok id s = true) numbers ids → parseCurveIDs ids = inr numbers.
Proof.
  induction 1 as [|id s numbers ids H Hl IH]; [done|]. unfold curve_text_ok in H.
  rewrite !andb_true_iff, !negb_true_iff, String.eqb_eq, bool_decide_eq_true in H. destruct H as [[[H1 H2] H3] H4].
  cbn. by rewrite H1, H2, H4, IH.
Qed.

(** The webhook server reads the curves the operator was given. *)
Lemma curves_roundtrip names ids :
  CurveNamesToIDs names = inr ids → ParseCurvePreferencesFromIDs ids = inr (curve_numbers (Split names ",")).
Proof.
  unfold CurveNamesToIDs. destruct (String.eqb_spec names "") as [->|_]; [by intros [= <-]|].
  destruct (curveIDs (Split names ",")) as [|l] eqn:E; [done|]. intros [= <-]. apply curveIDs_ok in E.
  assert (Hok : Forall (λ s, s ≠ "" ∧ ContainsByte "," s = false) l).
  { eapply Forall2_Forall_r; [exact E|]. apply Forall_true. intros id s H. unfold curve_text_ok in H.
    rewrite !andb_true_iff, !negb_true_iff, String.eqb_neq in H. tauto. }
  unfold ParseCurvePreferencesFromIDs. destruct (String.eqb_spec (Join l ",") "") as [Hj|Hj].
  - apply Join_nil in Hj as ->; [by inversion E|]. eapply Forall_impl; [exact Hok|]. by intros ? [? ?].
  - rewrite Split_Join; [by apply parseCurveIDs_ok|by intros ->|]. eapply Forall_impl; [exact Hok|]. by intros ? [? ?].
Qed.

(** The groups and their numbers, from the IANA registry. *)
Definition named_groups : list (string * Z) :=
  [("X25519", 29); ("secp256r1", 23); ("secp384r1", 24); ("secp521r1", 25); ("X25519MLKEM768", 4588)].

Definition not_blank (names : list string) : list string := List.filter (λ n, negb (String.eqb n "")) (TrimSpace <$> names).

Lemma curveNameToID_named name id : curveNameToID name = Some id → (name, id) ∈ named_groups.
Proof.
  unfold curveNameToID, named_groups. rewrite !elem_of_cons.
  repeat match goal with |- context [String.eqb name ?s] => destruct (String.eqb_spec name s) as [->|_] end; naive_solver.
Qed.

(** The curves that are accepted are all named. *)
Lemma curves_named names ids :
  curveIDs names = inr ids → Forall2 (λ n id, (n, id) ∈ named_groups) (not_blank names) (curve_numbers names).
Proof.
  unfold not_blank. revert ids. induction names as [|n names IH]; intros ids; cbn; [constructor|].
  destruct (String.eqb_spec (TrimSpace n) "") as [->|Hn]; [exact (IH ids)|].
  destruct (curveNameToID (TrimSpace n)) as [id|] eqn:E; [|done]. destruct (curveIDs names) as [|ids'] eqn:E'; [done|].
  intros _. constructor; [by apply curveNameToID_named|by eapply IH].
Qed.

Section settings.
Context (CipherSuite : string → option Z) (OpenSSLToIANA : string → option string).
Context (TLSVersion flagTLSVersion : string → option Z) (insecure : list Z).
(** The names of suites are plain, and the two libraries agree on the versions. *)
Context (plain_names : ∀ name id, CipherSuite name = Some id →
  TrimSpace name = name ∧ name ≠ "" ∧ ContainsByte "," name = false).
Context (same_versions : ∀ v, flagTLSVersion v = TLSVersion v).

(** A suite that is registered and not insecure. *)
Definition good_cipher (name : string) (id : Z) : Prop := CipherSuite name = Some id ∧ id ∉ insecure.

(** The number of a suite, given by its IANA name or, if there is none of this
    name, by its OpenSSL name. *)
Definition suite_number (name : string) (id : Z) : Prop :=
  CipherSuite name = Some id ∨
  CipherSuite name = None ∧ ∃ iana, OpenSSLToIANA name = Some iana ∧ CipherSuite iana = Some id.

(** The names of a list in the settings. *)
Definition listed (s : string) : list string := if String.eqb s "" then [] else Split s ",".

Lemma secure_ciphers l names :
  CipherSuitesToIANAAndSecure CipherSuite OpenSSLToIANA insecure l = inr names →
  ∃ ids, Forall2 suite_number l ids ∧ Forall2 good_cipher names (List.filter (λ id, bool_decide (id ∉ insecure)) ids).
Proof.
  revert names. induction l as [|c l IH]; intros names; cbn; [intros [= <-]; by exists []|].
  destruct (resolveCipher _ _ c) as [|[iana id]] eqn:E; [done|].
  destruct (CipherSuitesToIANAAndSecure _ _ _ l) as [|r]; [done|]. intros [= <-].
  destruct (IH r eq_refl) as (ids & Hn & Hids). exists (id :: ids). split.
  - constructor; [|done]. unfold resolveCipher in E. unfold suite_number. repeat case_match; naive_solver.
  - cbn. case_bool_decide; [by rewrite bool_decide_false by tauto|]. rewrite bool_decide_true by done.
    constructor; [|done]. split; [|done]. unfold resolveCipher in E. repeat case_match; naive_solver.
Qed.

Lemma parse_secure names ids :
  Forall2 good_cipher names ids → parseCiphers CipherSuite names = inr ids.
Proof using plain_names.
  induction 1 as [|n id names ids [H1 H2] Hl IH]; [done|]. cbn.
  by rewrite (proj1 (plain_names _ _ H1)), H1, IH.
Qed.

Lemma ciphers_accepted s c :
  buildCiphers CipherSuite OpenSSLToIANA insecure s = inr c →
  ∃ ids, Forall2 suite_number (listed s) ids ∧
    ParseCipherSuites CipherSuite c = inr (List.filter (λ id, bool_decide (id ∉ insecure)) ids).
Proof using plain_names.
  unfold buildCiphers, listed. destruct (String.eqb s ""); [intros [= <-]; by exists []|].
  destruct (CipherSuitesToIANAAndSecure _ _ _ _) as [|names] eqn:E; [done|]. intros [= <-].
  apply secure_ciphers in E as (ids & Hn & Hids). exists ids. split; [done|].
  assert (Hok : Forall (λ n, n ≠ "" ∧ ContainsByte "," n = false) names).
  { eapply Forall2_Forall_l; [exact Hids|]. apply Forall_true. intros id n [H _]. by apply plain_names in H as (_ & ? & ?). }
  unfold ParseCipherSuites. destruct (String.eqb_spec (Join names ",") "") as [Hj|Hj].
  - apply Join_nil in Hj as ->; [by inversion Hids|]. eapply Forall_impl; [exact Hok|]. by intros ? [? ?].
  - rewrite Split_Join; [by apply parse_secure|by intros ->|]. eapply Forall_impl; [exact Hok|]. by intros ? [? ?].
Qed.

Lemma version_accepted s v :
  buildMinVersion flagTLSVersion s = inr v →
  ∃ n, ParseTLSMinVersion TLSVersion v = inr n ∧ VersionTLS12 ≤ n ∧
    (if String.eqb s "" then n = VersionTLS12 else TLSVersion s = Some n).
Proof using same_versions.
  unfold buildMinVersion, ParseTLSMinVersion. destruct (String.eqb_spec s "") as [->|Hs]; [intros [= <-]; by exists VersionTLS12|].
  rewrite same_versions. destruct (TLSVersion s) as [n|] eqn:E; [|done]. destruct (Z.ltb_spec n VersionTLS12); [done|].
  intros [= <-]. rewrite (proj2 (String.eqb_neq _ _) Hs), E. by exists n.
Qed.

Lemma curves_accepted s p :
  buildCurves s = inr p →
  ∃ text ids, CurveNamesToIDs p = inr text ∧ ParseCurvePreferencesFromIDs text = inr ids ∧
    Forall2 (λ n id, (n, id) ∈ named_groups) (not_blank (Split s ",")) ids.
Proof.
  unfold buildCurves. destruct (String.eqb_spec s "") as [->|Hs].
  { intros [= <-]. exists "", []. split_and!; [done..|vm_compute; constructor]. }
  destruct (CurveNamesToIDs s) as [|ids] eqn:E; [done|]. intros [= <-]. pose proof (curves_roundtrip _ _ E) as Hr.
  assert (Hn : Forall2 (λ n id, (n, id) ∈ named_groups) (not_blank (Split s ",")) (curve_numbers (Split s ","))).
  { unfold CurveNamesToIDs in E. rewrite (proj2 (String.eqb_neq _ _) Hs) in E.
    destruct (curveIDs (Split s ",")) as [|l] eqn:El; [done|]. by eapply curves_named. }
  exists ids, (curve_numbers (Split s ",")). split_and!; [|done..]. by destruct (String.eqb_spec ids "") as [->|].
Qed.
End settings.

(** C38: what [BuildTLSConfig] accepts, the webhook servers read back as it was
    meant, if the libraries' suite names are plain and both know the same
    versions.  Every suite of the list has a number, under its IANA or its OpenSSL
    name, and the servers get exactly these numbers in this order without those
    crypto/tls calls insecure; they get the number of the version that was given,
    TLS 1.2 when none was, and it is TLS 1.2 at least; and they get, in this
    order, the registered numbers of the curves that were named. *)
Theorem tls_settings_roundtrip (CipherSuite : string → option Z) (OpenSSLToIANA : string → option string)
    (TLSVersion flagTLSVersion : string → option Z) (insecure : list Z) ciphers version curves (cfg : TLSConfig) :
  (∀ name id, CipherSuite name = Some id → TrimSpace name = name ∧ name ≠ "" ∧ ContainsByte "," name = false) →
  (∀ v, flagTLSVersion v = TLSVersion v) →
  BuildTLSConfig CipherSuite OpenSSLToIANA flagTLSVersion insecure ciphers version curves = inr (Some cfg) →
  (∃ ids, Forall2 (suite_number CipherSuite OpenSSLToIANA) (listed ciphers) ids ∧
     ParseCipherSuites CipherSuite (tls_CipherSuites cfg) = inr (List.filter (λ id, bool_decide (id ∉ insecure)) ids)) ∧
  (∃ n, ParseTLSMinVersion TLSVersion (tls_MinTLSVersion cfg) = inr n ∧ VersionTLS12 ≤ n ∧
     (if String.eqb version "" then n = VersionTLS12 else TLSVersion version = Some n)) ∧
  (∃ text ids, CurveNamesToIDs (tls_CurvePreferences cfg) = inr text ∧ ParseCurvePreferencesFromIDs text = inr ids ∧
     Forall2 (λ n id, (n, id) ∈ named_groups) (not_blank (Split curves ",")) ids).
Proof.
  intros Hp Hv. unfold BuildTLSConfig. destruct (_ && _); [done|].
  destruct (buildCiphers _ _ _ _) as [|c] eqn:Ec; [done|]. destruct (buildMinVersion _ _) as [|v] eqn:Ev; [done|].
  destruct (buildCurves curves) as [|p] eqn:Ep; [done|]. intros [= <-]. cbn.
  split; [by eapply ciphers_accepted|split; [by eapply version_accepted|by apply curves_accepted]].
Qed.

Definition sample_suite (name : string) : option Z :=
  if String.eqb name "TLS_AES_128_GCM_SHA256" then Some 4865
  else if String.eqb name "TLS_RSA_WITH_RC4_128_SHA" then Some 5 else None.
Definition sample_openssl (name : string) : option string :=
  if String.eqb name "RC4-SHA" then Some "TLS_RSA_WITH_RC4_128_SHA" else None.
Definition sample_version (v : string) : option Z :=
  if String.eqb v "VersionTLS11" then Some 770 else if String.eqb v "VersionTLS13" then Some 772 else None.

Lemma tls_settings_roundtrip_witness :
  let cfg := mkTLSConfig "TLS_AES_128_GCM_SHA256" "VersionTLS13" "X25519, secp256r1" in
  (∃ ids, Forall2 (suite_number sample_suite sample_openssl) ["TLS_AES_128_GCM_SHA256"; "RC4-SHA"] ids ∧
     ParseCipherSuites sample_suite (tls_CipherSuites cfg) = inr (List.filter (λ id, bool_decide (id ∉ [5])) ids)) ∧
  (∃ n, ParseTLSMinVersion sample_version (tls_MinTLSVersion cfg) = inr n ∧ VersionTLS12 ≤ n ∧ Some 772 = Some n) ∧
  (∃ text ids, CurveNamesToIDs (tls_CurvePreferences cfg) = inr text ∧ ParseCurvePreferencesFromIDs text = inr ids ∧
     Forall2 (λ n id, (n, id) ∈ named_groups) ["X25519"; "secp256r1"] ids).
Proof.
  refine (tls_settings_roundtrip sample_suite sample_openssl sample_version sample_version [5]
    "TLS_AES_128_GCM_SHA256,RC4-SHA" "VersionTLS13" "X25519, secp256r1" _ _ _ _).
  - intros name id. unfold sample_suite.
    destruct (String.eqb_spec name "TLS_AES_128_GCM_SHA256") as [->|_]; [done|].
    by destruct (String.eqb_spec name "TLS_RSA_WITH_RC4_128_SHA") as [->|_].
  - done.
  - vm_compute. reflexivity.
Defined.
