(* ===== verification/Orchestrator.v ===== *)
(** * Orchestrators (pkg/orchestrator)

    What the drain controller asks before it drains a node and after it is done.
    On OpenShift the machine config pool of the node is paused meanwhile, so that
    the machine config operator does not reboot nodes at the same time; an
    annotation on the pool remembers that it was this operator who paused it.
    Vanilla Kubernetes has nothing to do.  Here too: the TLS profile of the
    cluster. *)
From S2P Require Import Prelude GoLib Types Effects Kube DrainController Tls.

(** ** Objects *)

Record MachineConfigPool := mkMachineConfigPool {
  mcp_meta : ObjectMeta;
  mcp_Paused : bool;
  mcp_SpecConfiguration : string;
  mcp_StatusConfiguration : string;
  mcp_NodeSelector : option LabelSelector;
}.

Definition mcp_set_meta (m : ObjectMeta) (p : MachineConfigPool) : MachineConfigPool :=
  mkMachineConfigPool m (mcp_Paused p) (mcp_SpecConfiguration p) (mcp_StatusConfiguration p) (mcp_NodeSelector p).
Definition mcp_set_Paused (b : bool) (p : MachineConfigPool) : MachineConfigPool :=
  mkMachineConfigPool (mcp_meta p) b (mcp_SpecConfiguration p) (mcp_StatusConfiguration p) (mcp_NodeSelector p).

#[export] Program Instance MachineConfigPool_object : KubeObject MachineConfigPool :=
  {| obj_meta := mcp_meta; obj_set_meta := mcp_set_meta |}.
Next Obligation. done. Qed.
Next Obligation. by intros []. Qed.
Next Obligation. done. Qed.

(** An owner reference, as far as it is read. *)
Record OwnerReference := mkOwnerReference { or_Kind : string; or_Name : string }.

(** configv1.TLSProfileSpec and TLSSecurityProfile. *)
Record TLSProfileSpec := mkTLSProfileSpec {
  tp_Ciphers : list string;
  tp_Groups : list string;
  tp_MinTLSVersion : string;
}.

Record TLSSecurityProfile := mkTLSSecurityProfile {
  tsp_Type : string;
  tsp_Custom : option TLSProfileSpec;
}.

Record APIServer := mkAPIServer {
  as_TLSAdherence : string;
  as_TLSSecurityProfile : option TLSSecurityProfile;
}.

(** ** Requests *)

Inductive OrchReq :=
| GetMachineConfig (name : string)
| GetPool (name : string)
| PatchPool (original changed : MachineConfigPool)   (* annotations *)
| PausePool (pool : MachineConfigPool) (pause : bool) (* {"spec":{"paused":...}} *)
| ListPoolNodes (selector : option LabelSelector)
| GetInfrastructure
| GetAPIServer.

Definition OrchResp (r : OrchReq) : Type :=
  match r with
  | GetMachineConfig _ => KubeError + list OwnerReference
  | GetPool _ | PatchPool _ _ | PausePool _ _ => KubeError + MachineConfigPool
  | ListPoolNodes _ => KubeError + list Node
  | GetInfrastructure => KubeError + string
  | GetAPIServer => KubeError + APIServer
  end%type.

Abbreviation orchM := (prog OrchResp).

Inductive OrchError := OKube (e : KubeError) | OMsg (msg : string).

#[export] Instance OrchError_eq_dec : EqDecision OrchError.
Proof. solve_decision. Defined.

(** consts.ClusterType and consts.ClusterFlavor. *)
Definition ClusterTypeOpenshift := "openshift".
Definition ClusterTypeKubernetes := "kubernetes".
Definition ClusterFlavorDefault := "default".
Definition ClusterFlavorHypershift := "hypershift".

Definition MachineConfigPoolPausedAnnotation := "sriovnetwork.openshift.io/state".
Definition MachineConfigPoolPausedAnnotationIdle := "Idle".
Definition MachineConfigPoolPausedAnnotationPaused := "Paused".
Definition DesiredMachineConfigAnnotation := "machineconfiguration.openshift.io/desiredConfig".

(** A request whose error is handed on. *)
Definition ask {A} (p : orchM (KubeError + A)) : orchM (OrchError + A) :=
  r ← p; Ret (match r with inl e => inl (OKube e) | inr a => inr a end).

(** ** openshift.go *)

Section openshift.
Context (openshiftFlavor : string).
(** Whether [LabelSelectorAsSelector] accepts a selector. *)
Context (selector_valid : LabelSelector → bool).

Definition firstPool (owners : list OwnerReference) : option string :=
  or_Name <$> List.find (λ o, String.eqb (or_Kind o) "MachineConfigPool") owners.

Definition GetNodeMachinePoolName (node : Node) : orchM (OrchError + string) :=
  if String.eqb openshiftFlavor ClusterFlavorHypershift
  then Ret (inl (OMsg "hypershift doesn't have machineConfig"))
  else
    match GetAnnotations node !! DesiredMachineConfigAnnotation with
    | None => Ret (inl (OMsg ("failed to find the the annotation on node [" +:+ GetName node +:+ "]")))
    | Some desiredConfig =>
        owners ⇐ ask (perform (GetMachineConfig desiredConfig));
        Ret (match firstPool owners with
             | Some name => inr name
             | None => inl (OMsg "failed to find the MCP of the node")
             end)
    end.

(** The pool is what the server answered. *)
Definition ChangeMachineConfigPoolPause (mcp : MachineConfigPool) (pause : bool)
    : orchM (OrchError + MachineConfigPool) := ask (perform (PausePool mcp pause)).

Definition annotatePool (mcp : MachineConfigPool) (value : string) : orchM (OrchError + MachineConfigPool) :=
  '(mcp', err) ← AnnotateObject (resp := OrchResp) (λ original changed, perform (PatchPool original changed)) mcp
                   MachineConfigPoolPausedAnnotation value;
  Ret (match err with Some e => inl (OKube e) | None => inr mcp' end).

(** The rendered configuration the pool should have and the one it has. *)
Definition sameConfiguration (mcp : MachineConfigPool) : bool :=
  String.eqb (mcp_SpecConfiguration mcp) (mcp_StatusConfiguration mcp).

(** The critical section of [BeforeDrainNode], under [mcpPauseMutex]. *)
Definition pausePool (mcpName : string) : orchM (OrchError + bool) :=
  mcp ⇐ ask (perform (GetPool mcpName));
  if ObjectHasAnnotation mcp MachineConfigPoolPausedAnnotation MachineConfigPoolPausedAnnotationPaused then
    if negb (mcp_Paused mcp) then
      if String.eqb (mcp_SpecConfiguration mcp) "" || String.eqb (mcp_StatusConfiguration mcp) "" ||
         negb (sameConfiguration mcp)
      then Ret (inr false)
      else ChangeMachineConfigPoolPause mcp true;;! Ret (inr true)
    else Ret (inr true)
  else if negb (sameConfiguration mcp) then Ret (inr false)
  else
    mcp1 ⇐ annotatePool mcp MachineConfigPoolPausedAnnotationPaused;
    ChangeMachineConfigPoolPause mcp1 true;;!
    mcp2 ⇐ ask (perform (GetPool mcpName));
    if negb (sameConfiguration mcp2) then
      mcp3 ⇐ ChangeMachineConfigPoolPause mcp2 false;
      annotatePool mcp3 MachineConfigPoolPausedAnnotationIdle;;!
      Ret (inr false)
    else Ret (inr true).

Definition BeforeDrainNode (node : Node) : orchM (OrchError + bool) :=
  if String.eqb openshiftFlavor ClusterFlavorHypershift then Ret (inr true)
  else
    mcpName ⇐ GetNodeMachinePoolName node;
    pausePool mcpName.

(** The loop over the nodes of the pool. *)
Definition othersIdle (node : Node) (nodesInPool : list Node) : bool :=
  forallb (λ n, String.eqb (GetName n) (GetName node) ||
                negb (ObjectHasAnnotationKey n NodeDrainAnnotation &&
                      negb (String.eqb (default "" (GetAnnotations n !! NodeDrainAnnotation)) DrainIdle))) nodesInPool.

(** [LabelSelectorAsSelector] makes a nil selector one that matches nothing. *)
Definition poolNodes (selector : option LabelSelector) : orchM (OrchError + list Node) :=
  match selector with
  | None => ask (perform (ListPoolNodes None))
  | Some s => if selector_valid s then ask (perform (ListPoolNodes (Some s))) else Ret (inl (OMsg "invalid selector"))
  end.

(** The critical section of [AfterCompleteDrainNode]. *)
Definition unpausePool (node : Node) (mcpName : string) : orchM (OrchError + bool) :=
  mcp ⇐ ask (perform (GetPool mcpName));
  match GetAnnotations mcp !! MachineConfigPoolPausedAnnotation with
  | None => Ret (inr true)
  | Some value =>
      if String.eqb value MachineConfigPoolPausedAnnotationIdle then Ret (inr true)
      else
        nodesInPool ⇐ poolNodes (mcp_NodeSelector mcp);
        if negb (othersIdle node nodesInPool) then Ret (inr true)
        else
          mcp1 ⇐ ChangeMachineConfigPoolPause mcp false;
          annotatePool mcp1 MachineConfigPoolPausedAnnotationIdle;;!
          Ret (inr true)
  end.

Definition AfterCompleteDrainNode (node : Node) : orchM (OrchError + bool) :=
  if String.eqb openshiftFlavor ClusterFlavorHypershift then Ret (inr true)
  else
    mcpName ⇐ GetNodeMachinePoolName node;
    unpausePool node mcpName.
End openshift.

Definition isExternalControlPlaneCluster : orchM (OrchError + bool) :=
  topology ⇐ ask (perform GetInfrastructure);
  Ret (inr (String.eqb topology "External")).

(** ** tlsprofile.go *)

Section tlsprofile.
Context (CipherSuite : string → option Z) (OpenSSLToIANA : string → option string).
Context (flagTLSVersion : string → option Z) (InsecureCipherSuites : list Z).
(** The libraries: the profiles by name, and which policies bind. *)
Context (TLSProfiles : string → option TLSProfileSpec) (ShouldHonorClusterTLSProfile : string → bool).

Definition profileSpec (profile : TLSSecurityProfile) : option TLSProfileSpec :=
  if String.eqb (tsp_Type profile) "Custom" then tsp_Custom profile
  else if bool_decide (tsp_Type profile ∈ ["Old"; "Intermediate"; "Modern"]) then TLSProfiles (tsp_Type profile)
  else None.

Definition GetTLSConfig : orchM (OrchError + option TLSConfig) :=
  apiServer ⇐ ask (perform GetAPIServer);
  if negb (ShouldHonorClusterTLSProfile (as_TLSAdherence apiServer)) then Ret (inr None)
  else
    match as_TLSSecurityProfile apiServer with
    | None => Ret (inr None)
    | Some profile =>
        match profileSpec profile with
        | None => Ret (inr None)
        | Some spec =>
            Ret (match BuildTLSConfig CipherSuite OpenSSLToIANA flagTLSVersion InsecureCipherSuites
                         (Join (tp_Ciphers spec) ",") (tp_MinTLSVersion spec) (Join (tp_Groups spec) ",") with
                 | inl e => inl (OMsg e)
                 | inr c => inr c
                 end)
        end
    end.
End tlsprofile.

(** ** orchestrator.go *)

(** orchestrator.Interface, in the request type of its user. *)
Record Orchestrator {R : Type} (resp : R → Type) := mkOrchestrator {
  orch_Name : string;
  orch_ClusterType : string;
  orch_Flavor : string;
  orch_BeforeDrainNode : Node → prog resp (OrchError + bool);
  orch_AfterCompleteDrainNode : Node → prog resp (OrchError + bool);
  orch_GetTLSConfig : prog resp (OrchError + option TLSConfig);
}.
Arguments mkOrchestrator {R resp}.
Arguments orch_Name {R resp} o.
Arguments orch_ClusterType {R resp} o.
Arguments orch_Flavor {R resp} o.
Arguments orch_BeforeDrainNode {R resp} o.
Arguments orch_AfterCompleteDrainNode {R resp} o.
Arguments orch_GetTLSConfig {R resp} o.

(** kubernetes.go. *)
Definition Kubernetes {R : Type} {resp : R → Type} : Orchestrator resp :=
  mkOrchestrator "Kubernetes" ClusterTypeKubernetes ClusterFlavorDefault
    (λ _, Ret (inr true)) (λ _, Ret (inr true)) (Ret (inr None)).

Section new.
Context (selector_valid : LabelSelector → bool).
Context (CipherSuite : string → option Z) (OpenSSLToIANA : string → option string).
Context (flagTLSVersion : string → option Z) (InsecureCipherSuites : list Z).
Context (TLSProfiles : string → option TLSProfileSpec) (ShouldHonorClusterTLSProfile : string → bool).

Definition openshift_New : orchM (OrchError + Orchestrator OrchResp) :=
  isHypershift ⇐ isExternalControlPlaneCluster;
  let flavor := if isHypershift : bool then ClusterFlavorHypershift else ClusterFlavorDefault in
  Ret (inr (mkOrchestrator "OpenShift" ClusterTypeOpenshift flavor
    (BeforeDrainNode flavor) (AfterCompleteDrainNode flavor selector_valid)
    (GetTLSConfig CipherSuite OpenSSLToIANA flagTLSVersion InsecureCipherSuites TLSProfiles ShouldHonorClusterTLSProfile))).

Definition New (clusterType : string) : orchM (OrchError + Orchestrator OrchResp) :=
  if String.eqb clusterType ClusterTypeOpenshift then openshift_New
  else if String.eqb clusterType ClusterTypeKubernetes then Ret (inr Kubernetes)
  else Ret (inl (OMsg ("unknown cluster type: " +:+ clusterType))).
End new.
