(* ===== verification/OrchestratorSpec.v ===== *)
(** * The machine config pool stays paused while its nodes are drained

    The calls of the orchestrator against a cluster in which the machine config
    operator renders and rolls out configurations, daemons change the drain
    annotations of their nodes, and requests may fail before or after they take
    effect. *)
From S2P Require Import Prelude GoLib Types Effects Kube DrainController DrainSafety Tls Orchestrator.

(** ** The cluster *)

(** [pk_approved]: the nodes, each with its pool, for which [BeforeDrainNode]
    answered true and that are still being configured. *)
Record PoolCluster := mkPoolCluster {
  pk_pools : gmap string MachineConfigPool;
  pk_nodes : gmap string Node;
  pk_approved : gset (string * string);
}.

Definition set_pool (m : MachineConfigPool) (s : PoolCluster) : PoolCluster :=
  mkPoolCluster (<[GetName m := m]> (pk_pools s)) (pk_nodes s) (pk_approved s).
Definition approve (n p : string) (s : PoolCluster) : PoolCluster :=
  mkPoolCluster (pk_pools s) (pk_nodes s) ({[(n, p)]} ∪ pk_approved s).

Definition stateOf (m : MachineConfigPool) : option string := GetAnnotations m !! MachineConfigPoolPausedAnnotation.

Definition nodeBusy (n : Node) : bool :=
  ObjectHasAnnotationKey n NodeDrainAnnotation &&
  negb (String.eqb (default "" (GetAnnotations n !! NodeDrainAnnotation)) DrainIdle).

(** A nil selector selects nothing. *)
Definition selects (sel : option LabelSelector) (labels : gmap string string) : bool :=
  match sel with None => false | Some s => selector_matches s labels end.

(** Paused by this operator. *)
Definition held (s : PoolCluster) (p : string) : Prop :=
  ∃ m, pk_pools s !! p = Some m ∧ mcp_Paused m = true ∧ stateOf m = Some MachineConfigPoolPausedAnnotationPaused.

(** Under configuration, and a node of the pool. *)
Definition busy (s : PoolCluster) (n p : string) : Prop :=
  ∃ node m, pk_nodes s !! n = Some node ∧ nodeBusy node = true ∧
    pk_pools s !! p = Some m ∧ selects (mcp_NodeSelector m) (GetLabels node) = true.

Definition free (s : PoolCluster) (p : string) : Prop := ∀ n, (n, p) ∉ pk_approved s.

Definition keyed (s : PoolCluster) : Prop :=
  (∀ p m, pk_pools s !! p = Some m → GetName m = p) ∧ (∀ n o, pk_nodes s !! n = Some o → GetName o = n).

Definition pools_held (s : PoolCluster) : Prop :=
  keyed s ∧ ∀ n p, (n, p) ∈ pk_approved s → busy s n p ∧ held s p.

Section spec.
(** The owners of the machine configurations. *)
Context (owners_of : string → option (list OwnerReference)).

Definition pool_write (s : PoolCluster) (m : MachineConfigPool) (f : MachineConfigPool → MachineConfigPool)
    (x : KubeError + MachineConfigPool) (s' : PoolCluster) : Prop :=
  let done_ o := ∃ cur, pk_pools s !! GetName m = Some cur ∧ o = f cur ∧ s' = set_pool (f cur) s in
  match x with
  | inr o => done_ o
  | inl _ => s' = s ∨ ∃ o, done_ o
  end.

Definition orch_server (s : PoolCluster) (r : OrchReq) : OrchResp r → PoolCluster → Prop :=
  match r with
  | GetMachineConfig d => λ x s', s' = s ∧ get_answer (owners_of d) x
  | GetPool p => λ x s', s' = s ∧ get_answer (pk_pools s !! p) x
  | PatchPool original changed => λ x s', pool_write s changed (patch_object original changed) x s'
  | PausePool m b => λ x s', pool_write s m (mcp_set_Paused b) x s'
  | ListPoolNodes sel => λ x s', s' = s ∧
      match x with
      | inl _ => True
      | inr l => ∀ o, o ∈ l ↔ pk_nodes s !! GetName o = Some o ∧ selects sel (GetLabels o) = true
      end
  | GetInfrastructure | GetAPIServer => λ _ s', s' = s
  end.

(** What the others leave alone in a pool: the machine config operator changes
    the configurations, anybody other annotations. *)
Definition same_pool (m m' : MachineConfigPool) : Prop :=
  GetName m' = GetName m ∧ mcp_Paused m' = mcp_Paused m ∧ stateOf m' = stateOf m ∧ mcp_NodeSelector m' = mcp_NodeSelector m.

(** A node that is no longer busy counts as approved no more. *)
Definition orch_rely (s s' : PoolCluster) : Prop :=
  keyed s' ∧ (∀ p m, pk_pools s !! p = Some m → ∃ m', pk_pools s' !! p = Some m' ∧ same_pool m m') ∧
  pk_approved s' ⊆ pk_approved s ∧ (∀ n p, (n, p) ∈ pk_approved s' → busy s n p → busy s' n p).

Definition orch_world : World OrchResp := shared_world orch_server orch_rely.

(** ** What others cannot spoil *)

Lemma rely_held s s' p : orch_rely s s' → held s p → held s' p.
Proof.
  intros (_ & Hp & _) (m & Hm & H1 & H2). destruct (Hp _ _ Hm) as (m' & Hm' & _ & E1 & E2 & _).
  exists m'. by rewrite E1, E2.
Qed.

Lemma rely_pools_held s s' : orch_rely s s' → pools_held s → pools_held s'.
Proof.
  intros Hr [_ Hs]. pose proof Hr as (Hk & _ & Ha & Hb). split; [exact Hk|]. intros n p Hn.
  destruct (Hs n p (Ha _ Hn)) as [Hbusy Hh]. split; [by apply Hb|by eapply rely_held].
Qed.

Lemma rely_free s s' p : orch_rely s s' → free s p → free s' p.
Proof. intros (_ & _ & Ha & _) H n Hn. by apply (H n), Ha. Qed.

(** The pool of this name is annotated as paused by this operator. *)
Definition claimed (s : PoolCluster) (p : string) : Prop :=
  ∃ m, pk_pools s !! p = Some m ∧ stateOf m = Some MachineConfigPoolPausedAnnotationPaused.

Lemma rely_claimed s s' p : orch_rely s s' → claimed s p → claimed s' p.
Proof.
  intros (_ & Hp & _) (m & Hm & H2). destruct (Hp _ _ Hm) as (m' & Hm' & _ & _ & E2 & _). exists m'. by rewrite E2.
Qed.

(** Any number of moves. *)
Lemma relies (P : PoolCluster → Prop) s s' :
  (∀ a b, orch_rely a b → P a → P b) → rtc orch_rely s s' → P s → P s'.
Proof. intros H. induction 1; eauto. Qed.

(** ** Writes *)

(** A write that keeps the name and the selector of a pool, and its hold if it
    has approved nodes. *)
Lemma write_pools_held s cur new :
  pools_held s → pk_pools s !! GetName cur = Some cur → GetName new = GetName cur →
  mcp_NodeSelector new = mcp_NodeSelector cur →
  (∀ n, (n, GetName cur) ∈ pk_approved s →
     mcp_Paused new = true ∧ stateOf new = Some MachineConfigPoolPausedAnnotationPaused) →
  pools_held (set_pool new s).
Proof.
  intros [[Hk1 Hk2] Hs] Hcur Hname Hsel Hh. split; [split|].
  - intros p m. unfold set_pool. cbn. rewrite lookup_insert_Some. naive_solver.
  - exact Hk2.
  - intros n p Hn. destruct (Hs n p Hn) as [(node & m & H1 & H2 & H3 & H4) (m0 & G1 & G2 & G3)].
    unfold busy, held, set_pool. cbn. rewrite Hname. destruct (decide (p = GetName cur)) as [->|Hne].
    + rewrite lookup_insert_eq. specialize (Hh n Hn).
      assert (m = cur) as -> by congruence. split; [|by exists new]. exists node, new. by rewrite Hsel.
    + rewrite lookup_insert_ne by done. split; [by exists node, m|by exists m0].
Qed.

(** One write, and whatever the others do after it. *)
Lemma write_step s m f x s' (Hs : pools_held s) :
  (∀ cur, GetName (f cur) = GetName cur ∧ mcp_NodeSelector (f cur) = mcp_NodeSelector cur) →
  (∀ cur n, (n, GetName m) ∈ pk_approved s → mcp_Paused cur = true →
     stateOf cur = Some MachineConfigPoolPausedAnnotationPaused →
     mcp_Paused (f cur) = true ∧ stateOf (f cur) = Some MachineConfigPoolPausedAnnotationPaused) →
  (∃ s1, pool_write s m f x s1 ∧ rtc orch_rely s1 s') →
  pools_held s' ∧ (∀ q, free s q → free s' q) ∧
  ∀ o, x = inr o → GetName o = GetName m ∧ ∃ cur, pk_pools s !! GetName m = Some cur ∧ o = f cur ∧
    rtc orch_rely (set_pool o s) s'.
Proof.
  intros Hf Hh (s1 & Hw & Hr).
  assert (Hone : ∀ cur, pk_pools s !! GetName m = Some cur → pools_held (set_pool (f cur) s)).
  { intros cur Hcur. assert (Hn : GetName cur = GetName m) by (by apply Hs). destruct (Hf cur) as [Hf1 Hf2].
    eapply (write_pools_held s cur); [done|by rewrite Hn|done|done|]. rewrite Hn. intros n Hap.
    destruct (proj2 Hs _ _ Hap) as [_ (m0 & G1 & G2 & G3)]. assert (m0 = cur) as -> by congruence. by apply (Hh cur n). }
  assert (H1 : pools_held s1 ∧ pk_approved s1 = pk_approved s).
  { unfold pool_write in Hw. destruct x as [e|o]; [destruct Hw as [->|(o & cur & Hc & _ & ->)]|destruct Hw as (cur & Hc & _ & ->)];
      [done|by split; [apply Hone|]..]. }
  split; [by eapply (relies pools_held), H1; [apply rely_pools_held|]|]. split.
  - intros q Hq. eapply (relies (λ s, free s q)); [intros a b; apply rely_free|exact Hr|]. intros n. rewrite (proj2 H1). apply Hq.
  - intros o ->. destruct Hw as (cur & Hc & -> & ->). assert (Hn : GetName cur = GetName m) by (by apply Hs).
    split; [by rewrite (proj1 (Hf cur))|]. by exists cur.
Qed.

(** ** The two writes of the orchestrator *)

(** The invariant holds at every request. *)
Abbreviation orch_wp p Q s := (wp orch_world (λ s _, pools_held s) p Q s).

Lemma pause_spec m b s :
  pools_held s → (b = true ∨ free s (GetName m)) →
  orch_wp (ChangeMachineConfigPoolPause m b) (λ r s', pools_held s' ∧ (∀ q, free s q → free s' q) ∧
    ∀ m', r = inr m' → GetName m' = GetName m ∧ (b = true → claimed s (GetName m) → held s' (GetName m))) s.
Proof.
  intros Hs Hb. unfold ChangeMachineConfigPoolPause, ask. split; [done|]. intros x s' Hstep.
  apply write_step in Hstep as (H1 & H2 & H3); [|done|done|].
  2: { intros cur n Hn _ Hst. destruct Hb as [->|Hb]; [by split|by destruct (Hb n)]. }
  split; [exact H1|]. split; [exact H2|]. intros m' Hm'. destruct x as [e|o]; [done|]. injection Hm' as <-.
  destruct (H3 o eq_refl) as (Hn & cur & Hc & -> & Hr). split; [exact Hn|]. intros -> (m0 & G1 & G2).
  assert (m0 = cur) as -> by congruence.
  eapply (relies (λ s, held s (GetName m))); [intros a c; apply rely_held|exact Hr|].
  exists (mcp_set_Paused true cur). unfold set_pool. cbn. split; [|done]. rewrite Hn. apply lookup_insert_eq.
Qed.

Lemma stateOf_annotated (m cur : MachineConfigPool) v :
  stateOf m ≠ Some v →
  stateOf (patch_object m (SetAnnotations (<[MachineConfigPoolPausedAnnotation := v]> (GetAnnotations m)) m) cur) = Some v.
Proof.
  intros Hv. unfold stateOf, patch_object, SetLabels.
  unfold GetAnnotations at 1. rewrite obj_meta_set. cbn -[merge_patch]. rewrite merge_patch_lookup.
  change (om_Annotations (mcp_meta ?x)) with (GetAnnotations x). rewrite lookup_insert_eq.
  case_decide as E; [|done]. by destruct Hv.
Qed.

Lemma annotate_spec m v s :
  pools_held s → (v = MachineConfigPoolPausedAnnotationPaused ∨ free s (GetName m)) →
  orch_wp (annotatePool m v) (λ r s', pools_held s' ∧ (∀ q, free s q → free s' q) ∧
    ∀ m', r = inr m' → GetName m' = GetName m ∧
      (v = MachineConfigPoolPausedAnnotationPaused → stateOf m ≠ Some v → claimed s' (GetName m))) s.
Proof.
  intros Hs Hv. unfold annotatePool, AnnotateObject.
  destruct (String.eqb_spec (default "" (GetAnnotations m !! MachineConfigPoolPausedAnnotation)) v) as [E|E].
  { cbn. split; [done|]. split; [done|]. intros m' [= <-]. split; [done|]. intros -> Hst. exfalso. unfold stateOf in Hst.
    destruct (GetAnnotations m !! _); cbn in E; [congruence|done]. }
  assert (Hst : stateOf m ≠ Some v) by (unfold stateOf; intros Hst; rewrite Hst in E; by destruct E).
  split; [done|]. intros x s' Hstep. apply write_step in Hstep as (H1 & H2 & H3); [|done|done|].
  2: { intros cur n Hn Hp _. destruct Hv as [->|Hv]; [|by destruct (Hv n)]. split; [exact Hp|]. by apply stateOf_annotated. }
  destruct x as [e|o]; (split; [exact H1|]; split; [exact H2|]); [done|]. intros m' [= <-].
  destruct (H3 o eq_refl) as (Hn & cur & Hc & -> & Hr). split; [exact Hn|]. intros -> _.
  eapply (relies (λ s, claimed s (GetName m))); [intros a c; apply rely_claimed|exact Hr|].
  eexists. unfold set_pool. cbn [pk_pools]. rewrite Hn. split; [apply lookup_insert_eq|]. by apply stateOf_annotated.
Qed.

(** ** Reads *)

Lemma relies_pools_held s s' : rtc orch_rely s s' → pools_held s → pools_held s'.
Proof. apply relies, rely_pools_held. Qed.

Lemma relies_free s s' q : rtc orch_rely s s' → free s q → free s' q.
Proof. apply (relies (λ s, free s q)). intros a c. apply rely_free. Qed.

Lemma relies_held s s' q : rtc orch_rely s s' → held s q → held s' q.
Proof. apply (relies (λ s, held s q)). intros a c. apply rely_held. Qed.

Lemma relies_claimed s s' q : rtc orch_rely s s' → claimed s q → claimed s' q.
Proof. apply (relies (λ s, claimed s q)). intros a c. apply rely_claimed. Qed.

Lemma relies_selector s s' p sel :
  rtc orch_rely s s' → (∃ m, pk_pools s !! p = Some m ∧ mcp_NodeSelector m = sel) →
  ∃ m, pk_pools s' !! p = Some m ∧ mcp_NodeSelector m = sel.
Proof.
  apply (relies (λ s, ∃ m, pk_pools s !! p = Some m ∧ mcp_NodeSelector m = sel)).
  intros a b (_ & Hp & _) (m & Hm & <-). destruct (Hp _ _ Hm) as (m' & Hm' & _ & _ & _ & E). by exists m'.
Qed.

Lemma relies_approved s s' e : rtc orch_rely s s' → e ∉ pk_approved s → e ∉ pk_approved s'.
Proof. apply (relies (λ s, e ∉ pk_approved s)). intros a b (_ & _ & Ha & _). set_solver. Qed.

Lemma get_pool_spec p s (Q : OrchError + MachineConfigPool → PoolCluster → Prop) :
  pools_held s →
  (∀ r s', rtc orch_rely s s' → pools_held s' →
     (∀ m, r = inr m → pk_pools s !! p = Some m ∧ GetName m = p) → Q r s') →
  orch_wp (ask (perform (GetPool p))) Q s.
Proof.
  intros Hs H. split; [done|]. intros x s' (s1 & [-> Hx] & Hr). cbn. apply H; [done|by eapply relies_pools_held|].
  intros m Hm. destruct x as [[]|o]; try done. injection Hm as <-. split; [exact Hx|by apply Hs].
Qed.

Lemma poolNodes_spec selector_valid sel s (Q : OrchError + list Node → PoolCluster → Prop) :
  pools_held s →
  (∀ r s', rtc orch_rely s s' → pools_held s' →
     (∀ l, r = inr l → ∀ o, pk_nodes s !! GetName o = Some o → selects sel (GetLabels o) = true → o ∈ l) → Q r s') →
  orch_wp (poolNodes selector_valid sel) Q s.
Proof.
  intros Hs H. assert (Hget : orch_wp (ask (perform (ListPoolNodes sel))) Q s).
  { split; [done|]. intros x s' (s1 & [-> Hx] & Hr). cbn. apply H; [done|by eapply relies_pools_held|].
    intros l Hl. destruct x as [|l']; [done|]. injection Hl as <-. intros o H1 H2. by apply Hx. }
  unfold poolNodes. destruct sel as [sel|]; [|exact Hget]. destruct (selector_valid sel); [exact Hget|].
  cbn. by apply H.
Qed.

(** ** The critical sections *)

(** A pool without this operator's annotation has no approved nodes. *)
Lemma unclaimed_free s p m :
  pools_held s → pk_pools s !! p = Some m → stateOf m ≠ Some MachineConfigPoolPausedAnnotationPaused → free s p.
Proof. intros [_ Hs] Hm Hne n Hn. destruct (Hs n p Hn) as [_ (m0 & G1 & _ & G3)]. congruence. Qed.

Lemma pausePool_spec p s :
  pools_held s → orch_wp (pausePool p) (λ r s', pools_held s' ∧ (r = inr true → held s' p)) s.
Proof.
  intros Hs. unfold pausePool. apply wp_try, get_pool_spec; [done|]. intros [e|mcp] s1 Hr1 Hs1 Hm; [done|].
  destruct (Hm mcp eq_refl) as [Hl Hn]. destruct (ObjectHasAnnotation _ _ _) eqn:Ea.
  - apply ObjectHasAnnotation_lookup in Ea. destruct (mcp_Paused mcp) eqn:Ep; cbn [negb].
    { split; [done|]. intros _. eapply relies_held; [exact Hr1|]. by exists mcp. }
    destruct (_ || _); [done|]. apply wp_try. eapply wp_post; [apply (pause_spec mcp true); [done|by left]|].
    cbn beta. intros [e|m'] s2 (H1 & H2 & H3); [done|]. split; [done|]. intros _.
    destruct (H3 m' eq_refl) as [_ H]. rewrite Hn in H. apply H; [done|]. eapply relies_claimed; [exact Hr1|]. by exists mcp.
  - destruct (sameConfiguration mcp); cbn [negb]; [|done].
    assert (Hst : stateOf mcp ≠ Some MachineConfigPoolPausedAnnotationPaused).
    { intros E%ObjectHasAnnotation_lookup. congruence. }
    assert (Hf1 : free s1 p) by (eapply relies_free, unclaimed_free; eassumption).
    apply wp_try. eapply wp_post; [apply (annotate_spec mcp); [done|by left]|].
    cbn beta. intros [e|mcp1] s2 (H2 & F2 & C2); [done|]. destruct (C2 mcp1 eq_refl) as [N2 Cl]. specialize (Cl eq_refl Hst).
    apply wp_try. eapply wp_post; [apply (pause_spec mcp1 true); [done|by left]|].
    cbn beta. intros [e|mcp1'] s3 (H3 & F3 & C3); [done|]. destruct (C3 mcp1' eq_refl) as [_ Hh].
    rewrite N2, Hn in Hh. rewrite Hn in Cl. specialize (Hh eq_refl Cl).
    apply wp_try, get_pool_spec; [done|]. intros [e|mcp2] s4 Hr4 H4 Hm2; [done|]. destruct (Hm2 mcp2 eq_refl) as [_ N4].
    destruct (sameConfiguration mcp2); cbn [negb]; [split; [done|]; intros _; by eapply relies_held|].
    assert (Hf4 : free s4 p) by (eapply relies_free; [exact Hr4|]; by apply F3, F2).
    apply wp_try. eapply wp_post; [apply (pause_spec mcp2 false); [done|right; by rewrite N4]|].
    cbn beta. intros [e|mcp3] s5 (H5 & F5 & C5); [done|]. destruct (C5 mcp3 eq_refl) as [N5 _].
    apply wp_try. eapply wp_post; [apply (annotate_spec mcp3); [done|right; rewrite N5, N4; by apply F5]|].
    cbn beta. intros [e|mcp4] s6 (H6 & _ & _); done.
Qed.

Lemma unpausePool_spec selector_valid node p s :
  pools_held s → (GetName node, p) ∉ pk_approved s →
  orch_wp (unpausePool selector_valid node p) (λ _ s', pools_held s') s.
Proof.
  intros Hs Hnode. unfold unpausePool. apply wp_try, get_pool_spec; [done|]. intros [e|mcp] s1 Hr1 Hs1 Hm; [done|].
  destruct (Hm mcp eq_refl) as [Hl Hn]. destruct (GetAnnotations mcp !! _) as [value|]; [|done].
  destruct (String.eqb value _); [done|]. apply wp_try, poolNodes_spec; [done|].
  intros [e|l] s2 Hr2 Hs2 Hlist; [done|]. specialize (Hlist l eq_refl).
  destruct (othersIdle node l) eqn:Eo; cbn [negb]; [|done].
  assert (Hf : free s2 p).
  { eapply relies_free; [exact Hr2|]. intros n Hap. destruct (proj2 Hs1 n p Hap) as [(o & m1 & B1 & B2 & B3 & B4) _].
    destruct (relies_selector s s1 p (mcp_NodeSelector mcp) Hr1) as (m1' & M1 & M2); [by exists mcp|].
    assert (m1' = m1) as -> by congruence. rewrite M2 in B4. assert (No : GetName o = n) by (by apply Hs1).
    assert (Ho : o ∈ l) by (apply Hlist; [by rewrite No|done]).
    unfold othersIdle in Eo. rewrite forallb_forall in Eo. specialize (Eo o (proj1 (list_elem_of_In _ _) Ho)).
    fold (nodeBusy o) in Eo. rewrite B2, orb_false_r in Eo. apply String.eqb_eq in Eo.
    apply (relies_approved s s1 (GetName node, p) Hr1 Hnode). by rewrite <- Eo, No. }
  apply wp_try. eapply wp_post; [apply (pause_spec mcp false); [done|right; by rewrite Hn]|].
  cbn beta. intros [e|mcp1] s3 (H3 & F3 & C3); [done|]. destruct (C3 mcp1 eq_refl) as [N3 _].
  apply wp_try. eapply wp_post; [apply (annotate_spec mcp1); [done|right; rewrite N3, Hn; by apply F3]|].
  cbn beta. intros [e|mcp2] s4 (H4 & _ & _); done.
Qed.
(** ** The calls *)

Definition pool_of (node : Node) : option string :=
  d ← GetAnnotations node !! DesiredMachineConfigAnnotation; owners ← owners_of d; firstPool owners.

Lemma GetNodeMachinePoolName_spec flavor node s (Q : OrchError + string → PoolCluster → Prop) :
  pools_held s →
  (∀ r s', rtc orch_rely s s' → pools_held s' → (∀ p, r = inr p → pool_of node = Some p) → Q r s') →
  orch_wp (GetNodeMachinePoolName flavor node) Q s.
Proof.
  intros Hs H. unfold GetNodeMachinePoolName. destruct (String.eqb flavor _); [by apply H|].
  unfold pool_of in H. destruct (GetAnnotations node !! _) as [d|]; [|by apply H]. split; [done|].
  intros x s' (s1 & [-> Hx] & Hr). pose proof (relies_pools_held _ _ Hr Hs) as Hs'.
  destruct x as [e|owners]; cbn; apply H; try done. intros p Hp. cbn in Hx. cbn. rewrite Hx. cbn.
  destruct (firstPool owners); congruence.
Qed.

Lemma BeforeDrainNode_spec node s :
  pools_held s →
  orch_wp (BeforeDrainNode ClusterFlavorDefault node)
    (λ r s', pools_held s' ∧ (r = inr true → ∀ p, pool_of node = Some p → held s' p)) s.
Proof.
  intros Hs. unfold BeforeDrainNode. cbn [String.eqb]. apply wp_try, GetNodeMachinePoolName_spec; [done|].
  intros [e|p] s1 Hr Hs1 Hp; [done|]. eapply wp_post; [by apply pausePool_spec|]. cbn beta.
  intros r s2 [H1 H2]. split; [done|]. intros Hr2 q Hq. assert (q = p) as ->; [|by apply H2].
  specialize (Hp p eq_refl). congruence.
Qed.

Lemma AfterCompleteDrainNode_spec selector_valid node s :
  pools_held s → (∀ p, (GetName node, p) ∉ pk_approved s) →
  orch_wp (AfterCompleteDrainNode ClusterFlavorDefault selector_valid node) (λ _ s', pools_held s') s.
Proof.
  intros Hs Hn. unfold AfterCompleteDrainNode. cbn [String.eqb]. apply wp_try, GetNodeMachinePoolName_spec; [done|].
  intros [e|p] s1 Hr Hs1 _; [done|]. apply unpausePool_spec; [done|]. by eapply relies_approved.
Qed.

(** ** The protocol *)

(** One call at a time ([mcpPauseMutex]), with the moves of the others in
    between and during the calls.  A node counts as approved once
    [BeforeDrainNode] said so while it is under configuration; the drain
    controller completes the drain of a node that is not.  Calls may be
    interrupted. *)
Inductive orch_move (selector_valid : LabelSelector → bool) : PoolCluster → PoolCluster → Prop :=
| move_others s s' : orch_rely s s' → orch_move selector_valid s s'
| move_before n node s tr r s' :
    exec orch_world (cut n (BeforeDrainNode ClusterFlavorDefault node)) s tr r s' → orch_move selector_valid s s'
| move_approve node p s tr s' :
    exec orch_world (BeforeDrainNode ClusterFlavorDefault node) s tr (inr true) s' →
    pool_of node = Some p → busy s' (GetName node) p → orch_move selector_valid s (approve (GetName node) p s')
| move_after n node s tr r s' :
    (∀ p, (GetName node, p) ∉ pk_approved s) →
    exec orch_world (cut n (AfterCompleteDrainNode ClusterFlavorDefault selector_valid node)) s tr r s' →
    orch_move selector_valid s s'.

Lemma approve_held s n p : pools_held s → busy s n p → held s p → pools_held (approve n p s).
Proof.
  intros [Hk Hs] Hb Hh. split; [exact Hk|]. intros n' p' H. cbn in H.
  apply elem_of_union in H as [[= -> ->]%elem_of_singleton|H]; [by split|]. by apply Hs.
Qed.

(** A call that is interrupted leaves the invariant. *)
Lemma interrupted {A} n (p : prog OrchResp A) Q s tr r s' :
  (∀ a s, Q a s → pools_held s) → orch_wp p Q s → exec orch_world (cut n p) s tr r s' → pools_held s'.
Proof.
  intros HQ Hp He. apply (wp_cut orch_world (λ s _, pools_held s) pools_held p n Q s) in Hp; [|done|exact HQ].
  by apply (wp_exec _ _ _ _ _ _ _ _ Hp) in He as [H _].
Qed.

Lemma move_pools_held selector_valid s s' : orch_move selector_valid s s' → pools_held s → pools_held s'.
Proof.
  intros [? ? Hr|n node ? tr r ? He|node p ? tr s1 He Hp Hb|n node ? tr r ? Hn He] Hs.
  - by eapply rely_pools_held.
  - eapply interrupted; [|by apply (BeforeDrainNode_spec node)|exact He]. by intros ? ? [].
  - destruct (wp_exec _ _ _ _ _ _ _ _ (BeforeDrainNode_spec node _ Hs) He) as [[H1 H2] _].
    apply approve_held; [done|done|by apply H2].
  - eapply interrupted; [|by apply (AfterCompleteDrainNode_spec selector_valid node)|exact He]. done.
Qed.
End spec.

(** C15: on OpenShift, from a cluster where no node was approved yet and through any sequence of calls of
    [BeforeDrainNode] and [AfterCompleteDrainNode] (interrupted ones included), configuration changes of the machine
    config operator, drain requests of the daemons and failing requests: while a node is under configuration with
    [BeforeDrainNode]'s approval, the machine config pool of that node is paused and carries the annotation that says
    who paused it. *)
Theorem pool_paused_while_draining (owners_of : string → option (list OwnerReference))
    (selector_valid : LabelSelector → bool) (s0 s : PoolCluster) n p :
  keyed s0 → pk_approved s0 = ∅ → rtc (orch_move owners_of selector_valid) s0 s → (n, p) ∈ pk_approved s →
  held s p.
Proof.
  intros Hk Ha Hr Hn. assert (H0 : pools_held s0) by (split; [done|]; rewrite Ha; set_solver).
  assert (Hs : pools_held s); [|by apply (proj2 Hs n p)].
  clear Hn Ha Hk. induction Hr as [s|s1 s2 s3 H12 _ IH]; [done|]. apply IH. by eapply move_pools_held.
Qed.

(** ** A cluster to run the calls on *)

Definition found {A} (o : option A) : KubeError + A := match o with Some a => inr a | None => inl ErrNotFound end.

Definition write_answer (s : PoolCluster) (m : MachineConfigPool) (f : MachineConfigPool → MachineConfigPool)
    : (KubeError + MachineConfigPool) * PoolCluster :=
  match pk_pools s !! GetName m with
  | Some cur => (inr (f cur), set_pool (f cur) s)
  | None => (inl ErrNotFound, s)
  end.

Definition listed (s : PoolCluster) (sel : option LabelSelector) : list Node :=
  (List.filter (λ ko : string * Node, String.eqb ko.1 (GetName ko.2) && selects sel (GetLabels ko.2))
     (map_to_list (pk_nodes s))).*2.

Definition orch_handler (owners_of : string → option (list OwnerReference)) (s : PoolCluster) (r : OrchReq)
    : OrchResp r * PoolCluster :=
  match r with
  | GetMachineConfig d => (found (owners_of d), s)
  | GetPool p => (found (pk_pools s !! p), s)
  | PatchPool original changed => write_answer s changed (patch_object original changed)
  | PausePool m b => write_answer s m (mcp_set_Paused b)
  | ListPoolNodes sel => (inr (listed s sel), s)
  | GetInfrastructure => (inr "HighlyAvailable", s)
  | GetAPIServer => (inl ErrNotFound, s)
  end.

Lemma orch_handler_ok owners_of s r :
  w_step (orch_world owners_of) s r (orch_handler owners_of s r).1 (orch_handler owners_of s r).2.
Proof.
  assert (Hf : ∀ A (o : option A), get_answer o (found o)) by (by intros A []).
  assert (Hw : ∀ m f, pool_write s m f (write_answer s m f).1 (write_answer s m f).2).
  { intros m f. unfold write_answer, pool_write. destruct (pk_pools s !! GetName m) as [cur|]; cbn; [by exists cur|by left]. }
  exists (orch_handler owners_of s r).2. split; [|constructor]. destruct r; try by split. 1, 2: apply Hw.
  split; [done|]. intros o. unfold listed. rewrite list_elem_of_fmap. setoid_rewrite list_elem_of_In.
  setoid_rewrite filter_In. setoid_rewrite <- list_elem_of_In. split.
  - intros ([k o'] & -> & H & [E%String.eqb_eq Hsel]%andb_true_iff). cbn in *. subst k. by apply elem_of_map_to_list in H.
  - intros [H1 H2]. exists (GetName o, o). split; [done|]. split; [by apply elem_of_map_to_list|].
    cbn. by rewrite String.eqb_refl, H2.
Qed.

Definition sample_owners (d : string) : option (list OwnerReference) :=
  if String.eqb d "rendered-worker-1" then Some [mkOwnerReference "MachineConfigPool" "worker"] else None.
Definition sample_worker (anno : gmap string string) : Node :=
  mkNode (mkObjectMeta "node-1" "" 1 (<[DesiredMachineConfigAnnotation := "rendered-worker-1"]> anno) {["role" := "worker"]} []) "" false.
Definition sample_pools : PoolCluster :=
  mkPoolCluster
    {["worker" := mkMachineConfigPool (mkObjectMeta "worker" "" 1 ∅ ∅ []) false "rendered-worker-1" "rendered-worker-1"
                    (Some (mkLabelSelector {["role" := "worker"]} []))]}
    {["node-1" := sample_worker {[NodeDrainAnnotation := "Drain_Required"]}]} ∅.

Definition sample_node : Node := sample_worker {[NodeDrainAnnotation := "Drain_Required"]}.
Definition sample_approved : PoolCluster :=
  approve "node-1" "worker" (run (orch_handler sample_owners) (BeforeDrainNode ClusterFlavorDefault sample_node) sample_pools).2.

Lemma pool_paused_while_draining_witness :
  held sample_approved "worker" ∧ pk_pools sample_pools !! "worker" ≠ pk_pools sample_approved !! "worker".
Proof.
  split; [|vm_compute; discriminate].
  apply (pool_paused_while_draining sample_owners (λ _, true) sample_pools sample_approved "node-1" "worker").
  - split; intros k o; cbn; rewrite lookup_singleton_Some; intros [<- <-]; reflexivity.
  - reflexivity.
  - apply rtc_once.
    eapply (move_approve sample_owners _ sample_node "worker" sample_pools); [|vm_compute; reflexivity|].
    + apply run_exec_eq; [intros; apply orch_handler_ok|]. vm_compute. reflexivity.
    + do 2 eexists. split_and!; vm_compute; reflexivity.
  - unfold sample_approved, approve. cbn [pk_approved]. apply elem_of_union_l, elem_of_singleton. reflexivity.
Defined.
