(* ===== verification/OperatorConfig.v ===== *)
(** * The operator configuration controller
    (controllers/sriovoperatorconfig_controller.go, controllers/helper.go,
    pkg/featuregate/featuregate.go)

    It deploys what the operator consists of -- webhooks, configuration daemon,
    device plugin, metrics exporter -- from the manifests under bindata/, or
    removes what is switched off, and reports the outcome as the Ready condition
    of the SriovOperatorConfig. *)
From S2P Require Import Prelude GoLib Types Selector Conditions Effects Kube Json Merge Render Tls Orchestrator.

(** ** Feature gates *)

Definition ParallelNicConfigFeatureGate := "parallelNicConfig".
Definition ResourceInjectorMatchConditionFeatureGate := "resourceInjectorMatchCondition".
Definition MetricsExporterFeatureGate := "metricsExporter".
Definition ManageSoftwareBridgesFeatureGate := "manageSoftwareBridges".
Definition BlockDevicePluginUntilConfiguredFeatureGate := "blockDevicePluginUntilConfigured".
Definition MellanoxFirmwareResetFeatureGate := "mellanoxFirmwareReset".

Definition DefaultFeatureStates : gmap string bool :=
  {[ParallelNicConfigFeatureGate := false; ResourceInjectorMatchConditionFeatureGate := false;
    MetricsExporterFeatureGate := false; ManageSoftwareBridgesFeatureGate := false;
    BlockDevicePluginUntilConfiguredFeatureGate := true; MellanoxFirmwareResetFeatureGate := true]}.

(** The state after [Init]; a gate nobody knows is disabled. *)
Definition Init (defaultFeatures features : gmap string bool) : gmap string bool := features ∪ defaultFeatures.
Definition IsEnabled (state : gmap string bool) (feature : string) : bool := default false (state !! feature).

(** ** Objects *)

(** The SriovOperatorConfig with the metadata and status this controller
    reads; [ocr_Deleting]: it has a deletion timestamp, [ocr_SelectorGiven]:
    spec.configDaemonNodeSelector is not nil (it may be empty). *)
Record OperatorConfigCR := mkOperatorConfigCR {
  ocr_meta : ObjectMeta;
  ocr_Finalizers : list string;
  ocr_Deleting : bool;
  ocr_Spec : SriovOperatorConfigSpec;
  ocr_SelectorGiven : bool;
  ocr_Conditions : list Condition;
}.

Definition ocr_set_Finalizers (l : list string) (c : OperatorConfigCR) : OperatorConfigCR :=
  mkOperatorConfigCR (ocr_meta c) l (ocr_Deleting c) (ocr_Spec c) (ocr_SelectorGiven c) (ocr_Conditions c).

(** appsv1.DaemonSet: the part the code reads, the pod's node selector, and the
    rest of the specification. *)
Record DaemonSet := mkDaemonSet {
  ds_Namespace : string;
  ds_Name : string;
  ds_OwnerReferences : list string;
  ds_NodeSelector : gmap string string;
  ds_Spec : json;
}.

Definition ds_set_NodeSelector (s : gmap string string) (d : DaemonSet) : DaemonSet :=
  mkDaemonSet (ds_Namespace d) (ds_Name d) (ds_OwnerReferences d) s (ds_Spec d).

(** The typed object a machine configuration is converted to. *)
Record ControllerConfig := mkControllerConfig { cc_Labels : gmap string string; cc_Rest : json }.

(** ** Requests *)

Inductive OpReq :=
| GetConfig (ns name : string)
| UpdateConfig (c : OperatorConfigCR)
| PatchConfig (original changed : OperatorConfigCR)
| ApplyOpStatus (m : ObjectMeta) (conditions : list Condition)
| OpEvent (m : ObjectMeta) (eventType reason message : string)
| ListPolicies
| GetObj (obj : jobj)        (* by kind, namespace and name *)
| CreateObj (obj : jobj)
| UpdateObj (obj : jobj)
| DeleteObj (obj : jobj)
| GetDaemonSet (ns name : string)
| CreateDaemonSet (d : DaemonSet)
| UpdateDaemonSet (d : DaemonSet)
| GetMachineConfigObj (name : string)
| DeleteMachineConfig (name : string)
| GetClusterTLS.             (* Orchestrator.GetTLSConfig *)

Definition OpResp (r : OpReq) : Type :=
  match r with
  | GetConfig _ _ => KubeError + OperatorConfigCR
  | UpdateConfig _ | PatchConfig _ _ | ApplyOpStatus _ _ => option KubeError
  | OpEvent _ _ _ _ => unit
  | ListPolicies => KubeError + list SriovNetworkNodePolicy
  | GetObj _ => KubeError + jobj
  | CreateObj _ | UpdateObj _ | DeleteObj _ => option KubeError
  | GetDaemonSet _ _ => KubeError + DaemonSet
  | CreateDaemonSet _ | UpdateDaemonSet _ => option KubeError
  | GetMachineConfigObj _ => option KubeError
  | DeleteMachineConfig _ => option KubeError
  | GetClusterTLS => OrchError + option TLSConfig
  end%type.

Abbreviation opM := (prog OpResp).

(** The errors; [OpHypershift] is [errSystemdModeOnHypershift], [OpJoin] what
    [errors.Join] makes of two. *)
Inductive OpError :=
| OpKube (e : KubeError)
| OpApply (e : ApplyError)
| OpMsg (msg : string)
| OpHypershift
| OpWrap (msg : string) (e : OpError)
| OpJoin (e e' : OpError).

#[export] Instance OpError_eq_dec : EqDecision OpError.
Proof. solve_decision. Defined.

(** The texts, without the dumps of objects. *)
Fixpoint OpError_Error (e : OpError) : string :=
  match e with
  | OpKube ErrNotFound => "not found"
  | OpKube ErrConflict => "conflict"
  | OpKube (ErrAPI m) => m
  | OpApply (AKube _) => "failed to sync object"
  | OpApply (AMsg m) => m
  | OpApply APanic => "panic"
  | OpMsg m => m
  | OpHypershift => "systemd mode is not supported on hypershift"
  | OpWrap m e => m +:+ ": " +:+ OpError_Error e
  | OpJoin e e' => OpError_Error e +:+ newline +:+ OpError_Error e'
  end.

(** [errors.Is(err, errSystemdModeOnHypershift)]. *)
Fixpoint isHypershiftError (e : OpError) : bool :=
  match e with
  | OpHypershift => true
  | OpWrap _ e => isHypershiftError e
  | OpJoin e e' => isHypershiftError e || isHypershiftError e'
  | _ => false
  end.

(** [errors.Join]; nil errors are dropped. *)
Definition errors_Join (a b : option OpError) : option OpError :=
  match a, b with
  | Some e, Some e' => Some (OpJoin e e')
  | Some e, None | None, Some e => Some e
  | None, None => None
  end.

(** A call that only returns an error, followed by the rest. *)
Definition op_then (p : opM (option OpError)) (k : opM (option OpError)) : opM (option OpError) :=
  r ← p; match r with Some e => Ret (Some e) | None => k end.

Fixpoint op_each {A} (f : A → opM (option OpError)) (l : list A) : opM (option OpError) :=
  match l with
  | [] => Ret None
  | x :: rest => op_then (f x) (op_each f rest)
  end.

Definition OPERATORCONFIGFINALIZERNAME := "operatorconfig.finalizers.sriovnetwork.openshift.io".
Definition ReasonOperatorConfigReady := "OperatorConfigReady".
Definition ReasonOperatorConfigSyncFailed := "OperatorConfigSyncFailed".
Definition ReasonUnsupportedConfiguration := "UnsupportedConfiguration".
Definition InjectorWebHookName := "network-resources-injector-config".
Definition OperatorWebHookName := "sriov-operator-webhook-config".
Definition InjectorWebHookPath := "./bindata/manifests/webhook".
Definition OperatorWebHookPath := "./bindata/manifests/operator-webhook".
Definition ConfigDaemonPath := "./bindata/manifests/daemon".
Definition PluginPath := "./bindata/manifests/plugins".
Definition MetricsExporterPath := "./bindata/manifests/metrics-exporter".
Definition SystemdServiceOcpPath := "./bindata/manifests/sriov-config-service/openshift".
Definition SystemdServiceOcpMachineConfigName := "sriov-config-service".
Definition SystemdConfigurationMode := "systemd".
Definition SriovDevicePluginLabel := "sriovnetwork.openshift.io/device-plugin".
Definition SriovDevicePluginLabelEnabled := "Enabled".
Definition trueString := "true".

(** The map [webhooks] of helper.go. *)
Definition webhooks : gmap string string :=
  {[InjectorWebHookName := InjectorWebHookPath; OperatorWebHookName := OperatorWebHookPath]}.

(** ** helper.go *)

Definition GetDefaultNodeSelector : gmap string string :=
  {["node-role.kubernetes.io/worker" := ""; "kubernetes.io/os" := "linux"]}.

Definition GetNodeSelectorForDevicePlugin (spec : SriovOperatorConfigSpec) : gmap string string :=
  if bool_decide (ocs_ConfigDaemonNodeSelector spec = ∅) then
    {["kubernetes.io/os" := "linux"; SriovDevicePluginLabel := SriovDevicePluginLabelEnabled]}
  else <[SriovDevicePluginLabel := SriovDevicePluginLabelEnabled]> (ocs_ConfigDaemonNodeSelector spec).

Section controller.
(** The environment, vars.Namespace, vars.ClusterType, vars.UseExternalDrainer,
    vars.ResourcePrefix, the orchestrator's type and flavor, and whether the
    status patcher has a recorder. *)
Context (Getenv : string → string) (Namespace : string) (varsClusterType : string).
Context (UseExternalDrainer : bool) (ResourcePrefix : string).
Context (ClusterType Flavor : string) (recorder : bool).
(** The manifests: the directories, the YAML decoder, the template errors. *)
Context (manifests : string → list Entry).
Context (Decode : string → list (string + option jobj)) (ExecError : RenderData → list Tmpl → string).
(** The libraries: conversions between typed and untyped objects, owner
    references, [DeepDerivative] on specifications, and the TLS tables. *)
Context (ToDaemonSet : jobj → string + DaemonSet) (FromDaemonSet : DaemonSet → string + jobj).
Context (ToControllerConfig : jobj → string + ControllerConfig) (FromControllerConfig : ControllerConfig → string + jobj).
Context (SetControllerReference : OperatorConfigCR → jobj → string + jobj).
Context (SetDaemonSetReference : OperatorConfigCR → DaemonSet → string + DaemonSet).
Context (DeepDerivative : DaemonSet → DaemonSet → bool).
Context (CipherSuite : string → option Z) (OpenSSLToIANA : string → option string).
Context (flagTLSVersion : string → option Z) (InsecureCipherSuites : list Z).
(** The order in which the map of webhooks is visited. *)
Context (webhook_order : list (string * string)).

Definition renderManifests (path : string) (data : RenderData) : string + list jobj :=
  RenderDir Decode ExecError (manifests path) data.

Definition applyManifest (obj : jobj) : opM (option ApplyError) :=
  ApplyObject (resp := OpResp) (λ o, perform (GetObj o)) (λ o, perform (CreateObj o)) (λ o, perform (UpdateObj o)) obj.

Definition deleteManifest (obj : jobj) : opM (option ApplyError) :=
  DeleteObject (resp := OpResp) (λ o, perform (GetObj o)) (λ o, perform (DeleteObj o)) obj.

Definition GetImagePullSecrets : list string :=
  if String.eqb (Getenv "IMAGE_PULL_SECRETS") "" then [] else Split (Getenv "IMAGE_PULL_SECRETS") ",".

(** An environment variable that switches something on. *)
Definition envTrue (name : string) : bool := String.eqb (ToLower (Getenv name)) trueString.

(** ** TLS settings *)

Definition envTLSConfig : string + option TLSConfig :=
  BuildTLSConfig CipherSuite OpenSSLToIANA flagTLSVersion InsecureCipherSuites
    (Getenv "TLS_CIPHER_SUITES") (Getenv "TLS_MIN_VERSION") (Getenv "TLS_CURVE_PREFERENCES").

(** Ciphers, version and curve numbers for the manifests. *)
Definition getTLSTemplateData : opM (OpError + TLSConfig) :=
  match envTLSConfig with
  | inl e => Ret (inl (OpMsg ("invalid TLS environment variables: " +:+ e)))
  | inr env =>
      r ← perform GetClusterTLS;
      match r with
      | inl _ => Ret (inl (OpMsg "failed to get TLS config from orchestrator"))
      | inr cluster =>
          let result := match cluster with Some c => c | None => default (mkTLSConfig "" "" "") env end in
          match CurveNamesToIDs (tls_CurvePreferences result) with
          | inl e => Ret (inl (OpMsg ("failed to convert curve preference names to IDs: " +:+ e)))
          | inr ids => Ret (inr (mkTLSConfig (tls_CipherSuites result) (tls_MinTLSVersion result) ids))
          end
      end
  end.

Definition tls_data (t : TLSConfig) : list (string * DataValue) :=
  [("TLSCipherSuites", DvString (tls_CipherSuites t)); ("TLSMinVersion", DvString (tls_MinTLSVersion t));
   ("TLSCurvePreferences", DvString (tls_CurvePreferences t))].

(** ** Syncing single objects *)

(** Objects that belong to no namespace get no owner. *)
Definition clusterScoped (kind : string) : bool :=
  bool_decide (kind ∈ ["ClusterRole"; "ClusterRoleBinding"; "MutatingWebhookConfiguration";
                       "ValidatingWebhookConfiguration"; "MachineConfig"]).

Definition syncK8sResource (cr : OperatorConfigCR) (in_ : jobj) : opM (option OpError) :=
  match (if clusterScoped (uns_Kind in_) then inr in_ else SetControllerReference cr in_) with
  | inl e => Ret (Some (OpMsg e))
  | inr obj => r ← applyManifest obj; Ret (option_map OpApply r)
  end.

Definition deleteK8sResource (in_ : jobj) : opM (option OpError) :=
  r ← deleteManifest in_; Ret (option_map OpApply r).

Definition deleteK8sResources (objs : list jobj) : opM (option OpError) := op_each deleteK8sResource objs.

Definition deleteWebhookObject (obj : jobj) : opM (option OpError) := deleteK8sResource obj.

(** ** Daemon sets *)

Definition updateDaemonsetNodeSelector (obj : jobj) (nodeSelector : gmap string string) : string + jobj :=
  if bool_decide (nodeSelector = ∅) then inr obj
  else
    match ToDaemonSet obj with
    | inl e => inl ("failed to convert Unstructured [" +:+ uns_Name obj +:+ "] to DaemonSet: " +:+ e)
    | inr ds =>
        match FromDaemonSet (ds_set_NodeSelector nodeSelector ds) with
        | inl e => inl ("failed to convert DaemonSet [" +:+ uns_Name obj +:+ "] to Unstructured: " +:+ e)
        | inr obj' => inr obj'
        end
    end.

Definition syncDaemonSet (dc : OperatorConfigCR) (in_ : DaemonSet) : opM (option OpError) :=
  match SetDaemonSetReference dc in_ with
  | inl e => Ret (Some (OpMsg e))
  | inr in_ =>
      r ← perform (GetDaemonSet (ds_Namespace in_) (ds_Name in_));
      match r with
      | inl e =>
          if IsNotFound e then c ← perform (CreateDaemonSet in_); Ret (option_map OpKube c)
          else Ret (Some (OpKube e))
      | inr ds =>
          if bool_decide (ds_OwnerReferences in_ = ds_OwnerReferences ds) && DeepDerivative in_ ds then Ret None
          else u ← perform (UpdateDaemonSet in_); Ret (option_map OpKube u)
      end
  end.

Definition syncDsObject (dc : OperatorConfigCR) (obj : jobj) : opM (option OpError) :=
  if bool_decide (uns_Kind obj ∈ ["ServiceAccount"; "Role"; "RoleBinding"]) then
    match SetControllerReference dc obj with
    | inl e => Ret (Some (OpMsg e))
    | inr obj => r ← applyManifest obj; Ret (option_map OpApply r)
    end
  else if String.eqb (uns_Kind obj) "DaemonSet" then
    match ToDaemonSet obj with
    | inl e => Ret (Some (OpMsg e))
    | inr ds => syncDaemonSet dc ds
    end
  else Ret None.

Definition renderDsForCR (path : string) (data : RenderData) : string + list jobj :=
  match renderManifests path data with
  | inl e => inl ("failed to render SR-IOV Network Operator manifests: " +:+ e)
  | inr objs => inr objs
  end.

Definition plugin_data (state : gmap string bool) (dc : OperatorConfigCR) : RenderData :=
  assign
    [("Namespace", DvString Namespace);
     ("SRIOVDevicePluginImage", DvString (Getenv "SRIOV_DEVICE_PLUGIN_IMAGE"));
     ("SRIOVNetworkConfigDaemonImage", DvString (Getenv "SRIOV_NETWORK_CONFIG_DAEMON_IMAGE"));
     ("ReleaseVersion", DvString (Getenv "RELEASEVERSION"));
     ("ResourcePrefix", DvString ResourcePrefix);
     ("ImagePullSecrets", DvStrings GetImagePullSecrets);
     ("NodeSelectorField", DvMap (GetNodeSelectorForDevicePlugin (ocr_Spec dc)));
     ("UseCDI", DvBool (ocs_UseCDI (ocr_Spec dc)));
     ("BlockDevicePluginUntilConfigured", DvBool (IsEnabled state BlockDevicePluginUntilConfiguredFeatureGate))] ∅.

Definition syncPluginDaemonObjs (state : gmap string bool) (dc : OperatorConfigCR) : opM (option OpError) :=
  match renderDsForCR PluginPath (plugin_data state dc) with
  | inl e => Ret (Some (OpMsg e))
  | inr objs => op_each (syncDsObject dc) objs
  end.

(** ** The configuration daemon *)

Definition CNIBinPath : string :=
  if String.eqb (Getenv "SRIOV_CNI_BIN_PATH") "" then "/var/lib/cni/bin" else Getenv "SRIOV_CNI_BIN_PATH".

Definition config_daemon_data (state : gmap string bool) (dc : OperatorConfigCR) : RenderData :=
  assign
    ([("Image", DvString (Getenv "SRIOV_NETWORK_CONFIG_DAEMON_IMAGE"));
      ("Namespace", DvString Namespace);
      ("SRIOVCNIImage", DvString (Getenv "SRIOV_CNI_IMAGE"));
      ("SRIOVInfiniBandCNIImage", DvString (Getenv "SRIOV_INFINIBAND_CNI_IMAGE"));
      ("OVSCNIImage", DvString (Getenv "OVS_CNI_IMAGE"));
      ("RDMACNIImage", DvString (Getenv "RDMA_CNI_IMAGE"));
      ("ReleaseVersion", DvString (Getenv "RELEASEVERSION"));
      ("ClusterType", DvString varsClusterType);
      ("DevMode", DvString (Getenv "DEV_MODE"));
      ("UseExternalDrainer", DvBool UseExternalDrainer);
      ("ImagePullSecrets", DvStrings GetImagePullSecrets);
      ("UsedSystemdMode", DvBool (String.eqb (ocs_ConfigurationMode (ocr_Spec dc)) SystemdConfigurationMode));
      ("ParallelNicConfig", DvBool (IsEnabled state ParallelNicConfigFeatureGate));
      ("ManageSoftwareBridges", DvBool (IsEnabled state ManageSoftwareBridgesFeatureGate));
      ("CNIBinPath", DvString CNIBinPath)] ++
     (if bool_decide (ocs_DisablePlugins (ocr_Spec dc) = []) then []
      else [("DisablePlugins", DvString (Join (ocs_DisablePlugins (ocr_Spec dc)) ","))]) ++
     [("ConfigDaemonEnvVars", DvMap (ocs_ConfigDaemonEnvVars (ocr_Spec dc)))]) ∅.

Definition syncConfigDaemonObject (dc : OperatorConfigCR) (obj : jobj) : opM (option OpError) :=
  match (if String.eqb (uns_Kind obj) "DaemonSet"
         then updateDaemonsetNodeSelector obj (ocs_ConfigDaemonNodeSelector (ocr_Spec dc)) else inr obj) with
  | inl e => Ret (Some (OpMsg e))
  | inr obj => syncK8sResource dc obj
  end.

Definition syncConfigDaemonSet (state : gmap string bool) (dc : OperatorConfigCR) : opM (option OpError) :=
  match renderManifests ConfigDaemonPath (config_daemon_data state dc) with
  | inl e => Ret (Some (OpMsg e))
  | inr objs => op_each (syncConfigDaemonObject dc) objs
  end.

(** ** The metrics exporter *)

Definition metrics_data (dc : OperatorConfigCR) (tls : TLSConfig) : RenderData :=
  assign
    ([("Image", DvString (Getenv "METRICS_EXPORTER_IMAGE"));
      ("Namespace", DvString Namespace);
      ("ImagePullSecrets", DvStrings GetImagePullSecrets);
      ("MetricsExporterSecretName", DvString (Getenv "METRICS_EXPORTER_SECRET_NAME"));
      ("MetricsExporterPort", DvString (Getenv "METRICS_EXPORTER_PORT"));
      ("MetricsExporterKubeRbacProxyImage", DvString (Getenv "METRICS_EXPORTER_KUBE_RBAC_PROXY_IMAGE"));
      ("IsOpenshift", DvBool (String.eqb ClusterType ClusterTypeOpenshift));
      ("IsPrometheusOperatorInstalled", DvBool (envTrue "METRICS_EXPORTER_PROMETHEUS_OPERATOR_ENABLED"));
      ("PrometheusOperatorDeployRules", DvBool (envTrue "METRICS_EXPORTER_PROMETHEUS_DEPLOY_RULES"));
      ("PrometheusOperatorServiceAccount", DvString (Getenv "METRICS_EXPORTER_PROMETHEUS_OPERATOR_SERVICE_ACCOUNT"));
      ("PrometheusOperatorNamespace", DvString (Getenv "METRICS_EXPORTER_PROMETHEUS_OPERATOR_NAMESPACE"))] ++
     tls_data tls ++
     [("NodeSelectorField", DvMap (if ocr_SelectorGiven dc then ocs_ConfigDaemonNodeSelector (ocr_Spec dc)
                                   else GetDefaultNodeSelector))]) ∅.

Definition syncMetricsExporter (state : gmap string bool) (dc : OperatorConfigCR) : opM (option OpError) :=
  t ← getTLSTemplateData;
  match t with
  | inl e => Ret (Some e)
  | inr tls =>
      match renderManifests MetricsExporterPath (metrics_data dc tls) with
      | inl e => Ret (Some (OpMsg e))
      | inr objs =>
          if IsEnabled state MetricsExporterFeatureGate then op_each (syncK8sResource dc) objs
          else deleteK8sResources objs
      end
  end.

(** ** The webhooks *)

Definition orDefault (v d : string) : string := if String.eqb v "" then d else v.

Definition externalControlPlane : bool :=
  String.eqb ClusterType ClusterTypeOpenshift && String.eqb Flavor ClusterFlavorHypershift.

Definition webhook_data (state : gmap string bool) (tls : TLSConfig) (name : string) : RenderData :=
  assign
    ([("Namespace", DvString Namespace);
      ("SRIOVMutatingWebhookName", DvString name);
      ("NetworkResourcesInjectorImage", DvString (Getenv "NETWORK_RESOURCES_INJECTOR_IMAGE"));
      ("SriovNetworkWebhookImage", DvString (Getenv "SRIOV_NETWORK_WEBHOOK_IMAGE"));
      ("ReleaseVersion", DvString (Getenv "RELEASEVERSION"));
      ("ClusterType", DvString varsClusterType);
      ("DevMode", DvString (Getenv "DEV_MODE"));
      ("ImagePullSecrets", DvStrings GetImagePullSecrets);
      ("CertManagerEnabled", DvBool (envTrue "ADMISSION_CONTROLLERS_CERTIFICATES_CERT_MANAGER_ENABLED"));
      ("OperatorWebhookSecretName", DvString (Getenv "ADMISSION_CONTROLLERS_CERTIFICATES_OPERATOR_SECRET_NAME"));
      ("OperatorWebhookCA", DvString (Getenv "ADMISSION_CONTROLLERS_CERTIFICATES_OPERATOR_CA_CRT"));
      ("InjectorWebhookSecretName", DvString (Getenv "ADMISSION_CONTROLLERS_CERTIFICATES_INJECTOR_SECRET_NAME"));
      ("InjectorWebhookCA", DvString (Getenv "ADMISSION_CONTROLLERS_CERTIFICATES_INJECTOR_CA_CRT"));
      ("OperatorWebhookNetworkPolicyPort", DvString (orDefault (Getenv "OPERATOR_WEBHOOK_NETWORK_POLICY_PORT") "6443"));
      ("InjectorWebhookNetworkPolicyPort", DvString (orDefault (Getenv "INJECTOR_WEBHOOK_NETWORK_POLICY_PORT") "6443"));
      ("ExternalControlPlane", DvBool externalControlPlane);
      (ResourceInjectorMatchConditionFeatureGate, DvBool (IsEnabled state ResourceInjectorMatchConditionFeatureGate))] ++
     tls_data tls) ∅.

(** Whether the webhook of a directory is switched off. *)
Definition webhookDisabled (dc : OperatorConfigCR) (path : string) : bool :=
  negb (ocs_EnableInjector (ocr_Spec dc)) && String.eqb path InjectorWebHookPath ||
  negb (ocs_EnableOperatorWebhook (ocr_Spec dc)) && String.eqb path OperatorWebHookPath.

Definition syncWebhook (state : gmap string bool) (dc : OperatorConfigCR) (tls : TLSConfig) (w : string * string)
    : opM (option OpError) :=
  match renderManifests w.2 (webhook_data state tls w.1) with
  | inl e => Ret (Some (OpMsg e))
  | inr objs =>
      if webhookDisabled dc w.2 then op_each deleteWebhookObject objs
      else op_each (syncK8sResource dc) objs
  end.

Definition syncWebhookObjs (state : gmap string bool) (dc : OperatorConfigCR) : opM (option OpError) :=
  t ← getTLSTemplateData;
  match t with
  | inl e => Ret (Some e)
  | inr tls => op_each (syncWebhook state dc tls) webhook_order
  end.

(** A webhook configuration, by its kind and name. *)
Definition webhookConfiguration (kind name : string) : jobj :=
  [("apiVersion", JStr "admissionregistration.k8s.io/v1"); ("kind", JStr kind);
   ("metadata", JObj [("name", JStr name)])].

(** Every deletion is tried. *)
Definition deleteAllWebhooks : opM (option OpError) :=
  e1 ← deleteWebhookObject (webhookConfiguration "MutatingWebhookConfiguration" OperatorWebHookName);
  e2 ← deleteWebhookObject (webhookConfiguration "ValidatingWebhookConfiguration" OperatorWebHookName);
  e3 ← deleteWebhookObject (webhookConfiguration "MutatingWebhookConfiguration" InjectorWebHookName);
  Ret (errors_Join (errors_Join e1 e2) e3).

(** ** The systemd service on OpenShift *)

Definition labelMachineConfig (cr : OperatorConfigCR) (obj : jobj) : string + jobj :=
  if String.eqb (uns_Kind obj) "MachineConfig" && negb (bool_decide (ocs_ConfigDaemonNodeSelector (ocr_Spec cr) = ∅)) then
    match ToControllerConfig obj with
    | inl e => inl e
    | inr mc => FromControllerConfig (mkControllerConfig (ocs_ConfigDaemonNodeSelector (ocr_Spec cr)) (cc_Rest mc))
    end
  else inr obj.

Definition setLabelInsideObject (cr : OperatorConfigCR) (objs : list jobj) : opM (option OpError) :=
  op_each (λ obj, match labelMachineConfig cr obj with
                  | inl e => Ret (Some (OpMsg e))
                  | inr obj => syncK8sResource cr obj
                  end) objs.

Definition syncOpenShiftSystemdService (cr : OperatorConfigCR) : opM (option OpError) :=
  if negb (String.eqb (ocs_ConfigurationMode (ocr_Spec cr)) SystemdConfigurationMode) then
    r ← perform (GetMachineConfigObj SystemdServiceOcpMachineConfigName);
    match r with
    | Some e => Ret (if IsNotFound e then None else Some (OpKube e))
    | None => d ← perform (DeleteMachineConfig SystemdServiceOcpMachineConfigName); Ret (option_map OpKube d)
    end
  else
    match renderManifests SystemdServiceOcpPath (assign [("LogLevel", DvInt (ocs_LogLevel (ocr_Spec cr)))] ∅) with
    | inl e => Ret (Some (OpMsg e))
    | inr objs => setLabelInsideObject cr objs
    end.

(** ** Finalizers *)

(** The configuration as it is afterwards. *)
Definition syncOperatorConfigFinalizers (defaultConfig : OperatorConfigCR) : opM (OperatorConfigCR * option OpError) :=
  if StringInArray OPERATORCONFIGFINALIZERNAME (ocr_Finalizers defaultConfig) then Ret (defaultConfig, None)
  else
    p ← perform (PatchConfig defaultConfig
                   (ocr_set_Finalizers (ocr_Finalizers defaultConfig ++ [OPERATORCONFIGFINALIZERNAME]) defaultConfig));
    match p with
    | Some e => Ret (defaultConfig, Some (OpWrap ("can't patch SriovOperatorConfig to add finalizer [" +:+
                      OPERATORCONFIGFINALIZERNAME +:+ "]") (OpKube e)))
    | None =>
        g ← perform (GetConfig (om_Namespace (ocr_meta defaultConfig)) (om_Name (ocr_meta defaultConfig)));
        Ret (match g with
             | inl e => (defaultConfig, Some (OpKube e))
             | inr c => (c, None)
             end)
    end.

Definition handleSriovOperatorConfigDeletion (defaultConfig : OperatorConfigCR) : opM (option OpError) :=
  if StringInArray OPERATORCONFIGFINALIZERNAME (ocr_Finalizers defaultConfig) then
    op_then deleteAllWebhooks
      (u ← perform (UpdateConfig (ocr_set_Finalizers
                      (fst (RemoveString OPERATORCONFIGFINALIZERNAME (ocr_Finalizers defaultConfig))) defaultConfig));
       Ret (option_map OpKube u))
  else Ret None.

(** ** The reconciliation *)

Definition readyCondition (config : OperatorConfigCR) (reconcileErr : option OpError) : Condition :=
  match reconcileErr with
  | None => mkCond ConditionReady ConditionTrue ReasonOperatorConfigReady
              "SriovOperatorConfig reconciled successfully" (om_Generation (ocr_meta config))
  | Some e => mkCond ConditionReady ConditionFalse
                (if isHypershiftError e then ReasonUnsupportedConfiguration else ReasonOperatorConfigSyncFailed)
                (OpError_Error e) (om_Generation (ocr_meta config))
  end.

Definition applyReadyCondition (config : OperatorConfigCR) (reconcileErr : option OpError) : opM (option OpError) :=
  r ← ApplyCondition (F := unit) (resp := OpResp) (λ m _ cs, perform (ApplyOpStatus m cs))
        (λ m t reason message, perform (OpEvent m t reason message)) recorder tt
        (ocr_meta config) (ocr_Conditions config) [readyCondition config reconcileErr];
  Ret (match r with
       | Some e => if IsNotFound e then None else Some (OpKube e)
       | None => None
       end).

(** Everything the operator deploys, in order. *)
Definition deployAll (state : gmap string bool) (defaultConfig : OperatorConfigCR) : opM (option OpError) :=
  op_then (syncWebhookObjs state defaultConfig)
  (op_then (syncConfigDaemonSet state defaultConfig)
  (op_then (syncPluginDaemonObjs state defaultConfig)
  (op_then (syncMetricsExporter state defaultConfig)
    (if String.eqb ClusterType ClusterTypeOpenshift then
       if String.eqb (ocs_ConfigurationMode (ocr_Spec defaultConfig)) SystemdConfigurationMode &&
          String.eqb Flavor ClusterFlavorHypershift
       then Ret (Some OpHypershift)
       else syncOpenShiftSystemdService defaultConfig
     else Ret None)))).

(** From the configuration that was read on: the configuration at the end,
    whether to come back after the resync period, and the error.  The policies
    are listed and sorted but not used. *)
Definition reconcileConfig (defaultConfig : OperatorConfigCR) : opM (OperatorConfigCR * bool * option OpError) :=
  if ocr_Deleting defaultConfig then
    err ← handleSriovOperatorConfigDeletion defaultConfig; Ret (defaultConfig, false, err)
  else
    '(config, err) ← syncOperatorConfigFinalizers defaultConfig;
    match err with
    | Some e => Ret (config, false, Some e)
    | None =>
        l ← perform ListPolicies;
        match l with
        | inl e => Ret (config, false, Some (OpKube e))
        | inr _ =>
            err ← deployAll (Init DefaultFeatureStates (ocs_FeatureGates (ocr_Spec config))) config;
            Ret (config, bool_decide (err = None), err)
        end
    end.

Definition Reconcile (ns name : string) : opM (bool * option OpError) :=
  r ← perform (GetConfig ns name);
  match r with
  | inl e => Ret (false, if IsNotFound e then None else Some (OpKube e))
  | inr defaultConfig =>
      '(config, requeue, err) ← reconcileConfig defaultConfig;
      conditionErr ← applyReadyCondition config err;
      Ret (requeue, errors_Join err conditionErr)
  end.
End controller.
