(* ===== verification/OperatorConfigSpec.v ===== *)
(** * What the operator configuration controller promises

    Over the histories of its calls: Ready is reported only when everything that
    is switched on was applied and everything switched off was deleted, and the
    finalizer goes only after the webhooks are gone. *)
From S2P Require Import Prelude GoLib Types Selector Conditions Effects Kube Json Merge Render Tls Orchestrator OperatorConfig.

Abbreviation history := (list (event OpResp)).

Definition asked (r : OpReq) (x : OpResp r) : event OpResp := existT r x.

(** ** Facts that stay true as the history grows *)

Class Mono (P : history → Prop) := mono : ∀ h h', extends h h' → P h → P h'.

Lemma mono_elem e : Mono (λ h, e ∈ h).
Proof. intros h h' He. apply He. Qed.
Lemma mono_const P : Mono (λ _, P).
Proof. by intros h h' _. Qed.
Lemma mono_and P Q `{!Mono P, !Mono Q} : Mono (λ h, P h ∧ Q h).
Proof. intros h h' He [H1 H2]. split; by eapply mono. Qed.
Lemma mono_or P Q `{!Mono P, !Mono Q} : Mono (λ h, P h ∨ Q h).
Proof. intros h h' He [H1|H1]; [left|right]; by eapply mono. Qed.
Lemma mono_exist {A} (P : A → history → Prop) `{!∀ a, Mono (P a)} : Mono (λ h, ∃ a, P a h).
Proof. intros h h' He [a H1]. exists a. by eapply mono. Qed.
Lemma mono_forall {A} (P : A → history → Prop) `{!∀ a, Mono (P a)} : Mono (λ h, ∀ a, P a h).
Proof. intros h h' He H1 a. by eapply mono. Qed.
Lemma mono_if (b : bool) P Q `{!Mono P, !Mono Q} : Mono (λ h, if b then P h else Q h).
Proof. by destruct b. Qed.

(** Follow the connectives. *)
Ltac mono_step :=
  first [apply mono_const | apply mono_elem | apply mono_and | apply mono_or | apply mono_exist; intros ?
        | apply mono_forall; intros ? | apply mono_if].
#[export] Hint Extern 2 (Mono _) => mono_step : typeclass_instances.

(** The object is not in the cluster, or was deleted. *)
Definition deleted (obj : jobj) (h : history) : Prop :=
  asked (GetObj obj) (inl ErrNotFound) ∈ h ∨
  ∃ existing, asked (GetObj obj) (inr existing) ∈ h ∧ asked (DeleteObj existing) None ∈ h.

(** The object was created, updated after the merge with what was there, or
    found as it should be. *)
Definition applied (obj : jobj) (h : history) : Prop :=
  (asked (GetObj obj) (inl ErrNotFound) ∈ h ∧ asked (CreateObj obj) None ∈ h) ∨
  ∃ existing u, asked (GetObj obj) (inr existing) ∈ h ∧ MergeObjectForUpdate existing obj = Ok u ∧
    (jeq (JObj existing) (JObj u) = true ∨ asked (UpdateObj u) None ∈ h).

#[export] Instance deleted_mono obj : Mono (deleted obj).
Proof. unfold deleted. exact _. Qed.
#[export] Instance applied_mono obj : Mono (applied obj).
Proof. unfold applied. exact _. Qed.

(** ** Stages *)

Section stages.
(** What is allowed; everything but the two requests the theorems are about. *)
Context (G : history → OpReq → Prop).
Context (G_ok : ∀ h r, match r with UpdateConfig _ | ApplyOpStatus _ _ => True | _ => G h r end).

Abbreviation hw p Q h := (wp (history_world OpResp) G p Q h).

(** A stage that, if it reports no error, has established [P]. *)
Definition stage (p : opM (option OpError)) (P : history → Prop) : Prop :=
  ∀ h, hw p (λ r h', extends h h' ∧ (r = None → P h')) h.

Lemma stage_fail e P : stage (Ret (Some e)) P.
Proof using Type. intros h. by split. Qed.

Lemma stage_done (P : history → Prop) : (∀ h, P h) → stage (Ret None) P.
Proof using Type. intros H h. by split. Qed.

Lemma stage_weaken p (P Q : history → Prop) : stage p P → (∀ h, P h → Q h) → stage p Q.
Proof using Type. intros Hp H h. eapply wp_post; [apply Hp|]. cbn. intros r h' [H1 H2]. split; [done|]. intros E. by apply H, H2. Qed.

Lemma stage_then p k P Q `{!Mono P} : stage p P → stage k Q → stage (op_then p k) (λ h, P h ∧ Q h).
Proof using Type.
  intros Hp Hk h. unfold op_then. apply wp_bind. eapply wp_post; [apply Hp|]. cbn beta. intros [e|] h1 [H1 H2]; [by split|].
  eapply wp_post; [apply Hk|]. cbn beta. intros r h2 [H3 H4]. split; [by transitivity h1|].
  intros E. split; [|by apply H4]. eapply mono; [exact H3|by apply H2].
Qed.

Lemma stage_each {A} (f : A → opM (option OpError)) (P : A → history → Prop) `{!∀ x, Mono (P x)} l :
  (∀ x, stage (f x) (P x)) → stage (op_each f l) (λ h, ∀ x, x ∈ l → P x h).
Proof using Type.
  intros Hf. induction l as [|x l IH]; [apply stage_done; intros h x Hx; by apply not_elem_of_nil in Hx|].
  eapply stage_weaken; [apply (stage_then (f x) (op_each f l) (P x)); [exact _|apply Hf|exact IH]|].
  cbn beta. intros h [H1 H2] y [->|Hy]%elem_of_cons; [done|by apply H2].
Qed.

(** The same with what follows from it. *)
Lemma stage_all {A} (f : A → opM (option OpError)) (P : A → history → Prop) `{!∀ x, Mono (P x)} l (Q : history → Prop) :
  (∀ x, stage (f x) (P x)) → (∀ h, (∀ x, x ∈ l → P x h) → Q h) → stage (op_each f l) Q.
Proof using Type. intros Hf HQ. eapply stage_weaken; [by apply stage_each|exact HQ]. Qed.

(** A call with its answer on record. *)
Lemma hw_request (r : OpReq) {A} (k : OpResp r → opM A) Q h :
  match r with UpdateConfig _ | ApplyOpStatus _ _ => False | _ => True end →
  (∀ x h', extends h h' → asked r x ∈ h' → hw (k x) Q h') → hw (perform r ≫= k) Q h.
Proof using G_ok.
  intros Hr Hk. apply wp_perform; [specialize (G_ok h r); by destruct r|]. intros x h' ->.
  apply Hk; [apply extends_snoc|set_solver].
Qed.

(** ** Single objects *)

Lemma stage_delete obj : stage (deleteK8sResource obj) (deleted obj).
Proof using G_ok.
  intros h. unfold deleteK8sResource, deleteManifest, DeleteObject.
  destruct (String.eqb _ _); [by split|]. destruct (IsObjectSupported obj); [|by split..].
  apply wp_bind, hw_request; [done|]. intros [e|existing] h1 E1 A1.
  - cbn. split; [done|]. unfold IsNotFound. case_bool_decide as E; [|done]. subst e. intros _. by left.
  - apply hw_request; [done|]. intros d h2 E2 A2. cbn. split; [by transitivity h1|].
    destruct d; [done|]. intros _. right. exists existing. split; [by apply E2|done].
Qed.

Lemma stage_apply obj : stage (r ← applyManifest obj; Ret (option_map OpApply r)) (applied obj).
Proof using G_ok.
  intros h. unfold applyManifest, ApplyObject.
  destruct (String.eqb _ _); [by split|]. destruct (IsObjectSupported obj); [|by split..].
  apply wp_bind, hw_request; [done|]. intros [e|existing] h1 E1 A1.
  - unfold IsNotFound. case_bool_decide as E; [subst e|by split]. apply hw_request; [done|]. intros c h2 E2 A2.
    cbn. split; [by transitivity h1|]. destruct c; [done|]. intros _. left. split; [by apply E2|done].
  - destruct (MergeObjectForUpdate existing obj) as [u| |] eqn:Em; [|by split..].
    destruct (jeq (JObj existing) (JObj u)) eqn:Ej.
    { cbn. split; [done|]. intros _. right. exists existing, u. auto. }
    apply hw_request; [done|]. intros c h2 E2 A2. cbn. split; [by transitivity h1|]. destruct c; [done|].
    intros _. right. exists existing, u. split; [by apply E2|auto].
Qed.
End stages.

Section deployment.
Context (Getenv : string → string) (Namespace : string) (varsClusterType : string).
Context (UseExternalDrainer : bool) (ResourcePrefix : string).
Context (ClusterType Flavor : string) (recorder : bool).
Context (manifests : string → list Entry).
Context (Decode : string → list (string + option jobj)) (ExecError : RenderData → list Tmpl → string).
Context (ToDaemonSet : jobj → string + DaemonSet) (FromDaemonSet : DaemonSet → string + jobj).
Context (ToControllerConfig : jobj → string + ControllerConfig) (FromControllerConfig : ControllerConfig → string + jobj).
Context (SetControllerReference : OperatorConfigCR → jobj → string + jobj).
Context (SetDaemonSetReference : OperatorConfigCR → DaemonSet → string + DaemonSet).
Context (DeepDerivative : DaemonSet → DaemonSet → bool).
Context (CipherSuite : string → option Z) (OpenSSLToIANA : string → option string).
Context (flagTLSVersion : string → option Z) (InsecureCipherSuites : list Z).
Context (webhook_order : list (string * string)).

Abbreviation render := (renderManifests manifests Decode ExecError).

(** ** When a manifest is in place *)

(** Applied, with the owner it should have. *)
Definition synced (cr : OperatorConfigCR) (obj : jobj) (h : history) : Prop :=
  ∃ obj', (if clusterScoped (uns_Kind obj) then inr obj else SetControllerReference cr obj) = inr obj' ∧ applied obj' h.

Definition daemon_synced (cr : OperatorConfigCR) (obj : jobj) (h : history) : Prop :=
  ∃ obj', (if String.eqb (uns_Kind obj) "DaemonSet"
           then updateDaemonsetNodeSelector ToDaemonSet FromDaemonSet obj (ocs_ConfigDaemonNodeSelector (ocr_Spec cr))
           else inr obj) = inr obj' ∧ synced cr obj' h.

(** The daemon set was created, updated, or had the owner and everything the
    manifest says. *)
Definition ds_synced (cr : OperatorConfigCR) (ds : DaemonSet) (h : history) : Prop :=
  ∃ ds', SetDaemonSetReference cr ds = inr ds' ∧
    ((asked (GetDaemonSet (ds_Namespace ds') (ds_Name ds')) (inl ErrNotFound) ∈ h ∧ asked (CreateDaemonSet ds') None ∈ h) ∨
     ∃ cur, asked (GetDaemonSet (ds_Namespace ds') (ds_Name ds')) (inr cur) ∈ h ∧
       ((ds_OwnerReferences ds' = ds_OwnerReferences cur ∧ DeepDerivative ds' cur = true) ∨
        asked (UpdateDaemonSet ds') None ∈ h)).

Definition plugin_synced (cr : OperatorConfigCR) (obj : jobj) (h : history) : Prop :=
  if bool_decide (uns_Kind obj ∈ ["ServiceAccount"; "Role"; "RoleBinding"])
  then ∃ obj', SetControllerReference cr obj = inr obj' ∧ applied obj' h
  else if String.eqb (uns_Kind obj) "DaemonSet" then ∃ ds, ToDaemonSet obj = inr ds ∧ ds_synced cr ds h
  else True.

(** The settings of the environment, unless the cluster has its own. *)
Definition tls_settled (tls : TLSConfig) (h : history) : Prop :=
  ∃ env cluster, envTLSConfig Getenv CipherSuite OpenSSLToIANA flagTLSVersion InsecureCipherSuites = inr env ∧
    asked GetClusterTLS (inr cluster) ∈ h ∧
    let t := match cluster with Some c => c | None => default (mkTLSConfig "" "" "") env end in
    tls_CipherSuites tls = tls_CipherSuites t ∧ tls_MinTLSVersion tls = tls_MinTLSVersion t ∧
    CurveNamesToIDs (tls_CurvePreferences t) = inr (tls_CurvePreferences tls).

#[local] Instance synced_mono cr obj : Mono (synced cr obj).
Proof. unfold synced. exact _. Qed.
#[local] Instance daemon_synced_mono cr obj : Mono (daemon_synced cr obj).
Proof. unfold daemon_synced. exact _. Qed.
#[local] Instance ds_synced_mono cr ds : Mono (ds_synced cr ds).
Proof. unfold ds_synced. exact _. Qed.
#[local] Instance plugin_synced_mono cr obj : Mono (plugin_synced cr obj).
Proof. unfold plugin_synced. exact _. Qed.
#[local] Instance tls_settled_mono tls : Mono (tls_settled tls).
Proof. unfold tls_settled. exact _. Qed.

Definition webhooks_deployed (state : gmap string bool) (cr : OperatorConfigCR) (h : history) : Prop :=
  ∃ tls, tls_settled tls h ∧ ∀ w, webhooks !! w.1 = Some w.2 →
    ∃ objs, render w.2 (webhook_data Getenv Namespace varsClusterType ClusterType Flavor state tls w.1) = inr objs ∧
      ∀ obj, obj ∈ objs → if webhookDisabled cr w.2 then deleted obj h else synced cr obj h.

Definition daemon_deployed (state : gmap string bool) (cr : OperatorConfigCR) (h : history) : Prop :=
  ∃ objs, render ConfigDaemonPath (config_daemon_data Getenv Namespace varsClusterType UseExternalDrainer state cr) = inr objs ∧
    ∀ obj, obj ∈ objs → daemon_synced cr obj h.

Definition plugin_deployed (state : gmap string bool) (cr : OperatorConfigCR) (h : history) : Prop :=
  ∃ objs, render PluginPath (plugin_data Getenv Namespace ResourcePrefix state cr) = inr objs ∧
    ∀ obj, obj ∈ objs → plugin_synced cr obj h.

Definition metrics_deployed (state : gmap string bool) (cr : OperatorConfigCR) (h : history) : Prop :=
  ∃ tls objs, tls_settled tls h ∧ render MetricsExporterPath (metrics_data Getenv Namespace ClusterType cr tls) = inr objs ∧
    ∀ obj, obj ∈ objs → if IsEnabled state MetricsExporterFeatureGate then synced cr obj h else deleted obj h.

(** On OpenShift: the machine configuration of the systemd service is there in
    systemd mode only, and there is no systemd mode on hypershift. *)
Definition service_deployed (cr : OperatorConfigCR) (h : history) : Prop :=
  ClusterType = ClusterTypeOpenshift →
  if String.eqb (ocs_ConfigurationMode (ocr_Spec cr)) SystemdConfigurationMode then
    Flavor ≠ ClusterFlavorHypershift ∧
    ∃ objs, render SystemdServiceOcpPath (assign [("LogLevel", DvInt (ocs_LogLevel (ocr_Spec cr)))] ∅) = inr objs ∧
      ∀ obj, obj ∈ objs → ∃ obj', labelMachineConfig ToControllerConfig FromControllerConfig cr obj = inr obj' ∧ synced cr obj' h
  else asked (GetMachineConfigObj SystemdServiceOcpMachineConfigName) (Some ErrNotFound) ∈ h ∨
       asked (DeleteMachineConfig SystemdServiceOcpMachineConfigName) None ∈ h.

Definition deployed (cr : OperatorConfigCR) (h : history) : Prop :=
  let state := Init DefaultFeatureStates (ocs_FeatureGates (ocr_Spec cr)) in
  webhooks_deployed state cr h ∧ daemon_deployed state cr h ∧ plugin_deployed state cr h ∧ metrics_deployed state cr h ∧
  service_deployed cr h.

#[local] Instance webhooks_deployed_mono state cr : Mono (webhooks_deployed state cr).
Proof. unfold webhooks_deployed. exact _. Qed.
#[local] Instance daemon_deployed_mono state cr : Mono (daemon_deployed state cr).
Proof. unfold daemon_deployed. exact _. Qed.
#[local] Instance plugin_deployed_mono state cr : Mono (plugin_deployed state cr).
Proof. unfold plugin_deployed. exact _. Qed.
#[local] Instance metrics_deployed_mono state cr : Mono (metrics_deployed state cr).
Proof. unfold metrics_deployed. exact _. Qed.
#[local] Instance service_deployed_mono cr : Mono (service_deployed cr).
Proof. unfold service_deployed. exact _. Qed.

Lemma deployed_mono cr : Mono (deployed cr).
Proof. unfold deployed. exact _. Qed.

(** ** The operations establish it *)

Context (G : history → OpReq → Prop).
Context (G_ok : ∀ h r, match r with UpdateConfig _ | ApplyOpStatus _ _ => True | _ => G h r end).
(** Every webhook is visited. *)
Context (order_ok : webhook_order ≡ₚ map_to_list webhooks).

Lemma stage_sync cr obj : stage G (syncK8sResource SetControllerReference cr obj) (synced cr obj).
Proof using G_ok.
  unfold syncK8sResource, synced. destruct (if clusterScoped _ then _ else _) as [e|obj'] eqn:E; [apply stage_fail|].
  eapply stage_weaken; [by apply stage_apply|]. intros h H. by exists obj'.
Qed.

Lemma stage_config_daemon_object cr obj :
  stage G (syncConfigDaemonObject ToDaemonSet FromDaemonSet SetControllerReference cr obj) (daemon_synced cr obj).
Proof using G_ok.
  unfold syncConfigDaemonObject, daemon_synced. destruct (if String.eqb _ _ then _ else _) as [e|obj'] eqn:E; [apply stage_fail|].
  eapply stage_weaken; [apply stage_sync|]. intros h H. by exists obj'.
Qed.

Lemma stage_daemon_set cr ds : stage G (syncDaemonSet SetDaemonSetReference DeepDerivative cr ds) (ds_synced cr ds).
Proof using G_ok.
  unfold syncDaemonSet, ds_synced. destruct (SetDaemonSetReference cr ds) as [e|ds']; [apply stage_fail|].
  intros h. apply hw_request; [done..|]. intros [e|cur] h1 E1 A1.
  - unfold IsNotFound. case_bool_decide as E; [subst e|by split]. apply hw_request; [done..|]. intros c h2 E2 A2.
    cbn. split; [by transitivity h1|]. destruct c; [done|]. intros _. exists ds'. split; [done|]. left. split; [by apply E2|done].
  - destruct (bool_decide _ && _) eqn:Eb.
    { cbn. split; [done|]. intros _. exists ds'. split; [done|]. right. exists cur. split; [done|].
      apply andb_true_iff in Eb as [Eb1%bool_decide_eq_true Eb2]. by left. }
    apply hw_request; [done..|]. intros c h2 E2 A2. cbn. split; [by transitivity h1|]. destruct c; [done|].
    intros _. exists ds'. split; [done|]. right. exists cur. split; [by apply E2|by right].
Qed.

Lemma stage_plugin_object cr obj :
  stage G (syncDsObject ToDaemonSet SetControllerReference SetDaemonSetReference DeepDerivative cr obj) (plugin_synced cr obj).
Proof using G_ok.
  unfold syncDsObject, plugin_synced. case_bool_decide.
  { destruct (SetControllerReference cr obj) as [e|obj']; [apply stage_fail|].
    eapply stage_weaken; [by apply stage_apply|]. intros h H'. by exists obj'. }
  destruct (String.eqb _ _); [|by apply stage_done]. destruct (ToDaemonSet obj) as [e|ds]; [apply stage_fail|].
  eapply stage_weaken; [apply stage_daemon_set|]. intros h H'. by exists ds.
Qed.

Abbreviation tls_data_of :=
  (getTLSTemplateData Getenv CipherSuite OpenSSLToIANA flagTLSVersion InsecureCipherSuites).

(** A stage that starts with the TLS settings. *)
Lemma stage_tls (k : TLSConfig → opM (option OpError)) P `{!Mono P} :
  (∀ tls, stage G (k tls) (λ h, tls_settled tls h → P h)) →
  stage G (tls_data_of ≫= λ t, match t with inl e => Ret (Some e) | inr tls => k tls end) P.
Proof using G_ok.
  intros Hk h. unfold getTLSTemplateData. destruct (envTLSConfig _ _ _ _ _) as [e|env] eqn:Ee; [by split|].
  apply wp_bind, hw_request; [done..|]. intros [e|cluster] h1 E1 A1; [by split|].
  destruct (CurveNamesToIDs _) as [e|ids] eqn:Ec; [by split|]. apply wp_ret.
  eapply wp_post; [apply Hk|]. cbn beta. intros r h2 [E2 H2]. split; [by transitivity h1|]. intros Hr.
  apply H2; [done|]. exists env, cluster. split; [done|]. split; [by apply E2|done].
Qed.

Lemma stage_webhooks state cr :
  stage G (syncWebhookObjs Getenv Namespace varsClusterType ClusterType Flavor manifests Decode ExecError
    SetControllerReference CipherSuite OpenSSLToIANA flagTLSVersion InsecureCipherSuites webhook_order state cr)
    (webhooks_deployed state cr).
Proof using G_ok order_ok.
  unfold syncWebhookObjs. apply stage_tls; [exact _|]. intros tls.
  apply (stage_all G _ (λ w h, ∃ objs,
    render w.2 (webhook_data Getenv Namespace varsClusterType ClusterType Flavor state tls w.1) = inr objs ∧
    ∀ obj, obj ∈ objs → if webhookDisabled cr w.2 then deleted obj h else synced cr obj h)).
  - intros w. unfold syncWebhook. destruct (render w.2 _) as [e|objs]; [apply stage_fail|].
    destruct (webhookDisabled cr w.2); [apply (stage_all G _ deleted)|apply (stage_all G _ (synced cr))].
    1: intros x; by apply stage_delete. 2: intros x; apply stage_sync. all: intros h H; by exists objs.
  - cbn beta. intros h H Ht. exists tls. split; [done|]. intros [name path] Hw. apply H. rewrite order_ok.
    by apply elem_of_map_to_list.
Qed.

Lemma stage_config_daemon state cr :
  stage G (syncConfigDaemonSet Getenv Namespace varsClusterType UseExternalDrainer manifests Decode ExecError
    ToDaemonSet FromDaemonSet SetControllerReference state cr) (daemon_deployed state cr).
Proof using G_ok.
  unfold syncConfigDaemonSet, daemon_deployed. destruct (render ConfigDaemonPath _) as [e|objs]; [apply stage_fail|].
  apply (stage_all G _ (daemon_synced cr)); [apply stage_config_daemon_object|]. intros h H. by exists objs.
Qed.

Lemma stage_plugin state cr :
  stage G (syncPluginDaemonObjs Getenv Namespace ResourcePrefix manifests Decode ExecError ToDaemonSet
    SetControllerReference SetDaemonSetReference DeepDerivative state cr) (plugin_deployed state cr).
Proof using G_ok.
  unfold syncPluginDaemonObjs, plugin_deployed, renderDsForCR. destruct (render PluginPath _) as [e|objs]; [apply stage_fail|].
  apply (stage_all G _ (plugin_synced cr)); [apply stage_plugin_object|]. intros h H. by exists objs.
Qed.

Lemma stage_metrics state cr :
  stage G (syncMetricsExporter Getenv Namespace ClusterType manifests Decode ExecError SetControllerReference
    CipherSuite OpenSSLToIANA flagTLSVersion InsecureCipherSuites state cr) (metrics_deployed state cr).
Proof using G_ok.
  unfold syncMetricsExporter. apply stage_tls; [exact _|]. intros tls. unfold metrics_deployed.
  destruct (render MetricsExporterPath _) as [e|objs] eqn:E; [apply stage_fail|].
  destruct (IsEnabled _ _); [apply (stage_all G _ (synced cr))|apply (stage_all G _ deleted)].
  1: intros x; apply stage_sync. 2: intros x; by apply stage_delete. all: intros h H Ht; by exists tls, objs.
Qed.

Lemma stage_service cr :
  ClusterType = ClusterTypeOpenshift →
  stage G (if String.eqb (ocs_ConfigurationMode (ocr_Spec cr)) SystemdConfigurationMode &&
              String.eqb Flavor ClusterFlavorHypershift then Ret (Some OpHypershift)
           else syncOpenShiftSystemdService manifests Decode ExecError ToControllerConfig FromControllerConfig
                  SetControllerReference cr) (service_deployed cr).
Proof using G_ok.
  intros Ho. unfold service_deployed, syncOpenShiftSystemdService.
  destruct (String.eqb _ SystemdConfigurationMode); cbn [andb negb].
  - destruct (String.eqb_spec Flavor ClusterFlavorHypershift) as [|Hf]; [apply stage_fail|].
    destruct (render SystemdServiceOcpPath _) as [e|objs]; [apply stage_fail|].
    apply (stage_all G _ (λ obj h, ∃ obj',
      labelMachineConfig ToControllerConfig FromControllerConfig cr obj = inr obj' ∧ synced cr obj' h)).
    + intros obj. destruct (labelMachineConfig _ _ cr obj) as [e|obj']; [apply stage_fail|].
      eapply stage_weaken; [apply stage_sync|]. intros h H. by exists obj'.
    + intros h H _. split; [done|]. by exists objs.
  - intros h. apply hw_request; [done..|]. intros [e|] h1 E1 A1.
    + cbn. split; [done|]. unfold IsNotFound. case_bool_decide as E; [subst e|done]. intros _ _. by left.
    + apply hw_request; [done..|]. intros d h2 E2 A2. cbn. split; [by transitivity h1|]. destruct d; [done|]. intros _ _. by right.
Qed.

Abbreviation deploy_all := (deployAll Getenv Namespace varsClusterType UseExternalDrainer ResourcePrefix ClusterType Flavor
  manifests Decode ExecError ToDaemonSet FromDaemonSet ToControllerConfig FromControllerConfig SetControllerReference
  SetDaemonSetReference DeepDerivative CipherSuite OpenSSLToIANA flagTLSVersion InsecureCipherSuites webhook_order).

Lemma stage_deploy cr :
  stage G (deploy_all (Init DefaultFeatureStates (ocs_FeatureGates (ocr_Spec cr))) cr) (deployed cr).
Proof using G_ok order_ok.
  unfold deployAll, deployed. cbv zeta.
  repeat (apply stage_then; [exact _|first [apply stage_webhooks|apply stage_config_daemon|apply stage_plugin|apply stage_metrics]|]).
  destruct (String.eqb_spec ClusterType ClusterTypeOpenshift) as [Ho|Ho]; [by apply stage_service|]. apply stage_done. intros h ?. done.
Qed.

(** ** Deletion *)

Definition webhooks_gone (h : history) : Prop :=
  deleted (webhookConfiguration "MutatingWebhookConfiguration" OperatorWebHookName) h ∧
  deleted (webhookConfiguration "ValidatingWebhookConfiguration" OperatorWebHookName) h ∧
  deleted (webhookConfiguration "MutatingWebhookConfiguration" InjectorWebHookName) h.

Lemma stage_deleteAllWebhooks : stage G deleteAllWebhooks webhooks_gone.
Proof using G_ok.
  intros h. unfold deleteAllWebhooks, deleteWebhookObject.
  apply wp_bind. eapply wp_post; [by apply stage_delete|]. cbn beta. intros e1 h1 [E1 D1].
  apply wp_bind. eapply wp_post; [by apply stage_delete|]. cbn beta. intros e2 h2 [E2 D2].
  apply wp_bind. eapply wp_post; [by apply stage_delete|]. cbn beta. intros e3 h3 [E3 D3].
  apply wp_ret. split; [by transitivity h2; [transitivity h1|]|].
  destruct e1, e2, e3; try done. intros _. split_and!.
  - eapply mono; [|by apply D1]. by transitivity h2.
  - eapply mono; [exact E3|by apply D2].
  - by apply D3.
Qed.

(** ** The reconciliation *)

(** A configuration that was read is in place, or its deletion is dealt
    with. *)
Definition settled (h : history) : Prop :=
  ∃ ns name cr, asked (GetConfig ns name) (inr cr) ∈ h ∧
    (deployed cr h ∨
     ocr_Deleting cr = true ∧ (StringInArray OPERATORCONFIGFINALIZERNAME (ocr_Finalizers cr) = true → webhooks_gone h)).

(** Ready is written as true only then, and the finalizer is taken away only
    after the webhooks. *)
Definition operator_allowed (h : history) (r : OpReq) : Prop :=
  match r with
  | ApplyOpStatus _ cs => (∃ c, c ∈ cs ∧ c_Status c = ConditionTrue) → settled h
  | UpdateConfig _ => webhooks_gone h
  | _ => True
  end.
End deployment.

Section reconcile.
Context (Getenv : string → string) (Namespace : string) (varsClusterType : string).
Context (UseExternalDrainer : bool) (ResourcePrefix : string).
Context (ClusterType Flavor : string) (recorder : bool).
Context (manifests : string → list Entry).
Context (Decode : string → list (string + option jobj)) (ExecError : RenderData → list Tmpl → string).
Context (ToDaemonSet : jobj → string + DaemonSet) (FromDaemonSet : DaemonSet → string + jobj).
Context (ToControllerConfig : jobj → string + ControllerConfig) (FromControllerConfig : ControllerConfig → string + jobj).
Context (SetControllerReference : OperatorConfigCR → jobj → string + jobj).
Context (SetDaemonSetReference : OperatorConfigCR → DaemonSet → string + DaemonSet).
Context (DeepDerivative : DaemonSet → DaemonSet → bool).
Context (CipherSuite : string → option Z) (OpenSSLToIANA : string → option string).
Context (flagTLSVersion : string → option Z) (InsecureCipherSuites : list Z).
Context (webhook_order : list (string * string)).
Context (order_ok : webhook_order ≡ₚ map_to_list webhooks).

Abbreviation all_deployed := (deployed Getenv Namespace varsClusterType UseExternalDrainer ResourcePrefix ClusterType Flavor
  manifests Decode ExecError ToDaemonSet FromDaemonSet ToControllerConfig FromControllerConfig SetControllerReference
  SetDaemonSetReference DeepDerivative CipherSuite OpenSSLToIANA flagTLSVersion InsecureCipherSuites).
Abbreviation all_settled := (settled Getenv Namespace varsClusterType UseExternalDrainer ResourcePrefix ClusterType Flavor
  manifests Decode ExecError ToDaemonSet FromDaemonSet ToControllerConfig FromControllerConfig SetControllerReference
  SetDaemonSetReference DeepDerivative CipherSuite OpenSSLToIANA flagTLSVersion InsecureCipherSuites).
Abbreviation allowed := (operator_allowed Getenv Namespace varsClusterType UseExternalDrainer ResourcePrefix ClusterType Flavor
  manifests Decode ExecError ToDaemonSet FromDaemonSet ToControllerConfig FromControllerConfig SetControllerReference
  SetDaemonSetReference DeepDerivative CipherSuite OpenSSLToIANA flagTLSVersion InsecureCipherSuites).
Abbreviation hw p Q h := (wp (history_world OpResp) allowed p Q h).

Lemma allowed_ok h r : match r with UpdateConfig _ | ApplyOpStatus _ _ => True | _ => allowed h r end.
Proof. by destruct r. Qed.

Lemma preserve_status old l : c_Status <$> preserveTransitionTimes old l = c_Status <$> l.
Proof.
  unfold preserveTransitionTimes. rewrite <- list_fmap_compose. apply list_fmap_ext. intros i c _. cbn. by repeat case_match.
Qed.

Lemma deletion_spec cr :
  stage allowed (handleSriovOperatorConfigDeletion cr)
    (λ h, StringInArray OPERATORCONFIGFINALIZERNAME (ocr_Finalizers cr) = true → webhooks_gone h).
Proof using Type.
  unfold handleSriovOperatorConfigDeletion. destruct (StringInArray _ _); [|by apply stage_done].
  intros h. unfold op_then. apply wp_bind. eapply wp_post; [apply stage_deleteAllWebhooks, allowed_ok|]. cbn beta.
  intros [e|] h1 [E1 D1]; [by split|]. apply wp_perform; [by apply D1|]. intros u h2 ->. cbn.
  split; [transitivity h1; [done|apply extends_snoc]|]. intros _ _. eapply mono; [apply extends_snoc|by apply D1].
Qed.

Lemma finalizers_spec ns name cr h :
  asked (GetConfig ns name) (inr cr) ∈ h →
  hw (syncOperatorConfigFinalizers cr) (λ r h', extends h h' ∧
    (r.2 = None → ∃ ns name, asked (GetConfig ns name) (inr r.1) ∈ h')) h.
Proof using Type.
  intros Hg. unfold syncOperatorConfigFinalizers. destruct (StringInArray _ _).
  { split; [done|]. intros _. by exists ns, name. }
  apply hw_request; [apply allowed_ok|done|]. intros [e|] h1 E1 _; [by split|].
  apply hw_request; [apply allowed_ok|done|]. intros [e|c] h2 E2 A2; cbn; (split; [by transitivity h1|]); [done|]. eauto.
Qed.

Abbreviation reconcile_config := (reconcileConfig Getenv Namespace varsClusterType UseExternalDrainer ResourcePrefix ClusterType
  Flavor manifests Decode ExecError ToDaemonSet FromDaemonSet ToControllerConfig FromControllerConfig SetControllerReference
  SetDaemonSetReference DeepDerivative CipherSuite OpenSSLToIANA flagTLSVersion InsecureCipherSuites webhook_order).

Lemma reconcileConfig_spec ns name cr h :
  asked (GetConfig ns name) (inr cr) ∈ h →
  hw (reconcile_config cr) (λ r h', extends h h' ∧ (r.2 = None → all_settled h') ∧
    (r.1.2 = true → r.2 = None ∧ all_deployed r.1.1 h' ∧ ∃ ns name, asked (GetConfig ns name) (inr r.1.1) ∈ h')) h.
Proof using order_ok.
  intros Hg. unfold reconcileConfig. destruct (ocr_Deleting cr) eqn:Ed.
  { apply wp_bind. eapply wp_post; [apply deletion_spec|]. cbn beta. intros err h1 [E1 D1]. cbn.
    split; [done|]. split; [|done]. intros Hn. exists ns, name, cr. split; [by apply E1|]. right. split; [done|by apply D1]. }
  apply wp_bind. eapply wp_post; [by eapply finalizers_spec|]. cbn beta. intros [config [e|]] h1 [E1 D1]; [by split|].
  apply hw_request; [apply allowed_ok|done|]. intros [e|l] h2 E2 _.
  { cbn. split; [by transitivity h1|done]. }
  apply wp_bind. eapply wp_post; [apply stage_deploy; [apply allowed_ok|exact order_ok]|]. cbn beta.
  intros err h3 [E3 D3]. cbn. split; [by transitivity h2; [transitivity h1|]|].
  destruct (D1 eq_refl) as (ns' & name' & A1). assert (A3 : asked (GetConfig ns' name') (inr config) ∈ h3) by (by apply E3, E2).
  split; [intros Hn; exists ns', name', config; split; [done|left; by apply D3]|].
  case_bool_decide; [|done]. intros _. split; [done|]. split; [by apply D3|eauto].
Qed.

Lemma recordTransitions_spec m ts (Q : unit → history → Prop) h :
  (∀ h', extends h h' → Q tt h') →
  hw (recordTransitions (resp := OpResp) (λ m t reason message, perform (OpEvent m t reason message)) m ts) Q h.
Proof using Type.
  revert h. induction ts as [|t ts IH]; intros h HQ; [by apply HQ|]. cbn [recordTransitions].
  apply hw_request; [apply allowed_ok|done|]. intros x h1 E1 _. apply IH. intros h2 E2. apply HQ. by transitivity h1.
Qed.

Lemma applyReadyCondition_spec config err h :
  (err = None → all_settled h) →
  hw (applyReadyCondition recorder config err) (λ _ h', extends h h') h.
Proof using Type.
  intros Hs. unfold applyReadyCondition. apply wp_bind. unfold ApplyCondition.
  case_bool_decide; [by cbn|]. cbv zeta. case_bool_decide; [by cbn|]. apply wp_perform.
  - intros (c & Hc & Ht). apply Hs.
    assert (Hst : c_Status c ∈ c_Status <$> preserveTransitionTimes (ocr_Conditions config) [readyCondition config err]).
    { by apply list_elem_of_fmap_2. }
    rewrite preserve_status in Hst. apply list_elem_of_singleton in Hst. destruct err; [|done].
    rewrite Ht in Hst. by vm_compute in Hst.
  - intros [e|] h1 ->; [apply extends_snoc|]. apply wp_bind. destruct recorder; [|apply extends_snoc].
    apply recordTransitions_spec. intros h2 E2. cbn. transitivity (h ++ [asked (ApplyOpStatus (ocr_meta config)
      (preserveTransitionTimes (ocr_Conditions config) [readyCondition config err])) None]); [apply extends_snoc|exact E2].
Qed.

Abbreviation reconcile := (Reconcile Getenv Namespace varsClusterType UseExternalDrainer ResourcePrefix ClusterType
  Flavor recorder manifests Decode ExecError ToDaemonSet FromDaemonSet ToControllerConfig FromControllerConfig SetControllerReference
  SetDaemonSetReference DeepDerivative CipherSuite OpenSSLToIANA flagTLSVersion InsecureCipherSuites webhook_order).

Lemma Reconcile_allowed ns name :
  hw (reconcile ns name) (λ r h, r.1 = true → ∃ ns name cr, asked (GetConfig ns name) (inr cr) ∈ h ∧ all_deployed cr h) [].
Proof using order_ok.
  unfold Reconcile. apply hw_request; [apply allowed_ok|done|]. intros [e|cr] h1 E1 A1; [done|].
  apply wp_bind. eapply wp_post; [by eapply reconcileConfig_spec|]. cbn beta. intros [[config requeue] err] h2 (E2 & S2 & D2).
  cbn in *. apply wp_bind. eapply wp_post; [by apply applyReadyCondition_spec|]. cbn beta. intros cerr h3 E3. cbn.
  intros Hr. destruct (D2 Hr) as (_ & D & ns' & name' & A). exists ns', name', config. split; [by apply E3|].
  eapply deployed_mono; [exact E3|exact D].
Qed.

(** C14: whatever the API server and the cluster answer, the controller reports Ready as true only for a configuration it
    has read and for which everything is in place: every manifest of an enabled webhook, of the configuration daemon, of
    the device plugin and of an enabled metrics exporter was created, updated or found as it should be; every manifest of
    a disabled webhook or exporter was deleted or absent; and on OpenShift the machine configuration of the systemd
    service is there in systemd mode and gone otherwise.  The one exception is a configuration that is being deleted: it
    is reported Ready without any deployment, after its webhooks are gone if it still had the operator's finalizer.  A
    reconciliation that asks to be repeated has deployed everything too. *)
Theorem operator_Ready_means_deployed ns name tr res h :
  exec (history_world OpResp) (reconcile ns name) [] tr res h →
  (∀ h0 m cs c, (h0, ApplyOpStatus m cs) ∈ tr → c ∈ cs → c_Status c = ConditionTrue →
     ∃ ns name cr, asked (GetConfig ns name) (inr cr) ∈ h0 ∧
       (all_deployed cr h0 ∨
        ocr_Deleting cr = true ∧
        (StringInArray OPERATORCONFIGFINALIZERNAME (ocr_Finalizers cr) = true → webhooks_gone h0))) ∧
  (res.1 = true → ∃ ns name cr, asked (GetConfig ns name) (inr cr) ∈ h ∧ all_deployed cr h).
Proof using order_ok.
  intros He. destruct (wp_exec _ _ _ _ _ _ _ _ (Reconcile_allowed ns name) He) as [H1 H2]. split; [|exact H1].
  intros h0 m cs c Hin Hc Ht. rewrite Forall_forall in H2. apply (H2 _ Hin). by exists c.
Qed.

(** C16: the finalizer of a SriovOperatorConfig that is being deleted is taken away only after the operator's two
    webhook configurations and the injector's were deleted or found absent, so that no webhook without a server stays
    behind to refuse the objects of the cluster. *)
Theorem operator_webhooks_deleted_before_finalizer ns name tr res h h0 c :
  exec (history_world OpResp) (reconcile ns name) [] tr res h → (h0, UpdateConfig c) ∈ tr → webhooks_gone h0.
Proof using order_ok.
  intros He Hin. destruct (wp_exec _ _ _ _ _ _ _ _ (Reconcile_allowed ns name) He) as [_ H2].
  rewrite Forall_forall in H2. exact (H2 _ Hin).
Qed.
End reconcile.

(** ** A cluster to run it on *)

Definition op_spec (webhook : bool) : SriovOperatorConfigSpec := mkOperatorConfigSpec ∅ false webhook 0 false false "daemon" false [] ∅ ∅.
Definition op_config (deleting : bool) : OperatorConfigCR :=
  mkOperatorConfigCR (mkObjectMeta "default" "sriov" 1 ∅ ∅ []) [OPERATORCONFIGFINALIZERNAME] deleting (op_spec true) true [].

(** An empty cluster but for the configuration: everything is created. *)
Definition op_answer (deleting : bool) (r : OpReq) : OpResp r :=
  match r with
  | GetConfig _ _ => inr (op_config deleting)
  | UpdateConfig _ | PatchConfig _ _ | ApplyOpStatus _ _ => None
  | OpEvent _ _ _ _ => tt
  | ListPolicies => inr []
  | GetObj _ => inl ErrNotFound
  | CreateObj _ | UpdateObj _ | DeleteObj _ => None
  | GetDaemonSet _ _ => inl ErrNotFound
  | CreateDaemonSet _ | UpdateDaemonSet _ => None
  | GetMachineConfigObj _ => Some ErrNotFound
  | DeleteMachineConfig _ => None
  | GetClusterTLS => inr None
  end.
Definition op_handler (deleting : bool) (h : history) (r : OpReq) : OpResp r * history :=
  (op_answer deleting r, h ++ [asked r (op_answer deleting r)]).

Definition cluster_role : jobj :=
  [("apiVersion", JStr "rbac.authorization.k8s.io/v1"); ("kind", JStr "ClusterRole"); ("metadata", JObj [("name", JStr "sriov")])].
Definition one_manifest (path : string) : list Entry := [mkEntry (path +:+ "/rbac.yaml") None false (Parsed [TText "role"])].

Abbreviation sample_reconcile deleting :=
  (Reconcile (λ _, "") "sriov" "kubernetes" false "openshift.io" ClusterTypeKubernetes ClusterFlavorDefault true one_manifest
     (λ _, [inr (Some cluster_role)]) (λ _ _, "") (λ _, inl "") (λ _, inl "") (λ _, inl "") (λ _, inl "")
     (λ _ o, inr o) (λ _ d, inr d) (λ _ _, true) (λ _, None) (λ _, None) (λ _, None) [] (map_to_list webhooks) "sriov" "default").

Lemma op_exec deleting :
  let p := sample_reconcile deleting in
  exec (history_world OpResp) p [] (trace (op_handler deleting) p []) (run (op_handler deleting) p []).1
    (run (op_handler deleting) p []).2.
Proof. apply (run_exec (history_world OpResp) (op_handler deleting) (λ _, True)); [|exact I]. by intros s r _. Qed.

Abbreviation sample_deployed :=
  (deployed (λ _, "") "sriov" "kubernetes" false "openshift.io" ClusterTypeKubernetes ClusterFlavorDefault one_manifest
     (λ _, [inr (Some cluster_role)]) (λ _ _, "") (λ _, inl "") (λ _, inl "") (λ _, inl "") (λ _, inl "")
     (λ _ o, inr o) (λ _ d, inr d) (λ _ _, true) (λ _, None) (λ _, None) (λ _, None) []).

Definition is_create (e : event OpResp) : bool := match projT1 e with CreateObj _ => true | _ => false end.

Lemma operator_Ready_means_deployed_witness :
  (run (op_handler false) (sample_reconcile false) []).1 = (true, None) ∧
  length (List.filter is_create (run (op_handler false) (sample_reconcile false) []).2) = 2%nat ∧
  ∃ ns name cr, asked (GetConfig ns name) (inr cr) ∈ (run (op_handler false) (sample_reconcile false) []).2 ∧
    sample_deployed cr (run (op_handler false) (sample_reconcile false) []).2.
Proof.
  split; [vm_compute; reflexivity|]. split; [vm_compute; reflexivity|].
  refine (proj2 (operator_Ready_means_deployed _ _ _ _ _ _ _ _ _ _ _ _ _ _ _ _ _ _ _ _ _ _ _ _ _ _ _ _ _ (op_exec false)) _).
  - reflexivity.
  - vm_compute. reflexivity.
Defined.

Lemma operator_webhooks_deleted_before_finalizer_witness :
  ∃ h0 c, (h0, UpdateConfig c) ∈ trace (op_handler true) (sample_reconcile true) [] ∧ ocr_Finalizers c = [] ∧ webhooks_gone h0.
Proof.
  set (c := ocr_set_Finalizers [] (op_config true)).
  set (h0 := default [] (fst <$> trace (op_handler true) (sample_reconcile true) [] !! 4%nat)).
  assert (H : (h0, UpdateConfig c) ∈ trace (op_handler true) (sample_reconcile true) []).
  { apply (list_elem_of_lookup_2 _ 4%nat). vm_compute. reflexivity. }
  exists h0, c. split; [exact H|]. split; [reflexivity|].
  refine (operator_webhooks_deleted_before_finalizer _ _ _ _ _ _ _ _ _ _ _ _ _ _ _ _ _ _ _ _ _ _ _ _ _ _ _ _ _ _ _ (op_exec true) H).
  reflexivity.
Defined.
