(* ===== verification/Ovs.v ===== *)
(** * Managed Open vSwitch bridges
    (pkg/host/internal/bridge/ovs/ovs.go, models.go, store/store.go,
    pkg/host/internal/bridge/bridge.go)

    The daemon creates one bridge per selected PF in the Open_vSwitch database
    and keeps what it created in a file.  Calls to the database and the file
    system are requests; the cache of the store is a variable of the process,
    read and written by requests too.  Error texts leave out what is wrapped. *)
From S2P Require Import Prelude GoLib Types Effects Render.

(** ** models.go *)

Record OpenvSwitchEntry := mkOpenvSwitchEntry { os_UUID : string; os_Bridges : list string }.

Record BridgeEntry := mkBridgeEntry {
  be_UUID : string;
  be_Name : string;
  be_DatapathType : string;
  be_ExternalIDs : gmap string string;
  be_OtherConfig : gmap string string;
  be_Ports : list string;
  be_FailMode : option string;
}.

Record InterfaceEntry := mkInterfaceEntry {
  ife_UUID : string;
  ife_Name : string;
  ife_Type : string;
  ife_Error : option string;
  ife_Options : gmap string string;
  ife_ExternalIDs : gmap string string;
  ife_OtherConfig : gmap string string;
  ife_MTURequest : option Z;
}.

Record PortEntry := mkPortEntry { pe_UUID : string; pe_Name : string; pe_Interfaces : list string }.

Definition HasPort (b : BridgeEntry) (portUUID : string) : bool := bool_decide (portUUID ∈ be_Ports b).

(** ** Requests *)

(** The operations the code prepares, by the UUIDs of the rows. *)
Inductive Operation :=
| CreateBridgeRow (b : BridgeEntry)
| CreatePortRow (p : PortEntry)
| CreateInterfaceRow (i : InterfaceEntry)
| DeleteBridgeRow (uuid : string)
| DeletePortRow (uuid : string)
| DeleteInterfaceRow (uuid : string)
| MutatePorts (bridge : string) (insert : bool) (port : string)
| MutateBridges (root : string) (insert : bool) (bridge : string).

Inductive OvsReq :=
| Connect
| DbGetBridge (name : string)
| DbGetInterface (name : string)
| DbGetInterfaceRow (uuid : string)
| DbListPorts (interface : option string)   (* all, or those that include an interface *)
| DbListBridges (port : string)             (* those that include a port *)
| DbListInterfaces
| DbListRoot
| Transact (ops : list Operation)
| NewUUID
| Sleep
| CacheGet
| CacheSet (cache : gmap string OVSConfigExt)
| StatStoreDir
| MkStoreDir
| ReadStoreFile
| WriteStoreFile (content : gmap string OVSConfigExt).

(** A Get that finds nothing is [inr None]; the answer of a stat says whether
    the directory exists; the store file is read and written decoded. *)
Definition OvsResp (r : OvsReq) : Type :=
  match r with
  | Connect => option string
  | DbGetBridge _ => string + option BridgeEntry
  | DbGetInterface _ | DbGetInterfaceRow _ => string + option InterfaceEntry
  | DbListPorts _ => string + list PortEntry
  | DbListBridges _ => string + list BridgeEntry
  | DbListInterfaces => string + list InterfaceEntry
  | DbListRoot => string + list OpenvSwitchEntry
  | Transact _ => option string
  | NewUUID => string
  | Sleep => unit
  | CacheGet => option (gmap string OVSConfigExt)
  | CacheSet _ => unit
  | StatStoreDir => string + bool
  | MkStoreDir => option string
  | ReadStoreFile => string + option (gmap string OVSConfigExt)
  | WriteStoreFile _ => option string
  end%type.

Abbreviation ovsM := (prog OvsResp).
Abbreviation ovsE A := (prog OvsResp (string + A)).

(** A call that returns only an error. *)
Definition checked (p : ovsM (option string)) : ovsE unit :=
  r ← p; Ret (match r with Some e => inl e | None => inr tt end).

(** ** store.go *)

Definition ensureStoreDirExist : ovsE unit :=
  ex ⇐ perform StatStoreDir;
  if ex : bool then Ret (inr tt) else checked (perform MkStoreDir).

Definition readStoreFile : ovsE (gmap string OVSConfigExt) :=
  r ⇐ perform ReadStoreFile;
  Ret (inr (default ∅ r)).

(** The cache, loaded if it is not yet. *)
Definition ensureCacheIsLoaded : ovsE (gmap string OVSConfigExt) :=
  c ← perform CacheGet;
  match c with
  | Some cache => Ret (inr cache)
  | None =>
      ensureStoreDirExist;;!
      cache ⇐ readStoreFile;
      perform (CacheSet cache) ≫= λ _, Ret (inr cache)
  end.

Definition GetManagedOVSBridges : ovsE (gmap string OVSConfigExt) := ensureCacheIsLoaded.

Definition GetManagedOVSBridge (name : string) : ovsE (option OVSConfigExt) :=
  cache ⇐ ensureCacheIsLoaded;
  Ret (inr (cache !! name)).

(** The cache is changed first and changed back when the file cannot be
    written. *)
Definition updateStore (f : gmap string OVSConfigExt → gmap string OVSConfigExt) (name : string) : ovsE unit :=
  cache ⇐ ensureCacheIsLoaded;
  let cache' := f cache in
  perform (CacheSet cache') ≫= λ _,
  w ← perform (WriteStoreFile cache');
  match w with
  | None => Ret (inr tt)
  | Some e =>
      let restored := match cache !! name with Some v => <[name := v]> cache' | None => delete name cache' end in
      perform (CacheSet restored) ≫= λ _, Ret (inl e)
  end.

Definition AddManagedOVSBridge (br : OVSConfigExt) : ovsE unit :=
  updateStore (<[oce_Name br := br]>) (oce_Name br).

Definition RemoveManagedOVSBridge (name : string) : ovsE unit := updateStore (delete name) name.

(** ** Reading the database *)

Definition getBridgeByName (name : string) : ovsE (option BridgeEntry) := perform (DbGetBridge name).
Definition getInterfaceByName (name : string) : ovsE (option InterfaceEntry) := perform (DbGetInterface name).

Definition getPortByInterface (iface : InterfaceEntry) : ovsE (option PortEntry) :=
  l ⇐ perform (DbListPorts (Some (ife_UUID iface)));
  Ret (inr (head l)).

Definition getBridgeByPort (port : PortEntry) : ovsE (option BridgeEntry) :=
  l ⇐ perform (DbListBridges (pe_UUID port));
  Ret (inr (head l)).

Definition getRootObj : ovsE OpenvSwitchEntry :=
  l ⇐ perform DbListRoot;
  Ret (match l with [] => inl "Open_vSwitch table is empty" | o :: _ => inr o end).

Definition execTransaction (ops : list Operation) : ovsE unit := checked (perform (Transact ops)).

Definition string_le (a b : string) : Prop := String.leb a b = true.
#[export] Instance string_le_dec : RelDecision string_le.
Proof. intros a b. apply bool_eq_dec. Defined.

Definition getInterfaceNamesOnBridge (bridge : BridgeEntry) : ovsE (list string) :=
  ports ⇐ perform (DbListPorts None);
  let interfaceIDs := concat (pe_Interfaces <$> List.filter (λ p, HasPort bridge (pe_UUID p)) ports) in
  interfaces ⇐ perform DbListInterfaces;
  Ret (inr (merge_sort string_le
         (ife_Name <$> List.filter (λ i, bool_decide (ife_UUID i ∈ interfaceIDs)) interfaces))).

(** [strings.CutPrefix]. *)
Fixpoint CutPrefix (s prefix : string) : option string :=
  match prefix, s with
  | EmptyString, _ => Some s
  | String a p, String b r => if Ascii.eqb a b then CutPrefix r p else None
  | String _ _, EmptyString => None
  end.

Definition isVFRepresentorName (interfaceName pfName : string) : bool :=
  match CutPrefix interfaceName (pfName +:+ "_") with
  | None | Some EmptyString => false
  | Some vfIndex =>
      match Atoi vfIndex with
      | (n, None) => (0 <=? n) && negb (bool_decide (is_Some (CutPrefix vfIndex "+")))
      | (_, Some _) => false
      end
  end.

(** ** Changing the database *)

Definition createBridge (br : BridgeEntry) : ovsE unit :=
  rootObj ⇐ getRootObj;
  execTransaction [CreateBridgeRow br; MutateBridges (os_UUID rootObj) true (be_UUID br)].

Definition interfaceErrorCheckCount : nat := 2.

Fixpoint checkInterface (n : nat) (uuid : string) : ovsE unit :=
  match n with
  | O => Ret (inr tt)
  | S n' =>
      perform Sleep ≫= λ _,
      i ⇐ perform (DbGetInterfaceRow uuid);
      match i with
      | None => Ret (inl "failed to read interface after creation")
      | Some iface =>
          match ife_Error iface with
          | Some e => Ret (inl ("created interface is in error state: " +:+ e))
          | None => checkInterface n' uuid
          end
      end
  end.

Definition addInterface (br : BridgeEntry) (iface : InterfaceEntry) : ovsE unit :=
  uuid ← perform NewUUID;
  execTransaction [CreateInterfaceRow iface; CreatePortRow (mkPortEntry uuid (ife_Name iface) [ife_UUID iface]);
                   MutatePorts (be_UUID br) true uuid];;!
  checkInterface interfaceErrorCheckCount (ife_UUID iface).

Definition deleteBridgeByName (brName : string) : ovsE unit :=
  b ⇐ getBridgeByName brName;
  match b with
  | None => Ret (inr tt)
  | Some br =>
      rootObj ⇐ getRootObj;
      execTransaction [DeleteBridgeRow (be_UUID br); MutateBridges (os_UUID rootObj) false (be_UUID br)]
  end.

Definition deleteInterfaceByName (ifaceName : string) : ovsE unit :=
  i ⇐ getInterfaceByName ifaceName;
  match i with
  | None => Ret (inr tt)
  | Some iface =>
      p ⇐ getPortByInterface iface;
      match p with
      | None => execTransaction [DeleteInterfaceRow (ife_UUID iface)]
      | Some port =>
          b ⇐ getBridgeByPort port;
          execTransaction ([DeleteInterfaceRow (ife_UUID iface); DeletePortRow (pe_UUID port)] ++
            match b with Some bridge => [MutatePorts (be_UUID bridge) false (pe_UUID port)] | None => [] end)
      end
  end.

(** ** The state of a bridge *)

(** The keys of the old map with the values of the new one. *)
Definition updateMap (old new : gmap string string) : gmap string string :=
  map_imap (λ k _, new !! k) old.

Definition bridgeConfig (knownConfig : OVSConfigExt) (bridge : BridgeEntry) : OVSBridgeConfig :=
  mkOVSBridgeConfig (be_DatapathType bridge)
    (updateMap (obc_ExternalIDs (oce_Bridge knownConfig)) (be_ExternalIDs bridge))
    (updateMap (obc_OtherConfig (oce_Bridge knownConfig)) (be_OtherConfig bridge))
    (default "" (be_FailMode bridge)).

Definition uplinkConfig (known : OVSUplinkConfigExt) (iface : InterfaceEntry) : OVSUplinkConfigExt :=
  let c := oue_Interface known in
  mkOVSUplinkConfigExt (oue_PciAddress known) (oue_Name known)
    (mkOVSInterfaceConfig (ife_Type iface) (updateMap (oic_Options c) (ife_Options iface))
       (updateMap (oic_ExternalIDs c) (ife_ExternalIDs iface)) (updateMap (oic_OtherConfig c) (ife_OtherConfig iface))
       (ife_MTURequest iface)).

Definition getCurrentBridgeState (knownConfig : OVSConfigExt) : ovsE (option OVSConfigExt) :=
  b ⇐ getBridgeByName (oce_Name knownConfig);
  match b with
  | None => Ret (inr None)
  | Some bridge =>
      let currentConfig uplinks := mkOVSConfigExt (be_Name bridge) (bridgeConfig knownConfig bridge) uplinks in
      match oce_Uplinks knownConfig with
      | [] => Ret (inr (Some (currentConfig [])))
      | uplink :: _ =>
          i ⇐ getInterfaceByName (oue_Name uplink);
          match i with
          | None => Ret (inr (Some (currentConfig [])))
          | Some iface =>
              if bool_decide (is_Some (ife_Error iface)) then Ret (inr (Some (currentConfig [])))
              else
                p ⇐ getPortByInterface iface;
                match p with
                | None => Ret (inr (Some (currentConfig [])))
                | Some port =>
                    if negb (HasPort bridge (pe_UUID port)) then Ret (inr (Some (currentConfig [])))
                    else Ret (inr (Some (currentConfig [uplinkConfig uplink iface])))
                end
          end
      end
  end.

(** ** Creating and removing bridges *)

Definition ensureInternalInterface (bridge : BridgeEntry) : ovsE unit :=
  let add : ovsE unit :=
    uuid ← perform NewUUID;
    addInterface bridge (mkInterfaceEntry uuid (be_Name bridge) "internal" None ∅ ∅ ∅ None) in
  i ⇐ getInterfaceByName (be_Name bridge);
  match i with
  | None => add
  | Some iface =>
      match ife_Error iface with
      | Some _ => deleteInterfaceByName (be_Name bridge);;! add
      | None => Ret (inr tt)
      end
  end.

(** The bridge is created anew unless its own settings are as they should be. *)
Definition recreateBridge (conf : OVSConfigExt) : ovsE unit :=
  deleteBridgeByName (oce_Name conf);;!
  uuid ← perform NewUUID;
  let b := oce_Bridge conf in
  createBridge (mkBridgeEntry uuid (oce_Name conf) (obc_DatapathType b) (obc_ExternalIDs b) (obc_OtherConfig b) []
    (if String.eqb (obc_FailMode b) "" then None else Some (obc_FailMode b))).

Definition attachUplink (conf : OVSConfigExt) (uplink : OVSUplinkConfigExt) (keepBridge : bool) : ovsE unit :=
  deleteInterfaceByName (oue_Name uplink);;!
  (if keepBridge then Ret (inr tt) else recreateBridge conf);;!
  b ⇐ getBridgeByName (oce_Name conf);
  match b with
  | None => Ret (inl "can't retrieve bridge after creation")
  | Some bridge =>
      ensureInternalInterface bridge;;!
      uuid ← perform NewUUID;
      let c := oue_Interface uplink in
      addInterface bridge (mkInterfaceEntry uuid (oue_Name uplink) (oic_Type c) None (oic_Options c) (oic_ExternalIDs c)
        (oic_OtherConfig c) (oic_MTURequest c))
  end.

Definition CreateOVSBridge (conf : OVSConfigExt) : ovsE unit :=
  match oce_Uplinks conf with
  | [uplink] =>
      checked (perform Connect);;!
      known ⇐ GetManagedOVSBridge (oce_Name conf);
      (if bool_decide (known = Some conf) then Ret (inr tt) else AddManagedOVSBridge conf);;!
      match known with
      | None => attachUplink conf uplink false
      | Some knownConfig =>
          state ⇐ getCurrentBridgeState knownConfig;
          match state with
          | None => attachUplink conf uplink false
          | Some currentState =>
              if bool_decide (conf = currentState) then Ret (inr tt)
              else attachUplink conf uplink (bool_decide (oce_Bridge conf = oce_Bridge currentState))
          end
      end
  | _ => Ret (inl "unsupported configuration, uplinks list must contain one element")
  end.

Definition RemoveOVSBridge (bridgeName : string) : ovsE unit :=
  c ⇐ GetManagedOVSBridge bridgeName;
  match c with
  | None => Ret (inr tt)
  | Some brConf =>
      checked (perform Connect);;!
      state ⇐ getCurrentBridgeState brConf;
      (match state with Some _ => deleteBridgeByName (oce_Name brConf) | None => Ret (inr tt) end);;!
      RemoveManagedOVSBridge (oce_Name brConf)
  end.

Definition config_name_le (a b : OVSConfigExt) : Prop := String.leb (oce_Name a) (oce_Name b) = true.
#[export] Instance config_name_le_dec : RelDecision config_name_le.
Proof. intros a b. apply bool_eq_dec. Defined.

Fixpoint bridgeStates (known : list OVSConfigExt) : ovsE (list OVSConfigExt) :=
  match known with
  | [] => Ret (inr [])
  | knownConfig :: rest =>
      state ⇐ getCurrentBridgeState knownConfig;
      l ⇐ bridgeStates rest;
      Ret (inr (option_list state ++ l))
  end.

Section order.
(** The order in which the map of managed bridges is visited. *)
Context (visit : gmap string OVSConfigExt → list OVSConfigExt).

Definition GetOVSBridges : ovsE (list OVSConfigExt) :=
  known ⇐ GetManagedOVSBridges;
  if bool_decide (known = ∅) then Ret (inr [])
  else
    checked (perform Connect);;!
    l ⇐ bridgeStates (visit known);
    Ret (inr (merge_sort config_name_le l)).

(** The first managed bridge with the PF among its uplinks, and the PF's
    name. *)
Definition findUplink (pciAddress : string) (known : list OVSConfigExt) : option (OVSConfigExt * string) :=
  head (omap (λ kc, (λ u, (kc, oue_Name u)) <$>
    List.find (λ u, String.eqb (oue_PciAddress u) pciAddress && negb (String.eqb (oue_Name u) "")) (oce_Uplinks kc)) known).

Fixpoint detachRepresentors (pfName : string) (names : list string) : ovsE unit :=
  match names with
  | [] => Ret (inr tt)
  | repName :: rest =>
      (if isVFRepresentorName repName pfName then deleteInterfaceByName repName else Ret (inr tt));;!
      detachRepresentors pfName rest
  end.

Definition DetachUplinkAndVFRepresentorsFromOVSBridge (pciAddress : string) : ovsE unit :=
  known ⇐ GetManagedOVSBridges;
  match findUplink pciAddress (visit known) with
  | None => Ret (inr tt)
  | Some (brConf, pfName) =>
      checked (perform Connect);;!
      b ⇐ getBridgeByName (oce_Name brConf);
      match b with
      | None => RemoveManagedOVSBridge (oce_Name brConf)
      | Some bridge =>
          names ⇐ getInterfaceNamesOnBridge bridge;
          detachRepresentors pfName names;;!
          deleteInterfaceByName pfName
      end
  end.

(** ** bridge.go *)

Definition DiscoverBridges : ovsE Bridges :=
  l ⇐ GetOVSBridges;
  Ret (inr (mkBridges l)).

Fixpoint removeUnwanted (desired current : list OVSConfigExt) : ovsE unit :=
  match current with
  | [] => Ret (inr tt)
  | curBr :: rest =>
      (if existsb (λ d, String.eqb (oce_Name curBr) (oce_Name d)) desired then Ret (inr tt)
       else RemoveOVSBridge (oce_Name curBr));;!
      removeUnwanted desired rest
  end.

Fixpoint createDesired (desired : list OVSConfigExt) : ovsE unit :=
  match desired with
  | [] => Ret (inr tt)
  | desiredBr :: rest => CreateOVSBridge desiredBr;;! createDesired rest
  end.

Definition ConfigureBridges (bridgesSpec bridgesStatus : Bridges) : ovsE unit :=
  if bool_decide (br_OVS bridgesSpec = []) && bool_decide (br_OVS bridgesStatus = []) then Ret (inr tt)
  else
    removeUnwanted (br_OVS bridgesSpec) (br_OVS bridgesStatus);;!
    createDesired (br_OVS bridgesSpec).

Definition DetachUplinkAndVFRepresentorsFromManagedBridge (pciAddr : string) : ovsE unit :=
  r ← DetachUplinkAndVFRepresentorsFromOVSBridge pciAddr;
  Ret (match r with
       | inl e => inl ("failed to detach uplink and VF representors for device " +:+ pciAddr +:+ ": " +:+ e)
       | inr _ => inr tt
       end).
End order.
