(* ===== verification/OvsDb.v ===== *)
(** * The Open_vSwitch database

    ovsdb-server as the daemon meets it: rows by UUID, transactions that are
    carried out whole or not at all, rows nobody refers to removed at the end of
    each, names unique in their tables.  The daemon of Open vSwitch writes the
    error column of interfaces at any time. *)
From S2P Require Import Prelude GoLib Types Effects Ovs.

(** ** Tables *)

Record Db := mkDb {
  db_root : OpenvSwitchEntry;
  db_bridges : gmap string BridgeEntry;
  db_ports : gmap string PortEntry;
  db_ifaces : gmap string InterfaceEntry;
}.

(** Insertion into and deletion from a column that holds a set. *)
Definition mutate (insert : bool) (l : list string) (u : string) : list string :=
  if insert then (if bool_decide (u ∈ l) then l else l ++ [u]) else List.filter (λ x, negb (String.eqb x u)) l.

Definition be_set_Ports (l : list string) (b : BridgeEntry) : BridgeEntry :=
  mkBridgeEntry (be_UUID b) (be_Name b) (be_DatapathType b) (be_ExternalIDs b) (be_OtherConfig b) l (be_FailMode b).

Definition set_bridges (m : gmap string BridgeEntry) (d : Db) : Db := mkDb (db_root d) m (db_ports d) (db_ifaces d).
Definition set_ports (m : gmap string PortEntry) (d : Db) : Db := mkDb (db_root d) (db_bridges d) m (db_ifaces d).
Definition set_ifaces (m : gmap string InterfaceEntry) (d : Db) : Db := mkDb (db_root d) (db_bridges d) (db_ports d) m.

(** One operation; [None]: the server refuses it. *)
Definition apply_op (d : Db) (op : Operation) : option Db :=
  match op with
  | CreateBridgeRow b =>
      if bool_decide (db_bridges d !! be_UUID b = None) then Some (set_bridges (<[be_UUID b := b]> (db_bridges d)) d) else None
  | CreatePortRow p =>
      if bool_decide (db_ports d !! pe_UUID p = None) then Some (set_ports (<[pe_UUID p := p]> (db_ports d)) d) else None
  | CreateInterfaceRow i =>
      if bool_decide (db_ifaces d !! ife_UUID i = None) then Some (set_ifaces (<[ife_UUID i := i]> (db_ifaces d)) d) else None
  | DeleteBridgeRow u => Some (set_bridges (delete u (db_bridges d)) d)
  | DeletePortRow u => Some (set_ports (delete u (db_ports d)) d)
  | DeleteInterfaceRow u => Some (set_ifaces (delete u (db_ifaces d)) d)
  | MutatePorts b ins p =>
      Some (set_bridges (alter (λ row, be_set_Ports (mutate ins (be_Ports row) p) row) b (db_bridges d)) d)
  | MutateBridges r ins b =>
      Some (mkDb (if String.eqb r (os_UUID (db_root d))
                  then mkOpenvSwitchEntry r (mutate ins (os_Bridges (db_root d)) b) else db_root d)
              (db_bridges d) (db_ports d) (db_ifaces d))
  end.

Fixpoint apply_ops (d : Db) (ops : list Operation) : option Db :=
  match ops with
  | [] => Some d
  | op :: rest => d' ← apply_op d op; apply_ops d' rest
  end.

(** Rows nobody refers to are removed. *)
Definition collect (d : Db) : Db :=
  let bs := filter (λ kv, kv.1 ∈ os_Bridges (db_root d)) (db_bridges d) in
  let ps := filter (λ kv, kv.1 ∈ concat (be_Ports <$> (map_to_list bs).*2)) (db_ports d) in
  let ifs := filter (λ kv, kv.1 ∈ concat (pe_Interfaces <$> (map_to_list ps).*2)) (db_ifaces d) in
  mkDb (db_root d) bs ps ifs.

(** References lead to rows, a port has an interface, names are unique. *)
Definition valid (d : Db) : Prop :=
  Forall (λ u, is_Some (db_bridges d !! u)) (os_Bridges (db_root d)) ∧
  Forall (λ kv, Forall (λ u, is_Some (db_ports d !! u)) (be_Ports kv.2)) (map_to_list (db_bridges d)) ∧
  Forall (λ kv, pe_Interfaces kv.2 ≠ [] ∧ Forall (λ u, is_Some (db_ifaces d !! u)) (pe_Interfaces kv.2)) (map_to_list (db_ports d)) ∧
  NoDup (be_Name <$> (map_to_list (db_bridges d)).*2) ∧
  NoDup (pe_Name <$> (map_to_list (db_ports d)).*2) ∧
  NoDup (ife_Name <$> (map_to_list (db_ifaces d)).*2).

#[export] Instance valid_dec d : Decision (valid d).
Proof. unfold valid. apply _. Defined.

Definition commit (d : Db) (ops : list Operation) : option Db :=
  d' ← apply_ops d ops;
  if bool_decide (valid (collect d')) then Some (collect d') else None.

(** ** The state *)

Record OvsState := mkOvsState {
  ovs_db : Db;
  ovs_cache : option (gmap string OVSConfigExt);
  ovs_file : option (gmap string OVSConfigExt);
}.

Definition set_db (d : Db) (s : OvsState) : OvsState := mkOvsState d (ovs_cache s) (ovs_file s).

(** The rows with a name. *)
Definition bridge_row (d : Db) (b : BridgeEntry) : Prop := db_bridges d !! be_UUID b = Some b.
Definition port_row (d : Db) (p : PortEntry) : Prop := db_ports d !! pe_UUID p = Some p.
Definition iface_row (d : Db) (i : InterfaceEntry) : Prop := db_ifaces d !! ife_UUID i = Some i.

(** The answer to a Get by name. *)
Definition got {A} (row : A → Prop) (x : string + option A) : Prop :=
  match x with
  | inl _ => True
  | inr (Some a) => row a
  | inr None => ∀ a, ¬ row a
  end.

(** The answer to a list call. *)
Definition listed_rows {A} (row : A → Prop) (x : string + list A) : Prop :=
  match x with
  | inl _ => True
  | inr l => ∀ a, a ∈ l ↔ row a
  end.

Definition fresh (d : Db) (u : string) : Prop :=
  db_bridges d !! u = None ∧ db_ports d !! u = None ∧ db_ifaces d !! u = None.

Definition ovs_server (s : OvsState) (r : OvsReq) : OvsResp r → OvsState → Prop :=
  let d := ovs_db s in
  match r with
  | Connect | Sleep | StatStoreDir | MkStoreDir => λ _ s', s' = s
  | DbGetBridge n => λ x s', s' = s ∧ got (λ b, bridge_row d b ∧ be_Name b = n) x
  | DbGetInterface n => λ x s', s' = s ∧ got (λ i, iface_row d i ∧ ife_Name i = n) x
  | DbGetInterfaceRow u => λ x s', s' = s ∧ got (λ i, iface_row d i ∧ ife_UUID i = u) x
  | DbListPorts o => λ x s', s' = s ∧ listed_rows (λ p, port_row d p ∧ ∀ u, o = Some u → u ∈ pe_Interfaces p) x
  | DbListBridges u => λ x s', s' = s ∧ listed_rows (λ b, bridge_row d b ∧ u ∈ be_Ports b) x
  | DbListInterfaces => λ x s', s' = s ∧ listed_rows (iface_row d) x
  | DbListRoot => λ x s', s' = s ∧ match x with inl _ => True | inr l => l = [db_root d] end
  | Transact ops => λ x s',
      let done_ := ∃ d', commit d ops = Some d' ∧ s' = set_db d' s in
      match x with None => done_ | Some _ => s' = s ∨ done_ end
  | NewUUID => λ x s', s' = s ∧ fresh d x
  | CacheGet => λ x s', s' = s ∧ x = ovs_cache s
  | CacheSet c => λ _ s', s' = mkOvsState d (Some c) (ovs_file s)
  | ReadStoreFile => λ x s', s' = s ∧ match x with inl _ => True | inr c => c = ovs_file s end
  | WriteStoreFile c => λ x s', match x with None => s' = mkOvsState d (ovs_cache s) (Some c) | Some _ => s' = s end
  end.

(** An interface but for its error. *)
Definition same_iface (i i' : InterfaceEntry) : Prop :=
  i' = mkInterfaceEntry (ife_UUID i) (ife_Name i) (ife_Type i) (ife_Error i') (ife_Options i) (ife_ExternalIDs i)
         (ife_OtherConfig i) (ife_MTURequest i).

Definition ovs_rely (s s' : OvsState) : Prop :=
  ovs_cache s' = ovs_cache s ∧ ovs_file s' = ovs_file s ∧
  db_root (ovs_db s') = db_root (ovs_db s) ∧ db_bridges (ovs_db s') = db_bridges (ovs_db s) ∧
  db_ports (ovs_db s') = db_ports (ovs_db s) ∧
  ∀ u, option_relation same_iface (λ _, False) (λ _, False) (db_ifaces (ovs_db s) !! u) (db_ifaces (ovs_db s') !! u).

Definition ovs_world : World OvsResp := shared_world ovs_server ovs_rely.

(** ** Invariants *)

(** Rows are found under their UUIDs, references lead to rows, and every row is
    referred to. *)
Definition keyed_db (d : Db) : Prop :=
  (∀ u b, db_bridges d !! u = Some b → be_UUID b = u) ∧ (∀ u p, db_ports d !! u = Some p → pe_UUID p = u) ∧
  (∀ u i, db_ifaces d !! u = Some i → ife_UUID i = u).

Definition wf_db (d : Db) : Prop := keyed_db d ∧ valid d ∧ ∀ u, is_Some (db_bridges d !! u) → u ∈ os_Bridges (db_root d).

(** What the configuration of a bridge consists of. *)
Definition settings (b : BridgeEntry) : string * string * gmap string string * gmap string string * option string :=
  (be_Name b, be_DatapathType b, be_ExternalIDs b, be_OtherConfig b, be_FailMode b).

Definition bridge_at (d : Db) (u : string) (st : string * string * gmap string string * gmap string string * option string) : Prop :=
  ∃ b, db_bridges d !! u = Some b ∧ settings b = st.

Lemma apply_op_keyed d op d' : keyed_db d → apply_op d op = Some d' → keyed_db d'.
Proof.
  intros (K1 & K2 & K3) H. destruct op; cbn in H; try (case_bool_decide; [|done]); injection H as <-;
    (split; [|split]); cbn; try done; intros v row; try (rewrite lookup_insert_Some; naive_solver);
    try (rewrite lookup_delete_Some; naive_solver).
  rewrite lookup_alter_Some. intros [(-> & b0 & Hb & ->)|[_ Hb]]; by apply K1 in Hb.
Qed.

Lemma apply_ops_keyed d ops d' : keyed_db d → apply_ops d ops = Some d' → keyed_db d'.
Proof.
  revert d. induction ops as [|op ops IH]; intros d K; cbn; [by intros [= <-]|].
  destruct (apply_op d op) as [d1|] eqn:E; [|done]. cbn. apply IH. by eapply apply_op_keyed.
Qed.

Lemma collect_keyed d : keyed_db d → keyed_db (collect d).
Proof. intros (K1 & K2 & K3). split; [|split]; cbn; intros v row; rewrite map_lookup_filter_Some; naive_solver. Qed.

Lemma commit_inv d ops d' :
  commit d ops = Some d' → ∃ d1, apply_ops d ops = Some d1 ∧ d' = collect d1 ∧ valid d'.
Proof.
  unfold commit. destruct (apply_ops d ops) as [d1|]; [|done]. cbn. case_bool_decide; [|done]. intros [= <-]. by exists d1.
Qed.

Lemma commit_wf d ops d' : wf_db d → commit d ops = Some d' → wf_db d'.
Proof.
  intros (K & _ & _) (d1 & H1 & -> & Hv)%commit_inv. split; [by eapply collect_keyed, apply_ops_keyed|]. split; [done|].
  intros u [b Hb]. cbn in *. by apply map_lookup_filter_Some in Hb as [_ Hb].
Qed.

(** An operation that neither removes the bridge nor touches the list of
    bridges. *)
Definition spares (u : string) (op : Operation) : Prop :=
  match op with
  | DeleteBridgeRow v => v ≠ u
  | MutateBridges _ _ _ => False
  | _ => True
  end.

Lemma apply_op_spares d op d' u st :
  spares u op → apply_op d op = Some d' → bridge_at d u st → bridge_at d' u st ∧ db_root d' = db_root d.
Proof.
  intros Hs H (b & Hb & Hst). destruct op; cbn in H, Hs; try (case_bool_decide; [|done]); try done; injection H as <-; cbn;
    try (split; [by exists b|done]).
  - split; [|done]. exists b. cbn. rewrite lookup_insert_ne; [done|]. intros <-. congruence.
  - split; [|done]. exists b. cbn. by rewrite lookup_delete_ne.
  - split; [|done]. destruct (decide (bridge = u)) as [->|Hne].
    + eexists. cbn. rewrite lookup_alter_eq, Hb. split; [done|exact Hst].
    + exists b. cbn. by rewrite lookup_alter_ne.
Qed.

Lemma apply_ops_spares d ops d' u st :
  Forall (spares u) ops → apply_ops d ops = Some d' → bridge_at d u st → bridge_at d' u st ∧ db_root d' = db_root d.
Proof.
  intros Hs. revert d. induction Hs as [|op ops Hop Hops IH]; intros d; cbn; [intros [= <-]; by split|].
  destruct (apply_op d op) as [d1|] eqn:E; [|done]. cbn. intros H Hb.
  destruct (apply_op_spares _ _ _ _ _ Hop E Hb) as [Hb1 R1]. destruct (IH _ H Hb1) as [Hb2 R2]. split; [done|congruence].
Qed.

Lemma commit_spares d ops d' u st :
  wf_db d → Forall (spares u) ops → commit d ops = Some d' → bridge_at d u st → bridge_at d' u st.
Proof.
  intros (_ & _ & Hg) Hs (d1 & H1 & -> & _)%commit_inv Hb. destruct (apply_ops_spares _ _ _ _ _ Hs H1 Hb) as [(b & Hb1 & Hst) R].
  exists b. split; [|done]. cbn. apply map_lookup_filter_Some. split; [done|]. cbn. rewrite R. apply Hg.
  destruct Hb as (b0 & -> & _). done.
Qed.

(** ** Moves of Open vSwitch *)

Lemma names_fmap {A} (f : A → string) (m : gmap string A) : f <$> (map_to_list m).*2 = (map_to_list (f <$> m)).*2.
Proof. rewrite map_to_list_fmap, <- !list_fmap_compose. by apply list_fmap_ext. Qed.

Lemma rely_wf s s' : ovs_rely s s' → wf_db (ovs_db s) → wf_db (ovs_db s').
Proof.
  intros (_ & _ & R1 & R2 & R3 & R4) ((K1 & K2 & K3) & V & Hg). destruct (ovs_db s) as [r bs ps is_], (ovs_db s') as [r' bs' ps' is']. cbn in *. subst.
  assert (Hif : ∀ u, is_Some (is_ !! u) ↔ is_Some (is' !! u)).
  { intros u. specialize (R4 u). destruct (is_ !! u), (is' !! u); by split. }
  split; [|split].
  - split; [done|]. split; [done|]. intros u i' Hi. specialize (R4 u). cbn in *. rewrite Hi in R4.
    destruct (is_ !! u) as [i|] eqn:E; [|done]. cbn in R4. rewrite R4. cbn. by apply K3.
  - destruct V as (V1 & V2 & V3 & V4 & V5 & V6). cbn in *. split_and!; try done.
    + eapply Forall_impl; [exact V3|]. cbn. intros kv [H1 H2]. split; [done|]. eapply Forall_impl; [exact H2|]. intros u. apply Hif.
    + assert (En : ife_Name <$> is' = ife_Name <$> is_).
      { apply map_eq. intros u. rewrite !lookup_fmap. specialize (R4 u). destruct (is_ !! u), (is' !! u); try done. cbn in *. by rewrite R4. }
      rewrite (names_fmap ife_Name) in V6. rewrite (names_fmap ife_Name). cbn [db_ifaces]. by rewrite En.
  - done.
Qed.

Lemma rely_bridge_at s s' u st : ovs_rely s s' → bridge_at (ovs_db s) u st → bridge_at (ovs_db s') u st.
Proof. intros (_ & _ & _ & R2 & _). unfold bridge_at. by rewrite R2. Qed.
