(* ===== verification/OvsSpec.v ===== *)
(** * A managed bridge becomes what was asked for

    The operations on bridges against the database of [OvsDb]. *)
From S2P Require Import Prelude GoLib Types Effects Ovs OvsDb.

Abbreviation ov p Q s := (wp ovs_world (λ _ _, True) p Q s).

(** ** What operations on interfaces leave alone *)

Definition frame (s s' : OvsState) : Prop :=
  (wf_db (ovs_db s) → wf_db (ovs_db s')) ∧ ovs_cache s' = ovs_cache s ∧ ovs_file s' = ovs_file s ∧
  (wf_db (ovs_db s) → ∀ u st, bridge_at (ovs_db s) u st → bridge_at (ovs_db s') u st).

#[export] Instance frame_preorder : PreOrder frame.
Proof.
  split; [intros s; unfold frame; auto|]. intros a b c (H1 & H2 & H3 & H4) (G1 & G2 & G3 & G4). split_and!; try congruence; [auto|].
  intros Hw u st Hb. apply G4; auto.
Qed.

Lemma rely_frame s s' : ovs_rely s s' → frame s s'.
Proof.
  intros Hr. split_and!; [by apply rely_wf|by apply Hr|by apply Hr|]. intros _ u st. by apply rely_bridge_at.
Qed.

Lemma relies_frame s s' : rtc ovs_rely s s' → frame s s'.
Proof. induction 1 as [|a b c Hr _ IH]; [done|]. transitivity b; [by apply rely_frame|exact IH]. Qed.

(** Requests that only read. *)
Definition reads (r : OvsReq) : bool :=
  match r with Transact _ | CacheSet _ | WriteStoreFile _ => false | _ => true end.

Lemma read_server s r x s' : reads r = true → ovs_server s r x s' → s' = s.
Proof. destruct r; cbn; try done; by intros _ [-> _] || (intros _ ->). Qed.

Lemma ov_read {A} r (k : OvsResp r → ovsM A) Q s :
  reads r = true → (∀ x s', ovs_server s r x s → frame s s' → rtc ovs_rely s s' → ov (k x) Q s') → ov (perform r ≫= k) Q s.
Proof.
  intros Hr H. apply wp_perform; [done|]. intros x s' (s1 & Hs & Hrel). pose proof (read_server _ _ _ _ Hr Hs) as ->.
  apply H; [done|by apply relies_frame|done].
Qed.

(** A transaction that spares every bridge. *)
Lemma transact_frame ops s (Q : string + unit → OvsState → Prop) :
  (∀ u st, bridge_at (ovs_db s) u st → Forall (spares u) ops) →
  (∀ r s', frame s s' → (r = inr tt → wf_db (ovs_db s) → ∃ s1 d', commit (ovs_db s) ops = Some d' ∧ s1 = set_db d' s ∧ rtc ovs_rely s1 s') → Q r s') →
  ov (execTransaction ops) Q s.
Proof.
  intros Hsp H. unfold execTransaction, checked. apply wp_perform; [done|]. intros x s' (s1 & Hs & Hr). apply wp_ret.
  assert (Hf : ∀ d', commit (ovs_db s) ops = Some d' → frame s (set_db d' s)).
  { intros d' Hc. split_and!; [intros Hw; by eapply commit_wf|done|done|]. intros Hw u st Hb. cbn.
    eapply commit_spares; [done|by eapply Hsp|done|done]. }
  apply H.
  - transitivity s1; [|by apply relies_frame]. cbn in Hs.
    destruct x as [e|]; [destruct Hs as [->|(d' & Hc & ->)]|destruct Hs as (d' & Hc & ->)]; [done|by apply Hf..].
  - intros Hx Hw. destruct x as [e|]; [done|]. destruct Hs as (d' & Hc & ->). by exists (set_db d' s), d'.
Qed.

(** Read, and go on if there was no error. *)
Ltac ov_read x s' := unfold prog_try; apply ov_read; [done|intros x s' ? ? ?].

Lemma frame_trans a b c : frame a b → frame b c → frame a c.
Proof. intros H1 H2. by transitivity b. Qed.

(** Compose what is known step by step. *)
Ltac framed :=
  lazymatch goal with |- wp _ _ _ _ _ => apply wp_ret | |- _ => idtac end;
  solve [done | repeat first [eassumption | eapply frame_trans; [eassumption|] | etransitivity; [eassumption|]]].

Lemma deleteInterfaceByName_frame n s : ov (deleteInterfaceByName n) (λ _ s', frame s s') s.
Proof.
  unfold deleteInterfaceByName, getInterfaceByName, getPortByInterface, getBridgeByPort. ov_read x s1.
  destruct x as [e|[iface|]]; [done| |done]. ov_read x s2.
  destruct x as [e|l]; [framed|]. cbn [mbind prog_mbind prog_bind]. destruct (head l) as [port|].
  2: { apply transact_frame; [by repeat constructor|]. intros r s3 Hf _. framed. }
  ov_read x s3. destruct x as [e|l']; [framed|]. cbn [mbind prog_mbind prog_bind].
  apply transact_frame.
  { intros u st _. destruct (head l'); by repeat constructor. }
  intros r s4 Hf _. framed.
Qed.

Lemma checkInterface_frame n u s : ov (checkInterface n u) (λ _ s', rtc ovs_rely s s') s.
Proof.
  revert s. induction n as [|n IH]; intros s; cbn [checkInterface]; [framed|]. ov_read x s1. ov_read y s2.
  assert (Hr : rtc ovs_rely s s2) by (by etransitivity).
  destruct y as [e|[i|]]; [done| |done]. destruct (ife_Error i); [done|].
  eapply wp_post; [apply IH|]. cbn. intros r s3 Hr'. by transitivity s2.
Qed.

(** ** An interface on a bridge *)

Definition attached (d : Db) (u : string) (iface : InterfaceEntry) : Prop :=
  ∃ b p i, db_bridges d !! u = Some b ∧ db_ports d !! pe_UUID p = Some p ∧ pe_UUID p ∈ be_Ports b ∧
    ife_UUID iface ∈ pe_Interfaces p ∧ db_ifaces d !! ife_UUID iface = Some i ∧ same_iface iface i.

Lemma same_iface_trans a b c : same_iface a b → same_iface b c → same_iface a c.
Proof. unfold same_iface. intros -> ->. done. Qed.

Lemma rely_attached s s' u iface : ovs_rely s s' → attached (ovs_db s) u iface → attached (ovs_db s') u iface.
Proof.
  intros (_ & _ & _ & R2 & R3 & R4) (b & p & i & H1 & H2 & H3 & H4 & H5 & H6). specialize (R4 (ife_UUID iface)).
  rewrite H5 in R4. destruct (db_ifaces (ovs_db s') !! _) as [i'|] eqn:E; [|done].
  exists b, p, i'. rewrite R2, R3. split_and!; try done. by eapply same_iface_trans.
Qed.

Lemma relies_attached s s' u iface : rtc ovs_rely s s' → attached (ovs_db s) u iface → attached (ovs_db s') u iface.
Proof. induction 1; eauto using rely_attached. Qed.

Lemma elem_of_mutate l u : u ∈ mutate true l u.
Proof. unfold mutate. case_bool_decide; [done|]. set_solver. Qed.

Lemma elem_of_column {A} (f : A → list string) (m : gmap string A) u k a :
  m !! k = Some a → u ∈ f a → u ∈ concat (f <$> (map_to_list m).*2).
Proof.
  intros Hm Hu. apply list_elem_of_In, in_concat. exists (f a). split; apply list_elem_of_In; [|done].
  apply list_elem_of_fmap. exists a. split; [done|]. apply list_elem_of_fmap. exists (k, a). split; [done|]. by apply elem_of_map_to_list.
Qed.

Lemma commit_add d u st pu n iface d' :
  wf_db d → bridge_at d u st →
  commit d [CreateInterfaceRow iface; CreatePortRow (mkPortEntry pu n [ife_UUID iface]); MutatePorts u true pu] = Some d' →
  attached d' u iface.
Proof.
  intros (K & _ & Hg) (b & Hb & _) (d1 & H & -> & _)%commit_inv. cbn in H.
  case_bool_decide; [|done]. cbn in H. case_bool_decide as Hp; [|done]. cbn in H, Hp. injection H as <-.
  set (b' := be_set_Ports (mutate true (be_Ports b) pu) b). set (p := mkPortEntry pu n [ife_UUID iface]).
  assert (HB : filter (λ kv, kv.1 ∈ os_Bridges (db_root d)) (alter (λ row, be_set_Ports (mutate true (be_Ports row) pu) row) u (db_bridges d)) !! u = Some b').
  { apply map_lookup_filter_Some. split; [by rewrite lookup_alter_eq, Hb|]. cbn. by apply Hg; rewrite Hb. }
  exists b', p, iface. unfold collect. cbn. split_and!.
  - exact HB.
  - apply map_lookup_filter_Some. split; [apply lookup_insert_eq|]. cbn. eapply (elem_of_column be_Ports); [exact HB|]. apply elem_of_mutate.
  - apply elem_of_mutate.
  - by left.
  - apply map_lookup_filter_Some. split; [apply lookup_insert_eq|]. cbn.
    eapply (elem_of_column pe_Interfaces _ _ pu p); [|by left]. apply map_lookup_filter_Some. split; [apply lookup_insert_eq|].
    cbn. eapply (elem_of_column be_Ports); [exact HB|]. apply elem_of_mutate.
  - unfold same_iface. by destruct iface.
Qed.

Lemma addInterface_spec br iface s :
  ov (addInterface br iface) (λ r s', frame s s' ∧
    ∀ st, r = inr tt → wf_db (ovs_db s) → bridge_at (ovs_db s) (be_UUID br) st → attached (ovs_db s') (be_UUID br) iface) s.
Proof.
  unfold addInterface. ov_read uuid s1. apply wp_try, transact_frame; [by repeat constructor|].
  intros [e|[]] s2 Hf Hc.
  { split; [framed|done]. }
  eapply wp_post; [apply checkInterface_frame|]. cbn beta. intros r s3 Hr. split.
  { pose proof (relies_frame _ _ Hr). framed. }
  intros st _ Hw Hb. destruct H0 as (W1 & C1 & F1 & B1).
  destruct (Hc eq_refl (W1 Hw)) as (s' & d' & Hcom & -> & Hr').
  eapply relies_attached; [etransitivity; [exact Hr'|exact Hr]|]. cbn. eapply commit_add; [by apply W1|by apply B1|exact Hcom].
Qed.

Lemma ensureInternalInterface_frame br s : ov (ensureInternalInterface br) (λ _ s', frame s s') s.
Proof.
  assert (Hadd : ∀ s, ov (uuid ← perform NewUUID; addInterface br (mkInterfaceEntry uuid (be_Name br) "internal" None ∅ ∅ ∅ None))
    (λ _ s', frame s s') s).
  { intros s0. ov_read uuid s1. eapply wp_post; [apply addInterface_spec|]. cbn. intros r s2 [Hf _]. framed. }
  unfold ensureInternalInterface, getInterfaceByName. cbv zeta. ov_read x s1.
  destruct x as [e|[i|]]; [framed| |eapply wp_post; [apply Hadd|]; cbn; intros r s2 Hf; framed].
  destruct (ife_Error i); [|framed]. apply wp_try. eapply wp_post; [apply deleteInterfaceByName_frame|]. cbn beta.
  intros [e'|[]] s2 Hf; [framed|]. eapply wp_post; [apply Hadd|]. cbn. intros r s3 Hf'. framed.
Qed.

(** ** The bridge *)

(** What holds of any operation on the database. *)
Definition db_only (s s' : OvsState) : Prop :=
  (wf_db (ovs_db s) → wf_db (ovs_db s')) ∧ ovs_cache s' = ovs_cache s ∧ ovs_file s' = ovs_file s.

Lemma frame_db_only s s' : frame s s' → db_only s s'.
Proof. intros (H1 & H2 & H3 & _). by split_and!. Qed.

Lemma db_only_trans a b c : db_only a b → db_only b c → db_only a c.
Proof. intros (H1 & H2 & H3) (G1 & G2 & G3). split_and!; [auto|congruence..]. Qed.

Lemma transact_db_only ops s (Q : string + unit → OvsState → Prop) :
  (∀ r s', db_only s s' → (r = inr tt → ∃ d', commit (ovs_db s) ops = Some d' ∧ rtc ovs_rely (set_db d' s) s') → Q r s') →
  ov (execTransaction ops) Q s.
Proof.
  intros H. unfold execTransaction, checked. apply wp_perform; [done|]. intros x s' (s1 & Hs & Hr). apply wp_ret.
  assert (Hf : ∀ d', commit (ovs_db s) ops = Some d' → db_only s (set_db d' s)).
  { intros d' Hc. split_and!; [intros Hw; by eapply commit_wf|done|done]. }
  apply H.
  - eapply db_only_trans; [|by apply frame_db_only, relies_frame]. cbn in Hs.
    destruct x as [e|]; [destruct Hs as [->|(d' & Hc & ->)]|destruct Hs as (d' & Hc & ->)]; [by split_and!|by apply Hf..].
  - intros Hx. destruct x as [e|]; [done|]. destruct Hs as (d' & Hc & ->). by exists d'.
Qed.

Lemma commit_create d br d' :
  commit d [CreateBridgeRow br; MutateBridges (os_UUID (db_root d)) true (be_UUID br)] = Some d' →
  bridge_at d' (be_UUID br) (settings br).
Proof.
  intros (d1 & H & -> & _)%commit_inv. cbn in H. case_bool_decide; [|done]. cbn in H. rewrite String.eqb_refl in H. injection H as <-.
  exists br. split; [|done]. cbn. apply map_lookup_filter_Some. split; [apply lookup_insert_eq|]. apply elem_of_mutate.
Qed.

Lemma deleteBridgeByName_db_only n s :
  ov (deleteBridgeByName n) (λ r s', db_only s s') s.
Proof.
  unfold deleteBridgeByName, getBridgeByName, getRootObj. ov_read x s1. apply frame_db_only in H0.
  destruct x as [e|[br|]]; [framed| |framed]. ov_read y s2. apply frame_db_only in H3.
  destruct y as [e|l]; [by eapply db_only_trans|]. cbn [mbind prog_mbind prog_bind]. destruct l as [|o l]; [by eapply db_only_trans|].
  apply transact_db_only. intros r s3 Hd _. eapply db_only_trans; [|exact Hd]. by eapply db_only_trans.
Qed.

Lemma relies_root s s' : rtc ovs_rely s s' → db_root (ovs_db s') = db_root (ovs_db s).
Proof. induction 1 as [|a b c (_ & _ & R & _) _ IH]; congruence. Qed.

Lemma relies_bridges s s' : rtc ovs_rely s s' → db_bridges (ovs_db s') = db_bridges (ovs_db s).
Proof. induction 1 as [|a b c (_ & _ & _ & R & _) _ IH]; congruence. Qed.

Lemma createBridge_spec br s :
  ov (createBridge br) (λ r s', db_only s s' ∧ (r = inr tt → bridge_at (ovs_db s') (be_UUID br) (settings br))) s.
Proof.
  unfold createBridge, getRootObj. ov_read y s1. apply frame_db_only in H0.
  destruct y as [e|l]; [by split|]. cbn [mbind prog_mbind prog_bind]. destruct l as [|o l]; [by split|].
  destruct H as [_ [= -> ->]]. rewrite <- (relies_root _ _ H1).
  apply transact_db_only. intros r s2 Hd Hc. split; [by eapply db_only_trans|]. intros Hr.
  destruct (Hc Hr) as (d' & Hcom & Hr2). apply commit_create in Hcom as (b & Hb & Hst). exists b.
  rewrite (relies_bridges _ _ Hr2). by split.
Qed.

Definition conf_settings (conf : OVSConfigExt) : string * string * gmap string string * gmap string string * option string :=
  let b := oce_Bridge conf in
  (oce_Name conf, obc_DatapathType b, obc_ExternalIDs b, obc_OtherConfig b,
   if String.eqb (obc_FailMode b) "" then None else Some (obc_FailMode b)).

Lemma recreateBridge_spec conf s :
  ov (recreateBridge conf) (λ r s', db_only s s' ∧ (r = inr tt → ∃ u, bridge_at (ovs_db s') u (conf_settings conf))) s.
Proof.
  unfold recreateBridge. apply wp_try. eapply wp_post; [apply deleteBridgeByName_db_only|]. cbn beta.
  intros [e|[]] s1 Hd; [by split|]. ov_read uuid s2. apply frame_db_only in H0. eapply wp_post; [apply createBridge_spec|].
  cbn beta. intros r s3 [Hd3 Hb]. split; [eapply db_only_trans, db_only_trans; eassumption|]. intros Hr. exists uuid. by apply Hb.
Qed.

(** ** Settings and what is reported of them *)

Lemma updateMap_same m : updateMap m m = m.
Proof. apply map_eq. intros k. unfold updateMap. rewrite map_lookup_imap. by destruct (m !! k). Qed.

Lemma updateMap_twice old new : updateMap (updateMap old new) new = updateMap old new.
Proof. apply map_eq. intros k. unfold updateMap. rewrite !map_lookup_imap. destruct (old !! k); [|done]. cbn. by destruct (new !! k). Qed.

Lemma bridgeConfig_created conf b : settings b = conf_settings conf → bridgeConfig conf b = oce_Bridge conf.
Proof.
  intros [= _ H1 H2 H3 H4]. unfold bridgeConfig. rewrite H1, H2, H3, H4, !updateMap_same.
  destruct (oce_Bridge conf) as [a e o f]. cbn. destruct (String.eqb_spec f "") as [->|]; done.
Qed.

(** What was reported for the known configuration is right for the new one. *)
Lemma bridgeConfig_kept conf known b : oce_Bridge conf = bridgeConfig known b → bridgeConfig conf b = oce_Bridge conf.
Proof. intros H. unfold bridgeConfig at 1. rewrite H. cbn. by rewrite !updateMap_twice. Qed.

Lemma uplinkConfig_kept uplink known i : uplink = uplinkConfig known i → uplinkConfig uplink i = uplink.
Proof. intros ->. unfold uplinkConfig. cbn. by rewrite !updateMap_twice. Qed.

(** ** Reading the state of a bridge *)

Definition reported (known cur : OVSConfigExt) (d : Db) : Prop :=
  ∃ b, db_bridges d !! be_UUID b = Some b ∧ be_Name b = oce_Name known ∧ oce_Name cur = be_Name b ∧
    oce_Bridge cur = bridgeConfig known b ∧
    (oce_Uplinks cur = [] ∨
     ∃ uplink rest i, oce_Uplinks known = uplink :: rest ∧ oce_Uplinks cur = [uplinkConfig uplink i] ∧
       ife_Name i = oue_Name uplink ∧ attached d (be_UUID b) i).

Lemma relies_ports s s' : rtc ovs_rely s s' → db_ports (ovs_db s') = db_ports (ovs_db s).
Proof. induction 1 as [|a b c (_ & _ & _ & _ & R & _) _ IH]; congruence. Qed.

Lemma relies_iface s s' u i :
  rtc ovs_rely s s' → db_ifaces (ovs_db s) !! u = Some i → ∃ i', db_ifaces (ovs_db s') !! u = Some i' ∧ same_iface i i'.
Proof.
  intros Hr. revert i. induction Hr as [|a b c (_ & _ & _ & _ & _ & R) _ IH]; intros i Hi.
  - exists i. split; [done|]. unfold same_iface. by destruct i.
  - specialize (R u). rewrite Hi in R. destruct (db_ifaces (ovs_db b) !! u) as [i1|] eqn:E; [|done].
    destruct (IH i1 eq_refl) as (i2 & H2 & S2). exists i2. split; [done|]. by eapply same_iface_trans.
Qed.

Lemma getCurrentBridgeState_spec known s :
  ov (getCurrentBridgeState known) (λ r s', rtc ovs_rely s s' ∧
    ∀ cur, r = inr (Some cur) → reported known cur (ovs_db s')) s.
Proof.
  unfold getCurrentBridgeState, getBridgeByName, getInterfaceByName, getPortByInterface. ov_read x s1.
  destruct x as [e|[b|]]; [by split| |by split]. destruct H as [_ [Hb Hn]]. cbv zeta.
  assert (Hbare : ∀ s', rtc ovs_rely s s' → reported known (mkOVSConfigExt (be_Name b) (bridgeConfig known b) []) (ovs_db s')).
  { intros s' Hr. exists b. rewrite (relies_bridges _ _ Hr). split_and!; try done. by left. }
  assert (Hend : ∀ s', rtc ovs_rely s s' → rtc ovs_rely s s' ∧ ∀ cur, inr (A := string) (Some
    (mkOVSConfigExt (be_Name b) (bridgeConfig known b) [])) = inr (Some cur) → reported known cur (ovs_db s')).
  { intros s' Hr. split; [done|]. intros cur [= <-]. by apply Hbare. }
  destruct (oce_Uplinks known) as [|uplink rest] eqn:Eu; [by apply Hend|]. ov_read x s2.
  assert (Hr2 : rtc ovs_rely s s2) by (by etransitivity).
  destruct x as [e|[iface|]]; [by split| |by apply Hend]. destruct H as [_ [Hi Hin]]. case_bool_decide; [by apply Hend|].
  ov_read x s3. assert (Hr3 : rtc ovs_rely s s3) by (by etransitivity).
  destruct x as [e|l]; [by split|]. cbn [mbind prog_mbind prog_bind]. destruct l as [|port l]; [by apply Hend|]. cbn [head].
  destruct H4 as [_ Hl]. destruct (proj1 (Hl port)) as [Hp Hinc]; [by left|].
  destruct (HasPort b (pe_UUID port)) eqn:Ehp; cbn [negb]; [|by apply Hend]. apply bool_decide_eq_true in Ehp.
  split; [done|]. intros cur [= <-]. exists b. cbn. rewrite (relies_bridges _ _ Hr3). split_and!; try done.
  right. exists uplink, rest, iface. split_and!; try done.
  destruct (relies_iface s1 s3 _ _ ltac:(by etransitivity) Hi) as (i' & Hi' & Hsame).
  exists b, port, i'. rewrite (relies_bridges _ _ Hr3), (relies_ports _ _ H6). split_and!; try done. by apply Hinc.
Qed.

(** ** Convergence *)

(** The bridge and its uplink are as configured, up to the error column. *)
Definition in_place (conf : OVSConfigExt) (uplink : OVSUplinkConfigExt) (d : Db) : Prop :=
  ∃ u b i, db_bridges d !! u = Some b ∧ be_Name b = oce_Name conf ∧ bridgeConfig conf b = oce_Bridge conf ∧
    ife_Name i = oue_Name uplink ∧ uplinkConfig uplink i = uplink ∧ attached d u i.

(** A bridge whose own settings are as configured. *)
Definition bridge_ok (conf : OVSConfigExt) (d : Db) : Prop :=
  ∃ u st, bridge_at d u st ∧ ∀ b, settings b = st → be_Name b = oce_Name conf ∧ bridgeConfig conf b = oce_Bridge conf.

Lemma bridge_ok_created conf d u : bridge_at d u (conf_settings conf) → bridge_ok conf d.
Proof.
  intros H. exists u, (conf_settings conf). split; [done|]. intros b Hb. split; [by injection Hb|by apply bridgeConfig_created].
Qed.

Lemma bridge_ok_frame conf s s' : frame s s' → wf_db (ovs_db s) → bridge_ok conf (ovs_db s) → bridge_ok conf (ovs_db s').
Proof. intros (_ & _ & _ & H) Hw (u & st & Hb & Hst). exists u, st. split; [by apply H|done]. Qed.

(** Names tell bridges apart. *)
Lemma bridge_name_unique d u b v c :
  valid d → db_bridges d !! u = Some b → db_bridges d !! v = Some c → be_Name b = be_Name c → u = v ∧ b = c.
Proof.
  intros (_ & _ & _ & Hnd & _) Hb Hc Hn. rewrite <- list_fmap_compose in Hnd.
  apply elem_of_map_to_list, list_elem_of_lookup in Hb as [i Hi]. apply elem_of_map_to_list, list_elem_of_lookup in Hc as [j Hj].
  assert (i = j) as <-; [|rewrite Hi in Hj; by injection Hj].
  eapply NoDup_lookup; [exact Hnd|..]; rewrite list_lookup_fmap, ?Hi, ?Hj; cbn; [done|by rewrite Hn].
Qed.

Lemma settings_inv b b' : settings b = settings b' → be_Name b = be_Name b' ∧ ∀ conf, bridgeConfig conf b = bridgeConfig conf b'.
Proof. intros [= H1 H2 H3 H4 H5]. split; [done|]. intros conf. unfold bridgeConfig. by rewrite H2, H3, H4, H5. Qed.

Lemma attachUplink_spec conf uplink keep s :
  wf_db (ovs_db s) → (keep = true → bridge_ok conf (ovs_db s)) →
  ov (attachUplink conf uplink keep) (λ r s', db_only s s' ∧ (r = inr tt → in_place conf uplink (ovs_db s'))) s.
Proof.
  intros Hw Hk. unfold attachUplink. apply wp_try. eapply wp_post; [apply deleteInterfaceByName_frame|]. cbn beta.
  intros [e|[]] s1 F1; [split; [by apply frame_db_only|done]|]. apply wp_try.
  eapply (wp_post ovs_world (λ _ _, True) _ (λ (r : string + unit) (s2 : OvsState), db_only s1 s2 ∧ (r = inr tt → bridge_ok conf (ovs_db s2)))).
  { destruct keep.
    - split; [by split_and!|]. intros _. eapply bridge_ok_frame; [exact F1|done|by apply Hk].
    - eapply wp_post; [apply recreateBridge_spec|]. cbn beta. intros r s2 [D2 B2]. split; [done|]. intros Hr.
      destruct (B2 Hr) as [u Hu]. by eapply bridge_ok_created. }
  cbn beta. intros [e|[]] s2 [D2 B2]; pose proof (db_only_trans _ _ _ (frame_db_only _ _ F1) D2) as D02; [by split|].
  specialize (B2 eq_refl). assert (Hw2 : wf_db (ovs_db s2)) by (by apply D02). clear D2.
  unfold getBridgeByName. ov_read x s3. destruct x as [e|[b|]].
  1, 3: split; [|done]; eapply db_only_trans; [exact D02|by apply frame_db_only].
  destruct H as [_ [Hb Hn]]. destruct B2 as (u & st & (b0 & Hb0 & Hst0) & Hst).
  assert (Eb : u = be_UUID b ∧ b0 = b).
  { eapply bridge_name_unique; [apply Hw2|done|done|]. rewrite Hn. by apply Hst. } destruct Eb as [-> ->].
  apply wp_try. eapply wp_post; [apply ensureInternalInterface_frame|]. cbn beta. intros [e|[]] s4 F4.
  { split; [|done]. eapply db_only_trans; [exact D02|]. apply frame_db_only. by eapply frame_trans. }
  ov_read uuid s5. eapply wp_post; [apply addInterface_spec|]. cbn beta. intros r s6 [F6 A6].
  assert (F25 : frame s2 s5) by (eapply frame_trans, frame_trans; eassumption).
  assert (F26 : frame s2 s6) by (by eapply frame_trans).
  split; [eapply db_only_trans; [exact D02|by apply frame_db_only]|].
  intros Hr. assert (Hat : bridge_at (ovs_db s5) (be_UUID b) st) by (apply F25; [done|by exists b]).
  specialize (A6 st Hr (proj1 F25 Hw2) Hat).
  assert (Hat6 : bridge_at (ovs_db s6) (be_UUID b) st) by (apply F26; [done|by exists b]).
  destruct Hat6 as (b6 & Hb6 & Hst6). eexists (be_UUID b), b6, _. split_and!; cycle -1; [exact A6|exact Hb6| | |reflexivity|].
  - by apply Hst.
  - by apply Hst.
  - unfold uplinkConfig. cbn. rewrite !updateMap_same. by destruct uplink as [? ? []].
Qed.

(** ** The store *)

(** What the store holds is in the file, each bridge under its name. *)
Definition stored (s : OvsState) : Prop :=
  (∀ c, ovs_cache s = Some c → c = default ∅ (ovs_file s)) ∧
  map_Forall (λ n br, oce_Name br = n) (default ∅ (ovs_file s)).

(** Only Open vSwitch changes the database meanwhile. *)
Definition db_moved (s s' : OvsState) : Prop :=
  (wf_db (ovs_db s) → wf_db (ovs_db s')) ∧ db_bridges (ovs_db s') = db_bridges (ovs_db s).

Lemma db_moved_trans a b c : db_moved a b → db_moved b c → db_moved a c.
Proof. intros [H1 H2] [G1 G2]. split; [auto|congruence]. Qed.

Lemma relies_moved s s' : rtc ovs_rely s s' → db_moved s s'.
Proof. intros Hr. split; [by apply relies_frame|by apply relies_bridges]. Qed.

Lemma same_store s s' : ovs_cache s' = ovs_cache s → ovs_file s' = ovs_file s → stored s → stored s'.
Proof. unfold stored. by intros -> ->. Qed.

Lemma frame_store s s' : frame s s' → stored s → stored s'.
Proof. intros (_ & H1 & H2 & _). by apply same_store. Qed.

Lemma db_only_store s s' : db_only s s' → stored s → stored s'.
Proof. intros (_ & H1 & H2). by apply same_store. Qed.

Lemma relies_store s s' : rtc ovs_rely s s' → ovs_cache s' = ovs_cache s ∧ ovs_file s' = ovs_file s.
Proof. intros Hr. destruct (relies_frame _ _ Hr) as (_ & H1 & H2 & _). by split. Qed.

(** Changing the cache. *)
Lemma ov_cache_set {A} c (k : unit → ovsM A) Q s :
  (∀ s', db_moved s s' → ovs_cache s' = Some c → ovs_file s' = ovs_file s → ov (k tt) Q s') → ov (perform (CacheSet c) ≫= k) Q s.
Proof.
  intros H. apply wp_perform; [done|]. intros [] s' (s1 & -> & Hr). destruct (relies_store _ _ Hr) as [Hc Hf].
  apply H; [|by rewrite Hc|by rewrite Hf]. eapply db_moved_trans; [|by apply relies_moved]. by split.
Qed.

Definition loaded (s : OvsState) (r : string + gmap string OVSConfigExt) (s' : OvsState) : Prop :=
  db_moved s s' ∧ stored s' ∧ ovs_file s' = ovs_file s ∧ ∀ c, r = inr c → ovs_cache s' = Some c.

Lemma loaded_trans a b r c : db_moved a b → ovs_file b = ovs_file a → loaded b r c → loaded a r c.
Proof. intros M F (M' & S' & F' & C'). split_and!; [by eapply db_moved_trans|done|congruence|done]. Qed.

Lemma loaded_failed s e s' : frame s s' → rtc ovs_rely s s' → stored s → loaded s (inl e) s'.
Proof. intros F R Hst. split_and!; [by apply relies_moved|by eapply frame_store|by apply F|done]. Qed.

Lemma load_spec s :
  stored s → ov (cache ⇐ readStoreFile; perform (CacheSet cache) ≫= λ _, Ret (inr (A := string) cache)) (loaded s) s.
Proof.
  intros Hst. unfold readStoreFile. ov_read x s1. destruct x as [e|f]; [by apply loaded_failed|]. destruct H as [_ ->].
  cbn [mbind prog_mbind prog_bind]. pose proof (frame_store _ _ H0 Hst) as Hs1. destruct H0 as (_ & _ & F1 & _).
  apply ov_cache_set. intros s2 M2 C2 F2. eapply loaded_trans; [by apply relies_moved|done|]. split_and!; try done.
  - split; [|rewrite F2; by apply Hs1]. intros c. rewrite C2, F2, F1. by intros [= <-].
  - intros c [= <-]. by rewrite C2.
Qed.

Lemma ensureCacheIsLoaded_spec s : stored s → ov ensureCacheIsLoaded (loaded s) s.
Proof.
  intros Hst. unfold ensureCacheIsLoaded, ensureStoreDirExist, checked.
  apply ov_read; [done|]. intros c s1 [_ ->] F1 R1. apply relies_moved in R1. pose proof (frame_store _ _ F1 Hst) as Hst1.
  destruct F1 as (_ & C1 & F1 & _).
  destruct (ovs_cache s) as [cache|] eqn:E; [split_and!; try done; by intros c [= <-]|].
  assert (Hend : ∀ s2, frame s1 s2 → rtc ovs_rely s1 s2 →
    ov (cache ⇐ readStoreFile; perform (CacheSet cache) ≫= λ _, Ret (inr (A := string) cache)) (loaded s) s2).
  { intros s2 F2 R2. eapply wp_post; [by apply load_spec, (frame_store _ _ F2)|]. cbn beta. intros r s3 L. eapply loaded_trans; [exact R1|done|].
    eapply loaded_trans; [by apply relies_moved|by apply F2|done]. }
  apply wp_try. ov_read x s2.
  destruct x as [e|[]]; [eapply loaded_trans; [exact R1|done|by apply loaded_failed]|by apply Hend|].
  apply ov_read; [done|]. intros x s3 _ F3 R3. pose proof (frame_trans _ _ _ H0 F3) as F13.
  assert (R13 : rtc ovs_rely s1 s3) by (by etransitivity).
  destruct x as [e|]; [eapply loaded_trans; [exact R1|done|by apply loaded_failed]|by apply Hend].
Qed.

(** A failed update leaves the store as it was. *)
Lemma updateStore_spec f name s :
  (∀ c, match c !! name with Some v => <[name := v]> (f c) | None => delete name (f c) end = c) →
  (∀ c, map_Forall (λ n br, oce_Name br = n) c → map_Forall (λ n br, oce_Name br = n) (f c)) → stored s →
  ov (updateStore f name) (λ r s', db_moved s s' ∧ stored s' ∧
    match r with
    | inr _ => ovs_cache s' = Some (f (default ∅ (ovs_file s))) ∧ ovs_file s' = Some (f (default ∅ (ovs_file s)))
    | inl _ => ovs_file s' = ovs_file s
    end) s.
Proof.
  intros Hundo Hf Hst. unfold updateStore. apply wp_try. eapply wp_post; [by apply ensureCacheIsLoaded_spec|]. cbn beta.
  intros [e|cache] s1 (M1 & S1 & F1 & C1); [by split_and!|]. specialize (C1 _ eq_refl).
  assert (Ec : cache = default ∅ (ovs_file s)) by (rewrite <- F1; by apply S1). cbv zeta.
  apply ov_cache_set. intros s2 M2 C2 F2. pose proof (db_moved_trans _ _ _ M1 M2) as M12.
  apply wp_perform; [done|]. intros w s3 (s3' & Hw & R3). destruct (relies_store _ _ R3) as [C3 F3]. apply relies_moved in R3.
  cbn in Hw. destruct w as [e|].
  - subst s3'. apply ov_cache_set. intros s4 M4 C4 F4. rewrite Hundo in C4. assert (E4 : ovs_file s4 = ovs_file s) by congruence.
    split_and!; [by do 2 (eapply db_moved_trans; [eassumption|])| |done].
    split; rewrite E4; [|rewrite <- F1; by apply S1]. intros c. rewrite C4, <- Ec. by intros [= <-].
  - subst s3'. cbn in C3, F3. apply wp_ret. rewrite C2 in C3. rewrite Ec in C3, F3. split_and!; [| |done|done].
    + eapply db_moved_trans; [exact M12|]. by eapply db_moved_trans.
    + unfold stored. rewrite C3, F3. split; [by intros c [= <-]|]. cbn. apply Hf. rewrite <- F1. apply S1.
Qed.

Lemma AddManagedOVSBridge_spec br s :
  stored s →
  ov (AddManagedOVSBridge br) (λ r s', db_moved s s' ∧ stored s' ∧
    match r with
    | inr _ => ovs_file s' = Some (<[oce_Name br := br]> (default ∅ (ovs_file s)))
    | inl _ => ovs_file s' = ovs_file s
    end) s.
Proof.
  intros Hst. eapply wp_post; [apply updateStore_spec; [| |done]|].
  - intros c. destruct (c !! oce_Name br) as [v|] eqn:E; [by rewrite insert_insert_eq, insert_id|by rewrite delete_insert_id].
  - intros c Hc. by apply map_Forall_insert_2.
  - cbn beta. intros [e|[]] s' (M & S' & H); split_and!; try done. by apply H.
Qed.

Lemma RemoveManagedOVSBridge_spec name s :
  stored s →
  ov (RemoveManagedOVSBridge name) (λ r s', db_moved s s' ∧ stored s' ∧
    match r with
    | inr _ => ovs_file s' = Some (delete name (default ∅ (ovs_file s)))
    | inl _ => ovs_file s' = ovs_file s
    end) s.
Proof.
  intros Hst. eapply wp_post; [apply updateStore_spec; [| |done]|].
  - intros c. destruct (c !! name) as [v|] eqn:E; [by rewrite insert_delete_eq, insert_id|by rewrite (delete_id (delete name c)), delete_id by (by rewrite ?lookup_delete_eq)].
  - intros c Hc. by apply map_Forall_delete.
  - cbn beta. intros [e|[]] s' (M & S' & H); split_and!; try done. by apply H.
Qed.

Lemma GetManagedOVSBridge_spec name s :
  stored s →
  ov (GetManagedOVSBridge name) (λ r s', db_moved s s' ∧ stored s' ∧ ovs_file s' = ovs_file s ∧
    ∀ known, r = inr known → known = default ∅ (ovs_file s) !! name) s.
Proof.
  intros Hst. unfold GetManagedOVSBridge. apply wp_try. eapply wp_post; [by apply ensureCacheIsLoaded_spec|]. cbn beta.
  intros [e|c] s1 (M & S1 & F & C); split_and!; try done. intros known [= <-]. rewrite <- F.
  by rewrite (proj1 S1 _ (C _ eq_refl)).
Qed.

(** ** Creating a bridge *)

Lemma reported_bridge_ok conf known cur d :
  oce_Name known = oce_Name conf → reported known cur d → oce_Bridge conf = oce_Bridge cur → bridge_ok conf d.
Proof.
  intros Hn (b & Hb & Hbn & _ & Hcur & _) He. exists (be_UUID b), (settings b). split; [by exists b|].
  intros b' [Hn' Hc']%settings_inv. split; [congruence|]. rewrite Hc'. apply (bridgeConfig_kept _ known). by rewrite He.
Qed.

Lemma reported_in_place conf known uplink d :
  oce_Uplinks conf = [uplink] → reported known conf d → in_place conf uplink d.
Proof.
  intros Hu (b & Hb & Hbn & Hn & Hcur & [Hno|(up & rest & i & _ & Hup & Hi & Hatt)]); [congruence|].
  rewrite Hu in Hup. injection Hup as Hup. exists (be_UUID b), b, i. split_and!; try done.
  - by eapply bridgeConfig_kept.
  - rewrite Hi, Hup. done.
  - by eapply uplinkConfig_kept.
Qed.

(** The store's entries under other names. *)
Definition others_stored (name : string) (s s' : OvsState) : Prop :=
  ∀ n, n ≠ name → default ∅ (ovs_file s') !! n = default ∅ (ovs_file s) !! n.

Lemma others_stored_file name s s' : ovs_file s' = ovs_file s → others_stored name s s'.
Proof. intros H n _. by rewrite H. Qed.

Lemma others_stored_trans name a b c : others_stored name a b → others_stored name b c → others_stored name a c.
Proof. intros H1 H2 n Hn. by rewrite H2, H1. Qed.

Definition created (conf : OVSConfigExt) (uplink : OVSUplinkConfigExt) (s : OvsState) (r : string + unit) (s' : OvsState) : Prop :=
  wf_db (ovs_db s') ∧ stored s' ∧ others_stored (oce_Name conf) s s' ∧
  (r = inr tt → in_place conf uplink (ovs_db s') ∧ default ∅ (ovs_file s') !! oce_Name conf = Some conf).

Lemma attachUplink_created conf uplink keep s s4 :
  wf_db (ovs_db s4) → stored s4 → others_stored (oce_Name conf) s s4 → default ∅ (ovs_file s4) !! oce_Name conf = Some conf →
  (keep = true → bridge_ok conf (ovs_db s4)) → ov (attachUplink conf uplink keep) (created conf uplink s) s4.
Proof.
  intros W4 S4 O4 H4 Hk. eapply wp_post; [by apply attachUplink_spec|]. cbn beta. intros r s5 [D5 I5].
  destruct D5 as (W5 & C5 & F5). split_and!; [by apply W5|by eapply same_store|..].
  - eapply others_stored_trans; [done|]. by apply others_stored_file.
  - intros Hr. split; [by apply I5|]. by rewrite F5.
Qed.

(** The configuration is recorded unless it is already. *)
Lemma record_spec conf known s :
  wf_db (ovs_db s) → stored s → known = default ∅ (ovs_file s) !! oce_Name conf →
  ov (if bool_decide (known = Some conf) then Ret (inr tt) else AddManagedOVSBridge conf) (λ r s', wf_db (ovs_db s') ∧ stored s' ∧
    others_stored (oce_Name conf) s s' ∧ (r = inr tt → default ∅ (ovs_file s') !! oce_Name conf = Some conf)) s.
Proof.
  intros Hw Hst Hk. case_bool_decide as Hc; [apply wp_ret; split_and!; [done..|]; congruence|].
  eapply wp_post; [by apply AddManagedOVSBridge_spec|]. cbn beta. intros r s' (M & S' & H). split_and!; [by apply M|done|..].
  - destruct r; [by apply others_stored_file|]. intros n Hn. rewrite H. cbn. by rewrite lookup_insert_ne.
  - intros ->. rewrite H. apply lookup_insert_eq.
Qed.

Lemma CreateOVSBridge_spec conf uplink s :
  oce_Uplinks conf = [uplink] → wf_db (ovs_db s) → stored s → ov (CreateOVSBridge conf) (created conf uplink s) s.
Proof.
  intros Hu Hw Hst. unfold CreateOVSBridge. rewrite Hu. apply wp_try. unfold checked at 1. apply ov_read; [done|].
  intros x s1 _ F1 R1. pose proof (frame_store _ _ F1 Hst) as S1. assert (W1 : wf_db (ovs_db s1)) by (by apply F1).
  assert (O1 : others_stored (oce_Name conf) s s1) by (apply others_stored_file, F1).
  destruct x as [e|]; [by split_and!|]. apply wp_ret, wp_try. eapply wp_post; [by apply GetManagedOVSBridge_spec|]. cbn beta.
  intros [e|known] s2 (M2 & S2 & F2 & K2).
  { split_and!; [by apply M2|done| |done]. eapply others_stored_trans; [done|by apply others_stored_file]. }
  specialize (K2 _ eq_refl). apply wp_try. eapply wp_post; [apply record_spec; [by apply M2|done|by rewrite F2]|]. cbn beta.
  intros r s3 (W3 & S3 & O3 & H3).
  assert (O13 : others_stored (oce_Name conf) s s3).
  { eapply others_stored_trans; [done|]. eapply others_stored_trans; [by apply others_stored_file|done]. }
  destruct r as [e|[]]; [by split_and!|]. specialize (H3 eq_refl).
  destruct known as [knownConfig|]; [|by apply attachUplink_created]. apply wp_try. eapply wp_post; [apply getCurrentBridgeState_spec|].
  cbn beta. intros r s4 [R4 P4]. apply relies_frame in R4 as F4. pose proof (frame_store _ _ F4 S3) as S4.
  destruct F4 as (W4 & _ & F4 & _). specialize (W4 W3). rewrite <- F4 in H3.
  assert (O4 : others_stored (oce_Name conf) s s4) by (eapply others_stored_trans; [done|by apply others_stored_file]).
  destruct r as [e|[cur|]]; [by split_and!| |by apply attachUplink_created]. specialize (P4 _ eq_refl).
  case_bool_decide as Hc; [subst cur; apply wp_ret; split_and!; try done; split; [by eapply reported_in_place|done]|].
  apply attachUplink_created; try done. intros Hk%bool_decide_eq_true. eapply reported_bridge_ok; [|done|done].
  eapply (map_Forall_lookup_1 _ _ _ _ (proj2 S1)). by rewrite <- K2.
Qed.
