(* ===== verification/OvsRun.v ===== *)
(** * Configuring several bridges

    What is in place for one bridge stays in place while another is created or
    removed, and what [ConfigureBridges] achieves; then a server of the database
    that can be run, and the theorems with their instances on it. *)
From S2P Require Import Prelude GoLib Types Effects Ovs OvsDb OvsSpec.

(** ** Bridges side by side *)

(** ** Transactions that concern other rows *)

(** The rows that make up a bridge with an uplink. *)
Definition rows_at (d : Db) (u : string) st (p : string) (row : PortEntry) (i : InterfaceEntry) : Prop :=
  u ∈ os_Bridges (db_root d) ∧ (∃ b, db_bridges d !! u = Some b ∧ settings b = st ∧ p ∈ be_Ports b) ∧
  db_ports d !! p = Some row ∧ db_ifaces d !! ife_UUID i = Some i.

Definition concerns_others (u p i : string) (op : Operation) : Prop :=
  match op with
  | DeleteBridgeRow v | MutateBridges _ false v => v ≠ u
  | DeletePortRow q | MutatePorts _ false q => q ≠ p
  | DeleteInterfaceRow j => j ≠ i
  | _ => True
  end.

Lemma mutate_keeps ins l u v : (ins = false → v ≠ u) → u ∈ l → u ∈ mutate ins l v.
Proof.
  intros Hne Hu. destruct ins; cbn; [case_bool_decide; set_solver|].
  apply list_elem_of_In, filter_In. split; [by apply list_elem_of_In|]. destruct (String.eqb_spec u v) as [->|]; [by destruct Hne|done].
Qed.

Lemma apply_op_others d op d' u st p row i :
  concerns_others u p (ife_UUID i) op → apply_op d op = Some d' → rows_at d u st p row i → rows_at d' u st p row i.
Proof.
  intros Hs H (Hr & (b & Hb & Hst & Hin) & Hp & Hi).
  assert (Hbr : ∃ b, db_bridges d !! u = Some b ∧ settings b = st ∧ p ∈ be_Ports b) by (by exists b).
  destruct op as [b0|p0|i0|v|q|j|b0 ins q|r ins v]; cbn in H, Hs; try (case_bool_decide; [|done]); injection H as <-; split_and!; cbn; try done.
  - exists b. by rewrite lookup_insert_ne by congruence.
  - by rewrite lookup_insert_ne by congruence.
  - by rewrite lookup_insert_ne by congruence.
  - exists b. by rewrite lookup_delete_ne.
  - by rewrite lookup_delete_ne.
  - by rewrite lookup_delete_ne.
  - destruct (decide (b0 = u)) as [->|Hne]; [|exists b; by rewrite lookup_alter_ne].
    eexists. rewrite lookup_alter_eq, Hb. split_and!; [done|exact Hst|]. cbn. apply mutate_keeps; [|done]. intros ->. done.
  - destruct (String.eqb r _); [|done]. cbn. apply mutate_keeps; [|done]. intros ->. done.
Qed.

Lemma apply_ops_others d ops d' u st p row i :
  Forall (concerns_others u p (ife_UUID i)) ops → apply_ops d ops = Some d' → rows_at d u st p row i → rows_at d' u st p row i.
Proof.
  intros Hs. revert d. induction Hs as [|op ops Hop _ IH]; intros d; cbn; [by intros [= <-]|].
  destruct (apply_op d op) as [d1|] eqn:E; [|done]. cbn. intros H Hd. eapply IH; [done|]. by eapply apply_op_others.
Qed.

Lemma collect_rows d u st p row i :
  ife_UUID i ∈ pe_Interfaces row → rows_at d u st p row i → rows_at (collect d) u st p row i.
Proof.
  intros Hin (Hr & (b & Hb & Hst & Hpb) & Hp & Hi).
  assert (HB : filter (λ kv, kv.1 ∈ os_Bridges (db_root d)) (db_bridges d) !! u = Some b) by (by apply map_lookup_filter_Some).
  split_and!; [done|by exists b|..]; cbn.
  - apply map_lookup_filter_Some. split; [done|]. cbn. by eapply (elem_of_column be_Ports).
  - apply map_lookup_filter_Some. split; [done|]. cbn. eapply (elem_of_column pe_Interfaces); [|done].
    apply map_lookup_filter_Some. split; [done|]. cbn. by eapply (elem_of_column be_Ports).
Qed.

Lemma commit_others d ops d' u st p row i :
  Forall (concerns_others u p (ife_UUID i)) ops → ife_UUID i ∈ pe_Interfaces row → commit d ops = Some d' →
  rows_at d u st p row i → rows_at d' u st p row i.
Proof. intros Hs Hin (d1 & H1 & -> & _)%commit_inv Hd. apply collect_rows; [done|]. by eapply apply_ops_others. Qed.

(** ** Ports with one interface *)

(** No port is a bond. *)
Definition unbonded (d : Db) : Prop := map_Forall (λ _ p, ∃ i, pe_Interfaces p = [i]) (db_ports d).

Definition single_port (op : Operation) : Prop :=
  match op with CreatePortRow p => ∃ i, pe_Interfaces p = [i] | _ => True end.

Lemma commit_unbonded d ops d' : Forall single_port ops → commit d ops = Some d' → unbonded d → unbonded d'.
Proof.
  intros Hs (d1 & H1 & -> & _)%commit_inv Hd.
  assert (Hd1 : unbonded d1).
  { revert d H1 Hd. induction Hs as [|op ops Hop _ IH]; intros d; cbn; [by intros [= <-]|].
    destruct (apply_op d op) as [d2|] eqn:E; [|done]. cbn. intros H Hd. eapply IH; [done|].
    destruct op; cbn in E, Hop; try (case_bool_decide; [|done]); injection E as <-; try exact Hd; unfold unbonded; cbn.
    - by apply map_Forall_insert_2.
    - by apply map_Forall_delete. }
  intros q row Hq. cbn in Hq. apply map_lookup_filter_Some in Hq as [Hq _]. by eapply Hd1.
Qed.

(** ** What operations on other names leave alone *)

(** [K] survives Open vSwitch's own moves, the removal of an interface with a
    name in [N] and of a bridge with a name in [D], and the addition of
    interfaces and of bridges with a name in [B]. *)
Class Undisturbed (K : Db → Prop) (N D B : string → Prop) := {
  und_rely s s' : ovs_rely s s' → K (ovs_db s) → K (ovs_db s');
  und_delete_iface d i d' :
    K d → iface_row d i → N (ife_Name i) → commit d [DeleteInterfaceRow (ife_UUID i)] = Some d' → K d';
  und_delete_port d i p ob d' :
    K d → iface_row d i → N (ife_Name i) → port_row d p → ife_UUID i ∈ pe_Interfaces p →
    commit d ([DeleteInterfaceRow (ife_UUID i); DeletePortRow (pe_UUID p)] ++
      match ob with Some b => [MutatePorts (be_UUID b) false (pe_UUID p)] | None => [] end) = Some d' → K d';
  und_add d i pu n u d' :
    K d → commit d [CreateInterfaceRow i; CreatePortRow (mkPortEntry pu n [ife_UUID i]); MutatePorts u true pu] = Some d' → K d';
  und_delete_bridge d b r d' :
    K d → bridge_row d b → D (be_Name b) → commit d [DeleteBridgeRow (be_UUID b); MutateBridges r false (be_UUID b)] = Some d' → K d';
  und_create_bridge d b r d' :
    K d → B (be_Name b) → commit d [CreateBridgeRow b; MutateBridges r true (be_UUID b)] = Some d' → K d';
}.

Section undisturbed.
Context (K : Db → Prop) (N D B : string → Prop) `{!Undisturbed K N D B}.

Definition keeps (s s' : OvsState) : Prop := K (ovs_db s) → K (ovs_db s').

#[local] Instance keeps_preorder : PreOrder (keeps : relation (w_state ovs_world)).
Proof using Type. split; [by intros s H|]. intros a b c H1 H2 H. by apply H2, H1. Qed.

Abbreviation quiet := (steady ovs_world (λ _ _, True) keeps).

Lemma relies_keeps s s' : rtc ovs_rely s s' → keeps s s'.
Proof using Type*. induction 1 as [|a b c Hr _ IH]; [by intros H|]. intros Hk. apply IH. by eapply und_rely. Qed.

Lemma undisturbed_request r : match r with Transact _ => False | _ => True end → quiet (perform r).
Proof using Type*.
  intros Hr. refine (steady_perform _ _ _ _ _ _); [done|]. intros s x s' (s1 & Hs & Hrel) Hk. apply relies_keeps in Hrel. apply Hrel.
  destruct (reads r) eqn:E; [by rewrite (read_server _ _ _ _ E Hs)|].
  destruct r; try done; cbn in Hs; [subst s1; exact Hk|]. destruct x; subst s1; exact Hk.
Qed.

Lemma transact_keeps ops s :
  (∀ d', K (ovs_db s) → commit (ovs_db s) ops = Some d' → K d') → ov (execTransaction ops) (λ _ s', keeps s s') s.
Proof using Type*.
  intros H.
  unfold execTransaction, checked. apply wp_perform; [done|]. intros x s' (s1 & Hs & Hr). apply wp_ret. intros Hk.
  apply relies_keeps in Hr. apply Hr.
  destruct x as [e|]; [destruct Hs as [->|(d' & Hc & ->)]|destruct Hs as (d' & Hc & ->)]; [done|by apply (H d')..].
Qed.

Lemma quiet_checkInterface n u : quiet (checkInterface n u).
Proof using Type*. intros s. eapply wp_post; [apply checkInterface_frame|]. intros r s' Hr. by apply relies_keeps. Qed.

Lemma quiet_getCurrentBridgeState known : quiet (getCurrentBridgeState known).
Proof using Type*. intros s. eapply wp_post; [apply getCurrentBridgeState_spec|]. intros r s' [Hr _]. by apply relies_keeps. Qed.

(** The rest of a program after a request that reads. *)
Lemma read_keeps {A} r (k : OvsResp r → ovsM A) s :
  reads r = true → (∀ x s', ovs_server s r x s → rtc ovs_rely s s' → ov (k x) (λ _ s2, keeps s' s2) s') →
  ov (perform r ≫= k) (λ _ s2, keeps s s2) s.
Proof using Type*.
  intros Hr H. apply ov_read; [done|]. intros x s' Hs _ Hrel. eapply wp_post; [by apply H|]. cbn beta. intros a s2 H2.
  transitivity s'; [by apply relies_keeps|done].
Qed.

Lemma quiet_addInterface br iface : quiet (addInterface br iface).
Proof using Type*.
  intros s. unfold addInterface. apply read_keeps; [done|]. intros uuid s1 _ _. apply wp_try.
  eapply wp_post; [apply transact_keeps; intros d'; apply und_add|]. cbn beta. intros [e|[]] s2 H2; [done|].
  eapply wp_post; [apply quiet_checkInterface|]. cbn beta. intros r s3 H3. by transitivity s2.
Qed.

Lemma quiet_deleteInterfaceByName n : N n → quiet (deleteInterfaceByName n).
Proof using Type*.
  intros Hn s. unfold deleteInterfaceByName, getInterfaceByName, getPortByInterface, getBridgeByPort, prog_try.
  apply read_keeps; [done|]. intros x s1 [_ Hi] R1. destruct x as [e|[iface|]]; [by intros ?| |by intros ?].
  destruct Hi as [Hi Hin]. destruct (relies_iface _ _ _ _ R1 Hi) as (i1 & Hi1 & S1).
  apply read_keeps; [done|]. intros x s2 [_ Hp] R2. destruct x as [e|l]; [by intros ?|]. cbn [mbind prog_mbind prog_bind].
  destruct (relies_iface _ _ _ _ R2 Hi1) as (i2 & Hi2 & S2).
  assert (E2 : ife_UUID i2 = ife_UUID iface ∧ ife_Name i2 = n) by (by rewrite (same_iface_trans _ _ _ S1 S2)).
  destruct l as [|port l]; cbn [head].
  { apply transact_keeps. intros d' Hk. destruct E2 as [E2 E2n]. rewrite <- E2. apply und_delete_iface; [done| |by rewrite E2n].
    unfold iface_row. by rewrite E2. }
  destruct (proj1 (Hp port)) as [Hport Hinc]; [by left|]. specialize (Hinc _ eq_refl).
  apply read_keeps; [done|]. intros x s3 _ R3. destruct x as [e|l']; [by intros ?|]. cbn [mbind prog_mbind prog_bind].
  destruct (relies_iface _ _ _ _ R3 Hi2) as (i3 & Hi3 & S3).
  assert (E3 : ife_UUID i3 = ife_UUID iface ∧ ife_Name i3 = n) by (by rewrite S3). destruct E3 as [E3 E3n].
  apply transact_keeps. intros d' Hk. rewrite <- E3. apply und_delete_port; [done| |by rewrite E3n| |by rewrite E3].
  - unfold iface_row. by rewrite E3.
  - unfold port_row. rewrite (relies_ports _ _ R3), (relies_ports _ _ R2). exact Hport.
Qed.

Lemma quiet_deleteBridgeByName n : D n → quiet (deleteBridgeByName n).
Proof using Type*.
  intros Hn s. unfold deleteBridgeByName, getBridgeByName, getRootObj, prog_try. apply read_keeps; [done|].
  intros x s1 [_ Hb] R1. destruct x as [e|[b|]]; [by intros ?| |by intros ?]. destruct Hb as [Hb Hbn].
  apply read_keeps; [done|]. intros x s2 _ R2. destruct x as [e|[|o l]]; [by intros ?..|]. cbn [mbind prog_mbind prog_bind].
  apply transact_keeps. intros d' Hk. apply und_delete_bridge; [done| |by rewrite Hbn].
  unfold bridge_row. by rewrite (relies_bridges _ _ R2), (relies_bridges _ _ R1).
Qed.

Lemma quiet_createBridge b : B (be_Name b) → quiet (createBridge b).
Proof using Type*.
  intros Hn s. unfold createBridge, getRootObj, prog_try. apply read_keeps; [done|]. intros x s1 _ R1.
  destruct x as [e|[|o l]]; [by intros ?..|]. cbn [mbind prog_mbind prog_bind].
  apply transact_keeps. intros d' Hk. by apply und_create_bridge.
Qed.

#[local] Hint Resolve quiet_checkInterface quiet_getCurrentBridgeState quiet_addInterface quiet_deleteInterfaceByName
  quiet_deleteBridgeByName quiet_createBridge : steady.
#[local] Hint Extern 1 (quiet (perform _)) => apply undisturbed_request; exact I : steady.

Lemma quiet_ensureCacheIsLoaded : quiet ensureCacheIsLoaded.
Proof using Type*. unfold ensureCacheIsLoaded, ensureStoreDirExist, readStoreFile, checked. steady. Qed.
#[local] Hint Resolve quiet_ensureCacheIsLoaded : steady.

Lemma quiet_updateStore f name : quiet (updateStore f name).
Proof using Type*. unfold updateStore. cbv zeta. steady. Qed.
#[local] Hint Resolve quiet_updateStore : steady.

Lemma quiet_GetManagedOVSBridge name : quiet (GetManagedOVSBridge name).
Proof using Type*. unfold GetManagedOVSBridge. steady. Qed.

Lemma quiet_AddManagedOVSBridge br : quiet (AddManagedOVSBridge br).
Proof using Type*. unfold AddManagedOVSBridge. steady. Qed.

Lemma quiet_ensureInternalInterface b : N (be_Name b) → quiet (ensureInternalInterface b).
Proof using Type*. intros Hb. unfold ensureInternalInterface, getInterfaceByName. cbv zeta. steady. Qed.
#[local] Hint Resolve quiet_ensureInternalInterface : steady.

Lemma quiet_attachUplink conf up keep :
  (keep = false → B (oce_Name conf) ∧ D (oce_Name conf)) → N (oce_Name conf) → N (oue_Name up) → quiet (attachUplink conf up keep).
Proof using Type*.
  intros HBD HN Hup. unfold attachUplink, recreateBridge. cbv zeta. refine (steady_try _ _ _ _ _ _ _); [by auto with steady|intros _].
  refine (steady_try _ _ _ _ _ _ _); [|intros _].
  { destruct keep; [by steady|]. destruct (HBD eq_refl). steady. }
  intros s. unfold getBridgeByName, prog_try. apply read_keeps; [done|]. intros x s1 [_ Hx] _.
  destruct x as [e|[b|]]; [by intros ?| |by intros ?]. destruct Hx as [_ Hn].
  enough (Hq : quiet (ensureInternalInterface b;;!
    uuid ← perform NewUUID;
    addInterface b (mkInterfaceEntry uuid (oue_Name up) (oic_Type (oue_Interface up)) None (oic_Options (oue_Interface up))
      (oic_ExternalIDs (oue_Interface up)) (oic_OtherConfig (oue_Interface up)) (oic_MTURequest (oue_Interface up))))) by apply Hq.
  refine (steady_try _ _ _ _ _ _ _); [apply quiet_ensureInternalInterface; by rewrite Hn|intros _]. steady.
Qed.

(** Another bridge is created. *)
Lemma quiet_CreateOVSBridge conf :
  B (oce_Name conf) → D (oce_Name conf) → N (oce_Name conf) → Forall (λ up, N (oue_Name up)) (oce_Uplinks conf) → quiet (CreateOVSBridge conf).
Proof using Type*.
  intros HB HD HN HU. unfold CreateOVSBridge, GetManagedOVSBridge, AddManagedOVSBridge, checked.
  destruct (oce_Uplinks conf) as [|up [|]]; [by steady| |by steady]. apply Forall_inv in HU.
  steady; by apply quiet_attachUplink.
Qed.

(** Another bridge is removed. *)
Lemma quiet_RemoveOVSBridge name :
  D name → ∀ s, stored s → ov (RemoveOVSBridge name) (λ _ s', keeps s s') s.
Proof using Type*.
  intros HB s Hst. unfold RemoveOVSBridge. apply wp_try. eapply wp_post; [apply wp_and; [by apply GetManagedOVSBridge_spec|]|].
  { apply quiet_GetManagedOVSBridge. }
  cbn beta. intros [e|known] s1 [(_ & _ & _ & Hk) K1]; [done|]. specialize (Hk _ eq_refl).
  destruct known as [brConf|]; [|done]. assert (Hn : oce_Name brConf = name).
  { eapply (map_Forall_lookup_1 _ _ _ _ (proj2 Hst)). by rewrite <- Hk. }
  assert (Hq : quiet (checked (perform Connect);;!
    state ⇐ getCurrentBridgeState brConf;
    (match state with Some _ => deleteBridgeByName (oce_Name brConf) | None => Ret (inr tt) end);;!
    RemoveManagedOVSBridge (oce_Name brConf))).
  { unfold checked, RemoveManagedOVSBridge. rewrite Hn. steady. }
  eapply wp_post; [apply Hq|]. cbn beta. intros r s2 K2. by transitivity s1.
Qed.
End undisturbed.

(** ** Removing a bridge *)

Definition gone (n : string) (d : Db) : Prop := map_Forall (λ _ b, be_Name b ≠ n) (db_bridges d).

Lemma gone_moved n s s' : db_moved s s' → gone n (ovs_db s) → gone n (ovs_db s').
Proof. intros [_ H]. unfold gone. by rewrite H. Qed.

(** Names of bridges come from the operations that create them. *)
Definition creates_not (n : string) (op : Operation) : Prop :=
  match op with CreateBridgeRow b => be_Name b ≠ n | _ => True end.

Lemma apply_op_names (P : string → BridgeEntry → Prop) d op d' :
  (∀ b ports, P (be_UUID b) b → P (be_UUID b) (be_set_Ports ports b)) → keyed_db d →
  match op with CreateBridgeRow b => P (be_UUID b) b | _ => True end →
  apply_op d op = Some d' → map_Forall P (db_bridges d) → map_Forall P (db_bridges d').
Proof.
  intros HP (K & _) Hop H Hd. destruct op; cbn in H, Hop; try (case_bool_decide; [|done]); injection H as <-; cbn; try done.
  - by apply map_Forall_insert_2.
  - by apply map_Forall_delete.
  - intros u b. rewrite lookup_alter_Some. intros [(-> & b0 & Hb & ->)|[_ Hb]]; [|by apply Hd].
    pose proof (K _ _ Hb) as E. apply Hd in Hb. rewrite <- E in Hb |- *. by apply HP.
Qed.

Lemma commit_gone n d ops d' : keyed_db d → Forall (creates_not n) ops → commit d ops = Some d' → gone n d → gone n d'.
Proof.
  intros Hk Hs (d1 & H1 & -> & _)%commit_inv Hd.
  assert (Hd1 : gone n d1).
  { revert d H1 Hk Hd. induction Hs as [|op ops Hop _ IH]; intros d; cbn; [by intros [= <-]|].
    destruct (apply_op d op) as [d2|] eqn:E; [|done]. cbn. intros H Hk Hd. eapply IH; [done|by eapply apply_op_keyed|].
    eapply (apply_op_names (λ _ b, be_Name b ≠ n)); [done|done|exact Hop|done|done]. }
  intros u b Hb. cbn in Hb. apply map_lookup_filter_Some in Hb as [Hb _]. by eapply Hd1.
Qed.

Lemma commit_delete_bridge d b r d' :
  wf_db d → bridge_row d b → commit d [DeleteBridgeRow (be_UUID b); MutateBridges r false (be_UUID b)] = Some d' → gone (be_Name b) d'.
Proof.
  intros (_ & V & _) Hb (d1 & H1 & -> & _)%commit_inv. cbn in H1. injection H1 as <-. intros u c Hc. cbn in Hc.
  apply map_lookup_filter_Some in Hc as [Hc _]. apply lookup_delete_Some in Hc as [Hne Hc]. intros Hn.
  destruct (bridge_name_unique _ _ _ _ _ V Hc Hb Hn) as [E _]. by rewrite E in Hne.
Qed.

Lemma deleteBridgeByName_spec n s :
  wf_db (ovs_db s) → ov (deleteBridgeByName n) (λ r s', db_only s s' ∧ (r = inr tt → gone n (ovs_db s'))) s.
Proof.
  intros Hw. apply wp_and; [apply deleteBridgeByName_db_only|].
  unfold deleteBridgeByName, getBridgeByName, getRootObj. ov_read x s1. destruct x as [e|[b|]]; [done| |].
  2: { intros _ u b Hb Hn. rewrite (relies_bridges _ _ H1) in Hb. destruct H as [_ H]. apply (H b). split; [|done].
       unfold bridge_row. by rewrite (proj1 (proj1 Hw) _ _ Hb). }
  destruct H as [_ [Hb Hbn]]. ov_read y s2. destruct y as [e|[|o l]]; [done..|]. cbn [mbind prog_mbind prog_bind].
  apply transact_db_only. intros r s3 _ Hc Hr. destruct (Hc Hr) as (d' & Hcom & R3). eapply gone_moved; [by apply relies_moved|].
  cbn. rewrite <- Hbn. eapply commit_delete_bridge; [by apply H2, H0| |exact Hcom].
  unfold bridge_row. by rewrite (relies_bridges _ _ H3), (relies_bridges _ _ H1).
Qed.

Lemma getCurrentBridgeState_none known s :
  wf_db (ovs_db s) → ov (getCurrentBridgeState known) (λ r s', r = inr None → gone (oce_Name known) (ovs_db s')) s.
Proof.
  intros Hw. unfold getCurrentBridgeState, getBridgeByName, getInterfaceByName, getPortByInterface. ov_read x s1.
  destruct x as [e|[b|]]; [done| |].
  2: { intros _ u b Hb Hn. rewrite (relies_bridges _ _ H1) in Hb. destruct H as [_ H]. apply (H b). split; [|done].
       unfold bridge_row. by rewrite (proj1 (proj1 Hw) _ _ Hb). }
  cbv zeta. destruct (oce_Uplinks known) as [|up rest]; [done|]. ov_read x s2. destruct x as [e|[i|]]; [done| |done].
  case_bool_decide; [done|]. ov_read x s3. destruct x as [e|[|p l]]; [done..|]. cbn [mbind prog_mbind prog_bind head]. by destruct (negb _).
Qed.

(** What is left after a bridge was removed. *)
Definition removed (name : string) (s : OvsState) (r : string + unit) (s' : OvsState) : Prop :=
  wf_db (ovs_db s') ∧ stored s' ∧
  match r with
  | inl _ => ovs_file s' = ovs_file s
  | inr _ => default ∅ (ovs_file s') = delete name (default ∅ (ovs_file s)) ∧
             (is_Some (default ∅ (ovs_file s) !! name) → gone name (ovs_db s'))
  end.

Lemma RemoveOVSBridge_spec name s :
  wf_db (ovs_db s) → stored s → ov (RemoveOVSBridge name) (removed name s) s.
Proof.
  intros Hw Hst. unfold RemoveOVSBridge. apply wp_try. eapply wp_post; [by apply GetManagedOVSBridge_spec|]. cbn beta.
  intros r s1 (M1 & S1 & F1 & K1). assert (W1 : wf_db (ovs_db s1)) by (by apply M1).
  destruct r as [e|known]; [by split_and!|]. specialize (K1 _ eq_refl). destruct known as [brConf|].
  2: { apply wp_ret. split_and!; try done; [by rewrite F1, delete_id|]. rewrite <- K1. by intros []. }
  assert (Hn : oce_Name brConf = name) by (eapply (map_Forall_lookup_1 _ _ _ _ (proj2 Hst)); by rewrite <- K1).
  apply wp_try. unfold checked at 1. apply ov_read; [done|]. intros x s2 _ F2 _. pose proof (frame_store _ _ F2 S1) as S2.
  destruct F2 as (W2 & _ & F2 & _). specialize (W2 W1). assert (E2 : ovs_file s2 = ovs_file s) by congruence. clear F2.
  destruct x as [e|]; [by split_and!|]. apply wp_ret, wp_try.
  eapply wp_post; [apply wp_and; [apply getCurrentBridgeState_spec|by apply getCurrentBridgeState_none]|]. cbn beta.
  intros r s3 [[R3 _] G3]. apply relies_frame in R3 as F3. pose proof (frame_store _ _ F3 S2) as S3.
  destruct F3 as (W3 & _ & F3 & _). specialize (W3 W2). assert (E3 : ovs_file s3 = ovs_file s) by congruence. clear F3.
  destruct r as [e|state]; [by split_and!|]. apply wp_try. rewrite Hn in G3 |- *.
  eapply (wp_post ovs_world (λ _ _, True) _ (λ (r : string + unit) (s4 : OvsState), db_only s3 s4 ∧ (r = inr tt → gone name (ovs_db s4)))).
  { destruct state; [by apply deleteBridgeByName_spec|]. apply wp_ret. split; [by split_and!|]. intros _. by apply G3. }
  cbn beta. intros r s4 [D4 G4]. pose proof (db_only_store _ _ D4 S3) as S4. destruct D4 as (W4 & _ & F4). specialize (W4 W3).
  assert (E4 : ovs_file s4 = ovs_file s) by congruence.
  destruct r as [e|[]]; [by split_and!|]. specialize (G4 eq_refl).
  eapply wp_post; [by apply RemoveManagedOVSBridge_spec|]. cbn beta. intros r s5 (M5 & S5 & H5). rewrite E4 in H5.
  split_and!; [by apply M5|done|]. destruct r; [done|]. rewrite H5. split; [done|]. intros _. by eapply gone_moved.
Qed.

(** ** What is left alone *)

#[export] Instance unbonded_undisturbed : Undisturbed unbonded (λ _, True) (λ _, True) (λ _, True).
Proof.
  split; intros; try (eapply commit_unbonded; [|eassumption|done]; repeat constructor; by eexists).
  - destruct H as (_ & _ & _ & _ & E & _). unfold unbonded. by rewrite E.
  - eapply commit_unbonded; [|eassumption|done]. destruct ob; by repeat constructor.
Qed.

#[export] Instance gone_undisturbed n : Undisturbed (λ d, wf_db d ∧ gone n d) (λ _, True) (λ _, True) (λ m, m ≠ n).
Proof.
  split; intros; destruct_and?; (split; [by eapply commit_wf|]) || idtac;
    try (eapply commit_gone; [by lazymatch goal with H : wf_db _ |- _ => apply H end| |eassumption|done]; by repeat constructor).
  - split; [by eapply rely_wf|]. destruct H as (_ & _ & _ & E & _). unfold gone. by rewrite E.
  - eapply commit_gone; [by lazymatch goal with H : wf_db _ |- _ => apply H end| |eassumption|done]. destruct ob; by repeat constructor.
Qed.

(** What it means to be in place, by rows. *)
Definition placed_rows (conf : OVSConfigExt) (uplink : OVSUplinkConfigExt) (d : Db) : Prop :=
  ∃ u st p row i, rows_at d u st p row i ∧ pe_Interfaces row = [ife_UUID i] ∧
    (∀ b, settings b = st → be_Name b = oce_Name conf ∧ bridgeConfig conf b = oce_Bridge conf) ∧
    ife_Name i = oue_Name uplink ∧ uplinkConfig uplink i = uplink.

Lemma in_place_rows conf uplink d : wf_db d → unbonded d → in_place conf uplink d → placed_rows conf uplink d.
Proof.
  intros (_ & _ & Hg) Hu (u & b & i & Hb & Hn & Hc & Hin & Hiu & (b' & p & i' & Hb' & Hp & Hpb & Hii & Hi & Hs)).
  rewrite Hb in Hb'. injection Hb' as <-. destruct (Hu _ _ Hp) as [j Hj]. rewrite Hj in Hii. apply list_elem_of_singleton in Hii. subst j.
  assert (Ei : ife_UUID i' = ife_UUID i) by (by rewrite Hs).
  exists u, (settings b), (pe_UUID p), p, i'. split_and!.
  - split_and!; [apply Hg; by rewrite Hb|by exists b|done|by rewrite Ei].
  - by rewrite Hj, Ei.
  - intros c [E1 E2]%settings_inv. rewrite E1, E2. done.
  - by rewrite Hs.
  - rewrite Hs. unfold uplinkConfig. cbn. exact Hiu.
Qed.

Lemma placed_rows_in_place conf uplink d : keyed_db d → placed_rows conf uplink d → in_place conf uplink d.
Proof.
  intros (_ & K & _) (u & st & p & row & i & (_ & (b & Hb & Hst & Hpb) & Hp & Hi) & Hrow & Hset & Hin & Hiu).
  exists u, b, i. pose proof (K _ _ Hp) as E. split_and!; try done; [by apply Hset..|]. exists b, row, i. rewrite E, Hrow.
  split_and!; try done; [by left|]. unfold same_iface. by destruct i.
Qed.

Definition placed (conf : OVSConfigExt) (uplink : OVSUplinkConfigExt) (d : Db) : Prop :=
  wf_db d ∧ unbonded d ∧ in_place conf uplink d.

Lemma commit_placed conf uplink d ops d' :
  placed conf uplink d → Forall single_port ops → commit d ops = Some d' →
  (∀ b row i, bridge_row d b → port_row d row → iface_row d i → be_Name b = oce_Name conf → pe_Interfaces row = [ife_UUID i] →
     ife_Name i = oue_Name uplink → Forall (concerns_others (be_UUID b) (pe_UUID row) (ife_UUID i)) ops) →
  placed conf uplink d'.
Proof.
  intros (Hw & Hu & Hpl) Hs Hc Hsp. pose proof (commit_wf _ _ _ Hw Hc) as Hw'. split; [done|]. split; [by eapply commit_unbonded|].
  apply placed_rows_in_place; [apply Hw'|]. destruct (in_place_rows _ _ _ Hw Hu Hpl) as (u & st & p & row & i & Hrows & Hrow & Hset & Hin & Hiu).
  exists u, st, p, row, i. split_and!; try done. eapply commit_others; [|rewrite Hrow; by left|done|done].
  destruct Hrows as (_ & (b & Hb & Hst & _) & Hp & Hi). destruct Hw as ((K1 & K2 & _) & _ & _).
  pose proof (K1 _ _ Hb) as E1. pose proof (K2 _ _ Hp) as E2. rewrite <- E1, <- E2. apply Hsp; try done.
  - unfold bridge_row. by rewrite E1.
  - unfold port_row. by rewrite E2.
  - by apply Hset.
Qed.

Lemma rely_placed conf uplink s s' : ovs_rely s s' → placed conf uplink (ovs_db s) → placed conf uplink (ovs_db s').
Proof.
  intros Hr (Hw & Hu & (u & b & i & Hb & H1 & H2 & H3 & H4 & Ha)). split; [by eapply rely_wf|]. split; [by eapply und_rely|].
  exists u, b, i. split_and!; try done; [by destruct Hr as (_ & _ & _ & -> & _)|]. by eapply rely_attached.
Qed.

#[export] Instance placed_undisturbed conf uplink :
  Undisturbed (placed conf uplink) (λ m, m ≠ oue_Name uplink) (λ m, m ≠ oce_Name conf) (λ _, True).
Proof.
  split.
  - apply rely_placed.
  - intros d i d' Hk Hi Hn Hc. eapply commit_placed; [done| |done|]; [by repeat constructor|].
    intros b row j _ _ Hj _ _ Hjn. repeat constructor. cbn. intros E. unfold iface_row in *. rewrite E in Hi. congruence.
  - intros d i p ob d' Hk Hi Hn Hp Hin Hc. eapply commit_placed; [done| |done|]; [destruct ob; by repeat constructor|].
    intros b row j _ Hrow Hj _ Hrj Hjn. unfold iface_row, port_row in *.
    assert (Hij : ife_UUID i ≠ ife_UUID j) by (intros E; rewrite E in Hi; congruence).
    assert (Hpr : pe_UUID p ≠ pe_UUID row).
    { intros E. rewrite E in Hp. rewrite Hp in Hrow. injection Hrow as <-. rewrite Hrj in Hin. by apply list_elem_of_singleton in Hin. }
    destruct ob; by repeat constructor.
  - intros d i pu n u d' Hk Hc. eapply commit_placed; [done| |done|]; [repeat constructor; by eexists|]. by repeat constructor.
  - intros d b r d' Hk Hb Hn Hc. eapply commit_placed; [done| |done|]; [by repeat constructor|].
    intros c row j Hcr _ _ Hcn _ _. assert (be_UUID b ≠ be_UUID c); [|by repeat constructor].
    intros E. unfold bridge_row in *. rewrite E in Hb. congruence.
  - intros d b r d' Hk Hn Hc. eapply commit_placed; [done| |done|]; by repeat constructor.
Qed.

(** ** All bridges *)

Lemma quiet_createDesired K N D B `{!Undisturbed K N D B} l :
  Forall (λ conf, B (oce_Name conf) ∧ D (oce_Name conf) ∧ N (oce_Name conf) ∧ Forall (λ up, N (oue_Name up)) (oce_Uplinks conf)) l →
  steady ovs_world (λ _ _, True) (keeps K) (createDesired l).
Proof.
  induction 1 as [|conf l (H1 & H2 & H3 & H4) _ IH]; cbn [createDesired]; [by intros s ?|].
  apply (steady_try ovs_world _ (keeps K) (PreOrder0 := keeps_preorder K)); [by eapply quiet_CreateOVSBridge|done].
Qed.

Definition healthy (s : OvsState) : Prop := wf_db (ovs_db s) ∧ unbonded (ovs_db s) ∧ stored s.

(** The names of interfaces that a list of bridges needs. *)
Definition interface_names (l : list OVSConfigExt) : list string :=
  concat ((λ conf, oce_Name conf :: (oue_Name <$> oce_Uplinks conf)) <$> l).

Lemma elem_of_interface_names l conf n :
  conf ∈ l → n ∈ oce_Name conf :: (oue_Name <$> oce_Uplinks conf) → n ∈ interface_names l.
Proof.
  intros Hc Hn. unfold interface_names. apply list_elem_of_In, in_concat. eexists. split; [|by apply list_elem_of_In].
  apply list_elem_of_In, list_elem_of_fmap. by exists conf.
Qed.

(** A bridge with its uplink, in the database and in the store. *)
Definition configured (conf : OVSConfigExt) (s : OvsState) : Prop :=
  ∃ uplink, oce_Uplinks conf = [uplink] ∧ in_place conf uplink (ovs_db s) ∧ default ∅ (ovs_file s) !! oce_Name conf = Some conf.

Lemma CreateOVSBridge_healthy conf s :
  healthy s → ov (CreateOVSBridge conf) (λ r s', healthy s' ∧ others_stored (oce_Name conf) s s' ∧
    (r = inr tt → configured conf s')) s.
Proof.
  intros (Hw & Hu & Hst). destruct (oce_Uplinks conf) as [|up [|]] eqn:E.
  1, 3: unfold CreateOVSBridge; rewrite E; apply wp_ret; by split_and!.
  eapply wp_post; [apply wp_and; [by apply CreateOVSBridge_spec|]|].
  { refine (quiet_CreateOVSBridge unbonded _ _ _ conf _ _ _ _ s); [done..|]. by apply Forall_true. }
  cbn beta. intros r s' [(W' & S' & O' & H') U']. split_and!; [split_and!; [done|by apply U'|done]|done|]. intros Hr. exists up. split; [done|]. by apply H'.
Qed.

Lemma createDesired_spec l s :
  healthy s → NoDup (interface_names l) →
  ov (createDesired l) (λ r s', healthy s' ∧ (∀ n, n ∉ oce_Name <$> l → default ∅ (ovs_file s') !! n = default ∅ (ovs_file s) !! n) ∧
    (r = inr tt → Forall (λ conf, configured conf s') l)) s.
Proof.
  revert s. induction l as [|conf l IH]; intros s Hh Hnd; cbn [createDesired]; [by split_and!|].
  assert (Hnd' : NoDup (interface_names l)) by (by apply NoDup_app in Hnd as (_ & _ & ?)).
  assert (Hfar : ∀ c n m, c ∈ l → n ∈ oce_Name conf :: (oue_Name <$> oce_Uplinks conf) → m ∈ oce_Name c :: (oue_Name <$> oce_Uplinks c) → m ≠ n).
  { intros c n m Hc Hn Hm ->. apply NoDup_app in Hnd as (_ & Hd & _). apply (Hd n); [done|]. by eapply elem_of_interface_names. }
  apply wp_try. eapply wp_post; [by apply CreateOVSBridge_healthy|]. cbn beta. intros r s1 (Hh1 & O1 & C1).
  assert (Hf1 : ∀ n, n ∉ oce_Name conf :: (oce_Name <$> l) → default ∅ (ovs_file s1) !! n = default ∅ (ovs_file s) !! n).
  { intros n Hn. apply O1. set_solver. }
  destruct r as [e|[]]; [by split_and!|]. destruct (C1 eq_refl) as (up & Eup & Hpl & Hst1).
  eapply wp_post; [apply wp_and; [by apply IH|]|].
  { refine (quiet_createDesired (placed conf up) _ _ _ l _ s1). apply Forall_forall. intros c Hc. split_and!; [done|..].
    - eapply Hfar; [done|by left|by left].
    - eapply Hfar; [done| |by left]. right. rewrite Eup. by left.
    - apply Forall_forall. intros up' Hup'. eapply Hfar; [done| |right; by apply list_elem_of_fmap_2]. right. rewrite Eup. by left. }
  cbn beta. intros r s2 [(Hh2 & F2 & C2) K2]. split_and!; [done|..].
  - intros n Hn. rewrite F2 by set_solver. by apply Hf1.
  - intros Hr. constructor; [|by apply C2]. exists up. split_and!; [done|apply K2; by split_and!; [apply Hh1|apply Hh1|]|].
    rewrite F2; [done|]. intros (c & Hcn & Hc)%list_elem_of_fmap. eapply Hfar; [done|by left|by left|done].
Qed.

Definition wanted (desired : list OVSConfigExt) (n : string) : bool := existsb (λ d, String.eqb n (oce_Name d)) desired.

Lemma wanted_false desired n : wanted desired n = false ↔ n ∉ oce_Name <$> desired.
Proof.
  unfold wanted. rewrite <- not_true_iff_false, existsb_exists. split; intros H Hx; apply H.
  - apply list_elem_of_fmap in Hx as (d & -> & Hd). exists d. split; [by apply list_elem_of_In|apply String.eqb_refl].
  - destruct Hx as (d & Hd & ->%String.eqb_eq). apply list_elem_of_fmap_2. by apply list_elem_of_In.
Qed.

(** Nothing is added, what is no longer recorded is gone, and [names] are no
    longer recorded. *)
Definition cleaned (names : list string) (s s' : OvsState) : Prop :=
  (∀ n, default ∅ (ovs_file s) !! n = None → default ∅ (ovs_file s') !! n = None) ∧
  (∀ n, gone n (ovs_db s) → gone n (ovs_db s')) ∧
  (∀ n, is_Some (default ∅ (ovs_file s) !! n) → default ∅ (ovs_file s') !! n = None → gone n (ovs_db s')) ∧
  ∀ n, n ∈ names → default ∅ (ovs_file s') !! n = None.

Lemma cleaned_refl s : cleaned [] s s.
Proof. split_and!; [done..| |by intros n ?%elem_of_nil]. intros n [x Hx] Hn. congruence. Qed.

Lemma cleaned_app l1 l2 a b c : cleaned l1 a b → cleaned l2 b c → cleaned (l1 ++ l2) a c.
Proof.
  intros (F1 & G1 & R1 & C1) (F2 & G2 & R2 & C2). split_and!; [auto..| |].
  - intros n Ha Hc. destruct (default ∅ (ovs_file b) !! n) as [v|] eqn:E; [by apply R2; [rewrite E|]|]. by apply G2, R1.
  - intros n [Hn|Hn]%elem_of_app; auto.
Qed.

Lemma RemoveOVSBridge_healthy name s :
  healthy s → ov (RemoveOVSBridge name) (λ r s', healthy s' ∧ (r = inr tt → cleaned [name] s s')) s.
Proof.
  intros (Hw & Hu & Hst).
  eapply wp_post; [apply wp_and; [by apply RemoveOVSBridge_spec|apply wp_and;
    [exact (quiet_RemoveOVSBridge unbonded _ _ _ name I s Hst)|]]|].
  { refine (wp_forall ovs_world _ _ (λ (n : string) (_ : string + unit) (s' : OvsState), keeps (λ d, wf_db d ∧ gone n d) s s') _ _). intros n.
    exact (quiet_RemoveOVSBridge _ _ _ _ name I s Hst). }
  cbn beta. intros r s' ((W' & S' & H') & U' & G'). split; [split_and!; [done|by apply U'|done]|]. intros ->. destruct H' as [F' R'].
  assert (Gm : ∀ n, gone n (ovs_db s) → gone n (ovs_db s')) by (intros n Hn; by apply (G' n)).
  split_and!; [|done|..]; rewrite F'.
  - intros n Hn. by rewrite lookup_delete_None; right.
  - intros n [v Hv] [->|Hn]%lookup_delete_None; [by apply R'|congruence].
  - intros n ->%list_elem_of_singleton. apply lookup_delete_eq.
Qed.

Lemma removeUnwanted_spec desired current s :
  healthy s →
  ov (removeUnwanted desired current) (λ r s', healthy s' ∧
    (r = inr tt → cleaned (List.filter (λ n, negb (wanted desired n)) (oce_Name <$> current)) s s')) s.
Proof.
  revert s. induction current as [|cur current IH]; intros s Hh; cbn [removeUnwanted].
  { split; [done|]. intros _. apply cleaned_refl. }
  fold (wanted desired (oce_Name cur)). cbn [fmap list_fmap List.filter]. apply wp_try. destruct (wanted desired (oce_Name cur)); cbn [negb].
  { apply wp_ret. by apply IH. }
  eapply wp_post; [by apply RemoveOVSBridge_healthy|]. cbn beta. intros [e|[]] s1 [Hh1 C1]; [by split|]. specialize (C1 eq_refl).
  eapply wp_post; [by apply IH|]. cbn beta. intros r s2 [Hh2 C2]. split; [done|]. intros Hr. eapply (cleaned_app [_]); [done|by apply C2].
Qed.

Lemma ConfigureBridges_spec spec status s :
  healthy s → NoDup (interface_names (br_OVS spec)) →
  ov (ConfigureBridges spec status) (λ r s', healthy s' ∧ (r = inr tt →
    Forall (λ conf, configured conf s') (br_OVS spec) ∧
    ∀ n, n ∈ oce_Name <$> br_OVS status → n ∉ oce_Name <$> br_OVS spec →
      default ∅ (ovs_file s') !! n = None ∧ (is_Some (default ∅ (ovs_file s) !! n) → gone n (ovs_db s')))) s.
Proof.
  intros Hh Hnd. unfold ConfigureBridges. destruct (_ && _) eqn:E.
  { apply andb_true_iff in E as [E1%bool_decide_eq_true E2%bool_decide_eq_true]. apply wp_ret. rewrite E1, E2. split; [done|].
    intros _. split; [done|]. by intros n ?%elem_of_nil. }
  apply wp_try. eapply wp_post; [by apply removeUnwanted_spec|]. cbn beta. intros [e|[]] s1 [Hh1 C1]; [by split|].
  specialize (C1 eq_refl). eapply wp_post; [apply wp_and; [by apply createDesired_spec|]|].
  { refine (wp_forall ovs_world _ _ (λ (n : string) (_ : string + unit) (s' : OvsState), n ∉ oce_Name <$> br_OVS spec → keeps (λ d, wf_db d ∧ gone n d) s1 s') _ _). intros n.
    destruct (decide (n ∈ oce_Name <$> br_OVS spec)) as [Hn|Hn]; [by apply wp_top|]. eapply wp_post; [|intros r s' H _; exact H].
    refine (quiet_createDesired _ _ _ _ _ _ s1). apply Forall_forall. intros c Hc. split_and!; [|done..|by apply Forall_true].
    intros <-. apply Hn. by apply list_elem_of_fmap_2. }
  cbn beta. intros r s2 [(Hh2 & F2 & D2) K2]. split; [done|]. intros Hr. split; [by apply D2|]. intros n Hcur Hn.
  destruct C1 as (_ & _ & R1 & C1). assert (Hno : default ∅ (ovs_file s1) !! n = None).
  { apply C1. apply list_elem_of_In, filter_In. split; [by apply list_elem_of_In|]. apply negb_true_iff. by apply wanted_false. }
  split; [by rewrite F2|]. intros Hs. apply (K2 n Hn). split; [apply Hh1|by apply R1].
Qed.

(** ** Runs *)

(** ** A server that never fails *)

#[export] Instance BridgeEntry_eq_dec : EqDecision BridgeEntry.
Proof. solve_decision. Defined.
#[export] Instance PortEntry_eq_dec : EqDecision PortEntry.
Proof. solve_decision. Defined.
#[export] Instance InterfaceEntry_eq_dec : EqDecision InterfaceEntry.
Proof. solve_decision. Defined.

(** The rows of a table that pass a test. *)
Definition select {A} `{!EqDecision A} (key : A → string) (test : A → bool) (m : gmap string A) : list A :=
  List.filter (λ a, bool_decide (m !! key a = Some a) && test a) (map_to_list m).*2.

Lemma elem_of_select {A} `{!EqDecision A} key (test : A → bool) (m : gmap string A) a :
  a ∈ select key test m ↔ m !! key a = Some a ∧ test a = true.
Proof.
  unfold select. rewrite list_elem_of_In, filter_In, andb_true_iff, bool_decide_eq_true. split; [naive_solver|].
  intros [H1 H2]. split; [|done]. apply list_elem_of_In, list_elem_of_fmap. exists (key a, a). split; [done|]. by apply elem_of_map_to_list.
Qed.

Definition unused (d : Db) : string :=
  longer ((map_to_list (db_bridges d)).*1 ++ (map_to_list (db_ports d)).*1 ++ (map_to_list (db_ifaces d)).*1).

Lemma unused_fresh d : fresh d (unused d).
Proof. unfold fresh. split_and!; apply longer_not_a_key; set_solver. Qed.

Definition ovs_handle (s : OvsState) (r : OvsReq) : OvsResp r * OvsState :=
  let d := ovs_db s in
  match r with
  | Connect => (None, s)
  | DbGetBridge n => (inr (head (select be_UUID (λ b, String.eqb (be_Name b) n) (db_bridges d))), s)
  | DbGetInterface n => (inr (head (select ife_UUID (λ i, String.eqb (ife_Name i) n) (db_ifaces d))), s)
  | DbGetInterfaceRow u => (inr (head (select ife_UUID (λ i, String.eqb (ife_UUID i) u) (db_ifaces d))), s)
  | DbListPorts o =>
      (inr (select pe_UUID (λ p, match o with Some u => bool_decide (u ∈ pe_Interfaces p) | None => true end) (db_ports d)), s)
  | DbListBridges u => (inr (select be_UUID (λ b, bool_decide (u ∈ be_Ports b)) (db_bridges d)), s)
  | DbListInterfaces => (inr (select ife_UUID (λ _, true) (db_ifaces d)), s)
  | DbListRoot => (inr [db_root d], s)
  | Transact ops => match commit d ops with Some d' => (None, set_db d' s) | None => (Some "constraint violation", s) end
  | NewUUID => (unused d, s)
  | Sleep => (tt, s)
  | CacheGet => (ovs_cache s, s)
  | CacheSet c => (tt, mkOvsState d (Some c) (ovs_file s))
  | StatStoreDir => (inr true, s)
  | MkStoreDir => (None, s)
  | ReadStoreFile => (inr (ovs_file s), s)
  | WriteStoreFile c => (None, mkOvsState d (ovs_cache s) (Some c))
  end.

Lemma head_got {A} `{!EqDecision A} key (test : A → bool) (m : gmap string A) (row : A → Prop) :
  (∀ a, row a ↔ m !! key a = Some a ∧ test a = true) → got row (inr (head (select key test m))).
Proof.
  intros Hrow. pose proof (elem_of_select key test m) as H. destruct (select key test m) as [|a l]; cbn.
  - intros a Ha%Hrow. apply H in Ha. by apply elem_of_nil in Ha.
  - apply Hrow, H. by left.
Qed.

Lemma ovs_handle_ok s r : w_step ovs_world s r (ovs_handle s r).1 (ovs_handle s r).2.
Proof.
  assert (H : ovs_server s r (ovs_handle s r).1 (ovs_handle s r).2); [|by exists (ovs_handle s r).2].
  destruct r; cbn [ovs_handle ovs_server fst snd]; try done; try (split; [done|]).
  - apply head_got. intros a. by rewrite String.eqb_eq.
  - apply head_got. intros a. by rewrite String.eqb_eq.
  - apply head_got. intros a. by rewrite String.eqb_eq.
  - intros a. rewrite elem_of_select. destruct interface as [u|]; [rewrite bool_decide_eq_true|]; naive_solver.
  - intros a. by rewrite elem_of_select, bool_decide_eq_true.
  - intros a. rewrite elem_of_select. naive_solver.
  - destruct (commit (ovs_db s) ops) as [d'|] eqn:E; cbn; [by exists d'|by left].
  - apply unused_fresh.
Qed.

(** ** Configuring bridges *)

Definition uplink_of (pci name : string) : OVSUplinkConfigExt :=
  mkOVSUplinkConfigExt pci name (mkOVSInterfaceConfig "dpdk" {["dpdk-devargs" := pci]} ∅ ∅ (Some 1500)).

Definition bridge_of (name pci pf : string) : OVSConfigExt :=
  mkOVSConfigExt name (mkOVSBridgeConfig "netdev" {["owner" := "operator"]} ∅ "secure") [uplink_of pci pf].

Definition bare_db : Db := mkDb (mkOpenvSwitchEntry "root" []) ∅ ∅ ∅.
Definition bare : OvsState := mkOvsState bare_db None None.

Lemma bare_healthy : healthy bare.
Proof.
  split_and!; [|done|by split]. split; [by split_and!|]. split; [|by intros u []]. split_and!; by constructor.
Qed.

(** Two bridges where a third one was. *)
Definition first_spec : Bridges := mkBridges [bridge_of "br-0" "0000:08:00.0" "ens1f0"].

Definition first_run : (string + unit) * OvsState := run ovs_handle (ConfigureBridges first_spec (mkBridges [])) bare.

Lemma first_names : NoDup (interface_names (br_OVS first_spec)).
Proof. by apply (bool_decide_unpack _). Qed.

Lemma first_run_exec :
  exec ovs_world (ConfigureBridges first_spec (mkBridges [])) bare
    (trace ovs_handle (ConfigureBridges first_spec (mkBridges [])) bare) (fst first_run) (snd first_run).
Proof. eapply (run_exec_eq ovs_world ovs_handle); [apply ovs_handle_ok|]; apply surjective_pairing. Qed.

Lemma first_run_outcome :
  healthy (snd first_run) ∧ Forall (λ conf, configured conf (snd first_run)) (br_OVS first_spec).
Proof.
  destruct (wp_exec ovs_world (λ _ _, True) _ _ _ _ _ _ (ConfigureBridges_spec first_spec (mkBridges []) bare bare_healthy first_names)
    first_run_exec) as [[Hh H] _].
  split; [exact Hh|]. apply H. vm_compute. reflexivity.
Qed.

Definition second_spec : Bridges := mkBridges [bridge_of "br-1" "0000:08:00.1" "ens1f1"; bridge_of "br-2" "0000:08:00.2" "ens1f2"].
Definition second_status : Bridges := mkBridges [bridge_of "br-0" "0000:08:00.0" "ens1f0"].

Definition second_run : (string + unit) * OvsState :=
  run ovs_handle (ConfigureBridges second_spec second_status) (snd first_run).

(** C13: A successful ConfigureBridges leaves every bridge of the specification
    in the Open_vSwitch database with its settings and with its uplink attached,
    all of them at once and recorded in the store's file; the bridges of the
    status that are no longer specified are not recorded any more, and those
    that were managed are gone from the database.  The database stays well
    formed and the cache in step with the file, whatever is returned.  Open
    vSwitch may write the error column of interfaces at any time; no port is a
    bond, and the names of the bridges and uplinks differ. *)
Theorem ConfigureBridges_converges spec status s tr r s' :
  healthy s → NoDup (interface_names (br_OVS spec)) →
  exec ovs_world (ConfigureBridges spec status) s tr r s' →
  healthy s' ∧
  (r = inr tt →
   Forall (λ conf, configured conf s') (br_OVS spec) ∧
   ∀ n, n ∈ oce_Name <$> br_OVS status → n ∉ oce_Name <$> br_OVS spec →
     default ∅ (ovs_file s') !! n = None ∧ (is_Some (default ∅ (ovs_file s) !! n) → gone n (ovs_db s'))).
Proof.
  intros Hh Hnd Hex. exact (proj1 (wp_exec ovs_world _ _ _ _ _ _ _ (ConfigureBridges_spec spec status s Hh Hnd) Hex)).
Qed.

Lemma second_names : NoDup (interface_names (br_OVS second_spec)).
Proof. by apply (bool_decide_unpack _). Qed.

Lemma ConfigureBridges_converges_witness :
  fst second_run = inr tt ∧ Forall (λ conf, configured conf (snd second_run)) (br_OVS second_spec) ∧
  gone "br-0" (ovs_db (snd second_run)).
Proof.
  assert (E : fst second_run = inr tt) by (vm_compute; reflexivity). split; [exact E|].
  assert (Er : second_run = (fst second_run, snd second_run)) by apply surjective_pairing. rewrite E in Er.
  destruct (ConfigureBridges_converges second_spec second_status (snd first_run) _ (inr tt) (snd second_run) (proj1 first_run_outcome)
    second_names
    (run_exec_eq ovs_world ovs_handle _ _ _ _ ovs_handle_ok Er)) as [_ H].
  destruct (H eq_refl) as [H1 H2]. split; [exact H1|].
  apply (H2 "br-0"); [by left|by apply (bool_decide_unpack _); vm_compute|eexists; vm_compute; reflexivity].
Defined.

(** ** Another uplink for the same bridge *)

Section new_uplink.
Context (known : OVSConfigExt) (old up : OVSUplinkConfigExt) (Hknown : oce_Uplinks known = [old]).
Context (Hup : oue_Name up ≠ oue_Name old) (Hint : oce_Name known ≠ oue_Name old).

Let conf : OVSConfigExt := mkOVSConfigExt (oce_Name known) (oce_Bridge known) [up].

(** The state that is read says that the bridge can be kept. *)
Lemma reported_kept cur d : placed known old d → reported known cur d → conf ≠ cur ∧ oce_Bridge conf = oce_Bridge cur.
Proof using Hknown Hup.
  intros ((_ & V & _) & _ & (u & b & i & Hb & Hn & Hc & _)) (b' & Hb' & Hn' & _ & Hcur & Hl).
  destruct (bridge_name_unique _ _ _ _ _ V Hb' Hb ltac:(congruence)) as [_ ->]. split; [|by rewrite Hcur].
  intros <-. destruct Hl as [|(u0 & rest & i0 & Hu & Hcu & _)]; [done|]. rewrite Hknown in Hu. injection Hu as <- _.
  injection Hcu as ->. by cbn in Hup.
Qed.

Lemma placed_not_gone d : placed known old d → gone (oce_Name known) d → False.
Proof using Type. intros (_ & _ & (u & b & i & Hb & Hn & _)) Hg. by eapply Hg. Qed.

Abbreviation elsewhere := (λ m, m ≠ oue_Name old).
Abbreviation kept := (λ m, m ≠ oce_Name known).

Lemma CreateOVSBridge_new_uplink s :
  stored s → default ∅ (ovs_file s) !! oce_Name known = Some known → placed known old (ovs_db s) →
  ov (CreateOVSBridge conf) (λ _ s', placed known old (ovs_db s')) s.
Proof using Hknown Hup Hint.
  intros Hst Hf Hpl. unfold CreateOVSBridge. cbn [oce_Uplinks oce_Name conf].
  apply wp_try. unfold checked at 1. apply ov_read; [done|]. intros x s1 _ F1 R1. pose proof (relies_keeps _ elsewhere kept _ _ _ R1 Hpl) as P1.
  pose proof (frame_store _ _ F1 Hst) as S1. destruct F1 as (_ & _ & F1 & _). destruct x as [e|]; [done|]. apply wp_ret, wp_try.
  eapply wp_post; [apply wp_and; [by apply GetManagedOVSBridge_spec|apply (quiet_GetManagedOVSBridge (placed known old) elsewhere kept (λ _, True))]|].
  cbn beta. intros r s2 [(_ & _ & _ & K2) P2]. specialize (P2 P1). destruct r as [e|k]; [done|]. rewrite (K2 _ eq_refl), F1, Hf.
  apply wp_try. eapply (wp_post ovs_world (λ _ _, True) _ (λ (_ : string + unit) (s3 : OvsState), placed known old (ovs_db s3))).
  { case_bool_decide; [done|]. eapply wp_post; [apply (quiet_AddManagedOVSBridge (placed known old) elsewhere kept (λ _, True))|].
    cbn beta. intros r s3 H3. by apply H3. }
  cbn beta. intros [e|[]] s3 P3; [done|]. apply wp_try.
  eapply wp_post; [apply wp_and; [apply getCurrentBridgeState_spec|by apply getCurrentBridgeState_none, P3]|]. cbn beta.
  intros r s4 [[R4 C4] G4]. pose proof (relies_keeps _ elsewhere kept _ _ _ R4 P3) as P4. destruct r as [e|[cur|]]; [done| |].
  2: { destruct (placed_not_gone _ P4 (G4 eq_refl)). }
  destruct (reported_kept cur _ P4 (C4 _ eq_refl)) as [Hne He]. rewrite bool_decide_eq_false_2 by done. rewrite bool_decide_eq_true_2 by done.
  eapply wp_post; [apply (quiet_attachUplink (placed known old) elsewhere kept (λ _, True)); done|]. cbn beta. intros r s5 H5. by apply H5.
Qed.
End new_uplink.

(** When the uplink of a managed bridge is replaced and its own settings stay
    the same, CreateOVSBridge keeps the bridge, and the old uplink remains
    attached to it next to the new one, whatever the call returns.  (The comment
    of the function says that a bridge with a different configuration is
    removed and created anew.) *)
Theorem CreateOVSBridge_old_uplink_stays known old up s tr r s' :
  oce_Uplinks known = [old] → oue_Name up ≠ oue_Name old → oce_Name known ≠ oue_Name old →
  stored s → default ∅ (ovs_file s) !! oce_Name known = Some known → placed known old (ovs_db s) →
  exec ovs_world (CreateOVSBridge (mkOVSConfigExt (oce_Name known) (oce_Bridge known) [up])) s tr r s' →
  in_place known old (ovs_db s') ∧
  (r = inr tt → in_place (mkOVSConfigExt (oce_Name known) (oce_Bridge known) [up]) up (ovs_db s')).
Proof.
  intros H1 H2 H3 Hst Hf Hpl Hex. split.
  - apply (wp_exec ovs_world _ _ _ _ _ _ _ (CreateOVSBridge_new_uplink known old up H1 H2 H3 s Hst Hf Hpl) Hex).
  - intros Hr. by apply (wp_exec ovs_world _ _ _ _ _ _ _ (CreateOVSBridge_spec (mkOVSConfigExt _ _ [up]) up s eq_refl (proj1 Hpl) Hst) Hex).
Qed.

Lemma first_run_placed :
  stored (snd first_run) ∧ default ∅ (ovs_file (snd first_run)) !! "br-0" = Some (bridge_of "br-0" "0000:08:00.0" "ens1f0") ∧
  placed (bridge_of "br-0" "0000:08:00.0" "ens1f0") (uplink_of "0000:08:00.0" "ens1f0") (ovs_db (snd first_run)).
Proof.
  destruct first_run_outcome as [(Hw & Hu & Hst) H1]. apply Forall_inv in H1 as (u & [= <-] & Hin & Hf).
  exact (conj Hst (conj Hf (conj Hw (conj Hu Hin)))).
Qed.

(** The PF of a bridge was renamed. *)
Definition renamed_run : (string + unit) * OvsState :=
  run ovs_handle (CreateOVSBridge (bridge_of "br-0" "0000:08:00.0" "eth0")) (snd first_run).

Lemma CreateOVSBridge_old_uplink_stays_witness :
  fst renamed_run = inr tt ∧
  in_place (bridge_of "br-0" "0000:08:00.0" "ens1f0") (uplink_of "0000:08:00.0" "ens1f0") (ovs_db (snd renamed_run)) ∧
  in_place (bridge_of "br-0" "0000:08:00.0" "eth0") (uplink_of "0000:08:00.0" "eth0") (ovs_db (snd renamed_run)).
Proof.
  assert (E : fst renamed_run = inr tt) by (vm_compute; reflexivity). split; [exact E|].
  assert (Er : renamed_run = (fst renamed_run, snd renamed_run)) by apply surjective_pairing. rewrite E in Er.
  destruct first_run_placed as (Hst & Hf & Hpl).
  destruct (CreateOVSBridge_old_uplink_stays (bridge_of "br-0" "0000:08:00.0" "ens1f0") (uplink_of "0000:08:00.0" "ens1f0")
    (uplink_of "0000:08:00.0" "eth0") (snd first_run) _ (inr tt) (snd renamed_run) eq_refl ltac:(discriminate) ltac:(discriminate)
    Hst Hf Hpl (run_exec_eq ovs_world ovs_handle _ _ _ _ ovs_handle_ok Er)) as [H1 H2].
  split; [exact H1|exact (H2 eq_refl)].
Defined.
