(* ===== verification/Systemd.v ===== *)
(** * Systemd mode on the host
    (pkg/host/internal/service/service.go, pkg/host/internal/systemd/systemd.go,
    pkg/host/types/types.go, parts of pkg/utils/utils.go)

    In systemd mode the daemon writes the configuration, the list of supported
    NICs and two unit files to the host; the units apply the configuration at
    boot and leave a result file.  Files and commands are requests, YAML and unit
    files are parsed by parameters.  Error texts leave out what is wrapped. *)
From S2P Require Import Prelude GoLib Types PoolConfig Effects Render HostSys.

(** ** Types *)

Record Service := mkService { srv_Name : string; srv_Path : string; srv_Content : string }.

(** service.ServiceInjectionManifestFile; the contents of a drop-in are given by
    what parsing them as a template gives. *)
Record ServiceInjectionManifestFile := mkInjectionFile { sif_Name : string; sif_Dropins : list (string * Source) }.

Record ServiceManifestFile := mkManifestFile { smf_Name : string; smf_Contents : string }.

Record SriovConfig := mkSriovConfig {
  sc_Spec : SriovNetworkNodeStateSpec;
  sc_UnsupportedNics : bool;
  sc_PlatformType : string;
  sc_ManageSoftwareBridges : bool;
  sc_OVSDBSocketPath : string;
}.

#[export] Instance SriovConfig_eq_dec : EqDecision SriovConfig.
Proof. solve_decision. Defined.

(** go-systemd's unit.UnitOption; [Match] compares all fields. *)
Record UnitOption := mkUnitOption { uo_Section : string; uo_Name : string; uo_Value : string }.

#[export] Instance UnitOption_eq_dec : EqDecision UnitOption.
Proof. solve_decision. Defined.

(** ** Requests *)

Inductive SvcReq :=
| FStat (p : string)
| FReadFile (p : string)
| FWriteFile (p data : string)
| FCreate (p : string)                 (* os.Create *)
| FMkdir (p : string)
| FMkdirAll (p : string)
| FRemove (p : string)
| Systemctl (verb name : string)
| EnterChroot
| LeaveChroot
(* the platform and its plugin, for the service *)
| NewHostHelpers
| PlatformInit
| PlatformPlugin (phase : string)      (* whether there is one *)
| PlatformDevices
| PlatformBridges
| PluginChange (phase : string) (s : SriovNetworkNodeState)
| PluginApply (phase : string)
(* other host helpers *)
| CheckRDMAEnabled
| TryEnableTun
| TryEnableVhostNet
| TryGetInterfaceName (pciAddr : string)
| WaitUdevEventsProcessed (timeout : Z)
| SleepSecond.

Definition SvcResp (r : SvcReq) : Type :=
  match r with
  | FStat _ | FWriteFile _ _ | FCreate _ | FMkdir _ | FMkdirAll _ | FRemove _ => option Errno
  | FReadFile _ => Errno + string
  | Systemctl _ _ | EnterChroot | NewHostHelpers | PlatformInit | PluginChange _ _ | PluginApply _ => option string
  | LeaveChroot | TryEnableTun | TryEnableVhostNet | SleepSecond => unit
  | PlatformPlugin _ => string + bool
  | PlatformDevices => string + list InterfaceExt
  | PlatformBridges => string + Bridges
  | CheckRDMAEnabled => string + bool
  | TryGetInterfaceName _ => string
  | WaitUdevEventsProcessed _ => option string
  end%type.

Abbreviation svcM := (prog SvcResp).
Abbreviation svcE A := (prog SvcResp (HostError + A)).

Definition fsE (c : svcM (option Errno)) : svcE unit :=
  r ← c; Ret (match r with Some e => inl (HSys e) | None => inr tt end).

Definition fs {A} (c : svcM (Errno + A)) : svcE A :=
  r ← c; Ret (match r with inl e => inl (HSys e) | inr a => inr a end).

Definition cmdE (c : svcM (option string)) : svcE unit :=
  r ← c; Ret (match r with Some e => inl (HMsg e) | None => inr tt end).

(** ** OVS options (utils.go) *)

Definition hex_char (n : N) : ascii := ascii_of_N (if (n <? 10)%N then 48 + n else 87 + n)%N.

(** The verb %q on text whose characters beyond ASCII are printable. *)
Definition quote_byte (a : ascii) : string :=
  let n := N_of_ascii a in
  let back (c : ascii) := String "092" (String c "") in
  if (n =? 34)%N || (n =? 92)%N then back a
  else if (n =? 7)%N then back "a"%char else if (n =? 8)%N then back "b"%char else if (n =? 9)%N then back "t"%char
  else if (n =? 10)%N then back "n"%char else if (n =? 11)%N then back "v"%char else if (n =? 12)%N then back "f"%char
  else if (n =? 13)%N then back "r"%char
  else if (n <? 32)%N || (n =? 127)%N
  then String "092" (String "x"%char (String (hex_char (n / 16)) (String (hex_char (n mod 16)) "")))
  else String a "".

Definition Quote (s : string) : string := dq +:+ String.concat "" (quote_byte <$> String.list_ascii_of_string s) +:+ dq.

(** [strings.ReplaceAll(s, "%", "%%")]. *)
Fixpoint escapePercent (s : string) : string :=
  match s with
  | EmptyString => ""
  | String a r => if Ascii.eqb a "%" then String a (String a (escapePercent r)) else String a (escapePercent r)
  end.

(** The names of the options and the options, in the order of the names. *)
Definition RenderOtherOvsConfigOption (ovsConfig : gmap string string) : string + (string * string) :=
  match ValidateOvsConfig ovsConfig with
  | Some _ => inl "invalid OVS configuration"
  | None =>
      let entries := entries_by_key ovsConfig in
      inr (Join entries.*1 " ",
           String.concat "" ((λ kv, Quote ("other_config:" +:+ kv.1 +:+ "=" +:+ escapePercent kv.2) +:+ " ") <$> entries))
  end.

(** ** service.go *)

Section service.
(** unit.DeserializeOptions and unit.Serialize; what reading and decoding a
    manifest of bindata/ gives; the errors of text/template. *)
Context (DeserializeOptions : string → string + list UnitOption) (Serialize : list UnitOption → string).
Context (ReadInjectionManifest : string → string + ServiceInjectionManifestFile).
Context (ReadManifest : string → string + ServiceManifestFile).
Context (ExecError : RenderData → list Tmpl → string).

(** [path.Join(consts.Chroot, p)] for a clean absolute path. *)
Definition inChroot (p : string) : string := "/host" +:+ p.

(** [filepath.Base] of a file's path. *)
Definition fileName (p : string) : string := default "" (last (Split p "/")).

(** [path.Dir] of a clean absolute path to a file that is not in the root. *)
Definition dirName (p : string) : string := Join (removelast (Split p "/")) "/".

Definition IsServiceExist (servicePath : string) : svcE bool :=
  r ← perform (FStat (inChroot servicePath));
  Ret (match r with
       | None => inr true
       | Some e => if is_not_exist e then inr false else inl (HSys e)
       end).

(** The deferred call leaves the chroot on every return. *)
Definition chrooted {A} (body : svcE A) : svcE A :=
  cmdE (perform EnterChroot) ;;!
  (r ← body; perform LeaveChroot ≫= λ _, Ret r).

Definition IsServiceEnabled (servicePath : string) : svcE bool :=
  exist ⇐ IsServiceExist servicePath;
  if negb exist then Ret (inr false)
  else
    chrooted (r ← perform (Systemctl "is-enabled" (fileName servicePath));
              Ret (inr (bool_decide (r = None)))).

Definition ReadService (servicePath : string) : svcE Service :=
  data ⇐ fs (perform (FReadFile (inChroot servicePath)));
  Ret (inr (mkService (fileName servicePath) servicePath data)).

Definition EnableService (service : Service) : svcE unit :=
  fsE (perform (FWriteFile (inChroot (srv_Path service)) (srv_Content service))) ;;!
  chrooted (cmdE (perform (Systemctl "reenable" (srv_Name service)))).

(** Whether [a] lacks an option of [b]. *)
Definition lacks (a b : list UnitOption) : bool :=
  existsb (λ optB, negb (existsb (λ optA, bool_decide (optA = optB)) a)) b.

Definition CompareServices (serviceA serviceB : Service) : string + bool :=
  match DeserializeOptions (srv_Content serviceA) with
  | inl e => inl e
  | inr optsA =>
      match DeserializeOptions (srv_Content serviceB) with
      | inl e => inl e
      | inr optsB => inr (lacks optsA optsB)
      end
  end.

Definition systemdDir := "/usr/lib/systemd/system/".

(** An index out of range when the manifest has no drop-in. *)
Definition ReadOvsServiceInjectionManifestFile (filePath : string) (ovsConfig : gmap string string) : HostError + Service :=
  match ReadInjectionManifest filePath with
  | inl e => inl (HMsg e)
  | inr serviceContent =>
      match RenderOtherOvsConfigOption ovsConfig with
      | inl e => inl (HMsg e)
      | inr (externalIds, otherOvsConfig) =>
          match sif_Dropins serviceContent with
          | [] => inl HPanic
          | (dropin, contents) :: _ =>
              match renderFileTemplate ExecError filePath contents
                      (assign [("ExternalIds", DvString externalIds); ("OtherOvsConfig", DvString otherOvsConfig)] ∅) with
              | inl e => inl (HMsg e)
              | inr srv =>
                  inr (mkService (sif_Name serviceContent) (systemdDir +:+ sif_Name serviceContent +:+ ".d/" +:+ dropin) srv)
              end
          end
      end
  end.

Definition WriteServiceDropin (service : Service) : svcE unit :=
  fsE (perform (FMkdirAll (inChroot (dirName (srv_Path service))))) ;;!
  fsE (perform (FWriteFile (inChroot (srv_Path service)) (srv_Content service))).

Definition ReadServiceManifestFile (path : string) : HostError + Service :=
  match ReadManifest path with
  | inl e => inl (HMsg e)
  | inr serviceFile => inr (mkService (smf_Name serviceFile) ("/etc/systemd/system/" +:+ smf_Name serviceFile) (smf_Contents serviceFile))
  end.

(** The options that are not there yet are added one after the other. *)
Definition appendOptions (serviceOptions options : list UnitOption) : list UnitOption :=
  foldl (λ l o, if existsb (λ x, bool_decide (x = o)) l then l else l ++ [o]) serviceOptions options.

Definition appendToService (service : Service) (options : list UnitOption) : string + Service :=
  match DeserializeOptions (srv_Content service) with
  | inl e => inl e
  | inr serviceOptions =>
      inr (mkService (srv_Name service) (srv_Path service) (Serialize (appendOptions serviceOptions options)))
  end.

Definition UpdateSystemService (serviceObj : Service) : svcE unit :=
  systemService ⇐ ReadService (srv_Path serviceObj);
  match DeserializeOptions (srv_Content serviceObj) with
  | inl e => Ret (inl (HMsg e))
  | inr serviceOptions =>
      match appendToService systemService serviceOptions with
      | inl e => Ret (inl (HMsg e))
      | inr updatedService => EnableService updatedService
      end
  end.
End service.

(** ** systemd.go *)

Section systemd.
(** [utils.GetHostExtension()], and YAML on the two files.  A text without a
    document leaves the pointer ReadConfFile decodes into nil. *)
Context (hostExtension : string).
Context (MarshalConfig : SriovConfig → string + string) (UnmarshalConfig : string → string + option SriovConfig).
Context (MarshalResult : SriovResult → string + string) (UnmarshalResult : string → string + option SriovResult).

Definition ConfBasePath := "/etc/sriov-operator".
Definition SriovSystemdConfigPath := ConfBasePath +:+ "/sriov-interface-config.yaml".
Definition SriovSystemdResultPath := ConfBasePath +:+ "/sriov-interface-result.yaml".
Definition SriovSystemdSupportedNicPath := ConfBasePath +:+ "/sriov-supported-nics-ids.yaml".
Definition SriovSystemdServiceBinaryPath := "/var/lib/sriov/sriov-network-config-daemon".
Definition SriovServicePath := "/etc/systemd/system/sriov-config.service".
Definition SriovPostNetworkServicePath := "/etc/systemd/system/sriov-config-post-network.service".

(** [utils.GetHostExtensionPath]. *)
Definition GetHostExtensionPath (p : string) : string := hostExtension +:+ p.

Abbreviation at_host := GetHostExtensionPath.

(** The file is created, and its folder if need be; whether it is new. *)
Definition ensureFile (path : string) : svcE bool :=
  r ← perform (FStat (at_host path));
  match r with
  | None => Ret (inr false)
  | Some e =>
      if is_not_exist e then
        b ← perform (FStat (at_host ConfBasePath));
        (if match b with Some e' => is_not_exist e' | None => false end
         then fsE (perform (FMkdir (at_host ConfBasePath))) else Ret (inr tt)) ;;!
        fsE (perform (FCreate (at_host path))) ;;!
        Ret (inr true)
      else Ret (inl (HSys e))
  end.

Definition ReadConfFile : svcE (option SriovConfig) :=
  rawConfig ⇐ fs (perform (FReadFile (at_host SriovSystemdConfigPath)));
  Ret (match UnmarshalConfig rawConfig with inl e => inl (HMsg e) | inr spec => inr spec end).

(** The package variables that go into the file. *)
Definition confOf (DevMode : bool) (PlatformType : string) (ManageSoftwareBridges : bool) (OVSDBSocketPath : string)
    (newState : SriovNetworkNodeState) : SriovConfig :=
  mkSriovConfig (ns_Spec newState) DevMode PlatformType ManageSoftwareBridges OVSDBSocketPath.

Definition WriteConfFile (sriovConfig : SriovConfig) : svcE bool :=
  newFile ⇐ ensureFile SriovSystemdConfigPath;
  oldContent ⇐ fs (perform (FReadFile (at_host SriovSystemdConfigPath)));
  match UnmarshalConfig oldContent with
  | inl e => Ret (inl (HMsg e))
  | inr _ =>
      match MarshalConfig sriovConfig with
      | inl e => Ret (inl (HMsg e))
      | inr newContent =>
          if String.eqb newContent oldContent then Ret (inr false)
          else
            fsE (perform (FWriteFile (at_host SriovSystemdConfigPath) newContent)) ;;!
            Ret (inr (negb (newFile && bool_decide (nss_Interfaces (sc_Spec sriovConfig) = []))))
      end
  end.

Definition WriteSriovResult (result : SriovResult) : svcE unit :=
  ensureFile SriovSystemdResultPath ;;!
  match MarshalResult result with
  | inl e => Ret (inl (HMsg e))
  | inr out => fsE (perform (FWriteFile (at_host SriovSystemdResultPath) out))
  end.

Definition ReadSriovResult : svcE (option SriovResult) :=
  r ← perform (FStat (at_host SriovSystemdResultPath));
  match r with
  | Some e => Ret (if is_not_exist e then inr None else inl (HSys e))
  | None =>
      rawConfig ⇐ fs (perform (FReadFile (at_host SriovSystemdResultPath)));
      Ret (match UnmarshalResult rawConfig with inl e => inl (HMsg e) | inr result => inr result end)
  end.

(** [os.Remove], where a missing file is fine. *)
Definition removeFile (path : string) : svcE unit :=
  r ← perform (FRemove (at_host path));
  Ret (match r with Some e => if is_not_exist e then inr tt else inl (HSys e) | None => inr tt end).

Definition RemoveSriovResult : svcE unit := removeFile SriovSystemdResultPath.

Definition WriteSriovSupportedNics (NicIDMap : list string) : svcE unit :=
  ensureFile SriovSystemdSupportedNicPath ;;!
  fsE (perform (FWriteFile (at_host SriovSystemdSupportedNicPath) (String.concat "" ((λ line, line +:+ newline) <$> NicIDMap)))).

Definition ReadSriovSupportedNics : svcE (list string) :=
  fsE (perform (FStat (at_host SriovSystemdSupportedNicPath))) ;;!
  rawConfig ⇐ fs (perform (FReadFile (at_host SriovSystemdSupportedNicPath)));
  Ret (inr (Split rawConfig "010")).

Definition CleanSriovFilesFromHost (isOpenShift : bool) : svcE unit :=
  removeFile SriovSystemdConfigPath ;;!
  removeFile SriovSystemdResultPath ;;!
  removeFile SriovSystemdSupportedNicPath ;;!
  removeFile SriovSystemdServiceBinaryPath ;;!
  if isOpenShift then Ret (inr tt)
  else removeFile SriovServicePath ;;! removeFile SriovPostNetworkServicePath.
End systemd.
