(* ===== verification/SystemdSpec.v ===== *)
(** * The files of systemd mode

    The host's disk as the service, the daemon and the plugins use it: files,
    folders and enabled units.  A write that fails may leave anything in its
    file.  Theorems: what the operations of systemd.go leave on the disk, and
    the round trips of the configuration and of the list of supported NICs. *)
From S2P Require Import Prelude GoLib Types PoolConfig Effects Render HostSys Systemd Tls.

(** [dk_done] records the phases whose plugin was applied, or which have none. *)
Record Disk := mkDisk {
  dk_files : gmap string string;
  dk_dirs : gset string;
  dk_units : gset string;
  dk_done : list string;
}.

Definition setFiles (m : gmap string string) (s : Disk) : Disk := mkDisk m (dk_dirs s) (dk_units s) (dk_done s).
Definition setDirs (d : gset string) (s : Disk) : Disk := mkDisk (dk_files s) d (dk_units s) (dk_done s).
Definition setUnits (u : gset string) (s : Disk) : Disk := mkDisk (dk_files s) (dk_dirs s) u (dk_done s).
Definition addDone (phase : string) (s : Disk) : Disk := mkDisk (dk_files s) (dk_dirs s) (dk_units s) (dk_done s ++ [phase]).

Definition present (s : Disk) (p : string) : Prop := is_Some (dk_files s !! p) ∨ p ∈ dk_dirs s.

(** The file [p] is left with some content, or without any. *)
Definition garbled (p : string) (s s' : Disk) : Prop := ∃ c, s' = setFiles (partial_alter (λ _, c) p (dk_files s)) s.

(** [flaky]: reading may fail although there is something to read. *)
Definition disk_step (flaky : bool) (s : Disk) (r : SvcReq) : SvcResp r → Disk → Prop :=
  match r with
  | FStat p => λ x s', s' = s ∧
      match x with None => present s p | Some ENOENT => ¬ present s p | Some _ => flaky = true end
  | FReadFile p => λ x s', s' = s ∧
      match x with
      | inr c => dk_files s !! p = Some c
      | inl ENOENT => dk_files s !! p = None
      | inl _ => flaky = true
      end
  | FWriteFile p data => λ x s',
      match x with None => s' = setFiles (<[p := data]> (dk_files s)) s | Some _ => garbled p s s' end
  | FCreate p => λ x s',
      match x with None => s' = setFiles (<[p := ""]> (dk_files s)) s | Some _ => garbled p s s' end
  | FMkdir p | FMkdirAll p => λ x s',
      match x with None => s' = setDirs ({[p]} ∪ dk_dirs s) s | Some _ => s' = s end
  | FRemove p => λ x s',
      match x with
      | None => s' = setFiles (delete p (dk_files s)) s
      | Some ENOENT => s' = s ∧ dk_files s !! p = None
      | Some _ => s' = s
      end
  | Systemctl verb name => λ x s',
      if String.eqb verb "reenable" then
        match x with
        | None => s' = setUnits ({[name]} ∪ dk_units s) s
        | Some _ => s' = s ∨ s' = setUnits (dk_units s ∖ {[name]}) s
        end
      else s' = s ∧ match x with None => name ∈ dk_units s | Some _ => name ∉ dk_units s ∨ flaky = true end
  | EnterChroot => λ x s', s' = s ∧ (x = None ∨ flaky = true)
  | PlatformPlugin phase => λ x s', s' = match x with inr false => addDone phase s | _ => s end
  | PluginApply phase => λ x s', s' = match x with None => addDone phase s | Some _ => s end
  | _ => λ _ s', s' = s
  end.

Definition disk_world (flaky : bool) : World SvcResp := {| w_state := Disk; w_step := disk_step flaky |}.

(** A disk on which nothing fails; every phase has a plugin. *)
Definition disk_handle (s : Disk) (r : SvcReq) : SvcResp r * Disk :=
  match r with
  | FStat p =>
      (if bool_decide (is_Some (dk_files s !! p)) || bool_decide (p ∈ dk_dirs s) then None else Some ENOENT, s)
  | FReadFile p => (match dk_files s !! p with Some c => inr c | None => inl ENOENT end, s)
  | FWriteFile p data => (None, setFiles (<[p := data]> (dk_files s)) s)
  | FCreate p => (None, setFiles (<[p := ""]> (dk_files s)) s)
  | FMkdir p | FMkdirAll p => (None, setDirs ({[p]} ∪ dk_dirs s) s)
  | FRemove p =>
      match dk_files s !! p with
      | Some _ => (None, setFiles (delete p (dk_files s)) s)
      | None => (Some ENOENT, s)
      end
  | Systemctl verb name =>
      if String.eqb verb "reenable" then (None, setUnits ({[name]} ∪ dk_units s) s)
      else (if bool_decide (name ∈ dk_units s) then None else Some "disabled", s)
  | EnterChroot | NewHostHelpers | PlatformInit | PluginChange _ _ | WaitUdevEventsProcessed _ => (None, s)
  | LeaveChroot | TryEnableTun | TryEnableVhostNet | SleepSecond => (tt, s)
  | PlatformPlugin _ => (inr true, s)
  | PlatformDevices => (inr [], s)
  | PlatformBridges => (inr (mkBridges []), s)
  | PluginApply phase => (None, addDone phase s)
  | CheckRDMAEnabled => (inr true, s)
  | TryGetInterfaceName _ => ("", s)
  end.

Lemma disk_handle_step flaky s r : w_step (disk_world flaky) s r (disk_handle s r).1 (disk_handle s r).2.
Proof.
  destruct r; try done; cbn.
  - split; [done|]. unfold present. repeat case_bool_decide; cbn; tauto.
  - split; [done|]. by destruct (dk_files s !! p).
  - by destruct (dk_files s !! p) eqn:E.
  - destruct (String.eqb verb "reenable"); [done|]. split; [done|]. case_bool_decide; [done|by left].
  - by split; [|left].
Qed.

(** Nothing but the file [p] and folders changed. *)
Definition touches (p : string) (s s' : Disk) : Prop :=
  (∀ q, q ≠ p → dk_files s' !! q = dk_files s !! q) ∧ dk_units s' = dk_units s ∧ dk_done s' = dk_done s.

#[export] Instance touches_preorder p : PreOrder (touches p).
Proof.
  split; [done|]. intros a b c (H1 & H2 & H3) (H4 & H5 & H6). split_and!; [|congruence..].
  intros q Hq. by rewrite H4, H1.
Qed.

Lemma touches_set p c s : touches p s (setFiles (<[p := c]> (dk_files s)) s).
Proof. split_and!; [|done..]. intros q Hq. by apply lookup_insert_ne. Qed.

Lemma touches_garbled p s s' : garbled p s s' → touches p s s'.
Proof. intros [c ->]. split_and!; [|done..]. intros q Hq. by apply lookup_partial_alter_ne. Qed.

Lemma touches_dirs p d s : touches p s (setDirs d s).
Proof. done. Qed.

#[export] Hint Resolve touches_set touches_garbled touches_dirs : core.

Section files.
Context (flaky : bool) (G : Disk → SvcReq → Prop).

(** The requests that have to do with files. *)
Definition fileRequest (r : SvcReq) : bool :=
  match r with
  | FStat _ | FReadFile _ | FWriteFile _ _ | FCreate _ | FMkdir _ | FMkdirAll _ | FRemove _ => true
  | _ => false
  end.

Context (HG : ∀ s r, fileRequest r = true → G s r).

Abbreviation wpd := (wp (disk_world flaky) G).

Lemma disk_writeFile p c Q s :
  (∀ s', touches p s s' → ∀ e, Q (inl e) s') → Q (inr tt) (setFiles (<[p := c]> (dk_files s)) s) →
  wpd (fsE (perform (FWriteFile p c))) Q s.
Proof using HG.
  intros He Hok. split; [by apply HG|]. intros [e|] s' Hs; cbn in *; [|by subst]. apply He. auto.
Qed.

Lemma wp_readFile p Q s :
  (∀ e, Q (inl e) s) → (∀ c, dk_files s !! p = Some c → Q (inr c) s) → wpd (fs (perform (FReadFile p))) Q s.
Proof using HG.
  intros He Hok. split; [by apply HG|]. intros [e|c] s' [-> Hs]; cbn in *; [by apply He|by apply Hok].
Qed.

(** Without spurious errors a file that is there is read. *)
Lemma wp_readFile_there p c Q s :
  flaky = false → dk_files s !! p = Some c → Q (inr c) s → wpd (fs (perform (FReadFile p))) Q s.
Proof using HG.
  intros -> Hc HQ. split; [by apply HG|]. intros [e|c'] s' [-> Hs]; cbn in *; [|by simplify_eq].
  destruct e; congruence.
Qed.

(** What is there is found. *)
Lemma wp_stat_there p Q s :
  flaky = false → present s p → Q (inr tt) s → wpd (fsE (perform (FStat p))) Q s.
Proof using HG.
  intros Hf Hp HQ. split; [by apply HG|]. intros [e|] s' [-> Hs]; cbn; [|done]. exfalso. rewrite Hf in Hs. by destruct e.
Qed.

Section systemd.
Context (host : string).
Abbreviation at_host := (GetHostExtensionPath host).

Lemma ensureFile_spec path Q s :
  (∀ e s', touches (at_host path) s s' → Q (inl e) s') →
  (∀ s', dk_files s' = dk_files s → touches (at_host path) s s' → present s (at_host path) → Q (inr false) s') →
  (∀ s', dk_files s' = <[at_host path := ""]> (dk_files s) → touches (at_host path) s s' →
     dk_files s !! at_host path = None → Q (inr true) s') →
  wpd (ensureFile host path) Q s.
Proof using HG.
  intros He Hold Hnew. unfold ensureFile. apply wp_perform; [by apply HG|].
  intros [e|] s' [-> Hs]; [|by apply Hold].
  destruct (is_not_exist e) eqn:Hn; unfold is_not_exist in Hn; [|by apply He].
  apply bool_decide_eq_true in Hn. subst e. assert (Hnone : dk_files s !! at_host path = None).
  { apply eq_None_not_Some. intros H. apply Hs. by left. }
  assert (Hcreate : ∀ d, wpd (fsE (perform (FCreate (at_host path))) ;;! Ret (inr true)) Q (setDirs d s)).
  { intros d. split; [by apply HG|]. intros [e'|] s1 H1; cbn in *; [apply He; by apply touches_garbled in H1|].
    subst. apply Hnew; [done|split_and!; [|done..]|done]. intros q Hq. by apply lookup_insert_ne. }
  apply wp_perform; [by apply HG|]. intros b s' [-> _].
  assert (Hs0 : s = setDirs (dk_dirs s) s) by (by destruct s).
  destruct (match b with Some e' => is_not_exist e' | None => false end).
  - split; [by apply HG|]. intros [e'|] s1 H1; cbn in H1 |- *; subst s1; [by apply He|]. apply Hcreate.
  - rewrite Hs0. apply Hcreate.
Qed.

Lemma removeFile_spec path Q s :
  (∀ e, Q (inl e) s) →
  (∀ s', dk_files s' = delete (at_host path) (dk_files s) → touches (at_host path) s s' → Q (inr tt) s') →
  wpd (removeFile host path) Q s.
Proof using HG.
  intros He Hok. split; [by apply HG|]. intros [e|] s' Hs; cbn in Hs |- *.
  - destruct e; cbn; [destruct Hs as [-> Hs]|subst; by apply He..]. apply Hok; [by rewrite delete_id|done].
  - subst. apply Hok; [done|]. split_and!; [|done..]. intros q Hq. by apply lookup_delete_ne.
Qed.

(** ** The configuration *)

Section conf.
Context (Marshal : SriovConfig → string + string) (Unmarshal : string → string + option SriovConfig).
Abbreviation confPath := (at_host SriovSystemdConfigPath).

(** Whether the daemon has to reboot for a configuration written over [old]. *)
Definition confModified (old : option string) (text : string) (c : SriovConfig) : bool :=
  negb (String.eqb text (default "" old)) &&
  negb (bool_decide (old = None) && bool_decide (nss_Interfaces (sc_Spec c) = [])).

(** What a successful call has found and left. *)
Definition confWritten (c : SriovConfig) (b : bool) (s s' : Disk) : Prop :=
  ∃ text, Marshal c = inr text ∧ dk_files s' !! confPath = Some text ∧ touches confPath s s' ∧
    (∃ v, Unmarshal (default "" (dk_files s !! confPath)) = inr v) ∧
    b = confModified (dk_files s !! confPath) text c.

(** Past the creation of the file: it holds [old], or nothing when it is new. *)
Lemma WriteConfFile_rest c (newFile : bool) old s0 s1 Q :
  dk_files s1 !! confPath = Some (default "" old) → dk_files s0 !! confPath = old →
  newFile = bool_decide (old = None) → touches confPath s0 s1 →
  (∀ e s', touches confPath s0 s' → Q (inl e) s') → (∀ b s', confWritten c b s0 s' → Q (inr b) s') →
  wpd (oldContent ⇐ fs (perform (FReadFile confPath));
       match Unmarshal oldContent with
       | inl e => Ret (inl (HMsg e))
       | inr _ =>
           match Marshal c with
           | inl e => Ret (inl (HMsg e))
           | inr newContent =>
               if String.eqb newContent oldContent then Ret (inr false)
               else
                 fsE (perform (FWriteFile confPath newContent)) ;;!
                 Ret (inr (negb (newFile && bool_decide (nss_Interfaces (sc_Spec c) = []))))
           end
       end) Q s1.
Proof using HG.
  intros H1 H0 -> Ht He Hok. apply wp_try, wp_readFile; [intros e; by apply He|].
  intros c0 Hc. simplify_eq. destruct (Unmarshal _) as [e|v] eqn:Hv; [by apply He|].
  destruct (Marshal c) as [e|text] eqn:Hm; [by apply He|]. destruct (String.eqb _ _) eqn:Heq.
  - apply Hok. exists text. split_and!; [done| |done|by eexists|unfold confModified; by rewrite Heq].
    apply String.eqb_eq in Heq. congruence.
  - apply wp_try, disk_writeFile; [intros s' Hs' e; apply He; by etrans|]. apply Hok. exists text.
    split_and!; [done|cbn; by simplify_map_eq|etrans; [done|apply touches_set]|by eexists|].
    unfold confModified. by rewrite Heq.
Qed.

Lemma WriteConfFile_spec c Q s :
  (∀ e s', touches confPath s s' → Q (inl e) s') → (∀ b s', confWritten c b s s' → Q (inr b) s') →
  wpd (WriteConfFile host Marshal Unmarshal c) Q s.
Proof using HG.
  intros He Hok. apply wp_try, ensureFile_spec; [done| |].
  - intros s' Hs Ht [[old Hold]|Hd].
    + eapply (WriteConfFile_rest c false (Some old) s); rewrite ?Hs; done.
    + destruct (dk_files s !! confPath) as [old|] eqn:Hold.
      * eapply (WriteConfFile_rest c false (Some old) s); rewrite ?Hs; done.
      * apply wp_try, wp_readFile; [intros e; by apply He|]. intros c0 Hc. rewrite Hs in Hc. congruence.
  - intros s' Hs Ht Hn. eapply (WriteConfFile_rest c true None s); [|done..]. rewrite Hs. by simplify_map_eq.
Qed.

(** A file that is there and can be read is dealt with, and nothing but writing
    can fail. *)
Lemma WriteConfFile_same c text v s (Q : HostError + bool → Disk → Prop) :
  flaky = false → dk_files s !! confPath = Some text → Marshal c = inr text → Unmarshal text = inr v →
  Q (inr false) s → wpd (WriteConfFile host Marshal Unmarshal c) Q s.
Proof using HG.
  intros Hf Ht Hm Hv HQ. unfold WriteConfFile, ensureFile. apply wp_try, wp_perform; [by apply HG|].
  intros [e|] s' [-> Hs].
  { exfalso. rewrite Hf in Hs. destruct e; try done. apply Hs. left. by eexists. }
  apply wp_try. eapply wp_readFile_there; [done..|]. rewrite Hv, Hm, String.eqb_refl. done.
Qed.

Lemma ReadConfFile_there text s (Q : HostError + option SriovConfig → Disk → Prop) :
  flaky = false → dk_files s !! confPath = Some text →
  Q (match Unmarshal text with inl e => inl (HMsg e) | inr v => inr v end) s →
  wpd (ReadConfFile host Unmarshal) Q s.
Proof using HG.
  intros Hf Ht HQ. apply wp_try. eapply wp_readFile_there; [done..|]. apply wp_ret. by destruct (Unmarshal text).
Qed.
End conf.

(** ** The result *)

Section result.
Context (Marshal : SriovResult → string + string) (Unmarshal : string → string + option SriovResult).
Abbreviation resultPath := (at_host SriovSystemdResultPath).

Lemma WriteSriovResult_spec result Q s :
  (∀ e s', touches resultPath s s' → Q (inl e) s') →
  (∀ s' out, Marshal result = inr out → dk_files s' !! resultPath = Some out → touches resultPath s s' → Q (inr tt) s') →
  wpd (WriteSriovResult host Marshal result) Q s.
Proof using HG.
  intros He Hok.
  assert (Hrest : ∀ s1, touches resultPath s s1 →
    wpd (match Marshal result with inl e => Ret (inl (HMsg e)) | inr out => fsE (perform (FWriteFile resultPath out)) end) Q s1).
  { intros s1 H1. destruct (Marshal result) as [e|out] eqn:Hm; [by apply He|].
    apply disk_writeFile; [intros s' Hs' e; apply He; by etrans|]. apply (Hok _ out); [done|cbn; by simplify_map_eq|].
    etrans; [exact H1|apply touches_set]. }
  apply wp_try, ensureFile_spec; [done|..]; intros s' ? ? ?; by apply Hrest.
Qed.

Lemma ReadSriovResult_spec Q s :
  (∀ e, e ≠ HPanic → Q (inl e) s) →
  (∀ text v, dk_files s !! resultPath = Some text → Unmarshal text = inr v → Q (inr v) s) →
  (¬ present s resultPath → Q (inr None) s) →
  wpd (ReadSriovResult host Unmarshal) Q s.
Proof using HG.
  intros He Hok Hno. unfold ReadSriovResult. apply wp_perform; [by apply HG|]. intros [e|] s' [-> Hs].
  - destruct e; [by apply Hno|by apply He..].
  - unfold prog_try, fs. apply wp_bind, wp_bind. split; [by apply HG|]. intros [e|c] s' [-> Hs']; [by apply He|].
    cbn. destruct (Unmarshal c) eqn:Hu; [by apply He|by eapply Hok].
Qed.

(** Without spurious errors a missing file is noticed. *)
Lemma ReadSriovResult_missing (Q : HostError + option SriovResult → Disk → Prop) s :
  flaky = false → ¬ present s resultPath → Q (inr None) s → wpd (ReadSriovResult host Unmarshal) Q s.
Proof using HG.
  intros Hf Hno HQ. unfold ReadSriovResult. apply wp_perform; [by apply HG|]. intros [e|] s' [-> Hs]; [|done].
  rewrite Hf in Hs. by destruct e.
Qed.
End result.

(** ** The supported NICs *)

Lemma Split_lines l :
  Forall (λ x, ContainsByte "010" x = false) l →
  Split (String.concat "" ((λ line, line +:+ newline) <$> l)) "010" = l ++ [""].
Proof using Type.
  induction 1 as [|x l Hx Hl IH]; [done|].
  assert (E : String.concat "" ((λ line, line +:+ newline) <$> (x :: l)) =
              x +:+ String "010" (String.concat "" ((λ line, line +:+ newline) <$> l))).
  { destruct l as [|y l]; [reflexivity|].
    change ((x +:+ newline) +:+ String.concat "" ((λ line, line +:+ newline) <$> (y :: l)) =
            x +:+ newline +:+ String.concat "" ((λ line, line +:+ newline) <$> (y :: l))). by rewrite app_assoc_s. }
  rewrite E, Split_app by done. by rewrite IH.
Qed.

Lemma WriteSriovSupportedNics_spec l Q s :
  let path := at_host SriovSystemdSupportedNicPath in
  (∀ e s', touches path s s' → Q (inl e) s') →
  (∀ s', dk_files s' !! path = Some (String.concat "" ((λ line, line +:+ newline) <$> l)) → touches path s s' → Q (inr tt) s') →
  wpd (WriteSriovSupportedNics host l) Q s.
Proof using HG.
  intros path He Hok. apply wp_try, ensureFile_spec; [done|..]; intros s1 _ H1 _;
    (apply disk_writeFile; [intros s' Hs' e; apply He; by etrans|];
     apply Hok; [cbn; by simplify_map_eq|etrans; [exact H1|apply touches_set]]).
Qed.

Lemma ReadSriovSupportedNics_there text s (Q : HostError + list string → Disk → Prop) :
  flaky = false → dk_files s !! at_host SriovSystemdSupportedNicPath = Some text →
  Q (inr (Split text "010")) s → wpd (ReadSriovSupportedNics host) Q s.
Proof using HG.
  intros Hf Ht HQ. apply wp_try, wp_stat_there; [done|left; by eexists|].
  apply wp_try. eapply wp_readFile_there; [done..|exact HQ].
Qed.
End systemd.
End files.

(** ** Theorems *)

Section theorems.
Context (host : string).
Context (Marshal : SriovConfig → string + string) (Unmarshal : string → string + option SriovConfig).
Abbreviation confPath := (GetHostExtensionPath host SriovSystemdConfigPath).

(** The daemon's write, what the service reads, and the daemon's next write of
    the same configuration. *)
Definition writeReadWrite (c : SriovConfig) : svcM (option (bool * (HostError + option SriovConfig) * (HostError + bool))) :=
  w ← WriteConfFile host Marshal Unmarshal c;
  match w with
  | inl _ => Ret None
  | inr b =>
      r ← ReadConfFile host Unmarshal;
      again ← WriteConfFile host Marshal Unmarshal c;
      Ret (Some (b, r, again))
  end.

(** C39: the configuration the daemon writes is the one the service reads, and
    writing it again changes nothing and asks for no reboot; the first write
    touches no other file and asks for a reboot exactly when the text changed,
    except for a first file without interfaces. *)
Theorem WriteConfFile_roundtrip c s :
  (∀ c text, Marshal c = inr text → Unmarshal text = inr (Some c)) →
  wp (disk_world false) (λ _ _, True) (writeReadWrite c)
    (λ o s', touches confPath s s' ∧
       match o with
       | None => True
       | Some (b, r, again) => r = inr (Some c) ∧ again = inr false ∧ confWritten host Marshal Unmarshal c b s s'
       end) s.
Proof.
  intros Hlaw. unfold writeReadWrite. apply wp_bind. apply WriteConfFile_spec; [done|by intros e s' Hs|].
  intros b s' Hw. assert (Hw' := Hw). destruct Hw' as (text & Hm & Ht & Hto & _).
  apply wp_bind. eapply ReadConfFile_there; [done|done|exact Ht|]. rewrite (Hlaw _ _ Hm).
  apply wp_bind. eapply WriteConfFile_same; [done|done|exact Ht|done|by apply Hlaw|]. done.
Qed.

(** A file that does not parse is never written again. *)
Lemma WriteConfFile_stuck flaky c old e s :
  dk_files s !! confPath = Some old → Unmarshal old = inl e →
  wp (disk_world flaky) (λ _ _, True) (WriteConfFile host Marshal Unmarshal c)
    (λ r s', (∃ e', r = inl e') ∧ dk_files s' = dk_files s) s.
Proof.
  intros Hold Hu. apply wp_try. apply wp_perform; [done|]. intros [e1|] s' [-> Hs].
  - destruct e1; [|by split; eauto..]. exfalso. apply Hs. left. by eexists.
  - apply wp_try, wp_readFile; [done|by split; eauto|]. intros c0 Hc. simplify_eq. rewrite Hu. by split; eauto.
Qed.

(** The files that are removed. *)
Definition cleanPaths (isOpenShift : bool) : list string :=
  [SriovSystemdConfigPath; SriovSystemdResultPath; SriovSystemdSupportedNicPath; SriovSystemdServiceBinaryPath] ++
  (if isOpenShift then [] else [SriovServicePath; SriovPostNetworkServicePath]).

(** What was removed so far. *)
Definition removed (l : list string) (s s' : Disk) : Prop :=
  (∀ q, dk_files s' !! q = if bool_decide (q ∈ GetHostExtensionPath host <$> l) then None else dk_files s !! q) ∧
  dk_units s' = dk_units s.

Lemma removed_snoc l path s s1 s2 :
  removed l s s1 → dk_files s2 = delete (GetHostExtensionPath host path) (dk_files s1) →
  touches (GetHostExtensionPath host path) s1 s2 → removed (l ++ [path]) s s2.
Proof.
  intros [H1 Hu] H2 (_ & Hu2 & _). split; [|congruence]. intros q. rewrite H2, fmap_app.
  destruct (decide (q = GetHostExtensionPath host path)) as [->|Hne].
  - rewrite lookup_delete_eq, bool_decide_true; [done|]. set_solver.
  - rewrite lookup_delete_ne, H1 by done. erewrite bool_decide_ext; [reflexivity|]. set_solver.
Qed.

Lemma remove_next l path s s1 (Q : HostError + unit → Disk → Prop) :
  removed l s s1 → (∀ e, Q (inl e) s1) → (∀ s2, removed (l ++ [path]) s s2 → Q (inr tt) s2) →
  wp (disk_world true) (λ _ _, True) (removeFile host path) Q s1.
Proof. intros H1 He Hok. apply removeFile_spec; [done|done|]. intros s2 H2 Ht. eapply Hok, removed_snoc; done. Qed.

(** Without an error none of the files is left and everything else is as before;
    otherwise only some of them are gone. *)
Lemma CleanSriovFilesFromHost_spec isOpenShift s :
  wp (disk_world true) (λ _ _, True) (CleanSriovFilesFromHost host isOpenShift)
    (λ r s', match r with
             | inr _ => removed (cleanPaths isOpenShift) s s'
             | inl _ => ∃ l, l `prefix_of` cleanPaths isOpenShift ∧ removed l s s'
             end) s.
Proof.
  assert (H0 : removed [] s s) by (split; [|done]; intros q; by rewrite bool_decide_false by (intros H; by inversion H)).
  unfold CleanSriovFilesFromHost.
  repeat (apply wp_try; eapply remove_next; [eassumption|intros e; eexists; split; [|eassumption]; by eexists|];
          clear H0; intros ? H0; cbn [app] in H0).
  destruct isOpenShift; [exact H0|].
  apply wp_try; eapply remove_next; [eassumption|intros e; eexists; split; [|eassumption]; by eexists|].
  intros sx H1. eapply remove_next; [eassumption|intros e; eexists; split; [|eassumption]; by eexists|]. done.
Qed.

(** The list of supported NICs comes back with an empty line at its end. *)
Lemma WriteSriovSupportedNics_roundtrip l s :
  Forall (λ x, ContainsByte "010" x = false) l →
  wp (disk_world false) (λ _ _, True)
    (w ← WriteSriovSupportedNics host l; match w with inl _ => Ret None | inr _ => r ← ReadSriovSupportedNics host; Ret (Some r) end)
    (λ o s', touches (GetHostExtensionPath host SriovSystemdSupportedNicPath) s s' ∧
       match o with None => True | Some r => r = inr (l ++ [""]) end) s.
Proof.
  intros Hl. apply wp_bind. apply WriteSriovSupportedNics_spec; [done|by intros e s' Hs|]. intros s' Ht Hs.
  apply wp_bind. eapply ReadSriovSupportedNics_there; [done|done|exact Ht|]. rewrite Split_lines by done. done.
Qed.
End theorems.

(** ** Witness *)

Definition exampleConf : SriovConfig :=
  mkSriovConfig (mkNodeStateSpec [mkInterface "0000:3b:00.0" 4 0 "ens1" "" "legacy" [] false] (mkBridges []) (mkSystem "" ∅))
    false "Baremetal" false "".

Definition exampleMarshal (c : SriovConfig) : string + string :=
  if decide (c = exampleConf) then inr "conf" else inl "not this one".

Definition exampleUnmarshal (t : string) : string + option SriovConfig :=
  if String.eqb t "conf" then inr (Some exampleConf) else if String.eqb t "" then inr None else inl "yaml".

Lemma example_law c text : exampleMarshal c = inr text → exampleUnmarshal text = inr (Some c).
Proof. unfold exampleMarshal. destruct (decide _) as [->|]; [|done]. by intros [= <-]. Qed.

Definition emptyDisk : Disk := mkDisk ∅ ∅ ∅ [].

(** On an empty disk the run succeeds and asks for a reboot. *)
Lemma WriteConfFile_roundtrip_witness :
  ∃ s', run disk_handle (writeReadWrite "/host" exampleMarshal exampleUnmarshal exampleConf) emptyDisk
        = (Some (true, inr (Some exampleConf), inr false), s') ∧
        touches ("/host" +:+ SriovSystemdConfigPath) emptyDisk s'.
Proof.
  eexists. split; [vm_compute; reflexivity|].
  pose proof (WriteConfFile_roundtrip "/host" exampleMarshal exampleUnmarshal exampleConf emptyDisk example_law) as H.
  eapply wp_exec in H; [|apply (run_exec_eq (disk_world false) disk_handle); [apply disk_handle_step|vm_compute; reflexivity]].
  exact (proj1 (proj1 H)).
Defined.
