(* ===== verification/SriovService.v ===== *)
(** * The sriov-config services (cmd/sriov-network-config-daemon/service.go,
    pkg/platform/platform.go)

    The command that systemd runs before and after the network is up.  The
    platform and the plugin it chooses answer requests.  A panic is an outcome
    of its own. *)
From S2P Require Import Prelude GoLib Types Selector Effects HostSys Systemd.

Definition PhasePre := "pre".
Definition PhasePost := "post".
Definition Baremetal := "Baremetal".
Definition VirtualOpenStack := "Virtual/Openstack".
Definition AWS := "AWS".

Definition InitializationDeviceUdevProcessingTimeoutSec : Z := 60.

(** platform.New: the constructors of the known platforms do not fail. *)
Definition newPlatform (platformType : string) : HostError + unit :=
  if bool_decide (platformType ∈ [Baremetal; VirtualOpenStack; AWS]) then inr tt
  else inl (HMsg ("unknown platform type " +:+ platformType)).

Section service.
Context (hostExtension : string).
Context (UnmarshalConfig : string → string + option SriovConfig).
Context (MarshalResult : SriovResult → string + string) (UnmarshalResult : string → string + option SriovResult).
(** The text of an error. *)
Context (ErrorText : HostError → string).
(** How often the devices are looked for, once a second, within
    InitializationDeviceDiscoveryTimeoutSec. *)
Context (attempts : nat).

(** ** Reading the configuration *)

Definition defaultConfig : SriovConfig := mkSriovConfig (mkNodeStateSpec [] (mkBridges []) (mkSystem "" ∅)) false Baremetal false "".

Definition readConf : svcE (option SriovConfig) :=
  r ← ReadConfFile hostExtension UnmarshalConfig;
  match r with
  | inr nodeStateSpec => Ret (inr nodeStateSpec)
  | inl _ =>
      s ← perform (FStat (GetHostExtensionPath hostExtension SriovSystemdConfigPath));
      match s with
      | Some ENOENT => Ret (inr (Some defaultConfig))
      | _ => Ret (inl (HMsg "failed to read the sriov configuration file"))
      end
  end.

(** A nil configuration is dereferenced. *)
Definition newServiceConfig : svcE SriovConfig :=
  cmdE (perform NewHostHelpers) ;;!
  sriovConfig ⇐ readConf;
  match sriovConfig with
  | None => Ret (inl HPanic)
  | Some c => Ret (match newPlatform (sc_PlatformType c) with inl e => inl e | inr _ => inr c end)
  end.
(** ** Results *)

Definition updateResult (result msg : string) : svcE unit :=
  r ← WriteSriovResult hostExtension MarshalResult (mkSriovResult result msg);
  Ret (match r with inl _ => inl (HMsg "sriov-config-service failed to write sriov result file") | inr _ => inr tt end).

Definition updateSriovResultErr (phase : string) (origErr : HostError) : svcE unit :=
  updateResult SyncStatusFailed (phase +:+ ": " +:+ ErrorText origErr) ;;!
  Ret (inl origErr).

Definition updateSriovResultOk (phase : string) : svcE unit :=
  updateResult (if String.eqb phase PhasePre then SyncStatusInProgress else SyncStatusSucceeded) "".

(** ** Waiting for the devices *)

(** The devices that do not have their name yet. *)
Fixpoint notReady (devices : list (string * string)) : svcM (list (string * string)) :=
  match devices with
  | [] => Ret []
  | (pciAddr, name) :: rest =>
      n ← perform (TryGetInterfaceName pciAddr);
      l ← notReady rest;
      Ret (if String.eqb n name then l else (pciAddr, name) :: l)
  end.

Fixpoint waitDevices (n : nat) (devicesToWait : list (string * string)) : svcM (list (string * string)) :=
  match n with
  | O => Ret devicesToWait
  | S n' =>
      l ← notReady devicesToWait;
      if bool_decide (l = []) then Ret []
      else perform SleepSecond ≫= λ _, waitDevices n' l
  end.

(** The map of the devices, a later entry for an address replacing an earlier
    one; the order of the visits does not matter to what is waited for. *)
Definition devicesOf (interfaces : list Interface) : gmap string string :=
  foldl (λ m d, <[if_PciAddress d := if_Name d]> m) ∅ interfaces.

(** Failures are only logged. *)
Definition waitForDevicesInitialization (c : SriovConfig) : svcM unit :=
  if negb (String.eqb (sc_PlatformType c) Baremetal) then Ret tt
  else
    waitDevices attempts (map_to_list (devicesOf (nss_Interfaces (sc_Spec c)))) ≫= λ _,
    perform (WaitUdevEventsProcessed InitializationDeviceUdevProcessingTimeoutSec) ≫= λ _,
    Ret tt.

(** ** The phases *)

Definition initSupportedNics : svcE (list string) := ReadSriovSupportedNics hostExtension.

Definition getNetworkNodeState (c : SriovConfig) (phase : string) : svcE SriovNetworkNodeState :=
  d ← perform PlatformDevices;
  match d with
  | inl _ => Ret (inl (HMsg "failed to discover sriov devices on the host"))
  | inr ifaceStatuses =>
      b ← (if negb (String.eqb phase PhasePre) && sc_ManageSoftwareBridges c then perform PlatformBridges
           else Ret (inr (mkBridges [])));
      match b with
      | inl _ => Ret (inl (HMsg "failed to discover managed bridges on the host"))
      | inr bridges =>
          Ret (inr (mkNodeState (mkObjectMeta "" "" 0 ∅ ∅ []) (sc_Spec c)
                      (mkNodeStateStatus ifaceStatuses bridges (mkSystem "" ∅) "" "" [])))
      end
  end.

Definition callPlugin (c : SriovConfig) (phase : string) : svcE unit :=
  p ← perform (PlatformPlugin phase);
  match p with
  | inl e => Ret (inl (HMsg e))
  | inr false => Ret (inr tt)
  | inr true =>
      nodeState ⇐ getNetworkNodeState c phase;
      r ← perform (PluginChange phase nodeState);
      match r with
      | Some _ => Ret (inl (HMsg "failed to run OnNodeStateChange to update the plugin status"))
      | None =>
          a ← perform (PluginApply phase);
          Ret (match a with Some _ => inl (HMsg "failed to apply configuration") | None => inr tt end)
      end
  end.

Definition phasePre (c : SriovConfig) : svcE unit :=
  r ← RemoveSriovResult hostExtension;
  match r with
  | inl _ => Ret (inl (HMsg "failed to remove sriov result file"))
  | inr _ =>
      perform CheckRDMAEnabled ≫= λ _,
      perform TryEnableTun ≫= λ _,
      perform TryEnableVhostNet ≫= λ _,
      callPlugin c PhasePre
  end.

(** The result is dereferenced although there may be none. *)
Definition phasePost (c : SriovConfig) : svcE unit :=
  r ← ReadSriovResult hostExtension UnmarshalResult;
  match r with
  | inl _ => Ret (inl (HMsg "failed to read result of the pre phase"))
  | inr None => Ret (inl HPanic)
  | inr (Some prePhaseResult) =>
      if negb (String.eqb (sr_SyncStatus prePhaseResult) SyncStatusInProgress)
      then Ret (inl (HMsg ("unexpected result of the pre phase: " +:+ sr_SyncStatus prePhaseResult +:+ ", syncError: " +:+
                           sr_LastSyncError prePhaseResult)))
      else callPlugin c PhasePost
  end.

(** What a phase gave, reported; a panic ends the process. *)
Definition reportPhase (phase : string) (r : HostError + unit) : svcE unit :=
  match r with
  | inl HPanic => Ret (inl HPanic)
  | inl e => updateSriovResultErr phase e
  | inr _ => updateSriovResultOk phase
  end.

(** With a configuration. *)
Definition runService (c : SriovConfig) (phase : string) : svcE unit :=
  n ← initSupportedNics;
  match n with
  | inl _ => updateSriovResultErr phase (HMsg "failed to initialize list of supported NIC ids")
  | inr _ =>
      waitForDevicesInitialization c ≫= λ _,
      i ← perform PlatformInit;
      match i with
      | Some _ => updateSriovResultErr phase (HMsg "failed to init platform configuration")
      | None =>
          r ← (if String.eqb phase PhasePre then phasePre c else phasePost c);
          reportPhase phase r
      end
  end.

Definition runServiceCmd (phase : string) : svcE unit :=
  if negb (String.eqb phase PhasePre) && negb (String.eqb phase PhasePost)
  then Ret (inl (HMsg "invalid value for --phase argument"))
  else
    c ⇐ newServiceConfig;
    runService c phase.
End service.
