(* ===== verification/SriovServiceSpec.v ===== *)
(** * What the result file of the sriov-config services says

    Against a disk whose reads and writes may fail: the pre phase leaves
    InProgress only when its plugin was applied, the post phase goes on only from
    InProgress and leaves Succeeded only when its plugin was applied, and what a
    whole boot amounts to.  The two cases in which the post phase does not do
    what it documents have theorems of their own. *)
From S2P Require Import Prelude GoLib Types Effects HostSys Systemd SystemdSpec SriovService.

Section spec.
Context (flaky : bool) (host : string).
Context (UnmarshalConfig : string → string + option SriovConfig).
Context (Marshal : SriovResult → string + string) (Unmarshal : string → string + option SriovResult).
Context (ErrorText : HostError → string) (attempts : nat).
Context (law : ∀ r text, Marshal r = inr text → Unmarshal text = inr (Some r)).

Abbreviation resultPath := (GetHostExtensionPath host SriovSystemdResultPath).

(** The result file holds [st]. *)
Definition status (s : Disk) (st : string) : Prop :=
  ∃ text res, dk_files s !! resultPath = Some text ∧ Unmarshal text = inr (Some res) ∧ sr_SyncStatus res = st.

(** The plugin of the post phase is called only from InProgress. *)
Definition calls (s : Disk) (r : SvcReq) : Prop :=
  match r with
  | PluginChange phase _ | PluginApply phase => phase = PhasePre ∨ phase = PhasePost ∧ status s SyncStatusInProgress
  | _ => True
  end.

Lemma calls_files s r : fileRequest r = true → calls s r.
Proof using Type. by destruct r. Qed.

Abbreviation wps := (wp (disk_world flaky) calls).
Abbreviation reads := (steady (disk_world flaky) calls eq).

Lemma status_unique s st st' : status s st → status s st' → st = st'.
Proof using Type. intros (t & r & H1 & H2 & <-) (t' & r' & H1' & H2' & <-). congruence. Qed.

(** ** Reading *)

Definition onlyReads (r : SvcReq) : bool :=
  match r with
  | FStat _ | FReadFile _ | NewHostHelpers | PlatformInit | PlatformDevices | PlatformBridges | CheckRDMAEnabled
  | TryEnableTun | TryEnableVhostNet | TryGetInterfaceName _ | WaitUdevEventsProcessed _ | SleepSecond => true
  | _ => false
  end.

Lemma reads_perform r : onlyReads r = true → reads (perform r).
Proof using Type.
  intros H. apply steady_perform; [exact _|intros s; destruct r; cbn in *; done|].
  intros s x s' Hs. destruct r; cbn in *; try discriminate H; first [by subst|by destruct Hs as [-> _]].
Qed.

#[local] Hint Extern 1 (steady _ _ _ (perform _)) => (apply reads_perform; reflexivity) : steady.

Lemma newServiceConfig_reads : reads (newServiceConfig host UnmarshalConfig).
Proof using Type. unfold newServiceConfig, readConf, ReadConfFile, cmdE, fs. steady. Qed.

Lemma initSupportedNics_reads : reads (initSupportedNics host).
Proof using Type. unfold initSupportedNics, ReadSriovSupportedNics, fsE, fs. steady. Qed.

Lemma notReady_reads l : reads (notReady l).
Proof using Type. induction l as [|[p n] l IH]; cbn [notReady]; steady. Qed.

Lemma waitDevices_reads n l : reads (waitDevices n l).
Proof using Type.
  revert l. induction n as [|n IH]; intros l; cbn [waitDevices]; steady. apply notReady_reads.
Qed.

Lemma waitForDevicesInitialization_reads c : reads (waitForDevicesInitialization attempts c).
Proof using Type. unfold waitForDevicesInitialization. steady. apply waitDevices_reads. Qed.

Lemma getNetworkNodeState_reads c phase : reads (getNetworkNodeState c phase).
Proof using Type. unfold getNetworkNodeState. steady. Qed.

(** ** The phases *)

(** The phase's plugin may be called. *)
Definition allowed (s : Disk) (phase : string) : Prop :=
  phase = PhasePre ∨ phase = PhasePost ∧ status s SyncStatusInProgress.

Lemma callPlugin_spec c phase Q s :
  allowed s phase → (∀ msg, Q (inl (HMsg msg)) s) → Q (inr tt) (addDone phase s) → wps (callPlugin c phase) Q s.
Proof using Type.
  intros Ha He Hok. unfold callPlugin. apply wp_perform; [done|]. intros [e|[|]] s' ->; [by apply He| |by apply Hok].
  apply wp_try.
  assert (Hg : wps (getNetworkNodeState c phase) (λ r s', s' = s ∧ match r with inl (HMsg _) | inr _ => True | _ => False end) s).
  { unfold getNetworkNodeState. apply wp_perform; [done|]. intros [e|l] s' ->; [done|].
    destruct (negb _ && _); [apply wp_perform; [done|]; intros [e|b] s' ->; done|done]. }
  eapply wp_post; [exact Hg|]. intros [e|ns] s' [-> Hr]; [destruct e; try done; by apply He|].
  apply wp_perform; [exact Ha|]. intros [e|] s' ->; [by apply He|].
  apply wp_perform; [exact Ha|]. intros [e|] s' ->; cbn; [by apply He|done].
Qed.

Lemma phasePre_spec c Q s :
  (∀ msg s', touches resultPath s s' → Q (inl (HMsg msg)) s') →
  (∀ s', dk_done s' = dk_done s ++ [PhasePre] → dk_units s' = dk_units s →
         (∀ q, q ≠ resultPath → dk_files s' !! q = dk_files s !! q) → Q (inr tt) s') →
  wps (phasePre host c) Q s.
Proof using Type.
  intros He Hok. unfold phasePre. apply wp_bind.
  apply removeFile_spec; [apply calls_files|intros e; by apply He|]. intros s1 _ Ht.
  apply wp_perform; [done|]. intros ? s' ->. apply wp_perform; [done|]. intros ? s' ->.
  apply wp_perform; [done|]. intros ? s' ->. destruct Ht as (Hf & Hu & Hd).
  apply callPlugin_spec; [by left|intros msg; by apply He|]. apply Hok; [cbn; by rewrite Hd|done|done].
Qed.

Lemma phasePost_spec c Q s :
  Q (inl HPanic) s → (∀ msg, Q (inl (HMsg msg)) s) →
  (status s SyncStatusInProgress → Q (inr tt) (addDone PhasePost s)) →
  wps (phasePost host Unmarshal c) Q s.
Proof using Type.
  intros Hp He Hok. unfold phasePost. apply wp_bind.
  apply ReadSriovResult_spec; [apply calls_files|intros e _; by apply He| |by intros _].
  intros text [res|] Ht Hu; [|done]. destruct (negb _) eqn:Hst; [by apply He|].
  apply negb_false_iff, String.eqb_eq in Hst. assert (H : status s SyncStatusInProgress) by (by exists text, res).
  apply callPlugin_spec; [by right|done|by apply Hok].
Qed.

(** ** The report *)

Definition writeError : HostError := HMsg "sriov-config-service failed to write sriov result file".

(** Everything but the result file. *)
Definition elsewhere (s s' : Disk) : Prop :=
  (∀ q, q ≠ resultPath → dk_files s' !! q = dk_files s !! q) ∧ dk_units s' = dk_units s.

Lemma elsewhere_refl s : elsewhere s s.
Proof using Type. done. Qed.

Lemma elsewhere_touches s s1 s2 : elsewhere s s1 → touches resultPath s1 s2 → elsewhere s s2.
Proof using Type.
  intros [H1 H2] (H3 & H4 & _). split; [|congruence]. intros q Hq. by rewrite H3, H1.
Qed.

Lemma updateResult_spec result msg Q s :
  (∀ s', touches resultPath s s' → Q (inl writeError) s') →
  (∀ s', touches resultPath s s' → status s' result → Q (inr tt) s') →
  wps (updateResult host Marshal result msg) Q s.
Proof using law.
  intros He Hok. apply wp_bind. apply WriteSriovResult_spec; [apply calls_files|done|].
  intros s' out Hm Hf Ht. apply Hok; [done|]. exists out, (mkSriovResult result msg). eauto.
Qed.

(** How a command ends that got as far as reporting: with its outcome in the
    file, or unable to write it. *)
Definition reported (phase : string) (s : Disk) (r : HostError + unit) (s' : Disk) : Prop :=
  elsewhere s s' ∧
  match r with
  | inr _ => status s' (if String.eqb phase PhasePre then SyncStatusInProgress else SyncStatusSucceeded) ∧
      dk_done s' = dk_done s ++ [phase] ∧ (phase = PhasePre ∨ status s SyncStatusInProgress)
  | inl e => e = writeError ∨ status s' SyncStatusFailed ∨ e = HPanic ∧ s' = s
  end.

Lemma updateSriovResultErr_spec phase e s s1 :
  elsewhere s s1 → wps (updateSriovResultErr host Marshal ErrorText phase e) (reported phase s) s1.
Proof using law.
  intros Hs. apply wp_try. apply updateResult_spec; intros s2 Ht; [by split; [eapply elsewhere_touches|left]|].
  intros Hst. split; [by eapply elsewhere_touches|]. right. by left.
Qed.

Lemma updateSriovResultOk_spec phase s s1 :
  elsewhere s s1 → dk_done s1 = dk_done s ++ [phase] → (phase = PhasePre ∨ status s SyncStatusInProgress) →
  wps (updateSriovResultOk host Marshal phase) (reported phase s) s1.
Proof using law.
  intros Hs Hd Hp. apply updateResult_spec; intros s2 Ht; [by split; [eapply elsewhere_touches|left]|].
  intros Hst. split; [by eapply elsewhere_touches|]. destruct Ht as (_ & _ & Ht). rewrite Ht. done.
Qed.

Lemma runService_spec c phase s :
  phase = PhasePre ∨ phase = PhasePost →
  wps (runService host Marshal Unmarshal ErrorText attempts c phase) (reported phase s) s.
Proof using law.
  intros Hp. unfold runService. apply (wp_steady_bind (disk_world flaky) calls eq); [apply initSupportedNics_reads|]. intros [e|nics] s' <-;
    [apply updateSriovResultErr_spec, elsewhere_refl|].
  apply (wp_steady_bind (disk_world flaky) calls eq); [apply waitForDevicesInitialization_reads|]. intros _ s' <-.
  apply wp_perform; [done|]. intros [e|] s' ->; [apply updateSriovResultErr_spec, elsewhere_refl|].
  apply wp_bind. destruct Hp as [-> | ->]; cbn [String.eqb].
  - apply phasePre_spec.
    + intros msg s' Ht. by eapply updateSriovResultErr_spec, elsewhere_touches.
    + intros s' Hd Hu Hf. by apply updateSriovResultOk_spec; [|done|left].
  - apply phasePost_spec.
    + split; [done|]. right. by right.
    + intros msg. apply updateSriovResultErr_spec, elsewhere_refl.
    + intros Hst. by apply updateSriovResultOk_spec; [|done|right].
Qed.

(** The command: it may also end before it has a configuration. *)
Definition commandEnds (phase : string) (s : Disk) (r : HostError + unit) (s' : Disk) : Prop :=
  reported phase s r s' ∨ (∃ e, r = inl e) ∧ s' = s.

Lemma runServiceCmd_spec phase s :
  wps (runServiceCmd host UnmarshalConfig Marshal Unmarshal ErrorText attempts phase) (commandEnds phase s) s.
Proof using law.
  unfold runServiceCmd. destruct (negb _ && _) eqn:Hph; [right; split; [by eexists|done]|].
  apply (wp_steady_try (disk_world flaky) calls eq); [apply newServiceConfig_reads|intros e s' <-; right; split; [by eexists|done]|].
  intros c s' <-. eapply wp_post; [apply runService_spec|by left].
  apply andb_false_iff in Hph as [H|H]; apply negb_false_iff, String.eqb_eq in H; auto.
Qed.

(** ** A boot *)

Definition boot : svcM ((HostError + unit) * (HostError + unit)) :=
  r1 ← runServiceCmd host UnmarshalConfig Marshal Unmarshal ErrorText attempts PhasePre;
  r2 ← runServiceCmd host UnmarshalConfig Marshal Unmarshal ErrorText attempts PhasePost;
  Ret (r1, r2).

(** What the end of the post phase says about the boot. *)
Definition bootEnds (s : Disk) (r : (HostError + unit) * (HostError + unit)) (s' : Disk) : Prop :=
  elsewhere s s' ∧
  (r.2 = inr tt →
   status s' SyncStatusSucceeded ∧
   (r.1 = inr tt ∧ dk_done s' = dk_done s ++ [PhasePre; PhasePost] ∨
    r.1 = inl writeError ∨
    (∃ e, r.1 = inl e) ∧ status s SyncStatusInProgress)).

Lemma commandEnds_elsewhere phase s r s' : commandEnds phase s r s' → elsewhere s s'.
Proof using Type. intros [[H _]|[_ ->]]; [done|apply elsewhere_refl]. Qed.

Lemma boot_ends s r1 s1 r2 s2 :
  commandEnds PhasePre s r1 s1 → commandEnds PhasePost s1 r2 s2 → bootEnds s (r1, r2) s2.
Proof using Type.
  intros H1 H2. split.
  { destruct (commandEnds_elsewhere _ _ _ _ H1) as [A1 A2], (commandEnds_elsewhere _ _ _ _ H2) as [B1 B2].
    split; [|congruence]. intros q Hq. by rewrite B1, A1. }
  cbn. intros ->. destruct H2 as [(_ & Hst & Hd & [Hno|Hin])|[[e He] _]]; [|split; [exact Hst|]|]; [done| |done].
  destruct H1 as [[_ H1]|[[e ->] ->]]; [|by right; right; split; [eexists|]].
  destruct r1 as [e|[]].
  - destruct H1 as [->|[Hf|[-> ->]]]; [by right; left| |by right; right; split; [eexists|]].
    pose proof (status_unique _ _ _ Hf Hin). done.
  - left. destruct H1 as (_ & Hd1 & _). split; [done|]. by rewrite Hd, Hd1, <- app_assoc.
Qed.

(** C17: in a boot, whatever fails on the disk or in the platform, the plugin of
    the post phase is called only while the result file says InProgress; if the
    post phase ends well, the file says Succeeded and both plugins were applied,
    the one of the pre phase first, unless the pre phase failed without being
    able to say so: it could not write the file, or it gave up before its first
    write on a disk that still said InProgress.  No file but the result is
    touched. *)
Theorem boot_result s : wps boot (bootEnds s) s.
Proof using law.
  apply wp_bind. eapply wp_post; [apply runServiceCmd_spec|]. intros r1 s1 H1.
  apply wp_bind. eapply wp_post; [apply runServiceCmd_spec|]. intros r2 s2 H2. by eapply boot_ends.
Qed.
End spec.

(** without a result file, the post phase panics and leaves none, instead of
    saying Failed. *)
Theorem phasePost_without_result host Marshal Unmarshal ErrorText c s :
  ¬ present s (GetHostExtensionPath host SriovSystemdResultPath) →
  wp (disk_world false) (λ _ _, True)
    (r ← phasePost host Unmarshal c; reportPhase host Marshal ErrorText PhasePost r)
    (λ r s', r = inl HPanic ∧ s' = s) s.
Proof.
  intros Hno. unfold phasePost. apply wp_bind, wp_bind.
  apply ReadSriovResult_missing; [done|done|done|]. by split.
Qed.

(** ** Witnesses *)

Definition exampleMarshalResult (r : SriovResult) : string + string :=
  if String.eqb (sr_LastSyncError r) "" then inr (sr_SyncStatus r) else inl "not written here".

Definition exampleUnmarshalResult (t : string) : string + option SriovResult := inr (Some (mkSriovResult t "")).

Lemma exampleResult_law r text : exampleMarshalResult r = inr text → exampleUnmarshalResult text = inr (Some r).
Proof.
  unfold exampleMarshalResult. destruct r as [st er]. cbn. destruct (String.eqb_spec er "") as [->|]; [|done].
  by intros [= <-].
Qed.

Definition exampleBoot := boot "" exampleUnmarshal exampleMarshalResult exampleUnmarshalResult (λ _, "") 3.

(** The list of supported NICs is there, nothing is configured. *)
Definition bootDisk : Disk := setFiles {[SriovSystemdSupportedNicPath := ""]} emptyDisk.

Lemma boot_result_witness :
  ∃ s', run disk_handle exampleBoot bootDisk = ((inr tt, inr tt), s') ∧
        status "" exampleUnmarshalResult s' SyncStatusSucceeded ∧ elsewhere "" bootDisk s'.
Proof.
  eexists. split; [vm_compute; reflexivity|].
  pose proof (boot_result true "" exampleUnmarshal exampleMarshalResult exampleUnmarshalResult (λ _, "") 3
                exampleResult_law bootDisk) as H.
  eapply wp_exec in H; [|apply (run_exec_eq (disk_world true) disk_handle); [apply disk_handle_step|vm_compute; reflexivity]].
  destruct H as [[H1 H2] _]. split; [exact (proj1 (H2 eq_refl))|exact H1].
Defined.

Lemma phasePost_without_result_witness :
  ∃ s', run disk_handle
          (r ← phasePost "" exampleUnmarshalResult exampleConf;
           reportPhase "" exampleMarshalResult (λ _, "") PhasePost r) bootDisk = (inl HPanic, s') ∧ s' = bootDisk.
Proof.
  eexists. split; [vm_compute; reflexivity|].
  assert (Hno : ¬ present bootDisk (GetHostExtensionPath "" SriovSystemdResultPath)).
  { intros [[x H]|H]; [vm_compute in H; discriminate|by apply not_elem_of_empty in H]. }
  pose proof (phasePost_without_result "" exampleMarshalResult exampleUnmarshalResult (λ _, "") exampleConf bootDisk Hno) as H.
  eapply wp_exec in H; [|apply (run_exec_eq (disk_world false) disk_handle); [apply disk_handle_step|vm_compute; reflexivity]].
  exact (proj2 (proj1 H)).
Defined.

(** ** A stale result *)

(** Creating the host helpers fails the first time; then nothing fails. *)
Definition once_handle (t : bool * Disk) (r : SvcReq) : SvcResp r * (bool * Disk) :=
  match r with
  | NewHostHelpers => (if t.1 then None else Some "cannot create host helpers", (true, t.2))
  | r => let '(x, s) := disk_handle t.2 r in (x, (t.1, s))
  end.

Lemma once_handle_step flaky t r : w_step (disk_world flaky) t.2 r (once_handle t r).1 (once_handle t r).2.2.
Proof.
  pose proof (disk_handle_step flaky t.2 r) as H. unfold once_handle.
  destruct r; [..|done]; try done; destruct (disk_handle _ _); exact H.
Qed.

(** After a boot that stopped between the phases, a pre phase that cannot even
    start goes unnoticed: the post phase takes the old InProgress for its own and
    reports success although the plugin of the pre phase was not applied. *)
Lemma boot_accepts_stale_result :
  ∃ s tr s' e, status "" exampleUnmarshalResult s SyncStatusInProgress ∧ dk_done s = [] ∧
    exec (disk_world false) exampleBoot s tr (inl e, inr tt) s' ∧
    status "" exampleUnmarshalResult s' SyncStatusSucceeded ∧ dk_done s' = [PhasePost].
Proof.
  set (s := setFiles {[SriovSystemdSupportedNicPath := ""; SriovSystemdResultPath := SyncStatusInProgress]} emptyDisk).
  destruct (run_exec_proj (disk_world false) once_handle snd exampleBoot (false, s) (run once_handle exampleBoot (false, s)).1
              (run once_handle exampleBoot (false, s)).2) as [tr Htr].
  { intros t r. apply once_handle_step. }
  { by destruct (run once_handle exampleBoot (false, s)). }
  exists s, tr, (run once_handle exampleBoot (false, s)).2.2, (HMsg "cannot create host helpers"). split_and!.
  - by exists SyncStatusInProgress, (mkSriovResult SyncStatusInProgress "").
  - done.
  - replace (inl (HMsg "cannot create host helpers"), inr tt) with (run once_handle exampleBoot (false, s)).1
      by (vm_compute; reflexivity). exact Htr.
  - by exists SyncStatusSucceeded, (mkSriovResult SyncStatusSucceeded "").
  - vm_compute. reflexivity.
Qed.
