(* ===== verification/K8sPlugin.v ===== *)
(** * The k8s plugin (pkg/plugins/k8s/k8s_plugin.go)

    The plugin keeps the unit files of the sriov services and the drop-in of
    the OVS service up to date and asks for a reboot when one changes.  The
    pointers to the services are nil until the manifests are read; dereferencing
    nil is a panic. *)
From S2P Require Import Prelude GoLib Types NeedUpdate Effects Render HostSys Systemd.

(** ** State *)

Record updateTargetReq := mkUpdateTargetReq { utr_update : bool; utr_reboot : bool }.

Definition SetNeedUpdate (u : updateTargetReq) : updateTargetReq := mkUpdateTargetReq true (utr_reboot u).
Definition SetNeedReboot (u : updateTargetReq) : updateTargetReq := mkUpdateTargetReq true true.
Definition NeedUpdate (u : updateTargetReq) : bool := utr_update u.
Definition NeedReboot (u : updateTargetReq) : bool := utr_reboot u.

Record k8sUpdateTarget := mkUpdateTarget {
  ut_sriovScript : updateTargetReq;
  ut_sriovPostNetworkScript : updateTargetReq;
  ut_openVSwitch : updateTargetReq;
}.

Definition targetString (u : k8sUpdateTarget) : string :=
  Join ((if NeedReboot (ut_sriovScript u) then ["sriov-config.service"] else []) ++
        (if NeedReboot (ut_sriovPostNetworkScript u) then ["sriov-config-post-network.service"] else []) ++
        (if NeedReboot (ut_openVSwitch u) then ["ovs-vswitchd.service"] else [])) ",".

Definition needReboot (u : k8sUpdateTarget) : bool :=
  NeedReboot (ut_sriovScript u) || NeedReboot (ut_sriovPostNetworkScript u) || NeedReboot (ut_openVSwitch u).

Definition reset : k8sUpdateTarget :=
  mkUpdateTarget (mkUpdateTargetReq false false) (mkUpdateTargetReq false false) (mkUpdateTargetReq false false).

Record K8sPlugin := mkK8sPlugin {
  kp_openVSwitchService : option Service;
  kp_sriovService : option Service;
  kp_sriovPostNetworkService : option Service;
  kp_updateTarget : k8sUpdateTarget;
}.

Definition NewK8sPlugin : K8sPlugin := mkK8sPlugin None None None reset.

Definition sriovUnitFile := "bindata/manifests/sriov-config-service/kubernetes/sriov-config-service.yaml".
Definition sriovPostNetworkUnitFile := "bindata/manifests/sriov-config-service/kubernetes/sriov-config-post-network-service.yaml".
Definition ovsUnitFile := "bindata/manifests/switchdev-config/ovs-units/ovs-vswitchd.service.yaml".
Definition ovsMainServicePath := "/usr/lib/systemd/system/ovs-vswitchd.service".

Section k8s.
Context (DeserializeOptions : string → string + list UnitOption).
Context (ReadInjectionManifest : string → string + ServiceInjectionManifestFile).
Context (ReadManifest : string → string + ServiceManifestFile).
Context (ExecError : RenderData → list Tmpl → string).
(** vars.UsingSystemdMode. *)
Context (UsingSystemdMode : bool).

(** ** The manifests *)

Definition readOpenVSwitchdManifest (ovsConfig : gmap string string) (p : K8sPlugin) : K8sPlugin * option HostError :=
  match ReadOvsServiceInjectionManifestFile ReadInjectionManifest ExecError ovsUnitFile ovsConfig with
  | inl e => (p, Some e)
  | inr s => (mkK8sPlugin (Some s) (kp_sriovService p) (kp_sriovPostNetworkService p) (kp_updateTarget p), None)
  end.

Definition readSriovServiceManifest (p : K8sPlugin) : K8sPlugin * option HostError :=
  match ReadServiceManifestFile ReadManifest sriovUnitFile with
  | inl e => (p, Some e)
  | inr s => (mkK8sPlugin (kp_openVSwitchService p) (Some s) (kp_sriovPostNetworkService p) (kp_updateTarget p), None)
  end.

Definition readSriovPostNetworkServiceManifest (p : K8sPlugin) : K8sPlugin * option HostError :=
  match ReadServiceManifestFile ReadManifest sriovPostNetworkUnitFile with
  | inl e => (p, Some e)
  | inr s => (mkK8sPlugin (kp_openVSwitchService p) (kp_sriovService p) (Some s) (kp_updateTarget p), None)
  end.

Definition readManifestFiles (ovsConfig : gmap string string) (p : K8sPlugin) : K8sPlugin * option HostError :=
  match readOpenVSwitchdManifest ovsConfig p with
  | (p, Some e) => (p, Some e)
  | (p, None) =>
      match readSriovServiceManifest p with
      | (p, Some e) => (p, Some e)
      | (p, None) => readSriovPostNetworkServiceManifest p
      end
  end.

(** ** What needs an update *)

Definition isDropinNeedUpdate (service : Service) : svcM bool :=
  r ← ReadService (srv_Path service);
  Ret (match r with
       | inl _ => true
       | inr existing =>
           match CompareServices DeserializeOptions existing service with inl _ => true | inr needChange => needChange end
       end).

Definition isSystemDServiceNeedUpdate (serviceObj : Service) : svcM bool :=
  r ← ReadService (srv_Path serviceObj);
  Ret (match r with
       | inl _ => false
       | inr systemService =>
           match CompareServices DeserializeOptions systemService serviceObj with inl _ => false | inr needChange => needChange end
       end).

(** One round of the loop of sriovServicesStateUpdate. *)
Definition serviceStateUpdate (srv : option Service) (update : updateTargetReq) : svcE updateTargetReq :=
  match srv with
  | None => Ret (inl HPanic)
  | Some s =>
      isServiceEnabled ⇐ IsServiceEnabled (srv_Path s);
      if negb isServiceEnabled then Ret (inr (SetNeedReboot update))
      else
        n ← isSystemDServiceNeedUpdate s;
        Ret (inr (if (n : bool) then SetNeedReboot update else update))
  end.

(** What was marked before an error stays marked. *)
Definition sriovServicesStateUpdate (p : K8sPlugin) (u : k8sUpdateTarget) : svcM (k8sUpdateTarget * option HostError) :=
  a ← serviceStateUpdate (kp_sriovService p) (ut_sriovScript u);
  match a with
  | inl e => Ret (u, Some e)
  | inr script =>
      let u := mkUpdateTarget script (ut_sriovPostNetworkScript u) (ut_openVSwitch u) in
      b ← serviceStateUpdate (kp_sriovPostNetworkService p) (ut_sriovPostNetworkScript u);
      match b with
      | inl e => Ret (u, Some e)
      | inr post => Ret (mkUpdateTarget script post (ut_openVSwitch u), None)
      end
  end.

Definition ovsServiceStateUpdate (p : K8sPlugin) (u : k8sUpdateTarget) : svcM (k8sUpdateTarget * option HostError) :=
  e ← IsServiceExist ovsMainServicePath;
  match e, kp_openVSwitchService p with
  | inl err, _ => Ret (u, Some err)
  | inr _, None => Ret (u, Some HPanic)
  | inr false, Some _ => Ret (u, None)
  | inr true, Some s =>
      n ← isDropinNeedUpdate s;
      Ret (if (n : bool) then mkUpdateTarget (ut_sriovScript u) (ut_sriovPostNetworkScript u) (SetNeedReboot (ut_openVSwitch u)) else u, None)
  end.

Definition setTarget (p : K8sPlugin) (u : k8sUpdateTarget) : K8sPlugin :=
  mkK8sPlugin (kp_openVSwitchService p) (kp_sriovService p) (kp_sriovPostNetworkService p) u.

(** ** The plugin's methods *)

(** The plugin afterwards, and whether a drain and a reboot are needed. *)
Definition OnNodeStateChange (new : SriovNetworkNodeState) (p : K8sPlugin) : svcM (K8sPlugin * (HostError + bool * bool)) :=
  match readManifestFiles (sys_OvsConfig (nss_System (ns_Spec new))) p with
  | (p, Some e) => Ret (p, inl e)
  | (p, None) =>
      let switchdev := IsSwitchdevModeSpec (ns_Spec new) in
      if negb UsingSystemdMode && negb switchdev then Ret (setTarget p reset, inr (false, false))
      else
        '(u, err) ← (if switchdev then ovsServiceStateUpdate p reset else Ret (reset, None));
        match err with
        | Some e => Ret (setTarget p u, inl e)
        | None =>
            '(u, err) ← (if UsingSystemdMode then sriovServicesStateUpdate p u else Ret (u, None));
            match err with
            | Some e => Ret (setTarget p u, inl e)
            | None => Ret (setTarget p u, inr (needReboot u, needReboot u))
            end
        end
  end.

Definition CheckStatusChanges (current : SriovNetworkNodeState) : HostError + bool := inr false.

(** One round of the loop of updateSriovServices. *)
Definition updateService (srv : option Service) (update : updateTargetReq) : svcE unit :=
  if NeedUpdate update then
    match srv with None => Ret (inl HPanic) | Some s => EnableService s end
  else Ret (inr tt).

Definition updateSriovServices (p : K8sPlugin) : svcE unit :=
  updateService (kp_sriovService p) (ut_sriovScript (kp_updateTarget p)) ;;!
  updateService (kp_sriovPostNetworkService p) (ut_sriovPostNetworkScript (kp_updateTarget p)).

Definition updateOVSService (p : K8sPlugin) : svcE unit :=
  if NeedUpdate (ut_openVSwitch (kp_updateTarget p)) then
    match kp_openVSwitchService p with None => Ret (inl HPanic) | Some s => WriteServiceDropin s end
  else Ret (inr tt).

Definition Apply (p : K8sPlugin) : svcE unit :=
  (if UsingSystemdMode then updateSriovServices p else Ret (inr tt)) ;;!
  updateOVSService p.
End k8s.
