(* ===== verification/K8sPluginSpec.v ===== *)
(** * The k8s plugin does not ask for a reboot again

    What the plugin checks is what it writes: it asks for a drain and a reboot
    exactly when a unit or the drop-in is not as the manifests have it, and once
    Apply has gone through it asks for nothing any more. *)
From S2P Require Import Prelude GoLib Types NeedUpdate Effects Render HostSys Systemd SystemdSpec K8sPlugin.

Section spec.
Context (DeserializeOptions : string → string + list UnitOption).
Context (ReadInjectionManifest : string → string + ServiceInjectionManifestFile).
Context (ReadManifest : string → string + ServiceManifestFile).
Context (ExecError : RenderData → list Tmpl → string).
Context (UsingSystemdMode : bool).

Abbreviation wpk := (wp (disk_world false) (λ _ _, True)).

(** ** What is as it should be *)

(** The unit is there and enabled, and every option of the manifest is in its
    file, if both can be parsed. *)
Definition unitFine (s : Disk) (srv : Service) : Prop :=
  present s (inChroot (srv_Path srv)) ∧ fileName (srv_Path srv) ∈ dk_units s ∧
  ∀ c a b, dk_files s !! inChroot (srv_Path srv) = Some c →
    DeserializeOptions c = inr a → DeserializeOptions (srv_Content srv) = inr b → ∀ o, o ∈ b → o ∈ a.

(** The drop-in is there, can be parsed, and has every option of the
    manifest. *)
Definition dropinFine (s : Disk) (srv : Service) : Prop :=
  ∃ c a b, dk_files s !! inChroot (srv_Path srv) = Some c ∧
    DeserializeOptions c = inr a ∧ DeserializeOptions (srv_Content srv) = inr b ∧ ∀ o, o ∈ b → o ∈ a.

Definition ovsFine (s : Disk) (srv : Service) : Prop := present s (inChroot ovsMainServicePath) → dropinFine s srv.

Lemma lacks_spec a b : lacks a b = false ↔ ∀ o, o ∈ b → o ∈ a.
Proof using Type.
  unfold lacks. rewrite <- not_true_iff_false, existsb_exists. split.
  - intros H o Ho. destruct (decide (o ∈ a)) as [|Hn]; [done|]. destruct H. exists o.
    split; [by apply list_elem_of_In|]. apply negb_true_iff, not_true_iff_false. rewrite existsb_exists.
    intros (o' & Ho' & E%bool_decide_eq_true). subst o'. by apply Hn, list_elem_of_In.
  - intros H (o & Ho%list_elem_of_In & Hn). apply negb_true_iff, not_true_iff_false in Hn. apply Hn, existsb_exists.
    exists o. split; [by apply list_elem_of_In, H|by apply bool_decide_eq_true].
Qed.

(** The comparison, in these terms. *)
Lemma CompareServices_spec name path c srv :
  (CompareServices DeserializeOptions (mkService name path c) srv = inr false ↔
   ∃ a b, DeserializeOptions c = inr a ∧ DeserializeOptions (srv_Content srv) = inr b ∧ ∀ o, o ∈ b → o ∈ a) ∧
  (CompareServices DeserializeOptions (mkService name path c) srv ≠ inr true ↔
   ∀ a b, DeserializeOptions c = inr a → DeserializeOptions (srv_Content srv) = inr b → ∀ o, o ∈ b → o ∈ a).
Proof using Type.
  clear ReadInjectionManifest ReadManifest ExecError. unfold CompareServices. cbn. destruct (DeserializeOptions c) as [e|a]; [naive_solver|].
  destruct (DeserializeOptions (srv_Content srv)) as [e|b]; [naive_solver|].
  pose proof (lacks_spec a b) as H. destruct (lacks a b); naive_solver.
Qed.

(** ** Checking *)

Lemma wp_chrooted {A} (body : svcE A) Q s :
  wpk body Q s → wpk (chrooted body) Q s.
Proof using Type.
  intros H. apply wp_try. split; [done|]. intros [e|] s' [-> He]; [by destruct He|]. cbn -[wp].
  apply (wp_bind _ _ body). eapply wp_post; [exact H|]. intros r s' Hr. split; [done|]. by intros ? ? ->.
Qed.

Lemma IsServiceExist_spec path (Q : HostError + bool → Disk → Prop) s :
  (present s (inChroot path) → Q (inr true) s) → (¬ present s (inChroot path) → Q (inr false) s) →
  wpk (IsServiceExist path) Q s.
Proof using Type.
  intros H1 H2. split; [done|]. intros [e|] s' [-> Hs]; cbn; [|by apply H1]. destruct e; try done. by apply H2.
Qed.

Lemma IsServiceEnabled_spec path (Q : HostError + bool → Disk → Prop) s :
  (present s (inChroot path) → fileName path ∈ dk_units s → Q (inr true) s) →
  (¬ (present s (inChroot path) ∧ fileName path ∈ dk_units s) → Q (inr false) s) →
  wpk (IsServiceEnabled path) Q s.
Proof using Type.
  intros H1 H2. apply wp_try. apply IsServiceExist_spec; [|intros H; apply H2; by intros [? _]].
  intros Hp. apply wp_chrooted. apply wp_perform; [done|]. intros [e|] s' [-> Hs]; cbn.
  - apply H2. intros [_ Hu]. destruct Hs; done.
  - by apply H1.
Qed.

Lemma ReadService_spec path (Q : HostError + Service → Disk → Prop) s :
  (∀ c, dk_files s !! inChroot path = Some c → Q (inr (mkService (fileName path) path c)) s) →
  (dk_files s !! inChroot path = None → ∀ e, Q (inl e) s) →
  wpk (ReadService path) Q s.
Proof using Type.
  intros H1 H2. apply wp_try. unfold fs. apply wp_perform; [done|]. intros [e|c] s' [-> Hs]; cbn; [|by apply H1].
  destruct e; try done. by apply H2.
Qed.

Lemma serviceStateUpdate_spec srv u (Q : HostError + updateTargetReq → Disk → Prop) s :
  (unitFine s srv → Q (inr u) s) → (¬ unitFine s srv → Q (inr (SetNeedReboot u)) s) →
  wpk (serviceStateUpdate DeserializeOptions (Some srv) u) Q s.
Proof using Type.
  intros H1 H2. apply wp_try. apply IsServiceEnabled_spec; [|intros H; apply H2; intros (? & ? & _); by apply H].
  intros Hp Hu. cbn [negb]. unfold isSystemDServiceNeedUpdate. apply wp_bind, wp_bind. apply ReadService_spec.
  - intros c Hc. cbn. destruct (CompareServices_spec (fileName (srv_Path srv)) (srv_Path srv) c srv) as [_ Hs].
    destruct (CompareServices _ _ _) as [e|[|]] eqn:Hcmp.
    + apply H1. split_and!; [done..|]. intros c' a b Hc'. simplify_eq. by apply Hs.
    + apply H2. intros (_ & _ & H). by apply Hs; [intros a b; apply H|].
    + apply H1. split_and!; [done..|]. intros c' a b Hc'. simplify_eq. by apply Hs.
  - intros Hno e. apply H1. split_and!; [done..|]. intros c a b Hc. congruence.
Qed.

Lemma isDropinNeedUpdate_spec srv (Q : bool → Disk → Prop) s :
  (dropinFine s srv → Q false s) → (¬ dropinFine s srv → Q true s) →
  wpk (isDropinNeedUpdate DeserializeOptions srv) Q s.
Proof using Type.
  clear ReadInjectionManifest ReadManifest ExecError. intros H1 H2. apply wp_bind. apply ReadService_spec.
  - intros c Hc. cbn. destruct (CompareServices_spec (fileName (srv_Path srv)) (srv_Path srv) c srv) as [Hs _].
    assert (Hd : dropinFine s srv ↔ CompareServices DeserializeOptions (mkService (fileName (srv_Path srv)) (srv_Path srv) c) srv = inr false).
    { rewrite Hs. unfold dropinFine. naive_solver. }
    destruct (CompareServices _ _ _) as [e|[|]]; [apply H2|apply H2|apply H1, Hd; done]; by rewrite Hd.
  - intros Hno e. apply H2. intros (c' & a & b & Hc' & _). congruence.
Qed.

(** ** A node state *)

Section node.
Context (new : SriovNetworkNodeState) (ovs sriov post : Service) (o1 o2 o3 : list UnitOption).

(** The manifests can be read, name two units, and their options can be
    compared. *)
Record Manifests : Prop := {
  mf_ovs : ReadOvsServiceInjectionManifestFile ReadInjectionManifest ExecError ovsUnitFile
             (sys_OvsConfig (nss_System (ns_Spec new))) = inr ovs;
  mf_sriov : ReadServiceManifestFile ReadManifest sriovUnitFile = inr sriov;
  mf_post : ReadServiceManifestFile ReadManifest sriovPostNetworkUnitFile = inr post;
  mf_names : srv_Name sriov ≠ srv_Name post ∧
    ContainsByte "/" (srv_Name sriov) = false ∧ ContainsByte "/" (srv_Name post) = false;
  mf_options : DeserializeOptions (srv_Content ovs) = inr o1 ∧ DeserializeOptions (srv_Content sriov) = inr o2 ∧
    DeserializeOptions (srv_Content post) = inr o3;
}.
Context (M : Manifests).

Abbreviation switchdev := (IsSwitchdevModeSpec (ns_Spec new)).

Definition both (b : bool) : updateTargetReq := mkUpdateTargetReq b b.

(** A flag says whether [P] does not hold, when it matters at all. *)
Definition flags (b relevant : bool) (P : Prop) : Prop :=
  if b then relevant = true ∧ ¬ P else relevant = true → P.

(** The plugin after a check that found the disk [s]. *)
Definition checked (s : Disk) (p : K8sPlugin) (a b c : bool) : Prop :=
  p = mkK8sPlugin (Some ovs) (Some sriov) (Some post) (mkUpdateTarget (both b) (both c) (both a)) ∧
  flags a switchdev (ovsFine s ovs) ∧ flags b UsingSystemdMode (unitFine s sriov) ∧ flags c UsingSystemdMode (unitFine s post).

Lemma readManifestFiles_ok p :
  readManifestFiles ReadInjectionManifest ReadManifest ExecError (sys_OvsConfig (nss_System (ns_Spec new))) p
  = (mkK8sPlugin (Some ovs) (Some sriov) (Some post) (kp_updateTarget p), None).
Proof using M.
  unfold readManifestFiles, readOpenVSwitchdManifest, readSriovServiceManifest, readSriovPostNetworkServiceManifest.
  by rewrite (mf_ovs M), (mf_sriov M), (mf_post M).
Qed.

Lemma ovsServiceStateUpdate_spec p (Q : k8sUpdateTarget * option HostError → Disk → Prop) s :
  kp_openVSwitchService p = Some ovs →
  (∀ a, flags a true (ovsFine s ovs) → Q (mkUpdateTarget (both false) (both false) (both a), None) s) →
  wpk (ovsServiceStateUpdate DeserializeOptions p reset) Q s.
Proof using Type.
  intros Hp HQ. apply wp_bind. rewrite Hp. apply IsServiceExist_spec; [|intros H; apply (HQ false); by intros _ H'].
  intros Hm. apply wp_bind. apply isDropinNeedUpdate_spec; intros Hd; [apply (HQ false); by intros _ _|].
  apply (HQ true). split; [done|]. intros H. by apply Hd, H.
Qed.

Lemma sriovServicesStateUpdate_spec p a (Q : k8sUpdateTarget * option HostError → Disk → Prop) s :
  kp_sriovService p = Some sriov → kp_sriovPostNetworkService p = Some post →
  (∀ b c, flags b true (unitFine s sriov) → flags c true (unitFine s post) →
     Q (mkUpdateTarget (both b) (both c) (both a), None) s) →
  wpk (sriovServicesStateUpdate DeserializeOptions p (mkUpdateTarget (both false) (both false) (both a))) Q s.
Proof using Type.
  intros H1 H2 HQ. apply wp_bind. rewrite H1, H2.
  assert (Hnext : ∀ b, flags b true (unitFine s sriov) →
    wpk (r ← serviceStateUpdate DeserializeOptions (Some post) (both false);
         match r with
         | inl e => Ret (mkUpdateTarget (both b) (both false) (both a), Some e)
         | inr u => Ret (mkUpdateTarget (both b) u (both a), None)
         end) Q s).
  { intros b Hb. apply wp_bind. apply serviceStateUpdate_spec; intros Hc;
      [apply (HQ b false); by try intros _|apply (HQ b true); [done|by split]]. }
  apply serviceStateUpdate_spec; intros Hb; [apply (Hnext false); by intros _|apply (Hnext true); by split].
Qed.

(** The plugin asks for a drain and a reboot exactly when something that matters
    is not as it should be. *)
Lemma OnNodeStateChange_spec p (Q : K8sPlugin * (HostError + bool * bool) → Disk → Prop) s :
  (∀ p' a b c, checked s p' a b c → Q (p', inr (b || c || a, b || c || a)) s) →
  wpk (OnNodeStateChange DeserializeOptions ReadInjectionManifest ReadManifest ExecError UsingSystemdMode new p) Q s.
Proof using M.
  intros HQ. unfold OnNodeStateChange. rewrite readManifestFiles_ok. cbn zeta.
  destruct (negb UsingSystemdMode && negb switchdev) eqn:Hneither.
  { apply andb_prop in Hneither as [H1 H2]. apply negb_true_iff in H1, H2.
    apply (HQ _ false false false). split; [done|]. unfold flags. rewrite H1, H2. done. }
  assert (Hnext : ∀ a, flags a switchdev (ovsFine s ovs) →
    wpk ('(u, err) ← (if UsingSystemdMode
          then sriovServicesStateUpdate DeserializeOptions (mkK8sPlugin (Some ovs) (Some sriov) (Some post) (kp_updateTarget p))
                 (mkUpdateTarget (both false) (both false) (both a))
          else Ret (mkUpdateTarget (both false) (both false) (both a), None));
         match err with
         | Some e => Ret (setTarget (mkK8sPlugin (Some ovs) (Some sriov) (Some post) (kp_updateTarget p)) u, inl e)
         | None => Ret (setTarget (mkK8sPlugin (Some ovs) (Some sriov) (Some post) (kp_updateTarget p)) u, inr (needReboot u, needReboot u))
         end) Q s).
  { intros a Ha. apply wp_bind. destruct UsingSystemdMode eqn:Hm.
    - apply sriovServicesStateUpdate_spec; [done..|]. intros b c Hb Hc. apply (HQ _ a b c). unfold checked. rewrite Hm. done.
    - apply (HQ _ a false false). unfold checked. rewrite Hm. done. }
  apply wp_bind. destruct switchdev eqn:Hsw.
  - apply ovsServiceStateUpdate_spec; [done|]. intros a Ha. by apply Hnext.
  - by apply (Hnext false).
Qed.

(** ** Applying *)

(** What stays fine: its file is untouched, and units and folders only come. *)
Definition keeps (path : string) (s s' : Disk) : Prop :=
  dk_files s' !! inChroot path = dk_files s !! inChroot path ∧ dk_units s ⊆ dk_units s' ∧ dk_dirs s ⊆ dk_dirs s'.

Lemma unitFine_keeps srv s s' : keeps (srv_Path srv) s s' → unitFine s srv → unitFine s' srv.
Proof using Type.
  intros (Hf & Hu & Hd) (Hp & Hin & Hc). split_and!; [|by apply Hu|by rewrite Hf].
  destruct Hp as [Hp|Hp]; [left; by rewrite Hf|right; by apply Hd].
Qed.

(** The main unit of OVS is not removed. *)
Lemma ovsFine_keeps s s' :
  keeps (srv_Path ovs) s s' → (present s' (inChroot ovsMainServicePath) → present s (inChroot ovsMainServicePath)) →
  ovsFine s ovs → ovsFine s' ovs.
Proof using Type.
  intros (Hf & _ & _) Hm H Hp. destruct (H (Hm Hp)) as (c & a & b & Hc & Hab). exists c, a, b. by rewrite Hf.
Qed.

Lemma unit_path_of srv f : ReadServiceManifestFile ReadManifest f = inr srv → srv_Path srv = "/etc/systemd/system/" +:+ srv_Name srv.
Proof using Type. unfold ReadServiceManifestFile. destruct (ReadManifest f); [done|]. by intros [= <-]. Qed.

Lemma fileName_unit name : ContainsByte "/" name = false → fileName ("/etc/systemd/system/" +:+ name) = name.
Proof using Type.
  intros H. unfold fileName.
  change ("/etc/systemd/system/" +:+ name) with
    ("" +:+ String "/" ("etc" +:+ String "/" ("systemd" +:+ String "/" ("system" +:+ String "/" name)))).
  rewrite !Split_app by done. by rewrite Split_none.
Qed.

(** What enabling a unit leaves. *)
Definition enabledWith (srv : Service) (s s' : Disk) : Prop :=
  dk_files s' = <[inChroot (srv_Path srv) := srv_Content srv]> (dk_files s) ∧
  dk_units s' = {[srv_Name srv]} ∪ dk_units s ∧ dk_dirs s' = dk_dirs s.

Lemma EnableService_spec srv (Q : HostError + unit → Disk → Prop) s :
  (∀ e s', Q (inl e) s') → (∀ s', enabledWith srv s s' → Q (inr tt) s') → wpk (EnableService srv) Q s.
Proof using Type.
  intros He Hok. apply wp_try, disk_writeFile; [done|done|].
  apply wp_chrooted. split; [done|]. intros [e|] s' Hs; cbn in *; [by apply He|]. subst. by apply Hok.
Qed.

Lemma enabledWith_fine srv f opts s s' :
  ReadServiceManifestFile ReadManifest f = inr srv → ContainsByte "/" (srv_Name srv) = false →
  DeserializeOptions (srv_Content srv) = inr opts → enabledWith srv s s' → unitFine s' srv.
Proof using Type.
  intros Hr Hn Ho (Hf & Hu & _). pose proof (unit_path_of _ _ Hr) as Hp. split_and!.
  - left. rewrite Hf. by simplify_map_eq.
  - rewrite Hu, Hp, fileName_unit by done. by apply elem_of_union_l, elem_of_singleton.
  - rewrite Hf. intros c a b Hc Ha Hb. rewrite lookup_insert_eq in Hc. injection Hc as <-. congruence.
Qed.

Lemma enabledWith_keeps srv path s s' : inChroot path ≠ inChroot (srv_Path srv) → enabledWith srv s s' → keeps path s s'.
Proof using Type. intros Hne (Hf & Hu & Hd). split_and!; [rewrite Hf; by rewrite lookup_insert_ne|rewrite Hu; apply union_subseteq_r|by rewrite Hd]. Qed.

Lemma append_inj a b c : a +:+ b = a +:+ c → b = c.
Proof using Type. induction a as [|x a IH]; [done|]. cbn. intros [= H]. by apply IH. Qed.

Lemma unit_paths_differ : inChroot (srv_Path sriov) ≠ inChroot (srv_Path post).
Proof using M.
  rewrite (unit_path_of _ _ (mf_sriov M)), (unit_path_of _ _ (mf_post M)). intros H.
  apply append_inj, append_inj in H. by apply (proj1 (mf_names M)).
Qed.

Lemma ovs_path : ∃ x, srv_Path ovs = systemdDir +:+ x.
Proof using M.
  pose proof (mf_ovs M) as H. unfold ReadOvsServiceInjectionManifestFile in H.
  repeat case_match; try discriminate H. injection H as H. rewrite <- H. by eexists.
Qed.

Lemma ovs_unit_differ srv f : ReadServiceManifestFile ReadManifest f = inr srv → inChroot (srv_Path ovs) ≠ inChroot (srv_Path srv).
Proof using M.
  intros H. destruct ovs_path as [x ->]. rewrite (unit_path_of _ _ H). cbn. discriminate.
Qed.

(** Enabling a unit of the manifests does not make the main unit of OVS appear. *)
Lemma enabledWith_main srv f s s' :
  ReadServiceManifestFile ReadManifest f = inr srv → enabledWith srv s s' →
  present s' (inChroot ovsMainServicePath) → present s (inChroot ovsMainServicePath).
Proof using Type.
  intros Hr (Hf & _ & Hd) [H|H]; [left|right; by rewrite <- Hd]. rewrite Hf, lookup_insert_ne in H; [done|].
  rewrite (unit_path_of _ _ Hr). cbn. discriminate.
Qed.

(** Everything that matters is as it should be. *)
Definition settled (s : Disk) : Prop :=
  (switchdev = true → ovsFine s ovs) ∧ (UsingSystemdMode = true → unitFine s sriov ∧ unitFine s post).

(** One unit: either it was fine, or it is written. *)
Lemma updateService_spec srv b (Q : HostError + unit → Disk → Prop) s :
  (∀ e s', Q (inl e) s') → (b = false → Q (inr tt) s) → (∀ s', b = true → enabledWith srv s s' → Q (inr tt) s') →
  wpk (updateService (Some srv) (both b)) Q s.
Proof using Type.
  intros He H1 H2. destruct b; [|by apply H1]. apply EnableService_spec; [done|]. intros s' Hs. by apply H2.
Qed.

(** From [s] to [s'], nothing OVS is judged by has changed. *)
Definition ovsSame (s s' : Disk) : Prop :=
  keeps (srv_Path ovs) s s' ∧ (present s' (inChroot ovsMainServicePath) → present s (inChroot ovsMainServicePath)).

Lemma keeps_refl path s : keeps path s s.
Proof using Type. done. Qed.

Lemma keeps_trans path s1 s2 s3 : keeps path s1 s2 → keeps path s2 s3 → keeps path s1 s3.
Proof using Type. intros (? & ? & ?) (? & ? & ?). split_and!; [congruence|by etrans..]. Qed.

Lemma enabledWith_ovsSame srv f s s' :
  ReadServiceManifestFile ReadManifest f = inr srv → enabledWith srv s s' → ovsSame s s'.
Proof using M.
  intros Hr He. split; [by eapply enabledWith_keeps; [eapply ovs_unit_differ|]|by eapply enabledWith_main].
Qed.

Lemma updateSriovServices_spec s a b c :
  flags b true (unitFine s sriov) → flags c true (unitFine s post) →
  wpk (updateSriovServices (mkK8sPlugin (Some ovs) (Some sriov) (Some post) (mkUpdateTarget (both b) (both c) (both a))))
    (λ r s', r = inr tt → unitFine s' sriov ∧ unitFine s' post ∧ ovsSame s s') s.
Proof using M.
  intros Hb Hc. destruct (mf_names M) as (_ & Hn1 & Hn2), (mf_options M) as (_ & Ho1 & Ho2).
  pose proof unit_paths_differ as Hne.
  assert (Hnext : ∀ s1, unitFine s1 sriov → keeps (srv_Path post) s s1 → ovsSame s s1 →
    wpk (updateService (Some post) (both c)) (λ r s', r = inr tt → unitFine s' sriov ∧ unitFine s' post ∧ ovsSame s s') s1).
  { intros s1 H1 H2 H3. apply updateService_spec; [done| |].
    - intros -> _. split_and!; [done|eapply unitFine_keeps; [done|by apply Hc]|done].
    - intros s2 -> He _. split_and!.
      + eapply unitFine_keeps; [|exact H1]. by eapply enabledWith_keeps.
      + by eapply enabledWith_fine; [apply (mf_post M)|..].
      + destruct H3 as [K1 K2], (enabledWith_ovsSame _ _ _ _ (mf_post M) He) as [K3 K4].
        split; [by eapply keeps_trans|by auto]. }
  apply wp_try. apply updateService_spec; [done| |].
  - intros ->. apply Hnext; [by apply Hb|apply keeps_refl|split; [apply keeps_refl|done]].
  - intros s1 -> He. apply Hnext; [by eapply enabledWith_fine; [apply (mf_sriov M)|..]|eapply enabledWith_keeps; [|done]|
      by eapply enabledWith_ovsSame; [apply (mf_sriov M)|]]. congruence.
Qed.

(** Writing the drop-in leaves the units alone. *)
Lemma updateOVSService_spec s s1 a b c :
  flags a switchdev (ovsFine s ovs) → ovsSame s s1 →
  wpk (updateOVSService (mkK8sPlugin (Some ovs) (Some sriov) (Some post) (mkUpdateTarget (both b) (both c) (both a))))
    (λ r s', r = inr tt → (switchdev = true → ovsFine s' ovs) ∧ keeps (srv_Path sriov) s1 s' ∧ keeps (srv_Path post) s1 s') s1.
Proof using M.
  intros Ha [Hk Hm]. destruct a; cbn [updateOVSService NeedUpdate both kp_updateTarget ut_openVSwitch utr_update].
  - apply wp_try. split; [done|]. intros [e|] s2 ->; [done|]. apply disk_writeFile; [done|done|]. intros _. cbn. split_and!.
    + intros _ _. exists (srv_Content ovs), o1, o1. cbn. split; [by simplify_map_eq|].
      split_and!; [apply (mf_options M)..|done].
    + split_and!; [apply lookup_insert_ne; by eapply ovs_unit_differ, (mf_sriov M)|done|apply union_subseteq_r].
    + split_and!; [apply lookup_insert_ne; by eapply ovs_unit_differ, (mf_post M)|done|apply union_subseteq_r].
  - intros _. split_and!; [|apply keeps_refl..]. intros Hsw. eapply ovsFine_keeps; [done|done|by apply Ha].
Qed.

Lemma k8s_Apply_spec s p a b c :
  checked s p a b c → wpk (Apply UsingSystemdMode p) (λ r s', r = inr tt → settled s') s.
Proof using M.
  intros (-> & Ha & Hb & Hc). unfold Apply, settled. apply wp_try. destruct UsingSystemdMode eqn:Hmode.
  - eapply wp_post; [by apply updateSriovServices_spec|]. intros [e|[]] s1; [done|]. intros H.
    destruct (H eq_refl) as (H1 & H2 & H3). eapply wp_post; [by eapply updateOVSService_spec|].
    intros r s2 Hr Heq. destruct (Hr Heq) as (K1 & K2 & K3). split; [done|]. intros _.
    split; [by eapply unitFine_keeps; [exact K2|]|by eapply unitFine_keeps; [exact K3|]].
  - apply wp_ret. cbv beta iota. eapply wp_post; [eapply updateOVSService_spec; [exact Ha|split; [apply keeps_refl|done]]|].
    intros r s2 Hr Heq. destruct (Hr Heq) as (K1 & _). split; [exact K1|done].
Qed.

(** A check, the changes, and the next check of the same node state. *)
Definition checkApplyCheck (p : K8sPlugin) : svcM (option ((bool * bool) * (HostError + bool * bool))) :=
  '(p1, r1) ← OnNodeStateChange DeserializeOptions ReadInjectionManifest ReadManifest ExecError UsingSystemdMode new p;
  match r1 with
  | inl _ => Ret None
  | inr asked =>
      r ← Apply UsingSystemdMode p1;
      match r with
      | inl _ => Ret None
      | inr _ =>
          '(p2, r2) ← OnNodeStateChange DeserializeOptions ReadInjectionManifest ReadManifest ExecError UsingSystemdMode new p1;
          Ret (Some (asked, r2))
      end
  end.

Lemma settled_flags s p a b c : settled s → checked s p a b c → b || c || a = false.
Proof using Type.
  intros [H1 H2] (_ & Ha & Hb & Hc). destruct a; [destruct Ha as [Hr Hn]; exfalso; by apply Hn, H1|].
  destruct b; [destruct Hb as [Hr Hn]; exfalso; by apply Hn, H2|].
  destruct c; [destruct Hc as [Hr Hn]; exfalso; by apply Hn, H2|]. done.
Qed.

Lemma flags_settled s p a b c : checked s p a b c → b || c || a = false → settled s.
Proof using Type.
  intros (_ & Ha & Hb & Hc) H. destruct b, c, a; try discriminate H. split; [exact Ha|]. intros Hm. by split; [apply Hb|apply Hc].
Qed.

(** C24: with manifests that can be read and parsed, the k8s plugin asks for a
    drain and a reboot, always together, exactly when a unit of the manifests is
    missing, not enabled or lacks an option of its manifest (in systemd mode), or
    the OVS drop-in is missing, cannot be parsed or lacks an option (in switchdev
    mode, when OVS is installed); further options on the disk do not matter, and
    a unit file that cannot be parsed is left alone.  After its changes have gone
    through, the next check of the same node state asks for nothing, so that a
    node is not rebooted again and again. *)
Theorem k8s_no_reboot_loop p s :
  wpk (checkApplyCheck p)
    (λ o s', match o with
             | None => True
             | Some ((drain, reboot), again) =>
                 drain = reboot ∧ (reboot = false ↔ settled s) ∧ again = inr (false, false) ∧ settled s'
             end) s.
Proof using M.
  apply wp_bind. apply OnNodeStateChange_spec. intros p1 a b c Hck. apply wp_bind.
  eapply wp_post; [by eapply k8s_Apply_spec|]. intros [e|[]] s1; [done|]. intros H. specialize (H eq_refl).
  apply wp_bind. apply OnNodeStateChange_spec. intros p2 a' b' c' Hck'.
  rewrite (settled_flags _ _ _ _ _ H Hck'). split_and!; [done| |by intros _..|done|done].
  - split; [by eapply flags_settled|]. intros Hs. by eapply settled_flags.
Qed.
End node.
End spec.

(** ** Witness *)

Definition exampleOptions (t : string) : string + list UnitOption := inr [mkUnitOption "Service" "ExecStart" t].

Definition exampleInjection (f : string) : string + ServiceInjectionManifestFile :=
  inr (mkInjectionFile "ovs-vswitchd.service" [("10-hw-offload.conf", Parsed [TText "set "; TField "OtherOvsConfig"])]).

Definition exampleManifest (f : string) : string + ServiceManifestFile :=
  inr (if String.eqb f sriovUnitFile then mkManifestFile "sriov-config.service" "pre"
       else mkManifestFile "sriov-config-post-network.service" "post").

Definition exampleNode : SriovNetworkNodeState :=
  mkNodeState (mkObjectMeta "node" "ns" 1 ∅ ∅ [])
    (mkNodeStateSpec [mkInterface "0000:3b:00.0" 4 0 "ens1" "" ESwithModeSwitchDev [] false] (mkBridges [])
       (mkSystem "" {["hw-offload" := "true"]}))
    (mkNodeStateStatus [] (mkBridges []) (mkSystem "" ∅) "" "" []).

(** OVS is installed, nothing is set up yet. *)
Definition ovsDisk : Disk := setFiles {[inChroot ovsMainServicePath := "[Unit]"]} emptyDisk.

Definition exampleOvs : Service :=
  match ReadOvsServiceInjectionManifestFile exampleInjection (λ _ _, "") ovsUnitFile {["hw-offload" := "true"]} with
  | inr s => s
  | inl _ => mkService "" "" ""
  end.

Lemma example_manifests :
  Manifests exampleOptions exampleInjection exampleManifest (λ _ _, "") exampleNode exampleOvs
    (mkService "sriov-config.service" SriovServicePath "pre")
    (mkService "sriov-config-post-network.service" SriovPostNetworkServicePath "post")
    [mkUnitOption "Service" "ExecStart" (srv_Content exampleOvs)] [mkUnitOption "Service" "ExecStart" "pre"]
    [mkUnitOption "Service" "ExecStart" "post"].
Proof. split; [vm_compute; reflexivity..|split_and!; [discriminate|reflexivity..]|split_and!; reflexivity]. Qed.

Definition exampleCheck := checkApplyCheck exampleOptions exampleInjection exampleManifest (λ _ _, "") true exampleNode NewK8sPlugin.

Lemma k8s_no_reboot_loop_witness :
  run disk_handle exampleCheck ovsDisk = (Some ((true, true), inr (false, false)), (run disk_handle exampleCheck ovsDisk).2) ∧
  ¬ settled exampleOptions true exampleNode exampleOvs (mkService "sriov-config.service" SriovServicePath "pre")
      (mkService "sriov-config-post-network.service" SriovPostNetworkServicePath "post") ovsDisk.
Proof.
  assert (E : run disk_handle exampleCheck ovsDisk = (Some ((true, true), inr (false, false)), (run disk_handle exampleCheck ovsDisk).2)).
  { assert (E1 : (run disk_handle exampleCheck ovsDisk).1 = Some ((true, true), inr (false, false))) by (vm_compute; reflexivity).
    rewrite <- E1. apply surjective_pairing. }
  split; [exact E|].
  pose proof (k8s_no_reboot_loop _ _ _ _ true _ _ _ _ _ _ _ example_manifests NewK8sPlugin ovsDisk) as H.
  destruct (wp_exec _ _ _ _ _ _ _ _ H (run_exec_eq (disk_world false) disk_handle _ _ _ _ (disk_handle_step false) E))
    as [(_ & Hiff & _) _].
  intros Hs. apply Hiff in Hs. discriminate Hs.
Defined.
