(* ===== verification/VirtualPlugin.v ===== *)
(** * The virtual plugin (pkg/plugins/virtual/virtual_plugin.go)

    The only plugin of virtual platforms: it loads the VFIO driver without an
    IOMMU and configures the VFs the guest was given.  The host helpers are
    requests. *)
From S2P Require Import Prelude GoLib Types Effects HostSys.

Inductive VirtReq :=
| VLoadPfsStatus (pciAddress : string)
| VLoadKernelModule (name : string) (args : list string)
| VChroot
| VExitChroot
| VConfigSriovDevicesVirtual (interfaces : list Interface) (ifaceStatuses : list InterfaceExt).

Definition VirtResp (r : VirtReq) : Type :=
  match r with
  | VLoadPfsStatus _ => HostError + option Interface
  | VLoadKernelModule _ _ | VChroot | VConfigSriovDevicesVirtual _ _ => option HostError
  | VExitChroot => unit
  end%type.

Abbreviation virtM := (prog VirtResp).

Inductive VfioState := unloaded | loading | loaded.

#[export] Instance VfioState_eq_dec : EqDecision VfioState.
Proof. solve_decision. Defined.

Record VirtualPlugin := mkVirtualPlugin {
  vp_DesireState : option SriovNetworkNodeState;
  vp_LastState : option SriovNetworkNodeState;
  vp_LoadVfioDriver : VfioState;
}.

Definition NewVirtualPlugin : VirtualPlugin := mkVirtualPlugin None None unloaded.

Definition needVfioDriver (state : SriovNetworkNodeState) : bool :=
  existsb (λ iface, existsb (λ g, String.eqb (vg_DeviceType g) DeviceTypeVfioPci) (if_VfGroups iface))
    (nss_Interfaces (ns_Spec state)).

(** The interfaces of the status in turn; the drain is decided by the first one
    the operator has configured before and has to reset. *)
Fixpoint drainLoop (desired : list Interface) (statuses : list InterfaceExt) : virtM bool :=
  match statuses with
  | [] => Ret false
  | ifaceStatus :: rest =>
      if existsb (λ iface, String.eqb (if_PciAddress iface) (ie_PciAddress ifaceStatus)) desired
      then drainLoop desired rest
      else
        r ← perform (VLoadPfsStatus (ie_PciAddress ifaceStatus));
        match r with
        | inl _ | inr None => drainLoop desired rest
        | inr (Some pfStatus) => if if_ExternallyManaged pfStatus then drainLoop desired rest else Ret true
        end
  end.

Definition needDrainNode (desired : SriovNetworkNodeStateSpec) (current : SriovNetworkNodeStateStatus) : virtM bool :=
  drainLoop (nss_Interfaces desired) (nst_Interfaces current).

Definition OnNodeStateChange (new : SriovNetworkNodeState) (p : VirtualPlugin) : virtM (VirtualPlugin * (bool * bool)) :=
  let vfio := if bool_decide (vp_LoadVfioDriver p = loaded) then loaded
              else if needVfioDriver new then loading else vp_LoadVfioDriver p in
  d ← needDrainNode (ns_Spec new) (ns_Status new);
  Ret (mkVirtualPlugin (Some new) (vp_LastState p) vfio, (d, false)).

Definition CheckStatusChanges (current : SriovNetworkNodeState) : HostError + bool := inr false.

(** The modules of [loading]; the state of the driver afterwards. *)
Definition loadVfio (s : VfioState) : virtM (VfioState * option HostError) :=
  match s with
  | loading =>
      r ← perform (VLoadKernelModule "vfio" ["enable_unsafe_noiommu_mode=1"]);
      match r with
      | Some e => Ret (loading, Some e)
      | None =>
          r ← perform (VLoadKernelModule "vfio_pci" []);
          match r with
          | Some e => Ret (loading, Some e)
          | None => Ret (loaded, None)
          end
      end
  | _ => Ret (s, None)
  end.

(** [equality.Semantic.DeepEqual] of the interfaces last applied. *)
Definition nothingToApply (last : option SriovNetworkNodeState) (desired : SriovNetworkNodeState) : bool :=
  match last with
  | None => false
  | Some l => bool_decide (nss_Interfaces (ns_Spec l) = nss_Interfaces (ns_Spec desired))
  end.

(** A nil DesireState is dereferenced before anything else. *)
Definition Apply (p : VirtualPlugin) : virtM (VirtualPlugin * option HostError) :=
  match vp_DesireState p with
  | None => Ret (p, Some HPanic)
  | Some desired =>
      '(vfio, err) ← loadVfio (vp_LoadVfioDriver p);
      let p := mkVirtualPlugin (Some desired) (vp_LastState p) vfio in
      match err with
      | Some e => Ret (p, Some e)
      | None =>
          if nothingToApply (vp_LastState p) desired then Ret (p, None)
          else
            c ← perform VChroot;
            match c with
            | Some e => Ret (p, Some e)
            | None =>
                r ← perform (VConfigSriovDevicesVirtual (nss_Interfaces (ns_Spec desired)) (nst_Interfaces (ns_Status desired)));
                perform VExitChroot ≫= λ _,
                Ret (match r with
                     | Some e => (p, Some e)
                     | None => (mkVirtualPlugin (Some desired) (Some desired) vfio, None)
                     end)
            end
      end
  end.
