(* ===== verification/VirtualPluginSpec.v ===== *)
(** * What the virtual plugin has applied

    The host remembers the interfaces it was last configured with, and whether
    an attempt failed since.  Over any sequence of calls: what Apply reports as
    applied is what the host was last configured with; a failed attempt in
    between is the one thing the plugin forgets. *)
From S2P Require Import Prelude GoLib Types Effects HostSys VirtualPlugin.

(** [vh_dirty]: the last attempt to configure the devices failed. *)
Record VirtHost := mkVirtHost {
  vh_store : gmap string Interface;
  vh_config : option (list Interface);
  vh_dirty : bool;
  vh_modules : list string;
}.

Definition virt_step (s : VirtHost) (r : VirtReq) : VirtResp r → VirtHost → Prop :=
  match r with
  | VLoadPfsStatus a => λ x s', s' = s ∧ match x with inr o => vh_store s !! a = o | inl _ => True end
  | VLoadKernelModule name _ => λ x s',
      s' = match x with
           | None => mkVirtHost (vh_store s) (vh_config s) (vh_dirty s) (vh_modules s ++ [name])
           | Some _ => s
           end
  | VConfigSriovDevicesVirtual l _ => λ x s',
      vh_modules s' = vh_modules s ∧
      match x with
      | None => vh_config s' = Some l ∧ vh_dirty s' = false
      | Some _ => vh_config s' = vh_config s ∧ vh_dirty s' = true
      end
  | VChroot | VExitChroot => λ _ s', s' = s
  end.

Definition virt_world : World VirtResp := {| w_state := VirtHost; w_step := virt_step |}.

Abbreviation wpv := (wp virt_world (λ _ _, True)).

(** ** The drain decision *)

(** An interface the operator configured before and has to reset. *)
Definition resets (store : gmap string Interface) (desired : list Interface) (i : InterfaceExt) : Prop :=
  (∀ d, d ∈ desired → if_PciAddress d ≠ ie_PciAddress i) ∧
  ∃ st, store !! ie_PciAddress i = Some st ∧ if_ExternallyManaged st = false.

Lemma not_configured (desired : list Interface) i :
  existsb (λ iface, String.eqb (if_PciAddress iface) (ie_PciAddress i)) desired = false ↔
  ∀ d, d ∈ desired → if_PciAddress d ≠ ie_PciAddress i.
Proof.
  rewrite <- not_true_iff_false, existsb_exists. split.
  - intros H d Hd E. apply H. exists d. rewrite E, String.eqb_refl. split; [by apply list_elem_of_In|done].
  - intros H (d & Hd & E). apply String.eqb_eq in E. apply list_elem_of_In in Hd. by eapply H.
Qed.

(** A drain is asked for only because of such an interface. *)
Lemma drainLoop_spec desired l s :
  wpv (drainLoop desired l) (λ b s', s' = s ∧ (b = true → Exists (resets (vh_store s) desired) l)) s.
Proof.
  induction l as [|i l IH]; cbn [drainLoop]; [by split|].
  assert (Hskip : wpv (drainLoop desired l) (λ b s', s' = s ∧ (b = true → Exists (resets (vh_store s) desired) (i :: l))) s).
  { eapply wp_post; [exact IH|]. intros b s' [-> H]. split; [done|]. intros Hb. right. by apply H. }
  destruct (existsb _ desired) eqn:Hd; [exact Hskip|]. apply wp_perform; [done|].
  intros [e|[st|]] s' [-> Hs]; [exact Hskip| |exact Hskip]. destruct (if_ExternallyManaged st) eqn:Hm; [exact Hskip|].
  split; [done|]. intros _. left. split; [by apply not_configured|by exists st].
Qed.

(** ** The calls *)

(** What a call of the plugin does: the plugin and the host afterwards. *)
Inductive call : VirtualPlugin → VirtHost → VirtualPlugin → VirtHost → Prop :=
| call_change new p s tr p' d s' :
    exec virt_world (OnNodeStateChange new p) s tr (p', d) s' → call p s p' s'
| call_apply p s tr p' err s' :
    exec virt_world (Apply p) s tr (p', err) s' → call p s p' s'.

Inductive reachable (s0 : VirtHost) : VirtualPlugin → VirtHost → Prop :=
| reach_init : reachable s0 NewVirtualPlugin s0
| reach_call p s p' s' : reachable s0 p s → call p s p' s' → reachable s0 p' s'.

(** The last state is what the host was last configured with; a loaded driver
    was loaded, vfio before vfio_pci. *)
Definition inv (p : VirtualPlugin) (s : VirtHost) : Prop :=
  (∀ l, vp_LastState p = Some l → vh_config s = Some (nss_Interfaces (ns_Spec l))) ∧
  (vp_LoadVfioDriver p = loaded → ∃ l1 l2 l3, vh_modules s = l1 ++ "vfio" :: l2 ++ "vfio_pci" :: l3).

Lemma OnNodeStateChange_inv new p s :
  inv p s → wpv (OnNodeStateChange new p) (λ r s', inv r.1 s' ∧ s' = s) s.
Proof.
  intros [H1 H2]. apply wp_bind. eapply wp_post; [apply drainLoop_spec|]. intros b s' [-> _].
  split; [|done]. split; [exact H1|]. cbn. case_bool_decide; [by intros _; apply H2|]. by destruct (needVfioDriver new).
Qed.

Lemma loadVfio_spec v s :
  (v = loaded → ∃ l1 l2 l3, vh_modules s = l1 ++ "vfio" :: l2 ++ "vfio_pci" :: l3) →
  wpv (loadVfio v) (λ r s', vh_config s' = vh_config s ∧ vh_dirty s' = vh_dirty s ∧
    (r.1 = loaded → ∃ l1 l2 l3, vh_modules s' = l1 ++ "vfio" :: l2 ++ "vfio_pci" :: l3)) s.
Proof.
  intros Hv. destruct v; cbn [loadVfio]; [done| |by repeat split; auto].
  apply wp_perform; [done|]. intros [e|] s' ->; [done|].
  apply wp_perform; [done|]. intros [e|] s' ->; [done|]. cbn. split_and!; [done..|]. intros _.
  exists (vh_modules s), [], []. by rewrite <- app_assoc.
Qed.

(** Apply keeps the invariant; without an error the host has the desired
    interfaces, freshly applied or untouched. *)
Definition applied (p : VirtualPlugin) (s : VirtHost) (r : VirtualPlugin * option HostError) (s' : VirtHost) : Prop :=
  inv r.1 s' ∧
  (r.2 = None → ∃ d, vp_DesireState p = Some d ∧ vh_config s' = Some (nss_Interfaces (ns_Spec d)) ∧
     (vh_dirty s' = false ∨
      vh_dirty s = true ∧ ∃ l, vp_LastState p = Some l ∧ nss_Interfaces (ns_Spec l) = nss_Interfaces (ns_Spec d))).

Lemma virtual_Apply_spec p s : inv p s → wpv (Apply p) (applied p s) s.
Proof.
  intros [H1 H2]. unfold Apply. destruct (vp_DesireState p) as [d|] eqn:Hd; [|by split].
  apply wp_bind. eapply wp_post; [by apply loadVfio_spec|]. intros [v err] s1 (Hc & Hdi & Hv). cbn in Hv.
  assert (Hkeep : inv (mkVirtualPlugin (Some d) (vp_LastState p) v) s1) by (split; [rewrite Hc; exact H1|exact Hv]).
  destruct err as [e|]; [by split|]. cbn [vp_LastState]. destruct (nothingToApply (vp_LastState p) d) eqn:Hn.
  { split; [done|]. intros _. exists d. unfold nothingToApply in Hn.
    destruct (vp_LastState p) as [l|] eqn:Hl; [|done]. apply bool_decide_eq_true in Hn.
    split_and!; [done|rewrite Hc, (H1 l), Hn; done|]. rewrite Hdi. destruct (vh_dirty s); eauto 6. }
  apply wp_perform; [done|]. intros [e|] s2 ->; [by split|].
  apply wp_perform; [done|]. intros [e|] s3 (Hmod & Hs1 & Hs2); (apply wp_perform; [done|]; intros [] s4 ->; split; cbn).
  - split; [rewrite Hs1; apply Hkeep|]. rewrite Hmod. exact Hv.
  - done.
  - split; [cbn; intros l [= <-]; exact Hs1|]. rewrite Hmod. exact Hv.
  - intros _. exists d. split_and!; [done|done|by left].
Qed.

Lemma reachable_inv s0 p s : reachable s0 p s → inv p s.
Proof.
  induction 1 as [|p s p' s' _ IH Hcall]; [done|]. destruct Hcall as [new p s tr p' d s' Hex|p s tr p' err s' Hex].
  - exact (proj1 (proj1 (wp_exec _ _ _ _ _ _ _ _ (OnNodeStateChange_inv new p s IH) Hex))).
  - exact (proj1 (proj1 (wp_exec _ _ _ _ _ _ _ _ (virtual_Apply_spec p s IH) Hex))).
Qed.

(** C25: after any sequence of calls on a fresh plugin, an Apply that returns
    without an error leaves the host configured with the desired interfaces as
    its last successful configuration, and no failed attempt after it, except
    when the attempt before this Apply failed and the interfaces are again those
    of the last success: then Apply does nothing. *)
Theorem virtual_Apply_correct s0 p s tr p' s' :
  reachable s0 p s → exec virt_world (Apply p) s tr (p', None) s' →
  ∃ d, vp_DesireState p = Some d ∧ vh_config s' = Some (nss_Interfaces (ns_Spec d)) ∧
    (vh_dirty s' = false ∨
     vh_dirty s = true ∧ ∃ l, vp_LastState p = Some l ∧ nss_Interfaces (ns_Spec l) = nss_Interfaces (ns_Spec d)).
Proof.
  intros Hr Hex. destruct (wp_exec _ _ _ _ _ _ _ _ (virtual_Apply_spec p s (reachable_inv _ _ _ Hr)) Hex) as [[_ H] _].
  by apply H.
Qed.

(** ** A failed attempt is forgotten *)

(** A host that cannot make eight VFs. *)
Definition virt_handle (s : VirtHost) (r : VirtReq) : VirtResp r * VirtHost :=
  match r with
  | VLoadPfsStatus a => (inr (vh_store s !! a), s)
  | VLoadKernelModule name _ => (None, mkVirtHost (vh_store s) (vh_config s) (vh_dirty s) (vh_modules s ++ [name]))
  | VConfigSriovDevicesVirtual l _ =>
      if existsb (λ i, if_NumVfs i =? 8) l
      then (Some (HMsg "cannot configure"), mkVirtHost (vh_store s) (vh_config s) true (vh_modules s))
      else (None, mkVirtHost (vh_store s) (Some l) false (vh_modules s))
  | VChroot => (None, s)
  | VExitChroot => (tt, s)
  end.

Lemma virt_handle_step s r : w_step virt_world s r (virt_handle s r).1 (virt_handle s r).2.
Proof. destruct r; cbn; try done. by destruct (existsb _ _). Qed.

Definition exampleState (numVfs : Z) : SriovNetworkNodeState :=
  mkNodeState (mkObjectMeta "node" "ns" 1 ∅ ∅ [])
    (mkNodeStateSpec [mkInterface "0000:00:05.0" numVfs 0 "eth1" "" "" [] false] (mkBridges []) (mkSystem "" ∅))
    (mkNodeStateStatus [] (mkBridges []) (mkSystem "" ∅) "" "" []).

(** A new node state and its application. *)
Definition update (numVfs : Z) (ps : VirtualPlugin * VirtHost) : VirtualPlugin * VirtHost :=
  let '((p1, _), s1) := run virt_handle (OnNodeStateChange (exampleState numVfs) ps.1) ps.2 in
  let '((p2, _), s2) := run virt_handle (Apply p1) s1 in (p2, s2).

Definition cleanHost : VirtHost := mkVirtHost ∅ None false [].

Lemma update_reachable numVfs ps : reachable cleanHost ps.1 ps.2 → reachable cleanHost (update numVfs ps).1 (update numVfs ps).2.
Proof.
  intros H. unfold update.
  destruct (run virt_handle (OnNodeStateChange (exampleState numVfs) ps.1) ps.2) as [[p1 d] s1] eqn:E1.
  destruct (run virt_handle (Apply p1) s1) as [[p2 err] s2] eqn:E2.
  eapply reach_call; [eapply reach_call; [exact H|]|].
  - eapply call_change. by apply (run_exec_eq virt_world virt_handle); [apply virt_handle_step|].
  - eapply call_apply. by apply (run_exec_eq virt_world virt_handle); [apply virt_handle_step|].
Qed.

(** One VF works, eight fail, one again. *)
Definition backAgain : VirtualPlugin * VirtHost :=
  let ps := update 8 (update 1 (NewVirtualPlugin, cleanHost)) in
  let '((p1, _), s1) := run virt_handle (OnNodeStateChange (exampleState 1) ps.1) ps.2 in (p1, s1).

Lemma backAgain_reachable : reachable cleanHost backAgain.1 backAgain.2.
Proof.
  assert (H : reachable cleanHost (update 8 (update 1 (NewVirtualPlugin, cleanHost))).1 (update 8 (update 1 (NewVirtualPlugin, cleanHost))).2)
    by (do 2 apply update_reachable; apply reach_init).
  unfold backAgain. destruct (run _ _ _) as [[p1 d] s1] eqn:E1. eapply reach_call; [exact H|].
  eapply call_change. by apply (run_exec_eq virt_world virt_handle); [apply virt_handle_step|].
Qed.

(** the plugin forgets a failed attempt: when the interfaces go back to those
    of the last success, Apply reports success without a request, and the host
    stays as the failed attempt left it. *)
Theorem virtual_Apply_forgets_failure :
  ∃ p s p', reachable cleanHost p s ∧ vh_dirty s = true ∧
    exec virt_world (Apply p) s [] (p', None) s.
Proof.
  exists backAgain.1, backAgain.2, backAgain.1. split_and!; [apply backAgain_reachable|vm_compute; reflexivity|].
  replace (Apply backAgain.1) with (@Ret _ VirtResp _ (backAgain.1, @None HostError)) by (vm_compute; reflexivity). constructor.
Qed.

Lemma virtual_Apply_correct_witness :
  ∃ d, vp_DesireState backAgain.1 = Some d ∧ vh_config backAgain.2 = Some (nss_Interfaces (ns_Spec d)).
Proof.
  destruct (virtual_Apply_correct cleanHost backAgain.1 backAgain.2
              (trace virt_handle (Apply backAgain.1) backAgain.2) (run virt_handle (Apply backAgain.1) backAgain.2).1.1
              (run virt_handle (Apply backAgain.1) backAgain.2).2 backAgain_reachable) as (d & H1 & H2 & _).
  - apply (run_exec_eq virt_world virt_handle); [apply virt_handle_step|]. vm_compute. reflexivity.
  - exists d. split; [exact H1|]. exact H2.
Defined.
