(* ===== verification/PoolController.v ===== *)
(** * The pool configuration controller
    (controllers/sriovnetworkpoolconfig_controller.go)

    On OpenShift a pool with OVS hardware offload gets a machine configuration
    for its machine configuration pool; a finalizer keeps the pool until that is
    deleted.  Machine configurations come from pkg/render/render.go and
    pkg/render/ignition_helpers.go: GenerateMachineConfig renders the unit files
    of a folder, transpiles them to an Ignition configuration and wraps that; the
    file system's answers and the Ignition libraries are parameters.  The API
    server answers requests, and the raw text of a machine configuration is
    compared as a JSON value. *)
From S2P Require Import Prelude GoLib Types Selector PoolConfig Effects Kube NodePolicy Orchestrator Render Systemd.

(** ** Machine configurations *)

(** What [os.Stat] says of a folder's path. *)
Inductive StatResult := NoEntry | StatFails (msg : string) | StatDir | StatFile.

(** One call of the function given to [filepath.Walk]. *)
Record UnitEntry := mkUnitEntry {
  ue_Path : string;
  ue_Name : string;
  ue_Err : option string;
  ue_IsDir : bool;
  ue_Size : Z;
  ue_Source : Source;
}.

(** mcfgv1.MachineConfig, as far as it is made here. *)
Record MachineConfig := mkMachineConfig {
  mc_Name : string;
  mc_Labels : gmap string string;
  mc_ResourceVersion : string;
  mc_Raw : string;
}.

(** [errors.Wrapf] gives nil for a nil error, so a file is no error. *)
Definition existsDir (path : string) (info : StatResult) : string + bool :=
  match info with
  | NoEntry => inr false
  | StatFails msg => inl ("failed to open dir " +:+ path +:+ ": " +:+ msg)
  | StatFile => inr false
  | StatDir => inr true
  end.

Section machine_config.
Context (ExecError : RenderData → list Tmpl → string).

(** The walk stops at the first error; an empty file removes what a file of its
    name gave before. *)
Fixpoint filterTemplates (toFilter : gmap string string) (entries : list UnitEntry) (d : RenderData)
    : string + gmap string string :=
  match entries with
  | [] => inr toFilter
  | e :: rest =>
      match ue_Err e with
      | Some err => inl err
      | None =>
          if ue_IsDir e then filterTemplates toFilter rest d
          else if ue_Size e =? 0 then filterTemplates (delete (ue_Name e) toFilter) rest d
          else
            match renderFileTemplate ExecError (ue_Path e) (ue_Source e) d with
            | inl err => inl err
            | inr text => filterTemplates (<[ue_Name e := text]> toFilter) rest d
            end
      end
  end.

Definition keySortVals (m : gmap string string) : list string := (entries_by_key m).*2.

(** fcct's files, units and Ignition 3.0 configurations, and ours (3.2). *)
Context {File Unit Ign0 Ign : Type}.
Context (UnmarshalFile : string → string + File) (setOverwrite : File → File) (FileToIgn3_0 : File → string + Ign0).
Context (UnmarshalUnit : string → string + Unit) (UnitToIgn3_0 : Unit → string + Ign0).
Context (Translate : Ign0 → Ign) (Merge : Ign → Ign → Ign) (emptyIgn : Ign).
Context (MarshalIgn : Ign → string + string).

Fixpoint addFiles (outConfig : Ign) (files : list string) : string + Ign :=
  match files with
  | [] => inr outConfig
  | contents :: rest =>
      match UnmarshalFile contents with
      | inl e => inl ("failed to unmarshal into struct: " +:+ e)
      | inr f =>
          match FileToIgn3_0 (setOverwrite f) with
          | inl e => inl ("failed to transpile config to Ignition config " +:+ e)
          | inr c => addFiles (Merge outConfig (Translate c)) rest
          end
      end
  end.

Fixpoint addUnits (outConfig : Ign) (units : list string) : string + Ign :=
  match units with
  | [] => inr outConfig
  | contents :: rest =>
      match UnmarshalUnit contents with
      | inl e => inl ("failed to unmarshal systemd unit into struct: " +:+ e)
      | inr u =>
          match UnitToIgn3_0 u with
          | inl e => inl ("failed to transpile config to Ignition config " +:+ e)
          | inr c => addUnits (Merge outConfig (Translate c)) rest
          end
      end
  end.

Definition TranspileCoreOSConfigToIgn (files units : list string) : string + Ign :=
  match addFiles emptyIgn files with
  | inl e => inl e
  | inr outConfig => addUnits outConfig units
  end.

Definition MachineConfigRoleLabelKey := "machineconfiguration.openshift.io/role".

Definition MachineConfigFromRawIgnConfig (role name rawIgnCfg : string) : MachineConfig :=
  mkMachineConfig name {[MachineConfigRoleLabelKey := role]} "" rawIgnCfg.

Definition MachineConfigFromIgnConfig (role name : string) (ignCfg : Ign) : string + MachineConfig :=
  match MarshalIgn ignCfg with
  | inl e => inl ("error marshaling Ignition config: " +:+ e)
  | inr raw => inr (MachineConfigFromRawIgnConfig role name raw)
  end.

(** The folder and its ovs-units folder on the disk. *)
Context (Stat : string → StatResult) (Walk : string → list UnitEntry).

Definition GenerateMachineConfig (path name mcRole : string) (ovsOffload : bool) (d : RenderData) : string + MachineConfig :=
  match existsDir path (Stat path) with
  | inl e => inl e
  | inr false => inl (path +:+ " is not a directory")
  | inr true =>
      let p := path +:+ "/ovs-units" in
      match (if ovsOffload then
               match existsDir p (Stat p) with
               | inl e => inl e
               | inr exists_ => if exists_ then filterTemplates ∅ (Walk p) d else inr ∅
               end
             else inr ∅) with
      | inl e => inl e
      | inr units =>
          match TranspileCoreOSConfigToIgn [] (keySortVals units) with
          | inl e => inl ("error transpiling CoreOS config to Ignition config: " +:+ e)
          | inr ignCfg =>
              match MachineConfigFromIgnConfig mcRole name ignCfg with
              | inl e => inl ("error creating MachineConfig from Ignition config: " +:+ e)
              | inr mc => inr mc
              end
          end
      end
  end.
End machine_config.

(** ** The controller *)

Definition POOLCONFIGFINALIZERNAME := "poolconfig.finalizers.sriovnetwork.openshift.io".
Definition OVSHWOLMachineConfigNameSuffix := "ovs-hw-offload".
Definition mcPriority := "00-".

(** The object with its finalizers; [pcr_Deleting]: it has a deletion
    timestamp. *)
Record PoolConfigCR := mkPoolConfigCR {
  pcr_meta : ObjectMeta;
  pcr_Finalizers : list string;
  pcr_Deleting : bool;
  pcr_Spec : SriovNetworkPoolConfigSpec;
}.

Definition pcr_set_Finalizers (l : list string) (c : PoolConfigCR) : PoolConfigCR :=
  mkPoolConfigCR (pcr_meta c) l (pcr_Deleting c) (pcr_Spec c).

Definition mc_set_ResourceVersion (v : string) (m : MachineConfig) : MachineConfig :=
  mkMachineConfig (mc_Name m) (mc_Labels m) v (mc_Raw m).

Inductive PoolReq :=
| GetPoolConfig (ns name : string)
| UpdatePoolConfig (c : PoolConfigCR)
| GetMachineConfigPool (name : string)
| GetMC (name : string)
| CreateMC (m : MachineConfig)
| UpdateMC (m : MachineConfig)
| DeleteMC (m : MachineConfig).

Definition PoolResp (r : PoolReq) : Type :=
  match r with
  | GetPoolConfig _ _ => KubeError + PoolConfigCR
  | UpdatePoolConfig _ | GetMachineConfigPool _ | CreateMC _ | UpdateMC _ | DeleteMC _ => option KubeError
  | GetMC _ => KubeError + MachineConfig
  end%type.

Abbreviation poolM := (prog PoolResp).

Inductive PoolError :=
| PoolKube (e : KubeError)
| PoolMsg (msg : string).

Definition poolE (c : poolM (option KubeError)) (wrap : KubeError → PoolError) : poolM (PoolError + unit) :=
  r ← c; Ret (match r with Some e => inl (wrap e) | None => inr tt end).

Section pool.
(** vars.ClusterType, and the orchestrator's type and flavor. *)
Context (varsClusterType ClusterType Flavor : string).
(** [render.GenerateMachineConfig] on bindata/manifests/switchdev-config for a
    name, a role and the data; JSON values as decoded, nil for a bad text. *)
Context (Generate : string → string → RenderData → string + MachineConfig).
Context {JSON : Type} `{EqDecision JSON} (Unmarshal : string → option JSON).

Definition isHypershift : bool :=
  String.eqb ClusterType ClusterTypeOpenshift && String.eqb Flavor ClusterFlavorHypershift.

Definition mcNameOf (mcpName : string) : string := mcPriority +:+ mcpName +:+ "-" +:+ OVSHWOLMachineConfigNameSuffix.

(** The data of the templates. *)
Definition offloadData (ids : string * string) : RenderData :=
  assign [("OtherOvsConfig", DvString ids.2); ("ExternalIds", DvString ids.1)] ∅.

(** With the rendered machine configuration. *)
Definition syncMachineConfig (mcName : string) (mc : MachineConfig) (deletion : bool) : poolM (PoolError + unit) :=
  r ← perform (GetMC mcName);
  match r with
  | inl ErrNotFound =>
      if deletion then Ret (inr tt)
      else poolE (perform (CreateMC mc)) (λ _, PoolMsg "couldn't create MachineConfig")
  | inl _ => Ret (inl (PoolMsg "failed to get MachineConfig"))
  | inr foundMC =>
      if deletion then poolE (perform (DeleteMC foundMC)) (λ _, PoolMsg "couldn't delete MachineConfig")
      else if bool_decide (Unmarshal (mc_Raw foundMC) = Unmarshal (mc_Raw mc)) then Ret (inr tt)
      else poolE (perform (UpdateMC (mc_set_ResourceVersion (mc_ResourceVersion foundMC) mc)))
             (λ _, PoolMsg "couldn't update MachineConfig")
  end.

(** Only a missing machine configuration pool is an error. *)
Definition syncOvsHardwareOffloadMachineConfigs (nc : PoolConfigCR) (deletion : bool) : poolM (PoolError + unit) :=
  let mcpName := ovs_Name (pcs_OvsHardwareOffloadConfig (pcr_Spec nc)) in
  let mcName := mcNameOf mcpName in
  if String.eqb mcpName "" then Ret (inr tt)
  else if String.eqb mcpName "master" then Ret (inr tt)
  else
    r ← perform (GetMachineConfigPool mcpName);
    match r with
    | Some ErrNotFound => Ret (inl (PoolMsg ("machineConfigPool " +:+ mcpName +:+ " doesn't exist")))
    | _ =>
        match RenderOtherOvsConfigOption (ovs_OvsConfig (pcs_OvsHardwareOffloadConfig (pcr_Spec nc))) with
        | inl e => Ret (inl (PoolMsg e))
        | inr ids =>
            match Generate mcName mcpName (offloadData ids) with
            | inl e => Ret (inl (PoolMsg e))
            | inr mc => syncMachineConfig mcName mc deletion
            end
        end
    end.

(** The object is not being deleted.  The result is when to reconcile again, in
    seconds; 0 for not by itself. *)
Definition reconcilePresent (instance : PoolConfigCR) : poolM (PoolError + Z) :=
  let has := StringInArray POOLCONFIGFINALIZERNAME (pcr_Finalizers instance) in
  let instance' := if has then instance else pcr_set_Finalizers (pcr_Finalizers instance ++ [POOLCONFIGFINALIZERNAME]) instance in
  (if has then Ret (inr tt) else poolE (perform (UpdatePoolConfig instance')) PoolKube) ;;!
  (if String.eqb varsClusterType ClusterTypeOpenshift && negb isHypershift
   then syncOvsHardwareOffloadMachineConfigs instance' false else Ret (inr tt)) ;;!
  Ret (inr ResyncPeriod).

(** The object is being deleted. *)
Definition reconcileDeleted (instance : PoolConfigCR) : poolM (PoolError + Z) :=
  if StringInArray POOLCONFIGFINALIZERNAME (pcr_Finalizers instance) then
    (if String.eqb varsClusterType ClusterTypeOpenshift && negb isHypershift
     then syncOvsHardwareOffloadMachineConfigs instance true else Ret (inr tt)) ;;!
    let '(l, found) := RemoveString POOLCONFIGFINALIZERNAME (pcr_Finalizers instance) in
    (if (found : bool) then poolE (perform (UpdatePoolConfig (pcr_set_Finalizers l instance))) PoolKube else Ret (inr tt)) ;;!
    Ret (inr 0)
  else Ret (inr 0).

Definition Reconcile (ns name : string) : poolM (PoolError + Z) :=
  r ← perform (GetPoolConfig ns name);
  match r with
  | inl ErrNotFound => Ret (inr 0)
  | inl e => Ret (inl (PoolKube e))
  | inr instance =>
      if String.eqb (ovs_Name (pcs_OvsHardwareOffloadConfig (pcr_Spec instance))) "" then Ret (inr 0)
      else if negb (pcr_Deleting instance) then reconcilePresent instance
      else reconcileDeleted instance
  end.
End pool.
