(* ===== verification/PoolControllerSpec.v ===== *)
(** * What the pool configuration controller guarantees

    Against an API server that may refuse any request: the finalizer goes only
    when the machine configuration is gone, a successful reconciliation leaves
    the rendered configuration, and a pool whose machine configuration pool is
    missing is never released. *)
From S2P Require Import Prelude GoLib Types Selector Effects Kube NodePolicy Orchestrator Render Systemd PoolController.

(** ** Rendering *)

Lemma GenerateMachineConfig_name {File Unit Ign0 Ign : Type} ExecError UU UtI (Translate : Ign0 → Ign) Merge emptyIgn
    (UF : string → string + File) ow FtI MI Stat Walk path name role b d mc :
  GenerateMachineConfig (Unit := Unit) ExecError UF ow FtI UU UtI Translate Merge emptyIgn MI Stat Walk path name role b d = inr mc →
  mc_Name mc = name ∧ mc_Labels mc = {[MachineConfigRoleLabelKey := role]}.
Proof.
  unfold GenerateMachineConfig, MachineConfigFromIgnConfig, MachineConfigFromRawIgnConfig. intros H.
  repeat case_match; try discriminate; simplify_eq; done.
Qed.

(** ** The server *)

Record PoolServer := mkPoolServer {
  ps_pool : option PoolConfigCR;
  ps_mcps : gset string;
  ps_mcs : gmap string MachineConfig;
}.

Definition set_mcs (m : gmap string MachineConfig) (s : PoolServer) : PoolServer := mkPoolServer (ps_pool s) (ps_mcps s) m.

(** An object that is being deleted goes with its last finalizer. *)
Definition storedPool (c : PoolConfigCR) : option PoolConfigCR :=
  if pcr_Deleting c && bool_decide (pcr_Finalizers c = []) then None else Some c.

(** [flaky]: reading may fail although there is an answer. *)
Definition pool_step (flaky : bool) (s : PoolServer) (r : PoolReq) : PoolResp r → PoolServer → Prop :=
  match r with
  | GetPoolConfig _ _ => λ x s', s' = s ∧
      match x with inr c => ps_pool s = Some c | inl ErrNotFound => ps_pool s = None | inl _ => flaky = true end
  | UpdatePoolConfig c => λ x s',
      match x with None => s' = mkPoolServer (storedPool c) (ps_mcps s) (ps_mcs s) | Some _ => s' = s end
  | GetMachineConfigPool n => λ x s', s' = s ∧
      match x with None => n ∈ ps_mcps s | Some ErrNotFound => n ∉ ps_mcps s | Some _ => flaky = true end
  | GetMC n => λ x s', s' = s ∧
      match x with
      | inr m => ps_mcs s !! n = Some m ∧ mc_Name m = n
      | inl ErrNotFound => ps_mcs s !! n = None
      | inl _ => flaky = true
      end
  | CreateMC m => λ x s',
      match x with None => ps_mcs s !! mc_Name m = None ∧ s' = set_mcs (<[mc_Name m := m]> (ps_mcs s)) s | Some _ => s' = s end
  | UpdateMC m => λ x s',
      match x with None => s' = set_mcs (<[mc_Name m := m]> (ps_mcs s)) s | Some _ => s' = s end
  | DeleteMC m => λ x s',
      match x with None => s' = set_mcs (delete (mc_Name m) (ps_mcs s)) s | Some _ => s' = s end
  end.

Definition pool_world (flaky : bool) : World PoolResp := {| w_state := PoolServer; w_step := pool_step flaky |}.

Section spec.
Context (varsClusterType ClusterType Flavor : string).
Context (Generate : string → string → RenderData → string + MachineConfig).
Context {JSON : Type} `{EqDecision JSON} (Unmarshal : string → option JSON).
(** What rendering for a name gives bears it (GenerateMachineConfig_name). *)
Context (named : ∀ n r d mc, Generate n r d = inr mc → mc_Name mc = n).

Abbreviation mcpOf c := (ovs_Name (pcs_OvsHardwareOffloadConfig (pcr_Spec c))).

(** The pool has a machine configuration. *)
Definition offloaded (c : PoolConfigCR) : Prop :=
  varsClusterType = ClusterTypeOpenshift ∧ isHypershift ClusterType Flavor = false ∧ mcpOf c ≠ "" ∧ mcpOf c ≠ "master".

(** What the options of the pool render to. *)
Definition rendered (c : PoolConfigCR) (mc : MachineConfig) : Prop :=
  ∃ ids, RenderOtherOvsConfigOption (ovs_OvsConfig (pcs_OvsHardwareOffloadConfig (pcr_Spec c))) = inr ids ∧
    Generate (mcNameOf (mcpOf c)) (mcpOf c) (offloadData ids) = inr mc.

(** A pool is updated without the finalizer only when its machine configuration
    is gone. *)
Definition released (s : PoolServer) (r : PoolReq) : Prop :=
  match r with
  | UpdatePoolConfig c =>
      POOLCONFIGFINALIZERNAME ∉ pcr_Finalizers c → offloaded c → ps_mcs s !! mcNameOf (mcpOf c) = None
  | _ => True
  end.

Abbreviation wpp := (wp (pool_world true) released).

(** ** Syncing *)

(** The machine configuration of the pool is as the mode asks. *)
Definition synced (c : PoolConfigCR) (deletion : bool) (s : PoolServer) : Prop :=
  if deletion then ps_mcs s !! mcNameOf (mcpOf c) = None
  else ∃ m mc, ps_mcs s !! mcNameOf (mcpOf c) = Some m ∧ rendered c mc ∧ Unmarshal (mc_Raw m) = Unmarshal (mc_Raw mc).

Lemma syncMachineConfig_spec c mc deletion (Q : PoolError + unit → PoolServer → Prop) s :
  rendered c mc → (∀ e, Q (inl e) s) →
  (∀ m, synced c deletion (set_mcs m s) → Q (inr tt) (set_mcs m s)) →
  wpp (syncMachineConfig Unmarshal (mcNameOf (mcpOf c)) mc deletion) Q s.
Proof using named.
  intros Hr He Hok. assert (Hn : mc_Name mc = mcNameOf (mcpOf c)) by (destruct Hr as (ids & _ & H); by eapply named).
  assert (Hsame : s = set_mcs (ps_mcs s) s) by (by destruct s).
  apply wp_perform; [done|]. intros [e|m] s' [-> Hs].
  - destruct e; [|by apply He..]. destruct deletion; [rewrite Hsame; by apply Hok|].
    split; [done|]. intros [e|] s' Hc; cbn in Hc |- *; [subst; by apply He|]. destruct Hc as [_ ->]. apply Hok.
    exists mc, mc. cbn. rewrite Hn. split_and!; [by simplify_map_eq|done|done].
  - destruct Hs as [Hm Hmn]. destruct deletion.
    + split; [done|]. intros [e|] s' Hc; cbn in Hc |- *; subst s'; [by apply He|]. apply Hok. cbn. rewrite Hmn. by simplify_map_eq.
    + case_bool_decide as Hj; [rewrite Hsame; apply Hok; by exists m, mc|].
      split; [done|]. intros [e|] s' Hc; cbn in Hc |- *; subst s'; [by apply He|]. apply Hok.
      exists (mc_set_ResourceVersion (mc_ResourceVersion m) mc), mc. cbn. rewrite Hn. split_and!; [by simplify_map_eq|done|done].
Qed.

Lemma sync_spec c deletion (Q : PoolError + unit → PoolServer → Prop) s :
  (∀ e, Q (inl e) s) → (∀ m, (mcpOf c ≠ "" → mcpOf c ≠ "master" → synced c deletion (set_mcs m s)) → Q (inr tt) (set_mcs m s)) →
  wpp (syncOvsHardwareOffloadMachineConfigs Generate Unmarshal c deletion) Q s.
Proof using named.
  intros He Hok. assert (Hsame : s = set_mcs (ps_mcs s) s) by (by destruct s).
  unfold syncOvsHardwareOffloadMachineConfigs.
  destruct (String.eqb_spec (mcpOf c) "") as [Hn|Hn]; [rewrite Hsame; by apply Hok|].
  destruct (String.eqb_spec (mcpOf c) "master") as [Hm|Hm]; [rewrite Hsame; by apply Hok|].
  apply wp_perform; [done|]. intros x s' [-> Hs].
  assert (Hrest : wpp (match RenderOtherOvsConfigOption (ovs_OvsConfig (pcs_OvsHardwareOffloadConfig (pcr_Spec c))) with
        | inl e => Ret (inl (PoolMsg e))
        | inr ids =>
            match Generate (mcNameOf (mcpOf c)) (mcpOf c) (offloadData ids) with
            | inl e => Ret (inl (PoolMsg e))
            | inr mc => syncMachineConfig Unmarshal (mcNameOf (mcpOf c)) mc deletion
            end
        end) Q s).
  { destruct (RenderOtherOvsConfigOption _) as [e|ids] eqn:Hi; [by apply He|].
    destruct (Generate _ _ _) as [e|mc] eqn:Hg; [by apply He|].
    apply syncMachineConfig_spec; [by exists ids|done|]. intros m Hsy. by apply Hok. }
  destruct x as [[| |msg]|]; [by apply He|exact Hrest..].
Qed.

(** The part of a reconciliation that depends on the cluster. *)
Lemma maybe_sync_spec c deletion (Q : PoolError + unit → PoolServer → Prop) s :
  (∀ e, Q (inl e) s) → (∀ m, (offloaded c → synced c deletion (set_mcs m s)) → Q (inr tt) (set_mcs m s)) →
  wpp (if String.eqb varsClusterType ClusterTypeOpenshift && negb (isHypershift ClusterType Flavor)
       then syncOvsHardwareOffloadMachineConfigs Generate Unmarshal c deletion else Ret (inr tt)) Q s.
Proof using named.
  intros He Hok. destruct (_ && _) eqn:Hc.
  - apply sync_spec; [done|]. intros m H. apply Hok. intros (_ & _ & H1 & H2). by apply H.
  - assert (Hsame : s = set_mcs (ps_mcs s) s) by (by destruct s). rewrite Hsame. apply Hok.
    intros (H1 & H2 & _). rewrite H1, H2, String.eqb_refl in Hc. done.
Qed.

(** ** Reconciling *)

(** What a reconciliation that ends without an error leaves of the pool it
    found. *)
Definition reconciled (c : PoolConfigCR) (s' : PoolServer) : Prop :=
  if pcr_Deleting c
  then (∀ c', ps_pool s' = Some c' → POOLCONFIGFINALIZERNAME ∉ pcr_Finalizers c') ∧
         (offloaded c → POOLCONFIGFINALIZERNAME ∈ pcr_Finalizers c → synced c true s')
  else ∃ c', ps_pool s' = Some c' ∧ POOLCONFIGFINALIZERNAME ∈ pcr_Finalizers c' ∧ (offloaded c → synced c false s').

Lemma reconcilePresent_spec c (Q : PoolError + Z → PoolServer → Prop) s :
  ps_pool s = Some c → pcr_Deleting c = false →
  (∀ e s', Q (inl e) s') → (∀ s', reconciled c s' → Q (inr ResyncPeriod) s') →
  wpp (reconcilePresent varsClusterType ClusterType Flavor Generate Unmarshal c) Q s.
Proof using named.
  intros Hp Hd He Hok. unfold reconcilePresent, reconciled in *. rewrite Hd in Hok.
  assert (Hnext : ∀ c' s1, ps_pool s1 = Some c' → pcr_Spec c' = pcr_Spec c → POOLCONFIGFINALIZERNAME ∈ pcr_Finalizers c' →
    wpp ((if String.eqb varsClusterType ClusterTypeOpenshift && negb (isHypershift ClusterType Flavor)
          then syncOvsHardwareOffloadMachineConfigs Generate Unmarshal c' false else Ret (inr tt)) ;;! Ret (inr ResyncPeriod)) Q s1).
  { intros c' s1 H1 Hs Hf. apply wp_try. apply maybe_sync_spec; [done|]. intros m Hm. apply Hok.
    exists c'. split_and!; [done|done|]. unfold offloaded, synced, rendered in *. rewrite Hs in Hm. exact Hm. }
  destruct (StringInArray _ _) eqn:Hf; cbn zeta.
  - apply Hnext; [done|done|by apply StringInArray_spec].
  - apply wp_try. split.
    + cbn. intros Hno. exfalso. apply Hno. set_solver.
    + intros [e|] s' Hs; cbn in Hs |- *; [by apply He|]. subst s'.
      apply Hnext; [unfold storedPool; cbn; by rewrite Hd|done|]. cbn. set_solver.
Qed.

Lemma RemoveString_gone x l : x ∉ (RemoveString x l).1.
Proof using Type.
  cbn. rewrite list_elem_of_In. intros H. apply filter_In in H as [_ H]. by rewrite String.eqb_refl in H.
Qed.

Lemma reconcileDeleted_spec c (Q : PoolError + Z → PoolServer → Prop) s :
  ps_pool s = Some c → pcr_Deleting c = true →
  (∀ e s', Q (inl e) s') → (∀ s', reconciled c s' → Q (inr 0) s') →
  wpp (reconcileDeleted varsClusterType ClusterType Flavor Generate Unmarshal c) Q s.
Proof using named.
  intros Hp Hd He Hok. unfold reconcileDeleted, reconciled in *. rewrite Hd in Hok.
  destruct (StringInArray _ _) eqn:Hf.
  2:{ apply StringInArray_false in Hf. apply Hok. split; [|by intros _ H]. intros c' Hc'. congruence. }
  apply wp_try. apply maybe_sync_spec; [done|]. intros m Hm.
  destruct (RemoveString POOLCONFIGFINALIZERNAME (pcr_Finalizers c)) as [l found] eqn:Hrm.
  assert (Hl : POOLCONFIGFINALIZERNAME ∉ l) by (pose proof (RemoveString_gone POOLCONFIGFINALIZERNAME (pcr_Finalizers c)) as H; by rewrite Hrm in H).
  assert (found = true) as -> by (injection Hrm as _ <-; exact Hf).
  apply wp_try. split; [cbn; intros _ Ho; exact (Hm Ho)|].
  intros [e|] s' Hs; cbn in Hs |- *; [by apply He|]. subst s'. apply Hok.
  split; [|intros Ho _; exact (Hm Ho)]. cbn. unfold storedPool. intros c' Hc'. by destruct (_ && _); simplify_eq.
Qed.

(** C18: in every reconciliation of a pool, whatever requests the API server
    refuses, the finalizer is taken away only when the pool's machine
    configuration is gone (if it has one: on OpenShift, outside Hypershift, for a
    machine configuration pool other than master).  One that ends without an
    error leaves a pool that names a machine configuration pool and is not being
    deleted with the finalizer and, if it has one, the rendered machine
    configuration (as JSON), and a deleted one without either.  A pool that names
    none is left as it is, with its finalizer, also when it is being deleted. *)
Theorem pool_Reconcile_spec ns name s :
  wpp (Reconcile varsClusterType ClusterType Flavor Generate Unmarshal ns name)
    (λ r s', match r, ps_pool s with
             | inl _, _ => True
             | inr _, None => s' = s
             | inr _, Some c => if String.eqb (mcpOf c) "" then s' = s else reconciled c s'
             end) s.
Proof using named.
  apply wp_perform; [done|]. intros [e|c] s' [-> Hs]; [destruct e; cbn; [by rewrite Hs|done..]|].
  destruct (String.eqb_spec (mcpOf c) "") as [Hn|Hn]; [by apply wp_ret; rewrite Hs, Hn|].
  apply String.eqb_neq in Hn. destruct (pcr_Deleting c) eqn:Hd; cbn [negb].
  - apply reconcileDeleted_spec; [done|done|done|]. intros s' Hr. by rewrite Hs, Hn.
  - apply reconcilePresent_spec; [done|done|done|]. intros s' Hr. by rewrite Hs, Hn.
Qed.
End spec.

(** a pool whose offload name was cleared after it got the finalizer cannot be
    deleted any more: no reconciliation changes anything. *)
Theorem cleared_pool_never_released varsClusterType ClusterType Flavor Generate {JSON} `{EqDecision JSON} (Unmarshal : string → option JSON) ns name c s :
  ps_pool s = Some c → ovs_Name (pcs_OvsHardwareOffloadConfig (pcr_Spec c)) = "" →
  wp (pool_world false) (λ _ r, match r with GetPoolConfig _ _ => True | _ => False end)
    (Reconcile varsClusterType ClusterType Flavor Generate Unmarshal ns name) (λ r s', s' = s ∧ r = inr 0) s.
Proof.
  intros Hp Hn. apply wp_perform; [done|]. intros [e|c'] s' [-> Hs].
  { destruct e; [congruence|done..]. }
  rewrite Hp in Hs. injection Hs as <-. rewrite Hn. by apply wp_ret.
Qed.

(** a pool that is being deleted is never released while its machine
    configuration pool does not exist: every reconciliation fails and changes
    nothing, also when there is no machine configuration to delete. *)
Theorem pool_never_released varsClusterType ClusterType Flavor Generate {JSON} `{EqDecision JSON} (Unmarshal : string → option JSON) ns name c s :
  ps_pool s = Some c → pcr_Deleting c = true → POOLCONFIGFINALIZERNAME ∈ pcr_Finalizers c →
  offloaded varsClusterType ClusterType Flavor c → ovs_Name (pcs_OvsHardwareOffloadConfig (pcr_Spec c)) ∉ ps_mcps s →
  wp (pool_world false) (λ _ r, match r with GetPoolConfig _ _ | GetMachineConfigPool _ => True | _ => False end)
    (Reconcile varsClusterType ClusterType Flavor Generate Unmarshal ns name) (λ r s', s' = s ∧ ∃ e, r = inl e) s.
Proof.
  intros Hp Hd Hf (H1 & H2 & H3 & H4) Hno. apply wp_perform; [done|]. intros [e|c'] s' [-> Hs].
  { destruct e; try done. congruence. }
  rewrite Hp in Hs. injection Hs as <-. apply String.eqb_neq in H3, H4. rewrite H3, Hd. cbn [negb].
  unfold reconcileDeleted. apply StringInArray_spec in Hf. rewrite Hf, H1, H2, String.eqb_refl. cbn [negb andb].
  apply wp_try. unfold syncOvsHardwareOffloadMachineConfigs. rewrite H3, H4. apply wp_perform; [done|].
  intros [[]|] s' [-> Hs]; try done. split; [done|by eexists].
Qed.

(** ** Witnesses *)

(** A folder with the unit of OVS; units and configurations are their texts. *)
Definition exampleStat (p : string) : StatResult := StatDir.
Definition exampleWalk (p : string) : list UnitEntry :=
  [mkUnitEntry (p +:+ "/ovs-vswitchd.service.yaml") "ovs-vswitchd.service.yaml" None false 10
     (Parsed [TText "set "; TField "OtherOvsConfig"])].

Definition exampleGenerate (name role : string) (d : RenderData) : string + MachineConfig :=
  GenerateMachineConfig (File := string) (λ _ _, "") inr id inr (inr : string → string + string) inr (λ s, s)
    (λ a b, a +:+ b) "" inr exampleStat exampleWalk "bindata/manifests/switchdev-config" name role true d.

Lemma exampleGenerate_named n r d mc : exampleGenerate n r d = inr mc → mc_Name mc = n.
Proof. intros H. by apply GenerateMachineConfig_name in H as [H _]. Qed.

Definition examplePool (deleting : bool) (finalizers : list string) : PoolConfigCR :=
  mkPoolConfigCR (mkObjectMeta "offload" "ns" 1 ∅ ∅ []) finalizers deleting
    (mkPoolConfigSpec (mkOvsHardwareOffloadConfig "worker" {["hw-offload" := "true"]}) None None "").

(** A server that refuses nothing. *)
Definition pool_handle (s : PoolServer) (r : PoolReq) : PoolResp r * PoolServer :=
  match r with
  | GetPoolConfig _ _ => (match ps_pool s with Some c => inr c | None => inl ErrNotFound end, s)
  | UpdatePoolConfig c => (None, mkPoolServer (storedPool c) (ps_mcps s) (ps_mcs s))
  | GetMachineConfigPool n => (if bool_decide (n ∈ ps_mcps s) then None else Some ErrNotFound, s)
  | GetMC n =>
      (match ps_mcs s !! n with
       | Some m => if String.eqb (mc_Name m) n then inr m else inl (ErrAPI "corrupt")
       | None => inl ErrNotFound
       end, s)
  | CreateMC m =>
      match ps_mcs s !! mc_Name m with
      | None => (None, set_mcs (<[mc_Name m := m]> (ps_mcs s)) s)
      | Some _ => (Some (ErrAPI "already exists"), s)
      end
  | UpdateMC m => (None, set_mcs (<[mc_Name m := m]> (ps_mcs s)) s)
  | DeleteMC m => (None, set_mcs (delete (mc_Name m) (ps_mcs s)) s)
  end.

Lemma pool_handle_step s r : w_step (pool_world true) s r (pool_handle s r).1 (pool_handle s r).2.
Proof.
  destruct r; cbn; try done.
  - split; [done|]. by destruct (ps_pool s).
  - split; [done|]. by case_bool_decide.
  - split; [done|]. destruct (ps_mcs s !! name) eqn:E; [|done]. by destruct (String.eqb_spec (mc_Name m) name).
  - by destruct (ps_mcs s !! mc_Name m) eqn:E.
Qed.

Definition exampleReconcile := Reconcile ClusterTypeOpenshift ClusterTypeOpenshift ClusterFlavorDefault exampleGenerate Some "ns" "offload".

Definition exampleServer : PoolServer := mkPoolServer (Some (examplePool false [])) {["worker"]} ∅.

Lemma pool_Reconcile_spec_witness :
  (run pool_handle exampleReconcile exampleServer).1 = inr ResyncPeriod ∧
  reconciled ClusterTypeOpenshift ClusterTypeOpenshift ClusterFlavorDefault exampleGenerate Some (examplePool false [])
    (run pool_handle exampleReconcile exampleServer).2.
Proof.
  assert (E1 : (run pool_handle exampleReconcile exampleServer).1 = inr ResyncPeriod) by (vm_compute; reflexivity).
  split; [exact E1|].
  pose proof (pool_Reconcile_spec ClusterTypeOpenshift ClusterTypeOpenshift ClusterFlavorDefault exampleGenerate Some
                exampleGenerate_named "ns" "offload" exampleServer) as H.
  assert (E : run pool_handle exampleReconcile exampleServer = (inr ResyncPeriod, (run pool_handle exampleReconcile exampleServer).2))
    by (rewrite <- E1; apply surjective_pairing).
  destruct (wp_exec _ _ _ _ _ _ _ _ H (run_exec_eq (pool_world true) pool_handle _ _ _ _ pool_handle_step E)) as [Hq _].
  exact Hq.
Defined.

Lemma pool_never_released_witness :
  ∃ s, ps_mcs s = ∅ ∧
    wp (pool_world false) (λ _ r, match r with GetPoolConfig _ _ | GetMachineConfigPool _ => True | _ => False end)
      exampleReconcile (λ r s', s' = s ∧ ∃ e, r = inl e) s.
Proof.
  exists (mkPoolServer (Some (examplePool true [POOLCONFIGFINALIZERNAME])) ∅ ∅). split; [reflexivity|].
  eapply pool_never_released; [reflexivity|reflexivity|by left| |by apply not_elem_of_empty].
  split_and!; [reflexivity|reflexivity|discriminate|discriminate].
Defined.
