(* ===== verification/Platform.v ===== *)
(** * The platforms (pkg/platform/platform.go)

    A platform finds the SR-IOV devices and chooses the plugins.  On the virtual
    ones every network device counts as a PF with a single VF, and its network
    comes from the cloud's metadata; it is kept from the first node state on.
    Host helpers, HTTP and commands are requests; URLs and JSON are parameters. *)
From S2P Require Import Prelude GoLib Types Effects HostSys.

(** A network card as ghw sees it. *)
Record NIC := mkNIC { nic_MacAddress : string; nic_PCIAddress : option string }.

Inductive PlatReq :=
| PCheckPoint                              (* GetCheckPointNodeState *)
| PHTTPGetFetchData (url : string)
| PDiscoverSriovVirtualDevices
| PDiscoverSriovDevices
| PDiscoverBridges
| PHasDriver (pciAddr : string)
| PGetNetdevMTU (pciAddr : string)
| PTryToGetVirtualInterfaceName (pciAddr : string)
| PGetNetDevMac (name : string)
| PGetNetDevLinkSpeed (name : string)
| PGetLinkType (name : string)
| PPCI
| PGetDriverName (pciAddr : string)
| PNetwork                                 (* ghw.Network *)
| PHTTPGet (url : string)                  (* retryablehttp.Get and the body *)
| PStat (p : string)
| PBlkid (label : string)
| PMkdirTemp
| PMount (device dir : string)
| PUmount (dir : string)
| PRemove (dir : string)
| POpen (p : string)
| PDecode (p : string)                     (* what a JSON decoder reads of an open file *)
| PClose (p : string).

Definition PlatResp (r : PlatReq) : Type :=
  match r with
  | PCheckPoint => HostError + option SriovNetworkNodeState
  | PHTTPGetFetchData _ | PHTTPGet _ | PBlkid _ | PMkdirTemp | PDecode _ | PGetDriverName _ => HostError + string
  | PDiscoverSriovVirtualDevices | PDiscoverSriovDevices => HostError + list InterfaceExt
  | PDiscoverBridges => HostError + Bridges
  | PHasDriver _ => bool * string
  | PGetNetdevMTU _ => Z
  | PTryToGetVirtualInterfaceName _ | PGetNetDevMac _ | PGetNetDevLinkSpeed _ | PGetLinkType _ => string
  | PPCI => HostError + list PCIDevice
  | PNetwork => HostError + list NIC
  | PStat _ => option Errno
  | PMount _ _ | PUmount _ | PRemove _ | POpen _ | PClose _ => option HostError
  end%type.

Abbreviation platM := (prog PlatResp).
Abbreviation platE A := (prog PlatResp (HostError + A)).

(** vars.ErrOperationNotSupportedByPlatform. *)
Definition ErrOperationNotSupportedByPlatform : HostError := HMsg "operation not supported by the platform".

(** The plugins a platform hands out, with the options of the generic one. *)
Inductive PluginKind :=
| Generic (skipVFConfiguration skipBridgeConfiguration : bool)
| Intel
| MellanoxNIC
| K8s
| Virtual.

#[export] Instance PluginKind_eq_dec : EqDecision PluginKind.
Proof. solve_decision. Defined.

Definition getting {A} (c : platE A) (msg : string) : platE A :=
  r ← c; Ret (match r with inl _ => inl (HMsg msg) | inr a => inr a end).

(** The fields the virtual platforms set: one VF, which is the device. *)
Definition oneVF (iface : InterfaceExt) (driver : string) : VirtualFunction :=
  {| vf_Name := ""; vf_Mac := ie_Mac iface; vf_Assigned := ""; vf_Driver := driver; vf_PciAddress := ie_PciAddress iface;
     vf_Vendor := ie_Vendor iface; vf_DeviceID := ie_DeviceID iface; vf_Vlan := 0; vf_Mtu := ie_Mtu iface; vf_VfID := 0;
     vf_VdpaType := ""; vf_RepresentorName := ""; vf_GUID := "" |}.

Definition ie_set_VFs (l : list VirtualFunction) (i : InterfaceExt) : InterfaceExt :=
  mkInterfaceExt (ie_Name i) (ie_Mac i) (ie_Driver i) (ie_PciAddress i) (ie_Vendor i)
    (ie_DeviceID i) (ie_NetFilter i) (ie_Mtu i) (ie_NumVfs i) (ie_LinkSpeed i)
    (ie_LinkType i) (ie_LinkAdminState i) (ie_EswitchMode i) (ie_ExternallyManaged i)
    (ie_TotalVfs i) l (ie_AltNames i).
