(* ===== verification/Baremetal.v ===== *)
(** * Bare metal (pkg/platform/baremetal/baremetal.go)

    The generic plugin, the plugins of the vendors whose cards are there, and the
    k8s plugin on Kubernetes. *)
From S2P Require Import Prelude GoLib Types Effects HostSys Orchestrator SriovService Platform.

Definition VendorPluginMap (vendor : string) : option PluginKind :=
  if String.eqb vendor "8086" then Some Intel
  else if String.eqb vendor "15b3" then Some MellanoxNIC else None.

(** The constructors do not fail; the map is visited in any order. *)
Definition loadVendorPlugins (order : list PluginKind → list PluginKind) (ns : SriovNetworkNodeState) : list PluginKind :=
  order (foldl (λ loaded i,
           match VendorPluginMap (ie_Vendor i) with
           | Some p => if bool_decide (p ∈ loaded) then loaded else loaded ++ [p]
           | None => loaded
           end) [] (nst_Interfaces (ns_Status ns))).

(** With the type of the orchestrator, or its error. *)
Definition GetVendorPlugins (order : list PluginKind → list PluginKind) (orchestrator : HostError + string)
    (ns : SriovNetworkNodeState) : HostError + (PluginKind * list PluginKind) :=
  let additionalPlugins := loadVendorPlugins order ns in
  match orchestrator with
  | inl e => inl e
  | inr clusterType =>
      inr (Generic false false, additionalPlugins ++ (if String.eqb clusterType ClusterTypeKubernetes then [K8s] else []))
  end.

Definition SystemdGetVendorPlugin (phase : string) : HostError + option PluginKind :=
  if String.eqb phase PhasePre then inr (Some (Generic true true))
  else if String.eqb phase PhasePost then inr (Some (Generic false false))
  else inl (HMsg ("invalid phase " +:+ phase)).

Definition Init : platE unit := Ret (inr tt).
Definition DiscoverSriovDevices : platE (list InterfaceExt) := perform PDiscoverSriovDevices.
Definition DiscoverBridges : platE Bridges := perform PDiscoverBridges.
