(* ===== verification/Aws.v ===== *)
(** * AWS (pkg/platform/aws/aws.go)

    The devices of an EC2 instance and their subnets, from the instance metadata
    or from the first node state. *)
From S2P Require Import Prelude GoLib Types Effects HostSys Ovs Platform.

Section aws.
(** [url.JoinPath]. *)
Context (JoinPath : string → list string → HostError + string).

Definition metadataBaseURL := "http://169.254.169.254/latest/meta-data/".
Definition macsPath := "network/interfaces/macs/".
Definition subnetIDPath := "subnet-id".
Definition awsNetworkIDPrefix := "aws/NetworkID:".

(** The state is InitialDevicesInfo. *)
Definition GetVendorPlugins : PluginKind * list PluginKind := (Virtual, []).
Definition SystemdGetVendorPlugin (phase : string) : HostError + option PluginKind := inl ErrOperationNotSupportedByPlatform.
Definition DiscoverBridges : HostError + Bridges := inl ErrOperationNotSupportedByPlatform.

(** The subnet of every entry of the list of MACs. *)
Fixpoint fetchSubnets (macEntries : list string) (macAddressToSubNetID : gmap string string) : platE (gmap string string) :=
  match macEntries with
  | [] => Ret (inr macAddressToSubNetID)
  | macEntry :: rest =>
      let cleanMac := TrimSuffixByte macEntry "/" in
      match JoinPath metadataBaseURL [macsPath; cleanMac; subnetIDPath] with
      | inl _ => Ret (inl (HMsg ("failed to construct subnet ID URL for MAC " +:+ cleanMac)))
      | inr subnetIDURL =>
          subnetIDData ⇐ getting (perform (PHTTPGetFetchData subnetIDURL)) ("error getting aws subnet_id from " +:+ subnetIDURL);
          if String.eqb subnetIDData "" then Ret (inl (HMsg ("empty subnet_id from " +:+ subnetIDURL)))
          else fetchSubnets rest (<[cleanMac := subnetIDData]> macAddressToSubNetID)
      end
  end.

(** A device of the list whose MAC has a subnet. *)
Definition withSubnet (subnets : gmap string string) (iface : InterfaceExt) : option InterfaceExt :=
  match subnets !! ie_Mac iface with
  | None => None
  | Some subnetID =>
      let id := default subnetID (CutPrefix subnetID "subnet-") in
      Some {| ie_Name := ie_Name iface; ie_Mac := ie_Mac iface; ie_Driver := ie_Driver iface;
              ie_PciAddress := ie_PciAddress iface; ie_Vendor := ie_Vendor iface; ie_DeviceID := ie_DeviceID iface;
              ie_NetFilter := awsNetworkIDPrefix +:+ id; ie_Mtu := ie_Mtu iface; ie_NumVfs := 1;
              ie_LinkSpeed := ie_LinkSpeed iface; ie_LinkType := ie_LinkType iface;
              ie_LinkAdminState := ie_LinkAdminState iface; ie_EswitchMode := ie_EswitchMode iface;
              ie_ExternallyManaged := ie_ExternallyManaged iface; ie_TotalVfs := 1;
              ie_VFs := ie_VFs iface ++ [oneVF iface (ie_Driver iface)]; ie_AltNames := ie_AltNames iface |}
  end.

Definition createDevicesInfo : platE (list InterfaceExt) :=
  match JoinPath metadataBaseURL [macsPath] with
  | inl _ => Ret (inl (HMsg "failed to construct MACs URL"))
  | inr macsURL =>
      metaData ⇐ getting (perform (PHTTPGetFetchData macsURL)) ("error getting aws meta_data from " +:+ macsURL);
      if String.eqb metaData "" then Ret (inr [])
      else
        macAddressToSubNetID ⇐ fetchSubnets (Split metaData "010") ∅;
        pfList ⇐ perform PDiscoverSriovVirtualDevices;
        Ret (inr (omap (withSubnet macAddressToSubNetID) pfList))
  end.

Definition createDevicesInfoFromNodeStatus (networkState : SriovNetworkNodeState) : list InterfaceExt :=
  nst_Interfaces (ns_Status networkState).

Definition Init : platE (list InterfaceExt) :=
  ns ⇐ perform PCheckPoint;
  match ns with
  | None => createDevicesInfo
  | Some s => Ret (inr (createDevicesInfoFromNodeStatus s))
  end.

(** One device as it is now. *)
Definition discoverDevice (iface : InterfaceExt) : platE InterfaceExt :=
  '(_, driver) ← perform (PHasDriver (ie_PciAddress iface));
  mtu ← perform (PGetNetdevMTU (ie_PciAddress iface));
  name ← perform (PTryToGetVirtualInterfaceName (ie_PciAddress iface));
  '(name', mac, speed, linkType) ←
    (if String.eqb name "" then Ret (ie_Name iface, ie_Mac iface, ie_LinkSpeed iface, ie_LinkType iface)
     else
       macAddr ← perform (PGetNetDevMac name);
       speed ← perform (PGetNetDevLinkSpeed name);
       linkType ← perform (PGetLinkType name);
       Ret (name, if String.eqb macAddr "" then ie_Mac iface else macAddr, speed, linkType));
  let c := {| ie_Name := name'; ie_Mac := mac; ie_Driver := driver; ie_PciAddress := ie_PciAddress iface;
              ie_Vendor := ie_Vendor iface; ie_DeviceID := ie_DeviceID iface; ie_NetFilter := ie_NetFilter iface;
              ie_Mtu := if 0 <? mtu then mtu else ie_Mtu iface; ie_NumVfs := ie_NumVfs iface; ie_LinkSpeed := speed;
              ie_LinkType := linkType; ie_LinkAdminState := ie_LinkAdminState iface; ie_EswitchMode := ie_EswitchMode iface;
              ie_ExternallyManaged := ie_ExternallyManaged iface; ie_TotalVfs := ie_TotalVfs iface;
              ie_VFs := ie_VFs iface; ie_AltNames := ie_AltNames iface |} in
  if negb (bool_decide (length (ie_VFs iface) = 1%nat))
  then Ret (inl (HMsg ("unexpected number of vfs found for device " +:+ ie_Name c)))
  else Ret (inr (ie_set_VFs [oneVF c driver] c)).

Fixpoint DiscoverSriovDevices (InitialDevicesInfo : list InterfaceExt) : platE (list InterfaceExt) :=
  match InitialDevicesInfo with
  | [] => Ret (inr [])
  | iface :: rest =>
      i ⇐ discoverDevice iface;
      l ⇐ DiscoverSriovDevices rest;
      Ret (inr (i :: l))
  end.
End aws.
