(* ===== verification/Openstack.v ===== *)
(** * OpenStack (pkg/platform/openstack)

    The devices of an OpenStack instance and their networks, from the config
    drive, the metadata service or the first node state. *)
From S2P Require Import Prelude GoLib Types Effects HostSys HostSriov SriovService Platform.

(** The parts of the metadata that are read. *)
Record OSPMetaDataDevice := mkDevice { md_Mac : string; md_Address : string }.
Record OSPMetaData := mkMetaData { omd_Devices : list OSPMetaDataDevice }.
Record OSPNetworkLink := mkLinkData { onl_ID : string; onl_EthernetMac : string }.
Record OSPNetwork := mkNetworkData { onw_Link : string; onw_NetworkID : string }.
Record OSPNetworkData := mkNetworks { ond_Links : list OSPNetworkLink; ond_Networks : list OSPNetwork }.
Record OSPDeviceInfo := mkDeviceInfo { odi_MacAddress : string; odi_NetworkID : string }.

Definition OSPDevicesInfo : Type := gmap string OSPDeviceInfo.

Definition ospMetaDataBaseDir := "/openstack/2018-08-27".
Definition ospNetworkDataJSON := "network_data.json".
Definition ospMetaDataJSON := "meta_data.json".
Definition ospMetaDataBaseURL := "http://169.254.169.254" +:+ ospMetaDataBaseDir.
Definition ospNetworkDataURL := ospMetaDataBaseURL +:+ "/" +:+ ospNetworkDataJSON.
Definition ospMetaDataURL := ospMetaDataBaseURL +:+ "/" +:+ ospMetaDataJSON.
Definition configDriveLabel := "config-2".
Definition openstackNetworkIDPrefix := "openstack/NetworkID:".

Section openstack.
(** The two documents; [null] leaves the pointer nil. *)
Context (DecodeMetaData : string → HostError + option OSPMetaData).
Context (DecodeNetworkData : string → HostError + option OSPNetworkData).

(** ** helpers.go *)

Definition getConfigDriveDevice : platE string :=
  let dev := "/dev/disk/by-label/" +:+ configDriveLabel in
  r ← perform (PStat dev);
  if match r with Some e => is_not_exist e | None => false end then
    out ⇐ getting (perform (PBlkid configDriveLabel)) "unable to run blkid";
    Ret (inr (TrimSpace out))
  else Ret (inr dev).

Definition failing (c : platM (option HostError)) (msg : string) : platE unit :=
  r ← c; Ret (match r with Some _ => inl (HMsg msg) | None => inr tt end).

(** The folder stays when mounting fails. *)
Definition mountConfigDriveDevice (device : string) : platE string :=
  if String.eqb device "" then Ret (inl (HMsg "device is empty"))
  else
    tmpDir ⇐ getting (perform PMkdirTemp) "error creating temp directory";
    failing (perform (PMount device tmpDir)) "error mounting config drive" ;;!
    Ret (inr tmpDir).

Definition ummountConfigDriveDevice (path : string) : platE unit :=
  if String.eqb path "" then Ret (inl (HMsg "path is empty"))
  else failing (perform (PUmount path)) "error umounting config drive".

(** A deferred call whose error counts when there is none yet. *)
Definition deferred {A} (body : platE A) (last : platE unit) (msg : string) : platE A :=
  r ← body;
  e ← last;
  Ret (match r, e with inr _, inl _ => inl (HMsg msg) | _, _ => r end).

(** Opening, decoding and closing a file. *)
Definition withFile {A} (path : string) (body : platE A) : platE A :=
  failing (perform (POpen path)) ("error opening file " +:+ path) ;;!
  deferred body (failing (perform (PClose path)) "") ("error closing file " +:+ path).

Definition decodeFile {A} (decode : string → HostError + A) (path : string) : platE A :=
  text ⇐ getting (perform (PDecode path)) ("error unmarshalling metadata from file " +:+ path);
  Ret (match decode text with inl _ => inl (HMsg ("error unmarshalling metadata from file " +:+ path)) | inr a => inr a end).

(** The metadata file is closed after the network data file. *)
Definition readConfigDrive (metaPath networkPath : string) : platE (option OSPMetaData * option OSPNetworkData) :=
  withFile metaPath
    (metaData ⇐ decodeFile DecodeMetaData metaPath;
     withFile networkPath
       (networkData ⇐ decodeFile DecodeNetworkData networkPath;
        Ret (inr (metaData, networkData)))).

(** With the drive mounted ([mountConfigDrive] is true in the only call). *)
Definition getOpenstackDataFromConfigDrive : platE (option OSPMetaData * option OSPNetworkData) :=
  configDriveDevice ⇐ getting getConfigDriveDevice "error finding config drive device";
  configDrivePath ⇐ getting (mountConfigDriveDevice configDriveDevice) "error mounting config drive device";
  deferred
    (deferred
       (readConfigDrive (configDrivePath +:+ ospMetaDataBaseDir +:+ "/" +:+ ospMetaDataJSON)
          (configDrivePath +:+ ospMetaDataBaseDir +:+ "/" +:+ ospNetworkDataJSON))
       (ummountConfigDriveDevice configDrivePath) "error umounting config drive device")
    (failing (perform (PRemove configDrivePath)) "") ("error removing temp directory " +:+ configDrivePath).

Definition getBodyFromURL (url : string) : platE string := perform (PHTTPGet url).

Definition getOpenstackDataFromMetadataService : platE (option OSPMetaData * option OSPNetworkData) :=
  metaDataRawBytes ⇐ getting (getBodyFromURL ospMetaDataURL) ("error getting OpenStack meta_data from " +:+ ospMetaDataURL);
  match DecodeMetaData metaDataRawBytes with
  | inl _ => Ret (inl (HMsg ("error unmarshalling raw bytes from " +:+ ospMetaDataURL)))
  | inr metaData =>
      networkDataRawBytes ⇐ getting (getBodyFromURL ospNetworkDataURL) ("error getting OpenStack network_data from " +:+ ospNetworkDataURL);
      match DecodeNetworkData networkDataRawBytes with
      | inl _ => Ret (inl (HMsg ("error unmarshalling raw bytes from " +:+ ospNetworkDataURL)))
      | inr networkData =>
          (* json.Unmarshal of null into a pointer leaves the zero value *)
          Ret (inr (Some (default (mkMetaData []) metaData), Some (default (mkNetworks [] []) networkData)))
      end
  end.

(** The one address with that MAC; a card without a PCI address is dereferenced
    all the same. *)
Fixpoint pciAddressLoop (macAddress pciAddress : string) (nics : list NIC) : HostError + string :=
  match nics with
  | [] => if negb (String.eqb pciAddress "") then inr pciAddress else inl (HMsg ("no device found with MAC address " +:+ macAddress))
  | nic :: rest =>
      if EqualFold (nic_MacAddress nic) macAddress then
        if String.eqb pciAddress "" then
          match nic_PCIAddress nic with
          | Some a => pciAddressLoop macAddress a rest
          | None => inl HPanic
          end
        else inl (HMsg ("more than one device found with MAC address " +:+ macAddress +:+ " is unsupported"))
      else pciAddressLoop macAddress pciAddress rest
  end.

Definition getPCIAddressFromMACAddress (macAddress : string) (nics : list NIC) : HostError + string :=
  pciAddressLoop macAddress "" nics.

(** The addresses are replaced up to the first device without a card of its
    own. *)
Fixpoint realAddresses (nics : list NIC) (devices : list OSPMetaDataDevice) : HostError + list OSPMetaDataDevice :=
  match devices with
  | [] => inr []
  | device :: rest =>
      match getPCIAddressFromMACAddress (md_Mac device) nics with
      | inl HPanic => inl HPanic
      | inl _ => inr devices
      | inr realPCIAddr =>
          match realAddresses nics rest with
          | inl e => inl e
          | inr l => inr (mkDevice (md_Mac device) realPCIAddr :: l)
          end
      end
  end.

Definition getOpenstackData : platE (option OSPMetaData * option OSPNetworkData) :=
  r ← getOpenstackDataFromConfigDrive;
  '(metaData, networkData) ⇐
    (match r with
     | inr d => Ret (inr d)
     | inl _ => getting getOpenstackDataFromMetadataService "GetOpenStackData(): error getting OpenStack data"
     end);
  nics ⇐ getting (perform PNetwork) "GetOpenStackData(): error getting network info";
  match metaData with
  | None => Ret (inl HPanic)
  | Some m =>
      Ret (match realAddresses nics (omd_Devices m) with
           | inl e => inl e
           | inr l => inr (Some (mkMetaData l), networkData)
           end)
  end.

(** ** openstack.go *)

(** The networks of the links with that MAC, a later one replacing an earlier
    one. *)
Definition recordNetworks (networkData : OSPNetworkData) (mac address : string) (devicesInfo : OSPDevicesInfo) : OSPDevicesInfo :=
  foldl (λ info link,
    if String.eqb mac (onl_EthernetMac link) then
      foldl (λ info network,
        if String.eqb (onw_Link network) (onl_ID link)
        then <[address := mkDeviceInfo mac (openstackNetworkIDPrefix +:+ onw_NetworkID network)]> info else info)
        info (ond_Networks networkData)
    else info) devicesInfo (ond_Links networkData).

(** A vhost-user device, found by its MAC. *)
Fixpoint recordDevices (networkData : OSPNetworkData) (devicesInfo : OSPDevicesInfo) (devices : list PCIDevice) : platM OSPDevicesInfo :=
  match devices with
  | [] => Ret devicesInfo
  | device :: rest =>
      if bool_decide (is_Some (devicesInfo !! pd_Address device)) then recordDevices networkData devicesInfo rest
      else if negb (bool_decide (getDeviceClass device = Some NetClass)) then recordDevices networkData devicesInfo rest
      else
        name ← perform (PTryToGetVirtualInterfaceName (pd_Address device));
        macAddress ← (if String.eqb name "" then Ret "" else perform (PGetNetDevMac name));
        if String.eqb macAddress "" then recordDevices networkData devicesInfo rest
        else recordDevices networkData (recordNetworks networkData macAddress (pd_Address device) devicesInfo) rest
  end.

Definition createDevicesInfo : platE OSPDevicesInfo :=
  '(metaData, networkData) ⇐ getOpenstackData;
  match metaData, networkData with
  | Some m, Some n =>
      let devicesInfo := foldl (λ info d, recordNetworks n (md_Mac d) (md_Address d) info) ∅ (omd_Devices m) in
      devices ⇐ getting (perform PPCI) "CreateOpenstackDevicesInfo(): error getting PCI info";
      if bool_decide (devices = []) then Ret (inl (HMsg "CreateOpenstackDevicesInfo(): could not retrieve PCI devices"))
      else
        info ← recordDevices n devicesInfo devices;
        Ret (inr info)
  | _, _ => Ret (inr ∅)
  end.

Definition createDevicesInfoFromNodeStatus (networkState : SriovNetworkNodeState) : OSPDevicesInfo :=
  foldl (λ info iface, <[ie_PciAddress iface := mkDeviceInfo (ie_Mac iface) (ie_NetFilter iface)]> info) ∅
    (nst_Interfaces (ns_Status networkState)).

Definition Init : platE OSPDevicesInfo :=
  ns ⇐ perform PCheckPoint;
  match ns with
  | None => createDevicesInfo
  | Some s => Ret (inr (createDevicesInfoFromNodeStatus s))
  end.

Definition GetVendorPlugins : PluginKind * list PluginKind := (Virtual, []).

Definition SystemdGetVendorPlugin (phase : string) : HostError + option PluginKind :=
  if String.eqb phase PhasePre then inr (Some Virtual)
  else if String.eqb phase PhasePost then inr None
  else inl (HMsg ("invalid phase " +:+ phase)).

Definition DiscoverBridges : HostError + Bridges := inl ErrOperationNotSupportedByPlatform.

(** A device the metadata knows; [None] is skipped. *)
Definition discoverDevice (info : OSPDevicesInfo) (device : PCIDevice) : platM (option InterfaceExt) :=
  let addr := pd_Address device in
  if negb (bool_decide (getDeviceClass device = Some NetClass)) then Ret None
  else
    match info !! addr with
    | None => Ret None
    | Some deviceInfo =>
        d ← perform (PGetDriverName addr);
        match d with
        | inl _ => Ret None
        | inr driver =>
            mtu ← perform (PGetNetdevMTU addr);
            name ← perform (PTryToGetVirtualInterfaceName addr);
            '(mac, speed, linkType) ←
              (if String.eqb name "" then Ret ("", "", "")
               else
                 mac ← perform (PGetNetDevMac name);
                 speed ← perform (PGetNetDevLinkSpeed name);
                 linkType ← perform (PGetLinkType name);
                 Ret (if String.eqb mac "" then odi_MacAddress deviceInfo else mac, speed, linkType));
            let iface := {| ie_Name := name; ie_Mac := mac; ie_Driver := driver; ie_PciAddress := addr;
                            ie_Vendor := pd_Vendor device; ie_DeviceID := pd_Product device;
                            ie_NetFilter := odi_NetworkID deviceInfo; ie_Mtu := if 0 <? mtu then mtu else 0; ie_NumVfs := 1;
                            ie_LinkSpeed := speed; ie_LinkType := linkType; ie_LinkAdminState := "";
                            ie_EswitchMode := ""; ie_ExternallyManaged := false; ie_TotalVfs := 1; ie_VFs := [];
                            ie_AltNames := [] |} in
            Ret (Some (ie_set_VFs [oneVF iface driver] iface))
        end
    end.

Fixpoint discoverAll (info : OSPDevicesInfo) (devices : list PCIDevice) : platM (list InterfaceExt) :=
  match devices with
  | [] => Ret []
  | d :: rest => o ← discoverDevice info d; l ← discoverAll info rest; Ret (option_list o ++ l)
  end.

Definition DiscoverSriovDevices (openStackDevicesInfo : OSPDevicesInfo) : platE (list InterfaceExt) :=
  devices ⇐ getting (perform PPCI) "DiscoverSriovDevicesVirtual(): error getting PCI info";
  if bool_decide (devices = []) then Ret (inl (HMsg "DiscoverSriovDevicesVirtual(): could not retrieve PCI devices"))
  else l ← discoverAll openStackDevicesInfo devices; Ret (inr l).
End openstack.
