(* ===== verification/PlatformSpec.v ===== *)
(** * What the virtual platforms report

    Every device of a virtual platform is a PF with one VF, itself; the network
    it belongs to is taken from the metadata once and survives a restart of the
    daemon, which reads it back from the first node state.  And what bare metal
    chooses as plugins. *)
From S2P Require Import Prelude GoLib Types Effects HostSys HostSriov Orchestrator SriovService Platform Baremetal Aws Openstack.

(** ** The devices *)

(** A device that is its own and only VF. *)
Definition singleVF (i : InterfaceExt) : Prop :=
  ie_TotalVfs i = 1 ∧ ie_NumVfs i = 1 ∧ ∃ driver, ie_VFs i = [oneVF i driver].

(** Where a device is and which network it belongs to. *)
Definition network (i : InterfaceExt) : string * string := (ie_PciAddress i, ie_NetFilter i).

(** Virtual devices are discovered without VFs (HostSriov.v). *)
Lemma discoverVirtualAll_no_vfs hv devices :
  wp (free_world HostResp) (λ _ _, True) (discoverVirtualAll hv devices) (λ l _, Forall (λ i, ie_VFs i = []) l) tt.
Proof.
  induction devices as [|d devices IH]; cbn [discoverVirtualAll]; [constructor|].
  assert (Hd : wp (free_world HostResp) (λ _ _, True) (discoverVirtualDevice hv d)
                 (λ o _, ∀ i, o = Some i → ie_VFs i = []) tt).
  { unfold discoverVirtualDevice. case_bool_decide; [|done]. apply wp_perform; [done|]. intros [e|driver] [] _; [done|].
    apply wp_bind. apply wp_top. intros mtu []. apply wp_bind. apply wp_top. intros name [].
    apply wp_bind. apply wp_top. intros [[mac speed] linkType] []. by intros i [= <-]. }
  apply wp_bind. eapply wp_post; [exact Hd|]. intros o [] Ho. apply wp_bind. eapply wp_post; [exact IH|].
  intros l [] Hl. destruct o as [i|]; cbn; [|exact Hl]. constructor; [by apply Ho|exact Hl].
Qed.

Lemma DiscoverSriovVirtualDevices_no_vfs hv :
  wp (free_world HostResp) (λ _ _, True) (DiscoverSriovVirtualDevices hv)
    (λ r _, ∀ l, r = inr l → Forall (λ i, ie_VFs i = []) l) tt.
Proof.
  unfold DiscoverSriovVirtualDevices. apply wp_perform; [done|]. intros [e|[|d l]] [] _; [done..|].
  apply wp_bind. eapply wp_post; [apply discoverVirtualAll_no_vfs|]. by intros r [] H l0 [= <-].
Qed.

(** The host and the cloud may answer anything, but virtual devices have no VFs
    yet. *)
Definition plat_step (r : PlatReq) : PlatResp r → Prop :=
  match r with
  | PDiscoverSriovVirtualDevices => λ x, ∀ l, x = inr l → Forall (λ i, ie_VFs i = []) l
  | _ => λ _, True
  end.

Definition plat_world : World PlatResp := {| w_state := unit; w_step := λ _ r x _, plat_step r x |}.

Abbreviation wpp := (wp plat_world (λ _ _, True)).

Lemma wpp_top {A} (p : platM A) (Q : A → unit → Prop) s : (∀ a s, Q a s) → wpp p Q s.
Proof. intros HQ. revert s. induction p as [a|r k IH]; cbn; auto. Qed.

Lemma wpp_one r (Q : PlatResp r → unit → Prop) s : (∀ x s', plat_step r x → Q x s') → wpp (perform r) Q s.
Proof. intros H. split; [done|]. intros x s' Hx. by apply H. Qed.

Lemma wpp_getting {A} (c : platE A) msg (Q : HostError + A → unit → Prop) s :
  wpp c (λ r s', match r with inr a => Q (inr a) s' | inl _ => Q (inl (HMsg msg)) s' end) s → wpp (Platform.getting c msg) Q s.
Proof. intros H. apply wp_bind. eapply wp_post; [exact H|]. by intros [e|a] s'. Qed.

(** A node state with these devices in its status. *)
Definition withInterfaces (l : list InterfaceExt) (ns : SriovNetworkNodeState) : SriovNetworkNodeState :=
  mkNodeState (ns_meta ns) (ns_Spec ns)
    (mkNodeStateStatus l (nst_Bridges (ns_Status ns)) (nst_System (ns_Status ns)) (nst_SyncStatus (ns_Status ns))
       (nst_LastSyncError (ns_Status ns)) (nst_Conditions (ns_Status ns))).

(** ** OpenStack *)

Lemma openstack_device info d :
  wpp (Openstack.discoverDevice info d)
    (λ o _, ∀ i, o = Some i → singleVF i ∧ ∃ di, info !! ie_PciAddress i = Some di ∧ ie_NetFilter i = Openstack.odi_NetworkID di) tt.
Proof.
  unfold Openstack.discoverDevice. case_bool_decide; [|done]. cbn [negb].
  destruct (info !! pd_Address d) as [di|] eqn:Hi; [|done]. apply wp_perform; [done|]. intros [e|driver] [] _; [done|].
  apply wp_perform; [done|]. intros mtu [] _. apply wp_perform; [done|]. intros name [] _.
  apply wp_bind. apply wpp_top. intros [[mac speed] linkType] []. intros i [= <-].
  split; [split_and!; [done|done|by eexists]|]. by exists di.
Qed.

Lemma openstack_discoverAll info devices :
  wpp (Openstack.discoverAll info devices)
    (λ l _, Forall (λ i, singleVF i ∧ ∃ di, info !! ie_PciAddress i = Some di ∧ ie_NetFilter i = Openstack.odi_NetworkID di) l) tt.
Proof.
  induction devices as [|d devices IH]; cbn [Openstack.discoverAll]; [constructor|].
  apply wp_bind. eapply wp_post; [apply openstack_device|]. intros o [] Ho. apply wp_bind. eapply wp_post; [exact IH|].
  intros l [] Hl. destruct o as [i|]; cbn; [|exact Hl]. constructor; [by apply Ho|exact Hl].
Qed.

Lemma openstack_discover info :
  wpp (Openstack.DiscoverSriovDevices info)
    (λ r _, ∀ l, r = inr l →
       Forall (λ i, singleVF i ∧ ∃ di, info !! ie_PciAddress i = Some di ∧ ie_NetFilter i = Openstack.odi_NetworkID di) l) tt.
Proof.
  apply wp_try, wpp_getting, wpp_one. intros [e|devices] [] _; [done|].
  case_bool_decide; [done|]. apply wp_bind. eapply wp_post; [apply openstack_discoverAll|]. by intros l [] Hl l' [= <-].
Qed.

(** What the restarted daemon knows of the devices of a status. *)
Lemma fromStatus_lookup l (info : gmap string Openstack.OSPDeviceInfo) a di :
  foldl (λ m iface, <[ie_PciAddress iface := Openstack.mkDeviceInfo (ie_Mac iface) (ie_NetFilter iface)]> m) info l !! a = Some di →
  (∃ i, i ∈ l ∧ ie_PciAddress i = a ∧ Openstack.odi_NetworkID di = ie_NetFilter i) ∨ info !! a = Some di.
Proof.
  revert info. induction l as [|i l IH]; intros info; cbn; [by right|].
  intros H. destruct (IH _ H) as [(j & Hj & Ha & Hn)|H']; [left; exists j; set_solver|].
  destruct (decide (ie_PciAddress i = a)) as [<-|Hne].
  - rewrite lookup_insert_eq in H'. injection H' as <-. left. exists i. split_and!; [set_solver|done|done].
  - rewrite lookup_insert_ne in H' by done. by right.
Qed.

(** Two discoveries with a restart in between, from the node state with the
    first one's devices. *)
Definition openstackRestart (info : Openstack.OSPDevicesInfo) (ns : SriovNetworkNodeState) : platM (option (list InterfaceExt * list InterfaceExt)) :=
  r ← Openstack.DiscoverSriovDevices info;
  match r with
  | inl _ => Ret None
  | inr l =>
      r' ← Openstack.DiscoverSriovDevices (Openstack.createDevicesInfoFromNodeStatus (withInterfaces l ns));
      Ret (match r' with inl _ => None | inr l' => Some (l, l') end)
  end.

(** After the restart every device that is reported was reported before, with
    the same network. *)
Lemma openstack_restart info ns :
  wpp (openstackRestart info ns)
    (λ o _, ∀ l l', o = Some (l, l') → Forall singleVF l ∧ Forall singleVF l' ∧ ∀ i, i ∈ l' → network i ∈ (network <$> l)) tt.
Proof.
  apply wp_bind. eapply wp_post; [apply openstack_discover|]. intros [e|l] [] Hl; [done|]. specialize (Hl l eq_refl).
  apply wp_bind. eapply wp_post; [apply openstack_discover|]. intros [e|l'] [] Hl'; [done|]. specialize (Hl' l' eq_refl).
  intros l0 l1 [= <- <-]. rewrite !Forall_forall in *. split_and!; [intros i Hi; by apply Hl|intros i Hi; by apply Hl'|].
  intros i Hi. destruct (Hl' i Hi) as (_ & di & Hdi & Hnet). unfold Openstack.createDevicesInfoFromNodeStatus in Hdi. cbn in Hdi.
  apply fromStatus_lookup in Hdi as [(j & Hj & Ha & Hn)|Hdi]; [|by apply lookup_empty_Some in Hdi].
  apply list_elem_of_fmap. exists j. split; [|done]. unfold network. congruence.
Qed.

(** ** AWS *)

Lemma aws_device i :
  (∃ vf, ie_VFs i = [vf]) → ie_TotalVfs i = 1 → ie_NumVfs i = 1 →
  wpp (Aws.discoverDevice i) (λ r _, ∃ i', r = inr i' ∧ singleVF i' ∧ network i' = network i) tt.
Proof.
  intros [vf Hvf] Ht Hn. unfold Aws.discoverDevice. apply wp_perform; [done|]. intros [b driver] [] _.
  apply wp_perform; [done|]. intros mtu [] _. apply wp_perform; [done|]. intros name [] _.
  apply wp_bind. apply wpp_top. intros [[[name' mac] speed] linkType] []. cbn zeta. rewrite Hvf. cbn.
  eexists. split; [done|]. split; [|done]. split_and!; [done|done|by eexists].
Qed.

(** What AWS knows: one VF per device. *)
Definition awsInfo (i : InterfaceExt) : Prop := ie_TotalVfs i = 1 ∧ ie_NumVfs i = 1 ∧ ∃ vf, ie_VFs i = [vf].

Lemma singleVF_awsInfo i : singleVF i → awsInfo i.
Proof. intros (H1 & H2 & d & H3). split_and!; [done|done|by eexists]. Qed.

Lemma aws_discover info :
  Forall awsInfo info →
  wpp (Aws.DiscoverSriovDevices info) (λ r _, ∃ l, r = inr l ∧ Forall singleVF l ∧ network <$> l = network <$> info) tt.
Proof.
  induction 1 as [|i info (H1 & H2 & H3) Hi IH]; cbn [Aws.DiscoverSriovDevices]; [by exists []|].
  apply wp_try. eapply wp_post; [by apply aws_device|]. intros r [] (i' & -> & Hs & Hn).
  apply wp_try. eapply wp_post; [exact IH|]. intros r [] (l & -> & Hl & Hln). exists (i' :: l). split_and!; [done|by constructor|].
  cbn. by rewrite Hn, Hln.
Qed.

(** What is found without a checkpoint. *)
Lemma aws_createDevicesInfo JoinPath :
  wpp (Aws.createDevicesInfo JoinPath) (λ r _, ∀ l, r = inr l → Forall awsInfo l) tt.
Proof.
  unfold Aws.createDevicesInfo. destruct (JoinPath _ _) as [e|url]; [done|].
  apply wp_try, wpp_getting, wpp_one. intros [e|metaData] [] _; [done|].
  destruct (String.eqb metaData ""); [by intros l [= <-]|]. apply wp_try. apply wpp_top. intros [e|subnets] []; [done|].
  apply wp_try, wpp_one. intros [e|pfList] [] Hpf; [done|]. specialize (Hpf pfList eq_refl). intros l [= <-].
  induction Hpf as [|i pfList Hi _ IH]; [constructor|]. cbn. unfold Aws.withSubnet at 1.
  destruct (subnets !! ie_Mac i); [|exact IH]. constructor; [|exact IH]. split_and!; [done|done|]. cbn. rewrite Hi. by eexists.
Qed.

(** A fresh start, a discovery, a restart from the node state with its devices
    and another discovery. *)
Definition awsRestart (JoinPath : string → list string → HostError + string) (ns : SriovNetworkNodeState)
    : platM (option (list InterfaceExt * (HostError + list InterfaceExt))) :=
  r ← Aws.createDevicesInfo JoinPath;
  match r with
  | inl _ => Ret None
  | inr info =>
      r ← Aws.DiscoverSriovDevices info;
      match r with
      | inl _ => Ret None
      | inr l =>
          r' ← Aws.DiscoverSriovDevices (Aws.createDevicesInfoFromNodeStatus (withInterfaces l ns));
          Ret (Some (l, r'))
      end
  end.

Lemma aws_restart JoinPath ns :
  wpp (awsRestart JoinPath ns)
    (λ o _, ∀ l r, o = Some (l, r) → Forall singleVF l ∧ ∃ l', r = inr l' ∧ Forall singleVF l' ∧ network <$> l' = network <$> l) tt.
Proof.
  apply wp_bind. eapply wp_post; [apply aws_createDevicesInfo|]. intros [e|info] [] Hi; [done|]. specialize (Hi info eq_refl).
  apply wp_bind. eapply wp_post; [by apply aws_discover|]. intros r [] (l & -> & Hl & _).
  apply wp_bind. eapply wp_post.
  { apply aws_discover. cbn. eapply Forall_impl; [exact Hl|exact singleVF_awsInfo]. }
  intros r [] (l' & -> & Hl' & Hn). intros l0 r0 [= <- <-]. split; [done|]. exists l'. done.
Qed.

(** on both virtual platforms, whatever the host and the cloud's metadata
    answer, every reported device has exactly one VF, itself, with index 0; and
    after a restart from the first node state the devices keep their networks:
    on AWS the very same devices are reported again and the discovery cannot
    fail, on OpenStack no device appears and none changes its network. *)
Theorem virtual_networks_survive_restart info JoinPath ns :
  wpp (openstackRestart info ns)
    (λ o _, ∀ l l', o = Some (l, l') → Forall singleVF l ∧ Forall singleVF l' ∧ ∀ i, i ∈ l' → network i ∈ (network <$> l)) tt ∧
  wpp (awsRestart JoinPath ns)
    (λ o _, ∀ l r, o = Some (l, r) → Forall singleVF l ∧ ∃ l', r = inr l' ∧ Forall singleVF l' ∧ network <$> l' = network <$> l) tt.
Proof. split; [apply openstack_restart|apply aws_restart]. Qed.

(** ** Bare metal *)

(** Each vendor's plugin is loaded once, exactly when one of its cards is there;
    the k8s plugin exactly on Kubernetes. *)
Lemma baremetal_plugins order orchestrator ns main additional :
  (∀ l, order l ≡ₚ l) → Baremetal.GetVendorPlugins order orchestrator ns = inr (main, additional) →
  main = Generic false false ∧ NoDup additional ∧
  (∀ p, p ∈ additional ↔
     (∃ i, i ∈ nst_Interfaces (ns_Status ns) ∧ Baremetal.VendorPluginMap (ie_Vendor i) = Some p) ∨
     p = K8s ∧ orchestrator = inr ClusterTypeKubernetes).
Proof.
  intros Hord H. unfold Baremetal.GetVendorPlugins, Baremetal.loadVendorPlugins in H.
  set (step := λ loaded i, match Baremetal.VendorPluginMap (ie_Vendor i) with
                           | Some p => if bool_decide (p ∈ loaded) then loaded else loaded ++ [p]
                           | None => loaded end) in H.
  assert (Hfold : ∀ l acc, NoDup acc → NoDup (foldl step acc l) ∧
    ∀ p, p ∈ foldl step acc l ↔ p ∈ acc ∨ ∃ i, i ∈ l ∧ Baremetal.VendorPluginMap (ie_Vendor i) = Some p).
  { induction l as [|i l IH]; intros acc Hacc; cbn; [split; [done|set_solver]|].
    assert (Hn : NoDup (step acc i) ∧ ∀ p, p ∈ step acc i ↔ p ∈ acc ∨ Baremetal.VendorPluginMap (ie_Vendor i) = Some p).
    { unfold step. destruct (Baremetal.VendorPluginMap (ie_Vendor i)) as [q|]; [|split; [done|set_solver]].
      case_bool_decide; [split; [done|set_solver]|]. split; [|set_solver]. apply NoDup_app. split_and!; [done|set_solver|apply NoDup_singleton]. }
    destruct Hn as [Hn1 Hn2]. destruct (IH _ Hn1) as [H1 H2]. split; [done|]. intros p. rewrite H2, Hn2. set_solver. }
  destruct (Hfold (nst_Interfaces (ns_Status ns)) [] (NoDup_nil_2)) as [H1 H2].
  destruct orchestrator as [e|ct]; [done|]. injection H as <- <-. split; [done|].
  assert (Hk : ∀ p, p ∈ foldl step [] (nst_Interfaces (ns_Status ns)) → p ≠ K8s).
  { intros p Hp. apply H2 in Hp as [Hp|(i & _ & Hi)]; [set_solver|]. intros ->. unfold Baremetal.VendorPluginMap in Hi. by repeat case_match. }
  assert (Hin : ∀ p, p ∈ order (foldl step [] (nst_Interfaces (ns_Status ns))) ↔
    ∃ i, i ∈ nst_Interfaces (ns_Status ns) ∧ Baremetal.VendorPluginMap (ie_Vendor i) = Some p).
  { intros p. rewrite (Hord _), H2. set_solver. }
  split.
  - apply NoDup_app. split_and!; [by rewrite Hord| |].
    + intros p Hp. rewrite (Hord _) in Hp. apply Hk in Hp. destruct (String.eqb _ _); set_solver.
    + destruct (String.eqb _ _); [apply NoDup_singleton|apply NoDup_nil_2].
  - intros p. rewrite elem_of_app, Hin. destruct (String.eqb_spec ct ClusterTypeKubernetes) as [->|Hne]; set_solver.
Qed.
