(* ===== verification/DaemonStart.v ===== *)
(** * Starting the daemon and following the operator configuration
    (cmd/sriov-network-config-daemon/start.go, pkg/daemon/config.go, pkg/log/log.go,
    pkg/vars/vars.go, pkg/host/internal/cpu/cpu.go, Init of pkg/daemon/daemon.go)

    The flags and the environment set package variables, which the watcher of
    the SriovOperatorConfig updates later.  The variables are a record that is
    passed along.  With the theorems about the feature gates and the log level;
    at the end the table of supported NICs (api/v1/helper.go) and the kubelet's
    configuration. *)
From S2P Require Import Prelude GoLib Types Effects Kube HostSys GenericPlugin Daemon OperatorConfig SriovService.
From S2P Require Import Selector Infiniband.

(** ** Flags *)

(** stringList.Set; what was added before an error stays. *)
Fixpoint addElems (sl elems : list string) : list string * option string :=
  match elems with
  | [] => (sl, None)
  | elem :: rest => if String.eqb elem "" then (sl, Some "empty plugin name") else addElems (sl ++ [elem]) rest
  end.

Definition stringList_Set (sl : list string) (arg : string) : list string * option string := addElems sl (Split arg ",").

Record StartOpts := mkStartOpts {
  so_nodeName : string;
  so_systemd : bool;
  so_disabledPlugins : list string;
  so_parallelNicConfig : bool;
  so_manageSoftwareBridges : bool;
  so_ovsSocketPath : string;
}.

Record GlobalVars := mkGlobalVars {
  gv_UsingSystemdMode : bool;
  gv_ParallelNicConfig : bool;
  gv_ManageSoftwareBridges : bool;
  gv_OVSDBSocketPath : string;
  gv_NodeName : string;
}.

Definition DisableablePlugins : list string := ["mellanox"].

(** [LookupEnv]: [None] when the variable is not set. *)
Definition configGlobalVariables (LookupEnv : string → option string) (opts : StartOpts) : string + GlobalVars :=
  match (if String.eqb (so_nodeName opts) "" then
           match LookupEnv "NODE_NAME" with
           | None | Some EmptyString => inl "node-name is required"
           | Some name => inr name
           end
         else inr (so_nodeName opts)) with
  | inl e => inl e
  | inr nodeName =>
      match List.find (λ p, negb (bool_decide (p ∈ DisableablePlugins))) (so_disabledPlugins opts) with
      | Some p => inl (p +:+ " plugin cannot be disabled")
      | None =>
          inr (mkGlobalVars (so_systemd opts) (so_parallelNicConfig opts) (so_manageSoftwareBridges opts)
                 (so_ovsSocketPath opts) nodeName)
      end
  end.

(** vars.PlatformsMap; the map is visited in any order. *)
Definition PlatformsMap : list (string * string) := [("openstack", VirtualOpenStack); ("aws", AWS)].

Fixpoint platformLoop (providerID : string) (entries : list (string * string)) : string :=
  match entries with
  | [] => Baremetal
  | (key, pType) :: rest => if Contains (ToLower providerID) (ToLower key) then pType else platformLoop providerID rest
  end.

Definition GetPlatformType (order : list (string * string)) (providerID : string) : string := platformLoop providerID order.

(** ** The log level *)

(** The conversion to zapcore.Level, an int8. *)
Definition to_int8 (z : Z) : Z := (z + 128) mod 256 - 128.
Definition operatorToZapLevel (operatorLevel : Z) : Z := to_int8 (operatorLevel * -1).
Definition zapToOperatorLevel (zapLevel : Z) : Z := zapLevel * -1.

Definition SetLogLevel (currLevel operatorLevel : Z) : Z :=
  let newLevel := operatorToZapLevel operatorLevel in if newLevel =? currLevel then currLevel else newLevel.
Definition GetLogLevel (level : Z) : Z := zapToOperatorLevel level.

(** ** The operator configuration *)

(** The variables the configuration decides, and the gates the watcher has seen
    last. *)
Record ConfigVars := mkConfigVars {
  cv_Level : Z;
  cv_DisableDrain : bool;
  cv_FeatureGate : gmap string bool;
  cv_latestFeatureGates : gmap string bool;
}.

(** initFeatureGates, initLogLevel and DisableDrain of runStartCmd; the watcher
    is made with an empty map. *)
Definition initFeatureGates (config : SriovOperatorConfigSpec) : gmap string bool :=
  OperatorConfig.Init DefaultFeatureStates (ocs_FeatureGates config).
Definition initLogLevel (level : Z) (config : SriovOperatorConfigSpec) : Z := SetLogLevel level (ocs_LogLevel config).
Definition NewOperatorConfigNodeReconcile : gmap string bool := ∅.

Definition startConfig (level : Z) (config : SriovOperatorConfigSpec) : ConfigVars :=
  mkConfigVars (initLogLevel level config) (ocs_DisableDrain config) (initFeatureGates config) NewOperatorConfigNodeReconcile.

Inductive ConfReq := GetOperatorConfig (ns name : string).
Definition ConfResp (r : ConfReq) : Type := (KubeError + SriovOperatorConfigSpec)%type.

(** OperatorConfigNodeReconcile.Reconcile. *)
Definition Reconcile (ns name : string) (v : ConfigVars) : prog ConfResp (ConfigVars * option KubeError) :=
  r ← perform (GetOperatorConfig ns name);
  match r with
  | inl ErrNotFound => Ret (v, None)
  | inl e => Ret (v, Some e)
  | inr spec =>
      let level := SetLogLevel (cv_Level v) (ocs_LogLevel spec) in
      let changed := negb (bool_decide (cv_latestFeatureGates v = ocs_FeatureGates spec)) in
      Ret (mkConfigVars level (ocs_DisableDrain spec)
             (if changed then OperatorConfig.Init DefaultFeatureStates (ocs_FeatureGates spec) else cv_FeatureGate v)
             (if changed then ocs_FeatureGates spec else cv_latestFeatureGates v), None)
  end.

(** ** The CPU *)

Definition GetCPUVendor (cpu : string + list string) : string + CPUVendor :=
  match cpu with
  | inl e => inl ("can't retrieve the CPU vendor: " +:+ e)
  | inr [] => inl "wrong CPU information retrieved"
  | inr (vendor :: _) =>
      if String.eqb vendor "GenuineIntel" then inr CPUVendorIntel
      else if String.eqb vendor "AuthenticAMD" then inr CPUVendorAMD
      else if String.eqb vendor "ARM" then inr CPUVendorARM
      else if String.eqb vendor "IBM/S390" then inr CPUVendorS390X
      else inl ("unknown CPU vendor: " +:+ vendor)
  end.

(** ** Init of the daemon *)

Inductive InitReq :=
| ICheckRDMAEnabled
| ITryEnableTun
| ITryEnableVhostNet
| ICleanSriovFilesFromHost (isOpenShift : bool)
| IPrepareNMUdevRule
| IPrepareVFRepUdevRule
| IPlatformInit
| IUpdateStatusFromHost                  (* on an empty node state *)
| IGetVendorPlugins (ns : SriovNetworkNodeState)
| IWriteCheckpointFile (ns : SriovNetworkNodeState).

Definition InitResp (r : InitReq) : Type :=
  match r with
  | ITryEnableTun | ITryEnableVhostNet => unit
  | IUpdateStatusFromHost => string + SriovNetworkNodeState
  | IGetVendorPlugins _ => string + (string * list string)
  | _ => option string
  end%type.

Definition initE (c : prog InitResp (option string)) : prog InitResp (string + unit) :=
  r ← c; Ret (match r with Some e => inl e | None => inr tt end).

(** Cleaning up and the udev rules may fail; the rest may not. *)
Definition Init (usingSystemd isOpenShift : bool) (dn : NodeReconciler) (disabledPlugins : list string)
    : prog InitResp (string + NodeReconciler) :=
  (if usingSystemd then Ret tt
   else
     perform ICheckRDMAEnabled ≫= λ _, perform ITryEnableTun ≫= λ _, perform ITryEnableVhostNet ≫= λ _,
     perform (ICleanSriovFilesFromHost isOpenShift) ≫= λ _, Ret tt) ≫= λ _,
  perform IPrepareNMUdevRule ≫= λ _,
  perform IPrepareVFRepUdevRule ≫= λ _,
  initE (perform IPlatformInit) ;;!
  ns ⇐ perform IUpdateStatusFromHost;
  '(main, additional) ⇐ perform (IGetVendorPlugins ns);
  match loadPlugins dn main additional disabledPlugins with
  | None => Ret (inl ("main plugin " +:+ main +:+ " cannot be disabled"))
  | Some dn' =>
      initE (perform (IWriteCheckpointFile ns)) ;;!
      Ret (inr dn')
  end.

(** ** Theorems *)

(** The level comes back as long as its negation fits an int8. *)
Lemma SetLogLevel_roundtrip curr level : -127 ≤ level ≤ 128 → GetLogLevel (SetLogLevel curr level) = level.
Proof.
  intros H. unfold GetLogLevel, SetLogLevel, operatorToZapLevel, zapToOperatorLevel, to_int8.
  assert (E : (level * -1 + 128) mod 256 - 128 = - level) by (rewrite Z.mod_small; lia).
  rewrite E. destruct (Z.eqb_spec (- level) curr); lia.
Qed.

(** The platform does not depend on the order of the map unless the provider's
    name has both keys. *)
Lemma GetPlatformType_order order providerID :
  order ≡ₚ PlatformsMap → ¬ (Contains (ToLower providerID) "openstack" = true ∧ Contains (ToLower providerID) "aws" = true) →
  GetPlatformType order providerID = GetPlatformType PlatformsMap providerID.
Proof.
  intros Hp Hno. symmetry in Hp. apply Permutation_length_2_inv in Hp as [-> | ->]; [done|].
  unfold GetPlatformType, PlatformsMap, platformLoop. change (ToLower "openstack") with "openstack". change (ToLower "aws") with "aws".
  destruct (Contains (ToLower providerID) "openstack"), (Contains (ToLower providerID) "aws"); try done. by exfalso; apply Hno.
Qed.

(** The watcher sees these configurations in turn. *)
Definition follow (specs : list SriovOperatorConfigSpec) (v : ConfigVars) : ConfigVars :=
  foldl (λ v spec, (run (λ (s : unit) (r : ConfReq), ((inr spec : ConfResp r), s)) (Reconcile "" "" v) tt).1.1) v specs.

Abbreviation gates spec := (OperatorConfig.Init DefaultFeatureStates (ocs_FeatureGates spec)).

(** Before the watcher has seen any gates, the ones of the start are in force;
    afterwards the ones seen last. *)
Definition gates_inv (c0 : SriovOperatorConfigSpec) (specs : list SriovOperatorConfigSpec) (v : ConfigVars) : Prop :=
  if bool_decide (Forall (λ s, ocs_FeatureGates s = ∅) specs)
  then cv_FeatureGate v = gates c0 ∧ cv_latestFeatureGates v = ∅
  else ∃ l, last specs = Some l ∧ cv_FeatureGate v = gates l ∧ cv_latestFeatureGates v = ocs_FeatureGates l.

Lemma follow_snoc specs spec v : follow (specs ++ [spec]) v = follow [spec] (follow specs v).
Proof. apply foldl_app. Qed.

Lemma follow_gates level c0 specs : gates_inv c0 specs (follow specs (startConfig level c0)).
Proof.
  induction specs as [|spec specs IH] using rev_ind; [by split|]. rewrite follow_snoc.
  set (v := follow specs (startConfig level c0)) in *. unfold gates_inv in *. cbn.
  case_bool_decide as Hall; case_bool_decide as Hall'.
  - destruct IH as [H1 H2]. apply Forall_app in Hall' as [_ Hs]. inversion Hs as [|? ? Hs' _]; subst.
    rewrite H2, Hs', bool_decide_true by done. by split.
  - destruct IH as [H1 H2]. exists spec. rewrite last_snoc. split; [done|].
    rewrite H2, bool_decide_false; [by split|]. intros E. apply Hall'. apply Forall_app. split; [done|]. by constructor.
  - exfalso. apply Hall. by apply Forall_app in Hall' as [? _].
  - destruct IH as (l & Hl & H1 & H2). exists spec. rewrite last_snoc. split; [done|].
    case_bool_decide as E; cbn; [|by split]. rewrite H1, H2 in *. by rewrite E.
Qed.

(** whatever configurations the daemon starts with and sees afterwards, its
    log level and drain setting are those of the last one, and so are its
    feature gates -- unless every configuration seen since the start has no
    gates at all: then the gates of the start stay in force. *)
Theorem daemon_follows_config level c0 specs spec :
  -127 ≤ ocs_LogLevel spec ≤ 128 →
  let v := follow (specs ++ [spec]) (startConfig level c0) in
  GetLogLevel (cv_Level v) = ocs_LogLevel spec ∧ cv_DisableDrain v = ocs_DisableDrain spec ∧
  cv_FeatureGate v =
    (if bool_decide (Forall (λ s, ocs_FeatureGates s = ∅) (specs ++ [spec])) then gates c0 else gates spec).
Proof.
  intros Hl v. split_and!.
  - unfold v. rewrite follow_snoc. by apply SetLogLevel_roundtrip.
  - unfold v. by rewrite follow_snoc.
  - pose proof (follow_gates level c0 (specs ++ [spec])) as H. unfold gates_inv in H. fold v in H.
    case_bool_decide; [by destruct H|]. destruct H as (l & Hla & H & _). rewrite last_snoc in Hla. by injection Hla as <-.
Qed.

Definition exampleSpec (level : Z) (features : gmap string bool) : SriovOperatorConfigSpec :=
  mkOperatorConfigSpec ∅ true true level false false "daemon" false [] features ∅.

(** A gate of the start that is gone by the first look stays on. *)
Lemma daemon_follows_config_witness :
  let v := follow [exampleSpec 2 ∅] (startConfig 0 (exampleSpec 0 {[ParallelNicConfigFeatureGate := true]})) in
  GetLogLevel (cv_Level v) = 2 ∧ cv_FeatureGate v !! ParallelNicConfigFeatureGate = Some true.
Proof.
  destruct (daemon_follows_config 0 (exampleSpec 0 {[ParallelNicConfigFeatureGate := true]}) [] (exampleSpec 2 ∅)) as (H1 & _ & H3);
    [cbn; lia|].
  split; [exact H1|]. cbn [app] in H3. rewrite H3. vm_compute. reflexivity.
Defined.

(** ** The table of supported NICs (api/v1/helper.go)

    The entries of the config map in the order a map iteration gives them,
    behind those that are already there. *)
Definition InitNicIDMapFromConfigMap (range : gmap string string → list (string * string)) (NicIDMap : list string)
    (cm : KubeError + gmap string string) : KubeError + list string :=
  match cm with
  | inl e => inl e
  | inr data => inr (NicIDMap ++ (range data).*2)
  end.

(** Hexadecimal digits with single underscores between them; [under]: the last
    byte was one. *)
Fixpoint parse_hex_ (acc : Z) (under : bool) (s : string) : option Z :=
  match s with
  | EmptyString => if under then None else Some acc
  | String a r =>
      if Ascii.eqb a "_" then if under then None else parse_hex_ acc true r
      else d ← hex_digit a; parse_hex_ (acc * 16 + d) false r
  end.

(** [ip, _ := strconv.ParseInt(vfID, 0, 32)] of "0x" and an id: zero for a
    malformed one, the largest number for one that is too large. *)
Definition vfIDNumber (id : string) : Z :=
  match id with
  | EmptyString => 0
  | _ => match parse_hex_ 0 false id with
         | Some v => Z.min v (2 ^ 31 - 1)
         | None => 0
         end
  end.

(** The distinct ids, in the order of the table; a short entry panics. *)
Fixpoint vfIDs (acc : list string) (NicIDMap : list string) : result unit (list string) :=
  match NicIDMap with
  | [] => Ok acc
  | n :: rest =>
      match nic_ids n !! 2%nat with
      | None => Panic
      | Some id => vfIDs (if StringInArray id acc then acc else acc ++ [id]) rest
      end
  end.

(** What a sort by the numbers may return. *)
Definition sorts (sort : list string → list string) : Prop :=
  ∀ l, sort l ≡ₚ l ∧ StronglySorted (λ a b, vfIDNumber a ≤ vfIDNumber b) (sort l).

Definition GetSupportedVfIds (sort : list string → list string) (NicIDMap : list string) : result unit (list string) :=
  l ← vfIDs [] NicIDMap; Ok ((λ id, "0x" +:+ id) <$> sort l).

Lemma StringInArray_elem x l : StringInArray x l = true ↔ x ∈ l.
Proof. unfold StringInArray. rewrite existsb_elem. setoid_rewrite String.eqb_eq. naive_solver. Qed.

Lemma vfIDs_Ok acc t l :
  NoDup acc → vfIDs acc t = Ok l →
  NoDup l ∧ ∀ id, id ∈ l ↔ id ∈ acc ∨ ∃ n, n ∈ t ∧ nic_ids n !! 2%nat = Some id.
Proof.
  revert acc. induction t as [|n t IH]; intros acc Hnd; cbn [vfIDs]; [intros [= <-]; set_solver|].
  destruct (nic_ids n !! 2%nat) as [id|] eqn:Hid; [|done]. intros H. apply IH in H as [H1 H2].
  - split; [done|]. intros i. rewrite H2. setoid_rewrite elem_of_cons.
    destruct (StringInArray id acc) eqn:E; [apply StringInArray_elem in E; naive_solver|]. rewrite elem_of_app, list_elem_of_singleton. naive_solver.
  - destruct (StringInArray id acc) eqn:E; [done|]. apply NoDup_app. split_and!; [done| |apply NoDup_singleton].
    intros x Hx ->%list_elem_of_singleton. apply StringInArray_elem in Hx. congruence.
Qed.

Lemma vfIDs_defined acc t : (∃ l, vfIDs acc t = Ok l) ↔ ∀ n, n ∈ t → is_Some (nic_ids n !! 2%nat).
Proof.
  revert acc. induction t as [|n t IH]; intros acc; cbn [vfIDs]; [split; [set_solver|eauto]|].
  setoid_rewrite elem_of_cons. destruct (nic_ids n !! 2%nat) as [id|] eqn:E.
  - rewrite IH. split; [intros H m [->|Hm]; [by rewrite E|by apply H]|naive_solver].
  - split; [by intros [l H]|]. intros H. destruct (H n (or_introl eq_refl)) as [? ?]. congruence.
Qed.

Lemma vfIDs_not_Err acc t e : vfIDs acc t ≠ Err e.
Proof. revert acc. induction t as [|n t IH]; intros acc; cbn; [done|]. by destruct (_ !! _). Qed.

(** The udev rules are stable: the ids depend neither on the order in which the
    config map is read, nor on entries that were added twice, nor on how the sort
    treats equal elements, as long as different ids are different numbers. *)
Theorem GetSupportedVfIds_stable sort1 sort2 t1 t2 :
  sorts sort1 → sorts sort2 → (∀ n, n ∈ t1 ↔ n ∈ t2) →
  (∀ n m a b, n ∈ t1 → m ∈ t1 → nic_ids n !! 2%nat = Some a → nic_ids m !! 2%nat = Some b →
     vfIDNumber a = vfIDNumber b → a = b) →
  GetSupportedVfIds sort1 t1 = GetSupportedVfIds sort2 t2.
Proof.
  intros Hs1 Hs2 Ht Hinj. unfold GetSupportedVfIds.
  assert (Hdef : (∃ l, vfIDs [] t1 = Ok l) ↔ ∃ l, vfIDs [] t2 = Ok l) by (rewrite !vfIDs_defined; by setoid_rewrite Ht).
  destruct (vfIDs [] t1) as [l1|e|] eqn:E1; [|by apply vfIDs_not_Err in E1|].
  2:{ destruct (vfIDs [] t2) as [l2|e|] eqn:E2; [|by apply vfIDs_not_Err in E2|done].
      exfalso. by destruct (proj2 Hdef (ex_intro _ l2 eq_refl)). }
  destruct (proj1 Hdef (ex_intro _ l1 eq_refl)) as [l2 E2]. rewrite E2. cbn. do 2 f_equal.
  apply vfIDs_Ok in E1 as [N1 M1]; [|constructor]. apply vfIDs_Ok in E2 as [N2 M2]; [|constructor].
  assert (Hp : l1 ≡ₚ l2).
  { apply NoDup_Permutation; [done..|]. intros id. rewrite M1, M2. by setoid_rewrite Ht. }
  destruct (Hs1 l1) as [P1 S1], (Hs2 l2) as [P2 S2].
  apply (StronglySorted_unique_strong (λ a b, vfIDNumber a ≤ vfIDNumber b)); [|done..|by rewrite P1, P2, Hp].
  intros a b Ha Hb Hab Hba. rewrite P1 in Ha. rewrite P2, <- Hp in Hb. apply M1 in Ha, Hb.
  destruct Ha as [Ha|(n & Hn & Ha)], Hb as [Hb|(m & Hm & Hb)]; [set_solver..|]. by apply (Hinj n m a b); [..|lia].
Qed.

(** ** The kubelet's configuration on OpenShift (start.go)

    The cluster of each context and the server of each cluster. *)
Record Kubeconfig := mkKubeconfig {
  kc_CurrentContext : string;
  kc_Contexts : gmap string string;
  kc_Clusters : gmap string string;
}.

(** The host and port for the environment.  A file that cannot be read, a
    context or cluster that is not there, and an address that cannot be parsed
    are nil pointers. *)
Definition useKubeletKubeConfig (ParseURL : string → string + string * string) (file : string + Kubeconfig)
    : result unit (string * string) :=
  match file with
  | inl _ => Panic
  | inr kubeconfig =>
      match kc_Contexts kubeconfig !! kc_CurrentContext kubeconfig with
      | None => Panic
      | Some clusterName =>
          match kc_Clusters kubeconfig !! clusterName with
          | None => Panic
          | Some apiURL => match ParseURL apiURL with inl _ => Panic | inr hostPort => Ok hostPort end
          end
      end
  end.
