(* ===== verification/Events.v ===== *)
(** * Which events wake the controllers

    The predicates on the annotations of nodes and node states
    (controllers/helper.go), where an event is given by the annotations of its
    objects, [None] for a nil object; the event handlers of the SetupWithManager
    methods; and what sharing the keys of the work queue gives the drain
    controller. *)
From S2P Require Import Prelude GoLib Types Kube DrainController OperatorConfig.

Definition DrainAnnotation_Create (obj : option (gmap string string)) : bool :=
  match obj with
  | None => false
  | Some annotations => bool_decide (is_Some (annotations !! NodeDrainAnnotation))
  end.

Definition DrainAnnotation_Update (old new : option (gmap string string)) : bool :=
  match old, new with
  | Some o, Some n =>
      let oldAnno := o !! NodeDrainAnnotation in
      let newAnno := n !! NodeDrainAnnotation in
      if negb (bool_decide (is_Some oldAnno)) && bool_decide (is_Some newAnno) then true
      else negb (String.eqb (default "" oldAnno) (default "" newAnno))
  | _, _ => false
  end.

Definition DrainState_Create (obj : option (gmap string string)) : bool := bool_decide (is_Some obj).

Definition DrainState_Update (old new : option (gmap string string)) : bool :=
  match old, new with
  | Some o, Some n =>
      let oldAnno := o !! NodeStateDrainAnnotationCurrent in
      let newAnno := n !! NodeStateDrainAnnotationCurrent in
      if negb (bool_decide (is_Some oldAnno)) || negb (bool_decide (is_Some newAnno)) then true
      else negb (String.eqb (default "" oldAnno) (default "" newAnno))
  | _, _ => false
  end.

(** No change of a request is missed, but for an empty one that is removed. *)
Lemma DrainAnnotation_Update_exact o n :
  DrainAnnotation_Update (Some o) (Some n) = false ↔
  o !! NodeDrainAnnotation = n !! NodeDrainAnnotation ∨
  o !! NodeDrainAnnotation = Some "" ∧ n !! NodeDrainAnnotation = None.
Proof.
  unfold DrainAnnotation_Update.
  destruct (o !! NodeDrainAnnotation) as [a|], (n !! NodeDrainAnnotation) as [b|]; cbn.
  - rewrite negb_false_iff, String.eqb_eq. naive_solver.
  - rewrite negb_false_iff, String.eqb_eq. naive_solver.
  - naive_solver.
  - naive_solver.
Qed.

(** The current state passes unless it is there before and after, unchanged. *)
Lemma DrainStateAnnotation_Update_exact o n :
  DrainState_Update (Some o) (Some n) = false ↔
  ∃ a, o !! NodeStateDrainAnnotationCurrent = Some a ∧ n !! NodeStateDrainAnnotationCurrent = Some a.
Proof.
  unfold DrainState_Update.
  destruct (o !! NodeStateDrainAnnotationCurrent) as [a|], (n !! NodeStateDrainAnnotationCurrent) as [b|]; cbn;
    [rewrite negb_false_iff, String.eqb_eq; naive_solver|naive_solver..].
Qed.

(** ** Event handlers *)

Inductive ObjEvent :=
| ECreate (obj : ObjectMeta)
| EUpdate (old new : ObjectMeta)
| EDelete (obj : ObjectMeta)
| EGeneric (obj : ObjectMeta).

(** A reconcile.Request: namespace and name. *)
Abbreviation Request := (string * string)%type.

(** *** The node policy controller *)

Definition nodePolicySyncEventName := "node-policy-sync-event".
(** Added after a second, so that events close together are one request. *)
Definition qHandler : list Request := [("", nodePolicySyncEventName)].

Definition delayedEventHandler (e : ObjEvent) : list Request := qHandler.

(** There is no handler for generic events of nodes. *)
Definition nodeEvenHandler (e : ObjEvent) : list Request :=
  match e with
  | ECreate _ | EDelete _ => qHandler
  | EUpdate old new => if bool_decide (om_Labels old = om_Labels new) then [] else qHandler
  | EGeneric _ => []
  end.

(** *** The operator configuration controller *)

Definition defaultConfigPredicate (Namespace : string) (object : ObjectMeta) : bool :=
  String.eqb (om_Name object) DefaultConfigName && String.eqb (om_Namespace object) Namespace.

(** *** The drain controller *)

(** The objects watched. *)
Inductive Watched := OnNode | OnNodeState.

Definition createUpdateEnqueue (Namespace : string) (e : ObjEvent) : list Request :=
  match e with
  | ECreate obj => [(Namespace, om_Name obj)]
  | EUpdate _ new => [(Namespace, om_Name new)]
  | EDelete _ | EGeneric _ => []
  end.

(** Its predicates; those it does not define let everything through. *)
Definition drainPredicate (w : Watched) (e : ObjEvent) : bool :=
  match w, e with
  | OnNode, ECreate obj => DrainAnnotation_Create (Some (om_Annotations obj))
  | OnNode, EUpdate old new => DrainAnnotation_Update (Some (om_Annotations old)) (Some (om_Annotations new))
  | OnNodeState, ECreate obj => DrainState_Create (Some (om_Annotations obj))
  | OnNodeState, EUpdate old new => DrainState_Update (Some (om_Annotations old)) (Some (om_Annotations new))
  | _, (EDelete _ | EGeneric _) => true
  end.

Definition drainRequests (Namespace : string) (w : Watched) (e : ObjEvent) : list Request :=
  if drainPredicate w e then createUpdateEnqueue Namespace e else [].

(** *** The daemon *)

(** predicate.Or of the two; for events other than updates they say yes. *)
Definition daemonEventFilter (e : ObjEvent) : bool :=
  match e with
  | EUpdate old new =>
      negb (bool_decide (om_Annotations old = om_Annotations new)) || negb (om_Generation old =? om_Generation new)
  | _ => true
  end.

(** The daemon's own reports do not wake it: a change of the status leaves the
    generation and the annotations alone.  The drain controller's answer and a
    new specification do. *)
Lemma daemonEventFilter_exact old new :
  daemonEventFilter (EUpdate old new) = false ↔
  om_Annotations old = om_Annotations new ∧ om_Generation old = om_Generation new.
Proof. cbn. rewrite orb_false_iff, !negb_false_iff, bool_decide_eq_true, Z.eqb_eq. done. Qed.

(** Every event of a policy or a pool asks for a sync, and every event of a node
    but an update that leaves its labels alone. *)
Lemma nodeEvenHandler_exact old new :
  nodeEvenHandler (EUpdate old new) = [] ↔ om_Labels old = om_Labels new.
Proof. cbn. case_bool_decide; [done|]. by split; [intros [=]|]. Qed.

(** ** The work queue

    What the queue of a controller promises: a request that is added is handed to
    a worker, but never while another worker has the same one; adding it
    meanwhile makes it wait for that worker, and adding it twice is adding it
    once.  [wq_delayed]: requests to be added again later. *)

Record WorkQueue := mkWorkQueue {
  wq_pending : gset Request;
  wq_delayed : gset Request;
  wq_workers : gmap nat Request;
}.

Section queue.
Context (Namespace : string).

Inductive wq_step : WorkQueue → WorkQueue → Prop :=
| wq_event q w e :
    wq_step q (mkWorkQueue (list_to_set (drainRequests Namespace w e) ∪ wq_pending q) (wq_delayed q) (wq_workers q))
| wq_get q worker r :
    r ∈ wq_pending q → wq_workers q !! worker = None → (∀ other, wq_workers q !! other ≠ Some r) →
    wq_step q (mkWorkQueue (wq_pending q ∖ {[r]}) (wq_delayed q) (<[worker := r]> (wq_workers q)))
| wq_done q worker r (requeue : bool) :
    wq_workers q !! worker = Some r →
    wq_step q (mkWorkQueue (wq_pending q) (if requeue then {[r]} ∪ wq_delayed q else wq_delayed q)
                 (delete worker (wq_workers q)))
| wq_time q r :
    r ∈ wq_delayed q →
    wq_step q (mkWorkQueue ({[r]} ∪ wq_pending q) (wq_delayed q ∖ {[r]}) (wq_workers q)).

Definition emptyQueue : WorkQueue := mkWorkQueue ∅ ∅ ∅.

Definition keyed (q : WorkQueue) : Prop :=
  (∀ r, r ∈ wq_pending q ∪ wq_delayed q → r.1 = Namespace) ∧
  (∀ worker r, wq_workers q !! worker = Some r → r.1 = Namespace) ∧
  ∀ w1 w2 r, wq_workers q !! w1 = Some r → wq_workers q !! w2 = Some r → w1 = w2.

Lemma drainRequests_key w e r : r ∈ drainRequests Namespace w e → r.1 = Namespace.
Proof using Type. unfold drainRequests. destruct (drainPredicate w e), e; cbn; set_solver. Qed.

Lemma keyed_step q q' : keyed q → wq_step q q' → keyed q'.
Proof using Type.
  intros (Hq & Hw & Hinj). destruct 1 as [q w e|q worker r Hr Hn Ho|q worker r requeue Hr|q r Hr]; (split_and!; [| |]); cbn.
  - intros r. rewrite !elem_of_union, elem_of_list_to_set. intros [[H|H]|H]; [by eapply drainRequests_key|..]; apply Hq; set_solver.
  - exact Hw.
  - exact Hinj.
  - intros r' H. apply Hq. set_solver.
  - intros w r' [[_ <-]|[_ H]]%lookup_insert_Some; [apply Hq; set_solver|by eapply Hw].
  - intros w1 w2 r' H1 H2. apply lookup_insert_Some in H1 as [[<- <-]|[N1 H1]], H2 as [[<- E2]|[N2 H2]];
      [done|by apply Ho in H2| |by eapply Hinj]. subst r'. by apply Ho in H1.
  - intros r' H. destruct (decide (r' = r)) as [->|Hne]; [by eapply Hw|]. apply Hq. destruct requeue; set_solver.
  - intros w r' [_ H]%lookup_delete_Some. by eapply Hw.
  - intros w1 w2 r' [_ H1]%lookup_delete_Some [_ H2]%lookup_delete_Some. by eapply Hinj.
  - intros r' H. apply Hq. set_solver.
  - exact Hw.
  - exact Hinj.
Qed.

Lemma keyed_reachable q : rtc wq_step emptyQueue q → keyed q.
Proof using Type.
  assert (H0 : keyed emptyQueue) by (split_and!; [set_solver|by intros ? ?|by intros ? ? ?]).
  revert q. apply rtc_ind_r; [done|]. intros q1 q2 _ Hs IH. by eapply keyed_step.
Qed.

(** C11: two workers of the drain controller never reconcile the same node at the
    same time, whatever events of nodes and of node states arrive and whichever
    requests are put back: both kinds of objects are queued under one key, the
    operator's namespace and the name of the node.  And an event that passes the
    predicates is not lost: its node waits for a worker. *)
Theorem drain_one_worker_per_node q :
  rtc wq_step emptyQueue q →
  (∀ w1 w2 r1 r2, wq_workers q !! w1 = Some r1 → wq_workers q !! w2 = Some r2 → r1.2 = r2.2 → w1 = w2) ∧
  ∀ w e q', drainPredicate w e = true →
    q' = mkWorkQueue (list_to_set (drainRequests Namespace w e) ∪ wq_pending q) (wq_delayed q) (wq_workers q) →
    match e with
    | ECreate obj | EUpdate _ obj => (Namespace, om_Name obj) ∈ wq_pending q'
    | _ => wq_pending q' = wq_pending q
    end.
Proof using Type.
  intros Hr. destruct (keyed_reachable q Hr) as (_ & Hw & Hinj). split.
  - intros w1 w2 [n1 m1] [n2 m2] H1 H2 E. cbn in E. subst m2. pose proof (Hw _ _ H1) as E1. pose proof (Hw _ _ H2) as E2.
    cbn in E1, E2. subst n1 n2. by eapply Hinj.
  - intros w e q' Hp ->. unfold drainRequests. rewrite Hp. destruct e; cbn; set_solver.
Qed.
End queue.

(** *** A run with two events of one node and two workers *)

Definition exampleMeta (current : string) : ObjectMeta :=
  mkObjectMeta "node-1" "ns" 1 {[NodeStateDrainAnnotationCurrent := current; NodeDrainAnnotation := current]} ∅ [].

Definition exampleQueue : WorkQueue :=
  mkWorkQueue {[("ns", "node-1")]} ∅ {[0%nat := ("ns", "node-1")]}.

Lemma exampleQueue_reachable : rtc (wq_step "ns") emptyQueue exampleQueue.
Proof.
  eapply rtc_l; [apply (wq_event "ns" emptyQueue OnNode (ECreate (exampleMeta "Idle")))|].
  eapply rtc_l; [apply (wq_get "ns" _ 0%nat ("ns", "node-1")); [set_solver|done|by intros]|].
  eapply rtc_l; [apply (wq_event "ns" _ OnNodeState (EUpdate (exampleMeta "Idle") (exampleMeta "Draining")))|].
  match goal with |- rtc _ ?q _ => replace q with exampleQueue by (vm_compute; reflexivity) end. apply rtc_refl.
Qed.

Lemma drain_one_worker_per_node_witness :
  (∀ w1 w2, wq_workers exampleQueue !! w1 = Some ("ns", "node-1") → wq_workers exampleQueue !! w2 = Some ("ns", "node-1") → w1 = w2) ∧
  wq_workers exampleQueue !! 0%nat = Some ("ns", "node-1").
Proof.
  split; [|reflexivity]. intros w1 w2 H1 H2.
  exact (proj1 (drain_one_worker_per_node "ns" exampleQueue exampleQueue_reachable) w1 w2 _ _ H1 H2 eq_refl).
Defined.
