(* ===== verification/DevicePlugin.v ===== *)
(** * The device plugin waits for the configuration
    (cmd/sriov-network-config-daemon/waitforconfig.go)

    The init container of the device plugin marks its pod with an annotation and
    waits until the daemon takes the mark away.  The file models the command and
    composes it with the daemon (Daemon.v): the device plugin starts only after
    a reconciliation of the daemon that found the node configured. *)
From S2P Require Import Prelude GoLib Types Conditions Effects Kube Daemon DaemonSafety.

(** ** The command *)

Inductive WaitReq :=
| WGetPod (name : string * string)
| WPatchPod (original obj : Pod)
| WSleep (milliseconds : Z).

Definition WaitResp (r : WaitReq) : Type :=
  match r with
  | WGetPod _ | WPatchPod _ _ => KubeError + Pod
  | WSleep _ => unit
  end%type.

Abbreviation waitM := (prog WaitResp).

(** wait.Backoff of apimachinery: durations in milliseconds, whole factors; the
    jitter, a random part added to every sleep, is left out. *)
Record Backoff := mkBackoff { b_Steps : nat; b_Duration : Z; b_Factor : Z; b_Cap : Z }.

(** [wait.ExponentialBackoff] with a condition that gives no error.  A step
    whose next duration would pass the cap sets the steps to zero; the result is
    [false] for ErrWaitTimeout. *)
Fixpoint backoffLoop (steps : nat) (duration factor cap : Z) (condition : waitM bool) : waitM bool :=
  match steps with
  | O => Ret false
  | S rest =>
      ok ← condition;
      if ok : bool then Ret true
      else match rest with
      | O => Ret false
      | _ =>
          perform (WSleep duration) ≫= λ _,
          let next := if factor =? 0 then duration else duration * factor in
          if negb (factor =? 0) && (0 <? cap) && (cap <? next) then Ret false
          else backoffLoop rest next factor cap condition
      end
  end.

Definition ExponentialBackoff (b : Backoff) (condition : waitM bool) : waitM bool :=
  backoffLoop (b_Steps b) (b_Duration b) (b_Factor b) (b_Cap b) condition.

Definition annotationBackoff : Backoff := mkBackoff 10 1000 2 30000.

(** One attempt of [setAnnotationOnPod]. *)
Definition annotatePod (podName : string * string) : waitM bool :=
  r ← perform (WGetPod podName);
  match r with
  | inl _ => Ret false
  | inr pod =>
      '(_, err) ← AnnotateObject (resp := WaitResp) (λ original obj, perform (WPatchPod original obj))
                    pod DevicePluginWaitConfigAnnotation "true";
      Ret (match err with Some _ => false | None => true end)
  end.

Definition setAnnotationOnPod (podName : string * string) : waitM bool :=
  ExponentialBackoff annotationBackoff (annotatePod podName).

(** Whether [Cancel] was called, and when to reconcile again, in seconds. *)
Definition wait_Reconcile (Pod req : string * string) : waitM (KubeError + bool * Z) :=
  if negb (bool_decide (Pod = req)) then Ret (inr (false, 0))
  else
    r ← perform (WGetPod req);
    match r with
    | inl e => Ret (if IsNotFound e then inr (false, 0) else inl e)
    | inr pod =>
        if negb (ObjectHasAnnotationKey pod DevicePluginWaitConfigAnnotation) then Ret (inr (true, 0))
        else Ret (inr (false, DaemonRequeueTime))
    end.

Definition validateWaitForConfigOpts (podName podNamespace : string) : option string :=
  if String.eqb podName "" then Some "--pod-name is required"
  else if String.eqb podNamespace "" then Some "--pod-namespace is required"
  else None.

(** The manager hands one request after the other to the reconciler until it
    cancels the manager's context. *)
Fixpoint reconcileUntilCancelled (podName : string * string) (reqs : list (string * string)) : waitM bool :=
  match reqs with
  | [] => Ret false
  | req :: rest =>
      r ← wait_Reconcile podName req;
      match r with
      | inr (true, _) => Ret true
      | _ => reconcileUntilCancelled podName rest
      end
  end.

Inductive WaitEnd :=
| WBadOptions (msg : string)
| WNotAnnotated            (* the backoff gave up *)
| WStillWaiting            (* all requests handled, the annotation is there *)
| WReleased.               (* the init container ends, the device plugin starts *)

(** The command with the requests its manager gets. *)
Definition runWaitForConfigCmd (podName podNamespace : string) (reqs : list (string * string)) : waitM WaitEnd :=
  match validateWaitForConfigOpts podName podNamespace with
  | Some e => Ret (WBadOptions e)
  | None =>
      ok ← setAnnotationOnPod (podNamespace, podName);
      if negb ok then Ret WNotAnnotated
      else
        released ← reconcileUntilCancelled (podNamespace, podName) reqs;
        Ret (if released : bool then WReleased else WStillWaiting)
  end.

(** ** When the daemon releases the device plugin *)

(** In the reconciliation with this conversation the daemon has applied all
    plugins (in systemd mode: found the services up to date, [all_applied]); or it found the generation it applied before, and no plugin saw a
    difference on the host. *)
Definition found_unchanged (dn : NodeReconciler) (h : dhistory) : Prop :=
  (∃ f, first_fetched h = Some f ∧ ns_Generation f = lastAppliedGeneration dn) ∧
  ∀ p, p ∈ mainPlugin dn :: additionalPlugins dn → ∃ s, existT (CheckStatusChanges p s) (inr false) ∈ h.

Definition configured (vars : Vars) (dn : NodeReconciler) (h : dhistory) : Prop :=
  all_applied vars dn h ∨ found_unchanged dn h.

Definition unmarked (pod : Pod) : Pod :=
  SetAnnotations (delete DevicePluginWaitConfigAnnotation (GetAnnotations pod)) pod.

Section releasing.
Context (vars : Vars) (attempts : nat) (dn : NodeReconciler).

(** The guarantee: pods are patched only when the node is configured, and the
    patch takes the mark away. *)
Definition release_allowed (h : dhistory) (r : DaemonReq) : Prop :=
  match r with
  | PatchPod original obj => configured vars dn h ∧ obj = unmarked original
  | _ => True
  end.
Abbreviation G := release_allowed.

Lemma found_unchanged_prefix h h' : h `prefix_of` h' → found_unchanged dn h → found_unchanged dn h'.
Proof using Type.
  intros Hp [(f & Hf & Hg) H]. split.
  - exists f. split; [by eapply first_fetched_prefix|done].
  - intros p Hin. destruct (H p Hin) as [s Hs]. exists s. destruct Hp as [t ->]. apply elem_of_app. by left.
Qed.

(** *** Parts that patch no pod *)

Definition unpatching (r : DaemonReq) : bool := match r with PatchPod _ _ => false | _ => true end.
Abbreviation quiet := (steady dw G prefix).

Lemma quiet_of {A} (p : daemonM A) : only unpatching p → quiet p.
Proof using Type.
  apply only_steady; [apply _|]. intros r Hr. apply (steady_perform dw G prefix r); [by destruct r|].
  intros h x h' ->. by exists [existT r x].
Qed.

#[local] Hint Extern 1 (steady (free_world _) _ _ (perform _)) => only_request : steady.

Lemma unpatching_recordTransitions obj ts :
  only unpatching (recordTransitions (resp := DaemonResp)
    (λ o t reason message, perform (Eventf o t reason message)) obj ts).
Proof. induction ts; cbn [recordTransitions]; steady. Qed.
#[local] Hint Resolve unpatching_recordTransitions : steady.

Lemma unpatching_updateSyncState s st msg w : only unpatching (updateSyncState s st msg w).
Proof. unfold updateSyncState, ApplyStatus, recordStatusChangeEvent. steady. Qed.
#[local] Hint Resolve unpatching_updateSyncState : steady.

Lemma unpatching_annotate s v : only unpatching (annotate s v).
Proof. unfold annotate, annotateState, AnnotateNode, AnnotateObject. steady. Qed.
#[local] Hint Resolve unpatching_annotate : steady.

Lemma unpatching_addRemove s : only unpatching (addRemoveExternalDrainerAnnotation vars s).
Proof using Type. unfold addRemoveExternalDrainerAnnotation, annotateState, AnnotateObject, kube. steady. Qed.

Lemma unpatching_updateStatusFromHost s : only unpatching (updateStatusFromHost vars s).
Proof using Type. unfold updateStatusFromHost, host. steady. Qed.

Lemma unpatching_poll {A} n (c : daemonM (DaemonError + option A)) : only unpatching c → only unpatching (poll n c).
Proof. intros Hc. induction n; cbn [poll]; steady. Qed.
#[local] Hint Resolve unpatching_poll : steady.

Lemma unpatching_podExited pod : only unpatching (podExited pod).
Proof. unfold podExited. steady. Qed.
#[local] Hint Resolve unpatching_podExited : steady.

Lemma unpatching_restartPods pods : only unpatching (restartPods attempts pods).
Proof using Type. induction pods as [|pod pods IH]; cbn [restartPods]; steady. Qed.
#[local] Hint Resolve unpatching_restartPods : steady.

Lemma unpatching_restart : only unpatching (restartDevicePluginPod attempts).
Proof using Type. unfold restartDevicePluginPod, getDevicePluginPodsForNode, kube. steady. Qed.

Lemma unpatching_podWaiting : only unpatching podWaiting.
Proof. unfold podWaiting, getDevicePluginPodsForNode, kube. steady. Qed.
#[local] Hint Resolve unpatching_podWaiting : steady.

Lemma unpatching_checkAdditional ps s r d : only unpatching (checkAdditional ps s r d).
Proof. revert r d. induction ps as [|p ps IH]; intros r d; cbn [checkAdditional]; unfold host; steady. Qed.
#[local] Hint Resolve unpatching_checkAdditional : steady.

Lemma unpatching_checkOnNodeStateChange s : only unpatching (checkOnNodeStateChange dn s).
Proof using Type. unfold checkOnNodeStateChange, host. steady. Qed.

Lemma unpatching_CheckSystemdStatus : only unpatching (CheckSystemdStatus vars).
Proof using Type. unfold CheckSystemdStatus, host. steady. Qed.

Lemma unpatching_writeSystemdConfigFile s : only unpatching (writeSystemdConfigFile s).
Proof. unfold writeSystemdConfigFile, host, hostE. steady. Qed.

Lemma unpatching_handleDrain s r : only unpatching (handleDrain vars s r).
Proof using Type. unfold handleDrain. steady. Qed.

Lemma unpatching_applyReboot s : only unpatching (applyReboot s).
Proof. unfold applyReboot, rebootNode, host, hostE. steady. Qed.

(** *** The two places that release pods *)

Lemma configured_prefix h h' : h `prefix_of` h' → configured vars dn h → configured vars dn h'.
Proof using Type.
  intros Hp [H|H]; [left; by eapply all_applied_prefix|right; by eapply found_unchanged_prefix].
Qed.

Lemma prefix_same (h : dhistory) : h `prefix_of` h.
Proof. reflexivity. Qed.

Lemma wp_unblockPods pods (h : w_state dw) :
  configured vars dn h → wp dw G (unblockPods pods) (λ _ h', h `prefix_of` h') h.
Proof using Type.
  revert h. induction pods as [|pod pods IH]; intros h Hc; cbn [unblockPods]; [by apply wp_ret|].
  apply wp_try. unfold kubeE, RemoveAnnotationFromObject. apply wp_bind.
  destruct (_ !! _); [|by apply IH]. apply wp_perform; [by split|].
  intros x h1 ->. set (h1 := h ++ _). assert (Hp : h `prefix_of` h1) by (by eexists). clearbody h1.
  destruct x as [e|o]; cbn -[unblockPods]; [exact Hp|].
  eapply (wp_post dw G (unblockPods pods)); [apply IH; by eapply configured_prefix|].
  intros r h2 H2. by transitivity h1.
Qed.

Lemma wp_tryUnblock s pods (h : w_state dw) :
  configured vars dn h → wp dw G (tryUnblockDevicePlugin s pods) (λ _ h', h `prefix_of` h') h.
Proof using Type. intros Hc. unfold tryUnblockDevicePlugin. case_bool_decide; [exact (prefix_same h)|by apply wp_unblockPods]. Qed.

Lemma wp_finishApply_release s res g (h : w_state dw) :
  all_applied vars dn h → wp dw G (finishApply vars attempts dn s res g) (λ _ _, True) h.
Proof using Type.
  intros Happ. unfold finishApply. apply wp_bind.
  eapply (wp_post dw G _ (λ _ _, True)).
  - destruct (BlockDevicePluginUntilConfigured vars).
    2:{ eapply wp_post; [apply quiet_of, unpatching_restart|done]. }
    case_bool_decide; [done|]. unfold waitForDevicePluginPodAndTryUnblock.
    apply (wp_steady_try dw G prefix); [apply quiet_of, unpatching_poll, unpatching_podWaiting|done|].
    intros [pods|] h1 Hp; [|done]. eapply wp_post; [apply wp_tryUnblock|done].
    left. by eapply all_applied_prefix.
  - intros r h1 _. eapply wp_post; [|done]. apply quiet_of.
    destruct r as [e|[]]; [steady|]. steady; apply unpatching_updateStatusFromHost.
Qed.

Lemma wp_PluginApply_release p (h : w_state dw) :
  wp dw G (hostE (perform (PluginApply p))) (λ r h', h `prefix_of` h' ∧ (r = inr tt → applied p ∈ h')) h.
Proof using Type.
  unfold hostE. apply wp_perform; [done|]. intros x h1 ->. apply wp_ret. split; [by eexists|].
  destruct x as [e|]; [done|]. intros _. set_solver.
Qed.

Lemma wp_applyPlugins_release ps (h : w_state dw) :
  wp dw G (applyPlugins ps) (λ r h', h `prefix_of` h' ∧ (r = inr tt → ∀ p, p ∈ ps → applied p ∈ h')) h.
Proof using Type.
  revert h. induction ps as [|p ps IH]; intros h; cbn [applyPlugins].
  { apply wp_ret. split; [done|set_solver]. }
  apply wp_try. eapply wp_post; [apply wp_PluginApply_release|].
  intros [e|[]] h1 [E1 A1]; [done|]. eapply wp_post; [apply IH|].
  intros r h2 [E2 A2]. split; [by transitivity h1|]. intros -> q [->|Hq]%elem_of_cons; [|by apply A2].
  destruct E2 as [t ->]. apply elem_of_app. left. by apply A1.
Qed.

Lemma wp_apply_release s reboot res g (h : w_state dw) :
  (UsingSystemdMode vars = true → reboot = false → service_current h) →
  wp dw G (apply_ vars attempts dn s reboot res g) (λ _ _, True) h.
Proof using Type.
  intros Hsrv. unfold apply_. apply wp_bind.
  eapply (wp_post dw G _ (λ r h', r = inr tt → reboot = false → all_applied vars dn h')).
  - apply (wp_steady_try dw G prefix).
    { apply quiet_of. destruct (BlockDevicePluginUntilConfigured vars); [apply unpatching_restart|steady]. }
    { done. }
    intros [] h1 H1. apply wp_try. eapply wp_post; [apply wp_applyPlugins_release|].
    intros [e|[]] h2 [H2 A2]; [done|]. specialize (A2 eq_refl). destruct (negb reboot && _) eqn:Hmain.
    + eapply wp_post; [apply wp_PluginApply_release|]. intros r h3 [[t ->] A3] -> ->. split.
      { intros p Hp. apply elem_of_app. left. by apply A2. }
      destruct (UsingSystemdMode vars); [discriminate Hmain|auto].
    + apply wp_ret. intros _ ->. split; [done|]. destruct (UsingSystemdMode vars); [|discriminate Hmain].
      apply (service_current_prefix h); [by transitivity h1|auto].
  - intros [e|[]] h1 A1; [done|]. destruct reboot; [|by apply wp_finishApply_release; auto].
    eapply wp_post; [|done]. apply quiet_of. steady. apply unpatching_applyReboot.
Qed.

Lemma wp_drainAndApply_release s reboot drain res g (h : w_state dw) :
  (UsingSystemdMode vars = true → reboot = false → service_current h) →
  wp dw G (drainAndApply vars attempts dn s reboot drain res g) (λ _ _, True) h.
Proof using Type.
  intros Hsrv. unfold drainAndApply. apply (wp_steady_bind dw G prefix).
  { apply quiet_of. destruct (_ || _); [apply unpatching_handleDrain|steady]. }
  intros [s2 [e|[]]] h3 H3; [done| |].
  - eapply wp_post; [|done]. apply quiet_of. steady.
  - destruct (isDrainCompleted vars drain s2); [apply wp_apply_release|done].
    intros H1 H2. by apply (service_current_prefix h); [|apply Hsrv].
Qed.

Lemma wp_configure_release s res ex g f (h : w_state dw) :
  first_fetched h = Some f → ns_Spec s = ns_Spec f → (ex = true → result_read h) →
  wp dw G (configure vars attempts dn s res ex g) (λ _ _, True) h.
Proof using Type.
  intros Hf Hs Hex. unfold configure. apply wp_bind.
  eapply wp_post; [eapply wp_transfer; [apply quiet_of, unpatching_updateSyncState|apply (wp_updateSyncState vars dn)]|].
  intros [s1 [e|]] h1 (H1 & _ & Hs1 & _); [done|]. destruct (negb _); [done|]. cbn in Hs1.
  apply (wp_steady_bind dw G prefix); [apply quiet_of, unpatching_checkOnNodeStateChange|].
  intros [e|[reboot drain]] h2 H2; [done|].
  destruct (UsingSystemdMode vars) eqn:Hmode; [|by apply wp_drainAndApply_release; rewrite Hmode].
  apply wp_bind. eapply wp_post.
  { eapply wp_transfer; [apply quiet_of, unpatching_writeSystemdConfigFile|apply (wp_writeSystemdConfigFile vars dn)]. }
  intros [e|m] h3 (H3 & _ & _ & W3); [done|].
  assert (H03 : h `prefix_of` h3) by (by transitivity h1; [|transitivity h2]).
  apply wp_drainAndApply_release.
  intros _ [_ [[_ ->]%orb_false_elim Hx%negb_false_iff]%orb_false_elim]%orb_false_elim.
  destruct (Hex Hx) as [r Hr]. split.
  - exists s1, f. split_and!; [by eapply first_fetched_prefix|congruence|by apply W3].
  - exists r. by eapply prefix_elem.
Qed.

Lemma wp_checkPlugins_release ps s (h : w_state dw) :
  wp dw G (checkPlugins ps s)
    (λ r h', h `prefix_of` h' ∧ (r = inr false → ∀ p, p ∈ ps → existT (CheckStatusChanges p s) (inr false) ∈ h')) h.
Proof using Type.
  revert h. induction ps as [|p ps IH]; intros h; cbn [checkPlugins].
  { apply wp_ret. split; [done|set_solver]. }
  unfold host. apply wp_try, wp_bind, wp_perform; [done|]. intros x h1 ->.
  destruct x as [e|[]]; cbn -[checkPlugins]; [split; [by eexists|done]..|].
  eapply (wp_post dw G (checkPlugins ps s)); [apply IH|]. intros r h2 [[t ->] A]. split.
  - eexists. by rewrite <- app_assoc.
  - intros -> q [->|Hq]%elem_of_cons; [set_solver|by apply A].
Qed.

(** Without drift on a node with interfaces, every plugin was asked. *)
Lemma wp_drift_release s (h : w_state dw) :
  wp dw G (checkHostStateDrift dn s)
    (λ r h', h `prefix_of` h' ∧ ns_Spec r.1 = ns_Spec s ∧
       (r.2 = inr false → nss_Interfaces (ns_Spec s) ≠ [] →
        ∀ p, p ∈ mainPlugin dn :: additionalPlugins dn → ∃ s, existT (CheckStatusChanges p s) (inr false) ∈ h')) h.
Proof using Type.
  unfold checkHostStateDrift. destruct (_ && _) eqn:Hfirst.
  - bool_hyps. apply (wp_steady_bind dw G prefix); [apply quiet_of; steady|].
    intros [e|] h1 H1; [done|]. destruct (_ || _); [|done]. apply wp_bind.
    eapply wp_post; [eapply wp_transfer; [apply quiet_of, unpatching_updateSyncState|apply (wp_updateSyncState vars dn)]|].
    intros [s1 err] h2 (H2 & _ & Hs & _). apply wp_ret. cbn in *. split_and!; [by transitivity h1|done|].
    intros _ Hne. by exfalso.
  - apply wp_bind. eapply wp_post; [apply wp_checkPlugins_release|]. intros r h1 [H1 A]. apply wp_ret. cbn.
    split_and!; [done..|]. intros -> _ p Hp. eauto.
Qed.

Lemma wp_refresh_release c s f (h : w_state dw) :
  first_fetched h = Some f → ns_Generation f = lastAppliedGeneration dn →
  wp dw G (refresh vars dn c s) (λ _ _, True) h.
Proof using Type.
  intros Hf Hg. unfold refresh. apply wp_bind. eapply wp_post; [apply wp_drift_release|].
  intros [s1 [e|[]]] h1 (H1 & Hs1 & A); [done..|]. cbn [fst snd] in *. specialize (A eq_refl). apply wp_bind.
  eapply (wp_post dw G _ (λ r h', h1 `prefix_of` h' ∧ ns_Spec r.1 = ns_Spec s)).
  { destruct (shouldUpdateStatus c s1); [|done].
    eapply wp_post; [eapply wp_transfer; [apply quiet_of, unpatching_updateSyncState|apply (wp_updateSyncState vars dn)]|].
    intros r h2 (H2 & _ & Hs2 & _). split; [done|congruence]. }
  intros [s2 [e|]] h2 [H2 Hs2]; [done|]. cbn in Hs2. apply wp_bind. eapply (wp_post dw G _ (λ _ _, True)); [|done].
  destruct (_ && _) eqn:Hb; [|done]. bool_hyps. rewrite Hs2 in *.
  apply (wp_steady_try dw G prefix); [unfold getDevicePluginPodsForNode, kube; apply quiet_of; steady|done|].
  intros pods h3 H3. eapply wp_post; [apply wp_tryUnblock|done]. right.
  apply (found_unchanged_prefix h2); [done|]. split.
  - exists f. split; [|done]. do 2 (eapply first_fetched_prefix; [eassumption|]). done.
  - intros p Hp. destruct (A ltac:(done) p Hp) as [s' Hs']. exists s'. destruct H2 as [t ->]. apply elem_of_app. by left.
Qed.

Lemma wp_Reconcile_release name : wp dw G (Reconcile vars attempts dn name) (λ _ _, True) [].
Proof using Type.
  unfold Reconcile. apply wp_perform; [done|]. intros x h1 ->. destruct x as [e|f]; [done|].
  set (h1 := [] ++ _). assert (Hf : first_fetched h1 = Some f) by done. clearbody h1.
  apply (wp_steady_bind dw G prefix); [apply quiet_of, unpatching_addRemove|].
  intros [e|[]] h2 H2; [done..|]. apply (first_fetched_prefix _ _ _ H2) in Hf. destruct (_ || _); [done|].
  apply wp_bind. eapply wp_post.
  { eapply wp_transfer; [apply quiet_of, unpatching_updateStatusFromHost|apply (wp_updateStatusFromHost vars dn)]. }
  cbn beta. intros [e|s] h3 (H3 & _ & Hs); [done|]. apply (first_fetched_prefix _ _ _ H3) in Hf.
  specialize (Hs s eq_refl). apply wp_bind. eapply wp_post.
  { eapply wp_transfer; [apply quiet_of, unpatching_CheckSystemdStatus|apply (wp_CheckSystemdStatus vars dn)]. }
  cbn beta. intros [e|[res ex]] h4 (H4 & _ & Hr).
  { eapply wp_post; [|done]. apply quiet_of. steady. }
  apply (first_fetched_prefix _ _ _ H4) in Hf. destruct (Hr _ _ eq_refl) as [_ Hres].
  destruct (lastAppliedGeneration dn =? ns_Generation f) eqn:Hg.
  2:{ apply wp_configure_release with f; [done..|]. intros Hx. by apply Hres. }
  apply wp_bind. eapply wp_post.
  { eapply wp_transfer; [by eapply wp_refresh_release; [exact Hf|bool_hyps]|apply (wp_refresh vars dn)]. }
  cbn beta. intros [s1 [e|[r|]]] h5 (_ & H5%unasking_prefix & Hs5); [done..|]. cbn in Hs5.
  apply wp_configure_release with f; [by eapply first_fetched_prefix|congruence|].
  intros Hx. destruct (Hres Hx) as [_ [r Hr']]. exists r. by eapply prefix_elem.
Qed.
End releasing.

(** ** The pod, the init container and the daemon

    [ps_released]: ghost state, the reconciliations of the daemon (settings,
    reconciler, conversation so far) whose patch of the pod took effect. *)

Record PodState := mkPodState {
  ps_pod : option Pod;
  ps_released : list (Vars * NodeReconciler * dhistory);
}.

Definition mark (pod : Pod) : option string := GetAnnotations pod !! DevicePluginWaitConfigAnnotation.

(** The API server: any request may fail, a patch before or after its effect. *)
Definition pod_server (s : PodState) (r : WaitReq) : WaitResp r → PodState → Prop :=
  match r with
  | WGetPod _ => λ x s', s' = s ∧ match x with inr pod => ps_pod s = Some pod | inl _ => True end
  | WPatchPod original obj => λ x s',
      match x with
      | inl _ => s' = s ∨ s' = mkPodState (patch_object original obj <$> ps_pod s) (ps_released s)
      | inr pod => Some pod = patch_object original obj <$> ps_pod s ∧ s' = mkPodState (Some pod) (ps_released s)
      end
  | WSleep _ => λ _ s', s' = s
  end.

(** Meanwhile: a daemon, whose reconciliation may be interrupted anywhere,
    patches the pod; somebody changes something else of it; it is deleted. *)
Inductive pod_others : PodState → PodState → Prop :=
| daemon_patches s pod vars attempts dn name n tr res h' h original obj :
    exec dw (cut n (Reconcile vars attempts dn name)) [] tr res h' →
    (h, PatchPod original obj) ∈ tr → ps_pod s = Some pod →
    pod_others s (mkPodState (Some (patch_object original obj pod)) (ps_released s ++ [(vars, dn, h)]))
| others_change s pod pod' :
    ps_pod s = Some pod → mark pod' = mark pod → pod_others s (mkPodState (Some pod') (ps_released s))
| pod_deleted s : pod_others s (mkPodState None (ps_released s)).

Abbreviation pod_world := (shared_world pod_server pod_others).
Abbreviation wpd := (wp pod_world (λ _ _, True)).

Definition released_ok (c : Vars * NodeReconciler * dhistory) : Prop := configured c.1.1 c.1.2 c.2.

(** The releases since [base]; all of a configured node. *)
Definition since (base : list (Vars * NodeReconciler * dhistory)) (s : PodState) t : Prop :=
  ps_released s = base ++ t ∧ Forall released_ok t.

(** The pod is marked, unless it was released or deleted since. *)
Definition held base (s : PodState) : Prop :=
  ∃ t, since base s t ∧ (t ≠ [] ∨ ps_pod s = None ∨ ∃ pod v, ps_pod s = Some pod ∧ mark pod = Some v).

Lemma daemon_release_ok vars attempts dn name n tr res h' h original obj :
  exec dw (cut n (Reconcile vars attempts dn name)) [] tr res h' → (h, PatchPod original obj) ∈ tr →
  released_ok (vars, dn, h).
Proof.
  intros Hex Hin.
  assert (Hwp : wp dw (release_allowed vars dn) (cut n (Reconcile vars attempts dn name)) (λ _ _, True) []).
  { apply (wp_cut dw _ (λ _, True) _ n (λ _ _, True)); [done..|apply wp_Reconcile_release]. }
  destruct (wp_exec _ _ _ _ _ _ _ _ Hwp Hex) as [_ Htr]. rewrite Forall_forall in Htr.
  apply Htr in Hin as [Hc _]. exact Hc.
Qed.

Lemma since_others base s s' t : pod_others s s' → since base s t → ∃ t', since base s' t' ∧ t `prefix_of` t'.
Proof.
  intros H [Hr Hok]. destruct H.
  - exists (t ++ [(vars, dn, h)]). split; [|by eexists]. split; cbn; [by rewrite Hr, app_assoc|].
    apply Forall_app. split; [done|]. constructor; [|done]. by eapply daemon_release_ok.
  - by exists t.
  - by exists t.
Qed.

Lemma held_others base s s' : held base s → pod_others s s' → held base s'.
Proof.
  intros (t & Hs & H) Ho. pose proof (since_others _ _ _ _ Ho Hs) as (t' & Hs' & Hp). exists t'. split; [done|].
  destruct H as [Ht|H].
  { left. intros ->. apply prefix_nil_inv in Hp. done. }
  destruct Ho as [s pod vars attempts dn name n tr res h' h original obj Hex Hin Hpod|s pod pod' Hpod Hm|s].
  - left. intros ->. destruct Hs' as [E _], Hs as [E' _]. cbn in E. rewrite E' in E.
    apply (f_equal length) in E. rewrite !length_app in E. cbn in E. lia.
  - right. destruct H as [H|(q & v & Hq & Hv)]; [congruence|]. right. exists pod', v.
    split; [done|]. rewrite Hq in Hpod. injection Hpod as <-. by rewrite Hm.
  - right. by left.
Qed.

Lemma held_rtc base s s' : rtc pod_others s s' → held base s → held base s'.
Proof. induction 1 as [|s1 s2 s3 Ho _ IH]; [done|]. intros Hh. by apply IH, (held_others _ s1). Qed.

Lemma since_rtc base s s' t : rtc pod_others s s' → since base s t → ∃ t', since base s' t'.
Proof.
  intros H. revert t. induction H as [|s1 s2 s3 Ho _ IH]; intros t Hs; [eauto|].
  destruct (since_others _ _ _ _ Ho Hs) as (t' & Hs' & _). by eapply IH.
Qed.

Lemma patch_marks (pod cur : Pod) v :
  default "" (mark pod) ≠ v →
  mark (patch_object pod (SetAnnotations (<[DevicePluginWaitConfigAnnotation := v]> (GetAnnotations pod)) pod) cur) = Some v.
Proof.
  intros Hv. unfold mark, patch_object, SetLabels, GetAnnotations. rewrite obj_meta_set. cbn.
  rewrite merge_patch_lookup, lookup_insert_eq, decide_False; [done|]. intros E. apply Hv.
  change (mark pod) with (om_Annotations (pod_meta pod) !! DevicePluginWaitConfigAnnotation). by rewrite E.
Qed.

(** An attempt that succeeds leaves the pod held. *)
Lemma annotatePod_holds base s name :
  (∃ t, since base s t) →
  wpd (annotatePod name) (λ ok s', (∃ t, since base s' t) ∧ (ok = true → held base s')) s.
Proof.
  intros [t Ht]. unfold annotatePod. apply wp_perform; [done|]. intros x s1 (s0 & [-> Hx] & Ho).
  pose proof (since_rtc _ _ _ _ Ho Ht) as Hs1. destruct x as [e|pod]; [by split|].
  unfold AnnotateObject. apply wp_bind. destruct (String.eqb _ _) eqn:Heq.
  - apply wp_ret. split; [done|]. intros _. apply (held_rtc base s); [done|]. exists t. split; [done|]. right. right.
    apply String.eqb_eq in Heq. exists pod, "true". split; [done|]. unfold mark.
    destruct (GetAnnotations pod !! _) as [a|]; cbn in Heq; [by rewrite Heq|discriminate Heq].
  - apply wp_perform; [done|]. apply String.eqb_neq in Heq. clear Ht Hx Ho. destruct Hs1 as [t1 Ht1].
    intros x s3 (s2 & Hx & Ho). destruct x as [e|q]; apply wp_ret; cbn beta iota.
    + split; [|done]. eapply (since_rtc base s2 s3 t1); [done|]. by destruct Hx as [->| ->].
    + destruct Hx as [Hq ->].
      assert (Hheld : held base (mkPodState (Some q) (ps_released s1))).
      { exists t1. split; [done|]. right. right. destruct (ps_pod s1) as [cur|]; [|done]. injection Hq as ->.
        eexists _, "true". split; [done|]. by apply patch_marks. }
      apply (held_rtc base _ _ Ho) in Hheld. cbn. split; [|done]. destruct Hheld as (t' & H & _). eauto.
Qed.

Lemma backoff_holds base steps duration factor cap name s :
  (∃ t, since base s t) →
  wpd (backoffLoop steps duration factor cap (annotatePod name))
    (λ ok s', (∃ t, since base s' t) ∧ (ok = true → held base s')) s.
Proof.
  revert duration s. induction steps as [|steps IH]; intros duration s Hs; cbn [backoffLoop]; [by apply wp_ret|].
  apply wp_bind. eapply wp_post; [by apply annotatePod_holds|]. intros [] s1 [H1 Hh]; [by apply wp_ret|].
  destruct steps as [|steps]; [by apply wp_ret|]. apply wp_perform; [done|].
  intros [] s2 (s1' & -> & Ho). destruct H1 as [t1 Ht1]. apply (since_rtc _ _ _ _ Ho) in Ht1.
  destruct (_ && _); [by apply wp_ret|]. by apply IH.
Qed.

(** The reconciler cancels only a wait that was released. *)
Lemma wait_Reconcile_released base s pod req :
  held base s →
  wpd (wait_Reconcile pod req)
    (λ r s', held base s' ∧ ∀ z, r = inr (true, z) → ∃ t, since base s' t ∧ t ≠ []) s.
Proof.
  intros Hh. unfold wait_Reconcile. destruct (negb _); [by apply wp_ret|]. apply wp_perform; [done|].
  intros x s1 (s0 & [-> Hx] & Ho). pose proof (held_rtc _ _ _ Ho Hh) as H1.
  destruct x as [e|p]; [apply wp_ret; split; [done|]; by destruct (IsNotFound e)|].
  destruct (negb _) eqn:Hm; apply wp_ret; [|done]. split; [done|]. intros z _. bool_hyps.
  destruct Hh as (t & Ht & H).
  assert (Hne : t ≠ []).
  { destruct H as [H|[H|(q & v & Hq & Hv)]]; [done|congruence|].
    rewrite Hx in Hq. injection Hq as <-. exfalso. apply bool_decide_eq_false in Hm. apply Hm. by exists v. }
  assert (Hgrow : ∀ a b, rtc pod_others a b → ∀ t, since base a t → t ≠ [] → ∃ t', since base b t' ∧ t' ≠ []).
  { induction 1 as [|a b c Hab _ IH]; [eauto|]. intros u Hu Hun.
    destruct (since_others _ _ _ _ Hab Hu) as (u' & Hu' & Hp). apply (IH u'); [done|].
    intros ->. by apply prefix_nil_inv in Hp. }
  by apply (Hgrow _ _ Ho t).
Qed.

Lemma reconcileUntilCancelled_released base pod reqs s :
  held base s →
  wpd (reconcileUntilCancelled pod reqs) (λ b s', b = true → ∃ t, since base s' t ∧ t ≠ []) s.
Proof.
  revert s. induction reqs as [|req reqs IH]; intros s Hh; cbn [reconcileUntilCancelled]; [by apply wp_ret|].
  apply wp_bind. eapply wp_post; [by apply wait_Reconcile_released|].
  intros [e|[[] z]] s1 [H1 H2]; [by apply IH| |by apply IH]. apply wp_ret. intros _. by eapply H2.
Qed.

(** C10: the device plugin starts only on a configured node: when its init
    container ends, then since it began a reconciliation of the daemon, possibly
    an interrupted one, has released the pod, and before that it had applied the
    vendor plugins and the main plugin; or, in systemd mode, the vendor plugins,
    with the file of the services up to date and a result of theirs there (also
    a failed one); or it had found the generation it applied before with no
    plugin seeing a difference on the host. *)
Theorem device_plugin_starts_configured podName podNamespace reqs s :
  wpd (runWaitForConfigCmd podName podNamespace reqs)
    (λ r s', r = WReleased →
       ∃ t vars dn h, ps_released s' = ps_released s ++ t ∧ (vars, dn, h) ∈ t ∧ configured vars dn h) s.
Proof.
  unfold runWaitForConfigCmd. destruct (validateWaitForConfigOpts _ _); [done|]. apply wp_bind.
  eapply wp_post; [apply (backoff_holds (ps_released s)); exists []; split; [by rewrite app_nil_r|done]|].
  intros [] s1 [_ Hh]; [|done]. apply wp_bind.
  eapply wp_post; [apply reconcileUntilCancelled_released; by apply Hh|].
  intros [] s2 H; apply wp_ret; [|done]. intros _. destruct (H eq_refl) as ([|[[vars dn] h] t] & [E Hok] & Hne); [done|].
  exists ((vars, dn, h) :: t), vars, dn, h. inversion Hok as [|? ? Hc _]; subst. split_and!; [done|set_solver|exact Hc].
Qed.

(** *** A pod, released by a daemon that has configured the node *)

Definition freshPod : Pod := mkPod (mkObjectMeta "dp" "ns" 1 ∅ ∅ []) "uid".
Definition waitingPod : Pod :=
  SetAnnotations (<[DevicePluginWaitConfigAnnotation := "true"]> (GetAnnotations freshPod)) freshPod.

Definition interfaceState : SriovNetworkNodeState :=
  mkNodeState (ns_meta (sample_state DrainIdle DrainIdle))
    (mkNodeStateSpec [mkInterface "0000:3b:00.0" 2 0 "ens1" "eth" "" [] false] (mkBridges []) (mkSystem "" ∅))
    (ns_Status (sample_state DrainIdle DrainIdle)).

Definition blocking : Vars := mkVars false false false false true.

Definition listing (h : dhistory) (r : DaemonReq) : DaemonResp r * dhistory :=
  let x := match r return DaemonResp r with ListPods => inr [waitingPod] | r => answer interfaceState (false, false) r end in
  (x, h ++ [existT r x]).

Lemma listing_exec n :
  exec dw (cut n (Reconcile blocking 3 sample_daemon "n1")) []
    (trace listing (cut n (Reconcile blocking 3 sample_daemon "n1")) [])
    (run listing (cut n (Reconcile blocking 3 sample_daemon "n1")) []).1
    (run listing (cut n (Reconcile blocking 3 sample_daemon "n1")) []).2.
Proof. apply (run_exec dw listing (λ _, True)); [done|exact I]. Qed.

(** The patch of that daemon. *)
Lemma listing_patches :
  ∃ h, (h, PatchPod waitingPod (unmarked waitingPod)) ∈ trace listing (cut 100 (Reconcile blocking 3 sample_daemon "n1")) [].
Proof.
  assert (H : filter (λ r, unpatching r = false) (snd <$> trace listing (cut 100 (Reconcile blocking 3 sample_daemon "n1")) []) =
    [PatchPod waitingPod (unmarked waitingPod)]) by (vm_compute; reflexivity).
  assert (Hin : PatchPod waitingPod (unmarked waitingPod) ∈ [PatchPod waitingPod (unmarked waitingPod)]) by set_solver.
  rewrite <- H in Hin. apply list_elem_of_filter in Hin as [_ ([h r] & E & Hr)%list_elem_of_fmap].
  cbn in E. subst r. by exists h.
Qed.

Definition releasedPod : Pod := patch_object waitingPod (unmarked waitingPod) waitingPod.

Lemma released_run h :
  (h, PatchPod waitingPod (unmarked waitingPod)) ∈ trace listing (cut 100 (Reconcile blocking 3 sample_daemon "n1")) [] →
  ∃ tr, exec pod_world (runWaitForConfigCmd "dp" "ns" [("ns", "dp")]) (mkPodState (Some freshPod) []) tr WReleased
     (mkPodState (Some releasedPod) [(blocking, sample_daemon, h)]).
Proof.
  intros Hh. eexists. unfold runWaitForConfigCmd. cbn [validateWaitForConfigOpts String.eqb Ascii.eqb Bool.eqb].
  unfold setAnnotationOnPod, ExponentialBackoff. cbn [b_Steps annotationBackoff backoffLoop].
  unfold annotatePod at 1. cbn [mbind prog_mbind prog_bind perform].
  eapply (exec_vis pod_world (WGetPod ("ns", "dp")) _ _ (inr freshPod)).
  { eexists. split; [by split|reflexivity]. }
  unfold AnnotateObject. cbn [mbind prog_mbind prog_bind perform String.eqb].
  eapply (exec_vis pod_world (WPatchPod freshPod waitingPod) _ _ (inr waitingPod)).
  { exists (mkPodState (Some waitingPod) []). split; [split; [vm_compute; reflexivity|done]|]. eapply rtc_once.
    exact (daemon_patches (mkPodState (Some waitingPod) []) waitingPod _ _ _ _ _ _ _ _ _ _ _ (listing_exec 100) Hh eq_refl). }
  cbn [mbind prog_mbind prog_bind perform reconcileUntilCancelled negb].
  unfold wait_Reconcile. rewrite bool_decide_true by done. cbn [mbind prog_mbind prog_bind perform negb].
  eapply (exec_vis pod_world (WGetPod ("ns", "dp")) _ _ (inr releasedPod)).
  { eexists. split; [by split|reflexivity]. }
  replace (ObjectHasAnnotationKey releasedPod DevicePluginWaitConfigAnnotation) with false by (vm_compute; reflexivity).
  constructor.
Qed.

Lemma device_plugin_starts_configured_witness :
  ∃ s tr, exec pod_world (runWaitForConfigCmd "dp" "ns" [("ns", "dp")]) (mkPodState (Some freshPod) []) tr WReleased s ∧
    ∃ t vars dn h, ps_released s = [] ++ t ∧ (vars, dn, h) ∈ t ∧ configured vars dn h.
Proof.
  destruct listing_patches as [h Hh]. destruct (released_run h Hh) as [tr Hex]. do 2 eexists. split; [exact Hex|].
  destruct (wp_exec pod_world _ _ _ _ _ _ _ (device_plugin_starts_configured "dp" "ns" [("ns", "dp")] (mkPodState (Some freshPod) [])) Hex) as [H _].
  exact (H eq_refl).
Defined.

(** The backoff gives up after five attempts, not ten: the fifth sleep would be
    followed by one beyond the cap, which ends it. *)
Definition countGets (n : nat) (r : WaitReq) : nat := match r with WGetPod _ => S n | _ => n end.

Definition counting : World WaitResp := {| w_state := nat; w_step := λ n r _ n', n' = countGets n r |}.

Lemma annotatePod_gets name (n : w_state counting) :
  wp counting (λ _ _, True) (annotatePod name) (λ _ n', n' = S n) n.
Proof.
  unfold annotatePod, AnnotateObject. apply wp_perform; [done|]. intros [e|pod] n1 ->; [done|].
  apply wp_bind. destruct (String.eqb _ _); [done|]. apply wp_perform; [done|]. by intros [e|q] n2 ->.
Qed.

Theorem setAnnotationOnPod_attempts name (n : w_state counting) :
  wp counting (λ _ _, True) (setAnnotationOnPod name)
    (λ ok n', (n' ≤ n + 5)%nat ∧ (ok = false → n' = (n + 5)%nat)) n.
Proof.
  unfold setAnnotationOnPod, ExponentialBackoff. cbn [annotationBackoff b_Steps b_Duration b_Factor b_Cap].
  assert (Hstep : ∀ (k : nat) d c (m : w_state counting), m = (n + k)%nat → (k < 5)%nat →
    (∀ m' : w_state counting, m' = (n + S k)%nat →
       wp counting (λ _ _, True) c (λ ok n', (n' ≤ n + 5)%nat ∧ (ok = false → n' = (n + 5)%nat)) m') →
    wp counting (λ _ _, True) (ok ← annotatePod name; if ok : bool then Ret true else perform (WSleep d) ≫= λ _, c)
      (λ ok n', (n' ≤ n + 5)%nat ∧ (ok = false → n' = (n + 5)%nat)) m).
  { intros k d c m -> Hk Hc. apply wp_bind. eapply wp_post; [apply annotatePod_gets|].
    intros [] m1 ->; [apply wp_ret; cbn; split; [lia|done]|]. apply wp_perform; [done|]. intros [] m2 ->. apply Hc. cbn. lia. }
  cbn [backoffLoop Z.eqb Z.ltb Z.compare Z.mul negb andb].
  apply (Hstep 0%nat); [lia..|]. intros m1 H1. apply (Hstep 1%nat); [done|lia|]. intros m2 H2.
  apply (Hstep 2%nat); [done|lia|]. intros m3 H3. apply (Hstep 3%nat); [done|lia|]. intros m4 H4.
  apply (Hstep 4%nat); [done|lia|]. intros m5 H5. apply wp_ret. subst. split; [lia|done].
Qed.
