(* ===== verification/Commands.v ===== *)
(** * The other commands

    What the operator does when it stops (pkg/utils/shutdown.go), the command
    that deletes the operator's configuration when the operator is uninstalled
    (cmd/sriov-network-operator-config-cleanup/cleanup.go), the daemon's event
    recorder (pkg/daemon/event_recorder.go), and the server of the webhook
    (cmd/webhook/start.go, pkg/webhook/config.go). *)
From S2P Require Import Prelude GoLib Types Selector Webhook Mutate Effects Kube NetworkController OperatorConfig.

(** ** Deleting the configuration *)

Inductive CleanReq :=
| KNewClient
| KGet (namespace name : string)
| KDelete (namespace name : string)
| KSleep (nanoseconds : Z).

Definition CleanResp (r : CleanReq) : Type :=
  match r with
  | KNewClient => bool
  | KGet _ _ | KDelete _ _ => option KubeError
  | KSleep _ => unit
  end.

(** How the command ends; [CleanPanic] is the call on a client that could not be
    made, [CleanRunning] that it still waits after the given number of polls. *)
Inductive CleanEnd := CleanDone | CleanError (e : KubeError) | CleanPanic | CleanRunning.

Definition pollInterval : Z := 100000000.

(** The loop at the end: until the object is gone. *)
Fixpoint waitDeleted (polls : nat) (namespace : string) : prog CleanResp CleanEnd :=
  match polls with
  | O => Ret CleanRunning
  | S polls' =>
      r ← perform (KGet namespace "default");
      match r with
      | Some e => Ret (if IsNotFound e then CleanDone else CleanError e)
      | None => perform (KSleep pollInterval) ≫= λ _, waitDeleted polls' namespace
      end
  end.

Definition runCleanupCmd (polls : nat) (namespace : string) : prog CleanResp CleanEnd :=
  ok ← perform KNewClient;
  if negb ok then Ret CleanPanic
  else
    r ← perform (KGet namespace "default");
    match r with
    | Some e => Ret (if IsNotFound e then CleanDone else CleanError e)
    | None =>
        d ← perform (KDelete namespace "default");
        match d with
        | Some e => Ret (if IsNotFound e then CleanDone else CleanError e)
        | None => waitDeleted polls namespace
        end
    end.

(** The timeout of the context, [time.Second * time.Duration(watchTO)]. *)
Definition watchTimeout (watchTO : Z) : Z := wrap64 (1000000000 * watchTO).

(** *** The clock and the object *)

Record CleanState := mkCleanState { cs_now : Z; cs_exists : bool }.

(** Time passes; a request whose context has ended fails with the context's
    error; the configuration, the object [default] of the operator's namespace,
    disappears when its finalizers are gone, and nobody makes a new one.  An
    answer about another object says nothing about it. *)
Definition clean_step (deadline : Z) (operatorNamespace : string) (s : CleanState) (r : CleanReq) : CleanResp r → CleanState → Prop :=
  let later d s' := cs_now s + d ≤ cs_now s' ∧ (cs_exists s' = true → cs_exists s = true) in
  let answer (namespace name : string) (x : option KubeError) s' :=
    later 0 s' ∧ (deadline ≤ cs_now s → ∃ msg, x = Some (ErrAPI msg)) ∧
    (x = Some ErrNotFound → namespace = operatorNamespace → name = "default" → cs_exists s' = false) in
  match r with
  | KNewClient => λ _ s', later 0 s'
  | KGet namespace name => answer namespace name
  | KDelete namespace name => answer namespace name
  | KSleep d => λ _ s', later d s'
  end.

Definition clean_world (deadline : Z) (operatorNamespace : string) : World CleanResp :=
  {| w_state := CleanState; w_step := clean_step deadline operatorNamespace |}.

(** The polls that fit into the time that is left, and the one that fails. *)
Definition pollsLeft (deadline now : Z) : nat := S (Z.to_nat ((deadline - now + pollInterval - 1) / pollInterval)).

Definition cleanEnds (r : CleanEnd) (s : CleanState) : Prop :=
  r ≠ CleanRunning ∧ (r = CleanDone → cs_exists s = false).

Lemma cleanEnds_error e s : (e = ErrNotFound → cs_exists s = false) → cleanEnds (if IsNotFound e then CleanDone else CleanError e) s.
Proof. intros H. unfold IsNotFound. case_bool_decide; split; done || auto. Qed.

Lemma waitDeleted_ends deadline namespace polls (s : w_state (clean_world deadline namespace)) :
  (pollsLeft deadline (cs_now s) ≤ polls)%nat →
  wp (clean_world deadline namespace) (λ _ _, True) (waitDeleted polls namespace) cleanEnds s.
Proof.
  revert s. induction polls as [|polls IH]; intros s Hp; [unfold pollsLeft in Hp; lia|].
  cbn [waitDeleted]. apply wp_perform; [done|]. intros [e|] s1 ((Hn & He) & Hd & Hx).
  { apply wp_ret, cleanEnds_error. intros ->. by apply Hx. }
  apply wp_perform; [done|]. intros [] s2 [Hn2 _]. apply IH.
  destruct (Z.le_gt_cases deadline (cs_now s)) as [Hle|Hlt]; [by destruct (Hd Hle)|].
  unfold pollsLeft, pollInterval in *.
  assert ((deadline - cs_now s2 + 100000000 - 1) / 100000000 ≤ (deadline - cs_now s + 100000000 - 1) / 100000000 - 1).
  { replace ((deadline - cs_now s + 100000000 - 1) / 100000000 - 1)
      with ((deadline - cs_now s - 100000000 + 100000000 - 1) / 100000000).
    - apply Z.div_le_mono; lia.
    - replace (deadline - cs_now s - 100000000 + 100000000 - 1) with ((deadline - cs_now s + 100000000 - 1) + (-1) * 100000000) by lia.
      rewrite Z.div_add by lia. lia. }
  assert (0 < (deadline - cs_now s + 100000000 - 1) / 100000000) by (apply Z.div_str_pos; lia). lia.
Qed.

(** C36: the cleanup command always ends: whatever the API server answers and
    however long it takes, the context's timeout bounds the polls (ten for every
    second), also where the multiplication of the flag overflows; and when it
    reports success the configuration -- the object [default] of the namespace it
    was given -- is gone. *)
Theorem cleanup_terminates watchTO namespace (now : Z) (exists_ : bool) :
  let deadline := now + watchTimeout watchTO in
  wp (clean_world deadline namespace) (λ _ _, True)
    (runCleanupCmd (S (Z.to_nat ((watchTimeout watchTO + pollInterval - 1) / pollInterval))) namespace)
    cleanEnds (mkCleanState now exists_).
Proof.
  intros deadline. unfold runCleanupCmd. apply wp_perform; [done|]. intros ok s1 [Hn1 _]. cbn in Hn1.
  destruct ok; cbn [negb]; [|by apply wp_ret].
  apply wp_perform; [done|]. intros [e|] s2 ((Hn2 & _) & _ & Hx).
  { apply wp_ret, cleanEnds_error. intros ->. by apply Hx. }
  apply wp_perform; [done|]. intros [e|] s3 ((Hn3 & _) & _ & Hx3).
  { apply wp_ret, cleanEnds_error. intros ->. by apply Hx3. }
  apply waitDeleted_ends. unfold pollsLeft. cbn [cs_now] in *.
  assert ((deadline - cs_now s3 + pollInterval - 1) / pollInterval ≤ (watchTimeout watchTO + pollInterval - 1) / pollInterval)
    by (apply Z.div_le_mono; unfold pollInterval, deadline in *; lia). lia.
Qed.

(** ** Stopping the operator *)

(** The failure policies of the webhooks of a configuration. *)
Record WebhookConfig := mkWebhookConfig {
  wc_Kind : string;
  wc_Name : string;
  wc_FailurePolicies : list string;
}.

Definition failurePolicyIgnore := "Ignore".

Inductive StopReq :=
| SListSriovNetworks (namespace : string)
| SUpdateNetwork (cr : NetworkCR)
| SNewForConfig
| SGetWebhook (kind name : string)
| SUpdateWebhook (w : WebhookConfig).

Definition StopResp (r : StopReq) : Type :=
  match r with
  | SListSriovNetworks _ => KubeError + list NetworkCR
  | SUpdateNetwork _ | SUpdateWebhook _ => option KubeError
  | SNewForConfig => bool
  | SGetWebhook _ _ => KubeError + WebhookConfig
  end%type.

(** A run-time panic. *)
Inductive StopPanic := NilClientset | NoWebhooks.

Abbreviation stopM := (prog StopResp).

Fixpoint clearFinalizers (items : list NetworkCR) : stopM unit :=
  match items with
  | [] => Ret tt
  | instance :: rest =>
      if bool_decide (cr_Finalizers instance = []) then clearFinalizers rest
      else
        let '(l, found) := RemoveString NETATTDEFFINALIZERNAME (cr_Finalizers instance) in
        if found : bool then perform (SUpdateNetwork (SetFinalizers l instance)) ≫= λ _, clearFinalizers rest
        else clearFinalizers rest
  end.

(** [updateFinalizers] of shutdown.go. *)
Definition Shutdown_updateFinalizers (Namespace : string) : stopM unit :=
  r ← perform (SListSriovNetworks Namespace);
  match r with
  | inl _ => Ret tt
  | inr items => clearFinalizers items
  end.

(** Get, set the policy of the first webhook, update; errors are logged. *)
Definition ignoreFailures (kind name : string) : stopM (StopPanic + unit) :=
  r ← perform (SGetWebhook kind name);
  match r with
  | inl _ => Ret (inr tt)
  | inr w =>
      match wc_FailurePolicies w with
      | [] => Ret (inl NoWebhooks)
      | _ :: l =>
          perform (SUpdateWebhook (mkWebhookConfig (wc_Kind w) (wc_Name w) (failurePolicyIgnore :: l))) ≫= λ _, Ret (inr tt)
      end
  end.

Definition updateValidatingWebhook : stopM (StopPanic + unit) :=
  ignoreFailures "ValidatingWebhookConfiguration" OperatorWebHookName.

Definition updateMutatingWebhooks : stopM (StopPanic + unit) :=
  ignoreFailures "MutatingWebhookConfiguration" OperatorWebHookName ;;!
  ignoreFailures "MutatingWebhookConfiguration" InjectorWebHookName.

(** A clientset that could not be made is nil. *)
Definition updateWebhooks : stopM (StopPanic + unit) :=
  ok ← perform SNewForConfig;
  if negb ok then Ret (inl NilClientset)
  else updateValidatingWebhook ;;! updateMutatingWebhooks.

Definition Shutdown (Namespace : string) : stopM (StopPanic + unit) :=
  Shutdown_updateFinalizers Namespace ≫= λ _, updateWebhooks.

(** ** Events of the daemon *)

(** The calls, the node's name and the operator's namespace are given by the
    caller. *)
Section events.
Context {R : Type} {resp : R → Type}.
Context (Get : string → string → prog resp (KubeError + SriovNetworkNodeState)).
Context (Eventf : SriovNetworkNodeState → string → string → string → prog resp unit).

Definition SendEvent (Namespace NodeName : string) (eventType msg : string) : prog resp unit :=
  r ← Get Namespace NodeName;
  match r with
  | inl _ => Ret tt
  | inr nodeState => Eventf nodeState EventTypeNormal eventType msg
  end.
End events.

(** ** What stopping leaves behind *)

(** [cl_failed]: some request has failed. *)
Record Cluster := mkCluster {
  cl_networks : gmap (string * string) NetworkCR;
  cl_webhooks : gmap (string * string) (list string);
  cl_failed : bool;
}.

Definition keyOf (cr : NetworkCR) : string * string := (om_Namespace (cr_meta cr), om_Name (cr_meta cr)).
Definition failing (s : Cluster) : Cluster := mkCluster (cl_networks s) (cl_webhooks s) true.

Definition stop_step (s : Cluster) (r : StopReq) : StopResp r → Cluster → Prop :=
  match r with
  | SListSriovNetworks ns => λ x s',
      match x with
      | inl _ => s' = failing s
      | inr l => s' = s ∧ NoDup (keyOf <$> l) ∧
                 ∀ cr, cr ∈ l ↔ om_Namespace (cr_meta cr) = ns ∧ cl_networks s !! keyOf cr = Some cr
      end
  | SUpdateNetwork cr => λ x s',
      s' = match x with
           | Some _ => failing s
           | None => mkCluster (<[keyOf cr := cr]> (cl_networks s)) (cl_webhooks s) (cl_failed s)
           end
  | SNewForConfig => λ x s', s' = if x : bool then s else failing s
  | SGetWebhook kind name => λ x s',
      match x with
      | inl e => s' = failing s ∨ s' = s ∧ cl_webhooks s !! (kind, name) = None
      | inr w => s' = s ∧ wc_Kind w = kind ∧ wc_Name w = name ∧
                 cl_webhooks s !! (kind, name) = Some (wc_FailurePolicies w)
      end
  | SUpdateWebhook w => λ x s',
      s' = match x with
           | Some _ => failing s
           | None => mkCluster (cl_networks s) (<[(wc_Kind w, wc_Name w) := wc_FailurePolicies w]> (cl_webhooks s)) (cl_failed s)
           end
  end.

Definition stop_world : World StopResp := {| w_state := Cluster; w_step := stop_step |}.
Abbreviation wpstop := (wp stop_world (λ _ _, True)).

Definition cleared (cr : NetworkCR) : NetworkCR :=
  SetFinalizers (RemoveString NETATTDEFFINALIZERNAME (cr_Finalizers cr)).1 cr.

Lemma cleared_unfinalized cr : NETATTDEFFINALIZERNAME ∉ cr_Finalizers (cleared cr).
Proof.
  cbn. intros [_ H]%list_elem_of_In%filter_In. by rewrite String.eqb_refl in H.
Qed.

Lemma cleared_same cr : (RemoveString NETATTDEFFINALIZERNAME (cr_Finalizers cr)).2 = false → cleared cr = cr.
Proof.
  unfold cleared, RemoveString. cbn [fst snd]. rewrite existsb_not_elem. intros H.
  replace (List.filter _ (cr_Finalizers cr)) with (cr_Finalizers cr); [by destruct cr|].
  induction (cr_Finalizers cr) as [|x l IH]; [done|]. cbn [List.filter].
  rewrite (H x) by set_solver. cbn. f_equal. apply IH. intros y Hy. apply H. set_solver.
Qed.

(** Networks in [items] are cleared, the others and the webhooks stay. *)
Definition clearedIn (items : list NetworkCR) (s s' : Cluster) : Prop :=
  cl_failed s' = true ∨
  cl_failed s' = cl_failed s ∧ cl_webhooks s' = cl_webhooks s ∧
  (∀ cr, cr ∈ items → cl_networks s' !! keyOf cr = Some (cleared cr)) ∧
  ∀ k, k ∉ keyOf <$> items → cl_networks s' !! k = cl_networks s !! k.

Lemma failed_stays {A} (p : stopM A) (s : w_state stop_world) :
  cl_failed s = true → wpstop p (λ _ s', cl_failed s' = true) s.
Proof.
  revert s. induction p as [a|r k IH]; intros s Hf; [done|]. split; [done|]. intros x s' Hs. apply IH.
  destruct r; cbn in Hs; repeat case_match; naive_solver.
Qed.

Lemma clearFinalizers_spec items (s : w_state stop_world) :
  NoDup (keyOf <$> items) → (∀ cr, cr ∈ items → cl_networks s !! keyOf cr = Some cr) →
  wpstop (clearFinalizers items) (λ _ s', clearedIn items s s') s.
Proof.
  revert s. induction items as [|cr items IH]; intros s Hnd Hin; cbn [clearFinalizers].
  { apply wp_ret. right. split_and!; [done..|set_solver|done]. }
  rewrite fmap_cons, NoDup_cons in Hnd. destruct Hnd as [Hcr Hnd].
  assert (Hskip : cleared cr = cr → wpstop (clearFinalizers items) (λ _ s', clearedIn (cr :: items) s s') s).
  { intros Hc. eapply wp_post; [apply IH; [done|set_solver]|]. intros [] s1 [H|(Hf & Hw & Hi & Ho)]; [by left|right].
    split_and!; [done..| |set_solver]. intros c [->|Hc']%elem_of_cons; [|by apply Hi].
    rewrite Ho by done. rewrite Hc. by apply Hin, list_elem_of_here. }
  case_bool_decide as Hnil; [apply Hskip, cleared_same; by rewrite Hnil|].
  destruct (RemoveString _ _) as [l found] eqn:Hrm. destruct found; [|by apply Hskip, cleared_same; rewrite Hrm].
  apply wp_perform; [done|]. assert (Hl : SetFinalizers l cr = cleared cr) by (unfold cleared; by rewrite Hrm).
  intros [e|] s1 Hs1; cbn in Hs1; subst s1.
  { eapply wp_post; [by apply failed_stays|]. intros [] s2 H. by left. }
  rewrite Hl. assert (Hk : keyOf (cleared cr) = keyOf cr) by done. rewrite Hk.
  eapply wp_post; [apply IH; [done|]|].
  { cbn. intros c Hc. rewrite lookup_insert_ne; [set_solver|]. intros E. apply Hcr. rewrite E. by apply list_elem_of_fmap_2. }
  intros [] s2 [H|(Hf & Hw & Hi & Ho)]; [by left|right]. cbn in *. split_and!; [done..| |].
  - intros c [->|Hc]%elem_of_cons; [|by apply Hi]. rewrite Ho by done. by rewrite lookup_insert_eq.
  - intros k Hk'. rewrite Ho by set_solver. rewrite lookup_insert_ne by set_solver. done.
Qed.

Lemma ignoreFailures_spec kind name (s : w_state stop_world) :
  (∀ k l, cl_webhooks s !! k = Some l → l ≠ []) →
  wpstop (ignoreFailures kind name)
    (λ r s', cl_failed s' = true ∨
       r = inr tt ∧ cl_networks s' = cl_networks s ∧
       (∀ k l, cl_webhooks s' !! k = Some l → l ≠ []) ∧
       (∀ l, cl_webhooks s' !! (kind, name) = Some l → head l = Some failurePolicyIgnore) ∧
       ∀ k l, cl_webhooks s' !! k = Some l → cl_webhooks s !! k = Some l ∨ head l = Some failurePolicyIgnore) s.
Proof.
  intros Hne. unfold ignoreFailures. apply wp_perform; [done|]. intros [e|w] s1 Hs1; cbn in Hs1.
  { destruct Hs1 as [->|[-> Hn]]; apply wp_ret; [by left|right]. split_and!; [done..| |auto].
    intros l Hl. by rewrite Hl in Hn. }
  destruct Hs1 as (-> & Hk & Hn & Hw). destruct (wc_FailurePolicies w) as [|p l]; [by apply Hne in Hw|].
  apply wp_perform; [done|]. intros [e|] s2 ->; apply wp_ret; [by left|right]. cbn. rewrite Hk, Hn.
  split_and!; [done..| | |].
  - intros k l' [[_ <-]|[_ H]]%lookup_insert_Some; [done|by eapply Hne].
  - intros l'. rewrite lookup_insert_eq. by intros [= <-].
  - intros k l' [[_ <-]|[_ H]]%lookup_insert_Some; auto.
Qed.

(** The webhook configurations whose failures are ignored after a stop. *)
Definition stoppedWebhooks : list (string * string) :=
  [("ValidatingWebhookConfiguration", OperatorWebHookName); ("MutatingWebhookConfiguration", OperatorWebHookName);
   ("MutatingWebhookConfiguration", InjectorWebHookName)].

(** Unless a request fails, a stop leaves no SriovNetwork of the operator's
    namespace with the finalizer, touches no network elsewhere, and the three
    webhook configurations ignore the failures of their first webhook. *)
Theorem Shutdown_spec ns (s : w_state stop_world) :
  (∀ k cr, cl_networks s !! k = Some cr → k = keyOf cr) → (∀ k l, cl_webhooks s !! k = Some l → l ≠ []) →
  cl_failed s = false →
  wpstop (Shutdown ns)
    (λ r s', cl_failed s' = true ∨
       r = inr tt ∧
       (∀ k cr, cl_networks s' !! k = Some cr → k.1 = ns → NETATTDEFFINALIZERNAME ∉ cr_Finalizers cr) ∧
       (∀ k, k.1 ≠ ns → cl_networks s' !! k = cl_networks s !! k) ∧
       (∀ k l, k ∈ stoppedWebhooks → cl_webhooks s' !! k = Some l → head l = Some failurePolicyIgnore)) s.
Proof.
  intros Hkey Hne Hf. unfold Shutdown, Shutdown_updateFinalizers. apply wp_bind, wp_perform; [done|].
  intros [e|items] s1 Hs1; cbn in Hs1.
  { subst s1. eapply wp_post; [by apply failed_stays|]. intros [] s2 H2.
    eapply wp_post; [by apply failed_stays|]. intros r s3 H3. by left. }
  destruct Hs1 as (-> & Hnd & Hitems). eapply wp_post.
  { apply clearFinalizers_spec; [done|]. intros cr Hcr. by apply Hitems in Hcr as [_ ?]. }
  intros [] s1 [H|(Hf1 & Hw1 & Hi & Ho)].
  { eapply wp_post; [by apply failed_stays|]. intros r s3 H3. by left. }
  assert (Hnets : ∀ k cr, cl_networks s1 !! k = Some cr → k.1 = ns → NETATTDEFFINALIZERNAME ∉ cr_Finalizers cr).
  { intros k cr Hk Hns. destruct (decide (k ∈ keyOf <$> items)) as [Hin|Hout].
    - apply list_elem_of_fmap in Hin as (c & -> & Hc). rewrite (Hi c Hc) in Hk. injection Hk as <-.
      apply cleared_unfinalized.
    - exfalso. apply Hout. rewrite Ho in Hk by done. pose proof (Hkey _ _ Hk) as ->. apply list_elem_of_fmap_2, Hitems. done. }
  assert (Hother : ∀ k, k.1 ≠ ns → cl_networks s1 !! k = cl_networks s !! k).
  { intros k Hk. apply Ho. intros (c & -> & Hc)%list_elem_of_fmap. by apply Hitems in Hc as [? _]. }
  rewrite <- Hw1 in Hne. clear Hi Ho Hitems Hkey Hw1.
  unfold updateWebhooks. apply wp_perform; [done|]. intros [] s2 Hs2; cbn in Hs2; subst s2; [|by apply wp_ret; left].
  cbn [negb]. unfold updateValidatingWebhook, updateMutatingWebhooks.
  assert (Hlate : ∀ {A} (p : stopM A) Q (s : w_state stop_world), cl_failed s = true →
    (∀ a s', cl_failed s' = true → Q a s') → wpstop p Q s).
  { intros A p Q s0 H0 HQ. eapply wp_post; [by apply failed_stays|]. auto. }
  apply wp_try. eapply wp_post; [by apply ignoreFailures_spec|].
  intros r s2 [H|(-> & N2 & E2 & W2 & _)]; [destruct r; [by left|apply Hlate; [done|by left]]|].
  apply wp_try. eapply wp_post; [by apply ignoreFailures_spec|].
  intros r s3 [H|(-> & N3 & E3 & W3 & K3)]; [destruct r; [by left|apply Hlate; [done|by left]]|].
  eapply wp_post; [by apply ignoreFailures_spec|].
  intros r s4 [H|(-> & N4 & E4 & W4 & K4)]; [by left|right].
  split_and!; [done|by rewrite N4, N3, N2|by rewrite N4, N3, N2|].
  intros k l Hk Hl. apply K4 in Hl as Hl'. destruct Hl' as [Hl'|?]; [|done].
  unfold stoppedWebhooks in Hk. rewrite !elem_of_cons in Hk.
  destruct Hk as [->|[->|[->|Hk]]]; [| |by apply W4|by apply not_elem_of_nil in Hk].
  - apply K3 in Hl' as [Hl'|?]; [by apply W2|done].
  - by apply W3.
Qed.

(** ** The end of main (main.go)

    The two managers run in goroutines that send their error when they end.
    [main] waits for a signal or for one of them. *)

Inductive MainEvent := StopSignal | GlobalManagerEnded | NamespacedManagerEnded.

Inductive MainAction :=
| GlobalManagerCancel
| NamespacedManagerCancel
| AwaitGlobalManager
| AwaitNamespacedManager
| RunShutdown
| Exit (code : Z).

Definition main_select (e : MainEvent) : list MainAction :=
  match e with
  | StopSignal => [GlobalManagerCancel; NamespacedManagerCancel; AwaitGlobalManager; AwaitNamespacedManager; RunShutdown]
  | GlobalManagerEnded => [NamespacedManagerCancel; AwaitNamespacedManager; RunShutdown; Exit 1]
  | NamespacedManagerEnded => [GlobalManagerCancel; AwaitGlobalManager; RunShutdown; Exit 1]
  end.

Inductive Manager := Running | Cancelled | Ended.

(** The managers ([Ended]: its error was received, so it has stopped) and whether
    the operator was shut down.  Waiting is sure to end for a manager that was
    cancelled.  [None]: main may wait for ever, or shuts down while a manager may
    still run. *)
Definition main_action (s : Manager * Manager * bool) (a : MainAction) : option (Manager * Manager * bool) :=
  let '(g, n, down) := s in
  match a with
  | GlobalManagerCancel => Some (match g with Running => Cancelled | _ => g end, n, down)
  | NamespacedManagerCancel => Some (g, match n with Running => Cancelled | _ => n end, down)
  | AwaitGlobalManager => match g with Cancelled => Some (Ended, n, down) | _ => None end
  | AwaitNamespacedManager => match n with Cancelled => Some (g, Ended, down) | _ => None end
  | RunShutdown => match g, n with Ended, Ended => Some (g, n, true) | _, _ => None end
  | Exit _ => Some s
  end.

Fixpoint main_actions (s : Manager * Manager * bool) (l : list MainAction) : option (Manager * Manager * bool) :=
  match l with
  | [] => Some s
  | a :: rest => s' ← main_action s a; main_actions s' rest
  end.

Definition main_start (e : MainEvent) : Manager * Manager * bool :=
  match e with
  | StopSignal => (Running, Running, false)
  | GlobalManagerEnded => (Ended, Running, false)
  | NamespacedManagerEnded => (Running, Ended, false)
  end.

(** However the operator is stopped, the finalizers and webhooks are taken care
    of once, after both managers have ended, so that no controller puts a
    finalizer back. *)
Lemma main_shuts_down_last e : main_actions (main_start e) (main_select e) = Some (Ended, Ended, true).
Proof. by destruct e. Qed.

(** ** The server of the webhook *)

(** What the deserializer makes of a body: its group, version and kind, and the
    request of the review, with its UID, when it is one. *)
Record Decoded := mkDecoded { de_gvk : string; de_review : option (option (string * AdmissionRequest)) }.

Inductive ServeResult :=
| SNothing                                          (* returned without writing *)
| SHttpError (code : Z) (message : string)
| SReply (uid : string) (response : AdmissionResponse)
| SPanic.

Definition AdmissionReviewGVK := "admission.k8s.io/v1, Kind=AdmissionReview".

(** [marshals]: whether the response can be marshalled. *)
Definition serve (contentType : string) (body : string + Decoded) (marshals : option string)
    (admitv1 : AdmissionRequest → result unit AdmissionResponse) : ServeResult :=
  if negb (String.eqb contentType "application/json") then SNothing
  else match body with
  | inl e => SHttpError 400 ("Request could not be decoded: " +:+ e)
  | inr d =>
      if negb (String.eqb (de_gvk d) AdmissionReviewGVK)
      then SHttpError 400 ("Unsupported group version kind: " +:+ de_gvk d)
      else match de_review d with
      | None => SNothing
      | Some None => SPanic
      | Some (Some (uid, request)) =>
          match admitv1 request with
          | Ok response =>
              match marshals with
              | Some e => SHttpError 500 e
              | None => SReply uid response
              end
          | _ => SPanic
          end
      end
  end.

(** An answer is for the request that was asked, and is the handler's. *)
Lemma serve_reply contentType body marshals admitv1 uid response :
  serve contentType body marshals admitv1 = SReply uid response →
  ∃ d request, body = inr d ∧ de_review d = Some (Some (uid, request)) ∧ admitv1 request = Ok response.
Proof.
  unfold serve. destruct (negb _); [done|]. destruct body as [e|d]; [done|]. destruct (negb _); [done|].
  destruct (de_review d) as [[[u r]|]|] eqn:E; [|done..]. destruct (admitv1 r) as [a|e|] eqn:Ha; [|done..].
  destruct marshals; [done|]. intros [= -> ->]. eauto.
Qed.

(** *** The certificates

    A served pair is a certificate with the version of the files it was read
    from.  [ws_certUpdated] and [ws_keyUpdated]: the flags of the watcher. *)
Section certificates.
Context {Cert : Type} (certFile keyFile : string).

Record CertState := mkCertState { ws_certUpdated : bool; ws_keyUpdated : bool; ws_cert : Cert }.

(** [Reload], with what LoadX509KeyPair gives; the read lock makes a reader see
    the old or the new pair. *)
Definition Reload (load : string + Cert) (cert : Cert) : string + Cert :=
  match load with inl e => inl e | inr newCert => inr newCert end.

Definition NewTLSKeypairReloader (load : string + Cert) : string + CertState :=
  match load with inl e => inl e | inr cert => inr (mkCertState false false cert) end.

(** An event of the file watcher: the file's name, and whether its operation is
    in the mask (all are); [load]: what is in the files then.  [None]: panic. *)
Definition watcherEvent (name : string) (load : string + Cert) (s : CertState) : option CertState :=
  let certUpdated := ws_certUpdated s || String.eqb name certFile in
  let keyUpdated := ws_keyUpdated s || String.eqb name keyFile in
  if keyUpdated && certUpdated then
    match Reload load (ws_cert s) with
    | inl _ => None
    | inr cert => Some (mkCertState false false cert)
    end
  else Some (mkCertState certUpdated keyUpdated (ws_cert s)).

Fixpoint watch (events : list (string * (string + Cert))) (s : CertState) : option CertState :=
  match events with
  | [] => Some s
  | (name, load) :: rest => s' ← watcherEvent name load s; watch rest s'
  end.

(** The server always has a pair that could be loaded, the first one or one of
    an event. *)
Lemma watch_serves_loaded events s s' :
  watch events s = Some s' → ws_cert s' = ws_cert s ∨ ∃ name, (name, inr (ws_cert s')) ∈ events.
Proof using Type.
  revert s. induction events as [|[name load] events IH]; intros s; cbn; [intros [= ->]; by left|].
  unfold watcherEvent, Reload. destruct (_ && _).
  - destruct load as [e|c]; [done|]. cbn. intros [->|[n Hn]]%IH; right; [exists name|exists n]; cbn; set_solver.
  - cbn. intros [->|[n Hn]]%IH; [by left|right; exists n; set_solver].
Qed.

(** When the files of a pair have both changed since the last reload, the pair
    is the one of the event that completes it. *)
Lemma watch_reloads s c cert key :
  certFile ≠ keyFile → ws_certUpdated s = false → ws_keyUpdated s = false →
  watch [(certFile, cert); (keyFile, key)] s = Some c → inr (ws_cert c) = key.
Proof using Type.
  destruct s as [a b c0]. cbn [ws_certUpdated ws_keyUpdated]. intros Hne -> ->.
  cbn [watch]. unfold watcherEvent, Reload. cbn [ws_certUpdated ws_keyUpdated ws_cert].
  rewrite !String.eqb_refl, (proj2 (String.eqb_neq certFile keyFile)) by done. cbn.
  destruct key; [done|]. by intros [= <-].
Qed.

(** A change of one file alone is not served: the watcher waits for the other
    (a secret's volume replaces both at once). *)
Theorem reload_needs_both_files events s s' :
  certFile ≠ keyFile → ws_keyUpdated s = false → (∀ e, e ∈ events → e.1 = certFile) →
  watch events s = Some s' → ws_cert s' = ws_cert s.
Proof using Type.
  intros Hne. revert s. induction events as [|[name load] events IH]; intros s Hk He; cbn; [by intros [= ->]|].
  assert (name = certFile) as -> by exact (He (name, load) ltac:(set_solver)).
  unfold watcherEvent. rewrite Hk, (proj2 (String.eqb_neq certFile keyFile)) by done. cbn.
  intros H. apply IH in H; [exact H|done|set_solver].
Qed.
End certificates.
