(* ===== verification/StatusApply.v ===== *)
(** * Applying a status (pkg/status/patcher.go)

    The patcher sends a status with server-side apply: the configuration it
    builds names the object and holds exactly the fields and conditions its field
    manager owns.  The decisions around the request are in Kube.v; this file has
    the configurations as JSON, the server's side of an apply, and what becomes
    of a node state that the daemon and the drain controller both write. *)
From S2P Require Import Prelude GoLib Types Conditions Json Effects Kube.

(** ** The configurations *)

Section payload.
(** RFC 3339. *)
Context (Format : Z → string).

(** encoding/json on metav1.Condition: a zero generation is left out, a zero
    time is null. *)
Definition conditionJSON (c : Condition) : json :=
  JObj ([("type", JStr (c_Type c)); ("status", JStr (c_Status c))] ++
        (if c_ObservedGeneration c =? 0 then [] else [("observedGeneration", JNum (c_ObservedGeneration c))]) ++
        [("lastTransitionTime", match c_LastTransitionTime c with Some t => JStr (Format t) | None => JNull end);
         ("reason", JStr (c_Reason c)); ("message", JStr (c_Message c))]).

Definition applyConfiguration (gvk : string * string) (obj : ObjectMeta) (statusMap : jobj) : jobj :=
  [("apiVersion", JStr gvk.1); ("kind", JStr gvk.2);
   ("metadata", JObj [("name", JStr (om_Name obj)); ("namespace", JStr (om_Namespace obj))]);
   ("status", JObj statusMap)].

(** [gvk]: what the scheme knows of the object, API version and kind;
    [statusFields]: the fields after their round trip through JSON, [None] for
    null. *)
Definition buildStatusApplyConfiguration (gvk : string + string * string) (obj : ObjectMeta)
    (statusFields : string + option jobj) (conditions : list Condition) : string + jobj :=
  match gvk with
  | inl e => inl ("failed to get GVK for object: " +:+ e)
  | inr gvk =>
      match statusFields with
      | inl e => inl e
      | inr fields =>
          let statusMap := jdelete (default [] fields) "conditions" in
          inr (applyConfiguration gvk obj
                 (if bool_decide (conditions = []) then statusMap
                  else jset statusMap "conditions" (JArr (conditionJSON <$> conditions))))
      end
  end.

Definition buildConditionApplyConfiguration (gvk : string + string * string) (obj : ObjectMeta)
    (conditions : list Condition) : string + jobj :=
  match gvk with
  | inl e => inl ("failed to get GVK for object: " +:+ e)
  | inr gvk => inr (applyConfiguration gvk obj [("conditions", JArr (conditionJSON <$> conditions))])
  end.

(** ** The patcher *)

Inductive SsaReq :=
| SsaApply (fieldManager : string) (u : jobj)      (* with ForceOwnership *)
| SsaEvent (obj : ObjectMeta) (type reason message : string).

Definition SsaResp (r : SsaReq) : Type :=
  match r with
  | SsaApply _ _ => option KubeError
  | SsaEvent _ _ _ _ => unit
  end.

Record Patcher := mkPatcher { pa_fieldManager : string; pa_recorder : bool }.

Section patcher.
Context (gvk : string + string * string) {F : Type} (Marshal : F → string + option jobj) (p : Patcher).

Definition sending (u : string + jobj) : prog SsaResp (option KubeError) :=
  match u with
  | inl e => Ret (Some (ErrAPI e))
  | inr u => perform (SsaApply (pa_fieldManager p) u)
  end.

Definition event_ (obj : ObjectMeta) (type reason message : string) : prog SsaResp unit :=
  perform (SsaEvent obj type reason message).

Definition Patcher_ApplyCondition (obj : ObjectMeta) (oldConditions conditions : list Condition)
    : prog SsaResp (option KubeError) :=
  ApplyCondition (F := unit) (λ obj _ cs, sending (buildConditionApplyConfiguration gvk obj cs))
    event_ (pa_recorder p) tt obj oldConditions conditions.

Definition Patcher_ApplyStatus (obj : ObjectMeta) (oldConditions : list Condition) (statusFields : F)
    (ownedConditions : list Condition) : prog SsaResp (option KubeError) :=
  ApplyStatus (λ obj f cs, sending (buildStatusApplyConfiguration gvk obj (Marshal f) cs))
    event_ (pa_recorder p) obj oldConditions statusFields ownedConditions.
End patcher.
End payload.

(** ** The server's side

    The leaves of a status: its fields, and the conditions by their type, which
    the resource declares as the key of the list.  Each has a value and the
    managers that own it. *)

Inductive Leaf := FieldLeaf (name : string) | CondLeaf (type : string).

#[export] Instance Leaf_eq_dec : EqDecision Leaf.
Proof. solve_decision. Defined.
#[export] Instance Leaf_countable : Countable Leaf.
Proof.
  refine (inj_countable' (λ l, match l with FieldLeaf k => inl k | CondLeaf t => inr t end)
            (λ x, match x with inl k => FieldLeaf k | inr t => CondLeaf t end) _). by intros [].
Defined.

Definition condLeaves (v : json) : list (Leaf * json) :=
  match v with
  | JArr l => omap (λ c, match c with
                         | JObj m => (λ t, (CondLeaf t, JObj m)) <$> jstring (jget m "type")
                         | _ => None
                         end) l
  | _ => []
  end.

Fixpoint leafList (m : jobj) : list (Leaf * json) :=
  match m with
  | [] => []
  | (k, v) :: rest => (if String.eqb k "conditions" then condLeaves v else [(FieldLeaf k, v)]) ++ leafList rest
  end.

Definition leavesOf (u : jobj) : gmap Leaf json :=
  match jget u "status" with Some (JObj m) => list_to_map (leafList m) | _ => ∅ end.

Record Managed := mkManaged { mg_value : json; mg_owners : gset string }.

(** An apply with forced ownership: what the configuration holds is set and
    owned, together with the managers that have the same value; what the manager
    owned and no longer applies is given up, and removed with its last owner. *)
Definition ssa_leaf (m : string) (old : option Managed) (new : option json) : option Managed :=
  match new, old with
  | Some v, Some o => Some (mkManaged v (if jeq v (mg_value o) then {[m]} ∪ mg_owners o else {[m]}))
  | Some v, None => Some (mkManaged v {[m]})
  | None, Some o =>
      if decide (m ∈ mg_owners o) then
        if decide (mg_owners o ∖ {[m]} = ∅) then None else Some (mkManaged (mg_value o) (mg_owners o ∖ {[m]}))
      else Some o
  | None, None => None
  end.

Abbreviation Status := (gmap Leaf Managed).
Definition ssa (m : string) (new : gmap Leaf json) (s : Status) : Status := merge (ssa_leaf m) s new.

Definition value (s : Status) (l : Leaf) : option json := mg_value <$> s !! l.

(** Every request may fail, before or after it took effect. *)
Definition ssa_step (s : Status) (r : SsaReq) : SsaResp r → Status → Prop :=
  match r with
  | SsaApply m u => λ x s', s' = ssa m (leavesOf u) s ∨ x ≠ None ∧ s' = s
  | SsaEvent _ _ _ _ => λ _ s', s' = s
  end.

Definition ssa_world : World SsaResp := {| w_state := Status; w_step := ssa_step |}.

(** ** Reading a configuration *)

Lemma condLeaves_no_field v k : FieldLeaf k ∉ (condLeaves v).*1.
Proof.
  destruct v as [| | | |js|]; cbn; try apply not_elem_of_nil. intros ([l w] & E & H)%list_elem_of_fmap. cbn in E. subst l.
  apply list_elem_of_omap in H as (c & _ & H). destruct c; try done. by destruct (jstring _).
Qed.

Lemma leafList_field m k :
  k ≠ "conditions" → (list_to_map (leafList m) : gmap Leaf json) !! FieldLeaf k = jget m k.
Proof.
  intros Hk. induction m as [|[k' v] m IH]; [done|]. cbn [leafList jget].
  destruct (String.eqb_spec k' "conditions") as [->|Hne].
  - rewrite list_to_map_app, lookup_union_r by apply not_elem_of_list_to_map_1, condLeaves_no_field.
    rewrite (proj2 (String.eqb_neq "conditions" k)) by done. exact IH.
  - cbn [app]. rewrite list_to_map_cons. destruct (String.eqb_spec k' k) as [->|Hkk]; [by rewrite lookup_insert_eq|].
    rewrite lookup_insert_ne by congruence. exact IH.
Qed.

Lemma leafList_no_cond m t : jget m "conditions" = None → (list_to_map (leafList m) : gmap Leaf json) !! CondLeaf t = None.
Proof.
  induction m as [|[k v] m IH]; [done|]. cbn [leafList jget]. destruct (String.eqb_spec k "conditions"); [done|].
  intros H. cbn [app]. rewrite list_to_map_cons, lookup_insert_ne by done. by apply IH.
Qed.

Lemma jget_jdelete m k k' : jget (jdelete m k) k' = if String.eqb k' k then None else jget m k'.
Proof.
  unfold jdelete. induction m as [|[a v] m IH]; cbn; [by destruct (String.eqb _ _)|].
  destruct (String.eqb_spec a k) as [->|Hne]; cbn.
  - rewrite IH. destruct (String.eqb k' k) eqn:E; [done|]. by rewrite String.eqb_sym, E.
  - rewrite IH. destruct (String.eqb a k') eqn:E; [|done]. apply String.eqb_eq in E. subst a.
    by rewrite (proj2 (String.eqb_neq k' k)).
Qed.

Lemma jset_fresh m k v : jget m k = None → jset m k v = m ++ [(k, v)].
Proof. induction m as [|[a w] m IH]; cbn; [done|]. destruct (String.eqb a k); [done|]. intros H. by rewrite IH. Qed.

Lemma leafList_app m m' : leafList (m ++ m') = leafList m ++ leafList m'.
Proof. induction m as [|[k v] m IH]; [done|]. cbn. by rewrite IH, app_assoc. Qed.

Section reading.
Context (Format : Z → string).
Abbreviation conditionJSON := (conditionJSON Format).

Lemma condLeaves_conditions cs :
  condLeaves (JArr (conditionJSON <$> cs)) = (λ c, (CondLeaf (c_Type c), conditionJSON c)) <$> cs.
Proof using Type.
  induction cs as [|c cs IH]; [done|]. cbn in *. by rewrite IH.
Qed.

Lemma conditions_lookup cs t :
  (list_to_map ((λ c, (CondLeaf (c_Type c), conditionJSON c)) <$> cs) : gmap Leaf json) !! CondLeaf t =
  conditionJSON <$> FindStatusCondition cs t.
Proof using Type.
  induction cs as [|c cs IH]; [done|]. rewrite fmap_cons, list_to_map_cons. unfold FindStatusCondition. cbn [List.find].
  destruct (String.eqb_spec (c_Type c) t) as [->|Hne]; [by rewrite lookup_insert_eq|].
  rewrite lookup_insert_ne by congruence. exact IH.
Qed.

(** The leaves of the two configurations. *)
Lemma condition_leaves gvk obj cs u l :
  buildConditionApplyConfiguration Format gvk obj cs = inr u →
  leavesOf u !! l = match l with
                    | FieldLeaf _ => None
                    | CondLeaf t => conditionJSON <$> FindStatusCondition cs t
                    end.
Proof using Type.
  unfold buildConditionApplyConfiguration. destruct gvk as [e|gvk]; [done|]. intros [= <-].
  unfold leavesOf. cbn [applyConfiguration jget String.eqb Ascii.eqb Bool.eqb].
  cbn [leafList String.eqb Ascii.eqb Bool.eqb]. rewrite app_nil_r, condLeaves_conditions.
  destruct l as [k|t]; [|apply conditions_lookup].
  apply not_elem_of_list_to_map_1. rewrite <- condLeaves_conditions. apply condLeaves_no_field.
Qed.

Lemma status_leaves gvk obj fields cs u l :
  buildStatusApplyConfiguration Format gvk obj (inr fields) cs = inr u →
  leavesOf u !! l = match l with
                    | FieldLeaf k => if String.eqb k "conditions" then None else jget (default [] fields) k
                    | CondLeaf t => conditionJSON <$> FindStatusCondition cs t
                    end.
Proof using Type.
  unfold buildStatusApplyConfiguration. destruct gvk as [e|gvk]; [done|]. intros [= <-].
  set (m := jdelete (default [] fields) "conditions").
  assert (Hm : jget m "conditions" = None) by (unfold m; rewrite jget_jdelete; done).
  unfold leavesOf. cbn [applyConfiguration jget String.eqb Ascii.eqb Bool.eqb].
  replace (leafList (if bool_decide (cs = []) then m else jset m "conditions" (JArr (conditionJSON <$> cs))))
    with (leafList m ++ ((λ c, (CondLeaf (c_Type c), conditionJSON c)) <$> cs)).
  2:{ case_bool_decide as E; [by rewrite E, app_nil_r|]. rewrite jset_fresh, leafList_app by done. cbn [leafList String.eqb Ascii.eqb Bool.eqb].
      by rewrite app_nil_r, condLeaves_conditions. }
  rewrite list_to_map_app. destruct l as [k|t].
  - assert (Hnone : (list_to_map ((λ c, (CondLeaf (c_Type c), conditionJSON c)) <$> cs) : gmap Leaf json) !! FieldLeaf k = None).
    { apply not_elem_of_list_to_map_1. rewrite <- condLeaves_conditions. apply condLeaves_no_field. }
    rewrite lookup_union_l by exact Hnone. destruct (String.eqb_spec k "conditions") as [->|Hne].
    + apply not_elem_of_list_to_map_1. clear Hm Hnone. unfold m. clear m. intros Hin.
      induction (default [] fields) as [|[k v] m IH]; [by apply not_elem_of_nil in Hin|].
      cbn in Hin. destruct (String.eqb_spec k "conditions") as [->|Hk]; [by apply IH|]. cbn in Hin.
      rewrite (proj2 (String.eqb_neq k "conditions")) in Hin by done. cbn in Hin.
      apply elem_of_cons in Hin as [[= Hin]|Hin]; [by apply Hk|by apply IH].
    + rewrite leafList_field by done. unfold m. rewrite jget_jdelete. by rewrite (proj2 (String.eqb_neq _ _)).
  - rewrite lookup_union_r by (by apply leafList_no_cond). apply conditions_lookup.
Qed.
End reading.

(** ** Two managers of one status *)

Definition SriovNetworkOperatorIdentifier := "sriov-network-operator".
Definition SriovNetworkConfigDaemonIdentifier := "sriov-network-config-daemon".

(** Who writes which part of a node state's status. *)
Definition partOf (l : Leaf) : string :=
  match l with
  | CondLeaf t => if String.eqb t ConditionDraining then SriovNetworkOperatorIdentifier else SriovNetworkConfigDaemonIdentifier
  | FieldLeaf _ => SriovNetworkConfigDaemonIdentifier
  end.

Definition owned_apart (s : Status) : Prop := ∀ l o, s !! l = Some o → mg_owners o = {[partOf l]}.

(** An apply that stays in its manager's part. *)
Lemma ssa_apart m new s :
  (∀ l v, new !! l = Some v → partOf l = m) → owned_apart s →
  owned_apart (ssa m new s) ∧ ∀ l, value (ssa m new s) l = if decide (partOf l = m) then new !! l else value s l.
Proof.
  intros Hnew Hs. unfold ssa, value.
  assert (Hl : ∀ l, merge (ssa_leaf m) s new !! l = ssa_leaf m (s !! l) (new !! l)) 
    by (intros l; rewrite lookup_merge; destruct (s !! l), (new !! l); reflexivity).
  split.
  - intros l o. rewrite Hl. destruct (new !! l) as [v|] eqn:Hn, (s !! l) as [q|] eqn:Hq; cbn; [| | |done].
    + intros [= <-]. apply Hnew in Hn as <-. apply Hs in Hq. cbn. destruct (jeq _ _); [|done]. rewrite Hq. set_solver.
    + intros [= <-]. by apply Hnew in Hn as <-.
    + apply Hs in Hq as Hq'. case_decide; [|by intros [= <-]]. case_decide as Hd; [done|]. intros [= <-]. cbn.
      exfalso. apply Hd. rewrite Hq' in *. set_solver.
  - intros l. rewrite Hl. destruct (new !! l) as [v|] eqn:Hn.
    + rewrite decide_True by (by eapply Hnew). by destruct (s !! l).
    + destruct (s !! l) as [q|] eqn:Hq; cbn; [|by case_decide]. apply Hs in Hq. rewrite Hq.
      destruct (decide (partOf l = m)) as [<-|Hne].
      * rewrite decide_True by set_solver. rewrite decide_True by set_solver. done.
      * rewrite decide_False by set_solver. done.
Qed.

Section managers.
Context (Format : Z → string) (gvk : string + string * string) {F : Type} (Marshal : F → string + option jobj).
Abbreviation conditionJSON := (conditionJSON Format).

(** The patchers of the daemon and of the operator's controllers. *)
Definition daemonPatcher := mkPatcher SriovNetworkConfigDaemonIdentifier true.
Definition operatorPatcher := mkPatcher SriovNetworkOperatorIdentifier true.

Lemma wp_recordTransitions obj ts (s : w_state ssa_world) :
  wp ssa_world (λ _ _, True) (recordTransitions event_ obj ts) (λ _ s', s' = s) s.
Proof. induction ts as [|t ts IH]; cbn [recordTransitions]; [done|]. apply wp_perform; [done|]. by intros [] s' ->. Qed.

(** At most one apply, and that one if there is no error. *)
Lemma wp_sending p u obj ts (s : w_state ssa_world) (Q : option KubeError → Status → Prop) :
  (∀ e, Q (Some e) s) → (∀ u' r, u = inr u' → Q r (ssa (pa_fieldManager p) (leavesOf u') s)) →
  wp ssa_world (λ _ _, True)
    (err ← sending p u;
     match err with
     | Some e => Ret (Some e)
     | None => (if pa_recorder p then recordTransitions event_ obj ts else Ret tt) ≫= λ _, Ret None
     end) Q s.
Proof.
  intros H1 H2. apply wp_bind. destruct u as [e|u]; cbn [sending]; [apply wp_ret, wp_ret, H1|].
  split; [done|]. intros x s1 Hs. destruct x as [e|].
  - apply wp_ret. destruct Hs as [->|[_ ->]]; [by apply H2|apply H1].
  - destruct Hs as [->|[? _]]; [|done]. destruct (pa_recorder p); [|by apply wp_ret, H2].
    apply wp_bind. eapply wp_post; [apply wp_recordTransitions|]. intros [] s2 ->. by apply wp_ret, H2.
Qed.

Lemma owned_not_draining l t : t = ConditionDraining → FindStatusCondition (configurationOwnedConditions l) t = None.
Proof.
  intros ->. unfold configurationOwnedConditions, FindStatusCondition.
  assert (H : ∀ t c, List.find (λ c, String.eqb (c_Type c) t) l = Some c → c_Type c = t).
  { intros t c Hc. apply List.find_some in Hc as [_ Hc]. by apply String.eqb_eq. }
  destruct (List.find _ l) as [c|] eqn:E1; destruct (List.find (λ c, String.eqb (c_Type c) ConditionReady) l) as [d|] eqn:E2;
    try apply H in E1; try apply H in E2; cbn; rewrite ?E1, ?E2; done.
Qed.

Lemma find_preserved old cs t :
  (FindStatusCondition cs t = None ↔ FindStatusCondition (preserveTransitionTimes old cs) t = None).
Proof.
  unfold FindStatusCondition, preserveTransitionTimes. induction cs as [|c cs IH]; [done|]. rewrite fmap_cons. cbn [List.find].
  replace (c_Type (match conditionMap old !! c_Type c with
                   | Some o => if String.eqb (c_Status o) (c_Status c) then
                                 {| c_Type := c_Type c; c_Status := c_Status c; c_ObservedGeneration := c_ObservedGeneration c;
                                    c_LastTransitionTime := c_LastTransitionTime o; c_Reason := c_Reason c; c_Message := c_Message c |}
                               else c
                   | None => c end)) with (c_Type c) by (by repeat case_match).
  destruct (String.eqb _ _); [done|exact IH].
Qed.

(** Any calls of the two, with whatever they have read before. *)
Inductive written : Status → Prop :=
| written_nothing : written ∅
| written_daemon s obj old f conditions tr r s' :
    written s →
    exec ssa_world (Patcher_ApplyStatus Format gvk Marshal daemonPatcher obj old f (configurationOwnedConditions conditions))
      s tr r s' → written s'
| written_operator s obj old c tr r s' :
    written s → c_Type c = ConditionDraining →
    exec ssa_world (Patcher_ApplyCondition Format gvk operatorPatcher obj old [c]) s tr r s' → written s'.

(** The daemon's call in a state that is owned apart. *)
Lemma daemon_apply obj old f conditions s :
  owned_apart s →
  wp ssa_world (λ _ _, True)
    (Patcher_ApplyStatus Format gvk Marshal daemonPatcher obj old f (configurationOwnedConditions conditions))
    (λ r s', owned_apart s' ∧ value s' (CondLeaf ConditionDraining) = value s (CondLeaf ConditionDraining) ∧
       (r = None → ∃ m, Marshal f = inr m ∧
          (∀ k, k ≠ "conditions" → value s' (FieldLeaf k) = jget (default [] m) k) ∧
          ∀ t, t ≠ ConditionDraining → value s' (CondLeaf t) =
            conditionJSON <$> FindStatusCondition (preserveTransitionTimes old (configurationOwnedConditions conditions)) t)) s.
Proof using Type.
  intros Hs. unfold Patcher_ApplyStatus, ApplyStatus.
  set (cs := preserveTransitionTimes old (configurationOwnedConditions conditions)).
  destruct (buildStatusApplyConfiguration Format gvk obj (Marshal f) cs) as [e|u] eqn:Hb; rewrite ?Hb; [done|].
  apply (wp_sending daemonPatcher (inr u)); [done|]. intros u' r [= <-].
  destruct (Marshal f) as [e|m]; [by destruct gvk|].
  pose proof (λ l, status_leaves _ _ _ _ _ _ l Hb) as Hl.
  destruct (ssa_apart SriovNetworkConfigDaemonIdentifier (leavesOf u) s) as [Ho Hv]; [|done|].
  { intros l v. rewrite Hl. destruct l as [k|t]; [done|]. cbn. destruct (String.eqb_spec t ConditionDraining) as [E|]; [|done].
    unfold cs. rewrite (proj1 (find_preserved old _ t)); [done|]. by apply owned_not_draining. }
  split_and!; [done|by rewrite Hv|]. intros _. exists m. split; [done|]. split.
  - intros k Hk. rewrite Hv, decide_True, Hl by done. by rewrite (proj2 (String.eqb_neq k _)).
  - intros t Ht. rewrite Hv, decide_True; [by rewrite Hl|]. cbn. by rewrite (proj2 (String.eqb_neq t _)).
Qed.

(** The operator's. *)
Lemma operator_apply obj old c s :
  owned_apart s → c_Type c = ConditionDraining →
  wp ssa_world (λ _ _, True) (Patcher_ApplyCondition Format gvk operatorPatcher obj old [c])
    (λ r s', owned_apart s' ∧ (∀ l, l ≠ CondLeaf ConditionDraining → value s' l = value s l) ∧
       (r = None → value s' (CondLeaf ConditionDraining) =
                     conditionJSON <$> head (preserveTransitionTimes old [c]) ∨
                   s' = s ∧ HasTransitions old (preserveTransitionTimes old [c]) = false)) s.
Proof using Type.
  intros Hs Hc. unfold Patcher_ApplyCondition, ApplyCondition. cbn [bool_decide].
  set (cs := preserveTransitionTimes old [c]). rewrite bool_decide_false by done. unfold HasTransitions. case_bool_decide.
  { apply wp_ret. split_and!; [done..|]. intros _. by right. }
  destruct (buildConditionApplyConfiguration Format gvk obj cs) as [e|u] eqn:Hb; rewrite ?Hb; [done|].
  apply (wp_sending operatorPatcher (inr u)); [done|]. intros u' r [= <-].
  pose proof (λ l, condition_leaves _ _ _ _ _ l Hb) as Hl.
  assert (Hone : ∃ c', cs = [c'] ∧ c_Type c' = ConditionDraining).
  { unfold cs, preserveTransitionTimes. cbn. eexists. split; [done|]. by repeat case_match. }
  destruct Hone as (c' & -> & Hc').
  destruct (ssa_apart SriovNetworkOperatorIdentifier (leavesOf u) s) as [Ho Hv]; [|done|].
  { intros l v. rewrite Hl. destruct l as [k|t]; [done|]. unfold FindStatusCondition. cbn. rewrite Hc', String.eqb_sym.
    by destruct (String.eqb t ConditionDraining). }
  split_and!; [done| |].
  - intros l Hne. rewrite Hv, decide_False; [done|]. destruct l as [k|t]; cbn; [done|].
    destruct (String.eqb_spec t ConditionDraining) as [->|]; done.
  - intros _. left. rewrite Hv, decide_True, Hl by done. unfold FindStatusCondition. cbn. by rewrite Hc'.
Qed.

Lemma written_apart s : written s → owned_apart s.
Proof using Type.
  induction 1 as [|s obj old f conditions tr r s' _ IH Hex|s obj old c tr r s' _ IH Hc Hex]; [done| |].
  - by destruct (wp_exec _ _ _ _ _ _ _ _ (daemon_apply obj old f conditions s IH) Hex) as [[? _] _].
  - by destruct (wp_exec _ _ _ _ _ _ _ _ (operator_apply obj old c s IH Hc) Hex) as [[? _] _].
Qed.

(** C12: the daemon and the drain controller write the status of one node state
    without disturbing each other, whatever they read before and whichever
    requests fail: a call of the daemon leaves the Draining condition as it is,
    and if it succeeds the fields are exactly those it gave (a field it leaves
    out is gone) and so are its conditions, with the transition times kept; a
    call of the drain controller changes nothing but the Draining condition, and
    if it succeeds either writes it or found no transition to report. *)
Theorem status_managers_apart s :
  written s →
  (∀ obj old f conditions tr r s',
     exec ssa_world (Patcher_ApplyStatus Format gvk Marshal daemonPatcher obj old f (configurationOwnedConditions conditions))
       s tr r s' →
     value s' (CondLeaf ConditionDraining) = value s (CondLeaf ConditionDraining) ∧
     (r = None → ∃ m, Marshal f = inr m ∧
        (∀ k, k ≠ "conditions" → value s' (FieldLeaf k) = jget (default [] m) k) ∧
        ∀ t, t ≠ ConditionDraining → value s' (CondLeaf t) =
          conditionJSON <$> FindStatusCondition (preserveTransitionTimes old (configurationOwnedConditions conditions)) t)) ∧
  (∀ obj old c tr r s',
     c_Type c = ConditionDraining →
     exec ssa_world (Patcher_ApplyCondition Format gvk operatorPatcher obj old [c]) s tr r s' →
     (∀ l, l ≠ CondLeaf ConditionDraining → value s' l = value s l) ∧
     (r = None → value s' (CondLeaf ConditionDraining) = conditionJSON <$> head (preserveTransitionTimes old [c]) ∨
                 s' = s ∧ HasTransitions old (preserveTransitionTimes old [c]) = false)).
Proof using Type.
  intros Hw%written_apart. split.
  - intros obj old f conditions tr r s' Hex.
    by destruct (wp_exec _ _ _ _ _ _ _ _ (daemon_apply obj old f conditions s Hw) Hex) as [(_ & ? & ?) _].
  - intros obj old c tr r s' Hc Hex.
    by destruct (wp_exec _ _ _ _ _ _ _ _ (operator_apply obj old c s Hw Hc) Hex) as [(_ & ? & ?) _].
Qed.
End managers.

(** ** A run *)

Definition ssa_handle (s : Status) (r : SsaReq) : SsaResp r * Status :=
  match r with
  | SsaApply m u => (None, ssa m (leavesOf u) s)
  | SsaEvent _ _ _ _ => (tt, s)
  end.

Lemma ssa_handle_step s r : w_step ssa_world s r (ssa_handle s r).1 (ssa_handle s r).2.
Proof. destruct r; cbn; [by left|done]. Qed.

Definition exampleGvk : string + string * string := inr ("sriovnetwork.openshift.io/v1", "SriovNetworkNodeState").
Definition exampleMarshal (m : jobj) : string + option jobj := inr (Some m).
Definition exampleConditions : list Condition := [mkCond ConditionReady ConditionTrue ReasonNodeReady "ready" 1].

Definition exampleCall : prog SsaResp (option KubeError) :=
  Patcher_ApplyStatus (λ _, "now") exampleGvk exampleMarshal daemonPatcher (mkObjectMeta "node-1" "ns" 1 ∅ ∅ [])
    [] [("syncStatus", JStr "Succeeded")] (configurationOwnedConditions exampleConditions).

Definition exampleStatus : Status := (run ssa_handle exampleCall ∅).2.

Lemma exampleCall_runs : exec ssa_world exampleCall ∅ (trace ssa_handle exampleCall ∅) None exampleStatus.
Proof.
  apply (run_exec_eq ssa_world ssa_handle); [apply ssa_handle_step|].
  rewrite (surjective_pairing (run ssa_handle exampleCall ∅)). reflexivity.
Qed.

Lemma status_managers_apart_witness :
  value exampleStatus (FieldLeaf "syncStatus") = Some (JStr "Succeeded") ∧ value exampleStatus (FieldLeaf "bridges") = None.
Proof.
  destruct (status_managers_apart (λ _, "now") exampleGvk exampleMarshal ∅ ltac:(constructor)) as [H _].
  destruct (H (mkObjectMeta "node-1" "ns" 1 ∅ ∅ []) [] [("syncStatus", JStr "Succeeded")] exampleConditions _ _ _ exampleCall_runs) as [_ H']. destruct (H' eq_refl) as (m & Hm & Hf & _).
  injection Hm as <-. rewrite !Hf by done. split; reflexivity.
Defined.
